(* ===== verification/_CoqProject ===== *)
-Q . S2P
Prelude.v
Canon.v
PyJson.v
VdbStates.v
Journal.v
StateAdapter.v
Coordinator.v
CrashSafety.v
CrashProofs.v
VdbExample.v
CrashTheorems.v
Verify.v
VerifyProofs.v
VerifySound.v
VdbProperties.v
Witness.v
Eee.v
P5Engine.v
P5Proofs.v
P5Enforcer.v
P5Properties.v
MountModels.v
Lease.v
LeaseProperties.v
Consequence.v
Mounts.v
Permits.v
ConsequenceProofs.v
ConsequenceProperties.v
MountProperties.v
MountDemo.v
Correspondence.v
Merkle.v
MerkleProofs.v
MerkleProperties.v
Engine.v
EngineProperties.v
Biscuit.v
BiscuitProperties.v
BiscuitDemo.v
Registry.v
RegistryProofs.v
RegistryProperties.v
Execute.v
ExecuteProofs.v
ExecuteProperties.v
ExecuteDemo.v
JsonScan.v
Ledger.v
LedgerProofs.v
LedgerProperties.v
Breaker.v
Counter.v
Identity.v
Runs.v
RunDemo.v
RunProofs.v
RunLive.v
RunProperties.v
HttpSig.v
HttpSigProperties.v
Providers.v
Failover.v
Cache.v
ExecDemo.v
Edge.v
Budget.v
PaymentGate.v
PyLoads.v
Evidence.v
EvidenceProperties.v
Connector.v
Target.v
McpAdapter.v
McpProperties.v
PyFloat.v
Safety.v
Governance.v
McpStack.v
AdmissionDemo.v
