(* ===== verification/Prelude.v ===== *)
(** * cappo-backend: a verification library

    cappo-backend governs the side effects of agents: it mounts attenuated
    capabilities, decides and executes consequences under them at most once,
    records what happened, and keeps evidence of it that others can check.
    This library models its core in the shallow style (Python methods as Rocq
    functions, executable throughout) and proves the theorems that make it
    correct.

    ** The parts and where they are modelled

    VDB-C1, the verifiable database (src/vdb_c1).  A coordinator journals an
    intent, applies it to a sqlite store, and certifies it; recovery resolves
    what a crash interrupted; a verifier checks an exported bundle offline; a
    witness signs checkpoints of the journal.
    - Canon: canonical JSON, digests, base64url, key ids, signatures (canon.py).
    - VdbStates: the transition table and [state_after] (states.py).
    - Journal: the hash-chained file, appending and loading (journal.py).
    - StateAdapter: the store and its transactions (state_adapter.py).
    - Coordinator: submit, recover, export_bundle (coordinator.py).
    - CrashSafety, CrashProofs, CrashTheorems: the invariant of all reachable
      states, under requests, crashes at any durable write, and restarts.
    - Verify, VerifyProofs, VerifySound: the offline verifier on any JSON,
      with Python's equality, order, iteration and sorted (verify.py).
    - Witness: checkpoints and forks, with a death possible between publishing
      a checkpoint and saving the state (witness.py).
    - Eee: execution envelopes (eee.py).
    - VdbExample, VdbProperties: a concrete outside world and the theorems.

    P5, the truth engine (src/cappo_backend/p5, identity/replay_cache.py).
    - P5Engine, P5Proofs: operations, events, outbox rows, optimistic locking.
    - P5Enforcer: the truth enforcer, the replay cache, the dispatcher.
    - P5Properties: the theorems.

    Capability mounts (src/cappo_backend/capability_mount and the models it
    keeps in the database).
    - MountModels: packages, scopes, policies, grants, tokens (models.py).
    - Lease, LeaseProperties: leases and the algebra of resource bounds
      (models/capability_lease.py).
    - Biscuit, BiscuitProperties, BiscuitDemo: the signed tokens
      (security/biscuit.py).
    - Consequence: the event rows, the lifecycle recorder and executor, the
      three closures of a mount and the reconcile endpoint
      (models/consequence_execution.py, services/consequence_lifecycle.py,
      service.py, api/routers/reconciler_router.py).
    - Mounts: ownership, start claims, termination, epochs, handover
      (service.py).
    - Permits: permits and their redemption (permits.py, service.py).
    - ConsequenceProofs, ConsequenceProperties, MountProperties, MountDemo:
      the step relation [cstep] of all of these operations in any order, its
      invariant and the theorems.
    - Engine, EngineProperties: the mounter, the profile, the execution
      binding and its audit chain (engine.py, envelope.py).
    - Registry, RegistryProofs, RegistryProperties:
      [request_mount], [evaluate], [evaluate_candidates], [status].
    - Execute, ExecuteProofs, ExecuteProperties, ExecuteDemo:
      [execute_consequence], from preflight to termination.
    - Counter: the governed counter, a target adapter (effects.py).

    Evidence.
    - Merkle, MerkleProofs, MerkleProperties: the transparency log
      (security/merkle.py, merkle_ops.py).
    - Correspondence: the map from write sites to TLA+ actions
      (formal/p5_correspondence.py).
    - PyJson, JsonScan: json.dumps and the canonical hash
      (services/canonical.py), and that JSON text delimits itself.
    - Ledger, LedgerProofs, LedgerProperties: the audit and PGL ledgers and
      their verifier (services/audit_service.py, services/ledger_verifier.py,
      [_append_ledger_event] of services/pgl_client.py).

    Governed runs (src/cappo_backend: a run is decided by the policy ledger,
    executed through the gateway and attested).
    - Identity: the execution identity and its gateway checks
      (services/ei_builder.py, security/ed25519.py, the identity validation of
      security/mcp_gateway.py), and that a signed identity is one the
      gateway accepts.
    - Runs: the orchestrator, the run states, the authority-token builder, the
      certificates and the revocation (services/orchestrator.py,
      services/run_state.py, services/eat_builder.py, services/pgl_client.py,
      services/revocation_service.py).
    - RunProofs, RunLive, RunProperties: the order of effects of a
      run, its possible ends, and the theorems; RunDemo: a concrete run.

    The execution layer (src/cappo_backend/services: the executor that a run
    dispatches to).
    - Breaker: the circuit breaker (circuit_breaker.py).
    - HttpSig, HttpSigProperties: HTTP message signatures
      (security/http_signatures.py).
    - Providers: the provider clients with their retries and errors
      (executor.py, providers.py).
    - Failover: [ResilientExecutor] (executor.py), proved
      against the interface [Executor] that the clients implement.
    - Cache: the completion cache (cache.py), over the
      interface [WarmCache] of its warm tier.
    - ExecDemo: a concrete execution layer.

    Admission and money (src/cappo_backend).
    - Edge: the rules an authorization token passes
      at the edge and the nonce cache (security/edge_gateway.py,
      security/nonce_cache.py).
    - Budget: holds and their settlement over the audit ledger
      (execution/budget_ledger.py), with the payment gate's [set_budget] as a
      further writer of the balance.
    - PaymentGate: kill switches, hourly limits, free
      quota and balance (services/payment_gate.py).
    - PyLoads: json.loads, which reads back what json.dumps prints.
    - Evidence, EvidenceProperties: approval and suppression evidence
      (services/mount_evidence.py), and the mount registry with it.
    - Connector: governed appends to a sandbox file
      (execution/sandbox_file_connector.py).
    - Target: the service around that connector, with its execution and
      revocation registries, key custody and the credential broker
      (scripts/n8n_17_connector_target.py, execution/idempotency_registry.py,
      revocation_registry.py, kms.py, credential_broker.py).
    - McpAdapter, McpProperties: MCP tool calls, from the JSON-RPC request to
      the governed execution and its receipt (services/mcp_adapter.py).
    - PyFloat: Python floats, bit for bit, with the functions of statistics.
    - Safety: baselines, anomalies and the quarantine queue (services/safety.py).
    - Governance: costs, risk, correlation, policies, time windows and
      delegation (services/intelligence.py, services/governance.py).
    - McpStack: the assessment over these layers (services/mcp_v2.py), the
      adapter on it, and the authorization endpoint (services/authorization.py).
    - AdmissionDemo: a concrete token, ledger, gates, approval and tool call.

    ** How state and effects are represented

    A method that mutates durable state is a function from a world to an
    [outcome] (below): it returns, raises with the world it leaves, or dies
    with the durable world of that moment.  The world of VDB-C1 is the journal
    bytes and the store; that of the mount service the tables ([cdb]).  A
    transaction is one step where the code holds the row lock or the sqlite
    write lock for its whole body; where it holds none, the parts are steps of
    their own (the overlapping transactions of P5Proofs, the target's threads,
    publishing and saving in Witness) or the theorem says that it speaks of a
    call nothing overlaps (the payment gate's).  What several processes do in
    any order is a step relation ([cstep], [rstep], the relations of CrashSafety and P5Proofs)
    and the invariants are proved along it.  Code that raises without touching
    state is a [res].

    Code outside src is a parameter with its documented behaviour as a class:
    [Ext] (SHA-256, Ed25519, rfc8785, datetime, uuid), [Mac] (HMAC and raw
    SHA-256), [Biscuit] with [BiscuitLaws] (the biscuit package), [EiWorld] with
    [EiLaws] (hashlib, cryptography and datetime as the identity code calls
    them).  No theorem assumes that SHA-256 has no collisions: theorems that need it name a pair
    of colliding inputs otherwise.  Of rfc8785 it is assumed that it
    canonicalizes text and integers up to 2^53-1 and may raise on the rest.
    Clocks, drawn ids and secrets and the ledger's answers are arguments, and so is the registry's evidence verifier, which
    EvidenceProperties instantiates with the bound one.  Each class has a concrete instance
    (VdbExample, MountDemo, BiscuitDemo, RunDemo), on which every witness evaluates.

    ** What the theorems show

    VDB-C1: an intent is finalized exactly once, whatever crashes; the store
    refines the journal; recovery resolves everything, in homes of at most
    2^53-1 records; a finalized intent's bundle verifies exactly if it was
    admitted in its window, and whatever verifies was signed and applied; a
    witness never contradicts a checkpoint it returned; a torn write loses only
    the torn line.

    P5: every event holds its hash and its predecessor's however transactions
    overlap, and the ledger is one chain if they do not; a recorded truth was
    authorized; a jti is
    not replayed; a failing row is attempted a bounded number of times.

    Mounts: a mount never grants more than package, scope and lease; the
    signed token says what was granted; a fresh mount is usable; an evaluation
    decides by token, lease, biscuit, package and evidence and writes exactly
    one receipt; a token is allowed once; an execution dispatches at most
    once, only with all of this behind it, and records what happened; a retry
    never dispatches again; a terminated mount claims no start; epochs
    and handovers fence what came before, but not the lifecycle recorder of the
    exec route; an operation's events are one gapless stream, in which only the
    reconcile endpoint leaves the transition table; a permit is redeemed once; a governed
    counter counts the accepted increments.

    Runs: execution without an explicit ALLOW is refused before any effect; a
    run reaches its executor at most once and only as its runtime's owner, with
    a gateway also only with a live identity and token behind it; every run ends in a recorded state; an allowed run whose
    world answers is attested, and a denial is recorded.

    Execution layer: providers are called only as the authority envelope
    allows, and past one only after an authentic signed 503, until one serves;
    an accepted signed request says what was signed, and what a client signs
    is accepted; a cached answer is one given for the same workspace, tenant
    and completion; a breaker fails closed and recovers.

    Admission and money: a minted token is accepted at the edge once, while its
    nonce is held and after its expiry, on whatever clocks; the ledger conserves
    money and a hold settles at most once, with one payment and one audit event,
    and does so unless [set_budget] took the balance; the gate admits exactly the
    requests within every limit; a request refused
    for its quota keeps the slot of the node it took.  Issued evidence
    verifies while it lives, whatever verifies was signed for exactly that use, and a gated
    action is allowed only with unspent evidence of it.  An execution appends to
    the sandbox file once, with a receipt that counts its bytes; the
    service around it lets an execution through once, stops what is revoked
    before it acts, and calls a success only what is in the file; one key is
    active and a revoked one is not served; a credential is released once for
    an execution.  An MCP call reaches
    its handler only under all eight authorities, once for a nonce.  The
    assessment behind it allows exactly what no anomaly holds and the policies
    permit, whatever the hour; a held request is queued and approved only by a
    quorum; delegation chains stay short; the authorization endpoint approves
    only explicit, uncritical requests in business hours.

    Evidence: Merkle proofs are complete, and sound against the RFC 6962 tree up
    to a collision between an input the verifier hashes and one the tree hashes;
    every trace of the service corresponds to a TLA+ action but one; a ledger
    written through [record] verifies, a valid ledger is one chain whose tip
    fixes its contents, and the verifier terminates unless a row was altered to
    store another row's hash, when it can run forever.

    ** Fuel and bounds

    Structural recursion is used where the code recurses on data.  The Merkle
    routines take the fuel [fuel_for], proved sufficient by the equivalence
    with the reference tree; the ledger walk takes as many turns as there are
    rows, proved enough when stored hashes are distinct; [settle_in_flight] takes the number of polls, and
    [terminated_is_final] shows it answers once the deadline is reached; the
    retry loops of the provider clients recurse on the attempts left; a request
    to the connector's service takes at most nine steps ([execute_answers]).
    Integers are Python's, unbounded ([Z]); times are microseconds.

    ** Not modelled

    HTTP routers but the reconcile endpoint, middleware, the request processing of the MCP gateway over
    redis, the HTTP policy-ledger adapters: glue and network
    I/O over the modelled services.  Target adapters other than the governed
    counter and the sandbox file: file-system effects.  Key files, home
    initialisation and command lines.  The audit-ledger rows that anchoring adds, the COSE
    form of receipts, log lines.  The vendored x402 package, the VRE
    experiments, migrations, SDKs, and the scripts other than the connector's
    service. *)

From Stdlib Require Import ZArith Lia Ascii String.
From stdpp Require Import base gmap strings list sorting.

(** ** The effect monad

    A Python method that mutates durable state, may raise and may be killed
    is a function from a world to an [outcome]: it returns, it raises with
    the world it leaves behind, or the process dies with the durable world
    of that moment. *)
Inductive outcome (E W A : Type) :=
  | Ret (a : A) (w : W)
  | Raise (e : E) (w : W)
  | Crash (w : W).
Arguments Ret {E W A} _ _.
Arguments Raise {E W A} _ _.
Arguments Crash {E W A} _.

Definition eff (E W A : Type) : Type := W -> outcome E W A.

Section eff.
Context {E W : Type}.

Definition eret {A} (a : A) : eff E W A := fun w => Ret a w.
Definition ebind {A B} (m : eff E W A) (k : A -> eff E W B) : eff E W B :=
  fun w => match m w with
         | Ret a w' => k a w'
         | Raise e w' => Raise e w'
         | Crash w' => Crash w'
         end.
Definition eraise {A} (e : E) : eff E W A := fun w => Raise e w.
Definition eget : eff E W W := fun w => Ret w w.
Definition emod (f : W -> W) : eff E W unit := fun w => Ret tt (f w).
Definition oworld {A} (o : outcome E W A) : W :=
  match o with Ret _ w => w | Raise _ w => w | Crash w => w end.

(** What a computation guarantees from a precondition: [Q] when it returns,
    [R] when it raises, [C] when the process dies. *)
Definition spec {A} (P : W -> Prop) (m : eff E W A)
  (Q : A -> W -> Prop) (R : E -> W -> Prop) (C : W -> Prop) : Prop :=
  forall w, P w ->
  match m w with
  | Ret a w' => Q a w'
  | Raise e w' => R e w'
  | Crash w' => C w'
  end.

Lemma spec_ret {A} (a : A) (P : W -> Prop) Q R C :
  (forall w, P w -> Q a w) -> spec P (eret a) Q R C.
Proof. intros H w Hw. exact (H w Hw). Qed.

Lemma spec_raise {A} e (P : W -> Prop) (Q : A -> W -> Prop) R C :
  (forall w, P w -> R e w) -> spec P (eraise e) Q R C.
Proof. intros H w Hw. exact (H w Hw). Qed.

Lemma spec_bind {A B} (m : eff E W A) (k : A -> eff E W B) P T Q R C :
  spec P m T R C -> (forall a, spec (T a) (k a) Q R C) ->
  spec P (ebind m k) Q R C.
Proof.
  intros Hm Hk w Hw. specialize (Hm w Hw). unfold ebind.
  destruct (m w); auto. exact (Hk _ _ Hm).
Qed.

Lemma spec_conseq {A} (m : eff E W A) (P P' : W -> Prop) Q Q' R R' C C' :
  spec P' m Q' R' C' -> (forall w, P w -> P' w) ->
  (forall a w, Q' a w -> Q a w) -> (forall e w, R' e w -> R e w) ->
  (forall w, C' w -> C w) -> spec P m Q R C.
Proof.
  intros H HP HQ HR HC w Hw. specialize (H w (HP w Hw)).
  destruct (m w); auto.
Qed.

Lemma spec_pre {A} (m : eff E W A) (P P' : W -> Prop) Q R C :
  spec P' m Q R C -> (forall w, P w -> P' w) -> spec P m Q R C.
Proof. intros H HP. eapply spec_conseq; eauto. Qed.

Lemma spec_ex {A X} (m : eff E W A) (P : X -> W -> Prop) Q R C :
  (forall x, spec (P x) m Q R C) -> spec (fun w => exists x, P x w) m Q R C.
Proof. intros H w [x Hw]. exact (H x w Hw). Qed.

Lemma spec_pure {A} (m : eff E W A) (F : Prop) (P : W -> Prop) Q R C :
  (F -> spec P m Q R C) -> spec (fun w => F /\ P w) m Q R C.
Proof. intros H w [Hf Hw]. exact (H Hf w Hw). Qed.

Lemma spec_at {A} (m : eff E W A) (P : W -> Prop) Q R C :
  (forall w0, P w0 -> spec (eq w0) m Q R C) -> spec P m Q R C.
Proof. intros H w Hw. exact (H w Hw w eq_refl). Qed.

(** Reading the world: the continuation may assume which world it read. *)
Lemma spec_get {B} (k : W -> eff E W B) (P : W -> Prop) Q R C :
  (forall w0, P w0 -> spec (eq w0) (k w0) Q R C) ->
  spec P (ebind eget k) Q R C.
Proof. intros H w Hw. exact (H w Hw w eq_refl). Qed.
End eff.

Declare Scope eff_scope.
Delimit Scope eff_scope with eff.
Notation "'let!' x ':=' m 'in' k" := (ebind m (fun x => k))
  (at level 10, x name, m at level 100, k at level 200) : eff_scope.
Notation "'do!' m 'in' k" := (ebind m (fun _ => k))
  (at level 10, m at level 100, k at level 200) : eff_scope.
Open Scope eff_scope.

(** ** Results

    Code that raises but touches no state. *)
Inductive res (E A : Type) := Ok (a : A) | Err (e : E).
Arguments Ok {E A} _.
Arguments Err {E A} _.

Definition rbind {E A B} (m : res E A) (k : A -> res E B) : res E B :=
  match m with Ok a => k a | Err e => Err e end.
Notation "'let?' x ':=' m 'in' k" := (rbind m (fun x => k))
  (at level 10, x name, m at level 100, k at level 200) : eff_scope.
Notation "'do?' m 'in' k" := (rbind m (fun _ => k))
  (at level 10, m at level 100, k at level 200) : eff_scope.

Lemma rbind_Ok {E A B} (m : res E A) (k : A -> res E B) b :
  rbind m k = Ok b <-> exists a, m = Ok a /\ k a = Ok b.
Proof. destruct m; simpl; split; [eauto|by intros (? & [= ->] & ?)|done|by intros (? & ? & _)]. Qed.

(** [if c: raise e]. *)
Definition raise_if {E} (c : bool) (e : E) : res E unit := if c then Err e else Ok tt.

Lemma raise_if_Ok {E} c (e : E) u : raise_if c e = Ok u <-> c = false.
Proof. destruct c, u; split; done. Qed.

(** Peel a chain of binds that returned. *)
Ltac res_inv H :=
  repeat match type of H with
  | rbind _ _ = Ok _ => let x := fresh "v" in let E := fresh "E" in
      apply rbind_Ok in H as (x & E & H); try rewrite raise_if_Ok in E; try (clear x || idtac)
  end.

(** One step of a chain of binds, by a fact about its first computation. *)
Ltac rstep := apply rbind_Ok; eexists; split; [|cbv beta].
(** The same, by computation to [x]. *)
Ltac rstep_to x := apply rbind_Ok; exists x; split; [reflexivity|cbv beta].

(** ** Booleans and options *)

Definition str_eqb (a b : string) : bool := bool_decide (a = b).
Definition opt_eqb {A} `{EqDecision A} (a b : option A) : bool := bool_decide (a = b).

Lemma str_eqb_spec (a b : string) : str_eqb a b = true <-> a = b.
Proof. unfold str_eqb. apply bool_decide_eq_true. Qed.
Lemma str_eqb_refl (a : string) : str_eqb a a = true.
Proof. by apply str_eqb_spec. Qed.
Lemma str_eqb_neq (a b : string) : str_eqb a b = false <-> a <> b.
Proof. unfold str_eqb. apply bool_decide_eq_false. Qed.

Create HintDb cappo.
Create Rewrite HintDb cappo.
#[export] Hint Rewrite str_eqb_refl andb_true_iff orb_true_iff negb_true_iff
  andb_false_iff orb_false_iff negb_false_iff str_eqb_spec str_eqb_neq
  @bool_decide_eq_true @bool_decide_eq_false : cappo.

(** Case analysis on the scrutinee of the first [match] or [if] of the goal. *)
Ltac break_goal :=
  match goal with
  | |- context [match ?x with _ => _ end] => destruct x eqn:?
  end.
(** The same in a hypothesis. *)
Ltac break_hyp H :=
  match type of H with
  | context [match ?x with _ => _ end] => destruct x eqn:?
  end.
(** Open existentials and conjunctions everywhere. *)
Ltac open_all :=
  repeat match goal with
  | H : exists _, _ |- _ => destruct H
  | H : _ /\ _ |- _ => destruct H
  end.

(** [lia] with division and remainder by constants. *)
Ltac zdiv := Z.to_euclidean_division_equations; lia.

(** ** Logs *)

(** [xs] is an initial segment of [ys]: what "append-only" means. *)
Definition extends {A} (xs ys : list A) : Prop := exists zs, ys = xs ++ zs.

Lemma extends_refl {A} (xs : list A) : extends xs xs.
Proof. exists []. by rewrite app_nil_r. Qed.
Lemma extends_trans {A} (xs ys zs : list A) : extends xs ys -> extends ys zs -> extends xs zs.
Proof. intros [u ->] [v ->]. exists (u ++ v). by rewrite app_assoc. Qed.
Lemma extends_app {A} (xs ys : list A) : extends xs (xs ++ ys).
Proof. by exists ys. Qed.
#[export] Hint Resolve extends_refl extends_app : cappo.

#[export] Instance extends_preorder {A} : PreOrder (@extends A).
Proof. split; [intros ?; apply extends_refl | intros ???; apply extends_trans]. Qed.

Lemma extends_length {A} (xs ys : list A) : extends xs ys -> length xs <= length ys.
Proof. intros [zs ->]. rewrite length_app. lia. Qed.

Lemma extends_lookup {A} (xs ys : list A) i x :
  extends xs ys -> xs !! i = Some x -> ys !! i = Some x.
Proof. intros [zs ->] H. by apply lookup_app_l_Some. Qed.

Lemma last_snoc_Some {A} (xs : list A) x : last (xs ++ [x]) = Some x.
Proof. apply last_snoc. Qed.

(** Filters that agree on the elements of a list. *)
Lemma filter_ext_elem {A} (P Q : A -> Prop) `{!forall x, Decision (P x), !forall x, Decision (Q x)} (l : list A) :
  (forall x, x ∈ l -> P x <-> Q x) -> filter P l = filter Q l.
Proof.
  induction l as [|x l IH]; intros Hpq; [done|]. rewrite !filter_cons, IH by set_solver.
  pose proof (Hpq x (list_elem_of_here _ _)). repeat case_decide; tauto || done.
Qed.

(** ** Reflexive transitive closure with induction at the end *)
Inductive steps {S} (R : S -> S -> Prop) : S -> S -> Prop :=
  | steps_refl s : steps R s s
  | steps_snoc s1 s2 s3 : steps R s1 s2 -> R s2 s3 -> steps R s1 s3.
Arguments steps_refl {S R} _.
Arguments steps_snoc {S R} _ _ _ _ _.

Lemma steps_invariant {S} (R : S -> S -> Prop) (I : S -> Prop) s s' :
  (forall a b, I a -> R a b -> I b) -> I s -> steps R s s' -> I s'.
Proof. intros HR Hs H. induction H; eauto. Qed.

Lemma steps_trans {S} (R : S -> S -> Prop) a b c : steps R a b -> steps R b c -> steps R a c.
Proof. intros H1 H2. induction H2 as [|x y z H IH HR]; [done|].
  econstructor; [by apply IH | exact HR].
Qed.

(** A relation that every step respects and that is a preorder holds across
    any run. *)
Lemma steps_preorder {S T} (R : S -> S -> Prop) (f : S -> T) (le : T -> T -> Prop) `{!PreOrder le} a b :
  (forall x y, R x y -> le (f x) (f y)) -> steps R a b -> le (f a) (f b).
Proof. intros HR H. induction H; [reflexivity|]. etrans; eauto. Qed.

(** ** Sorting of key/value rows

    Python compares the two-element lists [[k, v]] lexicographically, by code
    point; [sorted] is a stable sort by that order. *)
Definition row_le (a b : string * string) : Prop :=
  (a.1 = b.1 /\ String.le a.2 b.2) \/ (a.1 <> b.1 /\ String.le a.1 b.1).

#[export] Instance row_le_dec : RelDecision row_le.
Proof. intros a b. unfold row_le. apply _. Defined.

#[export] Instance row_le_trans : Transitive row_le.
Proof.
  intros [a1 a2] [b1 b2] [c1 c2]. unfold row_le; simpl.
  intros [[-> H]|[Hn H]] [[-> K]|[Hk K]].
  - left. split; [done|]. by etrans.
  - right. done.
  - right. done.
  - right. split; [|by etrans]. intros ->. apply Hn. by apply (anti_symm String.le).
Qed.
#[export] Instance row_le_antisymm : AntiSymm (=) row_le.
Proof.
  intros [a1 a2] [b1 b2]. unfold row_le; simpl.
  intros [[-> H]|[Hn H]] [[? K]|[Hk K]]; try done.
  - f_equal. by apply (anti_symm String.le).
  - exfalso. apply Hn. by apply (anti_symm String.le).
Qed.
#[export] Instance row_le_total : Total row_le.
Proof.
  intros [a1 a2] [b1 b2]. unfold row_le; simpl.
  destruct (decide (a1 = b1)) as [->|Hn].
  - destruct (total String.le a2 b2); [left|right]; left; done.
  - destruct (total String.le a1 b1); [left|right]; right; split; auto.
Qed.

Definition sorted_rows (l : list (string * string)) : list (string * string) :=
  merge_sort row_le l.

Lemma sorted_rows_perm l l' : l ≡ₚ l' -> sorted_rows l = sorted_rows l'.
Proof.
  intros H. unfold sorted_rows. apply (Sorted_unique row_le).
  - apply Sorted_merge_sort. apply _.
  - apply Sorted_merge_sort. apply _.
  - by rewrite !merge_sort_Permutation.
Qed.

Lemma sorted_rows_idem l : sorted_rows (sorted_rows l) = sorted_rows l.
Proof. apply sorted_rows_perm. unfold sorted_rows. apply merge_sort_Permutation. Qed.
