(* ===== verification/Canon.v ===== *)
(** * Canonical encoding, digests, signatures, state roots (vdb_c1/canon.py)

    JSON values, base64url as [canon.b64u] / [canon.unb64u] compute it, and
    the digest, signing and state-root helpers.  What canon.py takes from
    outside the repository (rfc8785, the Ed25519 primitives of
    [cryptography], SHA-256, and the datetime and uuid parsers) is the class
    [Ext]; every definition and theorem is generic in it. *)

From Stdlib Require Import ZArith Lia Ascii String.
From stdpp Require Import base gmap strings list sorting.
From S2P Require Import Prelude.

(** JSON as [json.loads] returns it, text as its UTF-8 bytes (a lone
    surrogate, which UTF-8 cannot encode, is not represented).  A float keeps
    only its literal; its value shows only in the comparisons of [Ext]. *)
#[warnings="-register-all"]
Inductive json :=
  | JNull
  | JBool (b : bool)
  | JInt (z : Z)
  | JFloat (lit : string)
  | JStr (s : string)
  | JArr (l : list json)
  | JObj (m : list (string * json)).

Fixpoint assoc {A} (k : string) (m : list (string * A)) : option A :=
  match m with
  | [] => None
  | (k', v) :: m' => if str_eqb k' k then Some v else assoc k m'
  end.

(** [d.get(k)] on a dict; [None] also for a value that is no dict. *)
Definition jget (k : string) (j : json) : option json :=
  match j with JObj m => assoc k m | _ => None end.
Definition jstr (o : option json) : option string :=
  match o with Some (JStr s) => Some s | _ => None end.
Definition jint (o : option json) : option Z :=
  match o with Some (JInt z) => Some z | _ => None end.
Definition gets (k : string) (j : json) : option string := jstr (jget k j).
Definition geti (k : string) (j : json) : option Z := jint (jget k j).

(** [set(d) == keys]. *)
Definition keys_are (j : json) (keys : list string) : bool :=
  match j with
  | JObj m => forallb (fun k => bool_decide (k ∈ keys)) (map fst m)
              && forallb (fun k => bool_decide (k ∈ map fst m)) keys
  | _ => false
  end.

Definition jopt (o : option string) : json :=
  match o with Some s => JStr s | None => JNull end.

(** ** The outside world

    - [rfc8785_dumps]: the canonical bytes; [jcs_raises] tells on which values
      the package raises a [ValueError] instead.
    - [sha256_hex]: [hashlib.sha256(b).hexdigest()].
    - [ed_*]: Ed25519; [ed_verify pub sig msg] is [false] exactly when
      [from_public_bytes] or [verify] raises.
    - [isoformat_ms], [fromisoformat]: datetime printing at millisecond
      precision and its parser, on microseconds since the epoch.
    - [uuid_ok]: [uuid.UUID(s)] does not raise.
    - [float_eqb], [float_is]: Python's [==] between two float literals, and
      between a float literal and an int; [float_ltb], [float_lt_int],
      [int_lt_float]: its [<]; [float_succ]: a literal of the float plus 1. *)
Class Ext := {
    rfc8785_dumps : json -> string;
    jcs_raises : json -> bool;
    sha256_hex : string -> string;
    privkey : Type;
    ed_public_raw : privkey -> string;
    ed_sign : privkey -> string -> string;
    ed_verify : string -> string -> string -> bool;
    isoformat_ms : Z -> string;
    fromisoformat : string -> option Z;
    uuid_ok : string -> bool;
    float_eqb : string -> string -> bool;
    float_is : string -> Z -> bool;
    float_ltb : string -> string -> bool;
    float_lt_int : string -> Z -> bool;
    int_lt_float : Z -> string -> bool;
    float_succ : string -> string;
  }.

(** JSON with no float and only ints of size at most [n]. *)
Fixpoint fits (n : Z) (j : json) : bool :=
  match j with
  | JNull | JBool _ | JStr _ => true
  | JInt z => (Z.abs z <=? n)%Z
  | JFloat _ => false
  | JArr l => forallb (fits n) l
  | JObj m => forallb (fun kv => fits n kv.2) m
  end.

(** What rfc8785 documents: the integers of the safe range, and text, are
    canonicalized, and so is any list or object of them. *)
Definition MAX_SAFE : Z := 9007199254740991.
Definition jcs_safe `{Ext} : Prop := forall j, fits MAX_SAFE j = true -> jcs_raises j = false.

Lemma fits_mono n m : (n <= m)%Z -> forall j, fits n j = true -> fits m j = true.
Proof.
  intros Hnm. fix IH 1. intros [| |z| | |l|o] Hf; try done.
  - simpl in *. apply Z.leb_le in Hf. apply Z.leb_le. lia.
  - simpl in *. induction l as [|x l IHl]; [done|]. simpl in *. apply andb_true_iff in Hf as [H1 H2].
    by rewrite (IH x H1), (IHl H2).
  - simpl in *. induction o as [|[k x] o IHo]; [done|]. simpl in *. apply andb_true_iff in Hf as [H1 H2].
    by rewrite (IH x H1), (IHo H2).
Qed.

(** ** base64url without padding *)

Definition b64_alphabet : string :=
  "ABCDEFGHIJKLMNOPQRSTUVWXYZabcdefghijklmnopqrstuvwxyz0123456789-_".

Definition b64_char (n : Z) : ascii :=
  match String.get (Z.to_nat n) b64_alphabet with Some c => c | None => "A"%char end.

Definition b64_val (c : ascii) : option Z :=
  let n := Z.of_nat (nat_of_ascii c) in
  if (65 <=? n)%Z && (n <=? 90)%Z then Some (n - 65)%Z
  else if (97 <=? n)%Z && (n <=? 122)%Z then Some (n - 71)%Z
  else if (48 <=? n)%Z && (n <=? 57)%Z then Some (n + 4)%Z
  else if (n =? 45)%Z then Some 62%Z
  else if (n =? 95)%Z then Some 63%Z
  else None.

Definition byte_of (c : ascii) : Z := Z.of_nat (nat_of_ascii c).
Definition to_byte (z : Z) : ascii := ascii_of_nat (Z.to_nat z).

(** [base64.urlsafe_b64encode(raw).rstrip(b"=")]: three bytes to four
    characters, a final group of one or two bytes to two or three. *)
Fixpoint b64u_list (l : list ascii) : list ascii :=
  match l with
  | a :: b :: c :: l' =>
      let n := (byte_of a * 65536 + byte_of b * 256 + byte_of c)%Z in
      b64_char (n / 262144) :: b64_char ((n / 4096) mod 64)
        :: b64_char ((n / 64) mod 64) :: b64_char (n mod 64) :: b64u_list l'
  | [a; b] =>
      let n := (byte_of a * 256 + byte_of b)%Z in
      [b64_char (n / 1024); b64_char ((n / 16) mod 64); b64_char ((n mod 16) * 4)]
  | [a] => [b64_char (byte_of a / 4); b64_char ((byte_of a mod 4) * 16)]
  | [] => []
  end.

Definition b64u (raw : string) : string :=
  string_of_list_ascii (b64u_list (list_ascii_of_string raw)).

(** The decoder on the characters of the alphabet: full groups of four, then
    a last group of two or three (its spare low bits are dropped); one
    character over is an error ([binascii.Error]). *)
Fixpoint b64_decode_vals (l : list Z) : option (list ascii) :=
  match l with
  | a :: b :: c :: d :: l' =>
      let n := (a * 262144 + b * 4096 + c * 64 + d)%Z in
      match b64_decode_vals l' with
      | Some r => Some (to_byte (n / 65536) :: to_byte ((n / 256) mod 256) :: to_byte (n mod 256) :: r)
      | None => None
      end
  | [a; b; c] =>
      let n := (a * 1024 + b * 16 + c / 4)%Z in
      Some [to_byte (n / 256); to_byte (n mod 256)]
  | [a; b] => Some [to_byte (a * 4 + b / 16)]
  | [_] => None
  | [] => Some []
  end.

(** [urlsafe_b64decode] drops characters outside the alphabet. *)
Definition b64_values (l : list ascii) : list Z := omap b64_val l.

(** Strict base64url: the lenient decode, refused unless it re-encodes to the
    same text. *)
Definition unb64u (text : string) : option string :=
  match b64_decode_vals (b64_values (list_ascii_of_string text)) with
  | Some l => let raw := string_of_list_ascii l in
              if str_eqb (b64u raw) text then Some raw else None
  | None => None
  end.

Lemma b64_char_val (n : Z) : (0 <= n < 64)%Z -> b64_val (b64_char n) = Some n.
Proof.
  intros H.
  assert (Forall (fun k => b64_val (b64_char (Z.of_nat k)) = Some (Z.of_nat k)) (seq 0 64)) as HF.
  { apply (bool_decide_unpack _). vm_compute. exact I. }
  rewrite Forall_forall in HF. specialize (HF (Z.to_nat n)).
  rewrite Z2Nat.id in HF by lia. apply HF. apply elem_of_seq. lia.
Qed.

Lemma byte_of_bound a : (0 <= byte_of a < 256)%Z.
Proof. unfold byte_of. pose proof (nat_ascii_bounded a). lia. Qed.

Lemma to_byte_of a z : z = byte_of a -> to_byte z = a.
Proof. intros ->. unfold to_byte, byte_of. rewrite Nat2Z.id. apply ascii_nat_embedding. Qed.

(** Decoding an encoding gives the bytes back. *)
Lemma b64_decode_encode (k : nat) (l : list ascii) :
  length l <= k -> b64_decode_vals (b64_values (b64u_list l)) = Some l.
Proof.
  revert l. induction k as [|k IH]; intros l Hk.
  { destruct l; [done|simpl in Hk; lia]. }
  destruct l as [|a [|b [|c l]]]; [done| | |].
  - pose proof (byte_of_bound a). unfold b64_values. cbn [b64u_list omap list_omap].
    rewrite !b64_char_val by zdiv. cbn [b64_decode_vals]. do 2 f_equal. apply to_byte_of. zdiv.
  - pose proof (byte_of_bound a). pose proof (byte_of_bound b).
    unfold b64_values. cbn [b64u_list omap list_omap].
    rewrite !b64_char_val by zdiv. cbn [b64_decode_vals].
    do 2 f_equal; [|f_equal]; apply to_byte_of; zdiv.
  - pose proof (byte_of_bound a). pose proof (byte_of_bound b). pose proof (byte_of_bound c).
    unfold b64_values in *. cbn [b64u_list omap list_omap].
    rewrite !b64_char_val by zdiv. cbn [b64_decode_vals].
    rewrite IH by (simpl in Hk; lia).
    do 2 f_equal; [|f_equal; [|f_equal]]; apply to_byte_of; zdiv.
Qed.

Lemma unb64u_b64u (raw : string) : unb64u (b64u raw) = Some raw.
Proof.
  unfold unb64u, b64u at 1. rewrite list_ascii_of_string_of_list_ascii.
  rewrite (b64_decode_encode (length (list_ascii_of_string raw))) by done.
  rewrite string_of_list_ascii_of_string, str_eqb_refl. done.
Qed.

Lemma unb64u_canonical text raw : unb64u text = Some raw -> text = b64u raw.
Proof.
  unfold unb64u. destruct (b64_decode_vals _); [|done].
  destruct (str_eqb _ _) eqn:E; [|done]. intros [= <-].
  apply str_eqb_spec in E. done.
Qed.

(** ** Digests, signatures and roots *)
Section canon.
Context `{Ext}.

Definition jcs (obj : json) : string := rfc8785_dumps obj.
Definition digest (obj : json) : string := "sha256:" +:+ sha256_hex (jcs obj).
(** [digest] under the callers' [try]: [None] when rfc8785 raises. *)
Definition digest_opt (obj : json) : option string :=
  if jcs_raises obj then None else Some (digest obj).

(** [sha256(pub).hexdigest()[:16]]. *)
Definition key_id (pub_raw : string) : string :=
  "ed25519:" +:+ substring 0 16 (sha256_hex pub_raw).

Definition public_raw (sk : privkey) : string := ed_public_raw sk.

(** A signed envelope [{"alg", "kid", "payload", "sig"}]. *)
Record signed (A : Type) := mk_signed {
  sg_alg : string; sg_kid : string; sg_payload : A; sg_sig : string }.

Definition signed_json {A} (f : A -> json) (s : signed A) : json :=
  JObj [("alg", JStr (sg_alg A s)); ("kid", JStr (sg_kid A s));
      ("payload", f (sg_payload A s)); ("sig", JStr (sg_sig A s))].

Definition sign {A} (f : A -> json) (payload : A) (sk : privkey) (kid : string) : signed A :=
  mk_signed A "Ed25519" kid payload (b64u (ed_sign sk (jcs (f payload)))).

(** A trust store section: kid to base64url raw public key. *)
Definition keyring := gmap string string.

Definition verify_signed (s : json) (trusted : keyring) : bool :=
  match gets "kid" s with
  | None => false
  | Some kid =>
  match trusted !! kid with
  | None => false
  | Some pub64 =>
    match unb64u pub64, gets "alg" s with
    | Some pub, Some alg =>
      if negb (str_eqb alg "Ed25519") || negb (str_eqb (key_id pub) kid) then false
      else match jget "payload" s, gets "sig" s with
           | Some p, Some sig64 =>
             match unb64u sig64 with
             | Some sig => negb (jcs_raises p) && ed_verify pub sig (jcs p)
             | None => false
             end
           | _, _ => false
           end
    | _, _ => false
    end
  end
  end.

Definition STATE_PROTOCOL : string := "veklom.vdb.c1.state/v1".
Definition PAYLOAD_PROTOCOL : string := "veklom.vdb.c1.payload/v1".

Definition entries_json (entries : list (string * string)) : json :=
  JArr (map (fun e => JArr [JStr e.1; JStr e.2]) entries).

Definition state_root (namespace : string) (generation : Z)
  (entries : list (string * string)) : string :=
  digest (JObj [("protocol", JStr STATE_PROTOCOL); ("namespace", JStr namespace);
              ("generation", JInt generation);
              ("entries", entries_json (sorted_rows entries))]).

Definition payload_commitment (op key value : string) : string :=
  digest (JObj [("protocol", JStr PAYLOAD_PROTOCOL); ("op", JStr op);
              ("key", JStr key); ("value", JStr value)]).

Definition format_time (epoch : Z) : string := isoformat_ms epoch.

(** The text must end in Z; the prefix goes to [datetime.fromisoformat]. *)
Definition parse_time (text : string) : option Z :=
  let n := String.length text in
  match n with
  | O => None
  | S m => if str_eqb (substring m 1 text) "Z"
         then fromisoformat (substring 0 m text +:+ "+00:00") else None
  end.

Lemma verify_signed_payload s trusted :
  verify_signed s trusted = true ->
  exists kid p, gets "kid" s = Some kid /\ jget "payload" s = Some p /\
  jcs_raises p = false /\ is_Some (trusted !! kid).
Proof.
  unfold verify_signed. repeat (break_goal; try done).
  intros [Hr _]%andb_true_iff. apply negb_true_iff in Hr. eauto 10.
Qed.

Lemma verify_signed_sign {A} (f : A -> json) (p : A) sk (trusted : keyring) :
  (forall m, ed_verify (ed_public_raw sk) (ed_sign sk m) m = true) ->
  jcs_raises (f p) = false ->
  trusted !! key_id (public_raw sk) = Some (b64u (public_raw sk)) ->
  verify_signed (signed_json f (sign f p sk (key_id (public_raw sk)))) trusted = true.
Proof.
  intros Hv Hr Ht. unfold verify_signed, signed_json, gets, jget. simpl.
  rewrite Ht, unb64u_b64u, str_eqb_refl. simpl. rewrite unb64u_b64u, Hr. apply Hv.
Qed.
End canon.
Arguments mk_signed {A} _ _ _ _.
Arguments sg_alg {A} _.
Arguments sg_kid {A} _.
Arguments sg_payload {A} _.
Arguments sg_sig {A} _.
