(* ===== verification/PyJson.v ===== *)
(** * json.dumps and sha256_json (cappo_backend/services/canonical.py)

    [json.dumps(payload, sort_keys=True, separators=(",", ":"),
    ensure_ascii=False)] on JSON values, with strings as their UTF-8 bytes,
    and the decoder of its string literals that makes the encoding of a
    record of strings injective. *)

From Stdlib Require Import ZArith Lia Ascii String.
From stdpp Require Import base gmap strings list pretty sorting.
From S2P Require Import Prelude Canon.

Abbreviation chars := list_ascii_of_string.

Definition dquote : ascii := "034"%char.
Definition bslash : ascii := "\"%char.
Definition hex_digit (n : nat) : ascii :=
  ascii_of_nat (if (n <? 10)%nat then 48 + n else 87 + n).

(** The escapes of a string literal: the quote, the backslash and the control
    characters; every other byte is copied. *)
Definition esc_char (c : ascii) : list ascii :=
  let n := nat_of_ascii c in
  if (n =? 34)%nat then [bslash; dquote]
  else if (n =? 92)%nat then [bslash; bslash]
  else if (n =? 10)%nat then [bslash; "n"%char]
  else if (n =? 13)%nat then [bslash; "r"%char]
  else if (n =? 9)%nat then [bslash; "t"%char]
  else if (n =? 8)%nat then [bslash; "b"%char]
  else if (n =? 12)%nat then [bslash; "f"%char]
  else if (n <? 32)%nat then
    [bslash; "u"%char; "0"%char; "0"%char; hex_digit (n / 16); hex_digit (n mod 16)]
  else [c].

Definition esc (s : string) : list ascii := concat (map esc_char (chars s)).

Definition py_str (s : string) : string :=
  string_of_list_ascii (dquote :: esc s ++ [dquote]).

Definition key_le (a b : string * string) : Prop := String.le a.1 b.1.
#[export] Instance key_le_dec : RelDecision key_le.
Proof. intros a b. unfold key_le. apply _. Defined.

(** [json.dumps] with sorted keys, for an encoder of string literals and the
    two separators. *)
Fixpoint dumps_with (enc : string -> string) (isep ksep : string) (j : json) : string :=
  match j with
  | JNull => "null"
  | JBool b => if b then "true" else "false"
  | JInt z => pretty z
  | JFloat l => l
  | JStr s => enc s
  | JArr l => "[" +:+ String.concat isep (map (dumps_with enc isep ksep) l) +:+ "]"
  | JObj m =>
      "{" +:+ String.concat isep
        (map (fun kv => enc kv.1 +:+ ksep +:+ kv.2)
           (merge_sort key_le (map (fun kv => (kv.1, dumps_with enc isep ksep kv.2)) m))) +:+ "}"
  end.

(** [separators=(",", ":"), ensure_ascii=False]. *)
Definition py_dumps (j : json) : string := dumps_with py_str "," ":" j.

(** ** ensure_ascii=True

    Characters outside ASCII are written as [\uXXXX], as a surrogate pair
    above the basic plane; the bytes are decoded as UTF-8. *)
Definition u_escape (n : Z) : list ascii :=
  let d k := hex_digit (Z.to_nat ((n / 16 ^ k) mod 16)%Z) in
  [bslash; "u"%char; d 3%Z; d 2%Z; d 1%Z; d 0%Z].

Definition u_point (n : Z) : list ascii :=
  if (n <? 65536)%Z then u_escape n
  else u_escape (55296 + (n - 65536) / 1024)%Z ++ u_escape (56320 + (n - 65536) mod 1024)%Z.

Definition cont_bits (c : ascii) : Z := (Z.of_nat (nat_of_ascii c) mod 64)%Z.

Fixpoint esc_ascii (l : list ascii) : list ascii :=
  match l with
  | [] => []
  | c :: l1 =>
    let n := Z.of_nat (nat_of_ascii c) in
    if (n <? 127)%Z then esc_char c ++ esc_ascii l1
    else if (n =? 127)%Z then u_escape n ++ esc_ascii l1
    else match l1 with
    | [] => []
    | c1 :: l2 =>
      if (n <? 224)%Z then u_point ((n mod 32) * 64 + cont_bits c1)%Z ++ esc_ascii l2
      else match l2 with
      | [] => []
      | c2 :: l3 =>
        if (n <? 240)%Z then u_point ((n mod 16) * 4096 + cont_bits c1 * 64 + cont_bits c2)%Z ++ esc_ascii l3
        else match l3 with
        | [] => []
        | c3 :: l4 =>
          u_point ((n mod 8) * 262144 + cont_bits c1 * 4096 + cont_bits c2 * 64 + cont_bits c3)%Z ++ esc_ascii l4
        end
      end
    end
  end.

Definition py_str_ascii (s : string) : string :=
  string_of_list_ascii (dquote :: esc_ascii (chars s) ++ [dquote]).

(** [separators=(",", ":")]. *)
Definition py_dumps_ascii (j : json) : string := dumps_with py_str_ascii "," ":" j.

(** The default separators. *)
Definition py_dumps_default (j : json) : string := dumps_with py_str_ascii ", " ": " j.

(** [canonical_json(payload)] of a dict. *)
Definition canonical_json (m : list (string * json)) : string := py_dumps (JObj m).

(** [sha256_json(payload)]. *)
Definition sha256_json `{Ext} (j : json) : string := sha256_hex (py_dumps j).

(** ** Reading a literal back *)

(** One character of a literal, with the rest. *)
Definition unesc1 (l : list ascii) : option (ascii * list ascii) :=
  match l with
  | [] => None
  | c :: r =>
    if decide (c = dquote) then None
    else if decide (c = bslash) then
      match r with
      | d :: r' =>
        if decide (d = dquote) then Some (dquote, r')
        else if decide (d = bslash) then Some (bslash, r')
        else if decide (d = "n"%char) then Some ("010"%char, r')
        else if decide (d = "r"%char) then Some ("013"%char, r')
        else if decide (d = "t"%char) then Some ("009"%char, r')
        else if decide (d = "b"%char) then Some ("008"%char, r')
        else if decide (d = "f"%char) then Some ("012"%char, r')
        else match r' with
             | _ :: _ :: h :: k :: r'' =>
               let v (x : ascii) := let n := nat_of_ascii x in
                                    if (n <? 58)%nat then n - 48 else n - 87 in
               Some (ascii_of_nat (v h * 16 + v k), r'')
             | _ => None
             end
      | [] => None
      end
    else Some (c, r)
  end.

Lemma unesc1_esc c r : unesc1 (esc_char c ++ r) = Some (c, r).
Proof. destruct c as [[] [] [] [] [] [] [] []]; reflexivity. Qed.

Lemma esc_cons c s : esc (String c s) = esc_char c ++ esc s.
Proof. reflexivity. Qed.

(** A literal ends at its closing quote: what follows cannot be confused with
    its contents. *)
Lemma esc_inj s t x y : esc s ++ dquote :: x = esc t ++ dquote :: y -> s = t /\ x = y.
Proof.
  revert t. induction s as [|c s IH]; intros [|d t] H.
  - by injection H.
  - exfalso. rewrite esc_cons, <- app_assoc in H. apply (f_equal unesc1) in H.
    by rewrite unesc1_esc in H.
  - exfalso. rewrite esc_cons, <- app_assoc in H. apply (f_equal unesc1) in H.
    by rewrite unesc1_esc in H.
  - rewrite !esc_cons, <- !app_assoc in H. apply (f_equal unesc1) in H.
    rewrite !unesc1_esc in H. injection H as -> H. by destruct (IH _ H) as [-> ->].
Qed.

Lemma chars_app s t : chars (s +:+ t) = chars s ++ chars t.
Proof. induction s as [|c s IH]; simpl; [done|]. by f_equal. Qed.

Lemma chars_inj s t : chars s = chars t -> s = t.
Proof.
  intros H. rewrite <- (string_of_list_ascii_of_string s), H.
  apply string_of_list_ascii_of_string.
Qed.

Lemma chars_py_str s : chars (py_str s) = dquote :: esc s ++ [dquote].
Proof. unfold py_str. by rewrite list_ascii_of_string_of_list_ascii. Qed.

(** Peeling one literal off equal texts. *)
Lemma py_str_inj s t x y : py_str s +:+ x = py_str t +:+ y -> s = t /\ x = y.
Proof.
  intros H. apply (f_equal chars) in H. rewrite !chars_app, !chars_py_str in H.
  injection H as H. rewrite <- !app_assoc in H.
  apply esc_inj in H as [-> H]. split; [done|]. by apply chars_inj.
Qed.

Lemma sapp_assoc (a b c : string) : a +:+ b +:+ c = (a +:+ b) +:+ c.
Proof. apply chars_inj. rewrite !chars_app. apply app_assoc. Qed.

Lemma string_app_inj (p x y : string) : p +:+ x = p +:+ y -> x = y.
Proof. induction p as [|c p IH]; [done|]. intros H. apply IH. simpl in H. by injection H. Qed.

(** ** Records of strings *)

(** The members of a rendered object, in key order. *)
Definition members (m : list (string * string)) : string :=
  String.concat "," (map (fun kv => py_str kv.1 +:+ ":" +:+ py_str kv.2) m).

Lemma members_cons k v kv m :
  members ((k, v) :: kv :: m) = py_str k +:+ ":" +:+ py_str v +:+ "," +:+ members (kv :: m).
Proof. unfold members. simpl. by rewrite !sapp_assoc. Qed.

(** Two objects with the same keys in the same order print equally only when
    every value agrees. *)
Lemma members_inj m m' x y :
  map fst m = map fst m' -> members m +:+ "}" +:+ x = members m' +:+ "}" +:+ y -> m = m'.
Proof.
  revert m'. induction m as [|[k v] m IH]; intros [|[k' v'] m'] Hk H; try done.
  injection Hk as -> Hk.
  destruct m as [|p m], m' as [|p' m']; try discriminate.
  - unfold members in H. simpl in H. rewrite <- !sapp_assoc in H.
    apply string_app_inj, string_app_inj, py_str_inj in H as [-> _]. done.
  - rewrite !members_cons, <- !sapp_assoc in H.
    apply string_app_inj, string_app_inj, py_str_inj in H as [-> H].
    apply string_app_inj in H. f_equal. by eapply IH.
Qed.
