(* ===== verification/VdbStates.v ===== *)
(** * The VDB-C1 state machine (vdb_c1/states.py)

    Record kinds and states, the transition table, and the replay
    [state_after] that every journal append is checked against, with the
    exact set of paths it accepts. *)

From Stdlib Require Import ZArith Lia.
From stdpp Require Import base list.
From S2P Require Import Prelude.

(** The states, and [COMMITTED], which is only a record kind. *)
Inductive kind :=
  | RECEIVED | ADMISSION_REJECTED | ADMITTED | PRECONDITION_REJECTED | PREPARED
  | ABORTED | COMMITTING | COMMIT_UNCERTAIN | FINALIZED | COMMITTED.

#[export] Instance kind_eq_dec : EqDecision kind.
Proof. solve_decision. Defined.

(** [TRANSITIONS]. *)
Definition TRANSITIONS (s : kind) : list kind :=
  match s with
  | RECEIVED => [ADMISSION_REJECTED; ADMITTED]
  | ADMITTED => [PRECONDITION_REJECTED; PREPARED]
  | PREPARED => [ABORTED; COMMITTING]
  | COMMITTING => [FINALIZED; COMMIT_UNCERTAIN]
  | COMMIT_UNCERTAIN => [FINALIZED; ABORTED]
  | ADMISSION_REJECTED | PRECONDITION_REJECTED | ABORTED | FINALIZED => []
  | COMMITTED => []
  end.

(** [TERMINAL]: the states with no successor. *)
Definition TERMINAL (s : kind) : bool :=
  match s with COMMITTED => false | _ => match TRANSITIONS s with [] => true | _ => false end end.

Definition BINDING_KINDS (k : kind) : bool :=
  match k with
  | PREPARED | COMMITTING | COMMIT_UNCERTAIN | COMMITTED | FINALIZED | ABORTED => true
  | _ => false
  end.

(** [check]: [false] is [IllegalTransition]. *)
Definition check (current target : kind) : bool := bool_decide (target ∈ TRANSITIONS current).

(** The loop of [state_after]: the state so far and [committed_seen];
    [None] is [IllegalTransition]. *)
Fixpoint state_after_from (state : kind) (committed_seen : bool) (kinds : list kind) : option kind :=
  match kinds with
  | [] => Some state
  | k :: rest =>
    if decide (k = COMMITTED) then
      if negb (bool_decide (state ∈ [COMMITTING; COMMIT_UNCERTAIN])) || committed_seen then None
      else state_after_from state true rest
    else
      let admitted := bool_decide (k = PREPARED) && bool_decide (state = RECEIVED) in
      if admitted && negb (check RECEIVED ADMITTED) then None
      else
        let state := if admitted then ADMITTED else state in
        if bool_decide (k = COMMIT_UNCERTAIN) && bool_decide (state = COMMIT_UNCERTAIN)
        then state_after_from state committed_seen rest
        else if bool_decide (k = FINALIZED) && negb committed_seen then None
        else if bool_decide (k = ABORTED) && committed_seen then None
        else if check state k then state_after_from k committed_seen rest
        else None
  end.

Definition state_after (kinds : list kind) : option kind := state_after_from RECEIVED false kinds.

(** ** The language of the replay *)

Abbreviation uncertain n := (replicate n COMMIT_UNCERTAIN).

(** Nothing follows a terminal state. *)
Lemma state_after_from_terminal s c ks t :
  (s = ABORTED \/ s = FINALIZED) -> Forall (fun k => BINDING_KINDS k = true) ks ->
  state_after_from s c ks = Some t -> ks = [] /\ t = s.
Proof.
  intros Hs HF H. destruct ks as [|k ks]; [simpl in H; by simplify_eq|].
  apply Forall_cons in HF as [Hk _].
  destruct Hs as [-> | ->], k, c; simpl in H; done.
Qed.

(** From [COMMIT_UNCERTAIN]. *)
Lemma state_after_from_uncertain ks : forall c t,
  Forall (fun k => BINDING_KINDS k = true) ks ->
  state_after_from COMMIT_UNCERTAIN c ks = Some t ->
  (t = FINALIZED ->
     if c then exists n, ks = uncertain n ++ [FINALIZED]
     else exists m n, ks = uncertain m ++ [COMMITTED] ++ uncertain n ++ [FINALIZED]) /\
  (t = ABORTED -> c = false /\ exists n, ks = uncertain n ++ [ABORTED]).
Proof.
  induction ks as [|k ks IH]; intros c t HF H; [by simplify_eq/=|].
  apply Forall_cons in HF as [Hk HF].
  destruct k; try done.
  - destruct c; [done|]. simpl in H.
    apply state_after_from_terminal in H as [-> ->]; [|by left|done].
    split; [done|]. intros _. split; [done|]. by exists 0.
  - destruct (IH c t HF H) as [H1 H2]. split.
    + intros ->. specialize (H1 eq_refl). destruct c.
      * destruct H1 as [n ->]. by exists (S n).
      * destruct H1 as (m & n & ->). by exists (S m), n.
    + intros ->. destruct (H2 eq_refl) as [-> [n ->]]. split; [done|]. by exists (S n).
  - destruct c; [|done]. simpl in H.
    apply state_after_from_terminal in H as [-> ->]; [|by right|done].
    split; [|done]. intros _. by exists 0.
  - destruct c; [done|]. destruct (IH true t HF H) as [H1 H2]. split.
    + intros ->. destruct (H1 eq_refl) as [n ->]. by exists 0, n.
    + intros ->. by destruct (H2 eq_refl).
Qed.

(** From [COMMITTING]. *)
Lemma state_after_from_committing ks : forall c t,
  Forall (fun k => BINDING_KINDS k = true) ks ->
  state_after_from COMMITTING c ks = Some t ->
  (t = FINALIZED ->
     if c then exists n, ks = uncertain n ++ [FINALIZED]
     else exists m n, ks = uncertain m ++ [COMMITTED] ++ uncertain n ++ [FINALIZED]) /\
  (t = ABORTED -> c = false /\ exists n, ks = uncertain (S n) ++ [ABORTED]).
Proof.
  destruct ks as [|k ks]; intros c t HF H; [by simplify_eq/=|].
  apply Forall_cons in HF as [Hk HF].
  destruct k; try done; try (destruct c; done).
  - (* COMMIT_UNCERTAIN *)
    assert (Hu : state_after_from COMMIT_UNCERTAIN c ks = Some t) by (destruct c; exact H).
    destruct (state_after_from_uncertain ks c t HF Hu) as [H1 H2]. split.
    + intros ->. specialize (H1 eq_refl). destruct c.
      * destruct H1 as [n ->]. by exists (S n).
      * destruct H1 as (m & n & ->). by exists (S m), n.
    + intros ->. destruct (H2 eq_refl) as [-> [n ->]]. split; [done|]. by exists n.
  - destruct c; [|done]. simpl in H.
    apply state_after_from_terminal in H as [-> ->]; [|by right|done].
    split; [|done]. intros _. by exists 0.
  - destruct c; [done|]. simpl in H.
    destruct ks as [|k' ks']; [by simplify_eq/=|].
    apply Forall_cons in HF as [Hk' HF'].
    destruct k'; try done.
    + simpl in H. destruct (state_after_from_uncertain ks' true t HF' H) as [H1 H2]. split.
      * intros ->. destruct (H1 eq_refl) as [n ->]. by exists 0, (S n).
      * intros ->. by destruct (H2 eq_refl).
    + simpl in H. apply state_after_from_terminal in H as [-> ->]; [|by right|done].
      split; [|done]. intros _. by exists 0, 0.
Qed.

Lemma state_after_from_uncertains n s c ks :
  (s = COMMITTING \/ s = COMMIT_UNCERTAIN) ->
  state_after_from s c (uncertain n ++ ks) =
  state_after_from (match n with 0 => s | _ => COMMIT_UNCERTAIN end) c ks.
Proof.
  revert s. induction n as [|n IH]; intros s Hs; [done|].
  assert (Hu : state_after_from COMMIT_UNCERTAIN c (uncertain n ++ ks) =
               state_after_from COMMIT_UNCERTAIN c ks).
  { rewrite IH by auto. by destruct n. }
  by destruct Hs as [-> | ->], c.
Qed.

Lemma state_after_prepared ks t :
  state_after (PREPARED :: ks) = Some t <-> state_after_from PREPARED false ks = Some t.
Proof. done. Qed.

Lemma state_after_started ks :
  state_after ([PREPARED; COMMITTING] ++ ks) = state_after_from COMMITTING false ks.
Proof. done. Qed.

(** The binding records of an intent replay to FINALIZED exactly when they
    are one PREPARED, one COMMITTING, one COMMITTED and a final FINALIZED,
    with COMMIT_UNCERTAIN notes only between COMMITTING and FINALIZED. *)
Lemma state_after_finalized_iff ks :
  Forall (fun k => BINDING_KINDS k = true) ks ->
  state_after ks = Some FINALIZED <->
  exists m n, ks = [PREPARED; COMMITTING] ++ uncertain m ++ [COMMITTED] ++ uncertain n ++ [FINALIZED].
Proof.
  intros HF. split.
  - intros H. destruct ks as [|k ks]; [done|].
    apply Forall_cons in HF as [Hk HF]. destruct k; try done.
    apply state_after_prepared in H.
    destruct ks as [|k ks]; [done|]. apply Forall_cons in HF as [Hk' HF].
    destruct k; try done.
    + simpl in H. destruct (state_after_from_terminal ABORTED false ks FINALIZED); auto; done.
    + apply state_after_from_committing in H as [H _]; [|done].
      destruct (H eq_refl) as (m & n & ->). by exists m, n.
  - intros (m & n & ->). rewrite state_after_started, state_after_from_uncertains by auto.
    assert (Hc : forall s, s = COMMITTING \/ s = COMMIT_UNCERTAIN ->
      state_after_from s false ([COMMITTED] ++ uncertain n ++ [FINALIZED]) =
      state_after_from s true (uncertain n ++ [FINALIZED])) by (intros s [-> | ->]; done).
    destruct m; rewrite Hc, state_after_from_uncertains by auto; by destruct n.
Qed.

(** ... and to ABORTED exactly when the mutation never started, or when a
    journaled uncertainty was resolved without any COMMITTED record. *)
Lemma state_after_aborted_iff ks :
  Forall (fun k => BINDING_KINDS k = true) ks ->
  state_after ks = Some ABORTED <->
  ks = [PREPARED; ABORTED] \/
  exists n, ks = [PREPARED; COMMITTING] ++ uncertain (S n) ++ [ABORTED].
Proof.
  intros HF. split.
  - intros H. destruct ks as [|k ks]; [done|].
    apply Forall_cons in HF as [Hk HF]. destruct k; try done.
    apply state_after_prepared in H.
    destruct ks as [|k ks]; [done|]. apply Forall_cons in HF as [Hk' HF].
    destruct k; try done.
    + simpl in H. destruct (state_after_from_terminal ABORTED false ks ABORTED) as [-> _]; auto.
    + apply state_after_from_committing in H as [_ H]; [|done].
      destruct (H eq_refl) as (_ & n & ->). right. by exists n.
  - intros [-> |(n & ->)]; [done|].
    rewrite state_after_started, state_after_from_uncertains by auto. done.
Qed.

(** Replay of a longer record list starts from the replay of its prefix:
    an illegal prefix stays illegal. *)
Lemma state_after_from_app ks ks' : forall s c,
  state_after_from s c ks = None -> state_after_from s c (ks ++ ks') = None.
Proof.
  induction ks as [|k ks IH]; intros s c H; [done|].
  cbn [state_after_from app] in *.
  repeat (break_goal; try done; try by apply IH).
Qed.
