(* ===== verification/Journal.v ===== *)
(** * The protocol journal (vdb_c1/journal.py)

    The record and body types that the coordinator writes, their JSON form,
    the hash chain, [Journal.append], and [Journal._load] on the bytes of the
    file, including the torn final line of a crash during a write. *)

From Stdlib Require Import ZArith Lia Ascii String.
From stdpp Require Import base gmap strings list.
From S2P Require Import Prelude Canon VdbStates.

(** ** Data *)

(** A row of the store's [applied] table. *)
Record applied_row := mk_applied {
  ar_intent_id : string; ar_intent_hash : string;
  ar_generation : Z; ar_post_root : string }.
#[export] Instance applied_row_eq_dec : EqDecision applied_row.
Proof. solve_decision. Defined.

(** [{**adapter.durability(), "store_id": ...}]. *)
Record physical := mk_physical {
  ph_adapter : string; ph_journal_mode : string; ph_synchronous : string; ph_store_id : string }.
#[export] Instance physical_eq_dec : EqDecision physical.
Proof. solve_decision. Defined.

(** The body of a PREPARED record. *)
Record prepared_body := mk_prepared {
  pb_intent_hash : option string;
  pb_signed_intent : json;
  pb_admitted_kid : string;
  pb_admitted_at : string;
  pb_checks : list string;
  pb_store_id : string;
  pb_pre_generation : Z;
  pb_pre_root : string;
  pb_pre_entries : list (string * string);
  pb_payload_commitment : string }.

(** The body of a COMMITTED record. *)
Record committed_body := mk_committed {
  cb_intent_hash : option string;
  cb_post_generation : Z;
  cb_post_root : string;
  cb_post_entries : list (string * string);
  cb_applied_row : applied_row;
  cb_physical : physical;
  cb_recovered : bool }.

(** The payload of a finality certificate. *)
Record cert_payload := mk_cert {
  ct_protocol : string; ct_intent_id : string; ct_intent_hash : option string;
  ct_namespace : string; ct_authority_kid : string; ct_expected_generation : Z;
  ct_pre_root : string; ct_payload_commitment : string;
  ct_post_generation : Z; ct_post_root : string;
  ct_physical : physical; ct_applied_row : applied_row;
  ct_prepared_seq : nat; ct_prepared_hash : string;
  ct_committed_seq : nat; ct_committed_hash : string;
  ct_finalized_at : string; ct_finalizer_kid : string }.
#[export] Instance cert_payload_eq_dec : EqDecision cert_payload.
Proof. solve_decision. Defined.
#[export] Instance signed_eq_dec {A} `{EqDecision A} : EqDecision (signed A).
Proof. solve_decision. Defined.

(** A record's body: one constructor per shape the coordinator writes. *)
Inductive body :=
  | BRejected (ih : option string) (reason : string)
  | BPrecondition (ih : option string) (reason : string) (signed_intent : json)
      (observed_generation : Z) (observed_root : string)
  | BPrepared (p : prepared_body)
  | BCommitting (ih : option string)
  | BReason (ih : option string) (reason : string)
  | BCommitted (c : committed_body)
  | BFinalized (ih : option string) (certificate : signed cert_payload).

Record record := mk_record {
  r_protocol : string; r_seq : nat; r_prev : string; r_at : string;
  r_kind : kind; r_intent_id : string; r_body : body; r_hash : string }.

(** [body["intent_hash"]]: every body has one. *)
Definition body_intent_hash (b : body) : option string :=
  match b with
  | BRejected ih _ | BPrecondition ih _ _ _ _ | BCommitting ih | BReason ih _ | BFinalized ih _ => ih
  | BPrepared p => pb_intent_hash p
  | BCommitted c => cb_intent_hash c
  end.

(** [body.get("reason")]. *)
Definition body_reason (b : body) : option string :=
  match b with
  | BRejected _ r | BPrecondition _ r _ _ _ | BReason _ r => Some r
  | _ => None
  end.

(** [body["signed_intent"]]: PREPARED and precondition bodies have it. *)
Definition body_signed_intent (b : body) : option json :=
  match b with
  | BPrepared p => Some (pb_signed_intent p)
  | BPrecondition _ _ s _ _ => Some s
  | _ => None
  end.

(** ** JSON form *)

Definition kind_str (k : kind) : string :=
  match k with
  | RECEIVED => "RECEIVED" | ADMISSION_REJECTED => "ADMISSION_REJECTED"
  | ADMITTED => "ADMITTED" | PRECONDITION_REJECTED => "PRECONDITION_REJECTED"
  | PREPARED => "PREPARED" | ABORTED => "ABORTED" | COMMITTING => "COMMITTING"
  | COMMIT_UNCERTAIN => "COMMIT_UNCERTAIN" | FINALIZED => "FINALIZED"
  | COMMITTED => "COMMITTED"
  end.

Definition applied_json (a : applied_row) : json :=
  JObj [("intent_id", JStr (ar_intent_id a)); ("intent_hash", JStr (ar_intent_hash a));
        ("generation", JInt (ar_generation a)); ("post_root", JStr (ar_post_root a))].

Definition physical_members (p : physical) : list (string * json) :=
  [("adapter", JStr (ph_adapter p)); ("journal_mode", JStr (ph_journal_mode p));
   ("synchronous", JStr (ph_synchronous p)); ("store_id", JStr (ph_store_id p))].

Definition cert_payload_json (c : cert_payload) : json :=
  JObj [("protocol", JStr (ct_protocol c)); ("intent_id", JStr (ct_intent_id c));
        ("intent_hash", jopt (ct_intent_hash c)); ("namespace", JStr (ct_namespace c));
        ("authority_kid", JStr (ct_authority_kid c));
        ("expected_generation", JInt (ct_expected_generation c));
        ("pre_root", JStr (ct_pre_root c));
        ("payload_commitment", JStr (ct_payload_commitment c));
        ("post_generation", JInt (ct_post_generation c)); ("post_root", JStr (ct_post_root c));
        ("physical", JObj (physical_members (ct_physical c) ++
                           [("applied_row", applied_json (ct_applied_row c))]));
        ("journal", JObj [("prepared_seq", JInt (Z.of_nat (ct_prepared_seq c)));
                          ("prepared_hash", JStr (ct_prepared_hash c));
                          ("committed_seq", JInt (Z.of_nat (ct_committed_seq c)));
                          ("committed_hash", JStr (ct_committed_hash c))]);
        ("finalized_at", JStr (ct_finalized_at c)); ("finalizer_kid", JStr (ct_finalizer_kid c))].

Definition cert_json (c : signed cert_payload) : json := signed_json cert_payload_json c.

Definition body_json (b : body) : json :=
  match b with
  | BRejected ih r => JObj [("intent_hash", jopt ih); ("reason", JStr r)]
  | BPrecondition ih r s g root =>
      JObj [("intent_hash", jopt ih); ("reason", JStr r); ("signed_intent", s);
            ("observed_generation", JInt g); ("observed_root", JStr root)]
  | BPrepared p =>
      JObj [("intent_hash", jopt (pb_intent_hash p)); ("signed_intent", pb_signed_intent p);
            ("admission", JObj [("authority_kid", JStr (pb_admitted_kid p));
                                ("admitted_at", JStr (pb_admitted_at p));
                                ("checks", JArr (map JStr (pb_checks p)))]);
            ("store_id", JStr (pb_store_id p)); ("pre_generation", JInt (pb_pre_generation p));
            ("pre_root", JStr (pb_pre_root p)); ("pre_entries", entries_json (pb_pre_entries p));
            ("payload_commitment", JStr (pb_payload_commitment p))]
  | BCommitting ih => JObj [("intent_hash", jopt ih)]
  | BReason ih r => JObj [("intent_hash", jopt ih); ("reason", JStr r)]
  | BCommitted c =>
      JObj [("intent_hash", jopt (cb_intent_hash c)); ("post_generation", JInt (cb_post_generation c));
            ("post_root", JStr (cb_post_root c)); ("post_entries", entries_json (cb_post_entries c));
            ("applied_row", applied_json (cb_applied_row c));
            ("physical", JObj (physical_members (cb_physical c)));
            ("recovered", JBool (cb_recovered c))]
  | BFinalized ih c => JObj [("intent_hash", jopt ih); ("certificate", cert_json c)]
  end.

(** The members other than [hash]. *)
Definition record_members (r : record) : list (string * json) :=
  [("protocol", JStr (r_protocol r)); ("seq", JInt (Z.of_nat (r_seq r)));
   ("prev", JStr (r_prev r)); ("at", JStr (r_at r)); ("kind", JStr (kind_str (r_kind r)));
   ("intent_id", JStr (r_intent_id r)); ("body", body_json (r_body r))].

Definition unhashed_json (r : record) : json := JObj (record_members r).
Definition record_json (r : record) : json :=
  JObj (record_members r ++ [("hash", JStr (r_hash r))]).

Definition JOURNAL_PROTOCOL : string := "veklom.vdb.c1.journal/v1".
Definition GENESIS : string := "genesis".

Section journal.
Context `{Ext}.

Definition record_hash (r : record) : string := digest (unhashed_json r).

(** The per-record condition of the chain, as every reader of a journal
    tests it. *)
Definition link_ok (seq : nat) (prev : string) (r : record) : bool :=
  str_eqb (r_protocol r) JOURNAL_PROTOCOL && bool_decide (r_seq r = seq)
  && str_eqb (r_prev r) prev && str_eqb (r_hash r) (record_hash r).

Fixpoint chain_from (seq : nat) (prev : string) (rs : list record) : bool :=
  match rs with
  | [] => true
  | r :: rs' => link_ok seq prev r && chain_from (S seq) (r_hash r) rs'
  end.
Definition chain_ok (rs : list record) : bool := chain_from 0 GENESIS rs.

(** The hash the next record points to. *)
Definition head_hash (rs : list record) : string :=
  match last rs with Some r => r_hash r | None => GENESIS end.

(** The record [Journal.append] builds and adds. *)
Definition next_record (rs : list record) (k : kind) (intent_id : string) (b : body)
  (at_ : string) : record :=
  let rec0 := mk_record JOURNAL_PROTOCOL (length rs) (head_hash rs) at_ k intent_id b "" in
  mk_record JOURNAL_PROTOCOL (length rs) (head_hash rs) at_ k intent_id b (record_hash rec0).

(** [Journal.append] on the records; [None] when canonicalization raises,
    which is before anything is written. *)
Definition append (rs : list record) (k : kind) (intent_id : string) (b : body)
  (at_ : string) : option (list record) :=
  let r := next_record rs k intent_id b at_ in
  if jcs_raises (unhashed_json r) then None else Some (rs ++ [r]).

Definition for_intent (rs : list record) (intent_id : string) : list record :=
  filter (fun r => r_intent_id r = intent_id) rs.

(** ** Chain lemmas *)

Lemma chain_from_app seq prev rs rs' :
  chain_from seq prev (rs ++ rs') =
  chain_from seq prev rs
  && chain_from (seq + length rs) (match last rs with Some r => r_hash r | None => prev end) rs'.
Proof.
  revert seq prev. induction rs as [|r rs IH]; intros seq prev.
  { simpl. by rewrite Nat.add_0_r. }
  cbn [chain_from app length]. rewrite IH, <- andb_assoc, Nat.add_succ_comm.
  do 2 f_equal. rewrite last_cons. destruct (last rs); done.
Qed.

Lemma next_record_link rs k iid b at_ :
  link_ok (length rs) (head_hash rs) (next_record rs k iid b at_) = true.
Proof.
  unfold link_ok, next_record; simpl. rewrite !str_eqb_refl, bool_decide_true by done.
  done.
Qed.

Lemma append_chain rs k iid b at_ rs' :
  append rs k iid b at_ = Some rs' -> chain_ok rs = true -> chain_ok rs' = true.
Proof.
  unfold append, chain_ok. destruct (jcs_raises _); [done|]. intros [= <-] Hc.
  rewrite chain_from_app, Hc. simpl. rewrite andb_true_r. apply next_record_link.
Qed.

Lemma append_extends rs k iid b at_ rs' :
  append rs k iid b at_ = Some rs' -> rs' = rs ++ [next_record rs k iid b at_].
Proof. unfold append. destruct (jcs_raises _); [done|]. by intros [= <-]. Qed.

Lemma chain_prefix rs rs' : chain_ok (rs ++ rs') = true -> chain_ok rs = true.
Proof. unfold chain_ok. rewrite chain_from_app. by intros [? _]%andb_true_iff. Qed.

Lemma chain_lookup rs i r :
  chain_ok rs = true -> rs !! i = Some r ->
  link_ok i (head_hash (take i rs)) r = true.
Proof.
  intros Hc Hi. rewrite <- (take_drop_middle rs i r Hi) in Hc.
  unfold chain_ok in Hc. rewrite chain_from_app in Hc.
  apply andb_true_iff in Hc as [_ Hc]. simpl in Hc.
  apply andb_true_iff in Hc as [Hc _].
  rewrite length_take_le in Hc by (apply lookup_lt_Some in Hi; lia). exact Hc.
Qed.

Lemma chain_seq rs i r : chain_ok rs = true -> rs !! i = Some r -> r_seq r = i.
Proof.
  intros Hc Hi. pose proof (chain_lookup _ _ _ Hc Hi) as Hl. unfold link_ok in Hl.
  rewrite !andb_true_iff, bool_decide_eq_true in Hl. tauto.
Qed.

(** A SHA-256/JCS break: two objects with the same digest that differ in a
    string member. *)
Definition digest_break : Prop :=
  exists j1 j2 k s, digest j1 = digest j2 /\ gets k j1 = Some s /\ gets k j2 <> Some s.

Lemma record_hash_member r1 r2 :
  record_hash r1 = record_hash r2 ->
  (r_prev r1 = r_prev r2 /\ r_kind r1 = r_kind r2 /\ r_intent_id r1 = r_intent_id r2
  /\ r_at r1 = r_at r2) \/ digest_break.
Proof.
  intros Hd. unfold record_hash in Hd.
  assert (Hs : forall k s, gets k (unhashed_json r1) = Some s ->
          gets k (unhashed_json r2) = Some s \/ digest_break).
  { intros k s Hk. destruct (decide (gets k (unhashed_json r2) = Some s)) as [?|Hn]; [by left|].
  right. by exists (unhashed_json r1), (unhashed_json r2), k, s. }
  destruct (Hs "prev" (r_prev r1) eq_refl) as [[= Hp]|]; [|by right].
  destruct (Hs "kind" (kind_str (r_kind r1)) eq_refl) as [[= Hk]|]; [|by right].
  destruct (Hs "intent_id" (r_intent_id r1) eq_refl) as [[= Hi]|]; [|by right].
  destruct (Hs "at" (r_at r1) eq_refl) as [[= Ha]|]; [|by right].
  left. repeat split; try done. by destruct (r_kind r1), (r_kind r2).
Qed.

(** What two records with the same hash share. *)
Definition same_record (r1 r2 : record) : Prop :=
  r_hash r1 = r_hash r2 /\ r_prev r1 = r_prev r2 /\ r_kind r1 = r_kind r2
  /\ r_intent_id r1 = r_intent_id r2 /\ r_at r1 = r_at r2.

(** Two chains that agree on the hash at one position agree on every earlier
    record, or the digest is broken. *)
Lemma chain_agree rs1 rs2 i r1 r2 :
  chain_ok rs1 = true -> chain_ok rs2 = true ->
  rs1 !! i = Some r1 -> rs2 !! i = Some r2 -> r_hash r1 = r_hash r2 ->
  (forall j a b, j <= i -> rs1 !! j = Some a -> rs2 !! j = Some b -> same_record a b)
  \/ digest_break.
Proof.
  intros H1 H2. revert r1 r2. induction i as [|i IH]; intros r1 r2 L1 L2 Hh.
  all: pose proof (chain_lookup _ _ _ H1 L1) as K1; pose proof (chain_lookup _ _ _ H2 L2) as K2.
  all: unfold link_ok in K1, K2; rewrite !andb_true_iff, !str_eqb_spec in K1, K2.
  all: destruct K1 as [[_ P1] E1], K2 as [[_ P2] E2].
  all: destruct (record_hash_member r1 r2) as [(Hp & Hk & Hi & Ha)|]; [congruence| |by right].
  - left. intros j a b Hj A B. assert (j = 0) as -> by lia. simplify_eq. done.
  - assert (exists p1 p2, rs1 !! i = Some p1 /\ rs2 !! i = Some p2) as (p1 & p2 & Q1 & Q2).
  { apply lookup_lt_Some in L1, L2.
    destruct (lookup_lt_is_Some_2 rs1 i) as [p1 ?]; [lia|].
    destruct (lookup_lt_is_Some_2 rs2 i) as [p2 ?]; [lia|]. eauto. }
  assert (Hprev : forall rs p, rs !! i = Some p -> head_hash (take (S i) rs) = r_hash p).
  { intros rs p Hp'. unfold head_hash. rewrite (take_S_r rs i p) by done.
    by rewrite last_snoc. }
  rewrite (Hprev _ _ Q1) in P1. rewrite (Hprev _ _ Q2) in P2.
  destruct (IH p1 p2 Q1 Q2) as [IH'|]; [congruence| |by right].
  left. intros j a b Hj A B. destruct (decide (j = S i)) as [-> |].
  + simplify_eq. done.
  + apply (IH' j a b); [lia|done..].
Qed.

(** ** The file

    [bytes.splitlines]: lines end at LF, CR or CRLF. *)
Definition LF : ascii := ascii_of_nat 10.
Definition CR : ascii := ascii_of_nat 13.

Fixpoint splitlines_from (cur : list ascii) (l : list ascii) : list (list ascii) :=
  match l with
  | [] => match cur with [] => [] | _ => [rev cur] end
  | c :: l' =>
  if decide (c = LF) then rev cur :: splitlines_from [] l'
  else if decide (c = CR) then
    rev cur :: match l' with
               | d :: l'' => if decide (d = LF) then splitlines_from [] l'' else splitlines_from [] l'
               | [] => splitlines_from [] l'
               end
  else splitlines_from (c :: cur) l'
  end.
Definition splitlines (l : list ascii) : list (list ascii) := splitlines_from [] l.

(** [data[: data.rfind(b"\n") + 1]], from the reversed data. *)
Fixpoint drop_to_lf (m : list ascii) : list ascii :=
  match m with
  | [] => []
  | c :: m' => if decide (c = LF) then m else drop_to_lf m'
  end.
Definition keep_complete (data : list ascii) : list ascii := rev (drop_to_lf (rev data)).

Definition ends_with_lf (data : list ascii) : bool :=
  match last data with Some c => bool_decide (c = LF) | None => false end.

(** [json.loads] of one line, read as a record ([None]: not JSON, or not an
    object of a record's shape). *)
Context (loads : list ascii -> option record).

Definition line_of (r : record) : list ascii := list_ascii_of_string (jcs (record_json r)).

(** The loop of [Journal._load]; [None] is [JournalCorrupt]. *)
Fixpoint load_lines (seq : nat) (prev : string) (lines : list (list ascii)) : option (list record) :=
  match lines with
  | [] => Some []
  | line :: rest =>
  match loads line with
  | None => None
  | Some r =>
    if link_ok seq prev r && bool_decide (line_of r = line) then
      match load_lines (S seq) (r_hash r) rest with
      | Some rs => Some (r :: rs)
      | None => None
      end
    else None
  end
  end.

(** [Journal._load] on an existing file: the data left in the file after
    the torn tail is cut, the records and [torn_tail_bytes]. *)
Definition load (data : list ascii) : option (list ascii * list record * nat) :=
  let keep := match data with
            | [] => data
            | _ => if ends_with_lf data then data else keep_complete data
            end in
  match load_lines 0 GENESIS (splitlines keep) with
  | Some rs => Some (keep, rs, length data - length keep)
  | None => None
  end.

(** The bytes [append] writes for one record, and the file of a journal. *)
Definition written (r : record) : list ascii := line_of r ++ [LF].
Definition file_of (rs : list record) : list ascii := concat (map written rs).

(** ** Reload lemmas *)

(** What is used of JCS and [json.loads] on a record: its line holds no line
    break, is not empty, and parses back to the record. *)
Definition line_faithful (r : record) : Prop :=
  (LF ∉ line_of r) /\ (CR ∉ line_of r) /\ line_of r <> [] /\ loads (line_of r) = Some r.

Lemma splitlines_from_line cur l rest :
  LF ∉ l -> CR ∉ l ->
  splitlines_from cur (l ++ LF :: rest) = (rev cur ++ l) :: splitlines_from [] rest.
Proof.
  revert cur. induction l as [|c l IH]; intros cur H1 H2; simpl.
  - rewrite app_nil_r. done.
  - apply not_elem_of_cons in H1 as [N1 H1]. apply not_elem_of_cons in H2 as [N2 H2].
  rewrite !decide_False by congruence. rewrite IH by done. simpl. by rewrite <- app_assoc.
Qed.

Lemma splitlines_file rs :
  Forall line_faithful rs -> splitlines (file_of rs) = map line_of rs.
Proof.
  unfold splitlines, file_of. induction 1 as [|r rs (H1 & H2 & _) _ IH]; [done|].
  simpl. unfold written at 1. rewrite <- app_assoc. simpl.
  rewrite splitlines_from_line by done. simpl. by rewrite IH.
Qed.

Lemma load_lines_file rs : forall seq prev,
  Forall line_faithful rs -> chain_from seq prev rs = true ->
  load_lines seq prev (map line_of rs) = Some rs.
Proof.
  induction rs as [|r rs IH]; intros seq prev HF Hc; [done|].
  apply Forall_cons in HF as [(_ & _ & _ & Hl) HF].
  cbn [chain_from] in Hc. apply andb_true_iff in Hc as [Hr Hc].
  cbn [map load_lines]. rewrite Hl, Hr, bool_decide_true by done. simpl.
  by rewrite IH.
Qed.

Lemma drop_to_lf_torn (t data : list ascii) :
  LF ∉ t -> drop_to_lf (t ++ data) = drop_to_lf data.
Proof.
  induction t as [|c t IH]; intros H1; [done|].
  apply not_elem_of_cons in H1 as [N H1]. simpl. rewrite decide_False by congruence. auto.
Qed.

Lemma file_of_snoc rs r : file_of (rs ++ [r]) = file_of rs ++ line_of r ++ [LF].
Proof. unfold file_of. rewrite map_app, concat_app. simpl. by rewrite app_nil_r. Qed.

Lemma file_of_keep rs : rev (drop_to_lf (rev (file_of rs))) = file_of rs.
Proof.
  destruct rs as [|r rs _] using rev_ind; [done|].
  rewrite file_of_snoc, app_assoc, rev_app_distr.
  change (rev [LF]) with [LF]. cbn [app drop_to_lf]. rewrite decide_True by done.
  cbn [rev]. by rewrite rev_involutive.
Qed.

Lemma file_of_ends rs : file_of rs <> [] -> ends_with_lf (file_of rs) = true.
Proof.
  destruct rs as [|r rs _] using rev_ind; [done|]. intros _.
  rewrite file_of_snoc, app_assoc. unfold ends_with_lf. rewrite last_snoc.
  by apply bool_decide_eq_true.
Qed.

Lemma torn_not_lf (data torn : list ascii) :
  LF ∉ torn -> torn <> [] -> ends_with_lf (data ++ torn) = false.
Proof.
  intros Hn Ht. destruct torn as [|c t _] using rev_ind; [done|].
  rewrite app_assoc. unfold ends_with_lf. rewrite last_snoc.
  apply bool_decide_eq_false. intros ->. apply Hn. set_solver.
Qed.
End journal.
