(* ===== verification/StateAdapter.v ===== *)
(** * The SQLite state store (vdb_c1/state_adapter.py)

    The committed contents of the three tables, the snapshot a fresh
    connection reads, and the conditional UPSERT transaction.  A transaction
    works on a copy of the store; only COMMIT, one durable effect, replaces
    the committed contents, so a raise or a crash before it leaves them as
    they were (SQLite's rollback on [conn.close()] and on process death). *)

From Stdlib Require Import ZArith Lia String.
From stdpp Require Import base gmap strings list sorting.
From S2P Require Import Prelude Canon VdbStates Journal.

(** Tables [meta], [kv] and [applied]. *)
Record store := mk_store {
  st_namespace : string; st_store_id : string; st_generation : Z;
  st_kv : gmap string string; st_applied : list applied_row }.

(** What a fresh connection sees. *)
Record snapshot := mk_snapshot {
  sn_namespace : string; sn_store_id : string; sn_generation : Z;
  sn_entries : list (string * string); sn_root : string }.

Inductive exn :=
  | IllegalTransition
  | PreconditionFailed (reason : string)
  | RecoveryError
  | IntegrityError
  | ValueError
  | KeyError.

(** A coordinator process: the durable store and journal, the clock readings
    consumed, the adapter's call counters, the [_recovering] flag, and after
    how many further durable effects the environment kills the process
    ([None]: never). *)
Record world := mk_world {
  w_store : store; w_journal : list record; w_ticks : nat;
  w_execute_calls : nat; w_commit_calls : nat; w_recovering : bool;
  w_kill : option nat }.

Definition set_store (s : store) (w : world) : world :=
  mk_world s (w_journal w) (w_ticks w) (w_execute_calls w) (w_commit_calls w) (w_recovering w) (w_kill w).
Definition set_journal (j : list record) (w : world) : world :=
  mk_world (w_store w) j (w_ticks w) (w_execute_calls w) (w_commit_calls w) (w_recovering w) (w_kill w).
Definition set_ticks (n : nat) (w : world) : world :=
  mk_world (w_store w) (w_journal w) n (w_execute_calls w) (w_commit_calls w) (w_recovering w) (w_kill w).
Definition count_execute (w : world) : world :=
  mk_world (w_store w) (w_journal w) (w_ticks w) (S (w_execute_calls w)) (w_commit_calls w) (w_recovering w) (w_kill w).
Definition count_commit (w : world) : world :=
  mk_world (w_store w) (w_journal w) (w_ticks w) (w_execute_calls w) (S (w_commit_calls w)) (w_recovering w) (w_kill w).
Definition set_recovering (b : bool) (w : world) : world :=
  mk_world (w_store w) (w_journal w) (w_ticks w) (w_execute_calls w) (w_commit_calls w) b (w_kill w).
Definition set_kill (k : option nat) (w : world) : world :=
  mk_world (w_store w) (w_journal w) (w_ticks w) (w_execute_calls w) (w_commit_calls w) (w_recovering w) k.

Abbreviation proc A := (eff exn world A).

(** One durable effect (an fsynced append, a storage COMMIT): it happens
    entirely or the process is dead before it. *)
Definition durable (f : world -> world) : proc unit :=
  fun w => match w_kill w with
           | Some 0 => Crash w
           | Some (S n) => Ret tt (f (set_kill (Some n) w))
           | None => Ret tt (f w)
           end.

(** The durable state a call leaves behind, however it ends. *)
Definition after {A} (o : outcome exn world A) : store * list record :=
  (w_store (oworld o), w_journal (oworld o)).

Definition ADAPTER : string := "sqlite-wal/v1".

(** [durability()] with the store id, as the COMMITTED record stores it. *)
Definition durability (store_id : string) : physical :=
  mk_physical ADAPTER "wal" "FULL" store_id.

(** The rows of [kv], sorted. *)
Definition entries_of (s : store) : list (string * string) := sorted_rows (map_to_list (st_kv s)).

(** [SELECT ... FROM applied WHERE intent_id = ?]. *)
Definition applied (s : store) (intent_id : string) : option applied_row :=
  list_find (fun a => ar_intent_id a = intent_id) (st_applied s) ≫= fun ia => Some ia.2.

Definition applied_count (s : store) : nat := length (st_applied s).

Section adapter.
Context `{Ext}.

(** [SqliteStateAdapter.create]. *)
Definition create (namespace store_id : string) : store :=
  mk_store namespace store_id 0 ∅ [].

Definition read (s : store) : snapshot :=
  mk_snapshot (st_namespace s) (st_store_id s) (st_generation s) (entries_of s)
  (state_root (st_namespace s) (st_generation s) (entries_of s)).

(** The mutation: UPSERT of the key, generation bumped, applied row added. *)
Definition upserted (s : store) (key value : string) : store :=
  mk_store (st_namespace s) (st_store_id s) (st_generation s + 1)
  (<[key:=value]> (st_kv s)) (st_applied s).

Definition with_row (s : store) (a : applied_row) : store :=
  mk_store (st_namespace s) (st_store_id s) (st_generation s) (st_kv s) (st_applied s ++ [a]).

(** The PRIMARY KEY on [intent_id] and UNIQUE on [generation]. *)
Definition applied_conflict (s : store) (a : applied_row) : bool :=
  existsb (fun b => str_eqb (ar_intent_id b) (ar_intent_id a)
                  || (ar_generation b =? ar_generation a)%Z) (st_applied s).

(** [apply_upsert].  [bumped] is the row count of the conditional UPDATE of
    [meta]; a NULL [intent_hash] violates NOT NULL. *)
Definition apply_upsert (intent_id : string) (intent_hash : option string) (key value : string)
  (expected_generation : Z) (expected_root : string) (before_commit : proc unit)
  : proc (Z * string) :=
  do! emod count_execute in
  let! w := eget in
  let s := w_store w in
  let pre := read s in
  if negb (sn_generation pre =? expected_generation)%Z then
  eraise (PreconditionFailed "E_STALE_GENERATION")
  else if negb (str_eqb (sn_root pre) expected_root) then
  eraise (PreconditionFailed "E_ROOT_MISMATCH")
  else
  let bumped := if (st_generation s =? expected_generation)%Z then 1 else 0 in
  if negb (bumped =? 1)%nat then eraise (PreconditionFailed "E_STALE_GENERATION")
  else
    let s1 := upserted s key value in
    let post := read s1 in
    match intent_hash with
    | None => eraise IntegrityError
    | Some h =>
      let a := mk_applied intent_id h (sn_generation post) (sn_root post) in
      if applied_conflict s1 a then eraise IntegrityError
      else
        do! before_commit in
        do! emod count_commit in
        do! durable (set_store (with_row s1 a)) in
        eret (sn_generation post, sn_root post)
    end.

(** ** Lemmas *)

Lemma applied_Some s iid a :
  applied s iid = Some a -> a ∈ st_applied s /\ ar_intent_id a = iid.
Proof.
  unfold applied. destruct (list_find _ _) as [[i b]|] eqn:E; [|done].
  apply list_find_Some in E as (Hi & Hb & _). simpl. intros [= <-].
  split; [|done]. by eapply list_elem_of_lookup_2.
Qed.

Lemma applied_None s iid a :
  applied s iid = None -> a ∈ st_applied s -> ar_intent_id a <> iid.
Proof.
  unfold applied. destruct (list_find _ _) as [[i b]|] eqn:E; [done|].
  apply list_find_None in E. rewrite Forall_forall in E. intros _ Ha. by apply E.
Qed.

Lemma applied_snoc s a iid :
  applied (with_row s a) iid =
  match applied s iid with
  | Some b => Some b
  | None => if decide (ar_intent_id a = iid) then Some a else None
  end.
Proof.
  unfold applied, with_row; simpl.
  destruct (list_find _ (st_applied s)) as [[i b]|] eqn:E; simpl.
  - rewrite (list_find_app_l _ _ _ _ _ E). done.
  - rewrite list_find_app_r by done. simpl.
  destruct (decide (ar_intent_id a = iid)); done.
Qed.

Lemma applied_upserted s k v iid : applied (upserted s k v) iid = applied s iid.
Proof. done. Qed.

(** The rows after an UPSERT are the old rows without the key, plus the
    new pair, sorted: the shape the coordinator and the verifier expect. *)
Definition expected_entries (pre : list (string * string)) (key value : string) :=
  sorted_rows (filter (fun e => e.1 <> key) pre ++ [(key, value)]).

Lemma entries_upserted s k v :
  entries_of (upserted s k v) = expected_entries (entries_of s) k v.
Proof.
  unfold entries_of, expected_entries; simpl. apply sorted_rows_perm.
  rewrite <- insert_delete_eq, map_to_list_insert by apply lookup_delete_eq.
  rewrite Permutation_app_comm. simpl. f_equiv.
  transitivity (filter (fun e : string * string => e.1 <> k) (map_to_list (st_kv s))).
  - apply NoDup_Permutation.
  + apply NoDup_map_to_list.
  + apply NoDup_filter, NoDup_map_to_list.
  + intros [k' v']. rewrite list_elem_of_filter, !elem_of_map_to_list, lookup_delete_Some.
    simpl. intuition congruence.
  - symmetry. apply filter_Permutation. apply merge_sort_Permutation.
Qed.
End adapter.
