(* ===== verification/Coordinator.v ===== *)
(** * The VDB-C1 coordinator (vdb_c1/coordinator.py)

    Admission, the ordered execution of one intent, commit confirmation,
    certificates, crash recovery, and bundle export.  Every method is a
    [proc]: it acts on the store and the journal, may raise, and may be
    killed at a named crash point ([_crash]) or before any durable effect. *)

From Stdlib Require Import ZArith Lia String.
From stdpp Require Import base gmap strings list.
From S2P Require Import Prelude Canon VdbStates Journal StateAdapter.

Definition INTENT_PROTOCOL : string := "veklom.vdb.c1.intent/v1".
Definition FINALITY_PROTOCOL : string := "veklom.vdb.c1.finality/v1".
Definition BUNDLE_PROTOCOL : string := "veklom.vdb.c1.bundle/v1".

(** [CRASH_POINTS]. *)
Inductive crash_point :=
  | after_prepared | before_storage_commit | after_storage_commit
  | after_committed_record | after_finalized.
#[export] Instance crash_point_eq_dec : EqDecision crash_point.
Proof. solve_decision. Defined.

Definition ENVELOPE_KEYS : list string := ["alg"; "kid"; "payload"; "sig"].
Definition INTENT_KEYS : list string :=
  ["protocol"; "intent_id"; "namespace"; "op"; "key"; "value"; "expected_generation";
   "expected_root"; "issued_at"; "expires_at"; "authority_kid"].
(** Times are microseconds. *)
Definition MAX_TTL : Z := 600 * 1000000.
Definition CLOCK_SKEW : Z := 5 * 1000000.
Definition MAX_KEY : nat := 256.
Definition MAX_VALUE : N := 65536.
Definition CHECKS : list string :=
  ["schema"; "protocol"; "op"; "namespace"; "kid"; "trusted_key"; "signature"; "validity_window"; "ttl"].

(** The members of an intent payload, once their types are checked. *)
Record intent := mk_intent {
  i_protocol : string; i_intent_id : string; i_namespace : string; i_op : string;
  i_key : string; i_value : string; i_expected_generation : Z; i_expected_root : string;
  i_issued_at : string; i_expires_at : string; i_authority_kid : string }.

(** The type loop of [_admission]: [expected_generation] is an int and no
    bool or float, every other member is a str. *)
Definition decode_intent (p : json) : option intent :=
  protocol ← gets "protocol" p; intent_id ← gets "intent_id" p;
  namespace ← gets "namespace" p; op ← gets "op" p; key ← gets "key" p;
  value ← gets "value" p; gen ← geti "expected_generation" p;
  root ← gets "expected_root" p; issued ← gets "issued_at" p;
  expires ← gets "expires_at" p; kid ← gets "authority_kid" p;
  Some (mk_intent protocol intent_id namespace op key value gen root issued expires kid).

(** What [submit] returns. *)
Record result := mk_result {
  rs_intent_id : string; rs_state : kind; rs_replayed : bool;
  rs_reason : option string; rs_certificate : option (signed cert_payload) }.

(** [try: m  finally: f] on an in-memory field: the process's death runs
    no [finally]. *)
Definition efinally {A} (m : proc A) (f : world -> world) : proc A :=
  fun w => match m w with
           | Ret a w' => Ret a (f w')
           | Raise e w' => Raise e (f w')
           | Crash w' => Crash w'
           end.

(** [try: m  except PreconditionFailed as e: h e.reason]. *)
Definition catch_precondition {A} (m : proc A) (k : A -> proc result) (h : string -> proc result) : proc result :=
  fun w => match m w with
           | Ret a w' => k a w'
           | Raise (PreconditionFailed r) w' => h r w'
           | Raise e w' => Raise e w'
           | Crash w' => Crash w'
           end.

Fixpoint join (sep : string) (l : list string) : string :=
  match l with
  | [] => ""
  | [x] => x
  | x :: l' => x +:+ sep +:+ join sep l'
  end.

Section coordinator.
Context `{Ext}.

(** The fields [Coordinator.__init__] sets, and the clock's readings. *)
Record config := mk_config {
  c_crash_at : option crash_point;
  c_clock : nat -> Z;
  c_authority_keys : keyring;
  c_finalizer_sk : privkey;
  c_finalizer_kid : string }.

Context (cfg : config).

(** [self.clock()]. *)
Definition clock_read : proc Z :=
  fun w => Ret (c_clock cfg (w_ticks w)) (set_ticks (S (w_ticks w)) w).
Definition now_str : proc string :=
  let! t := clock_read in eret (format_time t).

Definition crash (p : crash_point) : proc unit :=
  fun w => if bool_decide (c_crash_at cfg = Some p) && negb (w_recovering w)
         then Crash w else Ret tt w.

Definition binding (js : list record) (intent_id : string) : list record :=
  filter (fun r => BINDING_KINDS (r_kind r) = true) (for_intent js intent_id).

Definition journal_append (k : kind) (intent_id : string) (b : body) (at_ : string) : proc unit :=
  let! w := eget in
  match append (w_journal w) k intent_id b at_ with
  | None => eraise ValueError
  | Some js => durable (set_journal js)
  end.

Definition append_ (k : kind) (intent_id : string) (b : body) : proc unit :=
  let! w := eget in
  if BINDING_KINDS k &&
   match state_after (map r_kind (binding (w_journal w) intent_id) ++ [k]) with
   | None => true | Some _ => false end
  then eraise IllegalTransition
  else let! at_ := now_str in journal_append k intent_id b at_.

Definition reject (intent_id : string) (ih : option string) (reason : string) : proc result :=
  do! append_ ADMISSION_REJECTED intent_id (BRejected ih reason) in
  eret (mk_result intent_id ADMISSION_REJECTED false (Some reason) None).

(** ** Admission *)

(** The checks that read no clock, in the order of the code: the schema,
    the member types and bounds, the parsed times, and the authority. *)
Definition admission_checks (namespace : string) (s : json) : string + (intent * Z * Z) :=
  if negb (keys_are s ENVELOPE_KEYS) then inl "E_SCHEMA"
  else match jget "payload" s with
  | None => inl "E_SCHEMA"
  | Some p =>
  if negb (keys_are p INTENT_KEYS) then inl "E_SCHEMA"
  else match decode_intent p with
  | None => inl "E_SCHEMA"
  | Some i =>
    if (i_expected_generation i <? 0)%Z || (MAX_KEY <? String.length (i_key i))%nat
       || (MAX_VALUE <? N.of_nat (String.length (i_value i)))%N || str_eqb (i_key i) ""
    then inl "E_SCHEMA"
    else if negb (uuid_ok (i_intent_id i)) then inl "E_SCHEMA"
    else match parse_time (i_issued_at i), parse_time (i_expires_at i) with
    | Some issued, Some expires =>
      if negb (str_eqb (i_protocol i) INTENT_PROTOCOL) then inl "E_PROTOCOL"
      else if negb (str_eqb (i_op i) "UPSERT") then inl "E_OP"
      else if negb (str_eqb (i_namespace i) namespace) then inl "E_NAMESPACE"
      else if negb (opt_eqb (gets "kid" s) (Some (i_authority_kid i))) then inl "E_KID_MISMATCH"
      else if negb (bool_decide (is_Some (c_authority_keys cfg !! i_authority_kid i)))
      then inl "E_UNTRUSTED_KEY"
      else if negb (verify_signed s (c_authority_keys cfg)) then inl "E_BAD_SIGNATURE"
      else inr (i, issued, expires)
    | _, _ => inl "E_SCHEMA"
    end
  end
  end.

(** The window checks against the clock. *)
Definition window_check (now issued expires : Z) : option string :=
  if ((MAX_TTL <? expires - issued) || (expires <=? issued))%Z then Some "E_TTL"
  else if (now <? issued - CLOCK_SKEW)%Z then Some "E_NOT_YET_VALID"
  else if (expires <=? now)%Z then Some "E_EXPIRED"
  else None.

Definition admission (s : json) : proc (option string) :=
  let! w := eget in
  match admission_checks (st_namespace (w_store w)) s with
  | inl reason => eret (Some reason)
  | inr (_, issued, expires) =>
  let! now := clock_read in eret (window_check now issued expires)
  end.

(** ** Finality *)

(** [_certificate], from the intent's binding records. *)
Definition certificate_of (recs : list record) (intent_id : string) : option (signed cert_payload) :=
  match recs, list_find (fun r => r_kind r = COMMITTED) recs with
  | prepared :: _, Some (_, committed) =>
  match r_body prepared, r_body committed with
  | BPrepared pb, BCommitted cb =>
    match jget "payload" (pb_signed_intent pb) ≫= decode_intent with
    | Some p =>
      Some (sign cert_payload_json
        (mk_cert FINALITY_PROTOCOL intent_id (pb_intent_hash pb) (i_namespace p)
           (i_authority_kid p) (i_expected_generation p) (pb_pre_root pb)
           (pb_payload_commitment pb) (cb_post_generation cb) (cb_post_root cb)
           (cb_physical cb) (cb_applied_row cb)
           (r_seq prepared) (r_hash prepared) (r_seq committed) (r_hash committed)
           (r_at committed) (c_finalizer_kid cfg))
        (c_finalizer_sk cfg) (c_finalizer_kid cfg))
    | None => None
    end
  | _, _ => None
  end
  | _, _ => None
  end.

Definition certificate (js : list record) (intent_id : string) : option (signed cert_payload) :=
  certificate_of (binding js intent_id) intent_id.

Definition finalize (intent_id : string) : proc unit :=
  let! w := eget in
  match certificate (w_journal w) intent_id with
  | None => eraise KeyError
  | Some cert =>
  do! append_ FINALIZED intent_id (BFinalized (ct_intent_hash (sg_payload cert)) cert) in
  crash after_finalized
  end.

(** The list [problems] of [_confirm_commit]. *)
Definition confirm_problems (pb : prepared_body) (key value : string)
  (row : option applied_row) (fresh : snapshot) : list string :=
  (if match row with
    | None => true
    | Some a => negb (opt_eqb (Some (ar_intent_hash a)) (pb_intent_hash pb))
    end then ["applied_row"] else []) ++
  (if negb (str_eqb (sn_store_id fresh) (pb_store_id pb)) then ["store_id"] else []) ++
  match row with
  | None => []
  | Some a =>
  (if negb ((sn_generation fresh =? ar_generation a)
            && (ar_generation a =? pb_pre_generation pb + 1))%Z then ["generation"] else []) ++
  (if negb (str_eqb (sn_root fresh) (ar_post_root a)) then ["post_root"] else [])
  end ++
  (if negb (bool_decide (sn_entries fresh = expected_entries (pb_pre_entries pb) key value))
  then ["entries"] else []).

Definition confirm_commit (intent_id : string) (recovered : bool) : proc bool :=
  let! w := eget in
  match binding (w_journal w) intent_id with
  | prepared :: _ =>
  match r_body prepared with
  | BPrepared pb =>
    match jget "payload" (pb_signed_intent pb) with
    | Some p =>
      match gets "key" p, gets "value" p with
      | Some key, Some value =>
        let row := applied (w_store w) intent_id in
        let fresh := read (w_store w) in
        let problems := confirm_problems pb key value row fresh in
        match problems, row with
        | [], Some a =>
          do! append_ COMMITTED intent_id
            (BCommitted (mk_committed (pb_intent_hash pb) (sn_generation fresh) (sn_root fresh)
               (sn_entries fresh) a (durability (sn_store_id fresh)) recovered)) in
          do! crash after_committed_record in
          do! finalize intent_id in
          eret true
        | _, _ =>
          if bool_decide (r_kind <$> last (binding (w_journal w) intent_id) = Some COMMIT_UNCERTAIN)
          then eret false
          else
            do! append_ COMMIT_UNCERTAIN intent_id
              (BReason (pb_intent_hash pb) ("E_FRESH_READ_MISMATCH:" +:+ join "," problems)) in
            eret false
        end
      | _, _ => eraise KeyError
      end
    | None => eraise KeyError
    end
  | _ => eraise KeyError
  end
  | [] => eraise KeyError
  end.

(** The result of an intent that is bound in the journal. *)
Definition result_of (intent_id : string) (replayed : bool) : proc result :=
  let! w := eget in
  let recs := binding (w_journal w) intent_id in
  match state_after (map r_kind recs), last recs with
  | Some st, Some r =>
  if decide (st = FINALIZED) then
    match r_body r with
    | BFinalized _ cert => eret (mk_result intent_id st replayed None (Some cert))
    | _ => eraise KeyError
    end
  else eret (mk_result intent_id st replayed (body_reason (r_body r)) None)
  | None, _ => eraise IllegalTransition
  | _, None => eraise KeyError
  end.

(** ** Submit *)

(** [payload], [intent_id] and [intent_hash] as [_submit_locked] reads them
    from an unchecked request. *)
Definition request_payload (s : json) : option json :=
  match jget "payload" s with Some (JObj m) => Some (JObj m) | _ => None end.
Definition request_id (s : json) : string :=
  match request_payload s with
  | Some p => match gets "intent_id" p with Some i => i | None => "unknown" end
  | None => "unknown"
  end.
Definition request_hash (s : json) : option string := request_payload s ≫= digest_opt.

Definition execute (s : json) (intent_id : string) (ih : option string) (p : intent) : proc result :=
  let! w := eget in
  let pre := read (w_store w) in
  let reason :=
  if negb (sn_generation pre =? i_expected_generation p)%Z then Some "E_STALE_GENERATION"
  else if negb (str_eqb (sn_root pre) (i_expected_root p)) then Some "E_ROOT_MISMATCH"
  else None in
  match reason with
  | Some r =>
  do! append_ PRECONDITION_REJECTED intent_id
        (BPrecondition ih r s (sn_generation pre) (sn_root pre)) in
  eret (mk_result intent_id PRECONDITION_REJECTED false (Some r) None)
  | None =>
  let! admitted_at := now_str in
  do! append_ PREPARED intent_id
        (BPrepared (mk_prepared ih s (i_authority_kid p) admitted_at CHECKS (sn_store_id pre)
           (sn_generation pre) (sn_root pre) (sn_entries pre)
           (payload_commitment (i_op p) (i_key p) (i_value p)))) in
  do! crash after_prepared in
  let before_commit :=
    do! append_ COMMITTING intent_id (BCommitting ih) in
    crash before_storage_commit in
  catch_precondition
    (apply_upsert intent_id ih (i_key p) (i_value p) (i_expected_generation p)
       (i_expected_root p) before_commit)
    (fun _ =>
       do! crash after_storage_commit in
       do! confirm_commit intent_id false in
       result_of intent_id false)
    (fun r =>
       do! append_ ABORTED intent_id (BReason ih r) in
       result_of intent_id false)
  end.

Definition submit_locked (s : json) : proc result :=
  let intent_id := request_id s in
  let ih := request_hash s in
  let! w := eget in
  let bound := if str_eqb intent_id "unknown" then [] else binding (w_journal w) intent_id in
  match bound with
  | r :: _ =>
  if negb (opt_eqb (body_intent_hash (r_body r)) ih) then reject intent_id ih "E_INTENT_CONFLICT"
  else if negb (verify_signed s (c_authority_keys cfg)) then reject intent_id ih "E_BAD_SIGNATURE"
  else result_of intent_id true
  | [] =>
  let! reason := admission s in
  match reason with
  | Some r => reject intent_id ih r
  | None =>
    match request_payload s ≫= decode_intent with
    | Some p => execute s intent_id ih p
    | None => eraise KeyError
    end
  end
  end.

(** ** Recovery *)

Definition recover_one (iid : string) (kinds : list kind) : proc unit :=
  let! w := eget in
  match binding (w_journal w) iid with
  | [] => eraise KeyError
  | r0 :: _ =>
  let ih := body_intent_hash (r_body r0) in
  let row := applied (w_store w) iid in
  match last kinds with
  | None => eraise KeyError
  | Some last =>
    if decide (last = PREPARED) then
      match row with
      | Some _ => eraise RecoveryError
      | None => append_ ABORTED iid (BReason ih "E_CRASH_BEFORE_STORAGE_TRANSACTION")
      end
    else if decide (last = COMMITTED) then finalize iid
    else
      do! (if decide (last = COMMITTING)
           then append_ COMMIT_UNCERTAIN iid (BReason ih "E_OUTCOME_UNKNOWN_AFTER_CRASH")
           else eret tt) in
      match row with
      | None => append_ ABORTED iid (BReason ih "E_STORAGE_COMMIT_NOT_DURABLE")
      | Some _ => do! confirm_commit iid true in eret tt
      end
  end
  end.

(** [seen]: the prepared intents, each once, in journal order. *)
Fixpoint prepared_ids (seen : list string) (js : list record) : list string :=
  match js with
  | [] => seen
  | r :: js' =>
  if bool_decide (r_kind r = PREPARED) && negb (bool_decide (r_intent_id r ∈ seen))
  then prepared_ids (seen ++ [r_intent_id r]) js'
  else prepared_ids seen js'
  end.

(** One report entry: the intent, its state before and after. *)
Definition report := (string * kind * kind)%type.

Fixpoint recover_all (ids : list string) : proc (list report) :=
  match ids with
  | [] => eret []
  | iid :: rest =>
  let! w := eget in
  let kinds := map r_kind (binding (w_journal w) iid) in
  match state_after kinds with
  | None => eraise IllegalTransition
  | Some before =>
    if TERMINAL before then recover_all rest
    else
      do! recover_one iid kinds in
      let! w' := eget in
      match state_after (map r_kind (binding (w_journal w') iid)) with
      | None => eraise IllegalTransition
      | Some after =>
        let! rs := recover_all rest in
        eret ((iid, before, after) :: rs)
      end
  end
  end.

Definition recover_locked : proc (list report) :=
  do! emod (set_recovering true) in
  let! w := eget in
  efinally (recover_all (prepared_ids [] (w_journal w))) (set_recovering false).

(** [submit] and [recover] under the finalizer lock. *)
Definition submit (s : json) : proc result :=
  do! recover_locked in submit_locked s.

(** ** Export *)

Record receipt := mk_receipt { rc_certificate : signed cert_payload; rc_digest : string }.

Record checkpoint := mk_checkpoint {
  cp_protocol : string; cp_genesis_hash : string; cp_seq : nat; cp_head_hash : string;
  cp_witnessed_at : string; cp_witness_kid : string }.

Record witness_part := mk_witness_part {
  wp_checkpoint : signed checkpoint; wp_suffix : list record }.

Record bundle := mk_bundle {
  bd_protocol : string; bd_intent_id : string; bd_journal : list record;
  bd_receipt : receipt; bd_witness : option witness_part }.

(** [records[a:b]]. *)
Definition slice {A} (a b : nat) (l : list A) : list A := take (b - a) (drop a l).

Definition export_bundle (js : list record) (intent_id : string)
  (cp : option (signed checkpoint)) : option bundle :=
  match filter (fun r => r_kind r = FINALIZED) (for_intent js intent_id) with
  | [fin] =>
  match r_body fin with
  | BFinalized _ cert =>
    let base w := mk_bundle BUNDLE_PROTOCOL intent_id (take (r_seq fin + 1) js)
                    (mk_receipt cert (digest (cert_json cert))) w in
    match cp with
    | None => Some (base None)
    | Some c =>
      let cp_seq := cp_seq (sg_payload c) in
      if (r_seq fin <=? cp_seq)%nat && (cp_seq <? length js)%nat
      then Some (base (Some (mk_witness_part c (slice (r_seq fin + 1) (cp_seq + 1) js))))
      else None
    end
  | _ => None
  end
  | _ => None
  end.
End coordinator.
Arguments mk_config {_} _ _ _ _ _.
