(* ===== verification/CrashSafety.v ===== *)
(** * Crash safety of the coordinator

    The invariant that ties the journal to the state store, and that every
    coordinator method re-establishes whether it returns, raises or is killed.
    It says of each intent where its records stand (its trail) and what the
    store holds for it; at most one intent, the active one, is open. *)

From Stdlib Require Import ZArith Lia String.
From stdpp Require Import base gmap strings list.
From S2P Require Import Prelude Canon VdbStates Journal StateAdapter Coordinator.

Section crash_safety.
Context `{Ext}.
(** What does not change over the life of a home directory. *)
Context (ns sid : string) (auth : keyring) (sk : privkey) (fkid : string).

(** ** Well-formed records *)

(** The PREPARED body of an admitted intent. *)
Definition good_pb (iid : string) (pb : prepared_body) (i : intent) : Prop :=
  (exists p, jget "payload" (pb_signed_intent pb) = Some p /\ decode_intent p = Some i
   /\ pb_intent_hash pb = Some (digest p) /\ jcs_raises p = false)
  /\ i_intent_id i = iid /\ verify_signed (pb_signed_intent pb) auth = true
  /\ gets "kid" (pb_signed_intent pb) = Some (i_authority_kid i)
  /\ i_protocol i = INTENT_PROTOCOL /\ i_op i = "UPSERT" /\ i_namespace i = ns
  /\ pb_pre_generation pb = i_expected_generation i /\ pb_pre_root pb = i_expected_root i
  /\ pb_pre_root pb = state_root ns (pb_pre_generation pb) (pb_pre_entries pb)
  /\ pb_payload_commitment pb = payload_commitment (i_op i) (i_key i) (i_value i)
  /\ pb_store_id pb = sid.

Definition post_entries (pb : prepared_body) (i : intent) : list (string * string) :=
  expected_entries (pb_pre_entries pb) (i_key i) (i_value i).

(** The applied row that the transaction of this intent writes. *)
Definition row_for (iid : string) (pb : prepared_body) (i : intent) (a : applied_row) : Prop :=
  pb_intent_hash pb = Some (ar_intent_hash a) /\ ar_intent_id a = iid
  /\ ar_generation a = (pb_pre_generation pb + 1)%Z
  /\ ar_post_root a = state_root ns (pb_pre_generation pb + 1) (post_entries pb i).

Definition good_cb (iid : string) (pb : prepared_body) (i : intent) (cb : committed_body) : Prop :=
  cb_intent_hash cb = pb_intent_hash pb
  /\ cb_post_generation cb = (pb_pre_generation pb + 1)%Z
  /\ cb_post_entries cb = post_entries pb i
  /\ cb_post_root cb = state_root ns (pb_pre_generation pb + 1) (post_entries pb i)
  /\ row_for iid pb i (cb_applied_row cb)
  /\ cb_physical cb = durability sid.

Inductive phase := PhPrepared | PhCommitting | PhUncertain | PhAborted | PhCommitted | PhFinalized.

Definition is_open (ph : phase) : bool :=
  match ph with PhAborted | PhFinalized => false | _ => true end.

(** The binding records of an intent, with what each of them carries. *)
Inductive trail (iid : string) (pb : prepared_body) (i : intent) : list record -> phase -> Prop :=
  | tr_prepared r :
  r_kind r = PREPARED -> r_body r = BPrepared pb -> good_pb iid pb i ->
  trail iid pb i [r] PhPrepared
  | tr_committing rs r :
  trail iid pb i rs PhPrepared -> r_kind r = COMMITTING ->
  body_intent_hash (r_body r) = pb_intent_hash pb ->
  trail iid pb i (rs ++ [r]) PhCommitting
  | tr_uncertain rs r :
  trail iid pb i rs PhCommitting -> r_kind r = COMMIT_UNCERTAIN ->
  body_intent_hash (r_body r) = pb_intent_hash pb ->
  trail iid pb i (rs ++ [r]) PhUncertain
  | tr_aborted rs r ph :
  trail iid pb i rs ph -> (ph = PhPrepared \/ ph = PhUncertain) -> r_kind r = ABORTED ->
  body_intent_hash (r_body r) = pb_intent_hash pb ->
  trail iid pb i (rs ++ [r]) PhAborted
  | tr_committed rs r ph cb :
  trail iid pb i rs ph -> (ph = PhCommitting \/ ph = PhUncertain) -> r_kind r = COMMITTED ->
  r_body r = BCommitted cb -> good_cb iid pb i cb ->
  trail iid pb i (rs ++ [r]) PhCommitted
  | tr_finalized rs r cfg cert :
  trail iid pb i rs PhCommitted -> r_kind r = FINALIZED ->
  r_body r = BFinalized (pb_intent_hash pb) cert ->
  c_finalizer_sk cfg = sk -> c_finalizer_kid cfg = fkid ->
  certificate_of cfg rs iid = Some cert ->
  trail iid pb i (rs ++ [r]) PhFinalized.

Definition kinds_of (ph : phase) (ks : list kind) : Prop :=
  match ph with
  | PhPrepared => ks = [PREPARED]
  | PhCommitting => ks = [PREPARED; COMMITTING]
  | PhUncertain => ks = [PREPARED; COMMITTING; COMMIT_UNCERTAIN]
  | PhAborted => ks = [PREPARED; ABORTED] \/ ks = [PREPARED; COMMITTING; COMMIT_UNCERTAIN; ABORTED]
  | PhCommitted => ks = [PREPARED; COMMITTING; COMMITTED]
                 \/ ks = [PREPARED; COMMITTING; COMMIT_UNCERTAIN; COMMITTED]
  | PhFinalized => ks = [PREPARED; COMMITTING; COMMITTED; FINALIZED]
                 \/ ks = [PREPARED; COMMITTING; COMMIT_UNCERTAIN; COMMITTED; FINALIZED]
  end.

Lemma trail_kinds iid pb i rs ph : trail iid pb i rs ph -> kinds_of ph (map r_kind rs).
Proof.
  induction 1 as [r Hk|rs r Ht IH Hk|rs r Ht IH Hk|rs r ph Ht IH Hp Hk|rs r ph cb Ht IH Hp Hk
               |rs r cfg cert Ht IH Hk]; simpl in *; rewrite ?map_app; simpl; rewrite ?Hk.
  - done.
  - by rewrite IH.
  - by rewrite IH.
  - destruct Hp as [-> | ->]; simpl in IH; rewrite IH; auto.
  - destruct Hp as [-> | ->]; simpl in IH; rewrite IH; auto.
  - destruct IH as [-> | ->]; auto.
Qed.

Lemma trail_head iid pb i rs ph :
  trail iid pb i rs ph ->
  exists r rest, rs = r :: rest /\ r_body r = BPrepared pb /\ r_kind r = PREPARED /\ good_pb iid pb i.
Proof.
  induction 1; open_all; subst; simpl; eauto 10.
Qed.

Lemma trail_hashes iid pb i rs ph :
  trail iid pb i rs ph ->
  Forall (fun r => body_intent_hash (r_body r) = pb_intent_hash pb) rs.
Proof.
  induction 1 as [r Hk Hb|rs r Ht IH Hk Hb|rs r Ht IH Hk Hb|rs r ph Ht IH Hp Hk Hb
               |rs r ph cb Ht IH Hp Hk Hb Hg|rs r cfg cert Ht IH Hk Hb];
  rewrite ?Forall_app, ?Forall_singleton; rewrite ?Hb; try done.
  split; [done|apply Hg].
Qed.

(** ** The store beside a trail *)

Definition at_pre (s : store) (pb : prepared_body) : Prop :=
  st_generation s = pb_pre_generation pb /\ entries_of s = pb_pre_entries pb.
Definition at_post (s : store) (pb : prepared_body) (i : intent) : Prop :=
  st_generation s = (pb_pre_generation pb + 1)%Z /\ entries_of s = post_entries pb i.

Definition consistent (s : store) (iid : string) (pb : prepared_body) (i : intent) (ph : phase) : Prop :=
  match ph with
  | PhPrepared => applied s iid = None /\ at_pre s pb
  | PhCommitting | PhUncertain =>
    (applied s iid = None /\ at_pre s pb)
    \/ (exists a, applied s iid = Some a /\ row_for iid pb i a /\ at_post s pb i)
  | PhAborted => applied s iid = None
  | PhCommitted | PhFinalized => exists a, applied s iid = Some a /\ row_for iid pb i a
  end.

Definition status (s : store) (js : list record) (iid : string) (act : Prop) : Prop :=
  (binding js iid = [] /\ applied s iid = None)
  \/ (exists pb i ph, trail iid pb i (binding js iid) ph /\ consistent s iid pb i ph
      /\ (is_open ph = true -> act)).

(** The intent a bound id was prepared for. *)
Definition intent_of (js : list record) (iid : string) : option intent :=
  match binding js iid with
  | r :: _ => s ← body_signed_intent (r_body r); p ← jget "payload" s; decode_intent p
  | [] => None
  end.

(** The abstract state: the intents of the applied rows, executed one after
    the other on the empty map. *)
Definition kv_replay (js : list record) (rows : list applied_row) : gmap string string :=
  foldl (fun m a => match intent_of js (ar_intent_id a) with
                  | Some i => <[i_key i := i_value i]> m
                  | None => m
                  end) ∅ rows.

(** [act] is the open intent, if any. *)
Record Inv (s : store) (js : list record) (act : option string) : Prop := {
  inv_chain : chain_ok js = true;
  inv_ns : st_namespace s = ns;
  inv_sid : st_store_id s = sid;
  inv_gen : st_generation s = Z.of_nat (length (st_applied s));
  inv_rows : forall n a, st_applied s !! n = Some a -> ar_generation a = Z.of_nat (S n);
  inv_ids : NoDup (map ar_intent_id (st_applied s));
  inv_kv : st_kv s = kv_replay js (st_applied s);
  inv_status : forall iid, status s js iid (act = Some iid) }.

Lemma binding_snoc js r iid :
  binding (js ++ [r]) iid =
  if decide (r_intent_id r = iid /\ BINDING_KINDS (r_kind r) = true)
  then binding js iid ++ [r] else binding js iid.
Proof.
  unfold binding, for_intent. rewrite !filter_app, !filter_cons, !filter_nil.
  repeat first [case_decide | rewrite filter_cons | rewrite filter_nil | rewrite app_nil_r];
  first [done | tauto].
Qed.

Lemma binding_kind js iid r : r ∈ binding js iid -> BINDING_KINDS (r_kind r) = true.
Proof. unfold binding. by intros [? _]%list_elem_of_filter. Qed.

Lemma status_row s js iid act a :
  status s js iid act -> applied s iid = Some a -> binding js iid <> [].
Proof.
  intros [[_ Hn]|(pb & i & ph & Ht & _)] Ha; [congruence|].
  destruct (trail_head _ _ _ _ _ Ht) as (r & rest & -> & _). done.
Qed.

Lemma intent_of_trail js iid pb i rs ph :
  binding js iid = rs -> trail iid pb i rs ph -> intent_of js iid = Some i.
Proof.
  intros Hb Ht. destruct (trail_head _ _ _ _ _ Ht) as (r & rest & -> & Hr & _ & Hg).
  unfold intent_of. rewrite Hb, Hr. destruct Hg as [(p & Hp & Hd & _) _]. simpl.
  by rewrite Hp.
Qed.

(** An append keeps the intent of a bound id, hence the abstract state. *)
Lemma intent_of_snoc js r iid :
  binding js iid <> [] -> intent_of (js ++ [r]) iid = intent_of js iid.
Proof.
  intros Hn. unfold intent_of. rewrite binding_snoc. case_decide; [|done].
  by destruct (binding js iid).
Qed.

Lemma kv_replay_ext js js' rows :
  (forall a, a ∈ rows -> intent_of js' (ar_intent_id a) = intent_of js (ar_intent_id a)) ->
  kv_replay js' rows = kv_replay js rows.
Proof.
  intros Ha. unfold kv_replay.
  induction rows as [|a rows IH] using rev_ind; [done|].
  rewrite !foldl_snoc, IH, Ha by set_solver. done.
Qed.

Lemma kv_replay_snoc js r s act :
  (forall iid, status s js iid (act iid)) ->
  kv_replay (js ++ [r]) (st_applied s) = kv_replay js (st_applied s).
Proof.
  intros Hst. apply kv_replay_ext. intros a Ha. apply intent_of_snoc.
  destruct (applied s (ar_intent_id a)) as [b|] eqn:E.
  - by eapply status_row.
  - by destruct (applied_None _ _ _ E Ha).
Qed.

(** Appending to the journal, beside an unchanged store: what happens to
    the one intent the record is about. *)
Lemma Inv_snoc s js act act' r :
  Inv s js act -> chain_ok (js ++ [r]) = true ->
  (forall iid, iid <> r_intent_id r -> act = Some iid -> act' = Some iid) ->
  status s (js ++ [r]) (r_intent_id r) (act' = Some (r_intent_id r)) ->
  Inv s (js ++ [r]) act'.
Proof.
  intros [Hc Hn Hi Hg Hr Hd Hk Hs] Hc' Ha Hst. split; try done.
  - by rewrite (kv_replay_snoc _ _ _ _ Hs).
  - intros iid. destruct (decide (iid = r_intent_id r)) as [-> |Hne]; [done|].
  unfold status. rewrite binding_snoc, decide_False by (intros [? _]; congruence).
  destruct (Hs iid) as [?|(pb & i & ph & Ht & Hcs & Ho)]; [by left|].
  right. exists pb, i, ph. split; [done|]. split; [done|]. eauto.
Qed.

(** A record that binds nothing leaves every status as it is. *)
Lemma Inv_note s js act r :
  Inv s js act -> chain_ok (js ++ [r]) = true -> BINDING_KINDS (r_kind r) = false ->
  Inv s (js ++ [r]) act.
Proof.
  intros HI Hc Hb. apply (Inv_snoc _ _ act); auto.
  unfold status. rewrite binding_snoc, decide_False by (intros [_ ?]; congruence).
  apply (inv_status _ _ _ HI).
Qed.

(** An intent that is no longer open leaves no open intent. *)
Lemma Inv_close s js iid pb i ph :
  Inv s js (Some iid) -> trail iid pb i (binding js iid) ph -> consistent s iid pb i ph ->
  is_open ph = false -> Inv s js None.
Proof.
  intros [Hc Hn Hi Hg Hr Hd Hk Hs] Ht Hcs Ho. split; try done.
  intros iid'. destruct (Hs iid') as [?|(pb' & i' & ph' & Ht' & Hcs' & Ho')]; [by left|].
  right. destruct (decide (iid' = iid)) as [-> |Hne].
  - exists pb, i, ph. split; [done|]. split; [done|]. congruence.
  - exists pb', i', ph'. split; [done|]. split; [done|]. intros Hop.
  specialize (Ho' Hop). congruence.
Qed.

Lemma kinds_of_state ph ks :
  kinds_of ph ks -> exists st, state_after ks = Some st /\
  TERMINAL st = negb (is_open ph) /\
  (st = FINALIZED <-> ph = PhFinalized) /\ (st = ABORTED <-> ph = PhAborted).
Proof. destruct ph; simpl; intros Hk; repeat destruct Hk as [Hk|Hk]; subst; eexists; repeat split; done. Qed.
End crash_safety.
