(* ===== verification/CrashProofs.v ===== *)
(** * What each coordinator method guarantees

    One specification per method of vdb_c1/coordinator.py: on return, on an
    exception and on the death of the process the journal and the store
    satisfy the invariant of CrashSafety.  The only exception that can escape
    is the canonicalizer's [ValueError]. *)

From Stdlib Require Import ZArith Lia String.
From stdpp Require Import base gmap strings list.
From S2P Require Import Prelude Canon VdbStates Journal StateAdapter Coordinator CrashSafety.

Section proofs.
Context `{Ext}.
Context (ns sid : string) (cfg : config).
(** The kill budget and the journal at the start, and whether this is a
    recovery pass. *)
Context (k0 : option nat) (j0 : list record) (rec : bool).

Abbreviation INV := (Inv ns sid (c_authority_keys cfg) (c_finalizer_sk cfg) (c_finalizer_kid cfg)).
Abbreviation TR := (trail ns sid (c_authority_keys cfg) (c_finalizer_sk cfg) (c_finalizer_kid cfg)).

Definition W (act : option string) (w : world) : Prop :=
  INV (w_store w) (w_journal w) act /\ (k0 = None -> w_kill w = None)
  /\ extends j0 (w_journal w) /\ w_recovering w = rec.

(** The larger of the journal's length and the number of applied rows. *)
Definition size (w : world) : Z :=
  Z.max (Z.of_nat (length (w_journal w))) (Z.of_nat (length (st_applied (w_store w)))).

(** On an exception: it is the canonicalizer's, and the invariant holds.  What
    a recovery pass hands the canonicalizer has no float and no integer above
    the sizes of the journal and the store. *)
Definition Rz (e : exn) (w : world) : Prop :=
  e = ValueError /\ (exists j, jcs_raises j = true /\ (rec = true -> fits (size w) j = true))
  /\ exists act, W act w.
(** On death: the invariant holds, and something killed the process. *)
Definition Cz (w : world) : Prop :=
  (exists act, W act w) /\ (k0 <> None \/ (rec = false /\ c_crash_at cfg <> None)).

(** ** Appends *)

Lemma append_run k iid b w :
  (BINDING_KINDS k = true ->
   state_after (map r_kind (binding (w_journal w) iid) ++ [k]) <> None) ->
  exists at_,
  append_ cfg k iid b w =
  let r := next_record (w_journal w) k iid b at_ in
  let w1 := set_ticks (S (w_ticks w)) w in
  if jcs_raises (unhashed_json r) then Raise ValueError w1
  else durable (set_journal (w_journal w ++ [r])) w1.
Proof.
  intros Hl. exists (format_time (c_clock cfg (w_ticks w))).
  unfold append_, ebind, eget.
  destruct (BINDING_KINDS k && _) eqn:E.
  - apply andb_true_iff in E as [Hk E]. destruct (state_after _) eqn:E'; [done|].
  by destruct (Hl Hk).
  - unfold now_str, clock_read, ebind, eret, journal_append, append, eget. simpl.
  unfold ebind. cbn [w_journal set_ticks]. destruct (jcs_raises _); done.
Qed.

Lemma next_record_fits w k iid b at_ :
  fits (size w) (body_json b) = true ->
  fits (size w) (unhashed_json (next_record (w_journal w) k iid b at_)) = true.
Proof.
  intros Hb. unfold unhashed_json, record_members, next_record. cbn [fits forallb fst snd r_seq r_body].
  rewrite Hb. simpl. rewrite !andb_true_r. apply Z.leb_le. unfold size. lia.
Qed.

Lemma append_spec act act' k iid b w0 :
  W act w0 -> (rec = true -> fits (size w0) (body_json b) = true) ->
  (BINDING_KINDS k = true ->
   state_after (map r_kind (binding (w_journal w0) iid) ++ [k]) <> None) ->
  (forall at_, let js := w_journal w0 ++ [next_record (w_journal w0) k iid b at_] in
   chain_ok js = true -> INV (w_store w0) js act') ->
  spec (eq w0) (append_ cfg k iid b)
  (fun _ w => W act' w /\ w_store w = w_store w0 /\
     exists at_, w_journal w = w_journal w0 ++ [next_record (w_journal w0) k iid b at_])
  Rz Cz.
Proof.
  intros HW Hfit Hl Hn w <-. destruct (append_run k iid b w0 Hl) as [at_ ->]. simpl.
  specialize (Hn at_). simpl in Hn. destruct HW as (HI & Hk & He & Hr).
  destruct (jcs_raises _) eqn:Ej.
  { split; [done|]. split; [|by exists act]. eexists. split; [done|]. intros Hrec.
  exact (next_record_fits w0 k iid b at_ (Hfit Hrec)). }
  assert (Hc : chain_ok (w_journal w0 ++ [next_record (w_journal w0) k iid b at_]) = true).
  { eapply append_chain; [|apply (inv_chain _ _ _ _ _ _ _ _ HI)].
  unfold append. by rewrite Ej. }
  assert (He' : extends j0 (w_journal w0 ++ [next_record (w_journal w0) k iid b at_])).
  { etrans; [done|]. apply extends_app. }
  unfold durable. simpl. destruct (w_kill w0) as [[|n]|] eqn:Ek; simpl.
  - assert (k0 <> None) by (intros Hk0; specialize (Hk Hk0); congruence).
  split; [exists act; split_and!; done|by left].
  - assert (k0 <> None) by (intros Hk0; specialize (Hk Hk0); congruence).
  split; [|by eauto]. split_and!; try done. by apply Hn.
  - split; [|by eauto]. split_and!; try done. by apply Hn.
Qed.

(** ** One open intent *)

(** The process works on [iid], whose binding records are [rs]. *)
Definition cur (iid : string) (pb : prepared_body) (i : intent) (ph : phase) (s : store)
  (rs : list record) (w : world) : Prop :=
  W (Some iid) w /\ w_store w = s /\ binding (w_journal w) iid = rs
  /\ TR iid pb i rs ph /\ consistent ns s iid pb i ph.

Lemma next_record_fields js k iid b at_ :
  r_kind (next_record js k iid b at_) = k /\ r_body (next_record js k iid b at_) = b
  /\ r_intent_id (next_record js k iid b at_) = iid.
Proof. done. Qed.

Lemma trail_legal iid pb i rs r ph :
  TR iid pb i (rs ++ [r]) ph -> state_after (map r_kind rs ++ [r_kind r]) <> None.
Proof.
  intros Ht. apply trail_kinds in Ht. rewrite map_app in Ht.
  destruct (kinds_of_state _ _ Ht) as (st & Hst & _). simpl in Hst. congruence.
Qed.

Lemma advance iid pb i ph s rs k b ph' :
  BINDING_KINDS k = true -> (rec = true -> forall w, cur iid pb i ph s rs w -> fits (size w) (body_json b) = true) ->
  (forall r, r_kind r = k -> r_body r = b -> TR iid pb i rs ph -> TR iid pb i (rs ++ [r]) ph') ->
  consistent ns s iid pb i ph' ->
  spec (cur iid pb i ph s rs) (append_ cfg k iid b)
  (fun _ w => exists r, (r_kind r = k /\ r_body r = b) /\ cur iid pb i ph' s (rs ++ [r]) w)
  Rz Cz.
Proof.
  intros Hb Hfit Hn Hc. apply spec_at. intros w0 Hw0. pose proof Hw0 as (HW & Hs & Hrs & Ht & Hcs).
  assert (Hnr : forall at_, binding (w_journal w0 ++ [next_record (w_journal w0) k iid b at_]) iid
          = rs ++ [next_record (w_journal w0) k iid b at_]).
  { intros at_. by rewrite binding_snoc, decide_True, Hrs. }
  eapply spec_conseq.
  - apply (append_spec (Some iid) (Some iid)); [done|intros Hrec; by apply Hfit| |].
  + intros _. rewrite Hrs.
    exact (trail_legal _ _ _ _ _ _ (Hn (next_record [] k iid b "") eq_refl eq_refl Ht)).
  + intros at_ js Hck. apply (Inv_snoc _ _ _ _ _ _ _ (Some iid)); try done; [apply HW|].
    right. exists pb, i, ph'. unfold js. simpl. rewrite Hnr, Hs. auto.
  - done.
  - intros _ w (HW' & Hs' & at_ & Hj). exists (next_record (w_journal w0) k iid b at_).
  split; [done|]. unfold cur. rewrite Hs', Hj, Hnr. auto 10.
  - done.
  - done.
Qed.

Lemma cur_close iid pb i ph s rs w :
  cur iid pb i ph s rs w -> is_open ph = false -> W None w.
Proof.
  intros ((HI & HW) & Hs & Hrs & Ht & Hc) Ho. split; [|done].
  rewrite Hs in *. rewrite <- Hrs in Ht. by eapply Inv_close.
Qed.

Lemma crash_spec p (P : world -> Prop) :
  (forall w, P w -> exists act, W act w) -> spec P (crash cfg p) (fun _ => P) Rz Cz.
Proof.
  intros HP w Hw. unfold crash. destruct (_ && _) eqn:E; [|done].
  apply andb_true_iff in E as [E1%bool_decide_eq_true E2%negb_true_iff].
  destruct (HP w Hw) as [act HW]. split; [by exists act|]. right.
  destruct HW as (_ & _ & _ & Hr). rewrite <- Hr. by rewrite E1.
Qed.

Lemma cur_crash iid pb i ph s rs p :
  spec (cur iid pb i ph s rs) (crash cfg p) (fun _ => cur iid pb i ph s rs) Rz Cz.
Proof. apply crash_spec. intros w [HW _]. by exists (Some iid). Qed.

(** ** Finality *)

(** The certificate of an intent with PREPARED record [p] and COMMITTED
    record [c]. *)
Definition cert_for (iid : string) (pb : prepared_body) (i : intent) (cb : committed_body)
  (p c : record) : signed cert_payload :=
  sign cert_payload_json
  (mk_cert FINALITY_PROTOCOL iid (pb_intent_hash pb) (i_namespace i) (i_authority_kid i)
     (i_expected_generation i) (pb_pre_root pb) (pb_payload_commitment pb)
     (cb_post_generation cb) (cb_post_root cb) (cb_physical cb) (cb_applied_row cb)
     (r_seq p) (r_hash p) (r_seq c) (r_hash c) (r_at c) (c_finalizer_kid cfg))
  (c_finalizer_sk cfg) (c_finalizer_kid cfg).

Lemma kinds_no_committed ph rs :
  ph = PhCommitting \/ ph = PhUncertain -> kinds_of ph (map r_kind rs) ->
  Forall (fun r => r_kind r <> COMMITTED) rs.
Proof.
  intros Hp Hk. apply (Forall_map r_kind (fun k => k <> COMMITTED)).
  destruct Hp as [-> | ->]; simpl in Hk; rewrite Hk; repeat constructor; done.
Qed.

Lemma trail_certificate iid pb i rs :
  TR iid pb i rs PhCommitted ->
  exists p rest c cb, rs = (p :: rest) ++ [c] /\ r_body p = BPrepared pb /\ r_body c = BCommitted cb
  /\ r_kind c = COMMITTED /\ good_cb ns sid iid pb i cb
  /\ Forall (fun r => r_kind r <> COMMITTED) (p :: rest)
  /\ certificate_of cfg rs iid = Some (cert_for iid pb i cb p c).
Proof.
  inversion 1 as [| | | |rs' c ph cb Ht Hph Hk Hb Hg|]; subst.
  destruct (trail_head _ _ _ _ _ _ _ _ _ _ Ht) as (p & rest & -> & Hp & _ & Hgp).
  assert (Hnc : Forall (fun r => r_kind r <> COMMITTED) (p :: rest)).
  { apply (kinds_no_committed ph); [done|]. by eapply trail_kinds. }
  exists p, rest, c, cb. split_and!; try done.
  assert (Hf : list_find (fun r => r_kind r = COMMITTED) (p :: rest ++ [c])
             = Some (length (p :: rest), c)).
  { change (p :: rest ++ [c]) with ((p :: rest) ++ [c]). rewrite list_find_app_r.
  - simpl. rewrite decide_True by done. simpl. by rewrite ?Nat.add_0_r.
  - by apply list_find_None. }
  unfold certificate_of. cbn [app]. rewrite Hf. simpl. rewrite Hp, Hb.
  destruct Hgp as [(q & Hq & Hd & _) _]. rewrite Hq. simpl. by rewrite Hd.
Qed.

(** The numbers of the records written for an intent that reached the store. *)
Lemma row_generation iid pb i s js act a :
  INV s js act -> applied s iid = Some a -> row_for ns iid pb i a ->
  (0 <= pb_pre_generation pb /\ pb_pre_generation pb + 1 <= Z.of_nat (length (st_applied s)))%Z.
Proof.
  intros HI Ha (_ & _ & Hg & _). apply applied_Some in Ha as [Ha _].
  apply list_elem_of_lookup in Ha as [n Hn]. rewrite (inv_rows _ _ _ _ _ _ _ _ HI _ _ Hn) in Hg.
  apply lookup_lt_Some in Hn. lia.
Qed.

Lemma row_fits iid pb i ph s rs w a :
  cur iid pb i ph s rs w -> applied s iid = Some a -> row_for ns iid pb i a ->
  (0 <= pb_pre_generation pb /\ pb_pre_generation pb + 1 <= size w)%Z.
Proof.
  intros ((HI & _) & <- & _) Ha Hr. pose proof (row_generation _ _ _ _ _ _ _ HI Ha Hr). unfold size. lia.
Qed.

Lemma seq_fits iid pb i ph s rs w r : cur iid pb i ph s rs w -> r ∈ rs -> (Z.of_nat (r_seq r) <= size w)%Z.
Proof.
  intros ((HI & _) & _ & <- & _) Hr. unfold binding, for_intent in Hr. rewrite !list_elem_of_filter in Hr.
  destruct Hr as (_ & _ & Hr). apply list_elem_of_lookup in Hr as [n Hn].
  rewrite (chain_seq _ _ _ (inv_chain _ _ _ _ _ _ _ _ HI) Hn). apply lookup_lt_Some in Hn. unfold size. lia.
Qed.

Lemma entries_fit n l : fits n (entries_json l) = true.
Proof. unfold entries_json. cbn [fits]. by induction l. Qed.
Lemma jopt_fits n o : fits n (jopt o) = true.
Proof. by destruct o. Qed.

Lemma cert_fits n iid pb i p c cb :
  good_pb ns sid (c_authority_keys cfg) iid pb i -> good_cb ns sid iid pb i cb ->
  (0 <= pb_pre_generation pb /\ pb_pre_generation pb + 1 <= n)%Z ->
  (Z.of_nat (r_seq p) <= n)%Z -> (Z.of_nat (r_seq c) <= n)%Z ->
  fits n (cert_json (cert_for iid pb i cb p c)) = true.
Proof.
  intros (_ & _ & _ & _ & _ & _ & _ & Hpg & _) (_ & Hg & _ & _ & (_ & _ & Hag & _) & _) [Hlo Hhi] Hp Hc.
  unfold cert_for, cert_json, signed_json, sign, cert_payload_json, applied_json, physical_members.
  cbn [fits forallb fst snd app sg_payload sg_kid sg_sig ct_protocol ct_intent_id ct_intent_hash ct_namespace ct_authority_kid
    ct_expected_generation ct_pre_root ct_payload_commitment ct_post_generation ct_post_root ct_physical ct_applied_row
    ct_prepared_seq ct_prepared_hash ct_committed_seq ct_committed_hash ct_finalized_at ct_finalizer_kid].
  rewrite !jopt_fits, Hg, Hag, <- Hpg. rewrite !andb_true_r, !andb_true_l.
  repeat (apply andb_true_iff; split); apply Z.leb_le; lia.
Qed.

Lemma finalized_fits iid pb i s rs p rest c cb w :
  cur iid pb i PhCommitted s rs w -> rs = (p :: rest) ++ [c] -> good_cb ns sid iid pb i cb ->
  fits (size w) (body_json (BFinalized (pb_intent_hash pb) (cert_for iid pb i cb p c))) = true.
Proof.
  intros Hcur Hrs Hgc. pose proof Hcur as (_ & _ & _ & Ht & a & Ha & Hrow).
  destruct (trail_head _ _ _ _ _ _ _ _ _ _ Ht) as (_ & _ & _ & _ & _ & Hgp).
  unfold body_json. cbn [fits forallb fst snd]. rewrite jopt_fits, (cert_fits _ _ _ _ _ _ _ Hgp Hgc); [done|..].
  - by eapply row_fits.
  - eapply seq_fits; [done|]. rewrite Hrs. set_solver.
  - eapply seq_fits; [done|]. rewrite Hrs. set_solver.
Qed.

Lemma finalize_spec iid pb i s rs :
  spec (cur iid pb i PhCommitted s rs) (finalize cfg iid)
  (fun _ w => exists rs', cur iid pb i PhFinalized s rs' w) Rz Cz.
Proof.
  apply spec_get. intros w0 Hw0. pose proof Hw0 as (_ & _ & Hrs & Ht & Hc).
  destruct (trail_certificate _ _ _ _ Ht) as (p & rest & c & cb & Heq & _ & _ & _ & Hgcb & _ & Hcert).
  unfold certificate. rewrite Hrs, Hcert.
  eapply spec_bind.
  - eapply spec_pre.
  + apply (advance iid pb i PhCommitted s rs _ _ PhFinalized); [done| | |done].
    { intros _ w Hw. by eapply finalized_fits. }
    intros r Hk Hb Htr. by eapply (tr_finalized _ _ _ _ _ _ _ _ _ _ cfg).
  + by intros w <-.
  - intros ?. cbn beta. apply spec_ex. intros r. apply spec_pure. intros _.
  eapply spec_conseq; [apply cur_crash|done|intros ? ? Hf; by exists (rs ++ [r])|done|done].
Qed.

(** In a state reached by this intent's transaction the fresh read finds no
    problem. *)
Lemma confirm_clean s iid pb i a :
  st_namespace s = ns -> st_store_id s = sid -> good_pb ns sid (c_authority_keys cfg) iid pb i ->
  row_for ns iid pb i a -> at_post s pb i ->
  confirm_problems pb (i_key i) (i_value i) (Some a) (read s) = [].
Proof.
  intros Hns Hsid Hg (Hh & _ & Hga & Hra) [Hgen Hent].
  destruct Hg as (_ & _ & _ & _ & _ & _ & _ & _ & _ & _ & _ & Hst).
  unfold confirm_problems. rewrite Hh. simpl. unfold opt_eqb.
  rewrite bool_decide_true by done. rewrite Hsid, Hst, str_eqb_refl, Hga, Hgen, !Z.eqb_refl.
  rewrite Hns, Hra, Hent, str_eqb_refl. simpl.
  by rewrite bool_decide_true.
Qed.

Lemma decode_intent_fields p i :
  decode_intent p = Some i ->
  gets "key" p = Some (i_key i) /\ gets "value" p = Some (i_value i)
  /\ gets "intent_id" p = Some (i_intent_id i).
Proof.
  unfold decode_intent. intros Hd.
  repeat (apply bind_Some in Hd as (? & ? & Hd)). by simplify_eq/=.
Qed.

Lemma confirm_commit_spec iid pb i ph s rs a recovered :
  ph = PhCommitting \/ ph = PhUncertain ->
  applied s iid = Some a -> row_for ns iid pb i a -> at_post s pb i ->
  spec (cur iid pb i ph s rs) (confirm_commit cfg iid recovered)
  (fun b w => b = true /\ exists rs', cur iid pb i PhFinalized s rs' w) Rz Cz.
Proof.
  intros Hph Ha Hrow Hpost. apply spec_get. intros w0 Hw0.
  pose proof Hw0 as ((HI & _) & Hs & Hrs & Ht & Hc).
  destruct (trail_head _ _ _ _ _ _ _ _ _ _ Ht) as (r & rest & Heq & Hrb & _ & Hg).
  rewrite Hrs, Heq, Hrb. pose proof Hg as [(p & Hp & Hd & _) _]. rewrite Hp.
  destruct (decode_intent_fields _ _ Hd) as (-> & -> & _).
  cbv zeta. rewrite Hs, Ha, (confirm_clean s iid pb i a); try done.
  2,3: rewrite <- Hs; apply HI.
  eapply spec_bind.
  - eapply spec_pre.
  + apply (advance iid pb i ph s rs _ _ PhCommitted); [done| | |by exists a].
    { intros _ w Hw. pose proof (row_fits _ _ _ _ _ _ _ _ Hw Ha Hrow). destruct Hrow as (_ & _ & Hag & _).
      destruct Hpost as [Hgen _]. unfold body_json, applied_json, physical_members.
      cbn [fits forallb fst snd cb_intent_hash cb_post_generation cb_post_root cb_post_entries cb_applied_row cb_physical
        cb_recovered sn_generation read]. rewrite jopt_fits, entries_fit, Hag, Hgen, !andb_true_r, !andb_true_l.
      apply andb_true_iff; split; apply Z.leb_le; lia. }
    intros x Hk Hb Htr. eapply tr_committed; try done.
    destruct Hpost as [Hgen Hent]. split_and!; simpl; try done.
    * rewrite Hent, Hgen, <- Hs, (inv_ns _ _ _ _ _ _ _ _ HI). done.
    * by rewrite <- Hs, (inv_sid _ _ _ _ _ _ _ _ HI).
  + by intros w <-.
  - intros ?. cbn beta. apply spec_ex. intros x. apply spec_pure. intros _.
  eapply spec_bind; [apply cur_crash|]. intros ?. cbn beta.
  eapply spec_bind; [apply finalize_spec|]. intros ?. cbn beta.
  apply spec_ret. eauto.
Qed.

(** ** Recovery *)

Lemma abort_spec iid pb i ph s rs reason :
  ph = PhPrepared \/ ph = PhUncertain -> applied s iid = None ->
  spec (cur iid pb i ph s rs) (append_ cfg ABORTED iid (BReason (pb_intent_hash pb) reason))
  (fun _ w => exists rs', cur iid pb i PhAborted s rs' w) Rz Cz.
Proof.
  intros Hph Ha. eapply spec_conseq.
  - apply (advance iid pb i ph s rs _ _ PhAborted); [done|intros _ w _; simpl; by rewrite jopt_fits| |done].
  intros r Hk Hb Ht. eapply tr_aborted; try done. by rewrite Hb.
  - done.
  - intros _ w (r & _ & Hc). by exists (rs ++ [r]).
  - done.
  - done.
Qed.

(** Recovery of a journaled uncertainty: the applied row decides. *)
Lemma resolve_spec iid pb i s rs :
  spec (cur iid pb i PhUncertain s rs)
  (match applied s iid with
   | None => append_ cfg ABORTED iid (BReason (pb_intent_hash pb) "E_STORAGE_COMMIT_NOT_DURABLE")
   | Some _ => do! confirm_commit cfg iid true in eret tt
   end)
  (fun _ => W None) Rz Cz.
Proof.
  apply spec_at. intros w0 Hw0. pose proof Hw0 as (_ & _ & _ & _ & Hc). simpl in Hc.
  destruct (applied s iid) as [a|] eqn:Ea.
  - destruct Hc as [[? _]|(a' & [= <-] & Hrow & Hpost)]; [done|].
  eapply spec_bind.
  + eapply spec_pre; [apply (confirm_commit_spec iid pb i PhUncertain s rs a); auto|].
    by intros w <-.
  + intros b. cbn beta. apply spec_ret. intros w [_ [rs' Hcur]]. by apply (cur_close _ _ _ _ _ _ _ Hcur).
  - eapply spec_conseq; [apply (abort_spec iid pb i PhUncertain s rs); auto| |
    |done|done].
  + by intros w <-.
  + intros _ w [rs' Hcur]. by apply (cur_close _ _ _ _ _ _ _ Hcur).
Qed.

Lemma recover_one_spec iid pb i ph s rs :
  is_open ph = true ->
  spec (cur iid pb i ph s rs) (recover_one cfg iid (map r_kind rs)) (fun _ => W None) Rz Cz.
Proof.
  intros Ho. apply spec_get. intros w0 Hw0. pose proof Hw0 as (_ & Hs & Hrs & Ht & Hc).
  destruct (trail_head _ _ _ _ _ _ _ _ _ _ Ht) as (r & rest & Heq & Hrb & _ & _).
  pose proof (trail_kinds _ _ _ _ _ _ _ _ _ _ Ht) as Hk.
  rewrite Hrs, Heq, <- Heq, Hrb, Hs. cbn [body_intent_hash].
  destruct ph; try done; simpl in Hk; try (rewrite Hk; simpl).
  - destruct Hc as [Hrow _]. rewrite Hrow.
  eapply spec_conseq; [apply (abort_spec iid pb i PhPrepared s rs); auto| | |done|done].
  + by intros w <-.
  + intros _ w [rs' Hcur]. by apply (cur_close _ _ _ _ _ _ _ Hcur).
  - eapply spec_bind.
  + eapply spec_pre; [apply (advance iid pb i PhCommitting s rs _ _ PhUncertain);
      [done|intros _ w _; simpl; by rewrite jopt_fits| |done]|].
    * intros x Hkx Hbx Htx. apply tr_uncertain; try done. by rewrite Hbx.
    * by intros w <-.
  + intros ?. cbn beta. apply spec_ex. intros x. apply spec_pure. intros _. apply resolve_spec.
  - apply (spec_bind _ _ _ (fun _ => cur iid pb i PhUncertain s rs)).
  + apply spec_ret. by intros w <-.
  + intros _. apply resolve_spec.
  - assert (Hl : last (map r_kind rs) = Some COMMITTED) by (destruct Hk as [-> | ->]; done).
  rewrite Hl. simpl.
  eapply spec_conseq; [apply (finalize_spec iid pb i s rs)| | |done|done].
  + by intros w <-.
  + intros _ w [rs' Hcur]. by apply (cur_close _ _ _ _ _ _ _ Hcur).
Qed.

Lemma binding_extends js js' iid :
  extends js js' -> binding js iid <> [] -> binding js' iid <> [].
Proof.
  intros [zs ->]. unfold binding, for_intent. rewrite !filter_app.
  intros Hn Hc. by apply app_eq_nil in Hc as [? _].
Qed.

Lemma W_status act w iid : W act w -> binding j0 iid <> [] ->
  exists pb i ph, TR iid pb i (binding (w_journal w) iid) ph /\ consistent ns (w_store w) iid pb i ph
  /\ (is_open ph = true -> act = Some iid).
Proof.
  intros (HI & _ & He & _) Hb. apply (binding_extends _ _ _ He) in Hb.
  by destruct (inv_status _ _ _ _ _ _ _ _ HI iid) as [[? _]|?].
Qed.

(** The open intent, if any, is among [ids]. *)
Definition pending (ids : list string) (w : world) : Prop :=
  exists act, W act w /\ (act = None \/ exists a, act = Some a /\ a ∈ ids).

Lemma recover_all_spec ids :
  (forall iid, iid ∈ ids -> binding j0 iid <> []) ->
  spec (pending ids) (recover_all cfg ids) (fun _ => W None) Rz Cz.
Proof.
  induction ids as [|iid rest IH]; intros Hb.
  { apply spec_ret. intros w (act & HW & [-> |(a & _ & Ha)]); [done|]. by apply elem_of_nil in Ha. }
  assert (IH' : spec (pending rest) (recover_all cfg rest) (fun _ => W None) Rz Cz)
  by (apply IH; intros x Hx; apply Hb; by right).
  cbn [recover_all]. apply spec_get. intros w0 (act & HW & Hact).
  destruct (W_status _ _ iid HW) as (pb & i & ph & Ht & Hc & Ho); [apply Hb; by left|].
  pose proof (trail_kinds _ _ _ _ _ _ _ _ _ _ Ht) as Hk.
  destruct (kinds_of_state _ _ Hk) as (st & -> & Hterm & _). rewrite Hterm.
  destruct (is_open ph) eqn:Eo; simpl.
  - specialize (Ho eq_refl). subst act.
  eapply spec_bind.
  { eapply spec_pre; [apply (recover_one_spec iid pb i ph (w_store w0) _ Eo)|].
    intros w <-. done. }
  intros ?. cbn beta. apply spec_get. intros w1 HW1.
  destruct (W_status _ _ iid HW1) as (pb1 & i1 & ph1 & Ht1 & _); [apply Hb; by left|].
  apply trail_kinds, kinds_of_state in Ht1 as (st1 & -> & _).
  eapply spec_bind.
  { eapply spec_pre; [exact IH'|]. intros w <-. exists None. auto. }
  intros rs. by apply spec_ret.
  - eapply spec_pre; [exact IH'|]. intros w <-.
  destruct Hact as [-> |(a & -> & Ha)]; [exists None; auto|].
  apply elem_of_cons in Ha as [-> |Ha]; [|exists (Some a); eauto].
  exists None. split; [|by left]. by eapply (cur_close iid pb i ph).
Qed.

Lemma prepared_ids_elem iid js : forall seen,
  iid ∈ prepared_ids seen js <->
  iid ∈ seen \/ exists r, r ∈ js /\ r_kind r = PREPARED /\ r_intent_id r = iid.
Proof.
  induction js as [|r js IH]; intros seen; simpl.
  { set_solver. }
  destruct (_ && _) eqn:E; rewrite IH.
  - apply andb_true_iff in E as [E%bool_decide_eq_true _]. set_solver.
  - apply andb_false_iff in E as [E%bool_decide_eq_false|E%negb_false_iff%bool_decide_eq_true];
    set_solver.
Qed.

Lemma binding_prepared js iid r :
  r ∈ js -> r_kind r = PREPARED -> r_intent_id r = iid -> r ∈ binding js iid.
Proof.
  intros Hr Hk Hi. unfold binding, for_intent. rewrite !list_elem_of_filter, Hk. done.
Qed.

Lemma binding_elem js iid r : r ∈ binding js iid -> r ∈ js /\ r_intent_id r = iid.
Proof. unfold binding, for_intent. rewrite !list_elem_of_filter. tauto. Qed.

(** ** The storage transaction *)

Definition new_row (s : store) (iid h : string) (i : intent) : applied_row :=
  mk_applied iid h (st_generation s + 1) (sn_root (read (upserted s (i_key i) (i_value i)))).
Definition committed_store (s : store) (iid h : string) (i : intent) : store :=
  with_row (upserted s (i_key i) (i_value i)) (new_row s iid h i).

Lemma commit_row s iid pb i h :
  st_namespace s = ns -> at_pre s pb -> pb_intent_hash pb = Some h ->
  row_for ns iid pb i (new_row s iid h i) /\ at_post (committed_store s iid h i) pb i.
Proof.
  intros Hns [Hg He] Hh. split.
  - split_and!; simpl; try done; rewrite ?Hns, ?Hg; try done.
  by rewrite entries_upserted, He.
  - split; simpl; [lia|]. unfold post_entries. rewrite <- He.
  exact (entries_upserted s (i_key i) (i_value i)).
Qed.

Lemma Inv_commit s js iid pb i h :
  INV s js (Some iid) -> TR iid pb i (binding js iid) PhCommitting ->
  applied s iid = None -> at_pre s pb -> pb_intent_hash pb = Some h ->
  INV (committed_store s iid h i) js (Some iid)
  /\ consistent ns (committed_store s iid h i) iid pb i PhCommitting.
Proof.
  intros HI Ht Ha Hpre Hh. pose proof HI as [Hc Hn Hi Hg Hr Hd Hk Hs].
  destruct (commit_row s iid pb i h Hn Hpre Hh) as [Hrow Hpost].
  assert (Hap : forall x, applied (committed_store s iid h i) x =
          if decide (iid = x) then Some (new_row s iid h i) else applied s x).
  { intros x. unfold committed_store. rewrite applied_snoc, applied_upserted. simpl.
  case_decide; [subst x; by rewrite Ha|by destruct (applied s x)]. }
  assert (Hcs : consistent ns (committed_store s iid h i) iid pb i PhCommitting).
  { right. exists (new_row s iid h i). by rewrite Hap, decide_True. }
  split; [|done]. split; try done.
  - simpl. rewrite length_app. simpl. lia.
  - intros n a. simpl. rewrite lookup_app_Some. intros [Hl|[Hlen Hl]]; [by apply Hr|].
  apply list_lookup_singleton_Some in Hl as [Hz <-]. simpl. lia.
  - simpl. rewrite map_app. apply NoDup_app. split; [done|]. split; [|apply NoDup_singleton].
  intros x Hx ->%list_elem_of_singleton. simpl in Hx.
  apply list_elem_of_fmap in Hx as (b & Hb & Hin). by apply (applied_None _ _ _ Ha Hin).
  - simpl. unfold kv_replay. rewrite foldl_snoc. simpl.
  rewrite (intent_of_trail _ _ _ _ _ js iid pb i _ _ eq_refl Ht), Hk. done.
  - intros x. destruct (decide (iid = x)) as [<- |Hne].
  + right. by exists pb, i, PhCommitting.
  + unfold status. rewrite Hap, decide_False by done.
    destruct (Hs x) as [?|(pb' & i' & ph' & Ht' & Hc' & Ho')]; [by left|].
    right. exists pb', i', ph'. split; [done|]. split; [|done].
    destruct ph'; simpl in *; try (specialize (Ho' eq_refl); congruence).
    all: rewrite Hap, decide_False by done; done.
Qed.

Lemma no_conflict s js act iid h i :
  INV s js act -> applied s iid = None ->
  applied_conflict (upserted s (i_key i) (i_value i)) (new_row s iid h i) = false.
Proof.
  intros HI Ha. unfold applied_conflict. simpl.
  destruct (existsb _ _) eqn:E; [|done]. apply existsb_exists in E as (b & Hb & E).
  apply list_elem_of_In in Hb. exfalso. apply orb_true_iff in E as [E|E].
  - apply str_eqb_spec in E. by apply (applied_None _ _ _ Ha Hb).
  - apply Z.eqb_eq in E. apply list_elem_of_lookup in Hb as [n Hn].
  rewrite (inv_rows _ _ _ _ _ _ _ _ HI _ _ Hn) in E.
  rewrite (inv_gen _ _ _ _ _ _ _ _ HI) in E.
  apply lookup_lt_Some in Hn. lia.
Qed.

Lemma apply_upsert_spec iid pb i h s rs (before : proc unit) :
  good_pb ns sid (c_authority_keys cfg) iid pb i -> pb_intent_hash pb = Some h ->
  applied s iid = None -> at_pre s pb -> st_namespace s = ns ->
  spec (cur iid pb i PhPrepared s rs) before
  (fun _ w => exists rs', cur iid pb i PhCommitting s rs' w) Rz Cz ->
  spec (cur iid pb i PhPrepared s rs)
  (apply_upsert iid (Some h) (i_key i) (i_value i) (i_expected_generation i)
     (i_expected_root i) before)
  (fun _ w => exists rs', cur iid pb i PhCommitting (committed_store s iid h i) rs' w) Rz Cz.
Proof.
  intros Hg Hh Ha Hpre Hns Hbefore.
  apply (spec_bind _ _ _ (fun _ => cur iid pb i PhPrepared s rs)); [by intros w Hw|intros _].
  apply spec_get. intros w0 Hw0. pose proof Hw0 as ((HI & _) & Hs & _). rewrite Hs in HI |- *.
  pose proof Hpre as [Hge Hen].
  destruct Hg as (_ & _ & _ & _ & _ & _ & _ & Hpg & Hpr & Hroot & _).
  cbv zeta. cbn [sn_generation sn_root read].
  rewrite <- Hpg, <- Hge, Z.eqb_refl, <- Hpr, Hns, Hen. simpl.
  rewrite Hroot, Hge, str_eqb_refl. simpl.
  rewrite <- Hge. change (mk_applied _ _ _ _) with (new_row s iid h i).
  rewrite (no_conflict _ _ _ _ _ _ HI Ha).
  eapply spec_bind; [eapply spec_pre; [exact Hbefore|by intros w <-]|].
  intros ?. cbn beta. apply spec_ex. intros rs'.
  apply (spec_bind _ _ _ (fun _ => cur iid pb i PhCommitting s rs')); [by intros w Hw|intros _].
  eapply spec_bind; [|intros ?; apply spec_ret; intros w Hw; exact Hw].
  intros w (HW & Hs' & Hrs & Ht & Hc). destruct HW as (HI' & Hkill & He & Hrec).
  unfold durable. rewrite <- Hrs in Ht.
  destruct (Inv_commit s (w_journal w) iid pb i h) as [HIc Hcc]; try done; [by rewrite <- Hs'|].
  destruct (w_kill w) as [[|n]|] eqn:Ek.
  - assert (k0 <> None) by (intros Hk0; specialize (Hkill Hk0); congruence).
  split; [by exists (Some iid)|by left].
  - assert (k0 <> None) by (intros Hk0; specialize (Hkill Hk0); congruence).
  exists rs'. split_and!; try done; by rewrite <- Hrs.
  - exists rs'. split_and!; try done; by rewrite <- Hrs.
Qed.

(** ** Submission *)

(** The last binding record of the intent carries the certificate. *)
Definition cert_in (js : list record) (iid : string) (cert : signed cert_payload) : Prop :=
  exists rf ih, last (binding js iid) = Some rf /\ r_kind rf = FINALIZED
  /\ r_body rf = BFinalized ih cert.

Lemma result_of_closed iid pb i ph b w :
  TR iid pb i (binding (w_journal w) iid) ph -> is_open ph = false ->
  exists r, result_of iid b w = Ret r w /\ rs_intent_id r = iid /\ rs_replayed r = b /\
  match ph with
  | PhFinalized => rs_state r = FINALIZED /\
      exists cert, rs_certificate r = Some cert /\ cert_in (w_journal w) iid cert
  | _ => rs_state r = ABORTED /\ rs_certificate r = None
  end.
Proof.
  intros Ht Ho. pose proof (trail_kinds _ _ _ _ _ _ _ _ _ _ Ht) as Hk.
  destruct (kinds_of_state _ _ Hk) as (st & Hst & _ & Hf & Ha).
  unfold result_of, ebind, eget. rewrite Hst.
  inversion Ht as [| | |rs r ph' Ht' Hp Hkr Hb Heq Hph| |rs r cfg' cert Ht' Hkr Hb ? ? ? Heq Hph];
  subst ph; try done.
  - rewrite last_snoc. destruct Ha as [_ ->]; [|done]. rewrite decide_False by done.
  by eexists.
  - rewrite last_snoc, Hb. destruct Hf as [_ ->]; [|done]. rewrite decide_True by done.
  eexists. split; [done|]. split_and!; try done. exists cert. split; [done|].
  exists r, (pb_intent_hash pb). by rewrite <- Heq, last_snoc.
Qed.

Lemma admission_checks_sound nsp s i t1 t2 :
  admission_checks cfg nsp s = inr (i, t1, t2) ->
  (exists m, jget "payload" s = Some (JObj m) /\ decode_intent (JObj m) = Some i)
  /\ uuid_ok (i_intent_id i) = true /\ i_protocol i = INTENT_PROTOCOL /\ i_op i = "UPSERT"
  /\ i_namespace i = nsp /\ gets "kid" s = Some (i_authority_kid i)
  /\ verify_signed s (c_authority_keys cfg) = true.
Proof.
  unfold admission_checks. intros Hc.
  repeat (break_hyp Hc; try done). simplify_eq.
  repeat match goal with
  | E : negb _ = false |- _ => apply negb_false_iff in E
  | E : str_eqb _ _ = true |- _ => apply str_eqb_spec in E
  | E : opt_eqb _ _ = true |- _ => apply bool_decide_eq_true in E
  end.
  split_and!; try done.
  match goal with E : keys_are ?j INTENT_KEYS = true |- _ => destruct j; try done end. eauto.
Qed.

(** The journal binds the request's intent id to this very request. *)
Definition bound_to (s : json) (js : list record) : Prop :=
  exists r rest, binding js (request_id s) = r :: rest
  /\ body_intent_hash (r_body r) = request_hash s /\ request_id s <> "unknown".

(** The result of [submit_locked s] from the store and journal it starts
    with. *)
Inductive submitted (s : json) (st0 : store) (js0 : list record) (r : result) (w : world) : Prop :=
  | sub_rejected :
  rs_state r = ADMISSION_REJECTED \/ rs_state r = PRECONDITION_REJECTED ->
  rs_certificate r = None -> w_store w = st0 -> submitted s st0 js0 r w
  | sub_replayed :
  rs_intent_id r = request_id s -> rs_replayed r = true ->
  rs_state r = FINALIZED \/ rs_state r = ABORTED ->
  (rs_state r = FINALIZED -> exists cert, rs_certificate r = Some cert /\ cert_in js0 (request_id s) cert) ->
  bound_to s js0 -> verify_signed s (c_authority_keys cfg) = true ->
  w_store w = st0 -> w_journal w = js0 -> submitted s st0 js0 r w
  | sub_finalized i h cert :
  rs_intent_id r = request_id s -> rs_state r = FINALIZED -> rs_certificate r = Some cert ->
  cert_in (w_journal w) (request_id s) cert -> request_id s = i_intent_id i -> (request_payload s ≫= decode_intent) = Some i ->
  binding js0 (i_intent_id i) = [] -> bound_to s (w_journal w) ->
  verify_signed s (c_authority_keys cfg) = true ->
  st_generation st0 = i_expected_generation i -> sn_root (read st0) = i_expected_root i ->
  w_store w = committed_store st0 (i_intent_id i) h i -> submitted s st0 js0 r w.

Lemma note_spec k iid b w0 :
  W None w0 -> rec = false -> BINDING_KINDS k = false ->
  spec (eq w0) (append_ cfg k iid b) (fun _ w => W None w /\ w_store w = w_store w0) Rz Cz.
Proof.
  intros HW Hrec Hk. eapply spec_conseq; [apply (append_spec None None); [done|by rewrite Hrec| |]| | | |]; try done.
  - by rewrite Hk.
  - intros at_ js Hc. apply Inv_note; try done. apply HW.
  - by intros _ w (? & ? & _).
Qed.

Lemma reject_spec s iid ih reason w0 :
  W None w0 -> rec = false -> spec (eq w0) (reject cfg iid ih reason) (fun r w => W None w /\ submitted s (w_store w0) (w_journal w0) r w) Rz Cz.
Proof.
  intros HW Hrec. eapply spec_bind; [by apply note_spec|]. intros ?. cbn beta.
  apply spec_ret. intros w [HW' Hs]. split; [done|]. apply sub_rejected; auto.
Qed.

Lemma catch_spec {A} (m : proc A) k h P T Q :
  spec P m T Rz Cz -> (forall a, spec (T a) (k a) Q Rz Cz) ->
  spec P (catch_precondition m k h) Q Rz Cz.
Proof.
  intros Hm Hk w Hw. specialize (Hm w Hw). unfold catch_precondition.
  destruct (m w) as [a w'|e w'|w']; [by apply Hk| |done].
  destruct Hm as (-> & ?). done.
Qed.

(** An admitted request. *)
Definition admitted (s : json) (i : intent) : Prop :=
  (exists m, jget "payload" s = Some (JObj m) /\ decode_intent (JObj m) = Some i
   /\ request_hash s = Some (digest (JObj m)) /\ jcs_raises (JObj m) = false)
  /\ i_protocol i = INTENT_PROTOCOL /\ i_op i = "UPSERT" /\ i_namespace i = ns
  /\ gets "kid" s = Some (i_authority_kid i) /\ verify_signed s (c_authority_keys cfg) = true
  /\ request_id s = i_intent_id i /\ (request_payload s ≫= decode_intent) = Some i.

Lemma admission_admitted s i t1 t2 :
  admission_checks cfg ns s = inr (i, t1, t2) -> admitted s i.
Proof.
  intros Hc. destruct (admission_checks_sound _ _ _ _ _ Hc) as ((m & Hp & Hd) & _ & Hpr & Hop & Hns & Hk & Hv).
  destruct (verify_signed_payload _ _ Hv) as (kid & p & _ & Hp' & Hj & _). simplify_eq.
  assert (Hrp : request_payload s = Some (JObj m)) by (unfold request_payload; by rewrite Hp).
  unfold admitted, request_id, request_hash. rewrite Hrp. simpl. split_and!; try done.
  - exists m. unfold digest_opt. by rewrite Hj.
  - by destruct (decode_intent_fields _ _ Hd) as (_ & _ & ->).
Qed.

Lemma prepare_spec s i w0 at_ :
  W None w0 -> rec = false -> admitted s i -> binding (w_journal w0) (i_intent_id i) = [] ->
  let st := w_store w0 in let pre := read st in
  st_generation st = i_expected_generation i -> sn_root pre = i_expected_root i ->
  let pb := mk_prepared (request_hash s) s (i_authority_kid i) at_ CHECKS (sn_store_id pre)
            (sn_generation pre) (sn_root pre) (sn_entries pre)
            (payload_commitment (i_op i) (i_key i) (i_value i)) in
  good_pb ns sid (c_authority_keys cfg) (i_intent_id i) pb i /\
  applied st (i_intent_id i) = None /\ at_pre st pb /\
  spec (eq w0) (append_ cfg PREPARED (i_intent_id i) (BPrepared pb))
  (fun _ w => exists r, cur (i_intent_id i) pb i PhPrepared st [r] w) Rz Cz.
Proof.
  intros HW Hrec Had Hb st pre Hgen Hroot pb.
  destruct Had as ((m & Hp & Hd & Hh & Hj) & Hpr & Hop & Hns & Hk & Hv & _).
  pose proof HW as (HI & _).
  assert (Hg : good_pb ns sid (c_authority_keys cfg) (i_intent_id i) pb i).
  { split_and!; try done; [by exists (JObj m)|..]; unfold pb, pre, st; simpl;
    by rewrite ?(inv_ns _ _ _ _ _ _ _ _ HI), ?(inv_sid _ _ _ _ _ _ _ _ HI). }
  assert (Ha : applied st (i_intent_id i) = None).
  { destruct (applied st (i_intent_id i)) eqn:E; [|done].
  destruct (status_row _ _ _ _ _ _ _ _ _ _ (inv_status _ _ _ _ _ _ _ _ HI _) E Hb). }
  assert (Hap : at_pre st pb) by done.
  split_and!; try done.
  assert (Ht : forall at', TR (i_intent_id i) pb i
          (binding (w_journal w0 ++ [next_record (w_journal w0) PREPARED (i_intent_id i) (BPrepared pb) at'])
             (i_intent_id i)) PhPrepared).
  { intros at'. rewrite binding_snoc, decide_True, Hb by done. by apply tr_prepared. }
  eapply spec_conseq; [apply (append_spec None (Some (i_intent_id i))); [done|by rewrite Hrec| |]| | | |]; try done.
  - by rewrite Hb.
  - intros at' js Hc. apply (Inv_snoc _ _ _ _ _ _ _ None); try done.
  right. exists pb, i, PhPrepared. split; [apply Ht|]. done.
  - intros _ w (HW' & Hs' & at' & Hj'). eexists. split; [done|]. split; [done|].
  rewrite Hj'. rewrite binding_snoc, decide_True, Hb by done. split; [done|].
  split; [|done]. by apply tr_prepared.
Qed.

Lemma before_commit_spec iid pb i s rs :
  spec (cur iid pb i PhPrepared s rs)
  (do! append_ cfg COMMITTING iid (BCommitting (pb_intent_hash pb)) in crash cfg before_storage_commit)
  (fun _ w => exists rs', cur iid pb i PhCommitting s rs' w) Rz Cz.
Proof.
  apply spec_at. intros w0 Hw0. pose proof Hw0 as (_ & _ & _ & _ & Hc).
  eapply spec_bind.
  - eapply spec_pre; [apply (advance iid pb i PhPrepared s rs _ _ PhCommitting);
    [done|intros _ w _; simpl; by rewrite jopt_fits| |by left]|].
  + intros r Hk Hb Ht. apply tr_committing; try done. by rewrite Hb.
  + by intros w <-.
  - intros ?. cbn beta. apply spec_ex. intros r. apply spec_pure. intros _.
  eapply spec_conseq; [apply cur_crash|done|intros ? ? Hf; by exists (rs ++ [r])|done|done].
Qed.

Lemma execute_spec s i w0 :
  W None w0 -> rec = false -> admitted s i -> i_intent_id i <> "unknown" -> binding (w_journal w0) (i_intent_id i) = [] ->
  spec (eq w0) (execute cfg s (i_intent_id i) (request_hash s) i)
  (fun r w => W None w /\ submitted s (w_store w0) (w_journal w0) r w) Rz Cz.
Proof.
  intros HW Hrec Had Hu Hb. apply spec_get. intros ? <-. cbv zeta.
  destruct (negb (_ =? _)%Z) eqn:Eg; [|destruct (negb (str_eqb _ _)) eqn:Er].
  1,2: eapply spec_bind; [by apply note_spec|]; intros ?; cbn beta; apply spec_ret;
  intros w [HW' Hs]; split; [done|]; apply sub_rejected; auto.
  apply negb_false_iff in Eg, Er. apply Z.eqb_eq in Eg. apply str_eqb_spec in Er.
  eapply (spec_bind _ _ _ (fun _ w => W None w /\ w_store w = w_store w0 /\ w_journal w = w_journal w0)).
  { intros w <-. done. }
  intros at_. cbn beta. apply spec_at. intros w1 (HW1 & Hs1 & Hj1).
  assert (Hex : exists h, request_hash s = Some h).
  { destruct Had as ((m & _ & _ & Hh & _) & _). eauto. }
  destruct Hex as [h Hh].
  destruct (prepare_spec s i w1 at_) as (Hg & Ha & Hpre & Hprep); try done; rewrite ?Hs1, ?Hj1; try done.
  rewrite Hs1 in *. rewrite Hh in *.
  set (pb := mk_prepared _ _ _ _ _ _ _ _ _ _) in *.
  eapply spec_bind; [exact Hprep|]. intros ?. cbn beta. apply spec_ex. intros r0.
  eapply spec_bind; [apply cur_crash|]. intros ?. cbn beta.
  eapply catch_spec.
  { apply (apply_upsert_spec (i_intent_id i) pb i h (w_store w0) [r0]); try done;
    [apply HW|apply before_commit_spec]. }
  intros gr. cbn beta. apply spec_ex. intros rs'.
  eapply spec_bind; [apply cur_crash|]. intros ?. cbn beta.
  destruct (commit_row (w_store w0) (i_intent_id i) pb i h) as [Hrow Hpost]; try done; [apply HW|].
  eapply spec_bind.
  { apply (confirm_commit_spec (i_intent_id i) pb i PhCommitting _ rs'
           (new_row (w_store w0) (i_intent_id i) h i)); auto.
  unfold committed_store. rewrite applied_snoc, applied_upserted, Ha. simpl. by rewrite decide_True. }
  intros b. cbn beta. intros w [_ [rs'' Hcur]].
  pose proof Hcur as (_ & Hsw & Hrs & Ht & _). rewrite <- Hrs in Ht.
  destruct (result_of_closed _ _ _ _ false w Ht) as (r & -> & Hid & _ & Hst & cert & Hcert & Hcin); [done|].
  split; [by apply (cur_close _ _ _ _ _ _ _ Hcur)|].
  destruct Had as (_ & _ & _ & _ & _ & Hv & Hrid & Hreq).
  eapply sub_finalized; try done; [congruence|congruence|].
  destruct (trail_head _ _ _ _ _ _ _ _ _ _ Ht) as (p & rest & Hrb & Hpb & _).
  exists p, rest. rewrite Hrid, Hrb, Hpb. simpl. by rewrite Hh.
Qed.

(** [uuid.UUID("unknown")] raises. *)
Hypothesis unknown_no_uuid : uuid_ok "unknown" = false.

Lemma submit_locked_spec s w0 :
  W None w0 -> rec = false -> spec (eq w0) (submit_locked cfg s) (fun r w => W None w /\ submitted s (w_store w0) (w_journal w0) r w) Rz Cz.
Proof.
  intros HW Hrec. pose proof HW as (HI & _). apply spec_get. intros ? <-.
  destruct (if str_eqb _ _ then _ else _) as [|r rest] eqn:Eb.
  - eapply (spec_bind _ _ _ (fun reason w => W None w /\ w_store w = w_store w0
            /\ w_journal w = w_journal w0 /\
            (reason = None -> exists i t1 t2, admission_checks cfg ns s = inr (i, t1, t2)))).
  { intros w <-. unfold admission, ebind, eget. rewrite (inv_ns _ _ _ _ _ _ _ _ HI).
    destruct (admission_checks cfg ns s) as [|[[i t1] t2]]; simpl; [done|].
    split_and!; try done. eauto. }
  intros reason. cbn beta. apply spec_at. intros w1 (HW1 & Hs1 & Hj1 & Hreason).
  rewrite <- Hs1, <- Hj1. destruct reason as [reason|]; [by apply reject_spec|].
  destruct Hreason as (i & t1 & t2 & Hc); [done|].
  pose proof (admission_admitted _ _ _ _ Hc) as Had.
  pose proof Had as (_ & _ & _ & _ & _ & _ & Hid & ->). rewrite Hid.
  assert (Hu : i_intent_id i <> "unknown").
  { intros E. apply admission_checks_sound in Hc as (_ & Hu & _). congruence. }
  apply execute_spec; try done. rewrite Hj1, <- Hid.
  destruct (str_eqb _ _) eqn:Eu; [|done]. apply str_eqb_spec in Eu. congruence.
  - destruct (str_eqb _ _) eqn:Eu; [done|]. apply str_eqb_neq in Eu. cbv beta iota zeta.
  match goal with |- spec _ (if ?b then _ else _) _ _ _ => destruct b eqn:Eh end;
    [by apply reject_spec|].
  match goal with |- spec _ (if ?b then _ else _) _ _ _ => destruct b eqn:Ev end;
    [by apply reject_spec|].
  apply negb_false_iff in Eh, Ev. apply bool_decide_eq_true in Eh.
  intros w <-. destruct (inv_status _ _ _ _ _ _ _ _ HI (request_id s))
    as [[? _]|(pb & i & ph & Ht & _ & Ho)]; [congruence|].
  destruct (result_of_closed _ _ _ _ true w0 Ht) as (r0 & -> & Hid & Hrep & Hst).
  { destruct (is_open ph); [|done]. by specialize (Ho eq_refl). }
  split; [done|]. apply sub_replayed; try done; [..|by exists r, rest].
  + destruct ph; (left; apply Hst) || (right; apply Hst).
  + intros Hf. destruct ph; destruct Hst as [Hs1 Hs2]; congruence || done.
Qed.
End proofs.
