(* ===== verification/VdbExample.v ===== *)
(** * A concrete outside world

    An instance of [Ext] that computes: a JSON printer that refuses floats and
    unsafe integers, a Fletcher
    checksum in place of SHA-256, a signature that is the key followed by the
    checksum, decimal times.  The theorems are generic in [Ext]; the concrete
    runs below show that their hypotheses hold somewhere. *)

From Stdlib Require Import ZArith Lia Ascii String.
From stdpp Require Import base gmap strings list pretty.
From S2P Require Import Prelude Canon VdbStates Journal StateAdapter Coordinator.

Definition quoted (s : string) : string := "'" +:+ s +:+ "'".

Fixpoint jprint (j : json) : string :=
  match j with
  | JNull => "null"
  | JBool b => if b then "true" else "false"
  | JInt z => pretty z
  | JFloat l => l
  | JStr s => quoted s
  | JArr l => "[" +:+ (fix go l := match l with [] => "" | x :: l' => jprint x +:+ "," +:+ go l' end) l +:+ "]"
  | JObj m => "{" +:+ (fix go m := match m with
                                   | [] => ""
                                   | (k, v) :: m' => quoted k +:+ ":" +:+ jprint v +:+ "," +:+ go m'
                                   end) m +:+ "}"
  end.

(** The binary digits of a number, least significant first. *)
Fixpoint bits (p : positive) : string :=
  match p with xH => "1" | xO q => String "0" (bits q) | xI q => String "1" (bits q) end.

Definition checksum (s : string) : string :=
  let ab := foldl (fun ab c => let a := (ab.1 + N.of_nat (nat_of_ascii c))%N in (a, (ab.2 + a)%N)) (1%N, 0%N)
              (list_ascii_of_string s) in
  bits (N.succ_pos ab.2).

(** Decimal digits up to the first other character. *)
Fixpoint read_digits (acc : Z) (l : list ascii) : Z :=
  match l with
  | c :: l' => let n := Z.of_nat (nat_of_ascii c) in
               if (48 <=? n)%Z && (n <=? 57)%Z then read_digits (acc * 10 + (n - 48))%Z l' else acc
  | [] => acc
  end.

#[export] Instance demo_ext : Ext := {|
    rfc8785_dumps := jprint;
    jcs_raises := fun j => negb (fits MAX_SAFE j);
    sha256_hex := checksum;
    privkey := string;
    ed_public_raw := fun sk => sk;
    ed_sign := fun sk m => sk +:+ checksum m;
    ed_verify := fun pub sig m => str_eqb sig (pub +:+ checksum m);
    isoformat_ms := fun t => pretty (t / 1000 * 1000)%Z +:+ "Z";
    fromisoformat := fun s => Some (read_digits 0 (list_ascii_of_string s));
    uuid_ok := fun s => (String.length s =? 36)%nat;
    float_eqb := str_eqb;
    float_is := fun _ _ => false;
    float_ltb := fun a b => negb (String.leb b a);
    float_lt_int := fun _ _ => false;
    int_lt_float := fun _ _ => true;
    float_succ := fun l => l
  |}.

Module Demo.
Definition auth_sk : privkey := "authority".
Definition fin_sk : privkey := "finalizer".
Definition wit_sk : privkey := "witness".
Definition kid_of (sk : privkey) : string := key_id (public_raw sk).
Definition ring (sk : privkey) : keyring := {[ kid_of sk := b64u (public_raw sk) ]}.

Definition cfg (crash_at : option crash_point) : config :=
  mk_config crash_at (fun n => (1000000 + 1000 * Z.of_nat n)%Z) (ring auth_sk) fin_sk (kid_of fin_sk).

Definition NS : string := "demo".
Definition SID : string := "store-1".
Definition s0 : store := create NS SID.
Definition start (s : store) (js : list record) (kill : option nat) : world :=
  mk_world s js 0 0 0 false kill.

Definition ID : string := "00000000-0000-4000-8000-000000000001".
Definition intent_json (iid key value : string) (gen : Z) (root : string) : json :=
  JObj [("protocol", JStr INTENT_PROTOCOL); ("intent_id", JStr iid); ("namespace", JStr NS);
      ("op", JStr "UPSERT"); ("key", JStr key); ("value", JStr value);
      ("expected_generation", JInt gen); ("expected_root", JStr root);
      ("issued_at", JStr "900000Z"); ("expires_at", JStr "60000000Z");
      ("authority_kid", JStr (kid_of auth_sk))].
Definition request (iid key value : string) (gen : Z) (root : string) : json :=
  signed_json (fun j => j) (sign (fun j => j) (intent_json iid key value gen root) auth_sk (kid_of auth_sk)).
Definition req : json := request ID "k" "v" 0 (sn_root (read s0)).

Definition run1 := after (submit (cfg None) req (start s0 [] None)).
Definition crashed := after (submit (cfg (Some after_storage_commit)) req (start s0 [] None)).
End Demo.

(** A full run: the intent is finalized, with four binding records. *)
Example demo_finalized :
  map r_kind Demo.run1.2 = [PREPARED; COMMITTING; COMMITTED; FINALIZED].
Proof. vm_compute. reflexivity. Qed.

(** A crash between the storage COMMIT and its record leaves COMMITTING. *)
Example demo_crashed :
  map r_kind Demo.crashed.2 = [PREPARED; COMMITTING] /\ length (st_applied Demo.crashed.1) = 1.
Proof. split; vm_compute; reflexivity. Qed.
