(* ===== verification/CrashTheorems.v ===== *)
(** * The life of a home directory

    Runs of the coordinator as steps on the durable state (store, journal):
    any request, any configuration with the same keys, any crash point, any
    kill, any number of restarts.  The reachable states satisfy the invariant,
    and the theorems read off what it promises. *)

From Stdlib Require Import ZArith Lia String.
From stdpp Require Import base gmap strings list.
From S2P Require Import Prelude Canon VdbStates Journal StateAdapter Coordinator CrashSafety CrashProofs VdbExample.

(** ** Methods that leave the store alone *)

(** No storage transaction is started, none is committed, and the committed
    store is the same, however the method ends. *)
Definition quiet {A} (m : proc A) : Prop :=
  forall w, let w' := oworld (m w) in
    w_store w' = w_store w /\ w_execute_calls w' = w_execute_calls w
    /\ w_commit_calls w' = w_commit_calls w.

Section quiet.
Context `{Ext} (cfg : config).

Lemma quiet_ret {A} (a : A) : quiet (eret a).
Proof. by intros w. Qed.
Lemma quiet_raise {A} e : quiet (@eraise exn world A e).
Proof. by intros w. Qed.
Lemma quiet_get : quiet eget.
Proof. by intros w. Qed.
Lemma quiet_bind {A B} (m : proc A) (k : A -> proc B) :
  quiet m -> (forall a, quiet (k a)) -> quiet (ebind m k).
Proof.
  intros Hm Hk w. specialize (Hm w). unfold ebind. destruct (m w) as [a w'|e w'|w']; try done.
  simpl in Hm. destruct (Hk a w') as (-> & -> & ->). done.
Qed.
Lemma quiet_finally {A} (m : proc A) b : quiet m -> quiet (efinally m (set_recovering b)).
Proof. intros Hm w. specialize (Hm w). unfold efinally. by destruct (m w). Qed.
Lemma quiet_recovering b : quiet (emod (set_recovering b)).
Proof. by intros w. Qed.
Lemma quiet_clock : quiet (clock_read cfg).
Proof. by intros w. Qed.
Lemma quiet_crash p : quiet (crash cfg p).
Proof. intros w. unfold crash. by destruct (_ && _). Qed.
Lemma quiet_durable js : quiet (durable (set_journal js)).
Proof. intros w. unfold durable. by destruct (w_kill w) as [[|n]|]. Qed.
End quiet.
Create HintDb quiet.
#[export] Hint Resolve quiet_ret quiet_raise quiet_get quiet_recovering quiet_clock quiet_crash
  quiet_durable : quiet.

(** Follow the code's structure down to the leaves. *)
Ltac quiet_step :=
  match goal with
  | |- quiet (ebind _ _) => apply quiet_bind; [|intros ?]
  | |- quiet (efinally _ _) => apply quiet_finally
  | |- quiet (match ?x with _ => _ end) => destruct x
  | |- quiet _ => solve [auto with quiet]
  end.

Section quiet_methods.
Context `{Ext} (cfg : config).

Lemma quiet_append k iid b : quiet (append_ cfg k iid b).
Proof. unfold append_, now_str, journal_append. repeat quiet_step. Qed.
#[local] Hint Resolve quiet_append : quiet.
Lemma quiet_reject iid ih r : quiet (reject cfg iid ih r).
Proof. unfold reject. repeat quiet_step. Qed.
Lemma quiet_finalize iid : quiet (finalize cfg iid).
Proof. unfold finalize. repeat quiet_step. Qed.
#[local] Hint Resolve quiet_finalize quiet_reject : quiet.
Lemma quiet_confirm iid r : quiet (confirm_commit cfg iid r).
Proof. unfold confirm_commit. cbv zeta. repeat quiet_step. Qed.
#[local] Hint Resolve quiet_confirm : quiet.
Lemma quiet_recover_one iid ks : quiet (recover_one cfg iid ks).
Proof. unfold recover_one. cbv zeta. repeat quiet_step. Qed.
#[local] Hint Resolve quiet_recover_one : quiet.
Lemma quiet_recover_all ids : quiet (recover_all cfg ids).
Proof. induction ids as [|iid ids IH]; cbn [recover_all]; cbv zeta; repeat quiet_step. Qed.
#[local] Hint Resolve quiet_recover_all : quiet.
Lemma quiet_recover : quiet (recover_locked cfg).
Proof. unfold recover_locked. repeat quiet_step. Qed.
Lemma quiet_result iid b : quiet (result_of iid b).
Proof. unfold result_of. cbv zeta. repeat quiet_step. Qed.
Lemma quiet_admission s : quiet (admission cfg s).
Proof. unfold admission. repeat quiet_step. Qed.
End quiet_methods.
#[export] Hint Resolve quiet_append quiet_reject quiet_finalize quiet_confirm quiet_recover_one
  quiet_recover_all quiet_recover quiet_result quiet_admission : quiet.

(** ** Methods that write only what the canonicalizer accepts *)

Definition canonical `{Ext} (js : list record) : Prop := Forall (fun r => jcs_raises (unhashed_json r) = false) js.

Definition writes_canonical `{Ext} {A} (m : proc A) : Prop :=
  forall w, canonical (w_journal w) -> canonical (w_journal (oworld (m w))).

Section canonical.
Context `{Ext} (cfg : config).

Lemma canonical_bind {A B} (m : proc A) (k : A -> proc B) :
  writes_canonical m -> (forall a, writes_canonical (k a)) -> writes_canonical (ebind m k).
Proof. intros Hm Hk w Hw. specialize (Hm w Hw). unfold ebind. destruct (m w); [by apply Hk|done..]. Qed.
Lemma canonical_finally {A} (m : proc A) b : writes_canonical m -> writes_canonical (efinally m (set_recovering b)).
Proof. intros Hm w Hw. specialize (Hm w Hw). unfold efinally. by destruct (m w). Qed.
Lemma canonical_catch {A} (m : proc A) k h :
  writes_canonical m -> (forall a, writes_canonical (k a)) -> (forall r, writes_canonical (h r)) ->
  writes_canonical (catch_precondition m k h).
Proof.
  intros Hm Hk Hh w Hw. specialize (Hm w Hw). unfold catch_precondition.
  destruct (m w) as [a w'|e w'|w']; [by apply Hk| |done]. destruct e; try done. by apply Hh.
Qed.
Lemma canonical_crash p : writes_canonical (crash cfg p).
Proof. intros w. unfold crash. by destruct (_ && _). Qed.
Lemma canonical_store s : writes_canonical (durable (set_store s)).
Proof. intros w. unfold durable. by destruct (w_kill w) as [[|n]|]. Qed.
Lemma canonical_journal k iid b at_ : writes_canonical (journal_append k iid b at_).
Proof.
  intros w Hw. unfold journal_append, ebind, eget, append. destruct (jcs_raises _) eqn:Ej; [done|].
  assert (Hn : canonical (w_journal w ++ [next_record (w_journal w) k iid b at_]))
    by (apply Forall_app; split; [done|by constructor]).
  unfold durable. by destruct (w_kill w) as [[|n]|].
Qed.
End canonical.
Create HintDb canonical.
#[export] Hint Extern 0 (writes_canonical _) => (by intros w) : canonical.
#[export] Hint Resolve canonical_crash canonical_store canonical_journal : canonical.

Ltac canonical_step :=
  match goal with
  | |- writes_canonical (ebind _ _) => apply canonical_bind; [|intros ?]
  | |- writes_canonical (efinally _ _) => apply canonical_finally
  | |- writes_canonical (catch_precondition _ _ _) => apply canonical_catch; [|intros ?|intros ?]
  | |- writes_canonical (match ?x with _ => _ end) => destruct x
  | |- writes_canonical _ => solve [auto with canonical]
  end.

Section canonical_methods.
Context `{Ext} (cfg : config).

Lemma canonical_append k iid b : writes_canonical (append_ cfg k iid b).
Proof. unfold append_, now_str. repeat canonical_step. Qed.
#[local] Hint Resolve canonical_append : canonical.
Lemma canonical_reject iid ih r : writes_canonical (reject cfg iid ih r).
Proof. unfold reject. repeat canonical_step. Qed.
Lemma canonical_finalize iid : writes_canonical (finalize cfg iid).
Proof. unfold finalize. repeat canonical_step. Qed.
#[local] Hint Resolve canonical_finalize canonical_reject : canonical.
Lemma canonical_confirm iid r : writes_canonical (confirm_commit cfg iid r).
Proof. unfold confirm_commit. cbv zeta. repeat canonical_step. Qed.
#[local] Hint Resolve canonical_confirm : canonical.
Lemma canonical_recover_one iid ks : writes_canonical (recover_one cfg iid ks).
Proof. unfold recover_one. cbv zeta. repeat canonical_step. Qed.
#[local] Hint Resolve canonical_recover_one : canonical.
Lemma canonical_recover_all ids : writes_canonical (recover_all cfg ids).
Proof. induction ids as [|iid ids IH]; cbn [recover_all]; cbv zeta; repeat canonical_step. Qed.
#[local] Hint Resolve canonical_recover_all : canonical.
Lemma canonical_recover : writes_canonical (recover_locked cfg).
Proof. unfold recover_locked. repeat canonical_step. Qed.
Lemma canonical_result iid b : writes_canonical (result_of iid b).
Proof. unfold result_of. cbv zeta. repeat canonical_step. Qed.
Lemma canonical_admission s : writes_canonical (admission cfg s).
Proof. unfold admission. repeat canonical_step. Qed.
#[local] Hint Resolve canonical_recover canonical_result canonical_admission : canonical.
Lemma canonical_upsert iid ih k v g root before :
  writes_canonical before -> writes_canonical (apply_upsert iid ih k v g root before).
Proof. intros Hb. unfold apply_upsert. cbv zeta. repeat canonical_step. Qed.
#[local] Hint Resolve canonical_upsert : canonical.
Lemma canonical_execute s iid ih i : writes_canonical (execute cfg s iid ih i).
Proof.
  unfold execute. cbv zeta. repeat canonical_step. apply canonical_upsert. repeat canonical_step.
Qed.
#[local] Hint Resolve canonical_execute : canonical.
Lemma canonical_submit s : writes_canonical (submit cfg s).
Proof. unfold submit, submit_locked. cbv zeta. repeat canonical_step. Qed.
End canonical_methods.

(** ** Runs *)
Section runs.
Context `{Ext} (ns sid : string).

Abbreviation INV cfg := (Inv ns sid (c_authority_keys cfg) (c_finalizer_sk cfg) (c_finalizer_kid cfg)).

(** The open intent has a PREPARED record. *)
Lemma Inv_pending auth sk fkid s js act :
  Inv ns sid auth sk fkid s js act ->
  exists act', Inv ns sid auth sk fkid s js act' /\
  (act' = None \/ exists a, act' = Some a /\ a ∈ prepared_ids [] js).
Proof.
  intros HI. destruct act as [a|]; [|by exists None; auto].
  destruct (inv_status _ _ _ _ _ _ _ _ HI a) as [[Hn Ha]|(pb & i & ph & Ht & _)].
  - exists None. split; [|by left]. destruct HI as [Hc Hns Hi Hg Hr Hd Hk Hs]. split; try done.
  intros iid. destruct (Hs iid) as [?|(pb' & i' & ph' & Ht' & Hc' & Ho')]; [by left|].
  right. exists pb', i', ph'. split; [done|]. split; [done|]. intros Hop.
  specialize (Ho' Hop). simplify_eq. rewrite Hn in Ht'.
  by destruct (trail_head _ _ _ _ _ _ _ _ _ _ Ht') as (? & ? & ? & _).
  - exists (Some a). split; [done|]. right. exists a. split; [done|].
  destruct (trail_head _ _ _ _ _ _ _ _ _ _ Ht) as (r & rest & Heq & _ & Hk & _).
  apply prepared_ids_elem. right. exists r.
  assert (Hr : r ∈ binding js a) by (rewrite Heq; by left).
  apply binding_elem in Hr as [? ?]. done.
Qed.

Lemma prepared_bound js iid : iid ∈ prepared_ids [] js -> binding js iid <> [].
Proof.
  intros [Hn|(r & Hr & Hk & Hi)]%prepared_ids_elem E; [by apply elem_of_nil in Hn|].
  pose proof (binding_prepared _ _ _ Hr Hk Hi) as Hm. rewrite E in Hm. by apply elem_of_nil in Hm.
Qed.

Lemma recover_ok cfg w act :
  INV cfg (w_store w) (w_journal w) act ->
  match recover_locked cfg w with
  | Ret _ w' => W ns sid cfg (w_kill w) (w_journal w) false None w'
  | Raise e w' => e = ValueError /\ (exists j, jcs_raises j = true /\ fits (size w') j = true)
    /\ exists act', W ns sid cfg (w_kill w) (w_journal w) false act' w'
  | Crash w' => (exists act', INV cfg (w_store w') (w_journal w') act')
    /\ extends (w_journal w) (w_journal w') /\ w_kill w <> None
  end.
Proof.
  intros HI. destruct (Inv_pending _ _ _ _ _ _ HI) as (act' & HI' & Hp).
  pose proof (recover_all_spec ns sid cfg (w_kill w) (w_journal w) true _
              (prepared_bound (w_journal w)) (set_recovering true w)) as Hs.
  unfold recover_locked, ebind, emod, eget, efinally. simpl.
  destruct (recover_all cfg _ _) as [rs w'|e w'|w'].
  - destruct Hs as (H1 & H2 & H3 & _); [|by split_and!].
  exists act'. split; [by split_and!|done].
  - destruct Hs as (-> & (j & Hj & Hf) & a & H1 & H2 & H3 & _); [exists act'; split; [by split_and!|done]|].
  split; [done|]. split; [exists j; split; [done|]; by apply Hf|]. exists a. by split_and!.
  - destruct Hs as ((a & H1 & _ & H3 & _) & Hk); [exists act'; split; [by split_and!|done]|].
  split; [by exists a|]. split; [done|]. by destruct Hk as [?|[? _]].
Qed.

Hypothesis unknown_no_uuid : uuid_ok "unknown" = false.

Lemma submit_ok cfg s w act :
  INV cfg (w_store w) (w_journal w) act ->
  match submit cfg s w with
  | Ret r w' => W ns sid cfg (w_kill w) (w_journal w) false None w'
    /\ exists js, extends (w_journal w) js /\ submitted cfg s (w_store w) js r w'
  | Raise e w' => Rz ns sid cfg (w_kill w) (w_journal w) false e w'
  | Crash w' => (exists act', INV cfg (w_store w') (w_journal w') act')
    /\ extends (w_journal w) (w_journal w') /\ (w_kill w <> None \/ c_crash_at cfg <> None)
  end.
Proof.
  intros HI. pose proof (recover_ok cfg w act HI) as Hr.
  destruct (quiet_recover cfg w) as [Hst _].
  unfold submit, ebind. destruct (recover_locked cfg w) as [rs w1|e w1|w1]; simpl in Hst.
  - pose proof (submit_locked_spec ns sid cfg (w_kill w) (w_journal w) false unknown_no_uuid s w1 Hr
                eq_refl w1 eq_refl) as Hs.
  destruct (submit_locked cfg s w1) as [r w2|e w2|w2].
  + destruct Hs as [HW Hsub]. split; [done|]. exists (w_journal w1). rewrite <- Hst.
    split; [apply Hr|done].
  + done.
  + destruct Hs as ((a & H1 & _ & H3 & _) & Hk). split; [by exists a|]. split; [done|].
    destruct Hk as [?|[_ ?]]; auto.
  - destruct Hr as (He & (j & Hj & _) & Ha). split; [done|]. split; [by exists j|done].
  - destruct Hr as (? & ? & ?). auto.
Qed.
End runs.

(** ** Reachable states *)
Section reachable.
Context `{Ext} (ns sid : string) (auth : keyring) (sk : privkey) (fkid : string).

(** The keys of a home directory do not change over its life. *)
Definition same_keys (cfg : config) : Prop :=
  c_authority_keys cfg = auth /\ c_finalizer_sk cfg = sk /\ c_finalizer_kid cfg = fkid.

(** One call of a coordinator on the durable state.  The process may have
    any clock, crash point, kill budget and counters, and may return,
    raise or die. *)
Inductive vdb_step : store * list record -> store * list record -> Prop :=
  | step_submit cfg s w :
  same_keys cfg ->
  vdb_step (w_store w, w_journal w) (after (submit cfg s w))
  | step_recover cfg w :
  same_keys cfg ->
  vdb_step (w_store w, w_journal w) (after (recover_locked cfg w)).

Definition reachable : store * list record -> Prop := steps vdb_step (create ns sid, []).

(** The state the journal records for an intent. *)
Definition state_of (js : list record) (iid : string) : option kind :=
  state_after (map r_kind (binding js iid)).

Definition Safe (x : store * list record) : Prop :=
  exists act, Inv ns sid auth sk fkid x.1 x.2 act.

Hypothesis unknown_no_uuid : uuid_ok "unknown" = false.

Lemma create_safe : Safe (create ns sid, []).
Proof.
  exists None. split; simpl; try done.
  - constructor.
  - intros iid. by left.
Qed.

Lemma step_safe x y : Safe x -> vdb_step x y -> Safe y /\ extends x.2 y.2.
Proof.
  intros [act HI] Hs. unfold Safe.
  destruct Hs as [cfg s w (E1 & E2 & E3)|cfg w (E1 & E2 & E3)]; simpl in *;
  rewrite <- E1, <- E2, <- E3 in HI |- *.
  - pose proof (submit_ok ns sid unknown_no_uuid cfg s w act HI) as Ho.
  unfold after. destruct (submit cfg s w) as [r w'|e w'|w']; simpl.
  + destruct Ho as [(HI' & _ & He & _) _]. split; [exact (ex_intro _ None HI')|done].
  + destruct Ho as (_ & _ & a & HI' & _ & He & _). split; [exact (ex_intro _ a HI')|done].
  + destruct Ho as ([a HI'] & He & _). split; [exact (ex_intro _ a HI')|done].
  - pose proof (recover_ok ns sid cfg w act HI) as Ho.
  unfold after. destruct (recover_locked cfg w) as [r w'|e w'|w']; simpl.
  + destruct Ho as (HI' & _ & He & _). split; [exact (ex_intro _ None HI')|done].
  + destruct Ho as (_ & _ & a & HI' & _ & He & _). split; [exact (ex_intro _ a HI')|done].
  + destruct Ho as ([a HI'] & He & _). split; [exact (ex_intro _ a HI')|done].
Qed.

Lemma reachable_safe x : reachable x -> Safe x.
Proof.
  intros Hr. apply (steps_invariant vdb_step Safe (create ns sid, [])); [|apply create_safe|done].
  intros a b Ha Hab. by apply (step_safe a b).
Qed.

(** Every journaled record went through the canonicalizer. *)
Lemma reachable_canonical x : reachable x -> canonical x.2.
Proof.
  intros Hr. apply (steps_invariant vdb_step (fun x => canonical x.2) (create ns sid, [])); [|constructor|done].
  intros a b Ha Hab. destruct Hab as [cfg s w _|cfg w _]; simpl in *; [by apply canonical_submit|by apply canonical_recover].
Qed.

(** What the records of an intent say about the store. *)
Lemma safe_finalized s js iid :
  Safe (s, js) -> state_of js iid = Some FINALIZED ->
  exists a, applied s iid = Some a /\ ar_intent_id a = iid.
Proof.
  intros [act HI] Hst. destruct (inv_status _ _ _ _ _ _ _ _ HI iid) as [[Hb _]|(pb & i & ph & Ht & Hc & _)];
  simpl in *.
  { unfold state_of in Hst. by rewrite Hb in Hst. }
  apply trail_kinds, kinds_of_state in Ht as (st & Hst' & _ & Hf & _).
  unfold state_of in Hst. rewrite Hst in Hst'. simplify_eq.
  destruct Hf as [Hf _]. rewrite Hf in Hc by done. destruct Hc as (a & Ha & _ & Hid & _). eauto.
Qed.

Lemma safe_aborted s js iid :
  Safe (s, js) -> state_of js iid = Some ABORTED \/ binding js iid = [] -> applied s iid = None.
Proof.
  intros [act HI] Hst. destruct (inv_status _ _ _ _ _ _ _ _ HI iid) as [[Hb Ha]|(pb & i & ph & Ht & Hc & _)];
  simpl in *; [done|].
  destruct Hst as [Hst|Hb].
  - apply trail_kinds, kinds_of_state in Ht as (st & Hst' & _ & _ & Hf & _).
  unfold state_of in Hst. rewrite Hst in Hst'. simplify_eq.
  by rewrite Hf in Hc.
  - rewrite Hb in Ht. by destruct (trail_head _ _ _ _ _ _ _ _ _ _ Ht) as (? & ? & ? & _).
Qed.

Lemma applied_unique s a b :
  NoDup (map ar_intent_id (st_applied s)) ->
  a ∈ st_applied s -> b ∈ st_applied s -> ar_intent_id a = ar_intent_id b -> a = b.
Proof.
  intros Hn Ha Hb Hab.
  apply list_elem_of_lookup in Ha as [m Hm], Hb as [n Hn'].
  assert (m = n); [|congruence].
  eapply (NoDup_lookup (map ar_intent_id (st_applied s))); [done|..];
  rewrite list_lookup_fmap; [by rewrite Hm|by rewrite Hn', Hab].
Qed.
End reachable.

(** ** Lemmas for the properties *)

Lemma filter_unique {A B} `{EqDecision B} (f : A -> B) (l : list A) (a : A) :
  NoDup (map f l) -> a ∈ l -> filter (fun x => f x = f a) l = [a].
Proof.
  induction l as [|b l IH]; intros Hn Ha; [by apply elem_of_nil in Ha|].
  apply NoDup_cons in Hn as [Hb Hn]. rewrite filter_cons.
  apply elem_of_cons in Ha as [-> |Ha].
  - rewrite decide_True by done. f_equal.
    destruct (filter _ l) as [|c l'] eqn:E; [done|].
    assert (Hc : c ∈ filter (fun x => f x = f b) l) by (rewrite E; by left).
    apply list_elem_of_filter in Hc as [Hc1 Hc2].
    destruct Hb. rewrite <- Hc1. by apply list_elem_of_fmap_2.
  - rewrite decide_False; [by apply IH|]. intros E. apply Hb. rewrite E. by apply list_elem_of_fmap_2.
Qed.

Lemma finalized_binding `{Ext} js iid :
  filter (fun r => r_kind r = FINALIZED) (for_intent js iid)
  = filter (fun r => r_kind r = FINALIZED) (binding js iid).
Proof.
  unfold binding. generalize (for_intent js iid). intros l. induction l as [|r l IH]; [done|].
  rewrite (filter_cons (fun r => BINDING_KINDS _ = _)).
  destruct (decide (BINDING_KINDS (r_kind r) = true)) as [Hb|Hb];
    rewrite !(filter_cons (fun r => r_kind r = FINALIZED)).
  - case_decide; by rewrite IH.
  - rewrite decide_False; [done|]. intros E. by rewrite E in Hb.
Qed.

Lemma filter_kind_length (k : kind) (rs : list record) :
  length (filter (fun r => r_kind r = k) rs) = length (filter (fun x => x = k) (map r_kind rs)).
Proof.
  induction rs as [|r rs IH]; [done|]. simpl. rewrite !filter_cons.
  case_decide; simpl; by rewrite IH.
Qed.

Section idle.
Context `{Ext} (ns sid : string) (cfg : config).
Abbreviation INV := (Inv ns sid (c_authority_keys cfg) (c_finalizer_sk cfg) (c_finalizer_kid cfg)).

Lemma recover_all_idle ids w :
  INV (w_store w) (w_journal w) None -> (forall iid, iid ∈ ids -> binding (w_journal w) iid <> []) ->
  recover_all cfg ids w = Ret [] w.
Proof.
  intros HI. induction ids as [|iid ids IH]; intros Hb; [done|].
  cbn [recover_all]. unfold ebind at 1, eget at 1.
  destruct (inv_status _ _ _ _ _ _ _ _ HI iid) as [[Hn _]|(pb & i & ph & Ht & _ & Ho)].
  { by destruct (Hb iid); [left|]. }
  apply trail_kinds, kinds_of_state in Ht as (st & -> & -> & _).
  destruct (is_open ph); [by specialize (Ho eq_refl)|]. apply IH.
  intros x Hx. apply Hb. by right.
Qed.

Lemma recover_idle w :
  INV (w_store w) (w_journal w) None -> recover_locked cfg w = Ret [] (set_recovering false w).
Proof.
  intros HI. unfold recover_locked, ebind, emod, eget, efinally. simpl.
  rewrite recover_all_idle; [done|done|]. simpl. apply prepared_bound.
Qed.

(** A request the journal already binds, with every intent closed. *)
Lemma submit_bound s w :
  INV (w_store w) (w_journal w) None -> bound_to s (w_journal w) ->
  verify_signed s (c_authority_keys cfg) = true ->
  submit cfg s w = result_of (request_id s) true (set_recovering false w).
Proof.
  intros HI (r & rest & Hb & Hh & Hu) Hv. unfold submit, ebind at 1. rewrite recover_idle by done.
  unfold submit_locked, ebind, eget. apply str_eqb_neq in Hu. rewrite Hu. simpl.
  rewrite Hb, Hv. simpl. unfold opt_eqb. by rewrite Hh, bool_decide_true.
Qed.

(** Only the trail of a finalized intent ends in a certificate. *)
Lemma cert_in_state s js act iid cert :
  INV s js act -> cert_in js iid cert -> state_of js iid = Some FINALIZED.
Proof.
  intros HI (rf & ih & Hl & Hkf & _).
  destruct (inv_status _ _ _ _ _ _ _ _ HI iid) as [[Hn _]|(pb & i & ph & Ht & _ & _)].
  { by rewrite Hn in Hl. }
  apply trail_kinds in Ht. unfold state_of.
  assert (Hlk : last (map r_kind (binding js iid)) = Some FINALIZED).
  { by rewrite fmap_last, Hl; simpl; rewrite Hkf. }
  destruct ph; simpl in Ht; repeat destruct Ht as [Ht|Ht]; rewrite Ht in Hlk |- *; done.
Qed.

Lemma result_of_cert js iid cert w r w' :
  w_journal w = js -> cert_in js iid cert -> state_of js iid = Some FINALIZED ->
  result_of iid true w = Ret r w' ->
  r = mk_result iid FINALIZED true None (Some cert) /\ w' = w.
Proof.
  intros <- (rf & ih & Hl & _ & Hb) Hst. unfold result_of, ebind, eget. unfold state_of in Hst.
  rewrite Hst, Hl, Hb. simpl. by intros [= <- <-].
Qed.
End idle.
