(* ===== verification/Verify.v ===== *)
(** * The offline verifier (vdb_c1/verify.py)

    [verify_bundle] on arbitrary JSON, as it arrives from an untrusted party:
    the Python comparisons (a bool equals an int), iteration, indexing and
    [sorted] on values of any type, the [KeyError], [TypeError],
    [IndexError] and [AttributeError] paths, and the ten checks in their
    order. *)

From Stdlib Require Import ZArith Lia Ascii String.
From stdpp Require Import base gmap strings list sorting.
From S2P Require Import Prelude Canon VdbStates Journal StateAdapter Coordinator.

(** [Reject(verdict, check)], or one of the built-in errors. *)
Inductive verr := Reject (verdict check : string) | PyErr.
Definition V (A : Type) : Type := res verr A.

Record trust_store := mk_trust {
  t_authority_keys : keyring; t_finalizer_keys : keyring; t_witness_keys : keyring }.

(** What [verify_bundle] returns (its [checks_passed] log left out). *)
Record verdict := mk_verdict { vd_verdict : string; vd_check : string; vd_profile : string }.

Definition CHECKPOINT_PROTOCOL : string := "veklom.vdb.c1.checkpoint/v1".
Definition BINDING : list string :=
  ["PREPARED"; "COMMITTING"; "COMMIT_UNCERTAIN"; "COMMITTED"; "FINALIZED"; "ABORTED"].
Definition LEGAL_FINAL_PATHS : list (list string) :=
  [["PREPARED"; "COMMITTING"; "COMMITTED"; "FINALIZED"];
   ["PREPARED"; "COMMITTING"; "COMMIT_UNCERTAIN"; "COMMITTED"; "FINALIZED"]].

Section verify.
Context `{Ext}.

(** ** Python on JSON values *)

(** [a == b].  Objects have distinct keys and compare without order. *)
Fixpoint py_eqb (a b : json) : bool :=
  match a, b with
  | JNull, JNull => true
  | JBool x, JBool y => Bool.eqb x y
  | JBool x, JInt y => (Z.b2z x =? y)%Z
  | JInt x, JBool y => (x =? Z.b2z y)%Z
  | JInt x, JInt y => (x =? y)%Z
  | JFloat x, JInt y => float_is x y
  | JInt x, JFloat y => float_is y x
  | JFloat x, JBool y => float_is x (Z.b2z y)
  | JBool x, JFloat y => float_is y (Z.b2z x)
  | JFloat x, JFloat y => float_eqb x y
  | JStr x, JStr y => str_eqb x y
  | JArr l, JArr l' =>
    (fix go l l' := match l, l' with
     | [], [] => true
     | x :: l, y :: l' => py_eqb x y && go l l'
     | _, _ => false
     end) l l'
  | JObj m, JObj m' =>
    (length m =? length m')%nat &&
    (fix go m := match m with
     | [] => true
     | (k, v) :: m => match assoc k m' with Some v' => py_eqb v v' | None => false end && go m
     end) m
  | _, _ => false
  end.

(** [d[k]] and [d.get(k)]. *)
Definition item (k : string) (j : json) : V json :=
  match jget k j with Some v => Ok v | None => Err PyErr end.
Definition get (k : string) (j : json) : V json :=
  match j with
  | JObj m => Ok match assoc k m with Some v => v | None => JNull end
  | _ => Err PyErr
  end.
Definition items (j : json) : V (list (string * json)) :=
  match j with JObj m => Ok m | _ => Err PyErr end.
Definition the_list (j : json) : option (list json) :=
  match j with JArr l => Some l | _ => None end.

Definition digest_v (j : json) : V string := if jcs_raises j then Err PyErr else Ok (digest j).

(** [{k: v for k, v in rec.items() if k != "hash"}]. *)
Definition unhashed (m : list (string * json)) : json :=
  JObj (filter (fun kv => kv.1 <> "hash") m).

Definition ts (j : json) : V Z :=
  match j with
  | JStr t => match parse_time t with Some z => Ok z | None => Err PyErr end
  | _ => Err PyErr
  end.

(** ** Iteration and [sorted] *)

(** The characters of a text: a byte that does not continue a code point
    starts one. *)
Definition continues (c : ascii) : bool :=
  let n := nat_of_ascii c in (128 <=? n)%nat && (n <? 192)%nat.
Fixpoint text_chars (l : list ascii) : list (list ascii) :=
  match l with
  | [] => []
  | c :: l' =>
  match text_chars l' with
  | (d :: g) :: gs => if continues d then (c :: d :: g) :: gs else [c] :: (d :: g) :: gs
  | gs => [c] :: gs
  end
  end.
Definition str_chars (s : string) : list json :=
  map (fun g => JStr (string_of_list_ascii g)) (text_chars (list_ascii_of_string s)).

(** What [for e in x] runs over. *)
Definition iter_of (x : json) : V (list json) :=
  match x with
  | JArr l => Ok l
  | JStr s => Ok (str_chars s)
  | JObj m => Ok (map (fun kv => JStr kv.1) m)
  | _ => Err PyErr
  end.

(** [e[0]]. *)
Definition first_of (e : json) : V json :=
  match e with
  | JArr (x :: _) => Ok x
  | JStr s => match str_chars s with c :: _ => Ok c | [] => Err PyErr end
  | _ => Err PyErr
  end.

(** [a < b]; [None] is the TypeError.  Lists compare at the first items that
    differ. *)
Fixpoint py_lt (a b : json) : option bool :=
  match a, b with
  | JBool x, JBool y => Some (Z.b2z x <? Z.b2z y)%Z
  | JBool x, JInt y => Some (Z.b2z x <? y)%Z
  | JInt x, JBool y => Some (x <? Z.b2z y)%Z
  | JInt x, JInt y => Some (x <? y)%Z
  | JFloat x, JInt y => Some (float_lt_int x y)
  | JInt x, JFloat y => Some (int_lt_float x y)
  | JFloat x, JBool y => Some (float_lt_int x (Z.b2z y))
  | JBool x, JFloat y => Some (int_lt_float (Z.b2z x) y)
  | JFloat x, JFloat y => Some (float_ltb x y)
  | JStr x, JStr y => Some (negb (String.leb y x))
  | JArr l, JArr l' =>
    (fix go l l' := match l, l' with
     | [], [] => Some false
     | [], _ :: _ => Some true
     | _ :: _, [] => Some false
     | x :: l, y :: l' => if py_eqb x y then go l l' else py_lt x y
     end) l l'
  | _, _ => None
  end.

Definition comparable (a b : json) : bool := bool_decide (is_Some (py_lt a b)) && bool_decide (is_Some (py_lt b a)).
Fixpoint all_comparable (l : list json) : bool :=
  match l with [] => true | x :: l' => forallb (comparable x) l' && all_comparable l' end.

(** Insertion after the items that are not greater. *)
Fixpoint insert_sorted (x : json) (l : list json) : list json :=
  match l with
  | [] => [x]
  | y :: l' => if bool_decide (py_lt x y = Some true) then x :: l else y :: insert_sorted x l'
  end.
Definition stable_sort (l : list json) : list json := foldl (fun acc x => insert_sorted x acc) [] l.

(** [sorted(l)]: a stable sort, which must compare any two items whose order
    it decides, so that it raises if two are not comparable.  (A NaN, on
    which [<] is no order, makes rfc8785 raise in the digest of the same
    entries: the verdict is that of a sort that raises.) *)
Definition py_sorted (l : list json) : V (list json) :=
  if all_comparable l then Ok (stable_sort l) else Err PyErr.
Definition sorted_v (x : json) : V (list json) := let? l := iter_of x in py_sorted l.

(** [x + 1]. *)
Definition py_succ (x : json) : V json :=
  match x with
  | JInt z => Ok (JInt (z + 1))
  | JBool b => Ok (JInt (Z.b2z b + 1))
  | JFloat l => Ok (JFloat (float_succ l))
  | _ => Err PyErr
  end.

(** [check_signed]: [canon.verify_signed] after the key lookup, which raises
    on an unhashable kid. *)
Definition check_signed (s : json) (trusted : keyring) (what : string) : V unit :=
  let? kid := get "kid" s in
  match kid with
  | JArr _ | JObj _ => Err PyErr
  | JStr k =>
  match trusted !! k with
  | None => Err (Reject "REJECTED_UNTRUSTED_KEY" what)
  | Some _ => raise_if (negb (verify_signed s trusted)) (Reject "REJECTED_BAD_SIGNATURE" what)
  end
  | _ => Err (Reject "REJECTED_UNTRUSTED_KEY" what)
  end.

Definition root_json (ns gen : json) (rows : list json) : json :=
  JObj [("protocol", JStr STATE_PROTOCOL); ("namespace", ns); ("generation", gen); ("entries", JArr rows)].
(** [state_root]. *)
Definition state_root_v (ns gen entries : json) : V string :=
  let? rows := sorted_v entries in digest_v (root_json ns gen rows).

(** The chain loop of steps 2 and W1: the hash of the last record. *)
Fixpoint chain_loop (check : string) (i : nat) (prev : json) (recs : list json) : V json :=
  match recs with
  | [] => Ok prev
  | rec :: rest =>
  let? m := items rec in
  let field k := match assoc k m with Some v => v | None => JNull end in
  let bad := Err (Reject "REJECTED_JOURNAL_INCONSISTENT" check) in
  if negb (py_eqb (field "protocol") (JStr JOURNAL_PROTOCOL)) then bad
  else if negb (py_eqb (field "seq") (JInt (Z.of_nat i))) then bad
  else if negb (py_eqb (field "prev") prev) then bad
  else
    let? d := digest_v (unhashed m) in
    if negb (py_eqb (field "hash") (JStr d)) then bad
    else let? h := item "hash" rec in chain_loop check (S i) h rest
  end.

(** [r["intent_id"] == iid and r["kind"] in BINDING], with the kind. *)
Definition binding_kind_of (iid r : json) : V (option string) :=
  let? id := item "intent_id" r in
  if negb (py_eqb id iid) then Ok None
  else let? k := item "kind" r in
     match k with
     | JStr s => Ok (if bool_decide (s ∈ BINDING) then Some s else None)
     | _ => Ok None
     end.

Fixpoint mine_of (iid : json) (journal : list json) : V (list (string * json)) :=
  match journal with
  | [] => Ok []
  | r :: rest =>
  let? k := binding_kind_of iid r in
  let? l := mine_of iid rest in
  Ok match k with Some s => (s, r) :: l | None => l end
  end.

(** [any(...)] over the same condition. *)
Fixpoint any_mine (iid : json) (recs : list json) : V bool :=
  match recs with
  | [] => Ok false
  | r :: rest =>
  let? k := binding_kind_of iid r in
  match k with Some _ => Ok true | None => any_mine iid rest end
  end.

Definition count (k : string) (ks : list string) : nat := length (filter (fun x => x = k) ks).

(** [any(r["body"].get("intent_hash") != ih for r in mine)]. *)
Fixpoint any_other_hash (ih : string) (mine : list json) : V bool :=
  match mine with
  | [] => Ok false
  | r :: rest =>
  let? b := item "body" r in
  let? h := get "intent_hash" b in
  if negb (py_eqb h (JStr ih)) then Ok true else any_other_hash ih rest
  end.

(** [[e for e in pre if e[0] != key]]. *)
Fixpoint other_rows (key : json) (pre : list json) : V (list json) :=
  match pre with
  | [] => Ok []
  | e :: rest =>
  let? k := first_of e in
  let? l := other_rows key rest in
  Ok (if py_eqb k key then l else e :: l)
  end.
(** [sorted([e for e in pre_entries if e[0] != key] + [[key, value]])]. *)
Definition expected_post (pre_entries key value : json) : V (list json) :=
  let? pre := iter_of pre_entries in
  let? kept := other_rows key pre in
  py_sorted (kept ++ [JArr [key; value]]).

(** ** The ten checks *)

Definition nth_json (n : nat) (l : list json) : V json :=
  match l !! n with Some x => Ok x | None => Err PyErr end.

(** Step 3: the intent's binding records are one legal path that ends the
    bundle. *)
Definition path_check (iid : json) (journal : list json) : V (list (string * json)) :=
  let? mine := mine_of iid journal in
  let kinds := map fst mine in
  do? raise_if ((1 <? count "FINALIZED" kinds)%nat || (1 <? count "COMMITTED" kinds)%nat
              || (1 <? count "PREPARED" kinds)%nat)
             (Reject "REJECTED_DUPLICATE_FINALITY" "single_finality") in
  do? raise_if (negb (bool_decide (kinds ∈ LEGAL_FINAL_PATHS)))
             (Reject "REJECTED_JOURNAL_INCONSISTENT" "state_machine") in
(* [journal[-1] is not mine[-1]]: the last record is one of [mine] *)
let? tail := match last journal with Some r => binding_kind_of iid r | None => Err PyErr end in
do? raise_if (match tail with Some _ => false | None => true end)
           (Reject "REJECTED_JOURNAL_INCONSISTENT" "bundle_prefix") in
Ok mine.

(** Steps 4 to 6: signatures, one intent hash, authority window.  Returns
    the hash. *)
Definition intent_checks (trust : trust_store) (iid pb intent signed_intent cert : json)
  (mine : list json) : V string :=
  do? check_signed signed_intent (t_authority_keys trust) "intent_signature" in
  let? akid := item "authority_kid" intent in
  let? skid := item "kid" signed_intent in
  let bad := Reject "REJECTED_BAD_SIGNATURE" "intent_signature" in
  do? raise_if (negb (py_eqb akid skid)) bad in
  let? proto := get "protocol" intent in
  do? raise_if (negb (py_eqb proto (JStr INTENT_PROTOCOL))) bad in
  do? check_signed cert (t_finalizer_keys trust) "certificate_signature" in
  let? ih := digest_v intent in
  let? id := item "intent_id" intent in
  let? other := (if negb (py_eqb id iid) then Ok true else any_other_hash ih mine) in
  do? raise_if other (Reject "REJECTED_JOURNAL_INCONSISTENT" "intent_binding") in
  let? adm := item "admission" pb in
  let? admitted_at := item "admitted_at" adm in
  let? admitted := ts admitted_at in
  let? issued_at := item "issued_at" intent in
  let? issued := ts issued_at in
(* the second operand of the chained comparison *)
let? inside := (if (issued - CLOCK_SKEW <=? admitted)%Z then
                let? expires_at := item "expires_at" intent in
                let? expires := ts expires_at in Ok (admitted <? expires)%Z
              else Ok false) in
do? raise_if (negb inside) (Reject "REJECTED_OUTSIDE_AUTHORITY_WINDOW" "authority_window") in
Ok ih.

(** Steps 7 and 8: roots and generations. *)
Definition state_checks (intent pb cb : json) : V unit :=
  let? ns := item "namespace" intent in
  let? pre_gen := item "pre_generation" pb in
  let? pre_entries := item "pre_entries" pb in
  let? r0 := state_root_v ns pre_gen pre_entries in
  let? pre_root := item "pre_root" pb in
  do? raise_if (negb (py_eqb (JStr r0) pre_root)) (Reject "REJECTED_ROOT_MISMATCH" "pre_root") in
  let? expected_root := item "expected_root" intent in
  do? raise_if (negb (py_eqb pre_root expected_root))
             (Reject "REJECTED_ROOT_MISMATCH" "precondition_root") in
  let? post_gen := item "post_generation" cb in
  let? post_entries := item "post_entries" cb in
  let? r1 := state_root_v ns post_gen post_entries in
  let? post_root := item "post_root" cb in
  do? raise_if (negb (py_eqb (JStr r1) post_root)) (Reject "REJECTED_ROOT_MISMATCH" "post_root") in
  let? expected_gen := item "expected_generation" intent in
  let bad := Reject "REJECTED_GENERATION_MISMATCH" "generation" in
  do? raise_if (negb (py_eqb pre_gen expected_gen)) bad in
  let? succ := py_succ pre_gen in
  raise_if (negb (py_eqb post_gen succ)) bad.

(** Step 9: the committed state is the signed UPSERT applied once. *)
Definition payload_json (op key value : json) : json :=
  JObj [("protocol", JStr PAYLOAD_PROTOCOL); ("op", op); ("key", key); ("value", value)].
Definition payload_check (iid intent pb cb : json) (ih : string) : V string :=
  let? op := item "op" intent in
  let? key := item "key" intent in
  let? value := item "value" intent in
  let? commitment := digest_v (payload_json op key value) in
  let? pre_entries := item "pre_entries" pb in
  let? expected := expected_post pre_entries key value in
  let? applied := item "applied_row" cb in
  let bad := Reject "REJECTED_PAYLOAD_SUBSTITUTION" "payload" in
  do? raise_if (negb (py_eqb op (JStr "UPSERT"))) bad in
  let? pc := item "payload_commitment" pb in
  do? raise_if (negb (py_eqb pc (JStr commitment))) bad in
  let? post_entries := item "post_entries" cb in
  let? post := sorted_v post_entries in
  do? raise_if (negb (py_eqb (JArr post) (JArr expected))) bad in
  let? post_gen := item "post_generation" cb in
  let? post_root := item "post_root" cb in
  do? raise_if (negb (py_eqb applied (JObj [("intent_id", iid); ("intent_hash", JStr ih);
                                          ("generation", post_gen); ("post_root", post_root)]))) bad in
  Ok commitment.

(** Step 10: the certificate re-derived from the journal. *)
Definition want_json (iid intent pb cb prepared committed cert : json) (ih commitment : string) : V json :=
  let? ns := item "namespace" intent in
  let? akid := item "authority_kid" intent in
  let? egen := item "expected_generation" intent in
  let? pre_root := item "pre_root" pb in
  let? post_gen := item "post_generation" cb in
  let? post_root := item "post_root" cb in
  let? phys := item "physical" cb in
  let? pm := items phys in
  let? applied := item "applied_row" cb in
  let? pseq := item "seq" prepared in
  let? phash := item "hash" prepared in
  let? cseq := item "seq" committed in
  let? chash := item "hash" committed in
  let? at_ := item "at" committed in
  let? ckid := item "kid" cert in
  Ok (JObj [("protocol", JStr FINALITY_PROTOCOL); ("intent_id", iid); ("intent_hash", JStr ih);
          ("namespace", ns); ("authority_kid", akid); ("expected_generation", egen);
          ("pre_root", pre_root); ("payload_commitment", JStr commitment);
          ("post_generation", post_gen); ("post_root", post_root);
          ("physical", JObj (filter (fun kv => kv.1 <> "applied_row") pm ++ [("applied_row", applied)]));
          ("journal", JObj [("prepared_seq", pseq); ("prepared_hash", phash);
                            ("committed_seq", cseq); ("committed_hash", chash)]);
          ("finalized_at", at_); ("finalizer_kid", ckid)]).

Definition receipt_check (want finalized cert receipt : json) : V unit :=
  let bad := Reject "REJECTED_RECEIPT_MISMATCH" "receipt_binding" in
  let? fb := item "body" finalized in
  let? jc := item "certificate" fb in
  do? raise_if (negb (py_eqb jc cert)) bad in
  let? rd := item "certificate_digest" receipt in
  let? d := digest_v cert in
  do? raise_if (negb (py_eqb rd (JStr d))) bad in
  let? p := item "payload" cert in
  raise_if (negb (py_eqb p want)) bad.

Definition the_committed (mine : list (string * json)) : V json :=
  match list_find (fun kr => kr.1 = "COMMITTED") mine with
  | Some (_, (_, r)) => Ok r
  | None => Err PyErr
  end.

(** [_verify]. *)
Definition verify_ (bundle : json) (trust : trust_store) : V unit :=
  let? proto := get "protocol" bundle in
  do? raise_if (negb (py_eqb proto (JStr BUNDLE_PROTOCOL)))
             (Reject "REJECTED_INCOMPLETE_BUNDLE" "structure") in
  let? iid := item "intent_id" bundle in
  let? jj := item "journal" bundle in
  let? receipt := item "receipt" bundle in
  let? cert := item "certificate" receipt in
  match the_list jj with
  | None | Some [] => Err (Reject "REJECTED_INCOMPLETE_BUNDLE" "structure")
  | Some journal =>
  do? chain_loop "journal_chain" 0 (JStr GENESIS) journal in
  let? mine := path_check iid journal in
  let? prepared := nth_json 0 (map snd mine) in
  let? committed := the_committed mine in
  let? finalized := match last mine with Some (_, r) => Ok r | None => Err PyErr end in
  let? pb := item "body" prepared in
  let? cb := item "body" committed in
  let? signed_intent := item "signed_intent" pb in
  let? intent := item "payload" signed_intent in
  let? ih := intent_checks trust iid pb intent signed_intent cert (map snd mine) in
  do? state_checks intent pb cb in
  let? commitment := payload_check iid intent pb cb ih in
  let? want := want_json iid intent pb cb prepared committed cert ih commitment in
  receipt_check want finalized cert receipt
  end.

(** ** The witness part *)

Definition has_key (k : string) (j : json) : bool :=
  match jget k j with Some _ => true | None => false end.

(** [_verify_witness]: the profile. *)
Definition verify_witness (bundle : json) (trust : trust_store) : V string :=
  if negb (has_key "witness" bundle) then Ok "L1"
  else
  let? w := item "witness" bundle in
  let? cp := item "checkpoint" w in
  let? sj := item "journal_suffix" w in
  do? check_signed cp (t_witness_keys trust) "witness_signature" in
  let? jj := item "journal" bundle in
  match the_list jj, the_list sj with
  | Some journal, Some suffix =>
    let full := journal ++ suffix in
    let? prev := match last journal with Some r => item "hash" r | None => Err PyErr end in
    do? chain_loop "witness_suffix" (length journal) prev suffix in
    let? iid := item "intent_id" bundle in
    let? again := any_mine iid suffix in
    do? raise_if again (Reject "REJECTED_DUPLICATE_FINALITY" "witness_suffix") in
    let? p := item "payload" cp in
    let bad := Reject "REJECTED_FORK" "witness_checkpoint" in
    let? proto := get "protocol" p in
    do? raise_if (negb (py_eqb proto (JStr CHECKPOINT_PROTOCOL))) bad in
    let? seq := item "seq" p in
    do? raise_if (negb (py_eqb seq (JInt (Z.of_nat (length full) - 1)))) bad in
    let? head := item "head_hash" p in
    let? tip := match last full with Some r => item "hash" r | None => Err PyErr end in
    do? raise_if (negb (py_eqb head tip)) bad in
    let? genesis := item "journal_genesis_hash" p in
    let? first := match full with r :: _ => item "hash" r | [] => Err PyErr end in
    do? raise_if (negb (py_eqb genesis first)) bad in
    Ok "W1"
  | _, _ => Err PyErr
  end.

(** [verify_bundle]. *)
Definition verify_bundle (bundle : json) (trust : trust_store) (require_witness : bool) : verdict :=
  match
  (do? verify_ bundle trust in
   let? profile := verify_witness bundle trust in
   do? raise_if (require_witness && negb (str_eqb profile "W1"))
                (Reject "REJECTED_NOT_WITNESSED" "witness") in
   Ok profile)
  with
  | Ok profile => mk_verdict "VALID_FINALIZED" "" profile
  | Err (Reject v c) => mk_verdict v c ""
  | Err PyErr => mk_verdict "REJECTED_INCOMPLETE_BUNDLE" "structure" ""
  end.

(** ** Rows of two strings *)

Definition row_json (e : string * string) : json := JArr [JStr e.1; JStr e.2].

Lemma le_leb a b : bool_decide (String.le a b) = String.leb a b.
Proof. unfold String.le. destruct (String.leb a b); by case_bool_decide. Qed.

Lemma py_lt_row a b : py_lt (row_json a) (row_json b) = Some (negb (bool_decide (row_le b a))).
Proof.
  destruct a as [k v], b as [k' v']. unfold row_json, row_le. simpl. destruct (str_eqb k k') eqn:E.
  - apply str_eqb_spec in E as ->. rewrite (bool_decide_ext _ (String.le v' v)) by naive_solver.
  rewrite le_leb. destruct (str_eqb v v') eqn:E'; [|done]. apply str_eqb_spec in E' as ->.
  destruct (String.leb_total v' v') as [->| ->]; done.
  - apply str_eqb_neq in E. rewrite (bool_decide_ext _ (String.le k' k)) by naive_solver. by rewrite le_leb.
Qed.

Lemma rows_comparable l : all_comparable (map row_json l) = true.
Proof.
  induction l as [|a l IH]; [done|]. cbn [map all_comparable]. rewrite IH, andb_true_r. apply forallb_forall.
  intros x (b & <- & _)%in_map_iff. unfold comparable. rewrite !py_lt_row. done.
Qed.

Fixpoint insert_row (x : string * string) (l : list (string * string)) : list (string * string) :=
  match l with [] => [x] | y :: l' => if decide (row_le y x) then y :: insert_row x l' else x :: l end.

Lemma insert_rows x l : insert_sorted (row_json x) (map row_json l) = map row_json (insert_row x l).
Proof.
  induction l as [|y l IH]; [done|]. cbn [map insert_sorted insert_row]. rewrite py_lt_row.
  destruct (decide (row_le y x)) as [Hle|Hle].
  - rewrite (bool_decide_eq_true_2 (row_le y x)) by done. simpl. by rewrite IH.
  - rewrite (bool_decide_eq_false_2 (row_le y x)) by done. done.
Qed.

Lemma insert_row_perm x l : insert_row x l ≡ₚ x :: l.
Proof.
  induction l as [|y l IH]; [done|]. simpl. case_decide; [|done]. rewrite IH. apply Permutation_swap.
Qed.

Lemma insert_row_sorted x l : Sorted row_le l -> Sorted row_le (insert_row x l).
Proof.
  induction 1 as [|y l Hs IH Hh]; [by repeat constructor|]. simpl. case_decide as Hle.
  - constructor; [done|]. destruct l as [|z l]; [by constructor|]. simpl. inversion Hh; subst.
  case_decide; by constructor.
  - constructor; [by constructor|]. constructor. destruct (total row_le x y); [done|by destruct Hle].
Qed.

(** On such rows [sorted] is the coordinator's order. *)
Lemma sorted_rows_json l : py_sorted (map row_json l) = Ok (map row_json (sorted_rows l)).
Proof.
  unfold py_sorted. rewrite rows_comparable. f_equal. unfold stable_sort.
  assert (Hg : forall l acc, Sorted row_le acc -> exists r, Sorted row_le r /\ r ≡ₚ l ++ acc /\
    foldl (fun acc x => insert_sorted x acc) (map row_json acc) (map row_json l) = map row_json r).
  { clear l. induction l as [|x l IH]; intros acc Ha; [by exists acc|]. cbn [map foldl]. rewrite insert_rows.
  destruct (IH (insert_row x acc) (insert_row_sorted _ _ Ha)) as (r & H1 & H2 & H3). exists r. split_and!; [done| |done].
  rewrite H2, insert_row_perm. simpl. by rewrite Permutation_middle. }
  destruct (Hg l [] (Sorted_nil _)) as (r & H1 & H2 & H3). cbn [map] in H3. rewrite H3. f_equal.
  apply (Sorted_unique row_le); [done|apply Sorted_merge_sort; apply _|].
  rewrite H2, app_nil_r. unfold sorted_rows. by rewrite merge_sort_Permutation.
Qed.

Lemma other_rows_json k l :
  other_rows (JStr k) (map row_json l) = Ok (map row_json (filter (fun e => e.1 <> k) l)).
Proof.
  induction l as [|[k' v] l IH]; [done|]. cbn [map other_rows]. simpl. rewrite IH. simpl. rewrite filter_cons. simpl.
  destruct (str_eqb k' k) eqn:E.
  - apply str_eqb_spec in E as ->. by rewrite decide_False by tauto.
  - apply str_eqb_neq in E. by rewrite decide_True.
Qed.

Lemma expected_post_rows l k v :
  expected_post (entries_json l) (JStr k) (JStr v) = Ok (map row_json (expected_entries l k v)).
Proof.
  unfold expected_post, entries_json. cbn [iter_of rbind]. fold row_json.
  change (map (fun e => JArr [JStr e.1; JStr e.2]) l) with (map row_json l). rewrite other_rows_json. cbn [rbind].
  change [JArr [JStr k; JStr v]] with (map row_json [(k, v)]). rewrite <- map_app. apply sorted_rows_json.
Qed.

Lemma sorted_v_rows l : sorted_v (entries_json l) = Ok (map row_json (sorted_rows l)).
Proof. apply sorted_rows_json. Qed.

Lemma py_eqb_rows l l' : py_eqb (JArr (map row_json l)) (JArr (map row_json l')) = bool_decide (l = l').
Proof.
  revert l'. induction l as [|[k v] l IH]; intros [|[k' v'] l']; try done. simpl in *. rewrite IH, !andb_true_r.
  unfold str_eqb. repeat case_bool_decide; simplify_eq; naive_solver.
Qed.

(** The transition of step 9 on such rows. *)
Lemma rows_transition l l' k v post expected :
  sorted_v (entries_json l') = Ok post -> expected_post (entries_json l) (JStr k) (JStr v) = Ok expected ->
  py_eqb (JArr post) (JArr expected) = true -> sorted_rows l' = expected_entries l k v.
Proof.
  rewrite sorted_v_rows, expected_post_rows. intros [= <-] [= <-]. rewrite py_eqb_rows. apply bool_decide_eq_true.
Qed.

(** ** Reflexivity of the comparison *)

(** No float (NaN differs from itself) and no repeated key. *)
Fixpoint jnice (j : json) : bool :=
  match j with
  | JFloat _ => false
  | JArr l => forallb jnice l
  | JObj m => bool_decide (NoDup (map fst m)) &&
            (fix go m := match m with [] => true | (_, v) :: m => jnice v && go m end) m
  | _ => true
  end.

Lemma assoc_elem {A} (m : list (string * A)) k v :
  NoDup (map fst m) -> (k, v) ∈ m -> assoc k m = Some v.
Proof.
  induction m as [|[k' v'] m IH]; intros Hn Hin; [by apply elem_of_nil in Hin|].
  apply NoDup_cons in Hn as [Hk Hn]. simpl. apply elem_of_cons in Hin as [[= -> ->]|Hin].
  - by rewrite str_eqb_refl.
  - destruct (str_eqb k' k) eqn:E; [|by apply IH].
  apply str_eqb_spec in E as ->. destruct Hk.
  by apply (list_elem_of_fmap_2 fst m (k, v)) in Hin.
Qed.

Lemma py_eqb_refl : forall j, jnice j = true -> py_eqb j j = true.
Proof.
  fix IH 1. intros [| | | | |l|m] Hn; simpl in *; try done.
  - by destruct b.
  - apply Z.eqb_refl.
  - apply str_eqb_refl.
  - induction l as [|x l IHl]; [done|]. simpl in Hn. apply andb_true_iff in Hn as [H1 H2].
  rewrite IH by exact H1. exact (IHl H2).
  - rewrite Nat.eqb_refl. apply andb_true_iff in Hn as [Hd Hn]. apply bool_decide_eq_true in Hd.
  simpl. assert (Hsub : forall x, x ∈ m -> x ∈ m) by done. revert Hsub Hn.
  generalize m at 1 3 5. intros m'. induction m' as [|[k v] m' IHm]; intros Hsub Hn; [done|].
  apply andb_true_iff in Hn as [Hv Hn].
  rewrite (assoc_elem m k v Hd) by (apply Hsub; by left).
  rewrite IH by exact Hv. simpl. apply IHm; [|exact Hn]. intros x Hx. apply Hsub. by right.
Qed.
End verify.
