(* ===== verification/VerifyProofs.v ===== *)
(** * The verifier against the coordinator

    What the verifier reads out of the coordinator's records, and that the
    bundle exported for a finalized intent passes all its checks. *)

From Stdlib Require Import ZArith Lia String.
From stdpp Require Import base gmap strings list.
From S2P Require Import Prelude Canon VdbStates Journal StateAdapter Coordinator CrashSafety CrashProofs CrashTheorems Verify.

(** One step of the verifier, towards any result. *)
Lemma vbind_to {A B} (m : V A) (k : A -> V B) a t : m = Ok a -> k a = t -> rbind m k = t.
Proof. by intros -> <-. Qed.
Ltac vstep := eapply vbind_to; [|cbv beta].
Ltac vstep_to x := apply (vbind_to _ _ x); [reflexivity|cbv beta].

Section completeness.
Context `{Ext}.

(** The bundle as [export_bundle] writes it. *)
Definition checkpoint_json (c : checkpoint) : json :=
  JObj [("protocol", JStr (cp_protocol c)); ("journal_genesis_hash", JStr (cp_genesis_hash c));
      ("seq", JInt (Z.of_nat (cp_seq c))); ("head_hash", JStr (cp_head_hash c));
      ("witnessed_at", JStr (cp_witnessed_at c)); ("witness_kid", JStr (cp_witness_kid c))].
Definition bundle_json (b : bundle) : json :=
  JObj ([("protocol", JStr (bd_protocol b)); ("intent_id", JStr (bd_intent_id b));
       ("journal", JArr (map record_json (bd_journal b)));
       ("receipt", JObj [("certificate", cert_json (rc_certificate (bd_receipt b)));
                         ("certificate_digest", JStr (rc_digest (bd_receipt b)))])]
      ++ match bd_witness b with
         | None => []
         | Some w => [("witness", JObj [("checkpoint", signed_json checkpoint_json (wp_checkpoint w));
                                        ("journal_suffix", JArr (map record_json (wp_suffix w)))])]
         end).

Hypothesis jcs_ok : jcs_safe.

Lemma digest_v_ok j : jcs_raises j = false -> digest_v j = Ok (digest j).
Proof. unfold digest_v. by intros ->. Qed.
Lemma digest_v_fits j : fits MAX_SAFE j = true -> digest_v j = Ok (digest j).
Proof. intros Hf. apply digest_v_ok. by apply jcs_ok. Qed.

Lemma py_eqb_str s : py_eqb (JStr s) (JStr s) = true.
Proof. simpl. apply str_eqb_refl. Qed.
Lemma py_eqb_int z : py_eqb (JInt z) (JInt z) = true.
Proof. simpl. apply Z.eqb_refl. Qed.

Lemma chain_loop_records chk rs : forall n prev,
  chain_from n prev rs = true -> canonical rs ->
  chain_loop chk n (JStr prev) (map record_json rs)
  = Ok (JStr (match last rs with Some r => r_hash r | None => prev end)).
Proof.
  induction rs as [|r rs IH]; intros n prev Hc Hj; [done|]. apply Forall_cons in Hj as [Hjr Hj].
  cbn [chain_from] in Hc. apply andb_true_iff in Hc as [Hl Hc].
  unfold link_ok in Hl. rewrite !andb_true_iff, !str_eqb_spec, bool_decide_eq_true in Hl.
  destruct Hl as [[[Hp Hs] Hv] Hh].
  cbn [map chain_loop]. unfold record_json at 1. cbn [items rbind].
  change (unhashed _) with (unhashed_json r).
  change (assoc "protocol" _) with (Some (JStr (r_protocol r))).
  change (assoc "seq" _) with (Some (JInt (Z.of_nat (r_seq r)))).
  change (assoc "prev" _) with (Some (JStr (r_prev r))).
  change (assoc "hash" _) with (Some (JStr (r_hash r))). cbv beta zeta iota.
  rewrite Hp, Hs, Hv, !py_eqb_str, py_eqb_int, (digest_v_ok (unhashed_json r) Hjr). cbn [negb rbind].
  fold (record_hash r). rewrite <- Hh, py_eqb_str. cbn [negb].
  change (item "hash" (record_json r)) with (@Ok verr _ (JStr (r_hash r))). cbn [rbind].
  rewrite IH by done. rewrite last_cons. by destruct (last rs).
Qed.

Lemma kind_str_binding k : (kind_str k ∈ BINDING) <-> BINDING_KINDS k = true.
Proof.
  destruct k; split; intros Hk; try done; try set_solver;
  apply (bool_decide_unpack _); try (vm_compute; exact I);
  exfalso; revert Hk; apply (bool_decide_unpack _); vm_compute; exact I.
Qed.

Lemma binding_kind_record iid r :
  binding_kind_of (JStr iid) (record_json r) =
  Ok (if decide (r_intent_id r = iid /\ BINDING_KINDS (r_kind r) = true)
    then Some (kind_str (r_kind r)) else None).
Proof.
  unfold binding_kind_of.
  change (item "intent_id" (record_json r)) with (@Ok verr _ (JStr (r_intent_id r))). cbn [rbind py_eqb].
  destruct (str_eqb (r_intent_id r) iid) eqn:E; cbn [negb].
  - apply str_eqb_spec in E.
  change (item "kind" (record_json r)) with (@Ok verr _ (JStr (kind_str (r_kind r)))). cbn [rbind].
  destruct (decide (r_intent_id r = iid /\ _)) as [[_ Hk]|Hn].
  + rewrite bool_decide_true; [done|]. by apply kind_str_binding.
  + rewrite bool_decide_false; [done|]. intros Hk. apply kind_str_binding in Hk. tauto.
  - apply str_eqb_neq in E. rewrite decide_False by tauto. done.
Qed.

Lemma mine_of_records iid rs :
  mine_of (JStr iid) (map record_json rs) =
  Ok (map (fun r => (kind_str (r_kind r), record_json r)) (binding rs iid)).
Proof.
  induction rs as [|r rs IH]; [done|]. cbn [map mine_of].
  rewrite binding_kind_record. cbn [rbind]. rewrite IH. cbn [rbind].
  unfold binding, for_intent. rewrite (filter_cons (fun r => r_intent_id r = iid)).
  destruct (decide (r_intent_id r = iid)) as [Hi|Hi].
  - rewrite (filter_cons (fun r => BINDING_KINDS _ = true)).
  destruct (decide (BINDING_KINDS (r_kind r) = true)) as [Hk|Hk].
  + by rewrite decide_True.
  + rewrite decide_False by tauto. done.
  - rewrite decide_False by tauto. done.
Qed.

Lemma any_mine_none iid rs :
  binding rs iid = [] -> any_mine (JStr iid) (map record_json rs) = Ok false.
Proof.
  induction rs as [|r rs IH]; [done|]. unfold binding, for_intent in *. intros Hb.
  cbn [map any_mine]. rewrite binding_kind_record. cbn [rbind].
  rewrite filter_cons in Hb. destruct (decide (r_intent_id r = iid)) as [Hi|Hi].
  - rewrite filter_cons in Hb. destruct (decide (BINDING_KINDS (r_kind r) = true)) as [Hk|Hk]; [done|].
  rewrite decide_False by tauto. auto.
  - rewrite decide_False by tauto. auto.
Qed.

Lemma any_other_hash_records ih rs :
  Forall (fun r => body_intent_hash (r_body r) = Some ih) rs ->
  any_other_hash ih (map record_json rs) = Ok false.
Proof.
  induction 1 as [|r rs Hr _ IH]; [done|]. cbn [map any_other_hash].
  change (item "body" (record_json r)) with (@Ok verr _ (body_json (r_body r))). cbn [rbind].
  assert (Hg : get "intent_hash" (body_json (r_body r)) = Ok (JStr ih)).
  { destruct (r_body r); simpl in Hr |- *; rewrite Hr; reflexivity. }
  rewrite Hg. cbn [rbind]. rewrite py_eqb_str. cbn [negb]. done.
Qed.

Lemma root_fits nsp g l :
  (0 <= g <= MAX_SAFE)%Z -> fits MAX_SAFE (root_json (JStr nsp) (JInt g) (map row_json l)) = true.
Proof.
  intros Hg. unfold root_json. cbn [fits forallb fst snd]. rewrite !andb_true_r, !andb_true_l.
  apply andb_true_iff. split; [apply Z.leb_le; lia|]. by induction l.
Qed.

(** Step 6 on the recorded [admitted_at]. *)
Definition admission_window (pb : prepared_body) (i : intent) : V unit :=
  let? adm := ts (JStr (pb_admitted_at pb)) in
  let? iss := ts (JStr (i_issued_at i)) in
  let? inside := (if (iss - CLOCK_SKEW <=? adm)%Z then
                  let? exp := ts (JStr (i_expires_at i)) in Ok (adm <? exp)%Z
                else Ok false) in
  raise_if (negb inside) (Reject "REJECTED_OUTSIDE_AUTHORITY_WINDOW" "authority_window").

(** ** The records of a finalized intent *)
Context (ns sid : string) (cfg : config).
Abbreviation TR := (trail ns sid (c_authority_keys cfg) (c_finalizer_sk cfg) (c_finalizer_kid cfg)).
Abbreviation INV := (Inv ns sid (c_authority_keys cfg) (c_finalizer_sk cfg) (c_finalizer_kid cfg)).

Lemma certificate_of_keys c1 c2 rs iid :
  c_finalizer_sk c1 = c_finalizer_sk c2 -> c_finalizer_kid c1 = c_finalizer_kid c2 ->
  certificate_of c1 rs iid = certificate_of c2 rs iid.
Proof. intros E1 E2. unfold certificate_of. by rewrite E1, E2. Qed.

Lemma trail_finalized_inv iid pb i rs :
  TR iid pb i rs PhFinalized ->
  exists p rest c f cb,
  rs = (p :: rest) ++ [c; f] /\ r_body p = BPrepared pb /\ r_kind c = COMMITTED
  /\ r_body c = BCommitted cb /\ good_cb ns sid iid pb i cb /\ good_pb ns sid (c_authority_keys cfg) iid pb i
  /\ r_kind f = FINALIZED /\ r_body f = BFinalized (pb_intent_hash pb) (cert_for cfg iid pb i cb p c)
  /\ Forall (fun r => r_kind r <> COMMITTED) (p :: rest)
  /\ Forall (fun r => body_intent_hash (r_body r) = pb_intent_hash pb) rs
  /\ kinds_of PhFinalized (map r_kind rs).
Proof.
  intros Ht. pose proof (trail_hashes _ _ _ _ _ _ _ _ _ _ Ht) as Hh.
  pose proof (trail_kinds _ _ _ _ _ _ _ _ _ _ Ht) as Hks.
  destruct (trail_head _ _ _ _ _ _ _ _ _ _ Ht) as (p0 & rest0 & _ & _ & _ & Hgp).
  inversion Ht as [| | | | |rs' f cfg' cert Ht' Hkf Hbf Hsk Hkid Hcert]; subst.
  destruct (trail_certificate ns sid cfg iid pb i rs' Ht')
  as (p & rest & c & cb & -> & Hpb & Hcb & Hkc & Hg & Hnc & Hc).
  assert (Happ : ((p :: rest) ++ [c]) ++ [f] = (p :: rest) ++ [c; f]) by (by rewrite <- app_assoc).
  rewrite Happ in *. exists p, rest, c, f, cb. split_and!; try done.
  rewrite Hbf. f_equal. rewrite (certificate_of_keys cfg' cfg) in Hcert by done. congruence.
Qed.

Lemma gets_item k j v : gets k j = Some v -> item k j = Ok (JStr v).
Proof. unfold gets, item. destruct (jget k j) as [[]|]; simpl; try done. by intros [= ->]. Qed.
Lemma geti_item k j v : geti k j = Some v -> item k j = Ok (JInt v).
Proof. unfold geti, item. destruct (jget k j) as [[]|]; simpl; try done. by intros [= ->]. Qed.
Lemma item_get k j v : item k j = Ok v -> get k j = Ok v.
Proof. unfold item, get, jget. destruct j; try done. by destruct (assoc k m) as [x|]. Qed.

(** The members of an admitted payload, as the verifier looks them up. *)
Lemma decode_items q i :
  decode_intent q = Some i ->
  item "protocol" q = Ok (JStr (i_protocol i)) /\ item "intent_id" q = Ok (JStr (i_intent_id i))
  /\ item "namespace" q = Ok (JStr (i_namespace i)) /\ item "op" q = Ok (JStr (i_op i))
  /\ item "key" q = Ok (JStr (i_key i)) /\ item "value" q = Ok (JStr (i_value i))
  /\ item "expected_generation" q = Ok (JInt (i_expected_generation i))
  /\ item "expected_root" q = Ok (JStr (i_expected_root i))
  /\ item "issued_at" q = Ok (JStr (i_issued_at i)) /\ item "expires_at" q = Ok (JStr (i_expires_at i))
  /\ item "authority_kid" q = Ok (JStr (i_authority_kid i)).
Proof.
  unfold decode_intent. intros Hd.
  repeat (apply bind_Some in Hd as (? & ? & Hd)). simplify_eq/=.
  split_and!; by (apply gets_item || apply geti_item).
Qed.

Lemma path_check_ok iid js f :
  kinds_of PhFinalized (map r_kind (binding js iid)) -> last js = Some f -> f ∈ binding js iid ->
  path_check (JStr iid) (map record_json js)
  = Ok (map (fun r => (kind_str (r_kind r), record_json r)) (binding js iid)).
Proof.
  intros Hk Hl Hf. unfold path_check. rewrite mine_of_records. cbn [rbind].
  assert (Hks : map fst (map (fun r => (kind_str (r_kind r), record_json r)) (binding js iid))
              = map kind_str (map r_kind (binding js iid))).
  { rewrite !map_map. done. }
  cbv zeta. rewrite Hks.
  assert (Hlast : last (map record_json js) = Some (record_json f)) by (by rewrite fmap_last, Hl).
  rewrite Hlast, binding_kind_record, decide_True.
  - destruct Hk as [-> | ->]; reflexivity.
  - unfold binding, for_intent in Hf. rewrite !list_elem_of_filter in Hf. tauto.
Qed.

Section finalized.
Context (iid : string) (pb : prepared_body) (i : intent) (q : json).
Hypothesis Hpay : jget "payload" (pb_signed_intent pb) = Some q.
Hypothesis Hdec : decode_intent q = Some i.
Hypothesis Hhash : pb_intent_hash pb = Some (digest q).
Hypothesis Hcanon : jcs_raises q = false.
Hypothesis Hgen : (0 <= pb_pre_generation pb /\ pb_pre_generation pb + 1 <= MAX_SAFE)%Z.
Hypothesis Hgood : good_pb ns sid (c_authority_keys cfg) iid pb i.

Lemma verify_signed_check s ring what :
  verify_signed s ring = true -> check_signed s ring what = Ok tt.
Proof.
  intros Hv. destruct (verify_signed_payload _ _ Hv) as (kid & pl & Hk & _ & _ & Hr).
  unfold check_signed. rewrite (item_get _ _ _ (gets_item _ _ _ Hk)). cbn [rbind].
  destruct Hr as [x ->]. by rewrite Hv.
Qed.

Lemma intent_checks_ok trust cert mine :
  t_authority_keys trust = c_authority_keys cfg ->
  verify_signed cert (t_finalizer_keys trust) = true ->
  Forall (fun r => body_intent_hash (r_body r) = pb_intent_hash pb) mine ->
  intent_checks trust (JStr iid) (body_json (BPrepared pb)) q (pb_signed_intent pb) cert
  (map record_json mine) = do? admission_window pb i in Ok (digest q).
Proof.
  intros Ht Hcert Hmine.
  destruct (decode_items q i Hdec) as (D1 & D2 & _ & _ & _ & _ & _ & _ & D9 & D10 & D11).
  destruct Hgood as (_ & Hid & Hv & Hkid & Hpr & _).
  unfold intent_checks. rewrite (verify_signed_check _ _ _) by (by rewrite Ht). cbn [rbind].
  rewrite D11. cbn [rbind]. rewrite (gets_item _ _ _ Hkid). cbn [rbind].
  rewrite py_eqb_str. cbn [negb raise_if rbind].
  rewrite (item_get _ _ _ D1), Hpr. cbn [rbind]. rewrite py_eqb_str. cbn [negb raise_if rbind].
  rewrite (verify_signed_check _ _ _ Hcert). cbn [rbind]. rewrite (digest_v_ok q Hcanon). cbn [rbind].
  rewrite D2, Hid. cbn [rbind]. rewrite py_eqb_str. cbn [negb].
  rewrite any_other_hash_records by (by rewrite <- Hhash). cbn [rbind raise_if].
  change (item "admission" _) with (@Ok verr _ (JObj [("authority_kid", JStr (pb_admitted_kid pb));
  ("admitted_at", JStr (pb_admitted_at pb)); ("checks", JArr (map JStr (pb_checks pb)))])). cbn [rbind].
  change (item "admitted_at" _) with (@Ok verr _ (JStr (pb_admitted_at pb))). cbn [rbind].
  unfold admission_window. destruct (ts (JStr (pb_admitted_at pb))) as [adm|]; [|done]. cbn [rbind].
  rewrite D9. cbn [rbind]. destruct (ts (JStr (i_issued_at i))) as [iss|]; [|done]. cbn [rbind].
  rewrite D10. cbn [rbind]. destruct (if (iss - CLOCK_SKEW <=? adm)%Z then _ else _) as [inside|]; [|done].
  by destruct inside.
Qed.

Context (cb : committed_body).
Hypothesis Hcb : good_cb ns sid iid pb i cb.

Lemma state_checks_ok :
  state_checks q (body_json (BPrepared pb)) (body_json (BCommitted cb)) = Ok tt.
Proof.
  destruct (decode_items q i Hdec) as (_ & _ & D3 & _ & _ & _ & D7 & D8 & _).
  destruct Hgood as (_ & _ & _ & _ & _ & _ & Hns & Hpg & Hpr & Hroot & _).
  destruct Hcb as (_ & Cg & Ce & Cr & _).
  unfold state_checks. rewrite D3. cbn [rbind].
  change (item "pre_generation" _) with (@Ok verr _ (JInt (pb_pre_generation pb))). cbn [rbind].
  change (item "pre_entries" _) with (@Ok verr _ (entries_json (pb_pre_entries pb))). cbn [rbind].
  unfold state_root_v. rewrite !sorted_v_rows. cbn [rbind]. rewrite digest_v_fits by (apply root_fits; lia). cbn [rbind].
  change (item "pre_root" _) with (@Ok verr _ (JStr (pb_pre_root pb))). cbn [rbind].
  change (digest (root_json _ _ _)) with
  (state_root (i_namespace i) (pb_pre_generation pb) (pb_pre_entries pb)).
  rewrite Hns, <- Hroot, py_eqb_str. cbn [negb raise_if rbind].
  rewrite D8. cbn [rbind]. rewrite Hpr, py_eqb_str. cbn [negb raise_if rbind].
  change (item "post_generation" _) with (@Ok verr _ (JInt (cb_post_generation cb))). cbn [rbind].
  change (item "post_entries" _) with (@Ok verr _ (entries_json (cb_post_entries cb))). cbn [rbind].
  rewrite sorted_v_rows. cbn [rbind]. rewrite digest_v_fits by (apply root_fits; lia). cbn [rbind].
  change (item "post_root" _) with (@Ok verr _ (JStr (cb_post_root cb))). cbn [rbind].
  change (digest (root_json _ _ _)) with (state_root ns (cb_post_generation cb) (cb_post_entries cb)).
  rewrite Cr, Ce, Cg, py_eqb_str. cbn [negb raise_if rbind].
  rewrite D7. cbn [rbind]. rewrite <- Hpg, py_eqb_int. cbn [negb raise_if rbind].
  cbn [py_succ rbind]. by rewrite py_eqb_int.
Qed.

Lemma payload_check_ok :
  payload_check (JStr iid) q (body_json (BPrepared pb)) (body_json (BCommitted cb)) (digest q)
  = Ok (payload_commitment (i_op i) (i_key i) (i_value i)).
Proof.
  destruct (decode_items q i Hdec) as (_ & _ & _ & D4 & D5 & D6 & _).
  destruct Hgood as (_ & _ & _ & _ & _ & Hop & _ & _ & _ & _ & Hpc & _).
  destruct Hcb as (_ & Cg & Ce & Cr & (Rh & Ri & Rg & Rr) & _).
  unfold payload_check. rewrite D4, D5, D6. cbn [rbind]. rewrite digest_v_fits by done. cbn [rbind].
  change (item "pre_entries" _) with (@Ok verr _ (entries_json (pb_pre_entries pb))). cbn [rbind].
  rewrite expected_post_rows. cbn [rbind].
  change (item "applied_row" _) with (@Ok verr _ (applied_json (cb_applied_row cb))). cbn [rbind].
  rewrite Hop. change (py_eqb (JStr "UPSERT") (JStr "UPSERT")) with true. cbn [negb raise_if rbind].
  change (item "payload_commitment" _) with (@Ok verr _ (JStr (pb_payload_commitment pb))). cbn [rbind].
  change (digest (payload_json _ _ _)) with (payload_commitment "UPSERT" (i_key i) (i_value i)).
  rewrite Hpc, Hop, py_eqb_str. cbn [negb raise_if rbind].
  change (item "post_entries" _) with (@Ok verr _ (entries_json (cb_post_entries cb))). cbn [rbind].
  rewrite sorted_v_rows. cbn [rbind]. rewrite py_eqb_rows, Ce, bool_decide_true
    by (unfold post_entries, expected_entries; apply sorted_rows_idem). cbn [negb raise_if rbind].
  change (item "post_generation" _) with (@Ok verr _ (JInt (cb_post_generation cb))). cbn [rbind].
  change (item "post_root" _) with (@Ok verr _ (JStr (cb_post_root cb))). cbn [rbind].
  assert (Ea : JObj [("intent_id", JStr iid); ("intent_hash", JStr (digest q));
               ("generation", JInt (cb_post_generation cb)); ("post_root", JStr (cb_post_root cb))]
         = applied_json (cb_applied_row cb)).
  { unfold applied_json. rewrite Ri, Rg, Rr, Cg, Cr. rewrite Hhash in Rh. injection Rh as ->. reflexivity. }
  rewrite Ea, py_eqb_refl; [done|]. reflexivity.
Qed.

Context (p c : record).
Hypothesis Hcbody : r_body c = BCommitted cb.
Hypothesis Hpbody : r_body p = BPrepared pb.
Let cert : signed cert_payload := cert_for cfg iid pb i cb p c.

Lemma want_json_ok :
  want_json (JStr iid) q (body_json (BPrepared pb)) (body_json (BCommitted cb)) (record_json p)
  (record_json c) (cert_json cert) (digest q) (payload_commitment (i_op i) (i_key i) (i_value i))
  = Ok (cert_payload_json (sg_payload cert)).
Proof.
  destruct (decode_items q i Hdec) as (_ & _ & D3 & _ & _ & _ & D7 & _ & _ & _ & D11).
  destruct Hgood as (_ & _ & _ & _ & _ & _ & _ & _ & _ & _ & Hpc & _).
  unfold want_json. rewrite D3, D11, D7. cbn [rbind].
  change (item "pre_root" _) with (@Ok verr _ (JStr (pb_pre_root pb))). cbn [rbind].
  change (item "post_generation" _) with (@Ok verr _ (JInt (cb_post_generation cb))). cbn [rbind].
  change (item "post_root" _) with (@Ok verr _ (JStr (cb_post_root cb))). cbn [rbind].
  change (item "physical" _) with (@Ok verr _ (JObj (physical_members (cb_physical cb)))). cbn [rbind items].
  change (item "applied_row" _) with (@Ok verr _ (applied_json (cb_applied_row cb))). cbn [rbind].
  change (item "seq" (record_json p)) with (@Ok verr _ (JInt (Z.of_nat (r_seq p)))).
  change (item "hash" (record_json p)) with (@Ok verr _ (JStr (r_hash p))).
  change (item "seq" (record_json c)) with (@Ok verr _ (JInt (Z.of_nat (r_seq c)))).
  change (item "hash" (record_json c)) with (@Ok verr _ (JStr (r_hash c))).
  change (item "at" (record_json c)) with (@Ok verr _ (JStr (r_at c))).
  change (item "kid" (cert_json cert)) with (@Ok verr _ (JStr (c_finalizer_kid cfg))). cbn [rbind].
  f_equal. unfold cert, cert_for, sign, sg_payload, cert_payload_json. cbn.
  rewrite Hhash, Hpc. reflexivity.
Qed.

Lemma cert_nice : jnice (cert_payload_json (sg_payload cert)) = true.
Proof. unfold cert, cert_for, sign. cbn [sg_payload]. rewrite Hhash. reflexivity. Qed.

Hypothesis Hseqs : (Z.of_nat (r_seq p) <= MAX_SAFE /\ Z.of_nat (r_seq c) <= MAX_SAFE)%Z.

Lemma receipt_check_ok f d :
  r_body f = BFinalized (pb_intent_hash pb) cert -> d = digest (cert_json cert) ->
  receipt_check (cert_payload_json (sg_payload cert)) (record_json f) (cert_json cert)
  (JObj [("certificate", cert_json cert); ("certificate_digest", JStr d)]) = Ok tt.
Proof.
  intros Hf ->. unfold receipt_check.
  change (item "body" (record_json f)) with (@Ok verr _ (body_json (r_body f))). rewrite Hf. cbn [rbind].
  change (item "certificate" _) with (@Ok verr _ (cert_json cert)). cbn [rbind].
  rewrite py_eqb_refl.
  2:{ unfold cert_json, signed_json. pose proof cert_nice as Hn.
  cbn [jnice map fst]. rewrite Hn. reflexivity. }
  cbn [negb raise_if rbind].
  change (item "certificate_digest" _) with (@Ok verr _ (JStr (digest (cert_json cert)))). cbn [rbind].
  rewrite digest_v_fits by (apply (cert_fits ns sid); tauto). cbn [rbind]. rewrite py_eqb_str.
  cbn [negb raise_if rbind]. change (item "payload" _) with (@Ok verr _ (cert_payload_json (sg_payload cert))). cbn [rbind].
  by rewrite py_eqb_refl by apply cert_nice.
Qed.
End finalized.

(** ** The whole bundle *)

Lemma filter_snoc_split {A} (P : A -> Prop) `{!forall x, Decision (P x)} (l0 l : list A) f :
  filter P l0 = l ++ [f] ->
  exists l1 l2, l0 = l1 ++ f :: l2 /\ filter P l1 = l /\ filter P l2 = [].
Proof.
  revert l. induction l0 as [|x l0 IH] using rev_ind; intros l Hf.
  { destruct l; simplify_eq/=. }
  rewrite filter_app, filter_cons, filter_nil in Hf. case_decide as Hx.
  - apply app_inj_tail in Hf as [Hf ->]. by exists l0, [].
  - rewrite app_nil_r in Hf. destruct (IH l Hf) as (l1 & l2 & -> & H1 & H2).
  exists l1, (l2 ++ [x]). rewrite <- app_assoc. split_and!; try done.
  rewrite filter_app, H2, filter_cons, filter_nil. by rewrite decide_False.
Qed.

Lemma binding_filter js iid :
  binding js iid = filter (fun r => BINDING_KINDS (r_kind r) = true /\ r_intent_id r = iid) js.
Proof. unfold binding, for_intent. apply list_filter_filter. Qed.

(** The journal up to an intent's last binding record. *)
Lemma binding_prefix js iid l f :
  chain_ok js = true -> binding js iid = l ++ [f] ->
  exists tail, js = take (r_seq f + 1) js ++ tail /\ last (take (r_seq f + 1) js) = Some f
  /\ binding (take (r_seq f + 1) js) iid = l ++ [f] /\ binding tail iid = []
  /\ chain_ok (take (r_seq f + 1) js) = true.
Proof.
  intros Hc Hb. rewrite binding_filter in Hb.
  destruct (filter_snoc_split _ _ _ _ Hb) as (l1 & l2 & -> & H1 & H2).
  assert (Hs : r_seq f = length l1).
  { eapply chain_seq; [exact Hc|]. by rewrite list_lookup_middle. }
  assert (Ht : take (r_seq f + 1) (l1 ++ f :: l2) = l1 ++ [f]).
  { rewrite Hs, take_app_add. done. }
  rewrite Ht. exists l2. rewrite <- app_assoc, last_snoc. split_and!; try done.
  - rewrite binding_filter, filter_app, H1. f_equal.
  rewrite filter_app, H1 in Hb. apply app_inv_head in Hb.
  rewrite filter_cons, H2 in Hb. by rewrite filter_cons, filter_nil.
  - by rewrite binding_filter.
  - apply (chain_prefix _ l2). by rewrite <- app_assoc.
Qed.

Lemma the_committed_ok p rest c f :
  Forall (fun r => r_kind r <> COMMITTED) (p :: rest) -> r_kind c = COMMITTED ->
  the_committed (map (fun r => (kind_str (r_kind r), record_json r)) ((p :: rest) ++ [c; f]))
  = Ok (record_json c).
Proof.
  intros Hn Hc. unfold the_committed. rewrite map_app, list_find_app_r.
  - simpl. rewrite Hc. done.
  - apply list_find_None, Forall_map. eapply Forall_impl; [exact Hn|].
  intros r Hr. simpl. intros E. apply Hr. destruct (r_kind r); done.
Qed.

Definition trusts (trust : trust_store) : Prop :=
  t_authority_keys trust = c_authority_keys cfg /\
  c_finalizer_kid cfg = key_id (public_raw (c_finalizer_sk cfg)) /\
  t_finalizer_keys trust !! c_finalizer_kid cfg = Some (b64u (public_raw (c_finalizer_sk cfg))).

(** Signatures made with a key verify under its public part. *)
Hypothesis ed_correct : forall sk m, ed_verify (ed_public_raw sk) (ed_sign sk m) m = true.

Lemma verify_ok js iid pb i trust p rest c f cb tail :
  chain_ok js = true -> binding js iid = (p :: rest) ++ [c; f] -> trusts trust ->
  TR iid pb i (binding js iid) PhFinalized -> r_body p = BPrepared pb -> r_body c = BCommitted cb ->
  r_kind c = COMMITTED -> r_body f = BFinalized (pb_intent_hash pb) (cert_for cfg iid pb i cb p c) ->
  good_cb ns sid iid pb i cb -> good_pb ns sid (c_authority_keys cfg) iid pb i ->
  Forall (fun r => r_kind r <> COMMITTED) (p :: rest) -> last js = Some f ->
  canonical js -> (Z.of_nat (length js) <= MAX_SAFE)%Z ->
  (0 <= pb_pre_generation pb /\ pb_pre_generation pb + 1 <= MAX_SAFE)%Z ->
  verify_ (JObj ([("protocol", JStr BUNDLE_PROTOCOL); ("intent_id", JStr iid);
                ("journal", JArr (map record_json js));
                ("receipt", JObj [("certificate", cert_json (cert_for cfg iid pb i cb p c));
                   ("certificate_digest", JStr (digest (cert_json (cert_for cfg iid pb i cb p c))))])]
               ++ tail)) trust = admission_window pb i.
Proof.
  intros Hc Hb (T1 & T2 & T3) Ht Hp Hcb Hkc Hf Hgc Hgp Hnc Hl Hcan Hlen Hgen.
  pose proof (trail_hashes _ _ _ _ _ _ _ _ _ _ Ht) as Hh.
  pose proof (trail_kinds _ _ _ _ _ _ _ _ _ _ Ht) as Hk.
  pose proof Hgp as [(q & Hq & Hd & Hqh & Hqj) _].
  assert (Hseq : forall r, r ∈ binding js iid -> (Z.of_nat (r_seq r) <= MAX_SAFE)%Z).
  { intros r Hr. apply binding_elem in Hr as [Hr _]. apply list_elem_of_lookup in Hr as [n Hn].
  rewrite (chain_seq _ _ _ Hc Hn). apply lookup_lt_Some in Hn. lia. }
  assert (Hsp : (Z.of_nat (r_seq p) <= MAX_SAFE /\ Z.of_nat (r_seq c) <= MAX_SAFE)%Z)
    by (split; apply Hseq; rewrite Hb; set_solver).
  assert (Hlast : last (map (fun r => (kind_str (r_kind r), record_json r)) ((p :: rest) ++ [c; f]))
          = Some (kind_str (r_kind f), record_json f)).
  { rewrite fmap_last. change [c; f] with ([c] ++ [f]). rewrite app_assoc, last_snoc. done. }
  assert (Hit : item "payload" (pb_signed_intent pb) = Ok q) by (unfold item; by rewrite Hq).
  assert (Hmine : map record_json (binding js iid) =
  map snd (map (fun r => (kind_str (r_kind r), record_json r)) (binding js iid))) by (by rewrite map_map).
  assert (Hv : verify_signed (cert_json (cert_for cfg iid pb i cb p c)) (t_finalizer_keys trust) = true).
  { pose proof (cert_fits ns sid cfg MAX_SAFE iid pb i p c cb Hgp Hgc Hgen (proj1 Hsp) (proj2 Hsp)) as Hfit.
  unfold cert_for, cert_json, sign in *. rewrite T2 in Hfit |- *. apply verify_signed_sign; [done| |by rewrite <- T2].
  apply jcs_ok. cbn [signed_json fits forallb fst snd sg_payload] in Hfit. rewrite !andb_true_r in Hfit. exact Hfit. }
  unfold verify_. vstep_to (JStr BUNDLE_PROTOCOL). vstep_to tt. vstep_to (JStr iid).
  vstep_to (JArr (map record_json js)).
  vstep_to (JObj [("certificate", cert_json (cert_for cfg iid pb i cb p c));
                ("certificate_digest", JStr (digest (cert_json (cert_for cfg iid pb i cb p c))))]).
  vstep_to (cert_json (cert_for cfg iid pb i cb p c)).
  destruct js as [|r0 js0]; [done|]. cbn [the_list map].
  change (record_json r0 :: map record_json js0) with (map record_json (r0 :: js0)).
  vstep; [exact (chain_loop_records _ _ 0 GENESIS Hc Hcan)|].
  vstep; [apply (path_check_ok iid (r0 :: js0) f Hk Hl); rewrite Hb; set_solver|].
  rewrite <- Hmine, Hb.
  vstep_to (record_json p). vstep; [by apply the_committed_ok|].
  rewrite Hlast. vstep_to (record_json f).
  vstep_to (body_json (r_body p)). vstep_to (body_json (r_body c)). rewrite Hp, Hcb.
  vstep_to (pb_signed_intent pb). vstep; [exact Hit|].
  rewrite Hb in Hh. rewrite (intent_checks_ok iid pb i q) by done.
  destruct (admission_window pb i) as [[]|e]; [|done]. cbn [rbind].
  rstep; [by apply (state_checks_ok iid pb i q)|].
  rstep; [by apply (payload_check_ok iid pb i q)|].
  rstep; [by apply (want_json_ok iid pb i q)|].
  by apply (receipt_check_ok iid pb i q Hqh).
Qed.

(** ** Export *)

Lemma finals_of_binding js iid p rest c f :
  binding js iid = (p :: rest) ++ [c; f] -> kinds_of PhFinalized (map r_kind (binding js iid)) ->
  filter (fun r => r_kind r = FINALIZED) (for_intent js iid) = [f].
Proof.
  intros Hb Hk. rewrite finalized_binding.
  assert (Hlen : length (filter (fun r => r_kind r = FINALIZED) (binding js iid)) = 1).
  { rewrite filter_kind_length. by destruct Hk as [-> | ->]. }
  assert (Hf : f ∈ filter (fun r => r_kind r = FINALIZED) (binding js iid)).
  { apply list_elem_of_filter. split; [|rewrite Hb; set_solver].
  assert (Hl : last (map r_kind (binding js iid)) = Some FINALIZED) by (by destruct Hk as [-> | ->]).
  rewrite fmap_last, Hb in Hl. change [c; f] with ([c] ++ [f]) in Hl.
  rewrite app_assoc, last_snoc in Hl. by injection Hl. }
  destruct (filter _ (binding js iid)) as [|x [|y l]]; try done.
  by apply list_elem_of_singleton in Hf as ->.
Qed.

(** A checkpoint of [js] at [seq], as an honest witness signs it. *)
Definition checkpoint_of (js : list record) (cp : signed checkpoint) : Prop :=
  let c := sg_payload cp in
  cp_protocol c = CHECKPOINT_PROTOCOL
  /\ (exists r0, js !! 0 = Some r0 /\ cp_genesis_hash c = r_hash r0)
  /\ (exists r, js !! cp_seq c = Some r /\ cp_head_hash c = r_hash r).

Lemma verify_witness_ok iid pre suffix last_pre cp ring receipt trust :
  chain_ok (pre ++ suffix) = true -> canonical suffix -> binding suffix iid = [] -> last pre = Some last_pre ->
  t_witness_keys trust = ring -> verify_signed (signed_json checkpoint_json cp) ring = true ->
  checkpoint_of (pre ++ suffix) cp -> S (cp_seq (sg_payload cp)) = length (pre ++ suffix) ->
  verify_witness (bundle_json (mk_bundle BUNDLE_PROTOCOL iid pre receipt (Some (mk_witness_part cp suffix))))
  trust = Ok "W1".
Proof.
  intros Hc Hcan Hb Hl Hr Hv (Cp & (r0 & R0 & Cg) & (r & R & Ch)) Hlen.
  unfold verify_witness, bundle_json. change (negb (has_key _ _)) with false. cbv iota.
  rstep_to (JObj [("checkpoint", signed_json checkpoint_json cp);
                ("journal_suffix", JArr (map record_json suffix))]).
  rstep_to (signed_json checkpoint_json cp). rstep_to (JArr (map record_json suffix)).
  rstep; [by apply (verify_signed_check); rewrite Hr|].
  rstep_to (JArr (map record_json pre)). cbn [the_list bd_journal].
  rewrite fmap_last, Hl. cbn [fmap option_fmap option_map].
  rstep_to (JStr (r_hash last_pre)).
  rewrite length_map. unfold chain_ok in Hc. rewrite chain_from_app, Hl in Hc.
  apply andb_true_iff in Hc as [_ Hc].
  rstep; [exact (chain_loop_records _ _ _ _ Hc Hcan)|].
  rstep_to (JStr iid). rstep; [by apply any_mine_none|]. rstep_to tt.
  rstep_to (checkpoint_json (sg_payload cp)).
  rstep_to (JStr (cp_protocol (sg_payload cp))). rewrite Cp. rstep_to tt.
  rstep_to (JInt (Z.of_nat (cp_seq (sg_payload cp)))).
  rewrite <- map_app.
  assert (Hz : (Z.of_nat (length (map record_json (pre ++ suffix))) - 1)%Z
             = Z.of_nat (cp_seq (sg_payload cp))) by (rewrite length_map; lia).
  rewrite Hz, py_eqb_int. rstep_to tt.
  rstep_to (JStr (cp_head_hash (sg_payload cp))).
  assert (Hlast : last (pre ++ suffix) = Some r).
  { rewrite last_lookup, <- Hlen. exact R. }
  rewrite fmap_last, Hlast. cbn [fmap option_fmap option_map].
  rstep_to (JStr (r_hash r)). rewrite Ch, py_eqb_str. rstep_to tt.
  rstep_to (JStr (cp_genesis_hash (sg_payload cp))).
  destruct (pre ++ suffix) as [|x l]; [done|]. injection R0 as ->. cbn [map].
  rstep_to (JStr (r_hash r0)). rewrite Cg, py_eqb_str. rstep_to tt. done.
Qed.

Lemma slice_prefix {A} (js tail : list A) n m :
  n <= m -> m < length js -> js = take (n + 1) js ++ tail ->
  take (n + 1) js ++ slice (n + 1) (m + 1) js = take (m + 1) js
  /\ exists more, tail = slice (n + 1) (m + 1) js ++ more.
Proof.
  intros Hnm Hm Hjs. assert (Hd : drop (n + 1) js = tail).
  { rewrite <- (take_drop (n + 1) js) in Hjs at 1. by apply app_inv_head in Hjs. }
  unfold slice. rewrite Hd. split.
  - rewrite <- Hd. replace (m + 1 - (n + 1)) with (m - n) by lia.
  replace (m + 1) with ((n + 1) + (m - n)) by lia. by rewrite take_take_drop.
  - exists (drop (m + 1 - (n + 1)) tail). by rewrite take_drop.
Qed.

(** Step 6 for a bound intent of a journal. *)
Definition window_of (js : list record) (iid : string) : V unit :=
  match binding js iid, intent_of js iid with
  | r :: _, Some i => match r_body r with BPrepared pb => admission_window pb i | _ => Err PyErr end
  | _, _ => Err PyErr
  end.

(** The verdict on a bundle whose only open question is step 6. *)
Definition window_verdict (window : V unit) (profile : string) : verdict :=
  match window with
  | Ok _ => mk_verdict "VALID_FINALIZED" "" profile
  | Err (Reject v c) => mk_verdict v c ""
  | Err PyErr => mk_verdict "REJECTED_INCOMPLETE_BUNDLE" "structure" ""
  end.

Lemma export_verifies s js act iid trust ocp :
  INV s js act -> canonical js -> (Z.of_nat (length js) <= MAX_SAFE)%Z ->
  (Z.of_nat (length (st_applied s)) <= MAX_SAFE)%Z ->
  state_of js iid = Some FINALIZED -> trusts trust ->
  match ocp with
  | None => True
  | Some cp => checkpoint_of js cp /\
    verify_signed (signed_json checkpoint_json cp) (t_witness_keys trust) = true /\
    (forall f, f ∈ binding js iid -> (r_seq f <= cp_seq (sg_payload cp))%nat)
  end ->
  exists b, export_bundle js iid ocp = Some b /\
  verify_bundle (bundle_json b) trust (if ocp is Some _ then true else false)
  = window_verdict (window_of js iid) (if ocp is Some _ then "W1" else "L1").
Proof.
  intros HI Hcan Hnj Hna Hst Htr Hcp.
  pose proof (inv_chain _ _ _ _ _ _ _ _ HI) as Hc.
  destruct (inv_status _ _ _ _ _ _ _ _ HI iid) as [[Hn _]|(pb & i & ph & Ht & Hcons & _)].
  { unfold state_of in Hst. by rewrite Hn in Hst. }
  pose proof (trail_kinds _ _ _ _ _ _ _ _ _ _ Ht) as Hk.
  assert (ph = PhFinalized) as ->.
  { destruct (kinds_of_state _ _ Hk) as (st & Hst' & _ & Hf & _). apply Hf.
  unfold state_of in Hst. congruence. }
  pose proof (intent_of_trail _ _ _ _ _ js iid pb i _ _ eq_refl Ht) as Hi.
  destruct (trail_finalized_inv iid pb i _ Ht)
  as (p & rest & c & f & cb & Hb & Hp & Hkc & Hcb & Hgc & Hgp & Hkf & Hf & Hnc & _ & _).
  assert (Hwin : window_of js iid = admission_window pb i).
  { unfold window_of. rewrite Hi, Hb. cbn [app]. by rewrite Hp. }
  destruct Hcons as (a & Ha & Hrow). pose proof (row_generation ns sid cfg _ _ _ _ _ _ _ HI Ha Hrow) as Hgen.
  assert (Hsplit : binding js iid = ((p :: rest) ++ [c]) ++ [f]) by (by rewrite <- app_assoc).
  destruct (binding_prefix js iid _ f Hc Hsplit) as (tail & Hjs & Hl & Hbp & Hbt & Hcp').
  rewrite <- Hsplit in Hbp.
  pose proof (finals_of_binding js iid p rest c f Hb Hk) as Hfin.
  set (pre := take (r_seq f + 1) js) in *.
  assert (Hver : forall tl, verify_ (JObj ([("protocol", JStr BUNDLE_PROTOCOL); ("intent_id", JStr iid);
                ("journal", JArr (map record_json pre));
                ("receipt", JObj [("certificate", cert_json (cert_for cfg iid pb i cb p c));
                   ("certificate_digest", JStr (digest (cert_json (cert_for cfg iid pb i cb p c))))])]
               ++ tl)) trust = window_of js iid).
  { intros tl. rewrite Hwin. apply (verify_ok pre iid pb i trust p rest c f cb tl); try done; try by rewrite Hbp.
  - by apply Forall_take.
  - unfold pre. rewrite length_take. lia.
  - lia. }
  unfold export_bundle. rewrite Hfin, Hf. fold pre.
  destruct ocp as [cp|].
  - destruct Hcp as (Hck & Hvs & Hcov).
  assert (Hle : (r_seq f <= cp_seq (sg_payload cp))%nat) by (apply Hcov; rewrite Hb; set_solver).
  pose proof Hck as (_ & _ & (rh & Hrh & _)). apply lookup_lt_Some in Hrh.
  destruct (slice_prefix js tail (r_seq f) (cp_seq (sg_payload cp)) Hle Hrh Hjs) as [Hsl (more & Hmore)].
  cbv zeta. destruct (Nat.leb_spec (r_seq f) (cp_seq (sg_payload cp))) as [_|?]; [|lia].
  destruct (Nat.ltb_spec (cp_seq (sg_payload cp)) (length js)) as [_|?]; [|lia]. cbn [andb].
  eexists. split; [reflexivity|].
  set (suf := slice _ _ js) in *. unfold verify_bundle.
  assert (Hpre : pre ++ suf = take (cp_seq (sg_payload cp) + 1) js) by exact Hsl.
  assert (Hbs : binding suf iid = []).
  { rewrite Hmore in Hbt. unfold binding, for_intent in *. rewrite !filter_app in Hbt.
    by apply app_eq_nil in Hbt as [? _]. }
  rewrite (verify_witness_ok iid pre suf f cp (t_witness_keys trust) _ trust); try done.
  + unfold bundle_json. rewrite Hver. by destruct (window_of js iid) as [[]|[]].
  + rewrite Hpre. apply (chain_prefix _ (drop (cp_seq (sg_payload cp) + 1) js)). by rewrite take_drop.
  + unfold suf, slice. by apply Forall_take, Forall_drop.
  + rewrite Hpre. destruct Hck as (K1 & (x & K2 & K3) & (y & K4 & K5)). split_and!; try done.
    * exists x. split; [|done]. rewrite lookup_take_lt by lia. done.
    * exists y. split; [|done]. rewrite lookup_take_lt by lia. done.
  + rewrite Hpre, length_take. lia.
  - eexists. split; [reflexivity|]. unfold verify_bundle, bundle_json. rewrite Hver.
  by destruct (window_of js iid) as [[]|[]].
Qed.
End completeness.
