(* ===== verification/VerifySound.v ===== *)
(** * What acceptance by the verifier means

    From an accepting run on arbitrary JSON, the facts about signatures,
    state roots and the applied UPSERT that a relying party uses. *)

From Stdlib Require Import ZArith Lia String.
From stdpp Require Import base gmap strings list.
From S2P Require Import Prelude Canon VdbStates Journal StateAdapter Coordinator Verify.

Section soundness.
Context `{Ext}.

Lemma py_eqb_JStr j s : py_eqb j (JStr s) = true -> j = JStr s.
Proof. destruct j; simpl; try done. by intros ->%str_eqb_spec. Qed.
Lemma py_eqb_JStr_l j s : py_eqb (JStr s) j = true -> j = JStr s.
Proof. destruct j; simpl; try done. by intros ->%str_eqb_spec. Qed.

Lemma digest_v_Ok j d : digest_v j = Ok d -> d = digest j /\ jcs_raises j = false.
Proof. unfold digest_v. destruct (jcs_raises j); [done|]. by intros [= <-]. Qed.

Lemma check_signed_Ok s ring what u : check_signed s ring what = Ok u -> verify_signed s ring = true.
Proof.
  unfold check_signed. intros Hc. res_inv Hc. destruct v; try done.
  destruct (ring !! s0); [|done]. apply raise_if_Ok in Hc. by apply negb_false_iff in Hc.
Qed.

Lemma any_other_hash_false ih mine :
  any_other_hash ih mine = Ok false ->
  Forall (fun r => exists b, item "body" r = Ok b /\ get "intent_hash" b = Ok (JStr ih)) mine.
Proof.
  induction mine as [|r mine IH]; [constructor|]. cbn [any_other_hash]. intros Ha.
  res_inv Ha. destruct (py_eqb v0 (JStr ih)) eqn:Eq; [|done]. constructor; [|by apply IH].
  apply py_eqb_JStr in Eq as ->. eauto.
Qed.

(** The binding records of an accepted bundle. *)
Lemma path_check_Ok iid journal mine :
  path_check iid journal = Ok mine ->
  mine_of iid journal = Ok mine /\ map fst mine ∈ LEGAL_FINAL_PATHS.
Proof.
  unfold path_check. intros Hp. res_inv Hp. injection Hp as <-.
  split; [done|]. apply negb_false_iff in E1. by apply bool_decide_eq_true in E1.
Qed.

Lemma state_checks_Ok q pb cb u :
  state_checks q pb cb = Ok u ->
  exists ns g g' gs pre_entries pre post_entries post,
  item "namespace" q = Ok ns /\ item "post_generation" cb = Ok g'
  /\ py_succ g = Ok gs /\ py_eqb g' gs = true
  /\ item "pre_entries" pb = Ok pre_entries /\ sorted_v pre_entries = Ok pre
  /\ item "expected_root" q = Ok (JStr (digest (root_json ns g pre)))
  /\ item "post_entries" cb = Ok post_entries /\ sorted_v post_entries = Ok post
  /\ item "post_root" cb = Ok (JStr (digest (root_json ns g' post))).
Proof.
  unfold state_checks, state_root_v. intros Hs.
  res_inv Hs. apply raise_if_Ok in Hs. repeat match goal with E : negb _ = false |- _ => apply negb_false_iff in E end.
  repeat match goal with E : py_eqb (JStr _) _ = true |- _ => apply py_eqb_JStr_l in E; subst end.
  repeat match goal with E : rbind (sorted_v _) _ = Ok _ |- _ =>
    apply rbind_Ok in E as (? & ? & E); apply digest_v_Ok in E as [-> _] end.
  eexists _, _, _, _, _, _, _, _. split_and!; eassumption.
Qed.

Lemma payload_check_Ok iid q pb cb ih cm :
  payload_check iid q pb cb ih = Ok cm ->
  exists key value pre_entries expected post_entries post,
  item "op" q = Ok (JStr "UPSERT") /\ item "key" q = Ok key /\ item "value" q = Ok value
  /\ item "pre_entries" pb = Ok pre_entries /\ expected_post pre_entries key value = Ok expected
  /\ item "post_entries" cb = Ok post_entries /\ sorted_v post_entries = Ok post
  /\ py_eqb (JArr post) (JArr expected) = true.
Proof.
  unfold payload_check. intros Hp. res_inv Hp.
  repeat match goal with
  | E : negb _ = false |- _ => apply negb_false_iff in E
  | E : py_eqb _ (JStr _) = true |- _ => apply py_eqb_JStr in E; subst
  end.
  eexists _, _, _, _, _, _. split_and!; eassumption.
Qed.

(** ** Rejections never carry the accepting verdict *)

Definition rejecting {A} (m : V A) : Prop :=
  forall v c, m = Err (Reject v c) -> String.prefix "REJECTED" v = true.

Lemma rejecting_Ok {A} (a : A) : rejecting (Ok a).
Proof. done. Qed.
Lemma rejecting_PyErr {A} : rejecting (@Err _ A PyErr).
Proof. done. Qed.
Lemma rejecting_bind {A B} (m : V A) (k : A -> V B) :
  rejecting m -> (forall a, rejecting (k a)) -> rejecting (rbind m k).
Proof. intros Hm Hk v c. destruct m as [a|e]; simpl; [apply Hk|]. intros [= ->]. by eapply Hm. Qed.
Lemma rejecting_raise b v c : String.prefix "REJECTED" v = true -> rejecting (raise_if b (Reject v c)).
Proof. intros Hv v' c'. destruct b; [|done]. by intros [= <- <-]. Qed.
Lemma rejecting_Err {A} v c : String.prefix "REJECTED" v = true -> rejecting (@Err _ A (Reject v c)).
Proof. intros Hv v' c'. by intros [= <- <-]. Qed.
End soundness.

Ltac rejecting_step :=
  match goal with
  | |- rejecting (rbind _ _) => apply rejecting_bind; [|intros ?]
  | |- rejecting (raise_if _ _) => apply rejecting_raise; reflexivity
  | |- rejecting (Err (Reject _ _)) => apply rejecting_Err; reflexivity
  | |- rejecting (Ok _) => apply rejecting_Ok
  | |- rejecting (Err PyErr) => apply rejecting_PyErr
  | |- rejecting (match ?x with _ => _ end) => destruct x
  | |- rejecting _ => solve [auto with rejecting]
  end.
Create HintDb rejecting.

Section acceptance.
Context `{Ext}.

Lemma rejecting_item k j : rejecting (item k j).
Proof. unfold item. repeat rejecting_step. Qed.
Lemma rejecting_get k j : rejecting (get k j).
Proof. unfold get. repeat rejecting_step. Qed.
Lemma rejecting_items j : rejecting (items j).
Proof. unfold items. repeat rejecting_step. Qed.
Lemma rejecting_digest j : rejecting (digest_v j).
Proof. unfold digest_v. repeat rejecting_step. Qed.
Lemma rejecting_ts j : rejecting (ts j).
Proof. unfold ts. repeat rejecting_step. Qed.
Lemma rejecting_iter j : rejecting (iter_of j).
Proof. unfold iter_of. repeat rejecting_step. Qed.
Lemma rejecting_sort l : rejecting (py_sorted l).
Proof. unfold py_sorted. repeat rejecting_step. Qed.
Lemma rejecting_first e : rejecting (first_of e).
Proof. unfold first_of. repeat rejecting_step. Qed.
Lemma rejecting_succ g : rejecting (py_succ g).
Proof. unfold py_succ. repeat rejecting_step. Qed.
Hint Resolve rejecting_item rejecting_get rejecting_items rejecting_digest rejecting_ts rejecting_iter
  rejecting_sort rejecting_first rejecting_succ : rejecting.
Lemma rejecting_sorted j : rejecting (sorted_v j).
Proof. unfold sorted_v. repeat rejecting_step. Qed.
Hint Resolve rejecting_sorted : rejecting.
Lemma rejecting_signed s r w : rejecting (check_signed s r w).
Proof. unfold check_signed. repeat rejecting_step. Qed.
Lemma rejecting_root a b c : rejecting (state_root_v a b c).
Proof. unfold state_root_v. repeat rejecting_step. Qed.
Lemma rejecting_chain c recs : forall i p, rejecting (chain_loop c i p recs).
Proof. induction recs; intros; cbn [chain_loop]; cbv zeta; repeat rejecting_step. Qed.
Lemma rejecting_bk iid r : rejecting (binding_kind_of iid r).
Proof. unfold binding_kind_of. repeat rejecting_step. Qed.
Hint Resolve rejecting_signed rejecting_root rejecting_chain rejecting_bk : rejecting.
Lemma rejecting_mine iid j : rejecting (mine_of iid j).
Proof. induction j; cbn [mine_of]; repeat rejecting_step. Qed.
Lemma rejecting_any iid j : rejecting (any_mine iid j).
Proof. induction j; cbn [any_mine]; repeat rejecting_step. Qed.
Lemma rejecting_other ih l : rejecting (any_other_hash ih l).
Proof. induction l; cbn [any_other_hash]; repeat rejecting_step. Qed.
Lemma rejecting_others k l : rejecting (other_rows k l).
Proof. induction l; cbn [other_rows]; repeat rejecting_step. Qed.
Hint Resolve rejecting_mine rejecting_any rejecting_other rejecting_others : rejecting.
Lemma rejecting_post a b c : rejecting (expected_post a b c).
Proof. unfold expected_post. repeat rejecting_step. Qed.
Hint Resolve rejecting_post : rejecting.
Lemma rejecting_path iid j : rejecting (path_check iid j).
Proof. unfold path_check. repeat rejecting_step. Qed.
Lemma rejecting_intent t a b c d e f : rejecting (intent_checks t a b c d e f).
Proof. unfold intent_checks. repeat rejecting_step. Qed.
Lemma rejecting_state a b c : rejecting (state_checks a b c).
Proof. unfold state_checks. repeat rejecting_step. Qed.
Lemma rejecting_payload a b c d e : rejecting (payload_check a b c d e).
Proof. unfold payload_check. repeat rejecting_step. Qed.
Lemma rejecting_want a b c d e f g h i : rejecting (want_json a b c d e f g h i).
Proof. unfold want_json. repeat rejecting_step. Qed.
Lemma rejecting_receipt a b c d : rejecting (receipt_check a b c d).
Proof. unfold receipt_check. repeat rejecting_step. Qed.
Hint Resolve rejecting_path rejecting_intent rejecting_state rejecting_payload rejecting_want
  rejecting_receipt : rejecting.
Lemma rejecting_verify b t : rejecting (verify_ b t).
Proof. unfold verify_, nth_json, the_committed. repeat rejecting_step. Qed.
Lemma rejecting_witness b t : rejecting (verify_witness b t).
Proof. unfold verify_witness. cbv zeta. repeat rejecting_step. Qed.

(** The accepting verdict comes from both checks returning. *)
Lemma verify_bundle_valid b t rw :
  vd_verdict (verify_bundle b t rw) = "VALID_FINALIZED" ->
  verify_ b t = Ok tt /\ exists profile, verify_witness b t = Ok profile /\
  (rw = true -> profile = "W1").
Proof.
  unfold verify_bundle. pose proof (rejecting_verify b t) as R1. pose proof (rejecting_witness b t) as R2.
  destruct (verify_ b t) as [[]|[v c|]] eqn:E1; simpl.
  - destruct (verify_witness b t) as [pr|[v c|]] eqn:E2; simpl.
  + destruct rw; simpl; [|intros _; split; [done|]; by exists pr]. destruct (str_eqb pr "W1") eqn:Ep; simpl; [|done].
    intros _. apply str_eqb_spec in Ep. eauto.
  + intros ->. specialize (R2 _ _ eq_refl). discriminate R2.
  + done.
  - intros ->. specialize (R1 _ _ eq_refl). discriminate R1.
  - done.
Qed.

End acceptance.
