(* ===== verification/VdbProperties.v ===== *)
(** * Properties of the VDB-C1 coordinator

    The claims about reachable states of a home directory, each with a
    concrete run that satisfies its hypotheses. *)

From Stdlib Require Import ZArith Lia Ascii String.
From stdpp Require Import base gmap strings list.
From S2P Require Import Prelude Canon VdbStates Journal StateAdapter Coordinator CrashSafety CrashProofs VdbExample CrashTheorems Verify VerifyProofs VerifySound.

Section properties.
Context `{Ext} (ns sid : string) (auth : keyring) (sk : privkey) (fkid : string).
Hypothesis unknown_no_uuid : uuid_ok "unknown" = false.
Abbreviation reach := (reachable ns sid auth sk fkid).

(** C1: In every reachable state, after any crashes and restarts, an intent
    whose journal records replay to FINALIZED was applied to the store
    exactly once: one applied row carries its id, and the journal holds
    exactly one FINALIZED record for it. *)
Theorem finalized_exactly_once s js iid :
  reach (s, js) -> state_of js iid = Some FINALIZED ->
  (exists a, filter (fun r => ar_intent_id r = iid) (st_applied s) = [a]) /\
  length (filter (fun r => r_kind r = FINALIZED) (for_intent js iid)) = 1.
Proof.
  intros Hr Hst. pose proof (reachable_safe _ _ _ _ _ unknown_no_uuid _ Hr) as Hsafe.
  destruct (safe_finalized _ _ _ _ _ _ _ _ Hsafe Hst) as (a & Ha & Hid).
  destruct Hsafe as [act HI]. apply applied_Some in Ha as [Ha _]. split.
  - exists a. rewrite <- Hid. apply filter_unique; [apply HI|done].
  - rewrite finalized_binding, filter_kind_length.
  apply state_after_finalized_iff in Hst as (m & n & ->).
  + rewrite !filter_app, !length_app. simpl.
    assert (E : forall k, filter (fun x => x = FINALIZED) (replicate k COMMIT_UNCERTAIN) = []).
    { induction k as [|k IH]; [done|]. simpl. by rewrite filter_cons, decide_False. }
    by rewrite !E.
  + rewrite Forall_map. apply Forall_forall. intros r Hr'. by eapply binding_kind.
Qed.

(** In every reachable state, an intent that is ABORTED or that the
    journal does not bind has no applied row: its mutation never reached
    the store. *)
Theorem aborted_never_applied s js iid :
  reach (s, js) -> state_of js iid = Some ABORTED \/ binding js iid = [] ->
  applied s iid = None.
Proof.
  intros Hr. apply (safe_aborted ns sid auth sk fkid). by apply reachable_safe.
Qed.

(** C2: In every reachable state the key/value table is the sequential
    execution of the journaled intents of the applied rows, in row order,
    on the empty map; the generation counts them, the n-th row has
    generation n, and no intent has two rows. *)
Theorem store_refines_journal s js :
  reach (s, js) ->
  st_kv s = kv_replay js (st_applied s) /\
  st_generation s = Z.of_nat (length (st_applied s)) /\
  (forall n a, st_applied s !! n = Some a -> ar_generation a = Z.of_nat (S n)) /\
  NoDup (map ar_intent_id (st_applied s)).
Proof.
  intros Hr. destruct (reachable_safe _ _ _ _ _ unknown_no_uuid _ Hr) as [act HI].
  split_and!; apply HI.
Qed.

(** Every run only appends to the journal, and the hash chain holds in
    every reachable state. *)
Theorem journal_append_only x y :
  reach x -> steps (vdb_step auth sk fkid) x y ->
  extends x.2 y.2 /\ chain_ok y.2 = true.
Proof.
  intros Hx Hs. assert (Hy : reach y) by (by eapply steps_trans). split.
  - clear Hy. induction Hs as [|a b c Hab IH Hbc]; [apply extends_refl|].
  etrans; [by apply IH|]. apply (step_safe ns sid auth sk fkid unknown_no_uuid b c); [|done].
  apply reachable_safe; [done|]. by eapply steps_trans.
  - destruct (reachable_safe _ _ _ _ _ unknown_no_uuid _ Hy) as [act HI]. apply HI.
Qed.

(** On a reachable state the only exception that leaves [submit] or
    [recover] is the canonicalizer's ValueError: IllegalTransition,
    RecoveryError, KeyError, IntegrityError and PreconditionFailed are
    unreachable. *)
Theorem only_value_error_escapes cfg s w e w' :
  reach (w_store w, w_journal w) -> same_keys auth sk fkid cfg ->
  submit cfg s w = Raise e w' \/ recover_locked cfg w = Raise e w' ->
  e = ValueError /\ exists j, jcs_raises j = true.
Proof.
  intros Hr (E1 & E2 & E3) Ho. destruct (reachable_safe _ _ _ _ _ unknown_no_uuid _ Hr) as [act HI].
  rewrite <- E1, <- E2, <- E3 in HI. simpl in HI. destruct Ho as [Ho|Ho].
  - pose proof (submit_ok ns sid unknown_no_uuid cfg s w act HI) as Hs. rewrite Ho in Hs.
  destruct Hs as (-> & (j & Hj & _) & _). by split; [|exists j].
  - pose proof (recover_ok ns sid cfg w act HI) as Hs. rewrite Ho in Hs.
  destruct Hs as (-> & (j & Hj & _) & _). by split; [|exists j].
Qed.

(** C29: Recovery of any reachable state, by a process that is not killed,
    whatever crash point is configured, returns and leaves every bound
    intent resolved: FINALIZED with its applied row or ABORTED with none.
    The one exception is a home directory with more than 2^53 - 1 records or
    applied intents, where the canonicalizer may refuse a sequence number or
    generation.  Assumed of rfc8785: it canonicalizes text and the integers
    up to 2^53 - 1 ([jcs_safe]). *)
Theorem recover_resolves cfg w :
  jcs_safe -> reach (w_store w, w_journal w) -> same_keys auth sk fkid cfg -> w_kill w = None ->
  (exists rs w', recover_locked cfg w = Ret rs w' /\ w_store w' = w_store w /\
   forall iid, binding (w_journal w') iid <> [] ->
    (state_of (w_journal w') iid = Some FINALIZED /\ is_Some (applied (w_store w') iid)) \/
    (state_of (w_journal w') iid = Some ABORTED /\ applied (w_store w') iid = None))
  \/ exists w', recover_locked cfg w = Raise ValueError w' /\
    (MAX_SAFE < Z.of_nat (length (w_journal w')) \/ MAX_SAFE < Z.of_nat (length (st_applied (w_store w'))))%Z.
Proof.
  intros Hj Hr (E1 & E2 & E3) Hk.
  destruct (reachable_safe _ _ _ _ _ unknown_no_uuid _ Hr) as [act HI].
  rewrite <- E1, <- E2, <- E3 in HI. simpl in HI.
  pose proof (recover_ok ns sid cfg w act HI) as Hs. destruct (quiet_recover cfg w) as [Hq _].
  destruct (recover_locked cfg w) as [rs w'|e w'|w'].
  - left. exists rs, w'. split; [done|]. split; [done|]. intros iid Hb. destruct Hs as (HI' & _).
  destruct (inv_status _ _ _ _ _ _ _ _ HI' iid) as [[? _]|(pb & i & ph & Ht & Hc & Ho)]; [done|].
  apply trail_kinds, kinds_of_state in Ht as (st & Hst & _ & Hf & Ha).
  unfold state_of. rewrite Hst. destruct ph; try by specialize (Ho eq_refl).
  + right. destruct Ha as [_ ->]; done.
  + left. destruct Hf as [_ ->]; [|done]. split; [done|]. destruct Hc as (a & -> & _). done.
  - right. destruct Hs as (-> & (j & Hr' & Hfit) & _). exists w'. split; [done|].
  destruct (Z.le_gt_cases (size w') MAX_SAFE) as [Hle|Hgt]; [|unfold size in Hgt; lia].
  rewrite (Hj j) in Hr'; [done|]. by apply (fits_mono (size w')).
  - destruct Hs as (_ & _ & ?). done.
Qed.

(** On a reachable state, with no crash point and no kill, [submit] returns,
    or raises the canonicalizer's ValueError; its result is one of:
    rejected, with the store untouched; a replay, with store and journal
    untouched; or FINALIZED, with the certificate in the journal and the
    store advanced by exactly this intent's UPSERT, which the store's
    generation and root matched. *)
Theorem submit_outcome cfg s w :
  reach (w_store w, w_journal w) ->
  same_keys auth sk fkid cfg -> w_kill w = None -> c_crash_at cfg = None ->
  (exists r w' js, submit cfg s w = Ret r w' /\ extends (w_journal w) js /\
   submitted cfg s (w_store w) js r w')
  \/ exists w' j, submit cfg s w = Raise ValueError w' /\ jcs_raises j = true.
Proof.
  intros Hr (E1 & E2 & E3) Hk Hcr.
  destruct (reachable_safe _ _ _ _ _ unknown_no_uuid _ Hr) as [act HI].
  rewrite <- E1, <- E2, <- E3 in HI. simpl in HI.
  pose proof (submit_ok ns sid unknown_no_uuid cfg s w act HI) as Hs.
  destruct (submit cfg s w) as [r w'|e w'|w'].
  - left. destruct Hs as (_ & js & He & Hsub). by exists r, w', js.
  - right. destruct Hs as (-> & (j & Hj & _) & _). by exists w', j.
  - by destruct Hs as (_ & _ & [?|?]).
Qed.

(** Submitting again a request whose submission returned FINALIZED
    returns the same certificate, marked replayed, and changes neither the
    store nor the journal nor the storage call counters. *)
Theorem resubmit_idempotent cfg cfg' s w r w' :
  reach (w_store w, w_journal w) -> same_keys auth sk fkid cfg -> same_keys auth sk fkid cfg' ->
  submit cfg s w = Ret r w' -> rs_state r = FINALIZED ->
  submit cfg' s w' = Ret (mk_result (request_id s) FINALIZED true None (rs_certificate r))
                       (set_recovering false w').
Proof.
  intros Hr (E1 & E2 & E3) (F1 & F2 & F3) Hs Hst.
  destruct (reachable_safe _ _ _ _ _ unknown_no_uuid _ Hr) as [act HI].
  rewrite <- E1, <- E2, <- E3 in HI. simpl in HI.
  pose proof (submit_ok ns sid unknown_no_uuid cfg s w act HI) as Hok. rewrite Hs in Hok.
  destruct Hok as ((HI' & _) & js & _ & Hsub).
  rewrite E1, E2, E3, <- F1, <- F2, <- F3 in HI'.
  assert (Hc : bound_to s (w_journal w') /\ verify_signed s (c_authority_keys cfg) = true /\
   exists cert, rs_certificate r = Some cert /\ cert_in (w_journal w') (request_id s) cert).
  { destruct Hsub as [[Hk|Hk] _ _|_ _ _ Hc Hb Hv Hs' Hj'|i h cert _ _ Hc Hin _ _ _ Hb Hv _ _ _];
    [congruence|congruence| |eauto].
  rewrite Hj'. auto. }
  destruct Hc as (Hb & Hv & cert & Hrc & Hin). rewrite E1, <- F1 in Hv.
  rewrite (submit_bound ns sid cfg' s w' HI' Hb Hv), Hrc.
  destruct Hb as (r0 & rest & Hb & _). 
  destruct (inv_status _ _ _ _ _ _ _ _ HI' (request_id s)) as [[? _]|(pb & i & ph & Ht & _ & Ho)];
  [congruence|].
  destruct (result_of_closed ns sid cfg' _ _ _ _ true (set_recovering false w') Ht) as (r' & Hr' & _).
  { destruct (is_open ph); [|done]. by specialize (Ho eq_refl). }
  destruct (result_of_cert (w_journal w') (request_id s) cert (set_recovering false w') r' (set_recovering false w')
  eq_refl Hin) as [-> _]; try done.
  by apply (cert_in_state ns sid cfg' (w_store w') _ None _ cert).
Qed.

(** C30: For every intent finalized in a reachable state of at most 2^53 - 1
    records and applied intents, whatever crashes preceded it,
    [export_bundle] returns a bundle on which the offline verifier's verdict
    is decided by one question, whether the recorded [admitted_at] lies
    inside the intent's authority window: if it does, the bundle is accepted,
    at profile L1, and at profile W1 with [--require-witness] when a trusted
    witness's checkpoint of this journal covers the finality; otherwise the
    verdict is the authority window's refusal.  Assumed: signatures verify
    under their key, rfc8785 canonicalizes text and the integers up to
    2^53 - 1, and the trust store holds the finalizer's key. *)
Theorem finalized_bundle_verifies cfg s js iid trust ocp :
  jcs_safe -> (forall k m, ed_verify (ed_public_raw k) (ed_sign k m) m = true) ->
  reach (s, js) -> (Z.of_nat (length js) <= MAX_SAFE)%Z -> (Z.of_nat (length (st_applied s)) <= MAX_SAFE)%Z ->
  same_keys auth sk fkid cfg -> trusts cfg trust -> state_of js iid = Some FINALIZED ->
  match ocp with
  | None => True
  | Some cp => checkpoint_of js cp /\
    verify_signed (signed_json checkpoint_json cp) (t_witness_keys trust) = true /\
    (forall f, f ∈ binding js iid -> (r_seq f <= cp_seq (sg_payload cp))%nat)
  end ->
  exists b, export_bundle js iid ocp = Some b /\
  verify_bundle (bundle_json b) trust (if ocp is Some _ then true else false)
  = window_verdict (window_of js iid) (if ocp is Some _ then "W1" else "L1").
Proof.
  intros Hj Hed Hr Hnj Hna (E1 & E2 & E3) Htr Hst Hcp.
  destruct (reachable_safe _ _ _ _ _ unknown_no_uuid _ Hr) as [act HI].
  rewrite <- E1, <- E2, <- E3 in HI.
  apply (export_verifies Hj ns sid cfg Hed s js act); try done. exact (reachable_canonical _ _ _ _ _ _ Hr).
Qed.
End properties.

(** ** The journal file *)
Section reload.
Context `{Ext} (loads : list ascii -> option record).

(** Reopening the file that the appends of a journal wrote gives back
    exactly its records, also when a crash left a torn line at the end:
    the torn bytes, and nothing else, are cut and counted. *)
Theorem reload_after_torn_write rs torn :
  Forall (line_faithful loads) rs -> chain_ok rs = true -> LF ∉ torn ->
  load loads (file_of rs ++ torn) = Some (file_of rs, rs, length torn).
Proof.
  intros HF Hc Hn. unfold load.
  assert (Hkeep : (match file_of rs ++ torn with
                 | [] => file_of rs ++ torn
                 | _ => if ends_with_lf (file_of rs ++ torn) then file_of rs ++ torn
                        else keep_complete (file_of rs ++ torn)
                 end) = file_of rs).
  { destruct torn as [|c torn].
  - rewrite app_nil_r. destruct (file_of rs) eqn:E; [done|]. by rewrite <- E, file_of_ends by congruence.
  - destruct (file_of rs ++ c :: torn) eqn:E; [by destruct (file_of rs)|].
    rewrite <- E, torn_not_lf by done. unfold keep_complete.
    rewrite rev_app_distr, drop_to_lf_torn; [apply file_of_keep|].
    intros Hin. apply Hn. apply list_elem_of_In. apply in_rev. by apply list_elem_of_In. }
  rewrite Hkeep, (splitlines_file loads), load_lines_file by done.
  rewrite length_app. do 3 f_equal. lia.
Qed.
End reload.

(** ** Concrete runs *)

Definition demo_reach_of (x : store * list record) : Prop :=
  reachable Demo.NS Demo.SID (Demo.ring Demo.auth_sk) Demo.fin_sk (Demo.kid_of Demo.fin_sk) x.

Lemma demo_keys c : same_keys (Demo.ring Demo.auth_sk) Demo.fin_sk (Demo.kid_of Demo.fin_sk) (Demo.cfg c).
Proof. split_and!; reflexivity. Qed.

Lemma demo_start_reach : demo_reach_of (Demo.s0, []).
Proof. apply steps_refl. Qed.

Lemma demo_submit_reach c s k :
  demo_reach_of (let y := after (submit (Demo.cfg c) s (Demo.start Demo.s0 [] k)) in (y.1, y.2)).
Proof.
  eapply steps_snoc; [apply steps_refl|].
  exact (step_submit _ _ _ (Demo.cfg c) s (Demo.start Demo.s0 [] k) (demo_keys c)).
Qed.

Lemma finalized_exactly_once_witness :
  (exists a, filter (fun r => ar_intent_id r = Demo.ID) (st_applied Demo.run1.1) = [a]) /\
  length (filter (fun r => r_kind r = FINALIZED) (for_intent Demo.run1.2 Demo.ID)) = 1.
Proof.
  apply (finalized_exactly_once Demo.NS Demo.SID (Demo.ring Demo.auth_sk) Demo.fin_sk
           (Demo.kid_of Demo.fin_sk)).
  - reflexivity.
  - exact (demo_submit_reach None Demo.req None).
  - vm_compute. reflexivity.
Defined.

(** Killed before the COMMITTING record, then recovered: aborted. *)
Definition demo_killed : store * list record :=
  after (submit (Demo.cfg (Some after_prepared)) Demo.req (Demo.start Demo.s0 [] None)).
Definition demo_aborted : store * list record :=
  after (recover_locked (Demo.cfg None) (Demo.start demo_killed.1 demo_killed.2 None)).

Lemma demo_aborted_reach : demo_reach_of (demo_aborted.1, demo_aborted.2).
Proof.
  eapply steps_snoc; [apply (demo_submit_reach (Some after_prepared) Demo.req None)|].
  exact (step_recover _ _ _ (Demo.cfg None) (Demo.start demo_killed.1 demo_killed.2 None) (demo_keys None)).
Qed.

Lemma aborted_never_applied_witness :
  state_of demo_aborted.2 Demo.ID = Some ABORTED /\ applied demo_aborted.1 Demo.ID = None.
Proof.
  assert (Hst : state_of demo_aborted.2 Demo.ID = Some ABORTED) by (vm_compute; reflexivity).
  split; [exact Hst|].
  apply (aborted_never_applied Demo.NS Demo.SID (Demo.ring Demo.auth_sk) Demo.fin_sk
           (Demo.kid_of Demo.fin_sk) eq_refl _ demo_aborted.2);
    [exact demo_aborted_reach|left; exact Hst].
Defined.

Lemma store_refines_journal_witness :
  st_kv Demo.run1.1 = kv_replay Demo.run1.2 (st_applied Demo.run1.1) /\
  st_generation Demo.run1.1 = 1%Z /\ st_kv Demo.run1.1 !! "k" = Some "v".
Proof.
  destruct (store_refines_journal Demo.NS Demo.SID (Demo.ring Demo.auth_sk) Demo.fin_sk
              (Demo.kid_of Demo.fin_sk) eq_refl Demo.run1.1 Demo.run1.2
              (demo_submit_reach None Demo.req None)) as (Hkv & _).
  split; [exact Hkv|]. split; vm_compute; reflexivity.
Defined.

Lemma journal_append_only_witness :
  extends demo_killed.2 demo_aborted.2 /\ chain_ok demo_aborted.2 = true.
Proof.
  apply (journal_append_only Demo.NS Demo.SID (Demo.ring Demo.auth_sk) Demo.fin_sk
           (Demo.kid_of Demo.fin_sk) eq_refl (demo_killed.1, demo_killed.2) (demo_aborted.1, demo_aborted.2)).
  - exact (demo_submit_reach (Some after_prepared) Demo.req None).
  - eapply steps_snoc; [apply steps_refl|].
    exact (step_recover _ _ _ (Demo.cfg None) (Demo.start demo_killed.1 demo_killed.2 None) (demo_keys None)).
Defined.

(** A canonicalizer that refuses every value. *)
Definition strict_ext : Ext := {|
  rfc8785_dumps := jprint; jcs_raises := fun _ => true; sha256_hex := checksum; privkey := string;
  ed_public_raw := fun sk => sk; ed_sign := fun sk m => sk +:+ checksum m;
  ed_verify := fun pub sig m => str_eqb sig (pub +:+ checksum m);
  isoformat_ms := fun t => pretty.pretty (t / 1000 * 1000)%Z +:+ "Z";
  fromisoformat := fun s => Some (read_digits 0 (list_ascii_of_string s));
  uuid_ok := fun s => (String.length s =? 36)%nat;
  float_eqb := str_eqb; float_is := fun _ _ => false;
  float_ltb := fun a b => negb (String.leb b a);
  float_lt_int := fun _ _ => false;
  int_lt_float := fun _ _ => true;
  float_succ := fun l => l |}.

Lemma only_value_error_escapes_witness :
  exists e w', @submit strict_ext (@mk_config strict_ext None (fun _ => 0%Z) ∅ "f" "k") JNull
      (Demo.start Demo.s0 [] None) = Raise e w' /\ e = ValueError.
Proof.
  eexists _, _. split; [vm_compute; reflexivity|].
  refine (proj1 (@only_value_error_escapes strict_ext Demo.NS Demo.SID ∅ "f" "k" eq_refl
    (@mk_config strict_ext None (fun _ => 0%Z) ∅ "f" "k") JNull (Demo.start Demo.s0 [] None) _ _ _ _ _)).
  - apply steps_refl.
  - split_and!; reflexivity.
  - left. vm_compute. reflexivity.
Defined.

Lemma demo_jcs_safe : jcs_safe.
Proof. intros j Hj. unfold jcs_raises, demo_ext. by rewrite Hj. Qed.

Lemma recover_resolves_witness :
  exists rs w', recover_locked (Demo.cfg None) (Demo.start Demo.crashed.1 Demo.crashed.2 None) = Ret rs w'
    /\ w_store w' = Demo.crashed.1.
Proof.
  destruct (recover_resolves Demo.NS Demo.SID (Demo.ring Demo.auth_sk) Demo.fin_sk
    (Demo.kid_of Demo.fin_sk) eq_refl (Demo.cfg None) (Demo.start Demo.crashed.1 Demo.crashed.2 None))
    as [(rs & w' & Hr & Hs & _)|(w' & Hr & _)].
  - exact demo_jcs_safe.
  - exact (demo_submit_reach (Some after_storage_commit) Demo.req None).
  - apply demo_keys.
  - reflexivity.
  - exists rs, w'. split; [exact Hr|exact Hs].
  - exfalso. vm_compute in Hr. discriminate Hr.
Defined.

Lemma submit_outcome_witness :
  exists r w' js, submit (Demo.cfg None) Demo.req (Demo.start Demo.s0 [] None) = Ret r w' /\
    submitted (Demo.cfg None) Demo.req Demo.s0 js r w'.
Proof.
  destruct (submit_outcome Demo.NS Demo.SID (Demo.ring Demo.auth_sk) Demo.fin_sk
    (Demo.kid_of Demo.fin_sk) eq_refl (Demo.cfg None) Demo.req (Demo.start Demo.s0 [] None))
    as [(r & w' & js & Hr & _ & Hs)|(w' & j & Hr & _)].
  - exact demo_start_reach.
  - apply demo_keys.
  - reflexivity.
  - reflexivity.
  - exists r, w', js. split; [exact Hr|exact Hs].
  - exfalso. vm_compute in Hr. discriminate Hr.
Defined.

Lemma resubmit_idempotent_witness :
  exists r w', submit (Demo.cfg None) Demo.req (Demo.start Demo.s0 [] None) = Ret r w' /\
    submit (Demo.cfg (Some after_finalized)) Demo.req w' =
      Ret (mk_result (request_id Demo.req) FINALIZED true None (rs_certificate r)) (set_recovering false w').
Proof.
  destruct (submit (Demo.cfg None) Demo.req (Demo.start Demo.s0 [] None)) as [r w'|e w'|w'] eqn:E;
    [|exfalso; revert E; vm_compute; discriminate..].
  exists r, w'. split; [reflexivity|].
  apply (resubmit_idempotent Demo.NS Demo.SID (Demo.ring Demo.auth_sk) Demo.fin_sk
    (Demo.kid_of Demo.fin_sk) eq_refl (Demo.cfg None) (Demo.cfg (Some after_finalized)) Demo.req
    (Demo.start Demo.s0 [] None) r w').
  - exact demo_start_reach.
  - apply demo_keys.
  - apply demo_keys.
  - exact E.
  - revert E. vm_compute. intros E. injection E as <- _. reflexivity.
Defined.

(** ** The demo bundle, its checkpoint and its journal file *)

Definition demo_record : record :=
  next_record [] ADMISSION_REJECTED "unknown" (BRejected None "E_SCHEMA") "1000000Z".

Definition demo_trust : trust_store :=
  mk_trust (Demo.ring Demo.auth_sk) (Demo.ring Demo.fin_sk) (Demo.ring Demo.wit_sk).

Definition demo_checkpoint : signed checkpoint :=
  let js := Demo.run1.2 in
  sign checkpoint_json
    (mk_checkpoint CHECKPOINT_PROTOCOL (match js with r :: _ => r_hash r | [] => "" end) 3
       (match last js with Some r => r_hash r | None => "" end) "1000000Z" (Demo.kid_of Demo.wit_sk))
    Demo.wit_sk (Demo.kid_of Demo.wit_sk).

Example demo_window : window_of Demo.run1.2 Demo.ID = Ok tt.
Proof. vm_compute. reflexivity. Qed.

Lemma finalized_bundle_verifies_witness :
  (exists b, export_bundle Demo.run1.2 Demo.ID (Some demo_checkpoint) = Some b /\
     verify_bundle (bundle_json b) demo_trust true = mk_verdict "VALID_FINALIZED" "" "W1") /\
  (exists b, export_bundle Demo.run1.2 Demo.ID None = Some b /\
     verify_bundle (bundle_json b) demo_trust false = mk_verdict "VALID_FINALIZED" "" "L1").
Proof.
  assert (Hed : forall k m, ed_verify (ed_public_raw k) (ed_sign k m) m = true).
  { intros k m. apply str_eqb_refl. }
  assert (Htr : trusts (Demo.cfg None) demo_trust).
  { split_and!; vm_compute; reflexivity. }
  assert (Hst : state_of Demo.run1.2 Demo.ID = Some FINALIZED) by (vm_compute; reflexivity).
  assert (Hnj : (Z.of_nat (length Demo.run1.2) <= MAX_SAFE)%Z) by (vm_compute; discriminate).
  assert (Hna : (Z.of_nat (length (st_applied Demo.run1.1)) <= MAX_SAFE)%Z) by (vm_compute; discriminate).
  split.
  - change (mk_verdict "VALID_FINALIZED" "" "W1") with (window_verdict (Ok tt) "W1"). rewrite <- demo_window.
    apply (finalized_bundle_verifies Demo.NS Demo.SID (Demo.ring Demo.auth_sk) Demo.fin_sk
      (Demo.kid_of Demo.fin_sk) eq_refl (Demo.cfg None) Demo.run1.1 Demo.run1.2 Demo.ID demo_trust
      (Some demo_checkpoint) demo_jcs_safe Hed (demo_submit_reach None Demo.req None) Hnj Hna (demo_keys None)
      Htr Hst).
    split_and!; [|vm_compute; reflexivity|].
    + split; [reflexivity|].
      split; [exists (default demo_record (Demo.run1.2 !! 0))|exists (default demo_record (Demo.run1.2 !! 3))];
        (split; [vm_compute; reflexivity|vm_compute; reflexivity]).
    + intros f Hf. apply binding_elem in Hf as [Hf _]. apply list_elem_of_lookup in Hf as [n Hn].
      assert (Hb : (n < 4)%nat) by (apply lookup_lt_Some in Hn; revert Hn; vm_compute; lia).
      assert (Hc : chain_ok Demo.run1.2 = true) by (vm_compute; reflexivity).
      rewrite (chain_seq _ _ _ Hc Hn). vm_compute. lia.
  - change (mk_verdict "VALID_FINALIZED" "" "L1") with (window_verdict (Ok tt) "L1"). rewrite <- demo_window.
    exact (finalized_bundle_verifies Demo.NS Demo.SID (Demo.ring Demo.auth_sk) Demo.fin_sk
      (Demo.kid_of Demo.fin_sk) eq_refl (Demo.cfg None) Demo.run1.1 Demo.run1.2 Demo.ID demo_trust
      None demo_jcs_safe Hed (demo_submit_reach None Demo.req None) Hnj Hna (demo_keys None)
      Htr Hst I).
Defined.

Definition demo_bundle : json :=
  match export_bundle Demo.run1.2 Demo.ID None with Some b => bundle_json b | None => JNull end.


Definition demo_loads (line : list ascii) : option record :=
  if decide (line = line_of demo_record) then Some demo_record else None.

Lemma reload_after_torn_write_witness :
  load demo_loads (file_of [demo_record] ++ ["{"%char])
  = Some (file_of [demo_record], [demo_record], 1).
Proof.
  apply (reload_after_torn_write demo_loads [demo_record] ["{"%char]).
  - constructor; [|constructor]. split_and!.
    + apply (bool_decide_unpack _). vm_compute. exact I.
    + apply (bool_decide_unpack _). vm_compute. exact I.
    + vm_compute. discriminate.
    + unfold demo_loads. rewrite decide_True by reflexivity. reflexivity.
  - vm_compute. reflexivity.
  - apply (bool_decide_unpack _). vm_compute. exact I.
Defined.
