(* ===== verification/Witness.v ===== *)
(** * The witness (vdb_c1/witness.py)

    A separate signer that countersigns journal history, only forward.  Its
    directory holds the state it last saved, the checkpoints it published and
    the fork evidence; [observe] reads whatever journal file it is shown, as
    raw JSON lines, publishes a checkpoint and then saves its state, and the
    process may die in between.  Then what its checkpoints are worth. *)

From Stdlib Require Import ZArith Lia Ascii String.
From stdpp Require Import base gmap strings list.
From S2P Require Import Prelude Canon VdbStates Journal StateAdapter Coordinator VdbExample Verify VerifyProofs VerifySound.

Definition FORK_PROTOCOL : string := "veklom.vdb.c1.fork-evidence/v1".

(** [state.json] once something was witnessed, with values as they came from
    the journal. *)
Record seen := mk_seen { se_genesis : json; se_seq : json; se_head : json }.

(** [WitnessRefused], by reason, or another exception: a line that is no
    JSON object, a missing member, a value of the wrong type, a value the
    canonicalizer refuses. *)
Inductive refusal := Refused (reason : string) | Failed.

Section witness.
Context `{Ext} (loads : list ascii -> option json).

(** [Witness.__init__]: the key, the pinned trust store and the state in
    memory; and the directory: [state.json], [checkpoints.jsonl], [forks/]. *)
Record witness := mk_witness {
  wt_sk : privkey; wt_kid : string; wt_trust : trust_store; wt_state : option seen;
  wt_saved : option seen; wt_checkpoints : list (signed json); wt_forks : list (signed json) }.

(** An exception of the code the witness shares with the verifier. *)
Definition or_failed {A} (m : V A) : res refusal A := match m with Ok a => Ok a | Err _ => Err Failed end.

(** The loop of [_read_journal]; its test of a record is the verifier's. *)
Fixpoint read_lines (seq : nat) (prev : json) (lines : list (list ascii)) : res refusal (list json) :=
  match lines with
  | [] => Ok []
  | line :: rest =>
  match loads line with
  | None => Err Failed
  | Some rec =>
    match chain_loop "journal_chain" seq prev [rec] with
    | Err (Reject _ _) => Err (Refused "E_CHAIN")
    | Err PyErr => Err Failed
    | Ok h => let? rs := read_lines (S seq) h rest in Ok (rec :: rs)
    end
  end
  end.

Definition read_journal (data : list ascii) : res refusal (list json) :=
  if (match data with [] => false | _ => negb (ends_with_lf data) end) then Err (Refused "E_TORN_JOURNAL")
  else
  let? rs := read_lines 0 (JStr GENESIS) (splitlines data) in
  match rs with [] => Err (Refused "E_EMPTY") | _ => Ok rs end.

(** [records[i]]; a negative index counts from the end. *)
Definition py_index (records : list json) (i : json) : V json :=
  let at_ z := let n := if (z <? 0)%Z then (Z.of_nat (length records) + z)%Z else z in
  if (n <? 0)%Z then Err PyErr else nth_json (Z.to_nat n) records in
  match i with
  | JInt z => at_ z
  | JBool b => at_ (Z.b2z b)
  | _ => Err PyErr
  end.

(** [seq < n]. *)
Definition below (seq : json) (n : nat) : V bool :=
  match py_lt seq (JInt (Z.of_nat n)) with Some b => Ok b | None => Err PyErr end.

(** [_fork]: evidence is signed and kept, then the call is refused (its
    [detail] text left out). *)
Definition fork_json (reason : string) (st : seen) (g : json) (len : nat) (h : json) : json :=
  JObj [("protocol", JStr FORK_PROTOCOL); ("reason", JStr reason);
      ("witnessed", JObj [("genesis_hash", se_genesis st); ("seq", se_seq st); ("head_hash", se_head st)]);
      ("presented", JObj [("genesis_hash", g); ("length", JInt (Z.of_nat len)); ("hash_at_witnessed_seq", h)])].
Definition fork_evidence (w : witness) (st : seen) (records : list json) (reason : string) : V (signed json) :=
  let? first := nth_json 0 records in
  let? g := item "hash" first in
  let? inside := below (se_seq st) (length records) in
  let? h := (if inside then let? r := py_index records (se_seq st) in item "hash" r else Ok JNull) in
  let j := fork_json reason st g (length records) h in
  if jcs_raises j then Err PyErr else Ok (sign (fun j => j) j (wt_sk w) (wt_kid w)).
Definition record_fork (w : witness) (st : seen) (records : list json) (reason : string)
  : witness * res refusal (signed json) :=
  match fork_evidence w st records reason with
  | Err _ => (w, Err Failed)
  | Ok f => (mk_witness (wt_sk w) (wt_kid w) (wt_trust w) (wt_state w) (wt_saved w) (wt_checkpoints w)
             (wt_forks w ++ [f]), Err (Refused reason))
  end.

(** [records[: seq + 1]]; a record's [seq] equals its index. *)
Definition up_to (records : list json) (seq : json) : V (list json) :=
  match seq with
  | JInt z => Ok (take (Z.to_nat (z + 1)) records)
  | JBool b => Ok (take (Z.to_nat (Z.b2z b + 1)) records)
  | _ => Err PyErr
  end.

(** The bundle of one finalized record. *)
Definition final_bundle (records : list json) (rec : json) : V json :=
  let? iid := item "intent_id" rec in
  let? seq := item "seq" rec in
  let? prefix := up_to records seq in
  let? body := item "body" rec in
  let? cert := item "certificate" body in
  let? d := digest_v cert in
  Ok (JObj [("protocol", JStr BUNDLE_PROTOCOL); ("intent_id", iid); ("journal", JArr prefix);
          ("receipt", JObj [("certificate", cert); ("certificate_digest", JStr d)])]).

(** The loop over the new records: each FINALIZED one is verified. *)
Fixpoint check_finals (trust : trust_store) (records : list json) (new : list json) : res refusal unit :=
  match new with
  | [] => Ok tt
  | rec :: rest =>
  let? kind := or_failed (item "kind" rec) in
  if negb (py_eqb kind (JStr "FINALIZED")) then check_finals trust records rest
  else
    let? bundle := or_failed (final_bundle records rec) in
    if str_eqb (vd_verdict (verify_bundle bundle trust false)) "VALID_FINALIZED"
    then check_finals trust records rest
    else Err (Refused "E_INVALID_FINALITY")
  end.

(** The checks of [observe] against the last state: where the new records
    start, or the reason of a fork. *)
Definition extends_seen (st : seen) (records : list json) : V (nat + string) :=
  let? first := nth_json 0 records in
  let? g := item "hash" first in
  if negb (py_eqb g (se_genesis st)) then Ok (inr "E_DIFFERENT_JOURNAL")
  else
  let? inside := below (se_seq st) (length records) in
  if negb inside then Ok (inr "E_ROLLBACK")
  else
    let? r := py_index records (se_seq st) in
    let? h := item "hash" r in
    if negb (py_eqb h (se_head st)) then Ok (inr "E_FORK")
    else match se_seq st with
         | JInt z => Ok (inl (Z.to_nat (z + 1)))
         | JBool b => Ok (inl (Z.to_nat (Z.b2z b + 1)))
         | _ => Err PyErr
         end.

Definition checkpoint_of_records (w : witness) (records : list json) (at_ : string) : V (signed json * seen) :=
  let? first := nth_json 0 records in
  let? g := item "hash" first in
  let? head := nth_json (length records - 1) records in
  let? seq := item "seq" head in
  let? h := item "hash" head in
  let j := JObj [("protocol", JStr CHECKPOINT_PROTOCOL); ("journal_genesis_hash", g); ("seq", seq); ("head_hash", h);
               ("witnessed_at", JStr at_); ("witness_kid", JStr (wt_kid w))] in
  if jcs_raises j then Err PyErr else Ok (sign (fun j => j) j (wt_sk w) (wt_kid w), mk_seen g seq h).

(** The end of [observe] up to the [fsync] of [checkpoints.jsonl]: the new
    records are checked and the checkpoint is published; the new state is in
    memory only. *)
Definition publish_from (w : witness) (records : list json) (at_ : string) (start : nat)
  : witness * res refusal (signed json) :=
  match (let? _ := check_finals (wt_trust w) records (drop start records) in
       or_failed (checkpoint_of_records w records at_)) with
  | Err e => (w, Err e)
  | Ok (cp, st') =>
  (mk_witness (wt_sk w) (wt_kid w) (wt_trust w) (Some st') (wt_saved w) (wt_checkpoints w ++ [cp]) (wt_forks w), Ok cp)
  end.
Definition publish (w : witness) (data : list ascii) (at_ : string) : witness * res refusal (signed json) :=
  match read_journal data with
  | Err e => (w, Err e)
  | Ok records =>
  match wt_state w with
  | None => publish_from w records at_ 0
  | Some st =>
    match extends_seen st records with
    | Err _ => (w, Err Failed)
    | Ok (inr reason) => record_fork w st records reason
    | Ok (inl start) => publish_from w records at_ start
    end
  end
  end.

(** [_atomic_write(state.json)]. *)
Definition save (w : witness) : witness :=
  mk_witness (wt_sk w) (wt_kid w) (wt_trust w) (wt_state w) (wt_state w) (wt_checkpoints w) (wt_forks w).

Definition observe (w : witness) (data : list ascii) (at_ : string) : witness * res refusal (signed json) :=
  match publish w data at_ with
  | (w', Ok cp) => (save w', Ok cp)
  | r => r
  end.

(** A new process on the directory. *)
Definition restart (w : witness) : witness :=
  mk_witness (wt_sk w) (wt_kid w) (wt_trust w) (wt_saved w) (wt_saved w) (wt_checkpoints w) (wt_forks w).

(** [covering]: the earliest checkpoint at or after [seq]. *)
Definition covers (seq : nat) (c : signed json) : bool :=
  match item "seq" (sg_payload c) with
  | Ok (JInt z) => (Z.of_nat seq <=? z)%Z
  | Ok (JBool b) => (Z.of_nat seq <=? Z.b2z b)%Z
  | Ok (JFloat l) => negb (float_lt_int l (Z.of_nat seq))
  | _ => false
  end.
Definition covering (w : witness) (seq : nat) : option (signed json) :=
  list_find (fun c => covers seq c = true) (wt_checkpoints w) ≫= fun ic => Some ic.2.

(** The life of a witness: it is shown a file, it dies during [observe]
    (before or after publishing) and is started again, or it is restarted. *)
Inductive wstep : witness -> witness -> Prop :=
  | ws_observe w data at_ : wstep w (observe w data at_).1
  | ws_died w data at_ : wstep w (restart (publish w data at_).1)
  | ws_restart w : wstep w (restart w).

(** ** Journals as JSON *)

(** The linkage of raw records, from the hash before them. *)
Fixpoint raw_chain (n : nat) (prev : string) (rs : list json) : Prop :=
  match rs with
  | [] => True
  | r :: rs' => exists m, r = JObj m /\ assoc "prev" m = Some (JStr prev)
  /\ (exists s, assoc "seq" m = Some s /\ py_eqb s (JInt (Z.of_nat n)) = true)
  /\ assoc "hash" m = Some (JStr (digest (unhashed m))) /\ raw_chain (S n) (digest (unhashed m)) rs'
  end.

Lemma field_str (m : list (string * json)) k s :
  py_eqb match assoc k m with Some v => v | None => JNull end (JStr s) = true -> assoc k m = Some (JStr s).
Proof. intros Hp. apply py_eqb_JStr in Hp. by destruct (assoc k m) as [v|]; simplify_eq. Qed.

Lemma read_lines_chain lines : forall seq prev rs,
  read_lines seq (JStr prev) lines = Ok rs -> raw_chain seq prev rs.
Proof.
  induction lines as [|line lines IH]; intros seq prev rs Hr; cbn [read_lines] in Hr; [by injection Hr as <-|].
  destruct (loads line) as [rec|]; [|done]. cbn [chain_loop] in Hr. destruct rec as [| | | | | |m]; try done.
  cbn [items rbind] in Hr.
  destruct (py_eqb _ (JStr JOURNAL_PROTOCOL)); cbn [negb] in Hr; [|done].
  destruct (py_eqb _ (JInt _)) eqn:E1; cbn [negb] in Hr; [|done].
  destruct (py_eqb _ (JStr prev)) eqn:E2; cbn [negb] in Hr; [|done].
  unfold digest_v in Hr. destruct (jcs_raises _); [done|]. cbn [rbind] in Hr.
  destruct (py_eqb _ (JStr (digest _))) eqn:E3; cbn [negb] in Hr; [|done].
  apply field_str in E2, E3. unfold item, jget in Hr. rewrite E3 in Hr. cbn [rbind] in Hr. res_inv Hr.
  injection Hr as <-. simpl. exists m. split; [done|]. split; [done|]. split; [|split; [done|by apply IH]].
  destruct (assoc "seq" m) as [s|]; [by exists s|done].
Qed.

Lemma read_journal_chain data rs : read_journal data = Ok rs -> raw_chain 0 GENESIS rs /\ rs <> [].
Proof.
  unfold read_journal. destruct (match data with [] => _ | _ => _ end); [done|].
  intros Hr. res_inv Hr. apply read_lines_chain in E. destruct v; simplify_eq. by split.
Qed.

(** A record of such a journal. *)
Definition raw_body (r : json) : json := match r with JObj m => unhashed m | _ => r end.

Lemma assoc_unhashed (m : list (string * json)) k :
  k <> "hash" -> assoc k (filter (fun kv => kv.1 <> "hash") m) = assoc k m.
Proof.
  intros Hk. induction m as [|[k' v] m IH]; [done|]. rewrite filter_cons. simpl.
  destruct (decide (k' <> "hash")) as [Hne|He]; simpl; [by rewrite IH|].
  apply dec_stable in He as ->. destruct (str_eqb "hash" k) eqn:E; [|done]. by apply str_eqb_spec in E as <-.
Qed.

Lemma raw_lookup rs : forall n prev j r, raw_chain n prev rs -> rs !! j = Some r ->
  gets "hash" r = Some (digest (raw_body r))
  /\ (exists s, item "seq" r = Ok s /\ py_eqb s (JInt (Z.of_nat (n + j))) = true)
  /\ gets "prev" (raw_body r) = match j with 0 => Some prev | S i => rs !! i ≫= gets "hash" end.
Proof.
  induction rs as [|x rs IH]; intros n prev j r Hc Hj; [done|].
  destruct Hc as (m & -> & Hp & Hs & Hh & Hc). destruct j as [|j]; cbn [lookup list_lookup] in Hj.
  - injection Hj as <-. unfold gets, item, jget, raw_body, unhashed. rewrite Hh, assoc_unhashed, Hp by done.
  split_and!; [done| |done]. destruct Hs as (s & -> & Hs). exists s. by rewrite Nat.add_0_r.
  - destruct (IH _ _ _ _ Hc Hj) as (H1 & H2 & H3). split_and!; [done|by rewrite Nat.add_succ_r|].
  rewrite H3. destruct j as [|j]; [|done]. simpl. unfold gets, jget. by rewrite Hh.
Qed.

Lemma assoc_None {A} (m : list (string * A)) k : k ∉ map fst m -> assoc k m = None.
Proof.
  induction m as [|[k' v] m IH]; intros Hk; [done|]. simpl in *. apply not_elem_of_cons in Hk as [Hne Hk].
  destruct (str_eqb k' k) eqn:E; [by apply str_eqb_spec in E|by apply IH].
Qed.

Definition keys_of (j : json) : list string := match j with JObj m => map fst m | _ => [] end.

Lemma same_or_differ a b : (forall k, gets k a = gets k b) \/ exists k, gets k a <> gets k b.
Proof.
  destruct (decide (Forall (fun k => gets k a = gets k b) (keys_of a ++ keys_of b))) as [Hs|Hs].
  - left. intros k. rewrite Forall_forall in Hs. destruct (decide (k ∈ keys_of a ++ keys_of b)) as [Hk|Hk]; [by apply Hs|].
  assert (Hn : forall x, k ∉ keys_of x -> gets k x = None).
  { intros [| | | | | |m] Hx; try done. unfold gets, jget. by rewrite assoc_None. }
  rewrite !Hn by set_solver. done.
  - right. apply not_Forall_Exists in Hs; [|apply _]. apply Exists_exists in Hs as (k & _ & Hk). by exists k.
Qed.

(** Two journals with the same hash at one place agree up to it, unless two
    objects with one digest differ in a text member. *)
Definition digest_clash : Prop := exists a b k, digest a = digest b /\ gets k a <> gets k b.
Definition same_raw (a b : json) : Prop :=
  gets "hash" a = gets "hash" b /\ forall k, gets k (raw_body a) = gets k (raw_body b).

Lemma raw_agree rs1 rs2 i : forall a b,
  raw_chain 0 GENESIS rs1 -> raw_chain 0 GENESIS rs2 ->
  rs1 !! i = Some a -> rs2 !! i = Some b -> gets "hash" a = gets "hash" b ->
  (forall j x y, j <= i -> rs1 !! j = Some x -> rs2 !! j = Some y -> same_raw x y) \/ digest_clash.
Proof.
  induction i as [|i IH]; intros a b C1 C2 Ha Hb Hh;
  destruct (raw_lookup _ _ _ _ _ C1 Ha) as (A1 & _ & A3); destruct (raw_lookup _ _ _ _ _ C2 Hb) as (B1 & _ & B3);
  assert (Hd : digest (raw_body a) = digest (raw_body b)) by congruence;
  (destruct (same_or_differ (raw_body a) (raw_body b)) as [Hs|(k & Hk)]; [|right; by exists (raw_body a), (raw_body b), k]).
  - left. intros j x y Hj Hx Hy. assert (j = 0) as -> by lia. simplify_eq. by split.
  - rewrite (Hs "prev"), B3 in A3.
  destruct (rs1 !! i) as [a'|] eqn:Ea; [|apply lookup_ge_None in Ea; apply lookup_lt_Some in Ha; lia].
  destruct (rs2 !! i) as [b'|] eqn:Eb; [|apply lookup_ge_None in Eb; apply lookup_lt_Some in Hb; lia].
  destruct (IH a' b' C1 C2 eq_refl eq_refl) as [Hag|?]; [by simpl in A3|left|by right].
  intros j x y Hj Hx Hy. destruct (decide (j = S i)) as [->|Hne]; [simplify_eq; by split|]. apply (Hag j); [lia|done..].
Qed.

(** ** What a state stands for *)

Definition stands_for (st : seen) (js : list json) : Prop :=
  raw_chain 0 GENESIS js /\ py_eqb (se_seq st) (JInt (Z.of_nat (length js) - 1)) = true
  /\ exists r h, last js = Some r /\ gets "hash" r = Some h /\ se_head st = JStr h.

Lemma gets_hash_item r h : gets "hash" r = Some h -> item "hash" r = Ok (JStr h).
Proof. unfold gets, item. destruct (jget "hash" r) as [[]|]; simpl; try done. by intros [= ->]. Qed.

Lemma item_gets_hash r h : item "hash" r = Ok (JStr h) -> gets "hash" r = Some h.
Proof. unfold gets, item. destruct (jget "hash" r) as [j|]; [|done]. by intros [= ->]. Qed.

(** A checkpoint states the journal's genesis, length and head. *)
Lemma checkpoint_stands w js at_ cp st' :
  raw_chain 0 GENESIS js -> checkpoint_of_records w js at_ = Ok (cp, st') ->
  stands_for st' js /\ item "seq" (sg_payload cp) = Ok (se_seq st') /\ item "head_hash" (sg_payload cp) = Ok (se_head st')
  /\ item "journal_genesis_hash" (sg_payload cp) = Ok (se_genesis st').
Proof.
  intros Hc Hk. unfold checkpoint_of_records in Hk. res_inv Hk. destruct (jcs_raises _); [done|]. injection Hk as <- <-.
  split; [|done]. unfold nth_json in E1. destruct (js !! (length js - 1)%nat) as [head|] eqn:El; [|done].
  injection E1 as <-. destruct (raw_lookup _ _ _ _ _ Hc El) as (Hh & (s & Hs & Hq) & _).
  rewrite (gets_hash_item _ _ Hh) in E3. rewrite Hs in E2. simplify_eq. pose proof (lookup_lt_Some _ _ _ El).
  split; [done|]. split; cbn [se_seq se_head].
  - rewrite <- Hq. do 2 f_equal. lia.
  - exists head, (digest (raw_body head)). split_and!; [|done|done]. rewrite last_lookup, <- El. f_equal. lia.
Qed.

Lemma index_lookup js s n r :
  py_eqb s (JInt (Z.of_nat n)) = true -> py_index js s = Ok r -> js !! n = Some r.
Proof.
  intros Hs. assert (Hz : forall z, z = Z.of_nat n -> (let m := if (z <? 0)%Z then (Z.of_nat (length js) + z)%Z else z in
    if (m <? 0)%Z then Err PyErr else nth_json (Z.to_nat m) js) = Ok r -> js !! n = Some r).
  { intros z -> Hi. cbv zeta in Hi. destruct (Z.ltb_spec (Z.of_nat n) 0); [lia|].
  destruct (Z.ltb_spec (Z.of_nat n) 0); [lia|]. rewrite Nat2Z.id in Hi. unfold nth_json in Hi.
  by destruct (js !! n); simplify_eq. }
  destruct s; try done; simpl in Hs; apply Z.eqb_eq in Hs; intros Hi; by apply (Hz _ Hs).
Qed.

(** A journal that passes the checks against a state. *)
Lemma extends_seen_Ok st js start js0 :
  stands_for st js0 -> extends_seen st js = Ok (inl start) -> start = length js0 /\ 0 < length js0
  /\ exists r r', last js0 = Some r /\ js !! (length js0 - 1)%nat = Some r' /\ gets "hash" r' = gets "hash" r.
Proof.
  intros (_ & Hq & r & h & Hl & Hh & Hhd) He. unfold extends_seen in He.
  assert (Hn : 0 < length js0) by (destruct js0; [done|simpl; lia]).
  replace (Z.of_nat (length js0) - 1)%Z with (Z.of_nat (length js0 - 1)) in Hq by lia.
  res_inv He. destruct (negb _); [done|]. res_inv He. destruct (negb _); [done|]. res_inv He.
  destruct (negb (py_eqb _ (se_head st))) eqn:Eh; [done|]. apply negb_false_iff in Eh.
  rewrite Hhd in Eh. apply py_eqb_JStr in Eh as ->.
  pose proof (index_lookup _ _ _ _ Hq E2) as Hi.
  split_and!; [|done|].
  - destruct (se_seq st); try done; simpl in Hq; apply Z.eqb_eq in Hq; injection He as <-; lia.
  - eexists r, _. split_and!; [done|exact Hi|]. rewrite Hh. by apply item_gets_hash.
Qed.

(** [js] agrees with [js0] on all of [js0], or the digest is broken. *)
Definition keeps (js0 js : list json) : Prop :=
  (length js0 <= length js)%nat /\
  ((forall j a b, js0 !! j = Some a -> js !! j = Some b -> same_raw a b) \/ digest_clash).

Lemma same_raw_trans a b c : same_raw a b -> same_raw b c -> same_raw a c.
Proof. intros [H1 H2] [K1 K2]. split; [congruence|]. intros k. by rewrite H2. Qed.

Lemma keeps_step js0 js js' st start :
  keeps js0 js -> stands_for st js -> raw_chain 0 GENESIS js' -> extends_seen st js' = Ok (inl start) -> keeps js0 js'.
Proof.
  intros [Hlen Hk] Hsf Hc' He. pose proof Hsf as (Hc & _).
  destruct (extends_seen_Ok _ _ _ _ Hsf He) as (_ & Hpos & r & r' & Hl & Hi & Hh).
  pose proof (lookup_lt_Some _ _ _ Hi). split; [lia|]. destruct Hk as [Hk|?]; [|by right].
  rewrite last_lookup in Hl. replace (pred (length js)) with (length js - 1)%nat in Hl by lia.
  destruct (raw_agree js js' _ _ _ Hc Hc' Hl Hi) as [Hag|?]; [done| |by right]. left. intros j x z Hx Hz.
  assert (Hj : (j < length js)%nat) by (apply lookup_lt_Some in Hx; lia).
  destruct (lookup_lt_is_Some_2 js j Hj) as [y Hy]. eapply same_raw_trans; [by eapply Hk|]. eapply Hag; [|done..]. lia.
Qed.

(** One publication, spelled out. *)
Lemma publish_Ok w data at_ w' cp :
  publish w data at_ = (w', Ok cp) ->
  exists js st', read_journal data = Ok js /\ wt_state w' = Some st' /\ wt_saved w' = wt_saved w /\ stands_for st' js
  /\ checkpoint_of_records w js at_ = Ok (cp, st')
  /\ exists start, match wt_state w with None => start = 0 | Some st => extends_seen st js = Ok (inl start) end
     /\ check_finals (wt_trust w) js (drop start js) = Ok tt.
Proof.
  unfold publish. destruct (read_journal data) as [js|] eqn:Er; [|done].
  destruct (read_journal_chain _ _ Er) as [Hc _].
  assert (Hf : forall start, publish_from w js at_ start = (w', Ok cp) -> exists st', wt_state w' = Some st' /\ wt_saved w' = wt_saved w
    /\ stands_for st' js /\ checkpoint_of_records w js at_ = Ok (cp, st')
    /\ check_finals (wt_trust w) js (drop start js) = Ok tt).
  { intros start. unfold publish_from. destruct (check_finals _ _ _) as [[]|]; [|done]. cbn [rbind].
  destruct (checkpoint_of_records w js at_) as [[cp' st']|] eqn:Ek; [|done]. cbn [or_failed]. intros [= <- <-].
  exists st'. split_and!; try done. by eapply checkpoint_stands. }
  destruct (wt_state w) as [st|].
  - destruct (extends_seen st js) as [[start|reason]|] eqn:Ee; [|unfold record_fork; by destruct (fork_evidence _ _ _ _)|done].
  intros Ho. destruct (Hf start Ho) as (st' & H1 & H2 & H3 & H4 & H5). eexists _, _. split_and!; eauto.
  - intros Ho. destruct (Hf 0 Ho) as (st' & H1 & H2 & H3 & H4 & H5). eexists _, _. split_and!; eauto.
Qed.

Lemma publish_Err w data at_ w' e :
  publish w data at_ = (w', Err e) -> wt_state w' = wt_state w /\ wt_saved w' = wt_saved w.
Proof.
  unfold publish, publish_from, record_fork. intros Ho. repeat (break_hyp Ho; try done); simplify_eq; done.
Qed.

(** Both the state in memory and the saved one speak of journals that keep
    [js0]. *)
Definition holds_to (js0 : list json) (o : option seen) : Prop :=
  exists st js, o = Some st /\ stands_for st js /\ keeps js0 js.

Lemma publish_keeps js0 w data at_ :
  holds_to js0 (wt_state w) -> holds_to js0 (wt_saved w) ->
  let w' := (publish w data at_).1 in holds_to js0 (wt_state w') /\ holds_to js0 (wt_saved w')
  /\ forall cp, (publish w data at_).2 = Ok cp -> exists js, read_journal data = Ok js /\ keeps js0 js.
Proof.
  intros (st & js & Hst & Hsf & Hk) Hsv w'. subst w'.
  destruct (publish w data at_) as [w' [cp|e]] eqn:Ep; cbn [fst snd].
  - destruct (publish_Ok _ _ _ _ _ Ep) as (js' & st' & Hr & Hs' & -> & Hsf' & _ & start & Hx & _). rewrite Hst in Hx.
  assert (Hk' : keeps js0 js') by (eapply keeps_step; [done|done|apply Hsf'|done]).
  split_and!; [by exists st', js'|done|]. intros _ _. by exists js'.
  - apply publish_Err in Ep as [-> ->]. split_and!; [by exists st, js|done|done].
Qed.

Lemma wstep_keeps js0 w w' :
  holds_to js0 (wt_state w) /\ holds_to js0 (wt_saved w) -> wstep w w' ->
  holds_to js0 (wt_state w') /\ holds_to js0 (wt_saved w').
Proof.
  intros [H1 H2] Hs. destruct Hs as [w data at_|w data at_|w]; [| |by split].
  - destruct (publish_keeps js0 w data at_ H1 H2) as (K1 & K2 & _). unfold observe.
  destruct (publish w data at_) as [w' [cp|e]]; by split.
  - destruct (publish_keeps js0 w data at_ H1 H2) as (_ & K2 & _). by split.
Qed.
End witness.

Section properties.
Context `{Ext} (loads : list ascii -> option json).

(** C38: One witness, over any journal files shown to it and any deaths and
    restarts, never contradicts a checkpoint that [observe] returned: every
    checkpoint it publishes afterwards, even one whose publication it does
    not survive, is of a journal that is at least as long and has, record by
    record, the same hash and the same text members, unless two objects with
    one digest differ in a text member.  The returned checkpoint names the
    journal's genesis, last number and head.  (A checkpoint that was
    published by a witness that died before saving its state is not
    covered: [unsaved_fork] below.) *)
Theorem witness_no_fork w0 w1 w2 data1 data2 t1 t2 js1 js2 cp1 cp2 :
  read_journal loads data1 = Ok js1 -> observe loads w0 data1 t1 = (w1, Ok cp1) ->
  steps (wstep loads) w1 w2 ->
  read_journal loads data2 = Ok js2 -> (publish loads w2 data2 t2).2 = Ok cp2 ->
  keeps js1 js2
  /\ exists st, stands_for st js1 /\ sg_payload cp1 = JObj [("protocol", JStr CHECKPOINT_PROTOCOL);
     ("journal_genesis_hash", se_genesis st); ("seq", se_seq st); ("head_hash", se_head st);
     ("witnessed_at", JStr t1); ("witness_kid", JStr (wt_kid w0))].
Proof.
  intros R1 O1 Hs R2 O2. unfold observe in O1. destruct (publish loads w0 data1 t1) as [w' [cp|e]] eqn:E1; [|done].
  injection O1 as <- <-. destruct (publish_Ok _ _ _ _ _ _ E1) as (js & st & Hr & Hst & _ & Hsf & Hcp & _).
  rewrite R1 in Hr. injection Hr as <-. split.
  - assert (Hh : holds_to js1 (wt_state (save w')) /\ holds_to js1 (wt_saved (save w'))).
  { assert (Hh : holds_to js1 (wt_state w')); [|by split]. exists st, js1. split_and!; [done|done|]. split; [done|].
    left. intros j a b Ha Hb. simplify_eq. done. }
  assert (Hh2 : holds_to js1 (wt_state w2) /\ holds_to js1 (wt_saved w2)).
  { apply (steps_invariant (wstep loads) (fun w => holds_to js1 (wt_state w) /\ holds_to js1 (wt_saved w)) (save w'));
      [intros a b; apply wstep_keeps|done|done]. }
  destruct (publish_keeps loads js1 w2 data2 t2) as (_ & _ & Hp); [apply Hh2..|].
  destruct (Hp _ O2) as (js & Hr & Hk). congruence.
  - exists st. split; [done|]. unfold checkpoint_of_records in Hcp. res_inv Hcp. destruct (jcs_raises _); [done|].
  by injection Hcp as <- <-.
Qed.

Lemma check_finals_Ok trust js new r :
  check_finals trust js new = Ok tt -> r ∈ new -> item "kind" r = Ok (JStr "FINALIZED") ->
  exists b, final_bundle js r = Ok b /\ vd_verdict (verify_bundle b trust false) = "VALID_FINALIZED".
Proof.
  induction new as [|x new IH]; intros Hc Hr Hk; [by apply elem_of_nil in Hr|].
  cbn [check_finals] in Hc. res_inv Hc.
  apply elem_of_cons in Hr as [<- |Hr].
  - rewrite Hk in E. injection E as <-. cbn [py_eqb] in Hc. rewrite str_eqb_refl in Hc. cbn [negb] in Hc. res_inv Hc.
  destruct (final_bundle js r) as [b|] eqn:Eb; [|done]. injection E as <-. exists b. split; [done|].
  destruct (str_eqb _ _) eqn:Ev; [|done]. by apply str_eqb_spec in Ev.
  - destruct (negb _); [by apply IH|]. res_inv Hc. destruct (str_eqb _ _); [by apply IH|done].
Qed.

(** A checkpoint is signed only when every FINALIZED record past the
    last witnessed head carries a certificate whose bundle, rebuilt from
    the journal shown, the offline verifier accepts. *)
Theorem witness_checks_finality w data t js cp start r :
  read_journal loads data = Ok js -> (publish loads w data t).2 = Ok cp ->
  match wt_state w with None => start = 0 | Some st => extends_seen st js = Ok (inl start) end ->
  r ∈ drop start js -> item "kind" r = Ok (JStr "FINALIZED") ->
  exists b, final_bundle js r = Ok b /\ vd_verdict (verify_bundle b (wt_trust w) false) = "VALID_FINALIZED".
Proof.
  intros R O Hn Hr Hk. destruct (publish loads w data t) as [w' [cp'|e]] eqn:E; [|done].
  destruct (publish_Ok _ _ _ _ _ _ E) as (js' & st & Hr' & _ & _ & _ & _ & start' & Hs & Hf).
  rewrite R in Hr'. injection Hr' as <-.
  assert (start' = start) as -> by (destruct (wt_state w); congruence). by eapply check_finals_Ok.
Qed.
End properties.

(** ** A concrete witness over two journals *)

Definition demo_other : store * list record :=
  after (submit (Demo.cfg None) (Demo.request Demo.ID "k" "w" 0 (sn_root (read Demo.s0))) (Demo.start Demo.s0 [] None)).
Definition wdemo_journals : list record := Demo.run1.2 ++ demo_other.2.
Definition wdemo_loads (line : list ascii) : option json :=
  list_find (fun r => line_of r = line) wdemo_journals ≫= fun ir => Some (record_json ir.2).
Definition wdemo : witness :=
  mk_witness Demo.wit_sk (Demo.kid_of Demo.wit_sk)
    (mk_trust (Demo.ring Demo.auth_sk) (Demo.ring Demo.fin_sk) ∅) None None [] [].
Definition wfile1 : list ascii := file_of (take 2 Demo.run1.2).
Definition wfile2 : list ascii := file_of Demo.run1.2.
Definition wfile3 : list ascii := file_of demo_other.2.
Definition ok_of {E A} (d : A) (r : res E A) : A := match r with Ok a => a | Err _ => d end.
Definition wdemo1 : witness := (observe wdemo_loads wdemo wfile1 "1000000Z").1.
Definition wcp0 : signed json := mk_signed "" "" JNull "".
Definition wcp1 : signed json := ok_of wcp0 (observe wdemo_loads wdemo wfile1 "1000000Z").2.
Definition wcp2 : signed json := ok_of wcp0 (publish wdemo_loads (restart wdemo1) wfile2 "1000001Z").2.

Lemma witness_no_fork_witness :
  keeps (ok_of [] (read_journal wdemo_loads wfile1)) (ok_of [] (read_journal wdemo_loads wfile2)).
Proof.
  destruct (witness_no_fork wdemo_loads wdemo wdemo1 (restart wdemo1) wfile1 wfile2 "1000000Z" "1000001Z"
    (ok_of [] (read_journal wdemo_loads wfile1)) (ok_of [] (read_journal wdemo_loads wfile2)) wcp1 wcp2) as [Hk _].
  - vm_compute. reflexivity.
  - vm_compute. reflexivity.
  - eapply steps_snoc; [apply steps_refl|apply ws_restart].
  - vm_compute. reflexivity.
  - vm_compute. reflexivity.
  - exact Hk.
Defined.

(** A witness that dies between publishing and saving, restarted, signs a
    journal that differs from the first record on. *)
Example unsaved_fork :
  let w := restart (publish wdemo_loads wdemo wfile2 "1000000Z").1 in
  length (wt_checkpoints w) = 1 /\ length (wt_checkpoints (observe wdemo_loads w wfile3 "1000001Z").1) = 2
  /\ gets "hash" (default JNull (ok_of [] (read_journal wdemo_loads wfile2) !! 0))
     <> gets "hash" (default JNull (ok_of [] (read_journal wdemo_loads wfile3) !! 0)).
Proof. split_and!; vm_compute; [reflexivity|reflexivity|discriminate]. Qed.
