(* ===== verification/Eee.v ===== *)
(** * EEE envelopes of journal outcomes (vdb_c1/eee.py)

    One signed envelope per terminal journal record, derived from the
    journal alone.  The hash of the enforcer's source files is a parameter.
    The theorems compare the envelopes with the state store. *)

From Stdlib Require Import ZArith Lia String.
From stdpp Require Import base gmap strings list pretty.
From S2P Require Import Prelude Canon VdbStates Journal StateAdapter Coordinator CrashSafety CrashProofs VdbExample CrashTheorems VerifyProofs.

Definition EEE_VERSION : string := "0.1.0".
Definition CAPABILITY_ID : string := "vdb.c1.upsert".
Definition POLICY_BUNDLE_ID : string := "vdb-c1-admission-v1".
Definition POLICY_RULES : list string :=
  ["schema.exact"; "protocol"; "op.upsert"; "namespace"; "kid.match"; "key.trusted"; "signature";
   "validity.window"; "ttl.max"; "precondition.generation"; "precondition.root"; "commit.fresh_read"].
(** [TERMINAL] of eee.py: the kinds that get an envelope. *)
Definition EEE_TERMINAL (k : kind) : bool :=
  match k with
  | FINALIZED | ADMISSION_REJECTED | PRECONDITION_REJECTED | ABORTED => true
  | _ => false
  end.

Section eee.
Context `{Ext} (build_hash : string).

Definition enforcer : json :=
  JObj [("name", JStr "vdb_c1"); ("version", JStr "1.0.0"); ("build_hash", JStr build_hash)].

Definition capability (namespace : string) : json :=
  JObj [("capability_id", JStr CAPABILITY_ID); ("op", JStr "UPSERT"); ("namespace", JStr namespace);
      ("key_max", JInt 256); ("value_max", JInt 65536)].

Definition decision (gate rule dec at_ reason : string) : json :=
  JObj [("gate", JStr gate); ("rule_id", JStr rule); ("decision", JStr dec);
      ("evaluated_at", JStr at_); ("latency_ms", JInt 0); ("reason_code", JStr reason)].

(** [_root]: the hash and signature members are left out. *)
Definition env_root (env : list (string * json)) : string :=
  digest (JObj (filter (fun kv => kv.1 ∉ ["envelope_hash"; "previous_envelope_hash"; "signatures"]) env)).

(** The intent's binding records up to the terminal one. *)
Definition env_binding (records : list record) (t : record) : list record :=
  filter (fun r => r_intent_id r = r_intent_id t /\ (r_seq r <= r_seq t)%nat /\ BINDING_KINDS (r_kind r) = true)
  records.

Definition env_prepared (b : list record) : option record :=
  match b with r :: _ => if decide (r_kind r = PREPARED) then Some r else None | [] => None end.

(** [intent], when the attempt was admitted; the outer [None] is a
    [KeyError]. *)
Definition env_intent (prepared : option record) (t : record) : option (option json) :=
  match prepared with
  | Some p => s ← body_signed_intent (r_body p); q ← jget "payload" s; Some (Some q)
  | None => if decide (r_kind t = PRECONDITION_REJECTED)
          then s ← body_signed_intent (r_body t); q ← jget "payload" s; Some (Some q)
          else Some None
  end.

(** [intent[k] if intent else default]. *)
Definition intent_or (intent : option json) (k : string) (d : string) : option json :=
  match intent with Some q => jget k q | None => Some (JStr d) end.

Definition env_status (k : kind) : string :=
  match k with FINALIZED => "completed" | ABORTED => "error" | _ => "denied" end.

(** [started] and the policy decisions. *)
Definition env_decisions (k : kind) (prepared : option record) (at_ reason : string)
  : option (string * list json) :=
  match k with
  | ADMISSION_REJECTED => Some (at_, [decision "admission" "admission" "deny" at_ reason])
  | PRECONDITION_REJECTED =>
    Some (at_, [decision "admission" "admission" "allow" at_ "ADMITTED";
                decision "precondition" "precondition" "deny" at_ reason])
  | _ =>
  p ← prepared;
  let started := r_at p in
  Some (started, [decision "admission" "admission" "allow" started "ADMITTED";
                  decision "precondition" "precondition" "allow" started "PRECONDITIONS_MET";
                  decision "commit" "commit.fresh_read"
                    (if decide (k = FINALIZED) then "allow" else "deny") at_ reason])
  end.

(** [output_commitment]. *)
Definition env_output (b : list record) (t : record) (reason : string) : option string :=
  if decide (r_kind t = FINALIZED) then
  match list_find (fun r => r_kind r = COMMITTED) b with
  | Some (_, c) => match r_body c with BCommitted cb => Some (cb_post_root cb) | _ => None end
  | None => None
  end
  else Some (digest (JObj [("protocol", JStr "veklom.vdb.c1.outcome/v1"); ("intent_id", JStr (r_intent_id t));
                         ("outcome", JStr (kind_str (r_kind t))); ("reason", JStr reason)])).

Definition body_payload_commitment (b : body) : option string :=
  match b with BPrepared pb => Some (pb_payload_commitment pb) | _ => None end.

Definition envelope_for (records : list record) (t : record) (namespace store_id : string)
  (sk : privkey) (kid : string) : option (list (string * json)) :=
  let iid := r_intent_id t in let k := r_kind t in let at_ := r_at t in
  let b := env_binding records t in
  let prepared := env_prepared b in
  intent ← env_intent prepared t;
  let issuer := "urn:veklom:vdb-c1:" +:+ store_id in
  let upsert := "state:upsert:" +:+ namespace in
  let reason := match body_reason (r_body t) with Some r => r | None => kind_str k end in
  sd ← env_decisions k prepared at_ reason;
  output ← env_output b t reason;
  authority_kid ← intent_or intent "authority_kid" "unadmitted";
  issued_at ← intent_or intent "issued_at" at_;
  expires_at ← intent_or intent "expires_at" at_;
  commitment ← match prepared with
             | Some p => Some <$> body_payload_commitment (r_body p)
             | None => Some None
             end;
  let evidence := "journal:" +:+ pretty (r_seq t) +:+ ":" +:+ r_hash t in
  let ih := match body_intent_hash (r_body t) with
          | Some h => if str_eqb h "" then digest JNull else h
          | None => digest JNull end in
  let env :=
  [("eee_version", JStr EEE_VERSION); ("hash_alg", JStr "SHA-256");
   ("execution_id", JStr (if bool_decide (k = FINALIZED) || bool_decide (k = ABORTED) then iid
                          else iid +:+ "#" +:+ pretty (r_seq t)));
   ("idempotency_key", JStr iid); ("issuer", JStr issuer); ("enforcer", enforcer);
   ("participant_identity", JObj [("scheme", JStr "ed25519-kid"); ("identifier", authority_kid)]);
   ("principal", JObj [("scheme", JStr "ed25519-kid"); ("identifier", authority_kid)]);
   ("capability_id", JStr CAPABILITY_ID); ("capability_hash", JStr (digest (capability namespace)));
   ("capability_attenuation", JObj [("resource_allowlist", JArr [JStr namespace]);
      ("argument_constraints", JObj [("key_max", JInt 256); ("value_max", JInt 65536)]);
      ("delegation_depth", JInt 0); ("delegation_depth_max", JInt 0)]);
   ("runtime_lineage", JObj [("model", JStr "none"); ("model_version", JStr "none");
      ("framework", JStr "vdb_c1"); ("framework_version", JStr "1.0.0");
      ("config_hash", JStr (digest (JObj [("adapter", JStr "sqlite-wal/v1");
         ("journal_mode", JStr "wal"); ("synchronous", JStr "FULL")])))]);
   ("authority_chain", JArr [JObj [("type", JStr "capability-grant"); ("artifact_hash", JStr ih);
      ("issuer", authority_kid); ("granted_at", issued_at); ("expires_at", expires_at)]]);
   ("authority_window", JObj [("not_before", issued_at); ("not_after", expires_at)]);
   ("revocation_check", JObj [("method", JStr "none"); ("checked_at", JStr sd.1);
      ("result", JStr "single-use, expiring intent; no revocation list")]);
   ("policy_bundle_id", JStr POLICY_BUNDLE_ID);
   ("policy_hash", JStr (digest (JObj [("bundle_id", JStr POLICY_BUNDLE_ID);
                                       ("rules", JArr (map JStr POLICY_RULES))])));
   ("policy_decisions", JArr sd.2); ("enforcement_mode", JStr "fail-closed");
   ("input_commitment", JStr (match commitment with Some c => c | None => ih end));
   ("effect_grammar", JStr "EEE-EFFECTS-1");
   ("allowed_effects", JArr (if decide (k <> ADMISSION_REJECTED) then [JStr upsert] else []));
   ("actual_effects", JArr (if decide (k = FINALIZED) then [JStr upsert] else []));
   ("tool_actions", JArr match commitment with
      | Some c => [JObj [("tool", JStr "sqlite-wal"); ("action_hash", JStr c);
                         ("decision", JStr (if decide (k = FINALIZED) then "committed" else "not_committed"));
                         ("evidence_ref", JStr evidence)]]
      | None => [] end);
   ("budget", JObj [("granted", JObj [("writes", JInt 1)]);
                    ("consumed", JObj [("writes", JInt (if decide (k = FINALIZED) then 1 else 0))])]);
   ("started_at", JStr sd.1); ("ended_at", JStr at_); ("output_commitment", JStr output);
   ("status", JStr (env_status k)); ("violations", JArr []); ("validators", JArr []);
   ("timestamps", JObj [("issued_at", JStr at_)])] in
  let h := env_root env in
  Some (env ++ [("envelope_hash", JStr h);
              ("signatures", JArr [JObj [("signer", JStr (issuer +:+ "#" +:+ kid)); ("kid", JStr kid);
                 ("scheme", JStr "Ed25519"); ("value", JStr (b64u (ed_sign sk h))); ("signed_at", JStr at_)]])]).

Definition envelopes_from_journal (records : list record) (namespace store_id : string)
  (sk : privkey) (kid : string) : option (list (list (string * json))) :=
  mapM (fun r => envelope_for records r namespace store_id sk kid)
  (filter (fun r => EEE_TERMINAL (r_kind r) = true) records).

(** ** Lemmas *)

Lemma filter_all {A} (P : A -> Prop) `{!forall x, Decision (P x)} (l : list A) :
  Forall P l -> filter P l = l.
Proof. induction 1 as [|x l Hx _ IH]; [done|]. by rewrite filter_cons, decide_True, IH. Qed.

Lemma env_binding_all js iid l t :
  chain_ok js = true -> binding js iid = l ++ [t] -> env_binding js t = l ++ [t].
Proof.
  intros Hc Hb. rewrite <- Hb.
  assert (Ht : t ∈ binding js iid) by (rewrite Hb; set_solver).
  apply binding_elem in Ht as [_ Hid].
  rewrite binding_filter in Hb |- *. unfold env_binding.
  assert (HF : Forall (fun r => (r_seq r <= r_seq t)%nat)
               (filter (fun r => BINDING_KINDS (r_kind r) = true /\ r_intent_id r = iid) js)).
  { destruct (filter_snoc_split _ _ _ _ Hb) as (l1 & l2 & -> & H1 & H2).
  rewrite filter_app, filter_cons, H2. apply Forall_app.
  assert (Hs : r_seq t = length l1).
  { eapply chain_seq; [exact Hc|]. by rewrite list_lookup_middle. }
  split; [|case_decide; [apply Forall_singleton; lia|constructor]].
  apply Forall_forall. intros r [_ Hr]%list_elem_of_filter.
  apply list_elem_of_lookup in Hr as [n Hn].
  rewrite (chain_seq (l1 ++ t :: l2) n r Hc) by (by apply lookup_app_l_Some).
  apply lookup_lt_Some in Hn. lia. }
  transitivity (filter (fun r => (r_seq r <= r_seq t)%nat)
  (filter (fun r => BINDING_KINDS (r_kind r) = true /\ r_intent_id r = iid) js)).
  - rewrite list_filter_filter. apply list_filter_iff. intros r. rewrite Hid. tauto.
  - by apply filter_all.
Qed.

(** The envelope of a closed trail, member by member. *)
Lemma envelope_closed js iid pb i l t ns sid auth fsk fkid ph sk kid :
  chain_ok js = true -> binding js iid = l ++ [t] -> trail ns sid auth fsk fkid iid pb i (l ++ [t]) ph ->
  r_kind t = FINALIZED \/ r_kind t = ABORTED ->
  (r_kind t = FINALIZED -> exists c cb, list_find (fun r => r_kind r = COMMITTED) (l ++ [t]) = Some c
    /\ r_body c.2 = BCommitted cb) ->
  exists env, envelope_for js t ns sid sk kid = Some env
  /\ assoc "status" env = Some (JStr (env_status (r_kind t)))
  /\ assoc "idempotency_key" env = Some (JStr iid)
  /\ assoc "actual_effects" env
     = Some (JArr (if decide (r_kind t = FINALIZED) then [JStr ("state:upsert:" +:+ ns)] else []))
  /\ (r_kind t = FINALIZED -> exists c cb, list_find (fun r => r_kind r = COMMITTED) (l ++ [t]) = Some c
       /\ r_body c.2 = BCommitted cb /\ assoc "output_commitment" env = Some (JStr (cb_post_root cb))).
Proof.
  intros Hc Hb Ht Hk Hcom. unfold envelope_for. rewrite (env_binding_all js iid l t Hc Hb).
  destruct (trail_head _ _ _ _ _ _ _ _ _ _ Ht) as (p & rest & Hrs & Hp & Hkp & Hg).
  assert (Hid : r_intent_id t = iid).
  { assert (Hin : t ∈ binding js iid) by (rewrite Hb; set_solver). by apply binding_elem in Hin as [_ ?]. }
  destruct Hg as [(q & Hq & Hd & _) _].
  unfold decode_intent in Hd. repeat (apply bind_Some in Hd as (? & ? & Hd)).
  assert (Hpr : env_prepared (l ++ [t]) = Some p) by (rewrite Hrs; simpl; by rewrite decide_True).
  rewrite Hpr. cbn [env_intent]. rewrite Hp. cbn [body_signed_intent mbind option_bind]. rewrite Hq.
  cbn [mbind option_bind].
  assert (Hget : forall k v, gets k q = Some v -> jget k q = Some (JStr v)).
  { intros k v. unfold gets. destruct (jget k q) as [[]|]; simpl; try done. by intros [= ->]. }
  unfold env_output, env_decisions, intent_or.
  repeat match goal with E : gets ?k q = Some _ |- _ => rewrite (Hget _ _ E); clear E end.
  destruct Hk as [Hk|Hk]; rewrite Hk; cbn [decide mbind option_bind].
  - destruct (Hcom Hk) as ([n c] & cb & Hf & Hcb). rewrite Hf. cbn [snd] in Hcb.
  rewrite decide_True by done. rewrite Hcb. cbn [mbind option_bind body_payload_commitment fmap option_fmap option_map].
  eexists. split; [reflexivity|]. rewrite Hid.
  split; [reflexivity|]. split; [reflexivity|]. split; [reflexivity|].
  intros _. exists (n, c), cb. split; [done|]. split; [done|]. reflexivity.
  - rewrite decide_False by done.
  cbn [mbind option_bind body_payload_commitment fmap option_fmap option_map].
  eexists. split; [reflexivity|]. rewrite Hid.
  split; [reflexivity|]. split; [reflexivity|]. split; [reflexivity|]. done.
Qed.
End eee.

Section properties.
Context `{Ext} (ns sid : string) (auth : keyring) (fsk : privkey) (fkid : string).
Hypothesis unknown_no_uuid : uuid_ok "unknown" = false.

(** A FINALIZED or ABORTED record closes its intent's trail. *)
Lemma closing_record s js act t :
  Inv ns sid auth fsk fkid s js act -> t ∈ js -> r_kind t = FINALIZED \/ r_kind t = ABORTED ->
  exists pb i l ph, binding js (r_intent_id t) = l ++ [t]
  /\ trail ns sid auth fsk fkid (r_intent_id t) pb i (l ++ [t]) ph
  /\ consistent ns s (r_intent_id t) pb i ph
  /\ (ph = PhFinalized <-> r_kind t = FINALIZED) /\ (ph = PhAborted <-> r_kind t = ABORTED).
Proof.
  intros HI Hin Hk.
  assert (Hb : t ∈ binding js (r_intent_id t)).
  { unfold binding, for_intent. rewrite !list_elem_of_filter. destruct Hk as [-> | ->]; done. }
  destruct (inv_status _ _ _ _ _ _ _ _ HI (r_intent_id t)) as [[Hn _]|(pb & i & ph & Ht & Hc & _)].
  { rewrite Hn in Hb. by apply elem_of_nil in Hb. }
  pose proof (trail_kinds _ _ _ _ _ _ _ _ _ _ Ht) as Hks.
  destruct (last (binding js (r_intent_id t))) as [x|] eqn:El.
  2:{ apply last_None in El. rewrite El in Hb. by apply elem_of_nil in Hb. }
  apply last_Some in El as [l El]. rewrite El in Hb, Hks, Ht |- *.
  assert (Hx : t = x /\ (ph = PhFinalized <-> r_kind t = FINALIZED) /\ (ph = PhAborted <-> r_kind t = ABORTED)).
  { apply elem_of_app in Hb. rewrite map_app in Hks. simpl in Hks.
  assert (Hl : t ∈ l -> r_kind t ∈ map r_kind l) by (intros ?; by apply list_elem_of_fmap_2).
  destruct ph; simpl in Hks; repeat destruct Hks as [Hks|Hks];
    repeat match type of Hks with _ ++ [_] = ?rhs =>
      let ks := eval vm_compute in (take (length rhs - 1) rhs) in
      let k := eval vm_compute in (drop (length rhs - 1) rhs) in
      change rhs with (ks ++ k) in Hks; apply app_inj_tail in Hks as [Hm Hxk] end;
    (destruct Hb as [Hb| ->%list_elem_of_singleton];
     [specialize (Hl Hb); rewrite Hm in Hl; destruct Hk as [Hk|Hk]; rewrite Hk in Hl; set_solver
     |rewrite Hxk in *; split; [done|]; destruct Hk as [Hk|Hk]; try done; split; split; done]). }
  destruct Hx as (-> & H1 & H2). exists pb, i, l, ph. by split_and!.
Qed.

(** In a reachable state every FINALIZED or ABORTED journal record has
    an envelope, and its claims match the store: a completed envelope lists
    the UPSERT as the actual effect and commits to the post-state root in
    the intent's applied row; an error envelope lists no effect, and the
    store has no row for the intent. *)
Theorem envelopes_match_store build sk kid s js t :
  reachable ns sid auth fsk fkid (s, js) -> t ∈ js -> r_kind t = FINALIZED \/ r_kind t = ABORTED ->
  exists env, envelope_for build js t ns sid sk kid = Some env
  /\ assoc "idempotency_key" env = Some (JStr (r_intent_id t)) /\
  match applied s (r_intent_id t) with
  | Some a => assoc "status" env = Some (JStr "completed")
      /\ assoc "actual_effects" env = Some (JArr [JStr ("state:upsert:" +:+ ns)])
      /\ assoc "output_commitment" env = Some (JStr (ar_post_root a))
  | None => assoc "status" env = Some (JStr "error") /\ assoc "actual_effects" env = Some (JArr [])
  end.
Proof.
  intros Hr Hin Hk. destruct (reachable_safe _ _ _ _ _ unknown_no_uuid _ Hr) as [act HI]. simpl in HI.
  destruct (closing_record s js act t HI Hin Hk) as (pb & i & l & ph & Hb & Ht & Hc & Hf & Ha).
  pose (cfg := mk_config None (fun _ => 0%Z) auth fsk fkid).
  assert (Hcom : r_kind t = FINALIZED -> exists c cb,
  list_find (fun r => r_kind r = COMMITTED) (l ++ [t]) = Some c /\ r_body c.2 = BCommitted cb
  /\ good_cb ns sid (r_intent_id t) pb i cb).
  { intros Hkt. apply Hf in Hkt. subst ph.
  destruct (trail_finalized_inv ns sid cfg _ _ _ _ Ht)
    as (p & rest & c & f & cb & Heq & _ & Hkc & Hcb & Hg & _ & _ & _ & Hnc & _).
  exists (length (p :: rest), c), cb. rewrite Heq. split_and!; try done.
  rewrite list_find_app_r by (by apply list_find_None). simpl.
  rewrite decide_True by done. simpl. by rewrite ?Nat.add_0_r. }
  destruct (envelope_closed build js _ pb i l t ns sid auth fsk fkid ph sk kid
            (inv_chain _ _ _ _ _ _ _ _ HI) Hb Ht Hk) as (env & He & Hst & Hid & Hact & Hout).
  { intros Hkt. destruct (Hcom Hkt) as (c & cb & H1 & H2 & _). eauto. }
  exists env. split; [done|]. split; [done|]. destruct Hk as [Hk|Hk].
  - apply Hf in Hk as Hph. subst ph. destruct Hc as (a & -> & (_ & _ & _ & Hroot)).
  rewrite Hk in Hst, Hact. split; [done|]. split; [done|].
  destruct (Hout Hk) as (c & cb & H1 & H2 & ->). destruct (Hcom Hk) as (c' & cb' & H1' & H2' & Hg).
  rewrite H1 in H1'. injection H1' as <-. rewrite H2 in H2'. injection H2' as <-.
  destruct Hg as (_ & _ & _ & -> & _). by rewrite Hroot.
  - apply Ha in Hk as Hph. subst ph. simpl in Hc. rewrite Hc. rewrite Hk in Hst, Hact. done.
Qed.
End properties.

Definition edemo_t : record := default (mk_record "" 0 "" "" PREPARED "" (BCommitting None) "") (Demo.run1.2 !! 3).

Lemma envelopes_match_store_witness :
  exists env, envelope_for "b" Demo.run1.2 edemo_t Demo.NS Demo.SID Demo.fin_sk "kid" = Some env.
Proof.
  destruct (envelopes_match_store Demo.NS Demo.SID (Demo.ring Demo.auth_sk) Demo.fin_sk
    (Demo.kid_of Demo.fin_sk) eq_refl "b" Demo.fin_sk "kid" Demo.run1.1 Demo.run1.2 edemo_t) as (env & He & _).
  - eapply steps_snoc; [apply steps_refl|].
    refine (step_submit _ _ _ (Demo.cfg None) Demo.req (Demo.start Demo.s0 [] None) _).
    split_and!; reflexivity.
  - apply list_elem_of_lookup. exists 3. vm_compute. reflexivity.
  - left. vm_compute. reflexivity.
  - exists env. exact He.
Defined.
