(* ===== verification/P5Engine.v ===== *)
(** * The P5 truth-state engine (cappo_backend/p5/engine.py, states.py, models.py)

    The three P5 tables, the transition table and every public method of
    [P5Engine].  A method is a function from the committed tables to an
    exception or the tables after its commit; an exception rolls back.  The
    uuids and clock readings a call draws are its [stamp] argument. *)

From Stdlib Require Import ZArith Lia String.
From stdpp Require Import base gmap strings list pretty.
From S2P Require Import Prelude Canon PyJson.

Inductive TruthState :=
  | REQUESTED | AUTHORIZED | EXECUTION_STARTED | OUTCOME_UNKNOWN | COMPLETED_SUCCESS
  | COMPLETED_FAILURE | OBSERVED_EFFECT | COMPENSATED | ABANDONED_REQUIRES_HUMAN.
#[export] Instance TruthState_eq_dec : EqDecision TruthState.
Proof. solve_decision. Defined.

(** [TruthState.X.value]. *)
Definition ts_value (s : TruthState) : string :=
  match s with
  | REQUESTED => "REQUESTED" | AUTHORIZED => "AUTHORIZED" | EXECUTION_STARTED => "EXECUTION_STARTED"
  | OUTCOME_UNKNOWN => "OUTCOME_UNKNOWN" | COMPLETED_SUCCESS => "COMPLETED_SUCCESS"
  | COMPLETED_FAILURE => "COMPLETED_FAILURE" | OBSERVED_EFFECT => "OBSERVED_EFFECT"
  | COMPENSATED => "COMPENSATED" | ABANDONED_REQUIRES_HUMAN => "ABANDONED_REQUIRES_HUMAN"
  end.

(** [str(x)]: a member of a [(str, Enum)] class prints with its class name, a
    plain str loaded from the database prints as itself. *)
Definition ts_str (enum : bool) (s : TruthState) : string :=
  if enum then "TruthState." +:+ ts_value s else ts_value s.

Definition E_NON_IDEMPOTENT : string := "E_NON_IDEMPOTENT".

(** [P5EventType], the members the engine appends. *)
Inductive P5EventType :=
  | EvIntentRequested | EvAuthorized | EvStarted | EvUnknown | EvSuccess | EvFailure | EvObserved.
#[export] Instance P5EventType_eq_dec : EqDecision P5EventType.
Proof. solve_decision. Defined.
Definition ev_value (t : P5EventType) : string :=
  match t with
  | EvIntentRequested => "p5.intent.requested" | EvAuthorized => "p5.cappo.authorized"
  | EvStarted => "p5.execution.started" | EvUnknown => "p5.outcome.unknown"
  | EvSuccess => "p5.truth.completed_success" | EvFailure => "p5.truth.completed_failure"
  | EvObserved => "p5.observed_effect"
  end.

(** ** Tables *)

(** [op_enum]: the session holds the state as an enum member (it was set in
    this session), not as the str a load gives. *)
Record P5Operation := mk_op {
  op_id : string; op_consequence_id : string; op_sink_class : string; op_state : TruthState;
  op_enum : bool; op_intent_hash : string; op_actor : string; op_assurance : option string;
  op_version : Z }.
#[export] Instance P5Operation_eq_dec : EqDecision P5Operation.
Proof. solve_decision. Defined.

Record P5Event := mk_event {
  ev_id : string; ev_op : string; ev_seq : nat; ev_prev_hash : option string;
  ev_type : P5EventType; ev_prev_state : option string; ev_asserted : option string;
  ev_proof_type : option string; ev_proof_subject_hash : option string;
  ev_decision_id : option string; ev_hash : string; ev_assurance : option string; ev_created_at : string }.

Inductive outbox_status := PENDING | IN_PROGRESS | SENT | FAILED_RETRYABLE | DEAD_LETTER.
#[export] Instance outbox_status_eq_dec : EqDecision outbox_status.
Proof. solve_decision. Defined.

Record P5Outbox := mk_outbox {
  ob_id : string; ob_event_id : string; ob_target : string; ob_payload_hash : string;
  ob_status : outbox_status; ob_attempts : nat; ob_last_error : option string; ob_created_at : string }.

Record p5_db := mk_p5_db {
  db_ops : gmap string P5Operation; db_events : list P5Event; db_outbox : list P5Outbox }.

Inductive p5_err :=
  | KeyErrorP5 | IntegrityErrorP5 | ForbiddenTransition | TransitionConflict
  | TruthTransitionDenied | ClassERetryDenied.

(** [_ALLOWED_TRANSITIONS]. *)
Definition ALLOWED (s : TruthState) : list TruthState :=
  match s with
  | REQUESTED => [AUTHORIZED]
  | AUTHORIZED => [EXECUTION_STARTED]
  | EXECUTION_STARTED => [OUTCOME_UNKNOWN; COMPLETED_SUCCESS; COMPLETED_FAILURE; OBSERVED_EFFECT]
  | OUTCOME_UNKNOWN => [COMPLETED_SUCCESS; COMPLETED_FAILURE; OBSERVED_EFFECT; COMPENSATED;
                        ABANDONED_REQUIRES_HUMAN]
  | OBSERVED_EFFECT => [COMPLETED_SUCCESS; COMPLETED_FAILURE; COMPENSATED; ABANDONED_REQUIRES_HUMAN]
  | COMPLETED_SUCCESS | COMPLETED_FAILURE | COMPENSATED | ABANDONED_REQUIRES_HUMAN => []
  end.

(** [event_id], [outbox_id] and [created_at.isoformat()] of one append. *)
Record stamp := mk_stamp { sp_event : string; sp_outbox : string; sp_at : string }.

Definition join_bar (l : list string) : string := String.concat "|" l.
Definition or_empty (o : option string) : string := match o with Some s => s | None => "" end.
(** [bool(x)] of an optional str. *)
Definition truthy (o : option string) : bool :=
  match o with Some s => negb (str_eqb s "") | None => false end.

(** [json.dumps(payload, sort_keys=True)]. *)
Definition json_dumps (payload : list (string * json)) : string := py_dumps_default (JObj payload).

Section engine.
Context `{Ext}.

Definition compute_proof_subject_hash (operation_id intent_hash candidate_act_hash authority_id
  execution_identity sink_id previous_truth_state asserted_truth_state consequence_identity
  proof_type : string) : string :=
  sha256_hex (join_bar [operation_id; intent_hash; candidate_act_hash; authority_id;
  execution_identity; sink_id; previous_truth_state; asserted_truth_state; consequence_identity;
  proof_type]).

Definition compute_event_hash (event_id operation_id : string) (event_sequence : nat)
  (previous_event_hash : option string) (event_type : string)
  (previous_truth_state asserted_truth_state proof_type proof_subject_hash cappo_decision_id
   : option string) (created_at : string) : string :=
  sha256_hex (join_bar [event_id; operation_id; pretty event_sequence; or_empty previous_event_hash;
  event_type; or_empty previous_truth_state; or_empty asserted_truth_state; or_empty proof_type;
  or_empty proof_subject_hash; or_empty cappo_decision_id; created_at]).

(** The hash of an event row, recomputed. *)
Definition event_hash_of (e : P5Event) : string :=
  compute_event_hash (ev_id e) (ev_op e) (ev_seq e) (ev_prev_hash e) (ev_value (ev_type e))
  (ev_prev_state e) (ev_asserted e) (ev_proof_type e) (ev_proof_subject_hash e)
  (ev_decision_id e) (ev_created_at e).

(** The payload sent downstream for an event. *)
Definition event_payload (e : P5Event) : list (string * json) :=
  [("event_id", JStr (ev_id e)); ("operation_id", JStr (ev_op e));
  ("p5_truth_state", jopt (if truthy (ev_asserted e) then ev_asserted e else ev_prev_state e));
  ("event_hash", JStr (ev_hash e)); ("previous_event_hash", jopt (ev_prev_hash e))]
  ++ (if truthy (ev_proof_subject_hash e) then [("proof_subject_hash", jopt (ev_proof_subject_hash e))] else [])
  ++ (if truthy (ev_decision_id e) then [("cappo_decision_id", jopt (ev_decision_id e))] else []).

Definition events_of (db : p5_db) (operation_id : string) : list P5Event :=
  filter (fun e => ev_op e = operation_id) (db_events db).

(** [_next_sequence]: MAX(event_sequence) + 1, or 0. *)
Definition next_sequence (db : p5_db) (operation_id : string) : nat :=
  match events_of db operation_id with
  | [] => 0
  | es => S (max_list (map ev_seq es))
  end.

(** [_load]. *)
Definition load_op (db : p5_db) (operation_id : string) : res p5_err P5Operation :=
  match db_ops db !! operation_id with Some op => Ok op | None => Err KeyErrorP5 end.

(** [_append_event]: the event row and its PENDING outbox row. *)
Definition append_event (db : p5_db) (operation_id : string) (t : P5EventType)
  (prev_state asserted : option string) (proof_type proof_subject_hash decision_id assurance : option string)
  (st : stamp) : p5_db :=
  let seq := next_sequence db operation_id in
  let prev_hash :=
  match seq with
  | 0 => None
  | S n => match list_find (fun e => ev_seq e = n) (events_of db operation_id) with
           | Some (_, e) => Some (ev_hash e)
           | None => None
           end
  end in
  let h := compute_event_hash (sp_event st) operation_id seq prev_hash (ev_value t) prev_state asserted
           proof_type proof_subject_hash decision_id (sp_at st) in
  let e := mk_event (sp_event st) operation_id seq prev_hash t prev_state asserted proof_type
           proof_subject_hash decision_id h assurance (sp_at st) in
  mk_p5_db (db_ops db) (db_events db ++ [e])
  (db_outbox db ++ [mk_outbox (sp_outbox st) (sp_event st) "PGL"
                      (sha256_hex (json_dumps (event_payload e))) PENDING 0 None (sp_at st)]).

Definition set_op (db : p5_db) (op : P5Operation) : p5_db :=
  mk_p5_db (<[op_id op := op]> (db_ops db)) (db_events db) (db_outbox db).

(** [op.current_truth_state = s; op.version += 1]. *)
Definition moved (op : P5Operation) (s : TruthState) : P5Operation :=
  mk_op (op_id op) (op_consequence_id op) (op_sink_class op) s true (op_intent_hash op) (op_actor op)
  (op_assurance op) (op_version op + 1).
Definition with_assurance (op : P5Operation) (a : option string) : P5Operation :=
  mk_op (op_id op) (op_consequence_id op) (op_sink_class op) (op_state op) (op_enum op) (op_intent_hash op)
  (op_actor op) a (op_version op).

(** [_assert_transition]: the [op] argument is not looked at. *)
Definition assert_transition (from_state to_state : TruthState) : res p5_err unit :=
  raise_if (negb (bool_decide (to_state ∈ ALLOWED from_state))) ForbiddenTransition.

Definition create_operation (db : p5_db) (operation_id consequence_id sink_class intent_hash actor : string)
  (st : stamp) : res p5_err p5_db :=
  match db_ops db !! operation_id with
  | Some _ => Err IntegrityErrorP5
  | None =>
  let op := mk_op operation_id consequence_id sink_class REQUESTED true intent_hash actor None 0 in
  Ok (append_event (set_op db op) operation_id EvIntentRequested None (Some (ts_str true REQUESTED))
        None None None None st)
  end.

Definition authorize (db : p5_db) (operation_id decision_id : string) (st : stamp) : res p5_err p5_db :=
  let? op := load_op db operation_id in
  do? assert_transition REQUESTED AUTHORIZED in
  Ok (append_event (set_op db (moved op AUTHORIZED)) operation_id EvAuthorized
      (Some (ts_str true REQUESTED)) (Some (ts_str true AUTHORIZED)) None None (Some decision_id) None st).

(** [_assert_no_class_e_retry]. *)
Definition assert_no_class_e_retry (db : p5_db) (operation_id : string) : res p5_err unit :=
  raise_if (existsb (fun e => bool_decide (ev_type e = EvUnknown)) (events_of db operation_id))
  ClassERetryDenied.

(** The row after the UPDATE, as the reload reads it. *)
Definition claimed (cur : P5Operation) (expected_version : Z) : P5Operation :=
  mk_op (op_id cur) (op_consequence_id cur) (op_sink_class cur) EXECUTION_STARTED false
  (op_intent_hash cur) (op_actor cur) (op_assurance cur) (expected_version + 1).

(** The conditional UPDATE, with the version the worker loaded, and the
    append after the reload. *)
Definition claim (db : p5_db) (operation_id : string) (expected_version : Z) (st : stamp) : res p5_err p5_db :=
  match db_ops db !! operation_id with
  | Some cur =>
  if (op_version cur =? expected_version)%Z && bool_decide (op_state cur = AUTHORIZED) then
    Ok (append_event (set_op db (claimed cur expected_version)) operation_id EvStarted (Some (ts_str true AUTHORIZED))
          (Some (ts_str true EXECUTION_STARTED)) None None None None st)
  else Err TransitionConflict
  | None => Err TransitionConflict
  end.

(** The checks of [start_execution] on the loaded row: the version to
    claim. *)
Definition start_checks (db : p5_db) (op : P5Operation) : res p5_err Z :=
  do? (if str_eqb (op_sink_class op) E_NON_IDEMPOTENT then assert_no_class_e_retry db (op_id op) else Ok tt) in
  if decide (op_state op <> AUTHORIZED) then
  if decide (op_state op = EXECUTION_STARTED) then Err TransitionConflict else Err ForbiddenTransition
  else Ok (op_version op).

Definition start_execution (db : p5_db) (operation_id : string) (st : stamp) : res p5_err p5_db :=
  let? op := load_op db operation_id in
  let? v := start_checks db op in
  claim db operation_id v st.

Definition record_outcome_unknown (db : p5_db) (operation_id : string) (st : stamp) : res p5_err p5_db :=
  let? op := load_op db operation_id in
  do? assert_transition EXECUTION_STARTED OUTCOME_UNKNOWN in
  Ok (append_event (set_op db (moved op OUTCOME_UNKNOWN)) operation_id EvUnknown
      (Some (ts_str true EXECUTION_STARTED)) (Some (ts_str true OUTCOME_UNKNOWN))
      (Some "outcome_uncertain") None None None st).

Definition complete_success (db : p5_db) (operation_id : string) (proof_type proof_subject_hash
  decision_id : option string) (has_truth_transition : bool) (assurance : option string) (st : stamp)
  : res p5_err p5_db :=
  let? op := load_op db operation_id in
  do? raise_if (bool_decide (op_state op = AUTHORIZED)) ForbiddenTransition in
  do? raise_if (negb has_truth_transition) TruthTransitionDenied in
  do? assert_transition (op_state op) COMPLETED_SUCCESS in
  Ok (append_event (set_op db (with_assurance (moved op COMPLETED_SUCCESS) assurance)) operation_id EvSuccess
      (Some (ts_str (op_enum op) (op_state op))) (Some (ts_str true COMPLETED_SUCCESS))
      proof_type proof_subject_hash decision_id assurance st).

Definition complete_failure (db : p5_db) (operation_id : string) (proof_type proof_subject_hash
  decision_id : option string) (has_truth_transition : bool) (st : stamp) : res p5_err p5_db :=
  let? op := load_op db operation_id in
  do? raise_if (bool_decide (op_state op = AUTHORIZED)) ForbiddenTransition in
  do? raise_if (negb has_truth_transition) TruthTransitionDenied in
  do? assert_transition (op_state op) COMPLETED_FAILURE in
  Ok (append_event (set_op db (moved op COMPLETED_FAILURE)) operation_id EvFailure
      (Some (ts_str (op_enum op) (op_state op))) (Some (ts_str true COMPLETED_FAILURE))
      proof_type proof_subject_hash decision_id None st).

Definition record_observed_effect (db : p5_db) (operation_id : string) (st : stamp) : res p5_err p5_db :=
  let? op := load_op db operation_id in
  do? assert_transition (op_state op) OBSERVED_EFFECT in
  Ok (append_event (set_op db (moved op OBSERVED_EFFECT)) operation_id EvObserved
      (Some (ts_str (op_enum op) (op_state op))) (Some (ts_str true OBSERVED_EFFECT))
      (Some "observation") None None None st).

(** A new session: states load as plain str. *)
Definition reloaded (op : P5Operation) : P5Operation :=
  mk_op (op_id op) (op_consequence_id op) (op_sink_class op) (op_state op) false (op_intent_hash op)
  (op_actor op) (op_assurance op) (op_version op).
Definition new_session (db : p5_db) : p5_db :=
  mk_p5_db (reloaded <$> db_ops db) (db_events db) (db_outbox db).
End engine.
