(* ===== verification/P5Proofs.v ===== *)
(** * The P5 ledger: invariant and its preservation *)

From Stdlib Require Import ZArith Lia String.
From stdpp Require Import base gmap strings list pretty.
From S2P Require Import Prelude Canon PyJson P5Engine.

Section p5_proofs.
Context `{Ext}.

(** The events of one operation are numbered from 0, chained by hash, and
    carry the hash of their own fields. *)
Definition well_chained (es : list P5Event) : Prop :=
  forall n e, es !! n = Some e ->
  ev_seq e = n /\ ev_hash e = event_hash_of e /\
  ev_prev_hash e = match n with 0 => None | S m => ev_hash <$> es !! m end.

(** The head-of-state row against its event log. *)
Definition op_ok (db : p5_db) (id : string) (op : P5Operation) : Prop :=
  op_id op = id /\ well_chained (events_of db id)
  /\ (op_version op + 1)%Z = Z.of_nat (length (events_of db id))
  /\ (exists e, last (events_of db id) = Some e /\ ev_asserted e = Some (ts_str true (op_state op))).

Definition outbox_ok (ob : P5Outbox) (e : P5Event) : Prop :=
  ob_event_id ob = ev_id e /\ ob_payload_hash ob = sha256_hex (json_dumps (event_payload e)).

Record p5_inv (db : p5_db) : Prop := {
  pi_ops : forall id op, db_ops db !! id = Some op -> op_ok db id op;
  pi_none : forall id, db_ops db !! id = None -> events_of db id = [];
  pi_outbox : Forall2 outbox_ok (db_outbox db) (db_events db) }.

Lemma well_chained_seq es : well_chained es -> map ev_seq es = seq 0 (length es).
Proof.
  intros Hw. apply list_eq. intros n. rewrite list_lookup_fmap.
  destruct (es !! n) as [e|] eqn:E; simpl.
  - destruct (Hw n e E) as [-> _]. apply lookup_lt_Some in E. rewrite lookup_seq_lt by done. done.
  - apply lookup_ge_None in E. rewrite lookup_seq_ge by done. done.
Qed.

Lemma max_list_seq n : max_list (seq 0 (S n)) = n.
Proof.
  assert (Hm : forall a, max_list (seq a (S n)) = a + n); [|apply (Hm 0)].
  induction n as [|n IH]; intros a; [simpl; lia|].
  change (max_list (seq a (S (S n)))) with (Nat.max a (max_list (seq (S a) (S n)))). rewrite IH. lia.
Qed.

Lemma next_sequence_length db id :
  well_chained (events_of db id) -> next_sequence db id = length (events_of db id).
Proof.
  intros Hw. unfold next_sequence. destruct (events_of db id) as [|e es] eqn:E; [done|].
  rewrite (well_chained_seq _ Hw). cbn [length]. by rewrite max_list_seq.
Qed.

(** What [append_event] adds. *)
Lemma append_event_events db id t ps a pt psh d al st id' :
  events_of (append_event db id t ps a pt psh d al st) id' =
  if decide (id = id') then events_of db id' ++ drop (length (db_events db)) (db_events (append_event db id t ps a pt psh d al st))
  else events_of db id'.
Proof.
  unfold events_of, append_event. cbn [db_events]. rewrite filter_app, drop_app_length, filter_cons, filter_nil.
  cbn [ev_op]. case_decide; simplify_eq; [done|]. by rewrite app_nil_r.
Qed.

Lemma append_event_last db id t ps a pt psh d al st :
  well_chained (events_of db id) ->
  exists e, events_of (append_event db id t ps a pt psh d al st) id = events_of db id ++ [e]
  /\ db_events (append_event db id t ps a pt psh d al st) = db_events db ++ [e]
  /\ ev_type e = t /\ ev_asserted e = a /\ ev_prev_state e = ps /\ ev_proof_subject_hash e = psh
  /\ well_chained (events_of db id ++ [e]).
Proof.
  intros Hw. rewrite append_event_events, decide_True by done. unfold append_event. cbn [db_events].
  rewrite drop_app_length. eexists. split; [reflexivity|]. split; [reflexivity|]. split_and!; try done.
  intros n e. rewrite lookup_app_Some. intros [Hn|[Hle Hn]].
  - destruct (Hw n e Hn) as (H1 & H2 & H3). split_and!; try done. rewrite H3.
  destruct n as [|m]; [done|]. rewrite lookup_app_l; [done|]. apply lookup_lt_Some in Hn. lia.
  - apply list_lookup_singleton_Some in Hn as [Hn <-].
  assert (n = length (events_of db id)) as -> by lia.
  cbn [ev_seq ev_hash ev_prev_hash]. rewrite (next_sequence_length _ _ Hw).
  split; [done|]. split; [done|].
  destruct (length (events_of db id)) as [|m] eqn:El; [done|].
  destruct (lookup_lt_is_Some_2 (events_of db id) m) as [p Hp]; [lia|].
  assert (Hf : list_find (fun e => ev_seq e = m) (events_of db id) = Some (m, p)).
  { apply list_find_Some. split_and!; [done|by apply (Hw m p)|].
    intros j y Hy Hj Hs. apply (Hw j y) in Hy as [Hy _]. lia. }
  rewrite Hf. rewrite lookup_app_l by lia. by rewrite Hp.
Qed.

Lemma set_op_events db op id : events_of (set_op db op) id = events_of db id.
Proof. done. Qed.

(** Moving one operation and appending its event keeps the invariant. *)
Lemma inv_move db op s t ps pt psh d al st :
  p5_inv db -> well_chained (events_of db (op_id op)) ->
  (op_version op)%Z = Z.of_nat (length (events_of db (op_id op))) -> op_state op = s ->
  p5_inv (append_event (set_op db op) (op_id op) t ps (Some (ts_str true s)) pt psh d al st).
Proof.
  intros HI Hw Hv <-.
  destruct (append_event_last (set_op db op) (op_id op) t ps (Some (ts_str true (op_state op))) pt psh d al st)
  as (e & He & Hall & Ht & Ha & _ & _ & Hwc); [done|].
  set (db' := append_event (set_op db op) (op_id op) t ps _ pt psh d al st) in *.
  assert (Hops : db_ops db' = <[op_id op := op]> (db_ops db)) by done.
  assert (Hother : forall id, id <> op_id op -> events_of db' id = events_of db id).
  { intros id Hne. unfold db'. rewrite append_event_events, decide_False by congruence. done. }
  split.
  - intros id o. rewrite Hops, lookup_insert_Some. intros [[<- <-]|[Hne Ho]].
  + unfold op_ok. rewrite He. split; [done|]. split; [exact Hwc|]. split.
    * rewrite length_app. simpl. rewrite set_op_events. lia.
    * exists e. rewrite last_snoc. done.
  + unfold op_ok. rewrite Hother by congruence. by apply (pi_ops _ HI).
  - intros id. rewrite Hops. intros Hn. apply lookup_insert_None in Hn as [Hn Hne].
  rewrite Hother by congruence. by apply (pi_none _ HI).
  - rewrite Hall. apply Forall2_app; [apply HI|].
  unfold db', append_event in Hall |- *. cbn [db_events db_outbox] in Hall |- *.
  apply app_inj_tail in Hall as [_ <-]. constructor; [done|constructor].
Qed.

(** ** Steps *)

Inductive p5_step : p5_db -> p5_db -> Prop :=
  | ps_create db db' a b c d e st :
  create_operation db a b c d e st = Ok db' -> p5_step db db'
  | ps_authorize db db' a d st : authorize db a d st = Ok db' -> p5_step db db'
  | ps_start db db' a st : start_execution db a st = Ok db' -> p5_step db db'
  | ps_unknown db db' a st : record_outcome_unknown db a st = Ok db' -> p5_step db db'
  | ps_success db db' a pt psh d h al st :
  complete_success db a pt psh d h al st = Ok db' -> p5_step db db'
  | ps_failure db db' a pt psh d h st :
  complete_failure db a pt psh d h st = Ok db' -> p5_step db db'
  | ps_observe db db' a st : record_observed_effect db a st = Ok db' -> p5_step db db'
  | ps_session db : p5_step db (new_session db).

Lemma load_op_Ok db id op : load_op db id = Ok op -> db_ops db !! id = Some op.
Proof. unfold load_op. destruct (db_ops db !! id); [|done]. by intros [= ->]. Qed.

(** The one shape every moving step has. *)
Definition moved_by (db db' : p5_db) (op op' : P5Operation) (t : P5EventType) : Prop :=
  db_ops db !! op_id op = Some op /\ op_id op' = op_id op /\ op_version op' = (op_version op + 1)%Z
  /\ op_sink_class op' = op_sink_class op
  /\ exists ps pt psh d al st,
  db' = append_event (set_op db op') (op_id op) t ps (Some (ts_str true (op_state op'))) pt psh d al st.

Lemma inv_moved db db' op op' t : p5_inv db -> moved_by db db' op op' t -> p5_inv db'.
Proof.
  intros HI (Ho & Hid & Hv & _ & ps & pt & psh & d & al & st & ->). rewrite <- Hid.
  destruct (pi_ops _ HI _ _ Ho) as (_ & Hw & Hver & _).
  apply inv_move; try done; rewrite Hid; [done|]. lia.
Qed.

Lemma step_shape db db' :
  p5_inv db -> p5_step db db' ->
  (exists op st ps, db_ops db !! op_id op = None /\ op_version op = 0%Z /\ op_state op = REQUESTED
   /\ db' = append_event (set_op db op) (op_id op) EvIntentRequested ps
              (Some (ts_str true REQUESTED)) None None None None st)
  \/ (exists op op' t, moved_by db db' op op' t /\
     match t with
     | EvAuthorized => op_state op' = AUTHORIZED
     | EvStarted => op_state op = AUTHORIZED /\ op_state op' = EXECUTION_STARTED
         /\ (op_sink_class op = E_NON_IDEMPOTENT ->
             forall e, e ∈ events_of db (op_id op) -> ev_type e <> EvUnknown)
     | EvUnknown => op_state op' = OUTCOME_UNKNOWN
     | EvSuccess => COMPLETED_SUCCESS ∈ ALLOWED (op_state op) /\ op_state op' = COMPLETED_SUCCESS
     | EvFailure => COMPLETED_FAILURE ∈ ALLOWED (op_state op) /\ op_state op' = COMPLETED_FAILURE
     | EvObserved => OBSERVED_EFFECT ∈ ALLOWED (op_state op) /\ op_state op' = OBSERVED_EFFECT
     | EvIntentRequested => False
     end)
  \/ db' = new_session db.
Proof.
  intros HI Hs. destruct Hs as [db db' a b c d e st Hs|db db' a d st Hs|db db' a st Hs|db db' a st Hs
  |db db' a pt psh d h al st Hs|db db' a pt psh d h st Hs|db db' a st Hs|db].
  - left. unfold create_operation in Hs. destruct (db_ops db !! a) eqn:E; [done|]. injection Hs as <-.
  by eexists (mk_op a b c REQUESTED true d e None 0), st, None.
  - right; left. unfold authorize in Hs. res_inv Hs. injection Hs as <-. apply load_op_Ok in E.
  destruct (pi_ops _ HI _ _ E) as (Hid & _). subst a.
  exists v, (moved v AUTHORIZED), EvAuthorized. split; [|done]. split_and!; try done. eauto 10.
  - right; left. unfold start_execution, start_checks, claim in Hs. res_inv Hs. apply load_op_Ok in E.
  destruct (pi_ops _ HI _ _ E) as (Hid & _). subst a. rewrite E in Hs.
  res_inv E0. destruct (decide (op_state v ≠ AUTHORIZED)) as [|Hau]; [by case_decide|].
  injection E0 as <-. rewrite Z.eqb_refl in Hs. apply dec_stable in Hau. rewrite bool_decide_true in Hs by done.
  injection Hs as <-. exists v, (claimed v (op_version v)), EvStarted. split.
  + split_and!; try done. eexists _, _, _, _, _, _; reflexivity.
  + split_and!; try done. intros Hc e He Hu. rewrite Hc, str_eqb_refl in E1.
    apply raise_if_Ok in E1. apply Bool.not_true_iff_false in E1. apply E1.
    apply existsb_exists. exists e. split; [by apply list_elem_of_In|]. by apply bool_decide_eq_true.
  - right; left. unfold record_outcome_unknown in Hs. res_inv Hs. injection Hs as <-. apply load_op_Ok in E.
  destruct (pi_ops _ HI _ _ E) as (Hid & _). subst a.
  exists v, (moved v OUTCOME_UNKNOWN), EvUnknown. split; [|done]. split_and!; try done. eauto 10.
  - right; left. unfold complete_success, assert_transition in Hs. res_inv Hs. injection Hs as <-. apply load_op_Ok in E.
  destruct (pi_ops _ HI _ _ E) as (Hid & _). subst a.
  exists v, (with_assurance (moved v COMPLETED_SUCCESS) al), EvSuccess. split.
  + split_and!; try done. eexists _, _, _, _, _, _; reflexivity.
  + split; [|done]. apply negb_false_iff in E2. by apply bool_decide_eq_true in E2.
  - right; left. unfold complete_failure, assert_transition in Hs. res_inv Hs. injection Hs as <-. apply load_op_Ok in E.
  destruct (pi_ops _ HI _ _ E) as (Hid & _). subst a.
  exists v, (moved v COMPLETED_FAILURE), EvFailure. split.
  + split_and!; try done. eexists _, _, _, _, _, _; reflexivity.
  + split; [|done]. apply negb_false_iff in E2. by apply bool_decide_eq_true in E2.
  - right; left. unfold record_observed_effect, assert_transition in Hs. res_inv Hs. injection Hs as <-. apply load_op_Ok in E.
  destruct (pi_ops _ HI _ _ E) as (Hid & _). subst a.
  exists v, (moved v OBSERVED_EFFECT), EvObserved. split.
  + split_and!; try done. eexists _, _, _, _, _, _; reflexivity.
  + split; [|done]. apply negb_false_iff in E0. by apply bool_decide_eq_true in E0.
  - by right; right.
Qed.

Lemma new_session_events db id : events_of (new_session db) id = events_of db id.
Proof. done. Qed.

Lemma inv_session db : p5_inv db -> p5_inv (new_session db).
Proof.
  intros [Ho Hn Hb]. split; try done.
  - intros id op. simpl. rewrite lookup_fmap. destruct (db_ops db !! id) as [o|] eqn:E; [|done].
  intros [= <-]. by apply Ho in E.
  - intros id. simpl. rewrite lookup_fmap. destruct (db_ops db !! id) eqn:E; [done|]. intros _. by apply Hn.
Qed.

Lemma step_inv db db' : p5_inv db -> p5_step db db' -> p5_inv db'.
Proof.
  intros HI Hs. destruct (step_shape _ _ HI Hs) as [(op & st & ps & Hn & Hv & Hst & ->)|[(op & op' & t & Hm & _)| ->]].
  - apply inv_move; try done; rewrite (pi_none _ HI _ Hn); [by intros n e|done].
  - by eapply inv_moved.
  - by apply inv_session.
Qed.

Definition p5_empty : p5_db := mk_p5_db ∅ [] [].
Lemma empty_inv : p5_inv p5_empty.
Proof. by split. Qed.

Definition p5_reachable : p5_db -> Prop := steps p5_step p5_empty.
Lemma reachable_inv db : p5_reachable db -> p5_inv db.
Proof. intros Hr. eapply steps_invariant; [apply step_inv|apply empty_inv|exact Hr]. Qed.

(** ** Append-only and versions *)

Lemma step_events db db' : p5_inv db -> p5_step db db' -> extends (db_events db) (db_events db').
Proof.
  intros HI Hs. destruct (step_shape _ _ HI Hs) as [(op & st & ps & _ & _ & _ & ->)|[(op & op' & t & Hm & _)| ->]].
  - unfold append_event. simpl. apply extends_app.
  - destruct Hm as (_ & _ & _ & _ & ps & pt & psh & d & al & st & ->). unfold append_event. simpl. apply extends_app.
  - apply extends_refl.
Qed.

(** A row is never deleted; its version never falls, and while the version
    stays the state and the events stay. *)
Definition row_grows (id : string) (db db' : p5_db) : Prop :=
  forall op, db_ops db !! id = Some op ->
  exists op', db_ops db' !! id = Some op' /\ op_sink_class op' = op_sink_class op /\
  ((op_version op < op_version op')%Z \/
   (op_version op = op_version op' /\ op_state op = op_state op' /\ events_of db id = events_of db' id)).

Lemma step_row id db db' : p5_inv db -> p5_step db db' -> row_grows id db db'.
Proof.
  intros HI Hs o Ho.
  destruct (step_shape _ _ HI Hs) as [(op & st & ps & Hn & _ & _ & ->)|[(op & op' & t & Hm & _)| ->]].
  - exists o. assert (id <> op_id op) by congruence. split; [by apply lookup_insert_Some; right|].
  split; [done|]. right. rewrite append_event_events, decide_False by done. done.
  - destruct Hm as (Hop & Hid & Hv & Hsk & ps & pt & psh & d & al & st & ->).
  destruct (decide (id = op_id op)) as [-> |Hne].
  + rewrite Hop in Ho. injection Ho as ->. exists op'. split; [|split; [done|left; lia]].
    cbn [append_event db_ops set_op]. rewrite <- Hid. apply lookup_insert_eq.
  + exists o. split; [|split; [done|]].
    * cbn [append_event db_ops set_op]. apply lookup_insert_Some. right. rewrite Hid. done.
    * right. rewrite append_event_events, decide_False by done. done.
  - exists (reloaded o). split; [simpl; by rewrite lookup_fmap, Ho|]. split; [done|]. by right.
Qed.

Lemma steps_row id db db' : p5_inv db -> steps p5_step db db' -> row_grows id db db'.
Proof.
  intros HI Hs. induction Hs as [x|a b c Hab IH Hbc]; intros op Ho.
  - exists op. split; [done|]. split; [done|]. by right.
  - destruct (IH HI op Ho) as (o1 & Ho1 & Hk1 & Hc1).
  assert (HIb : p5_inv b) by (eapply steps_invariant; [apply step_inv|exact HI|exact Hab]).
  destruct (step_row id _ _ HIb Hbc o1 Ho1) as (o2 & Ho2 & Hk2 & Hc2).
  exists o2. split; [done|]. split; [congruence|].
  destruct Hc1 as [?|(? & ? & ?)], Hc2 as [?|(? & ? & ?)]; try (left; lia). right. split_and!; congruence.
Qed.

(** ** Event order *)

(** The state before an event that the table must allow. *)
Definition guarded (t : P5EventType) (s : TruthState) : Prop :=
  match t with
  | EvStarted => s = AUTHORIZED
  | EvSuccess => COMPLETED_SUCCESS ∈ ALLOWED s
  | EvFailure => COMPLETED_FAILURE ∈ ALLOWED s
  | EvObserved => OBSERVED_EFFECT ∈ ALLOWED s
  | _ => True
  end.

Definition order_ok (db : p5_db) (id : string) : Prop :=
  forall n b, events_of db id !! S n = Some b ->
  ev_type b <> EvIntentRequested /\
  exists a s, events_of db id !! n = Some a /\ ev_asserted a = Some (ts_str true s) /\ guarded (ev_type b) s.

Definition class_e_ok (db : p5_db) (id : string) : Prop :=
  forall op, db_ops db !! id = Some op -> op_sink_class op = E_NON_IDEMPOTENT ->
  forall i j a b, i < j -> events_of db id !! i = Some a -> events_of db id !! j = Some b ->
  ev_type a = EvUnknown -> ev_type b <> EvStarted.

Lemma lookup_snoc_cases {A} (l : list A) x n y :
  (l ++ [x]) !! n = Some y -> (n < length l /\ l !! n = Some y) \/ (n = length l /\ y = x).
Proof.
  rewrite lookup_app_Some. intros [Hn|[Hl Hn]].
  - left. split; [by eapply lookup_lt_Some|done].
  - right. apply list_lookup_singleton_Some in Hn as [? <-]. split; [lia|done].
Qed.

Lemma step_order id db db' :
  p5_inv db -> p5_step db db' -> order_ok db id /\ class_e_ok db id -> order_ok db' id /\ class_e_ok db' id.
Proof.
  intros HI Hs [Ho Hc].
  destruct (step_shape _ _ HI Hs) as [(op & st & ps & Hn & _ & _ & ->)|[(op & op' & t & Hm & Hg)| ->]].
  - destruct (decide (id = op_id op)) as [-> |Hne].
  + pose proof (append_event_events (set_op db op) (op_id op) EvIntentRequested ps
      (Some (ts_str true REQUESTED)) None None None None st (op_id op)) as He.
    rewrite decide_True, set_op_events, (pi_none _ HI _ Hn) in He by done.
    unfold append_event in He at 2. cbn [db_events set_op] in He. rewrite drop_app_length, app_nil_l in He.
    split; [intros n b; by rewrite He|intros o _ _ i j a b Hij Ha Hb]. rewrite He in Hb.
    destruct j; [lia|]. done.
  + unfold order_ok, class_e_ok. rewrite append_event_events, decide_False by done. split; [done|].
    intros o. cbn [append_event db_ops set_op]. rewrite lookup_insert_ne by done. apply Hc.
  - destruct Hm as (Hop & Hid & Hv & Hsk & ps & pt & psh & d & al & st & ->).
  destruct (decide (id = op_id op)) as [-> |Hne].
  + destruct (pi_ops _ HI _ _ Hop) as (_ & Hw & _ & el & Hlast & Hel).
    destruct (append_event_last (set_op db op') (op_id op) t ps (Some (ts_str true (op_state op'))) pt psh d al st)
      as (e & He & _ & Ht & _ & _); [done|]. rewrite set_op_events in He.
    split.
    * intros n b. rewrite He. intros Hb. apply lookup_snoc_cases in Hb as [[Hlt Hb]|[Hlen ->]].
      -- destruct (Ho n b Hb) as (H1 & a & s & H2 & H3). split; [done|]. exists a, s.
         rewrite lookup_app_l by lia. done.
      -- rewrite Ht. split; [by destruct t|]. exists el, (op_state op).
         rewrite last_lookup, <- Hlen in Hlast. simpl in Hlast. rewrite lookup_app_l by lia.
         split; [done|]. split; [done|]. destruct t; try done; apply Hg.
    * intros o Hoo Hso i j a b Hij. rewrite He. intros Ha Hb Hua.
      cbn [append_event db_ops set_op] in Hoo. rewrite Hid, lookup_insert_eq in Hoo. injection Hoo as <-.
      rewrite Hsk in Hso.
      apply lookup_snoc_cases in Hb as [[Hlt Hb]|[Hlen ->]].
      -- rewrite lookup_app_l in Ha by lia. by eapply (Hc op Hop Hso i j).
      -- rewrite lookup_app_l in Ha by lia. rewrite Ht. intros ->.
         destruct Hg as (_ & _ & Hu). apply (Hu Hso a); [|done]. by eapply list_elem_of_lookup_2.
  + unfold order_ok, class_e_ok. rewrite append_event_events, decide_False by done. split; [done|].
    intros o. cbn [append_event db_ops set_op]. rewrite Hid, lookup_insert_ne by done. apply Hc.
  - split; [exact Ho|]. intros o. simpl. rewrite lookup_fmap.
  destruct (db_ops db !! id) as [o'|] eqn:E; [|done]. intros [= <-]. intros Hso. exact (Hc o' E Hso).
Qed.

Lemma reachable_order db id : p5_reachable db -> order_ok db id /\ class_e_ok db id.
Proof.
  intros Hr.
  assert (Hall : p5_inv db /\ (order_ok db id /\ class_e_ok db id)); [|apply Hall].
  apply (steps_invariant p5_step (fun db => p5_inv db /\ (order_ok db id /\ class_e_ok db id)) p5_empty); [| |done].
  - intros a b [HI Ho] Hs. split; [by eapply step_inv|]. by eapply step_order.
  - split; [apply empty_inv|]. split; [by intros n b|]. intros o. simpl. by rewrite lookup_empty.
Qed.

(** ** Overlapping transactions

    The engine takes no lock: a method reads what was committed when it
    looked, and its commit writes the rows it changed and adds its event and
    outbox row to whatever was committed meanwhile.  Where two stored events
    of an operation have the number it looks for, [scalar_one_or_none] raises
    and nothing is committed.  (The UPDATE of [start_execution] compares the
    row's version once more when it runs: the histories below include more
    than the code allows.) *)
Definition commit (cur snap next : p5_db) : p5_db :=
  mk_p5_db (filter (fun kv => db_ops snap !! kv.1 <> Some kv.2) (db_ops next) ∪ db_ops cur)
  (db_events cur ++ drop (length (db_events snap)) (db_events next))
  (db_outbox cur ++ drop (length (db_outbox snap)) (db_outbox next)).

Definition unforked (db : p5_db) : Prop := forall id, NoDup (map ev_seq (events_of db id)).

(** The committed states of a history, newest first. *)
Inductive overlapping : list p5_db -> Prop :=
  | ov_start : overlapping [p5_empty]
  | ov_commit cur h snap next :
  overlapping (cur :: h) -> snap ∈ cur :: h -> unforked snap -> p5_step snap next ->
  overlapping (commit cur snap next :: cur :: h).

(** Every event holds the hash of its own fields and, but for the first, of
    a stored event of its operation with the number before. *)
Definition linked (db : p5_db) (e : P5Event) : Prop :=
  ev_hash e = event_hash_of e /\
  match ev_seq e with
  | 0 => ev_prev_hash e = None
  | S n => exists p, p ∈ events_of db (ev_op e) /\ ev_seq p = n /\ ev_prev_hash e = Some (ev_hash p)
  end.

Lemma step_appends db db' :
  p5_step db db' ->
  (db_events db' = db_events db /\ db_outbox db' = db_outbox db)
  \/ exists op id t ps a pt psh d al st, db' = append_event (set_op db op) id t ps a pt psh d al st.
Proof.
  intros Hs. destruct Hs as [db db' a b c d e st Hs|db db' a d st Hs|db db' a st Hs|db db' a st Hs
  |db db' a pt psh d h al st Hs|db db' a pt psh d h st Hs|db db' a st Hs|db]; [right..|by left].
  - unfold create_operation in Hs. destruct (db_ops db !! a); [done|]. injection Hs as <-. eauto 20.
  - unfold authorize in Hs. res_inv Hs. injection Hs as <-. eauto 20.
  - unfold start_execution, claim in Hs. res_inv Hs. repeat (case_match; try done). injection Hs as <-. eauto 20.
  - unfold record_outcome_unknown in Hs. res_inv Hs. injection Hs as <-. eauto 20.
  - unfold complete_success in Hs. res_inv Hs. injection Hs as <-. eauto 20.
  - unfold complete_failure in Hs. res_inv Hs. injection Hs as <-. eauto 20.
  - unfold record_observed_effect in Hs. res_inv Hs. injection Hs as <-. eauto 20.
Qed.

Lemma max_list_in l : l <> [] -> max_list l ∈ l.
Proof.
  induction l as [|x l IH]; [done|]. intros _. simpl. destruct l as [|y l]; [simpl; rewrite Nat.max_0_r; by left|].
  destruct (Nat.max_spec x (max_list (y :: l))) as [[_ ->]|[_ ->]]; [right; by apply IH|by left].
Qed.

Lemma append_linked db cur id t ps a pt psh d al st :
  db_events db ⊆ db_events cur ->
  exists e ob, db_events (append_event db id t ps a pt psh d al st) = db_events db ++ [e]
  /\ db_outbox (append_event db id t ps a pt psh d al st) = db_outbox db ++ [ob] /\ outbox_ok ob e /\ linked cur e.
Proof.
  intros Hsub. unfold append_event. cbn [db_events db_outbox]. eexists _, _. split_and!; [reflexivity..| |]; [done|].
  split; [reflexivity|]. cbn [ev_seq ev_prev_hash ev_op].
  destruct (next_sequence db id) as [|n] eqn:En; [done|].
  assert (Hp : exists p, p ∈ events_of db id /\ ev_seq p = n).
  { unfold next_sequence in En. destruct (events_of db id) as [|e0 es] eqn:Ee; [done|]. injection En as <-.
  pose proof (max_list_in (map ev_seq (e0 :: es)) ltac:(done)) as Hm.
  apply list_elem_of_fmap in Hm as (p & Hp & Hin). by exists p. }
  destruct Hp as (p0 & Hp0 & Hn0).
  destruct (list_find (fun e => ev_seq e = n) (events_of db id)) as [[k p]|] eqn:Ef.
  - apply list_find_Some in Ef as (Hk & Hs & _). exists p. split_and!; [|done|done].
  apply list_elem_of_lookup_2 in Hk. unfold events_of in *. rewrite list_elem_of_filter in Hk |- *. set_solver.
  - apply list_find_None in Ef. rewrite Forall_forall in Ef. by destruct (Ef p0 Hp0).
Qed.

Lemma overlapping_linked h :
  overlapping h ->
  forall cur rest, h = cur :: rest -> (forall s, s ∈ h -> db_events s ⊆ db_events cur)
  /\ Forall (linked cur) (db_events cur) /\ Forall2 outbox_ok (db_outbox cur) (db_events cur).
Proof.
  induction 1 as [|cur h snap next Ho IH Hin _ Hs]; intros c rest [= <- <-].
  { split_and!; [|constructor..]. intros s ->%list_elem_of_singleton. done. }
  destruct (IH cur h eq_refl) as (Hsub & Hl & Hob).
  assert (Hkeep : Forall (linked (commit cur snap next)) (db_events cur)).
  { eapply Forall_impl; [exact Hl|]. intros e [He Hp]. split; [done|]. destruct (ev_seq e); [done|].
  destruct Hp as (p & Hp & Hn). exists p. split; [|done]. unfold events_of, commit in *. cbn [db_events].
  rewrite filter_app. set_solver. }
  assert (Hall : forall s, s ∈ commit cur snap next :: cur :: h -> db_events s ⊆ db_events (commit cur snap next)).
  { intros s [->|Hs']%elem_of_cons; [done|]. unfold commit. cbn [db_events]. specialize (Hsub s Hs'). set_solver. }
  split; [done|]. destruct (step_appends _ _ Hs) as [[E1 E2]|(op & id & t & ps & a & pt & psh & d & al & st & ->)].
  - unfold commit at 2 3 4. cbn [db_events db_outbox]. rewrite E1, E2, !drop_all, !app_nil_r. done.
  - destruct (append_linked (set_op snap op) (commit cur snap (append_event (set_op snap op) id t ps a pt psh d al st))
      id t ps a pt psh d al st) as (e & ob & E1 & E2 & E3 & E4); [refine (Hall snap _); by right|].
  assert (Hev : db_events (commit cur snap (append_event (set_op snap op) id t ps a pt psh d al st)) = db_events cur ++ [e]).
  { unfold commit. cbn [db_events]. rewrite E1. cbn [set_op db_events]. by rewrite drop_app_length. }
  assert (Hou : db_outbox (commit cur snap (append_event (set_op snap op) id t ps a pt psh d al st)) = db_outbox cur ++ [ob]).
  { unfold commit. cbn [db_outbox]. rewrite E2. cbn [set_op db_outbox]. by rewrite drop_app_length. }
  rewrite Hev, Hou. split.
  + apply Forall_app. split; [done|]. by constructor.
  + apply Forall2_app; [done|]. by constructor.
Qed.
End p5_proofs.
