(* ===== verification/P5Enforcer.v ===== *)
(** * Truth enforcement and outbox dispatch

    [P5TruthEnforcer] (cappo_backend/p5/truth_enforcer.py) with its error
    classes (p5/errors.py) and the in-memory [ReplayCache]
    (identity/replay_cache.py), and [P5OutboxDispatcher] (p5/dispatcher.py). *)

From Stdlib Require Import ZArith Lia String.
From stdpp Require Import base gmap gmultiset strings list sorting.
From S2P Require Import Prelude Canon PyJson P5Engine.

(** ** The replay cache *)

(** jti to [expires_at]. *)
Abbreviation replay_cache := (gmap string Z).

(** [_prune]: entries with [exp < now] go. *)
Definition prune (now : Z) (c : replay_cache) : replay_cache := filter (fun kv => ~ (kv.2 < now)%Z) c.

Definition check_and_store (now : Z) (c : replay_cache) (jti : string) (expires_at : Z) : bool * replay_cache :=
  let c' := prune now c in
  match c' !! jti with
  | Some _ => (false, c')
  | None => (true, <[jti := expires_at]> c')
  end.

(** ** The enforcer *)

(** The members of [AuthorityArtifact] the enforcer reads. *)
Record authority := mk_authority {
  au_id : string; au_execution_id : string; au_policy_decision_hash : string;
  au_candidate_act_hash : string; au_rights : list string; au_expires_at : Z }.

(** The error classes of errors.py, by code, an engine exception, or
    [NotImplementedError]. *)
Inductive enf_err := Denied (code : string) | EngineErr (e : p5_err) | NotMapped.

(** The enforcer's own state: the replay cache and the revoked ids. *)
Record enforcer := mk_enforcer { en_cache : replay_cache; en_revoked : gset string }.

Definition revoke_identity (en : enforcer) (id : string) : enforcer :=
  mk_enforcer (en_cache en) ({[ id ]} ∪ en_revoked en).

(** The arguments of [authorize_and_record_truth]. *)
Record truth_request := mk_request {
  rq_operation_id : string; rq_asserted : TruthState; rq_authority : option authority;
  rq_decision : string; rq_jti : option string; rq_proof_type : string; rq_decision_id : option string;
  rq_proof_subject_hash : option string; rq_actor : option string;
  rq_expected_act_hash : option string; rq_is_stale : bool }.

Definition lift {A} (r : res p5_err A) : res enf_err A :=
  match r with Ok a => Ok a | Err e => Err (EngineErr e) end.

Section enforcer.
Context `{Ext}.

(** The missing-right branch: which error. *)
Definition rights_denial (rights : list string) : enf_err :=
  Denied (if bool_decide ("execute" ∈ rights) then "P5_EXECUTE_ONLY_TRUTH_DENIED"
        else if bool_decide ("observe" ∈ rights) then "P5_OBSERVE_ONLY_TRUTH_DENIED"
        else if bool_decide ("reconcile" ∈ rights) then "P5_RECONCILE_ONLY_TRUTH_DENIED"
        else "P5_MISSING_TRUTH_TRANSITION_AUTHORITY").

(** The checks up to the replay cache, in order; they touch nothing. *)
Definition authority_checks (now : Z) (en : enforcer) (rq : truth_request) : res enf_err authority :=
  match rq_authority rq with
  | None => Err (Denied "P5_MISSING_TRUTH_TRANSITION_AUTHORITY")
  | Some a =>
  do? raise_if (rq_is_stale rq) (Denied "P5_STALE_IDENTITY_DENIED") in
  do? raise_if (bool_decide (au_id a ∈ en_revoked en)) (Denied "P5_STALE_IDENTITY_DENIED") in
  do? raise_if (au_expires_at a <? now)%Z (Denied "P5_AUTHORITY_EXPIRED") in
  do? raise_if (negb (opt_eqb (Some (au_execution_id a)) (rq_actor rq)))
               (Denied "P5_AUTHORITY_EI_MISMATCH") in
  do? raise_if (truthy (rq_expected_act_hash rq)
                && negb (opt_eqb (Some (au_candidate_act_hash a)) (rq_expected_act_hash rq)))
               (Denied "P5_AUTHORITY_CANDIDATE_ACT_MISMATCH") in
  do? raise_if (negb (bool_decide ("truth.transition" ∈ au_rights a))) (rights_denial (au_rights a)) in
  do? raise_if (str_eqb (au_policy_decision_hash a) "") (Denied "P5_MISSING_POLICY_DECISION") in
  do? raise_if (str_eqb (rq_decision rq) "ALLOW") (Denied "P5_CONSEQUENCE_ALLOW_NOT_TRUTH_ALLOW") in
  do? raise_if (negb (str_eqb (rq_decision rq) "TRUTH_ALLOW")) (Denied "P5_CAPPO_TRUTH_DECISION_REQUIRED") in
  Ok a
  end.

(** [actor_identity or "None"]. *)
Definition or_none (o : option string) : string :=
  match o with Some s => if str_eqb s "" then "None" else s | None => "None" end.

Definition expected_hash (op : P5Operation) (a : authority) (rq : truth_request) : string :=
  compute_proof_subject_hash (rq_operation_id rq) (op_intent_hash op) (au_candidate_act_hash a) (au_id a)
  (or_none (rq_actor rq)) (op_sink_class op) (ts_value (op_state op)) (ts_value (rq_asserted rq))
  (op_consequence_id op) (rq_proof_type rq).

(** The final dispatch into the engine. *)
Definition record_truth (db : p5_db) (rq : truth_request) (st : stamp) : res enf_err p5_db :=
  match rq_asserted rq with
  | COMPLETED_SUCCESS =>
    lift (complete_success db (rq_operation_id rq) (Some (rq_proof_type rq))
            (rq_proof_subject_hash rq) (rq_decision_id rq) true None st)
  | OBSERVED_EFFECT => lift (record_observed_effect db (rq_operation_id rq) st)
  | COMPLETED_FAILURE =>
    lift (complete_failure db (rq_operation_id rq) (Some (rq_proof_type rq))
            (rq_proof_subject_hash rq) (rq_decision_id rq) true st)
  | _ => Err NotMapped
  end.

(** [authorize_and_record_truth].  The jti is consumed before the proof
    subject is compared, and stays consumed when a later step raises. *)
Definition authorize_and_record_truth (now : Z) (en : enforcer) (db : p5_db) (rq : truth_request)
  (st : stamp) : enforcer * res enf_err p5_db :=
  match load_op db (rq_operation_id rq) with
  | Err e => (en, Err (EngineErr e))
  | Ok op =>
  match authority_checks now en rq with
  | Err e => (en, Err e)
  | Ok a =>
    let consumed :=
      match rq_jti rq with
      | Some jti => if str_eqb jti "" then (true, en_cache en)
                    else check_and_store now (en_cache en) jti (au_expires_at a)
      | None => (true, en_cache en)
      end in
    let en' := mk_enforcer consumed.2 (en_revoked en) in
    if negb consumed.1 then (en', Err (Denied "P5_TRUTH_REPLAY_DENIED"))
    else if truthy (rq_proof_subject_hash rq)
            && negb (opt_eqb (rq_proof_subject_hash rq) (Some (expected_hash op a rq)))
    then (en', Err (Denied "P5_PROOF_SUBJECT_MISMATCH"))
    else (en', record_truth db rq st)
  end
  end.

(** ** The outbox dispatcher *)

(** What the transport does with a payload: returns, raises
    [OutboxTransportError], or raises something else. *)
Inductive transport := Sent | TransportError (msg : string) | Unexpected (msg : string).

(** [_process_item] after the payload went out. *)
Definition process_item (max_attempts : nat) (send : list (string * json) -> transport)
  (ob : P5Outbox) (e : P5Event) : P5Outbox * bool :=
  let attempts := S (ob_attempts ob) in
  let payload := event_payload e ++ [("payload_hash", JStr (ob_payload_hash ob))] in
  let set s err := mk_outbox (ob_id ob) (ob_event_id ob) (ob_target ob) (ob_payload_hash ob) s attempts err
                   (ob_created_at ob) in
  let failed msg := (set (if (max_attempts <=? attempts)%nat then DEAD_LETTER else FAILED_RETRYABLE) (Some msg), false) in
  match send payload with
  | Sent => (set SENT None, true)
  | TransportError msg => failed msg
  | Unexpected msg => failed ("Unexpected failure: " +:+ msg)
  end.

Definition dispatchable (ob : P5Outbox) : bool :=
  bool_decide (ob_status ob = PENDING) || bool_decide (ob_status ob = FAILED_RETRYABLE).

(** [ORDER BY event_sequence, created_at, outbox_id]. *)
Definition row_before (a b : P5Outbox * P5Event) : Prop :=
  (ev_seq a.2 < ev_seq b.2)%nat \/
  (ev_seq a.2 = ev_seq b.2 /\ (String.le (ob_created_at a.1) (ob_created_at b.1) /\ ob_created_at a.1 <> ob_created_at b.1
  \/ (ob_created_at a.1 = ob_created_at b.1 /\ String.le (ob_id a.1) (ob_id b.1)))).
#[local] Instance row_before_dec : RelDecision row_before.
Proof. intros a b. unfold row_before. apply _. Defined.

(** The selected rows: dispatchable, joined with their event, ordered, at
    most [limit]. *)
Definition selected (limit : nat) (db : p5_db) : list (P5Outbox * P5Event) :=
  take limit (merge_sort row_before
  (o ← filter (fun ob => dispatchable ob = true) (db_outbox db);
   e ← filter (fun e => ev_id e = ob_event_id o) (db_events db); [(o, e)])).

(** Replace the processed row. *)
Definition update_outbox (ob' : P5Outbox) (outbox : list P5Outbox) : list P5Outbox :=
  map (fun o => if str_eqb (ob_id o) (ob_id ob') then ob' else o) outbox.

(** [process_pending]. *)
Definition process_pending (max_attempts limit : nat) (send : list (string * json) -> transport)
  (db : p5_db) : p5_db * nat :=
  foldl (fun acc row =>
         let '(d, n) := acc in
         let '(ob', ok) := process_item max_attempts send row.1 row.2 in
         (mk_p5_db (db_ops d) (db_events d) (update_outbox ob' (db_outbox d)), (if ok then S n else n)))
  (db, 0) (selected limit db).
End enforcer.
