(* ===== verification/P5Properties.v ===== *)
(** * Properties of the P5 truth layer *)

From Stdlib Require Import ZArith Lia String.
From stdpp Require Import base gmap strings list sorting.
From S2P Require Import Prelude Canon PyJson VdbExample P5Engine P5Proofs P5Enforcer.

Section properties.
Context `{Ext}.
Abbreviation reach := (p5_reachable).


(** Every execution start follows an event that asserted AUTHORIZED,
    and every completion or observation follows an event that asserted a
    state from which the transition table allows it. *)
Theorem p5_guarded_events db id n b :
  reach db -> events_of db id !! S n = Some b ->
  exists a s, events_of db id !! n = Some a /\ ev_asserted a = Some (ts_str true s) /\ guarded (ev_type b) s.
Proof. intros Hr Hb. apply (reachable_order _ id) in Hr as [Ho _]. by destruct (Ho n b Hb) as [_ ?]. Qed.

(** A non-idempotent (class E) operation whose outcome was recorded as
    unknown is never started again, in any run of the engine. *)
Theorem p5_class_e_not_restarted db id op i j a b :
  reach db -> db_ops db !! id = Some op -> op_sink_class op = E_NON_IDEMPOTENT -> i < j ->
  events_of db id !! i = Some a -> events_of db id !! j = Some b ->
  ev_type a = EvUnknown -> ev_type b <> EvStarted.
Proof.
  intros Hr Ho Hs Hij Ha Hb. apply (reachable_order _ id) in Hr as [_ Hc]. by eapply (Hc op).
Qed.

Lemma claim_Ok db id v st db' :
  claim db id v st = Ok db' ->
  exists op, db_ops db !! id = Some op /\ op_version op = v /\ op_state op = AUTHORIZED
  /\ exists op', db_ops db' !! op_id op = Some op' /\ op_version op' = (v + 1)%Z.
Proof.
  unfold claim. destruct (db_ops db !! id) as [op|] eqn:Eo; [|done].
  destruct (_ && _) eqn:E; [|done]. intros [= <-].
  apply andb_true_iff in E as [E1 E2]. apply Z.eqb_eq in E1. apply bool_decide_eq_true in E2.
  exists op. split_and!; try done. exists (claimed op v).
  cbn [append_event db_ops set_op]. change (op_id (claimed op v)) with (op_id op).
  rewrite lookup_insert_eq. done.
Qed.

(** The optimistic lock: a worker that checked an operation at version
    [v] and claims it later, after any other engine calls, succeeds only on
    the row and event log it checked; and once the claim succeeded, every
    later claim of the same version, by a worker that checked concurrently,
    is a TransitionConflict. *)
Theorem p5_single_claim db0 db1 db2 db3 id op v st st' :
  reach db0 -> db_ops db0 !! id = Some op -> start_checks db0 op = Ok v ->
  steps p5_step db0 db1 -> claim db1 id v st = Ok db2 ->
  steps p5_step db2 db3 ->
  events_of db1 id = events_of db0 id /\ claim db3 id v st' = Err TransitionConflict.
Proof.
  intros Hr Ho Hck H01 Hcl H23. apply reachable_inv in Hr as HI0.
  assert (Hv : v = op_version op).
  { unfold start_checks in Hck. res_inv Hck. repeat (case_decide; try done). congruence. }
  assert (HI1 : p5_inv db1).
  { eapply steps_invariant; [apply step_inv|exact HI0|exact H01]. }
  destruct (steps_row id _ _ HI0 H01 op Ho) as (o1 & Ho1 & _ & Hc1).
  destruct (claim_Ok _ _ _ _ _ Hcl) as (o1' & Ho1' & Hv1 & Hs1 & o2 & Ho2 & Hv2).
  rewrite Ho1 in Ho1'. injection Ho1' as <-.
  destruct (pi_ops _ HI1 _ _ Ho1) as (Hid & _). rewrite Hid in Ho2.
  split; [destruct Hc1 as [?|(_ & _ & ->)]; [lia|done]|].
  assert (Hstart : p5_step db1 db2 \/ p5_inv db2).
  { right. unfold claim in Hcl. rewrite Ho1, Hv1, Z.eqb_refl, bool_decide_true in Hcl by done.
  simpl in Hcl. injection Hcl as <-. rewrite <- Hid.
  apply (inv_move db1 (claimed o1 v) EXECUTION_STARTED); try done; simpl;
    destruct (pi_ops _ HI1 _ _ Ho1) as (_ & Hw & Hver & _); rewrite Hid; [done|lia]. }
  assert (HI2 : p5_inv db2).
  { destruct Hstart as [Hst|?]; [|done]. by eapply step_inv. }
  destruct (steps_row id _ _ HI2 H23 o2 Ho2) as (o3 & Ho3 & _ & Hc3).
  unfold claim. rewrite Ho3.
  destruct (Z.eqb_spec (op_version o3) v) as [E|_]; [|done].
  destruct Hc3 as [?|(? & _)]; lia.
Qed.

(** ** Enforcement *)

(** C34: When the enforcer records a truth state, the request carried an
    unexpired, unrevoked, non-stale authority bound to the acting execution
    identity that holds the truth.transition right and a policy decision,
    the CAPPO decision was TRUTH_ALLOW, a proof-subject hash, if given, is
    the one computed from the operation and the authority, and the engine
    accepted the transition from the operation's current state. *)
Theorem enforcer_sound now en db rq st en' db' :
  authorize_and_record_truth now en db rq st = (en', Ok db') ->
  exists a op, rq_authority rq = Some a /\ db_ops db !! rq_operation_id rq = Some op
  /\ rq_is_stale rq = false /\ (au_id a ∉ en_revoked en) /\ (now <= au_expires_at a)%Z
  /\ rq_actor rq = Some (au_execution_id a) /\ "truth.transition" ∈ au_rights a
  /\ au_policy_decision_hash a <> "" /\ rq_decision rq = "TRUTH_ALLOW"
  /\ (truthy (rq_proof_subject_hash rq) = true -> rq_proof_subject_hash rq = Some (expected_hash op a rq))
  /\ rq_asserted rq ∈ ALLOWED (op_state op).
Proof.
  unfold authorize_and_record_truth. destruct (load_op db _) as [op|] eqn:El; [|done].
  apply load_op_Ok in El. destruct (authority_checks now en rq) as [a|] eqn:Ea; [|done].
  unfold authority_checks in Ea. destruct (rq_authority rq) as [a'|] eqn:Era; [|done].
  res_inv Ea. injection Ea as ->.
  cbv zeta. match goal with |- (if ?b then _ else _) = _ -> _ => destruct b eqn:Ej; [done|] end.
  match goal with |- (if ?b then _ else _) = _ -> _ => destruct b eqn:Ep; [done|] end.
  intros Heq. apply (f_equal snd) in Heq. cbn [snd] in Heq. rename Heq into Hrec. exists a, op.
  repeat match goal with
  | E : negb _ = false |- _ => apply negb_false_iff in E
  | E : str_eqb _ _ = true |- _ => apply str_eqb_spec in E
  | E : str_eqb _ _ = false |- _ => apply str_eqb_neq in E
  | E : bool_decide _ = false |- _ => apply bool_decide_eq_false in E
  | E : bool_decide _ = true |- _ => apply bool_decide_eq_true in E
  | E : (_ <? _)%Z = false |- _ => apply Z.ltb_ge in E
  | E : opt_eqb _ _ = true |- _ => apply bool_decide_eq_true in E
  end.
  split_and!; try done.
  - intros Ht. rewrite Ht in Ep. simpl in Ep. apply negb_false_iff in Ep. by apply bool_decide_eq_true in Ep.
  - unfold record_truth, lift in Hrec. destruct (rq_asserted rq) eqn:Eas; try done.
  + destruct (complete_success _ _ _ _ _ _ _ _) eqn:Ec; [|done].
    unfold complete_success, assert_transition in Ec. res_inv Ec. apply load_op_Ok in E8.
    rewrite El in E8. injection E8 as <-. apply negb_false_iff in E11. by apply bool_decide_eq_true in E11.
  + destruct (complete_failure _ _ _ _ _ _ _) eqn:Ec; [|done].
    unfold complete_failure, assert_transition in Ec. res_inv Ec. apply load_op_Ok in E8.
    rewrite El in E8. injection E8 as <-. apply negb_false_iff in E11. by apply bool_decide_eq_true in E11.
  + destruct (record_observed_effect _ _ _) eqn:Ec; [|done].
    unfold record_observed_effect, assert_transition in Ec. res_inv Ec. apply load_op_Ok in E8.
    rewrite El in E8. injection E8 as <-. apply negb_false_iff in E9. by apply bool_decide_eq_true in E9.
Qed.

(** ** Replay *)

(** Further calls on the cache: time, jti, expiry. *)
Definition serve (c : replay_cache) (calls : list (Z * string * Z)) : replay_cache :=
  foldl (fun c q => (check_and_store q.1.1 c q.1.2 q.2).2) c calls.

Lemma check_and_store_keeps now c jti exp j e :
  c !! j = Some e -> (now <= e)%Z -> (check_and_store now c jti exp).2 !! j = Some e.
Proof.
  intros Hj Hn. unfold check_and_store.
  assert (Hp : prune now c !! j = Some e) by (apply map_lookup_filter_Some; split; [done|simpl; lia]).
  destruct (prune now c !! jti) as [e'|] eqn:E; cbn [snd]; [done|].
  rewrite lookup_insert_ne by congruence. done.
Qed.

(** A jti accepted once is refused for as long as its authority lives,
    whatever other jtis the cache serves and prunes in between. *)
Theorem replay_denied_until_expiry now c jti exp c1 calls now2 exp2 :
  check_and_store now c jti exp = (true, c1) ->
  Forall (fun q => (q.1.1 <= exp)%Z) calls -> (now2 <= exp)%Z ->
  (check_and_store now2 (serve c1 calls) jti exp2).1 = false.
Proof.
  intros Hs Hc Hn.
  assert (H1 : c1 !! jti = Some exp).
  { unfold check_and_store in Hs. destruct (prune now c !! jti); [done|]. injection Hs as <-.
  apply lookup_insert_eq. }
  assert (H2 : serve c1 calls !! jti = Some exp).
  { clear Hs. revert c1 H1. induction Hc as [|q calls Hq _ IH]; intros c1 H1; [done|].
  simpl. apply IH. by apply check_and_store_keeps. }
  unfold check_and_store.
  assert (Hp : prune now2 (serve c1 calls) !! jti = Some exp)
  by (apply map_lookup_filter_Some; split; [done|simpl; lia]).
  by rewrite Hp.
Qed.

(** ** Dispatch *)

(** [n] dispatch rounds over one outbox row. *)
Definition rounds (max_attempts : nat) (send : list (string * json) -> transport) (e : P5Event)
  (n : nat) (ob : P5Outbox) : P5Outbox :=
  Nat.iter n (fun o => if dispatchable o then (process_item max_attempts send o e).1 else o) ob.

(** A row whose transport keeps failing is attempted exactly
    [max_attempts] times: it is FAILED_RETRYABLE before the last attempt and
    DEAD_LETTER after it, for good; and its payload hash never changes. *)
Theorem dispatch_dead_letters max_attempts send e n ob :
  (forall p, send p <> Sent) -> 0 < max_attempts -> ob_status ob = PENDING -> ob_attempts ob = 0 ->
  let o := rounds max_attempts send e n ob in
  ob_attempts o = Nat.min n max_attempts /\ ob_payload_hash o = ob_payload_hash ob /\
  ob_status o = (if decide (n = 0) then PENDING
               else if decide (n < max_attempts) then FAILED_RETRYABLE else DEAD_LETTER).
Proof.
  intros Hsend Hmax Hst Hat. induction n as [|n IH]; [by rewrite decide_True|].
  cbv zeta in *. unfold rounds in *. cbn [Nat.iter nat_rect].
  set (o := Nat.iter n _ ob) in *. change (nat_rect _ _ _ n) with o. destruct IH as (I1 & I2 & I3).
  assert (Hd : dispatchable o = true <-> n < max_attempts).
  { unfold dispatchable. rewrite I3. destruct (decide (n = 0)); [simpl; split; [lia|done]|].
  destruct (decide (n < max_attempts)); simpl; split; done || lia. }
  destruct (dispatchable o) eqn:Ed.
  - assert (Hn : n < max_attempts) by (by apply Hd). rewrite decide_False by lia.
  unfold process_item. rewrite I1.
  destruct (send _) eqn:Es; [by destruct (Hsend _ Es)| |]; cbn [fst ob_attempts ob_payload_hash ob_status]; rewrite I2;
    (split; [lia|]); (split; [done|]); rewrite Nat.min_l by lia;
    destruct (Nat.leb_spec max_attempts (S n)); [rewrite decide_False by lia|rewrite decide_True by lia
      |rewrite decide_False by lia|rewrite decide_True by lia]; done.
  - assert (Hn : ~ n < max_attempts) by (rewrite <- Hd; done). rewrite I1, I2, I3.
  rewrite (decide_False (P := n = 0)) by lia. rewrite decide_False by lia.
  rewrite decide_False by lia. rewrite decide_False by lia. split_and!; [lia|done|done].
Qed.

Lemma selected_in limit db row :
  row ∈ selected limit db -> row.1 ∈ db_outbox db /\ dispatchable row.1 = true.
Proof.
  unfold selected. intros Hr. apply (subseteq_take limit) in Hr. rewrite merge_sort_Permutation in Hr.
  apply list_elem_of_bind in Hr as (o & Hr & Ho). apply list_elem_of_bind in Hr as (e & Hr & _).
  apply list_elem_of_singleton in Hr as ->. apply list_elem_of_filter in Ho. tauto.
Qed.

Lemma process_item_id m send o e : ob_id (process_item m send o e).1 = ob_id o.
Proof. unfold process_item. by destruct (send _). Qed.

Lemma update_outbox_other ob' l o : o ∈ l -> ob_id o <> ob_id ob' -> o ∈ update_outbox ob' l.
Proof.
  intros Ho Hne. apply list_elem_of_fmap. exists o. split; [|done].
  destruct (str_eqb _ _) eqn:E; [|done]. by apply str_eqb_spec in E.
Qed.

(** A dispatch run touches only rows waiting to be sent: a row that is
    SENT, dead-lettered or in progress is still there unchanged, and the
    operations and events are untouched. *)
Theorem dispatch_skips_closed m limit send db o :
  NoDup (map ob_id (db_outbox db)) -> o ∈ db_outbox db -> dispatchable o = false ->
  let db' := (process_pending m limit send db).1 in
  o ∈ db_outbox db' /\ db_ops db' = db_ops db /\ db_events db' = db_events db.
Proof.
  intros Hnd Ho Hd. unfold process_pending. cbv zeta.
  assert (Hsel : Forall (fun row => ob_id row.1 <> ob_id o) (selected limit db)).
  { apply Forall_forall. intros row Hr Hid. apply selected_in in Hr as [Hin Hdis].
  apply list_elem_of_lookup in Hin as [i Hi], Ho as [j Hj].
  assert (i = j); [|congruence].
  eapply (NoDup_lookup (map ob_id (db_outbox db))); [done|..];
    rewrite list_lookup_fmap; [by rewrite Hi|by rewrite Hj; simpl; rewrite Hid]. }
  assert (Hgen : forall rows d n, Forall (fun row => ob_id row.1 <> ob_id o) rows -> o ∈ db_outbox d ->
  let r := (foldl (fun acc row =>
         let '(d, n) := acc in
         let '(ob', ok) := process_item m send row.1 row.2 in
         (mk_p5_db (db_ops d) (db_events d) (update_outbox ob' (db_outbox d)), (if ok : bool then S n else n)))
         (d, n) rows).1 in
  o ∈ db_outbox r /\ db_ops r = db_ops d /\ db_events r = db_events d).
  { induction rows as [|row rows IH]; intros d n Hf Hod; [done|].
  apply Forall_cons in Hf as [Hrow Hf]. cbn [foldl].
  destruct (process_item m send row.1 row.2) as [ob' ok] eqn:Ep.
  assert (Hid : ob_id ob' = ob_id row.1) by (rewrite <- (process_item_id m send row.1 row.2); by rewrite Ep).
  apply (IH (mk_p5_db (db_ops d) (db_events d) (update_outbox ob' (db_outbox d)))); [done|].
  apply update_outbox_other; [done|]. by rewrite Hid. }
  by apply Hgen.
Qed.
End properties.

(** ** Concrete ledgers *)

Definition pstamp (n : string) : stamp := mk_stamp ("event-" +:+ n) ("outbox-" +:+ n) ("2026-01-01T00:00:0" +:+ n).
Definition por (r : res p5_err p5_db) : p5_db := match r with Ok d => d | Err _ => p5_empty end.

Definition pdb1 : p5_db := por (create_operation p5_empty "op" "consequence" E_NON_IDEMPOTENT "intent" "actor" (pstamp "1")).
Definition pdb2 : p5_db := por (authorize pdb1 "op" "decision" (pstamp "2")).
Definition pdb3 : p5_db := por (start_execution pdb2 "op" (pstamp "3")).
Definition pdb4 : p5_db := por (record_outcome_unknown pdb3 "op" (pstamp "4")).

(** [por] of a computation that returns. *)
Definition is_ok {A} (r : res p5_err A) : bool := match r with Ok _ => true | Err _ => false end.
Lemma por_ok r : is_ok r = true -> r = Ok (por r).
Proof. by destruct r. Qed.

Ltac by_run := apply por_ok; vm_compute; reflexivity.

Lemma pdb1_reach : p5_reachable pdb1.
Proof.
  apply (steps_snoc _ p5_empty); [apply steps_refl|].
  apply (ps_create _ _ "op" "consequence" E_NON_IDEMPOTENT "intent" "actor" (pstamp "1")). by_run.
Qed.
Lemma pdb2_reach : p5_reachable pdb2.
Proof.
  apply (steps_snoc _ pdb1); [apply pdb1_reach|].
  apply (ps_authorize _ _ "op" "decision" (pstamp "2")). by_run.
Qed.
Lemma pdb3_reach : p5_reachable pdb3.
Proof.
  apply (steps_snoc _ pdb2); [apply pdb2_reach|]. apply (ps_start _ _ "op" (pstamp "3")). by_run.
Qed.
Lemma pdb4_reach : p5_reachable pdb4.
Proof.
  apply (steps_snoc _ pdb3); [apply pdb3_reach|]. apply (ps_unknown _ _ "op" (pstamp "4")). by_run.
Qed.

Definition pop0 : P5Operation := mk_op "" "" "" REQUESTED true "" "" None 0.
Definition pop (db : p5_db) : P5Operation := default pop0 (db_ops db !! "op").
Definition pev0 : P5Event := mk_event "" "" 0 None EvUnknown None None None None None "" None "".
Definition pev (db : p5_db) (n : nat) : P5Event := default pev0 (events_of db "op" !! n).

(** Two overlapping authorizations: both read the first event. *)
Definition pdb2' : p5_db := por (authorize pdb1 "op" "decision" (pstamp "7")).
Definition pfork : p5_db := commit (commit pdb1 pdb1 pdb2) pdb1 pdb2'.

Example overlap_forks :
  map ev_seq (events_of pfork "op") = [0; 1; 1] /\ ev_prev_hash (pev pfork 1) = ev_prev_hash (pev pfork 2).
Proof. vm_compute. split; reflexivity. Qed.

Lemma pdb1_unforked : unforked pdb1.
Proof.
  intros id. assert (He : db_events pdb1 = [pev pdb1 0]) by (vm_compute; reflexivity).
  unfold events_of. rewrite He, filter_cons. case_decide; simpl; [apply NoDup_singleton|constructor].
Qed.

Lemma pfork_overlapping : overlapping [pfork; commit pdb1 pdb1 pdb2; pdb1; p5_empty].
Proof.
  assert (H1 : overlapping [pdb1; p5_empty]).
  { change pdb1 with (commit p5_empty p5_empty pdb1) at 1. apply ov_commit; [constructor|by left| |].
    - intros id. constructor.
    - apply (ps_create _ _ "op" "consequence" E_NON_IDEMPOTENT "intent" "actor" (pstamp "1")). by_run. }
  apply ov_commit; [apply ov_commit; [exact H1|by left|exact pdb1_unforked|]|by right; left|exact pdb1_unforked|].
  - apply (ps_authorize _ _ "op" "decision" (pstamp "2")). by_run.
  - apply (ps_authorize _ _ "op" "decision" (pstamp "7")). by_run.
Qed.


Lemma p5_guarded_events_witness :
  exists a s, events_of pdb4 "op" !! 1 = Some a /\ ev_asserted a = Some (ts_str true s) /\
    guarded (ev_type (pev pdb4 2)) s.
Proof.
  apply (p5_guarded_events pdb4 "op" 1 (pev pdb4 2) pdb4_reach). vm_compute. reflexivity.
Defined.

Definition pdb5 : p5_db := por (authorize pdb4 "op" "decision" (pstamp "5")).
Lemma pdb5_reach : p5_reachable pdb5.
Proof.
  apply (steps_snoc _ pdb4); [apply pdb4_reach|]. apply (ps_authorize _ _ "op" "decision" (pstamp "5")). by_run.
Qed.

Lemma p5_class_e_not_restarted_witness : ev_type (pev pdb5 4) <> EvStarted.
Proof.
  apply (p5_class_e_not_restarted pdb5 "op" (pop pdb5) 3 4 (pev pdb5 3) (pev pdb5 4) pdb5_reach).
  - vm_compute. reflexivity.
  - vm_compute. reflexivity.
  - lia.
  - vm_compute. reflexivity.
  - vm_compute. reflexivity.
  - vm_compute. reflexivity.
Defined.

Lemma p5_single_claim_witness :
  events_of pdb2 "op" = events_of pdb2 "op" /\ claim pdb3 "op" 1 (pstamp "9") = Err TransitionConflict.
Proof.
  apply (p5_single_claim pdb2 pdb2 pdb3 pdb3 "op" (pop pdb2) 1 (pstamp "3") (pstamp "9") pdb2_reach).
  - vm_compute. reflexivity.
  - vm_compute. reflexivity.
  - apply steps_refl.
  - vm_compute. reflexivity.
  - apply steps_refl.
Defined.

Definition pauth : authority := mk_authority "auth" "ei" "policy" "act" ["truth.transition"] 100.
Definition prq : truth_request :=
  mk_request "op" COMPLETED_SUCCESS (Some pauth) "TRUTH_ALLOW" (Some "jti") "cryptographic" (Some "d") None
    (Some "ei") None false.
Definition penf : enforcer := mk_enforcer ∅ ∅.

Lemma enforcer_sound_witness :
  exists a op, rq_authority prq = Some a /\ db_ops pdb3 !! "op" = Some op /\ COMPLETED_SUCCESS ∈ ALLOWED (op_state op).
Proof.
  destruct (authorize_and_record_truth 50 penf pdb3 prq (pstamp "4")) as [en' [db'|e]] eqn:E;
    [|exfalso; revert E; vm_compute; discriminate].
  destruct (enforcer_sound 50 penf pdb3 prq (pstamp "4") en' db' E)
    as (a & op & H1 & H2 & _ & _ & _ & _ & _ & _ & _ & _ & H3).
  exists a, op. split_and!; [exact H1|exact H2|exact H3].
Defined.

Lemma replay_denied_until_expiry_witness :
  (check_and_store 60 (serve {[ "jti" := 100%Z ]} [(55%Z, "other", 90%Z)]) "jti" 120).1 = false.
Proof.
  apply (replay_denied_until_expiry 50 ∅ "jti" 100 {[ "jti" := 100%Z ]} [(55%Z, "other", 90%Z)]).
  - vm_compute. reflexivity.
  - constructor; [simpl; lia|constructor].
  - lia.
Defined.

Definition pob : P5Outbox := mk_outbox "o1" "e1" "PGL" "h" PENDING 0 None "t".

Lemma dispatch_dead_letters_witness :
  ob_status (rounds 5 (fun _ => TransportError "down") pev0 7 pob) = DEAD_LETTER /\
  ob_attempts (rounds 5 (fun _ => TransportError "down") pev0 7 pob) = 5.
Proof.
  destruct (dispatch_dead_letters 5 (fun _ => TransportError "down") pev0 7 pob) as (H1 & _ & H2);
    [discriminate|lia|reflexivity|reflexivity|].
  split; [exact H2|exact H1].
Defined.

Definition psent : P5Outbox := mk_outbox "o2" "e2" "PGL" "h" SENT 1 None "t".
Definition pdbo : p5_db := mk_p5_db ∅ [] [pob; psent].

Lemma dispatch_skips_closed_witness :
  psent ∈ db_outbox (process_pending 5 50 (fun _ => Sent) pdbo).1.
Proof.
  apply (dispatch_skips_closed 5 50 (fun _ => Sent) pdbo psent).
  - apply (bool_decide_unpack _). vm_compute. exact I.
  - right. left.
  - reflexivity.
Defined.

(** ** What the engine does not check *)

Definition unknown0 : p5_db := por (record_outcome_unknown pdb1 "op" (pstamp "2")).
Definition bypass : p5_db :=
  por (complete_success unknown0 "op" (Some "proof") None None true None (pstamp "3")).
Definition done1 : p5_db :=
  por (complete_success pdb3 "op" (Some "proof") None None true None (pstamp "4")).
Definition again1 : p5_db := por (authorize done1 "op" "decision" (pstamp "5")).
Definition restarted : p5_db := por (start_execution again1 "op" (pstamp "6")).

(** [authorize] and [record_outcome_unknown] test a constant source
    state, not the operation's: the engine accepts a run from REQUESTED to
    COMPLETED_SUCCESS with no execution start and no proof-subject hash, and
    a run in which a completed class E operation is authorized and started a
    second time. *)
Theorem p5_unchecked_source_state :
  (p5_reachable bypass /\ op_state (pop bypass) = COMPLETED_SUCCESS
   /\ map ev_type (events_of bypass "op") = [EvIntentRequested; EvUnknown; EvSuccess]
   /\ map ev_proof_subject_hash (events_of bypass "op") = [None; None; None])
  /\ (p5_reachable restarted /\ op_sink_class (pop restarted) = E_NON_IDEMPOTENT
      /\ map ev_type (events_of restarted "op")
         = [EvIntentRequested; EvAuthorized; EvStarted; EvSuccess; EvAuthorized; EvStarted]).
Proof.
  split.
  - split; [|split_and!; vm_compute; reflexivity].
    apply (steps_snoc _ unknown0); [apply (steps_snoc _ pdb1); [apply pdb1_reach|]|].
    + apply (ps_unknown _ _ "op" (pstamp "2")). by_run.
    + apply (ps_success _ _ "op" (Some "proof") None None true None (pstamp "3")). by_run.
  - split; [|split_and!; vm_compute; reflexivity].
    apply (steps_snoc _ again1); [apply (steps_snoc _ done1); [apply (steps_snoc _ pdb3); [apply pdb3_reach|]|]|].
    + apply (ps_success _ _ "op" (Some "proof") None None true None (pstamp "4")). by_run.
    + apply (ps_authorize _ _ "op" "decision" (pstamp "5")). by_run.
    + apply (ps_start _ _ "op" (pstamp "6")). by_run.
Qed.
