(* ===== verification/MountModels.v ===== *)
(** * Contract models of capability mounting (capability_mount/models.py)

    Packages, scopes, policies, grants and tokens, and what a mount row keeps
    of them in its JSON columns. *)

From Stdlib Require Import ZArith String.
From stdpp Require Import base strings list.
From S2P Require Import Prelude Canon.

Record CapabilityPackage := mk_package {
  pk_id : string; pk_reads : list string; pk_writes : list string; pk_blocked : list string;
  pk_external_send : list string; pk_suppression_required : list string; pk_target_ref : option string;
  (* the policy_defaults that are MountPolicy fields *)
  pk_mode : option string; pk_human : option bool; pk_suppression : option bool; pk_persistent : option bool;
  pk_requires_start_claim : bool }.

Record BoundOperationSpec := mk_bound_op {
  bo_target_ref : string; bo_action : string; bo_resource : string; bo_arguments : list (string * json) }.

Record MountScope := mk_scope {
  sc_workspace : string; sc_project : string; sc_reads : option (list string); sc_writes : option (list string);
  sc_resources : option (list string); sc_blocked : list string; sc_operation : option BoundOperationSpec }.

Record MountPolicy := mk_policy {
  mp_mode : string; mp_human_approval : bool; mp_suppression_check : bool; mp_persistent_memory : bool }.

Definition default_policy : MountPolicy := mk_policy "draft_only" true true false.

Record Grants := mk_grants {
  gr_reads : list string; gr_writes : list string; gr_resources : list string; gr_blocked : list string;
  gr_external_send : list string; gr_suppression_required : list string; gr_envelope_digest : option string }.

Record Token := mk_token {
  tk_token_id : string; tk_mount_id : string; tk_execution_id : string; tk_package_ref : string;
  tk_workspace : string; tk_project : string; tk_grants : Grants; tk_policy : MountPolicy;
  tk_issued_at : Z; tk_expires_at : Z; tk_ttl : Z; tk_nonce : string }.

(** What [mount_json] and [token_json] hold besides the continuity keys: the
    token, its biscuit, and the substrate bindings. *)
Record mrecord := mk_mrecord {
  mc_token : Token; mc_biscuit : option string; mc_substrate_id : option string;
  mc_boot_instance_id : option string; mc_runtime_key_thumbprint : option string;
  mc_state_root : option string }.

(** [token_data["token_id"] = ...; token_data["nonce"] = ...]. *)
Definition retoken (c : mrecord) (token_id nonce : string) : mrecord :=
  let t := mc_token c in
  mk_mrecord (mk_token token_id (tk_mount_id t) (tk_execution_id t) (tk_package_ref t) (tk_workspace t)
                (tk_project t) (tk_grants t) (tk_policy t) (tk_issued_at t) (tk_expires_at t) (tk_ttl t) nonce)
    (mc_biscuit c) (mc_substrate_id c) (mc_boot_instance_id c) (mc_runtime_key_thumbprint c) (mc_state_root c).
