(* ===== verification/Lease.v ===== *)
(** * Capability leases (cappo_backend/models/capability_lease.py)

    Resource bounds with their subset and intersection, the lease row, the
    evaluation of effective authority, the lease state machine and
    attenuation.  [resource_in] is the check a client makes against the
    effective bound (capability_mount/service.py, [_resource_in]).  Times are
    microseconds since the epoch. *)

From Stdlib Require Import ZArith Lia Ascii String.
From stdpp Require Import base gmap strings list.
From S2P Require Import Prelude PyJson.

(** ** Strings *)

Definition starts_with (s p : string) : bool := bool_decide (chars p `prefix_of` chars s).
Definition ends_with (s suf : string) : bool := bool_decide (chars suf `suffix_of` chars s).
(** [s[:-n]]. *)
Definition drop_last (n : nat) (s : string) : string :=
  string_of_list_ascii (take (length (chars s) - n) (chars s)).

(** ** Resource bounds *)

(** [bound] covers [resource]: the exact name, or "dir/*" as a prefix. *)
Definition bound_covers (resource bound : string) : bool :=
  str_eqb resource bound || (ends_with bound "/*" && starts_with resource (drop_last 1 bound)).

(** [service._resource_in]. *)
Definition resource_in (resource : option string) (allowed : gset string) : bool :=
  if bool_decide ("*" ∈ allowed) then true
  else match resource with
       | None => false
       | Some r => existsb (bound_covers r) (elements allowed)
       end.

(** [CapabilityLease._resource_issubset]. *)
Definition resource_issubset (subset superset : gset string) : bool :=
  if bool_decide ("*" ∈ superset) then true
  else forallb (fun s_res =>
         existsb (fun p_res =>
           str_eqb p_res s_res
           || (ends_with p_res "/*"
               && (starts_with s_res (drop_last 1 p_res) || str_eqb s_res (drop_last 2 p_res))))
         (elements superset)) (elements subset).

(** What one pair contributes to [CapabilityLease._resource_intersection]. *)
Definition pair_meet (res1 res2 : string) : list string :=
  if str_eqb res1 res2 then [res1]
  else if ends_with res2 "/*" && starts_with res1 (drop_last 1 res2) then [res1]
  else if ends_with res1 "/*" && starts_with res2 (drop_last 1 res1) then [res2]
  else [].

Definition resource_intersection (set1 set2 : gset string) : gset string :=
  if bool_decide ("*" ∈ set1) && bool_decide ("*" ∈ set2) then {["*"]}
  else if bool_decide ("*" ∈ set1) then set2
  else if bool_decide ("*" ∈ set2) then set1
  else list_to_set (elements set1 ≫= fun res1 => elements set2 ≫= fun res2 => pair_meet res1 res2).

(** ** The lease *)

Inductive LeaseState := L_ISSUED | L_ACTIVE | L_EXPIRED | L_REVOKED | L_SUSPENDED.
#[export] Instance LeaseState_eq_dec : EqDecision LeaseState.
Proof. solve_decision. Defined.

Inductive ConnectivityState := ONLINE | OFFLINE.
#[export] Instance ConnectivityState_eq_dec : EqDecision ConnectivityState.
Proof. solve_decision. Defined.

(** [InvariantViolationError], by its message. *)
Inductive lease_err :=
  | CANNOT_AUTHORIZE_IN_STATE | METADATA_CAN_AUTHORIZE_WITHOUT_BISCUIT | LEASE_CAN_WIDEN_ACTION
  | LEASE_CAN_WIDEN_RESOURCE | LEASE_CAN_CHANGE_EXECUTOR | LEASE_CAN_CHANGE_SUBJECT
  | LEASE_CAN_EXTEND_EXPIRY | LEASE_CAN_INCREASE_DELEGATION | LEASE_CAN_ROLLBACK_AUTHORITY_EPOCH
  | OFFLINE_MODE_CAN_CREATE_NEW_AUTHORITY | OFFLINE_DURATION_EXCEEDED
  | RECONCILIATION_REQUIRED_BLOCKS_OFFLINE | REVOKED_LEASE_CAN_RESURRECT | EXPIRED_LEASE_CAN_RESURRECT
  | LEASE_CAN_ROLLBACK_REVOCATION_EPOCH | CHILD_LEASE_CANNOT_WIDEN_ACTIONS
  | CHILD_LEASE_CANNOT_WIDEN_RESOURCES.

Record AuthorityContext := mk_auth {
  ac_actions : gset string; ac_resources : gset string; ac_executor : string; ac_subject : string;
  ac_expires_at : option Z; ac_depth : Z; ac_max_depth : Z; ac_epoch : Z }.

(** The columns of [CapabilityLease] its methods and its callers use. *)
Record lease := mk_lease {
  le_id : string; le_mount_id : string; le_subject : string; le_executor : string;
  le_expires_at : Z; le_state : LeaseState; le_state_version : Z; le_authority_epoch : Z;
  le_revocation_epoch : Z; le_depth : Z; le_max_depth : Z; le_actions : gset string;
  le_resources : gset string; le_offline_enabled : bool; le_max_offline : Z;
  le_reconciliation_required : bool; le_updated_at : option Z; le_offline_budget : Z;
  le_offline_side_effect_limit : Z }.

(** [dt.replace(microsecond=0)]. *)
Definition whole_second (t : Z) : Z := (t - t mod 1000000)%Z.

(** The checks of [evaluate_authority] made offline. *)
Definition offline_checks (l : lease) (now : Z) : res lease_err unit :=
  do? raise_if (negb (le_offline_enabled l)) OFFLINE_MODE_CAN_CREATE_NEW_AUTHORITY in
  do? raise_if ((0 <? le_max_offline l)%Z
                && (le_max_offline l * 1000000 <? now - default now (le_updated_at l))%Z)
        OFFLINE_DURATION_EXCEEDED in
  raise_if (le_reconciliation_required l) RECONCILIATION_REQUIRED_BLOCKS_OFFLINE.

Definition evaluate_authority (l : lease) (biscuit_auth : option AuthorityContext)
    (package_auth : AuthorityContext) (connectivity : ConnectivityState) (now : Z)
    : res lease_err AuthorityContext :=
  do? raise_if (negb (bool_decide (le_state l ∈ [L_ISSUED; L_ACTIVE]))) CANNOT_AUTHORIZE_IN_STATE in
  match biscuit_auth with
  | None => Err METADATA_CAN_AUTHORIZE_WITHOUT_BISCUIT
  | Some b =>
    do? raise_if (negb (bool_decide (le_actions l ⊆ ac_actions b))) LEASE_CAN_WIDEN_ACTION in
    do? raise_if (negb (resource_issubset (le_resources l) (ac_resources b))) LEASE_CAN_WIDEN_RESOURCE in
    do? raise_if (negb (str_eqb (le_executor l) (ac_executor b))) LEASE_CAN_CHANGE_EXECUTOR in
    do? raise_if (negb (str_eqb (le_subject l) (ac_subject b))) LEASE_CAN_CHANGE_SUBJECT in
    do? raise_if (match ac_expires_at b with
                  | Some e => (whole_second e <? whole_second (le_expires_at l))%Z
                  | None => false
                  end) LEASE_CAN_EXTEND_EXPIRY in
    do? raise_if (ac_max_depth b <? le_depth l)%Z LEASE_CAN_INCREASE_DELEGATION in
    do? raise_if (le_authority_epoch l <? ac_epoch b)%Z LEASE_CAN_ROLLBACK_AUTHORITY_EPOCH in
    do? (if decide (connectivity = OFFLINE) then offline_checks l now else Ok tt) in
    Ok (mk_auth (le_actions l ∩ ac_actions b ∩ ac_actions package_auth)
          (resource_intersection (resource_intersection (le_resources l) (ac_resources b))
             (ac_resources package_auth))
          (le_executor l) (le_subject l) (Some (le_expires_at l)) (le_depth l) (le_max_depth l)
          (le_authority_epoch l))
  end.

Definition with_state (l : lease) (s : LeaseState) (epoch rev_epoch : Z) : lease :=
  mk_lease (le_id l) (le_mount_id l) (le_subject l) (le_executor l) (le_expires_at l) s
    (le_state_version l + 1) epoch rev_epoch (le_depth l) (le_max_depth l) (le_actions l)
    (le_resources l) (le_offline_enabled l) (le_max_offline l) (le_reconciliation_required l)
    (le_updated_at l) (le_offline_budget l) (le_offline_side_effect_limit l).

Definition transition_state (l : lease) (new_state : LeaseState) (current_epoch : Z) : res lease_err lease :=
  do? raise_if (bool_decide (le_state l = L_REVOKED) && negb (bool_decide (new_state = L_REVOKED)))
        REVOKED_LEASE_CAN_RESURRECT in
  do? raise_if (bool_decide (le_state l = L_EXPIRED) && negb (bool_decide (new_state = L_EXPIRED)))
        EXPIRED_LEASE_CAN_RESURRECT in
  do? raise_if (current_epoch <? le_authority_epoch l)%Z LEASE_CAN_ROLLBACK_AUTHORITY_EPOCH in
  if decide (new_state = L_REVOKED) then
    do? raise_if (current_epoch <? le_revocation_epoch l)%Z LEASE_CAN_ROLLBACK_REVOCATION_EPOCH in
    Ok (with_state l new_state current_epoch current_epoch)
  else Ok (with_state l new_state current_epoch (le_revocation_epoch l)).

Definition attenuate (l : lease) (new_actions new_resources : gset string) (current_epoch : Z)
    : res lease_err lease :=
  do? raise_if (negb (bool_decide (new_actions ⊆ le_actions l))) CHILD_LEASE_CANNOT_WIDEN_ACTIONS in
  do? raise_if (negb (resource_issubset new_resources (le_resources l))) CHILD_LEASE_CANNOT_WIDEN_RESOURCES in
  do? raise_if (current_epoch <? le_revocation_epoch l)%Z LEASE_CAN_ROLLBACK_REVOCATION_EPOCH in
  Ok (mk_lease (le_id l) (le_mount_id l) (le_subject l) (le_executor l) (le_expires_at l) (le_state l)
        (le_state_version l + 1) (le_authority_epoch l) current_epoch (le_depth l) (le_max_depth l)
        new_actions new_resources (le_offline_enabled l) (le_max_offline l)
        (le_reconciliation_required l) (le_updated_at l) (le_offline_budget l)
        (le_offline_side_effect_limit l)).

(** One successful mutation of a lease. *)
Inductive lease_step : lease -> lease -> Prop :=
  | ls_transition l l' s e : transition_state l s e = Ok l' -> lease_step l l'
  | ls_attenuate l l' a r e : attenuate l a r e = Ok l' -> lease_step l l'.

(** ** Lemmas on bounds *)

Lemma chars_drop_last n s : chars (drop_last n s) = take (length (chars s) - n) (chars s).
Proof. unfold drop_last. apply list_ascii_of_string_of_list_ascii. Qed.

Lemma drop_last_prefix n s : chars (drop_last n s) `prefix_of` chars s.
Proof. rewrite chars_drop_last. apply prefix_take. Qed.

(** A bound that ends in "/*" is its directory, "/" and "*". *)
Lemma ends_with_dir b :
  ends_with b "/*" = true ->
  exists d, chars b = d ++ ["/"%char; "*"%char] /\ chars (drop_last 1 b) = d ++ ["/"%char]
            /\ chars (drop_last 2 b) = d.
Proof.
  unfold ends_with. rewrite bool_decide_eq_true. intros [d Hd]. exists d.
  rewrite !chars_drop_last, Hd, !length_app. simpl. split_and!.
  - done.
  - replace (length d + 2 - 1) with (length d + 1) by lia.
    rewrite take_app_add'; [|done]. done.
  - replace (length d + 2 - 2) with (length d) by lia. by rewrite take_app_length.
Qed.

Lemma bound_covers_spec r b :
  bound_covers r b = true <->
  r = b \/ (ends_with b "/*" = true /\ chars (drop_last 1 b) `prefix_of` chars r).
Proof.
  unfold bound_covers, starts_with.
  rewrite orb_true_iff, andb_true_iff, str_eqb_spec, bool_decide_eq_true. done.
Qed.

(** Bounds nest: what a covered bound covers, the covering bound covers. *)
Lemma bound_covers_trans r a b :
  bound_covers a b = true -> bound_covers r a = true -> bound_covers r b = true.
Proof.
  rewrite !bound_covers_spec. intros [->|[Hb Hp]] [->|[Ha Hr]]; auto.
  right. split; [done|].
  destruct (ends_with_dir b Hb) as (d & _ & Hd & _), (ends_with_dir a Ha) as (e & He & He' & _).
  rewrite Hd in *. rewrite He' in Hr. rewrite He in Hp. etrans; [|exact Hr].
  destruct Hp as [k Hk].
  destruct k as [|c k] using rev_ind.
  - exfalso. rewrite app_nil_r in Hk.
    replace (e ++ ["/"%char; "*"%char]) with ((e ++ ["/"%char]) ++ ["*"%char]) in Hk
      by (by rewrite <- app_assoc).
    by apply app_inj_tail in Hk as [_ ?].
  - replace (e ++ ["/"%char; "*"%char]) with ((e ++ ["/"%char]) ++ ["*"%char]) in Hk
      by (by rewrite <- app_assoc).
    rewrite app_assoc in Hk. apply app_inj_tail in Hk as [-> _]. by eexists.
Qed.

(** Two bounds that cover one name: one of them covers the other. *)
Lemma bound_covers_total r a b :
  bound_covers r a = true -> bound_covers r b = true ->
  bound_covers a b = true \/ bound_covers b a = true.
Proof.
  intros Ha Hb. pose proof Ha as Ha'. pose proof Hb as Hb'.
  apply bound_covers_spec in Ha' as [->|[Ea Pa]]; [by left|].
  apply bound_covers_spec in Hb' as [->|[Eb Pb]]; [by right|].
  destruct (prefix_weak_total _ _ _ Pa Pb) as [H|H]; [right|left]; apply bound_covers_spec; right;
    (split; [done|]); (etrans; [exact H|apply drop_last_prefix]).
Qed.

Lemma pair_meet_spec a b x :
  x ∈ pair_meet a b <-> (x = a /\ bound_covers a b = true)
                        \/ (x = b /\ bound_covers b a = true /\ bound_covers a b = false).
Proof.
  unfold pair_meet, bound_covers. destruct (str_eqb a b) eqn:E.
  - apply str_eqb_spec in E as ->. rewrite str_eqb_refl. simpl. set_solver.
  - rewrite (proj2 (str_eqb_neq b a)) by (apply str_eqb_neq in E; congruence). simpl.
    destruct (ends_with b "/*" && starts_with a (drop_last 1 b)); [set_solver|].
    destruct (ends_with a "/*" && starts_with b (drop_last 1 a)); set_solver.
Qed.

Lemma existsb_elements (f : string -> bool) (s : gset string) :
  existsb f (elements s) = true <-> exists x, x ∈ s /\ f x = true.
Proof.
  rewrite existsb_exists. split.
  - intros (x & Hx & Hf). exists x. split; [|done]. by apply elem_of_elements, list_elem_of_In.
  - intros (x & Hx & Hf). exists x. split; [|done]. by apply list_elem_of_In, elem_of_elements.
Qed.

Lemma resource_in_spec r s :
  resource_in r s = true <->
  "*" ∈ s \/ (("*" ∉ s) /\ exists x b, r = Some x /\ b ∈ s /\ bound_covers x b = true).
Proof.
  unfold resource_in. case_bool_decide as E; [by split; auto|].
  destruct r as [r|].
  - rewrite existsb_elements. split.
    + intros (b & ? & ?). right. split; [done|]. by exists r, b.
    + intros [?|(_ & x & b & [= ->] & ? & ?)]; [done|]. by exists b.
  - split; [done|]. intros [?|(_ & x & b & ? & _)]; done.
Qed.

Lemma meet_elem a b x :
  ("*" ∉ a) -> ("*" ∉ b) ->
  x ∈ resource_intersection a b <-> exists y z, y ∈ a /\ z ∈ b /\ x ∈ pair_meet y z.
Proof.
  intros Ha Hb. unfold resource_intersection. rewrite !bool_decide_eq_false_2 by done. simpl.
  rewrite elem_of_list_to_set, list_elem_of_bind. split.
  - intros (y & Hx & Hy). apply list_elem_of_bind in Hx as (z & Hx & Hz).
    exists y, z. by rewrite !elem_of_elements in *.
  - intros (y & z & Hy & Hz & Hx). exists y. split; [|by apply elem_of_elements].
    apply list_elem_of_bind. exists z. split; [done|by apply elem_of_elements].
Qed.

(** The intersection grants exactly what both sets grant. *)
Lemma resource_meet r a b :
  resource_in r (resource_intersection a b) = resource_in r a && resource_in r b.
Proof.
  destruct (decide ("*" ∈ a)) as [Ha|Ha], (decide ("*" ∈ b)) as [Hb|Hb].
  1-3: unfold resource_intersection, resource_in;
    rewrite ?(bool_decide_eq_true_2 _ Ha), ?(bool_decide_eq_true_2 _ Hb),
      ?(bool_decide_eq_false_2 _ Ha), ?(bool_decide_eq_false_2 _ Hb); simpl;
    rewrite ?(bool_decide_eq_true_2 _ Ha), ?(bool_decide_eq_true_2 _ Hb),
      ?(bool_decide_eq_false_2 _ Ha), ?(bool_decide_eq_false_2 _ Hb), ?andb_true_r; try done.
  assert (Hn : "*" ∉ resource_intersection a b).
  { rewrite meet_elem by done. intros (y & z & Hy & Hz & Hx).
    apply pair_meet_spec in Hx as [[<- _]|[<- _]]; done. }
  apply eq_iff_eq_true. rewrite andb_true_iff, !resource_in_spec. split.
  - intros [?|(_ & x & c & -> & Hc & Hx)]; [done|].
    apply meet_elem in Hc as (y & z & Hy & Hz & Hc); [|done..].
    apply pair_meet_spec in Hc as [[-> H]|(-> & H & _)];
      split; right; (split; [done|]); do 2 eexists; (split; [done|]); split; eauto using bound_covers_trans.
  - intros [[?|(_ & x & y & Hr & Hy & Hxy)] [?|(_ & x' & z & Hr' & Hz & Hxz)]]; try done.
    rewrite Hr in Hr' |- *. injection Hr' as <-. right. split; [done|].
    destruct (bound_covers y z) eqn:E.
    + exists x, y. split_and!; [done| |done]. apply meet_elem; [done..|].
      exists y, z. split_and!; [done..|]. apply pair_meet_spec. by left.
    + assert (bound_covers z y = true) as E'.
      { destruct (bound_covers_total _ _ _ Hxy Hxz) as [H|H]; congruence. }
      exists x, z. split_and!; [done| |done]. apply meet_elem; [done..|].
      exists y, z. split_and!; [done..|]. apply pair_meet_spec. by right.
Qed.

(** [_resource_issubset] also takes the bare directory of a "dir/*" bound. *)
Lemma resource_issubset_spec a b :
  resource_issubset a b = true <->
  "*" ∈ b \/ (("*" ∉ b) /\ forall x, x ∈ a -> exists y, y ∈ b /\
     (bound_covers x y = true \/ (ends_with y "/*" = true /\ x = drop_last 2 y))).
Proof.
  unfold resource_issubset. case_bool_decide as E; [by split; auto|].
  rewrite forallb_forall. split.
  - intros H. right. split; [done|]. intros x Hx.
    specialize (H x (proj1 (list_elem_of_In _ _) (proj2 (elem_of_elements _ _) Hx))).
    apply existsb_elements in H as (y & Hy & H). exists y. split; [done|].
    unfold bound_covers. revert H. rewrite !orb_true_iff, !andb_true_iff, !orb_true_iff, !str_eqb_spec.
    intros [->|[? [?|?]]]; auto.
  - intros [?|[_ H]]; [done|]. intros x Hx%list_elem_of_In%elem_of_elements.
    destruct (H x Hx) as (y & Hy & Hc). apply existsb_elements. exists y. split; [done|].
    rewrite !orb_true_iff, !andb_true_iff, !orb_true_iff, !str_eqb_spec.
    destruct Hc as [Hc|[? ?]]; [|auto]. unfold bound_covers in Hc.
    revert Hc. rewrite !orb_true_iff, !andb_true_iff, !str_eqb_spec. intros [->|[? ?]]; auto.
Qed.
