(* ===== verification/LeaseProperties.v ===== *)
(** * Properties of capability leases

    Effective authority is the meet of lease, biscuit and package; epochs
    never go back and revocation is final; attenuation, with the one case in
    which it widens. *)

From Stdlib Require Import ZArith Lia Ascii String.
From stdpp Require Import base gmap strings list.
From S2P Require Import Prelude PyJson Lease.

Local Open Scope Z_scope.

(** What one mutation can do to a lease. *)
Record lease_le (l l' : lease) : Prop := {
  ll_epoch : le_authority_epoch l <= le_authority_epoch l';
  ll_actions : le_actions l' ⊆ le_actions l;
  ll_revoked : le_state l = L_REVOKED -> le_state l' = L_REVOKED;
  ll_expired : le_state l = L_EXPIRED -> le_state l' = L_EXPIRED;
  ll_revocation : le_revocation_epoch l <= le_revocation_epoch l';
  ll_version : le_state_version l <= le_state_version l';
  ll_same : le_id l' = le_id l /\ le_subject l' = le_subject l /\ le_executor l' = le_executor l
            /\ le_expires_at l' = le_expires_at l /\ le_depth l' = le_depth l }.

#[export] Instance lease_le_preorder : PreOrder lease_le.
Proof.
  split.
  - intros l. split; try done; try lia.
  - intros a b c [H1 H2 H3 H4 H5 H6 H7] [K1 K2 K3 K4 K5 K6 K7].
    split; [lia|by etrans|auto|auto|lia|lia|]. intuition congruence.
Qed.

Lemma lease_step_le l l' : lease_step l l' -> lease_le l l'.
Proof.
  intros [l0 l0' s e H|l0 l0' a r e H].
  - unfold transition_state in H. res_inv H.
    destruct (decide (s = L_REVOKED)) as [->|Hs]; res_inv H; injection H as <-; split; simpl; try done;
      try (rewrite ?Z.ltb_ge in *; lia);
      intros Hst; rewrite Hst in *; autorewrite with cappo in *; naive_solver.
  - unfold attenuate in H. res_inv H. injection H as <-.
    apply negb_false_iff, bool_decide_eq_true in E. split; simpl; try done; rewrite ?Z.ltb_ge in *; lia.
Qed.

(** The authority a lease yields is bounded by its biscuit and its
    package.  [evaluate_authority] succeeds only for an ISSUED or ACTIVE
    lease with a biscuit; the effective actions are in all three sets, and a
    resource is granted by the effective bound exactly when lease, biscuit
    and package each grant it; the executor and subject are the biscuit's,
    the epoch is not behind it, the delegation depth is within its maximum
    and the expiry, to the second, is not after its expiry. *)
Theorem effective_authority_is_meet l bo p conn now eff :
  evaluate_authority l bo p conn now = Ok eff ->
  exists b, bo = Some b
    /\ (le_state l = L_ISSUED \/ le_state l = L_ACTIVE)
    /\ ac_actions eff = le_actions l ∩ ac_actions b ∩ ac_actions p
    /\ le_actions l ⊆ ac_actions b
    /\ (forall r, resource_in r (ac_resources eff)
                  = resource_in r (le_resources l) && resource_in r (ac_resources b)
                    && resource_in r (ac_resources p))
    /\ ac_executor eff = ac_executor b /\ ac_subject eff = ac_subject b
    /\ ac_epoch b <= ac_epoch eff /\ ac_depth eff <= ac_max_depth b
    /\ (forall e, ac_expires_at b = Some e -> whole_second (le_expires_at l) <= whole_second e)
    /\ (conn = OFFLINE -> le_offline_enabled l = true /\ le_reconciliation_required l = false).
Proof.
  unfold evaluate_authority. intros H. res_inv H. destruct bo as [b|]; [|done]. res_inv H.
  injection H as <-. exists b. simpl.
  autorewrite with cappo in *. rewrite ?Z.ltb_ge in *.
  split_and!; try done; try lia.
  - apply list_elem_of_In in E as [<-|[<-|[]]]; auto.
  - intros r. by rewrite !resource_meet.
  - intros e He. rewrite He in E4. by apply Z.ltb_ge in E4.
  - intros ->. rewrite decide_True in E7 by done. unfold offline_checks in E7. res_inv E7.
    apply negb_false_iff in E8. split; [done|]. by apply raise_if_Ok in E7.
Qed.

(** The lease life cycle.  Along any sequence of successful transitions
    and attenuations the authority and revocation epochs never decrease, the
    actions only shrink, identity and expiry are fixed, REVOKED and EXPIRED
    are final, and a lease that was ever revoked or expired authorizes
    nothing. *)
Theorem lease_never_resurrects l l' :
  steps lease_step l l' ->
  lease_le l l' /\
  (le_state l = L_REVOKED \/ le_state l = L_EXPIRED ->
   forall bo p conn now, evaluate_authority l' bo p conn now = Err CANNOT_AUTHORIZE_IN_STATE).
Proof.
  intros Hs. assert (lease_le l l') as Hle by (by apply (steps_preorder lease_step id lease_le); [apply lease_step_le|]).
  split; [done|]. intros Hst bo p conn now. unfold evaluate_authority.
  destruct Hst as [Hst|Hst]; [apply (ll_revoked _ _ Hle) in Hst|apply (ll_expired _ _ Hle) in Hst];
    by rewrite Hst.
Qed.

(** Attenuation narrows resources except through a bare directory: when
    [attenuate] succeeds, a resource the new lease grants was granted before,
    unless the new set names the directory [d] of an old bound "d/*". *)
Theorem attenuate_narrows l acts ress epoch l' r :
  attenuate l acts ress epoch = Ok l' ->
  resource_in r (le_resources l') = true ->
  resource_in r (le_resources l) = true
  \/ exists y, y ∈ le_resources l /\ ends_with y "/*" = true /\ drop_last 2 y ∈ le_resources l'.
Proof.
  unfold attenuate. intros H Hr. res_inv H. injection H as <-. simpl in *.
  apply negb_false_iff, resource_issubset_spec in E0 as [Hst|[Hst Hsub]].
  { left. apply resource_in_spec. by left. }
  apply resource_in_spec in Hr as [Hr|(_ & x & b & -> & Hb & Hx)].
  - destruct (Hsub _ Hr) as (y & Hy & [Hc|[Hc Hd]]).
    + exfalso. apply bound_covers_spec in Hc as [<-|[He Hp]]; [done|].
      destruct (ends_with_dir y He) as (d & _ & Hd & _). rewrite Hd in Hp.
      destruct Hp as [k Hk]. destruct d as [|c [|? ?]]; discriminate.
    + right. exists y. split_and!; [done..|]. by rewrite <- Hd.
  - destruct (Hsub _ Hb) as (y & Hy & [Hc|[Hc Hd]]).
    + left. apply resource_in_spec. right. split; [done|]. exists x, y.
      split_and!; [done..|]. by eapply bound_covers_trans.
    + right. exists y. split_and!; [done..|]. by rewrite <- Hd.
Qed.

(** A lease for the runs below. *)
Definition demo_lease (st : LeaseState) (ress : list string) : lease :=
  mk_lease "lease-1" "mnt-1" "spiffe://subject" "spiffe://executor" 2000000 st 1 3 0 0 1
    {["counter.read"; "counter.increment"]} (list_to_set ress) true 3600 false (Some 1000000) 5 5.

Definition demo_auth (ress : list string) : AuthorityContext :=
  mk_auth {["counter.read"; "counter.increment"]} (list_to_set ress) "spiffe://executor" "spiffe://subject"
    (Some 2000000) 0 1 3.

(** The lease of a successful mutation. *)
Definition by_lease (m : res lease_err lease) (d : lease) : lease := match m with Ok l => l | Err _ => d end.

(** Attenuation can widen a lease.  [_resource_issubset] accepts the bare
    directory of a "dir/*" bound, which [_resource_in] does not grant: a
    lease bounded by "reports/*" attenuates to "reports", a resource it never
    granted, and one bounded by "*/*" attenuates to "*", every resource. *)
Theorem attenuate_can_widen :
  (exists l', attenuate (demo_lease L_ACTIVE ["reports/*"]) {["counter.read"]} {["reports"]} 0 = Ok l'
     /\ resource_in (Some "reports") (le_resources (demo_lease L_ACTIVE ["reports/*"])) = false
     /\ resource_in (Some "reports") (le_resources l') = true)
  /\ (exists l', attenuate (demo_lease L_ACTIVE ["*/*"]) {["counter.read"]} {["*"]} 0 = Ok l'
     /\ resource_in (Some "anything") (le_resources (demo_lease L_ACTIVE ["*/*"])) = false
     /\ resource_in (Some "anything") (le_resources l') = true).
Proof.
  split.
  - exists (by_lease (attenuate (demo_lease L_ACTIVE ["reports/*"]) {["counter.read"]} {["reports"]} 0)
              (demo_lease L_ACTIVE [])).
    split_and!; vm_compute; reflexivity.
  - exists (by_lease (attenuate (demo_lease L_ACTIVE ["*/*"]) {["counter.read"]} {["*"]} 0)
              (demo_lease L_ACTIVE [])).
    split_and!; vm_compute; reflexivity.
Qed.

(** ** Witnesses *)

Definition by_auth (m : res lease_err AuthorityContext) (d : AuthorityContext) : AuthorityContext :=
  match m with Ok l => l | Err _ => d end.

Lemma effective_authority_is_meet_witness :
  ac_executor (by_auth (evaluate_authority (demo_lease L_ACTIVE ["reports/*"]) (Some (demo_auth ["*"]))
                          (demo_auth ["reports/a"]) OFFLINE 1500000) (demo_auth [])) = "spiffe://executor".
Proof.
  destruct (effective_authority_is_meet (demo_lease L_ACTIVE ["reports/*"]) (Some (demo_auth ["*"]))
              (demo_auth ["reports/a"]) OFFLINE 1500000
              (by_auth (evaluate_authority (demo_lease L_ACTIVE ["reports/*"]) (Some (demo_auth ["*"]))
                          (demo_auth ["reports/a"]) OFFLINE 1500000) (demo_auth [])))
    as (b & Hb & _ & _ & _ & _ & He & _).
  - vm_compute. reflexivity.
  - injection Hb as <-. exact He.
Defined.

Definition demo_revoked : lease := by_lease (transition_state (demo_lease L_ACTIVE ["a"]) L_REVOKED 4) (demo_lease L_ACTIVE []).
Definition demo_after : lease := by_lease (attenuate demo_revoked ∅ {["a"]} 5) (demo_lease L_ACTIVE []).

Lemma lease_never_resurrects_witness :
  evaluate_authority demo_after (Some (demo_auth ["*"])) (demo_auth ["*"]) ONLINE 0 = Err CANNOT_AUTHORIZE_IN_STATE.
Proof.
  refine (proj2 (lease_never_resurrects demo_revoked demo_after _) (or_introl _) _ _ _ _).
  - eapply steps_snoc; [apply steps_refl|]. apply (ls_attenuate _ _ ∅ {["a"]} 5). vm_compute. reflexivity.
  - vm_compute. reflexivity.
Defined.

Lemma attenuate_narrows_witness :
  resource_in (Some "reports/a") (le_resources (demo_lease L_ACTIVE ["reports/*"])) = true
  \/ exists y, y ∈ le_resources (demo_lease L_ACTIVE ["reports/*"]) /\ ends_with y "/*" = true
       /\ drop_last 2 y ∈ le_resources (by_lease (attenuate (demo_lease L_ACTIVE ["reports/*"]) ∅ {["reports/a"]} 5)
                                         (demo_lease L_ACTIVE [])).
Proof.
  apply (attenuate_narrows (demo_lease L_ACTIVE ["reports/*"]) ∅ {["reports/a"]} 5).
  - vm_compute. reflexivity.
  - vm_compute. reflexivity.
Defined.
