(* ===== verification/Consequence.v ===== *)
(** * Consequence lifecycle

    models/consequence_execution.py, services/consequence_lifecycle.py and
    the three closures that capability_mount/service.py builds for a mount
    ([cappo_evaluator], [begin_consequence], [completion_reporter]), and the
    reconcile endpoint of api/routers/reconciler_router.py.

    A method is a function of the committed tables ([cdb]) that returns or
    raises with the tables it leaves; a transaction that fails leaves them as
    they were.  Row ids drawn from uuid4 are arguments.  PGL anchoring of an
    outcome ([_anchor_consequence_outcome]) never raises and writes no table
    of the model. *)

From Stdlib Require Import ZArith Lia Ascii String.
From stdpp Require Import base gmap strings list pretty.
From S2P Require Import Prelude Canon PyJson MountModels Lease.

(** ** Data *)

Inductive ConsequenceState :=
  | C_AUTHORIZED | C_STARTED | C_SUCCEEDED | C_FAILED | C_OUTCOME_UNKNOWN | C_RECONCILED_SUCCEEDED
  | C_RECONCILED_FAILED | C_DISPATCHED_UNKNOWN | C_RESTORED | C_STALE_AUTHORITY
  | C_RECONCILIATION_REQUIRED.
#[export] Instance ConsequenceState_eq_dec : EqDecision ConsequenceState.
Proof. solve_decision. Defined.

Definition cs_value (s : ConsequenceState) : string :=
  match s with
  | C_AUTHORIZED => "authorized" | C_STARTED => "started" | C_SUCCEEDED => "succeeded"
  | C_FAILED => "failed" | C_OUTCOME_UNKNOWN => "outcome_unknown"
  | C_RECONCILED_SUCCEEDED => "reconciled_succeeded" | C_RECONCILED_FAILED => "reconciled_failed"
  | C_DISPATCHED_UNKNOWN => "dispatched-unknown" | C_RESTORED => "restored"
  | C_STALE_AUTHORITY => "stale-authority" | C_RECONCILIATION_REQUIRED => "reconciliation-required"
  end.

(** [_ALLOWED_TRANSITIONS]. *)
Definition C_ALLOWED (s : ConsequenceState) : list ConsequenceState :=
  match s with
  | C_AUTHORIZED => [C_STARTED; C_FAILED]
  | C_STARTED => [C_SUCCEEDED; C_FAILED; C_OUTCOME_UNKNOWN; C_DISPATCHED_UNKNOWN]
  | C_OUTCOME_UNKNOWN => [C_RECONCILED_SUCCEEDED; C_RECONCILED_FAILED; C_RESTORED]
  | C_DISPATCHED_UNKNOWN => [C_RESTORED; C_RECONCILIATION_REQUIRED]
  | C_RESTORED => [C_STALE_AUTHORITY; C_RECONCILIATION_REQUIRED]
  | C_RECONCILIATION_REQUIRED => [C_RECONCILED_SUCCEEDED; C_RECONCILED_FAILED; C_STALE_AUTHORITY]
  | C_SUCCEEDED | C_FAILED | C_STALE_AUTHORITY | C_RECONCILED_SUCCEEDED | C_RECONCILED_FAILED => []
  end.

(** A row of [consequence_execution_events]. *)
Record cevent := mk_cevent {
  ce_id : string; ce_op : string; ce_intent : string; ce_state : ConsequenceState; ce_version : Z;
  ce_epoch : option Z; ce_receipt : option string; ce_mount : string; ce_execution : string;
  ce_principal : string; ce_action : string; ce_resource : option string;
  ce_proof_type : option string; ce_proof_ref : option string; ce_error : option string;
  ce_subject_hash : option string }.

(** The columns of [CapabilityActionReceipt] that are read back. *)
Record receipt := mk_receipt {
  rc_id : string; rc_mount : string; rc_execution : string; rc_principal : string;
  rc_action : string; rc_resource : option string; rc_decision : string; rc_token : string;
  rc_target_ref : option string; rc_envelope : option string; rc_anchor_id : option string;
  rc_anchor_status : string }.

(** The continuity keys of [mount_json]. *)
Record continuity := mk_continuity {
  cn_incarnation : option Z; cn_previous_history_head : option string; cn_history_head : option string;
  cn_decision_hash : option string; cn_handover_reason : option string }.

(** A row of [capability_mounts]. *)
Record mount_row := mk_mount_row {
  mr_token_id : string; mr_nonce : string; mr_principal : string; mr_workspace : string;
  mr_record : mrecord; mr_continuity : continuity; mr_expires_at : Z; mr_epoch : Z;
  mr_terminated : bool; mr_nonce_consumed : bool; mr_start_claim : option string;
  mr_start_claimed_at : option Z }.
Definition mr_execution (r : mount_row) : string := tk_execution_id (mc_token (mr_record r)).

(** A row of [consequence_redemptions]. *)
Record redemption := mk_redemption {
  rd_mount : string; rd_receipt : option string; rd_payload : string; rd_sink : string }.

(** A row of [capability_evidence_consumptions]; its key is the jti. *)
Record consumption := mk_consumption { cs_kind : string; cs_mount : string; cs_action : string }.

(** The tables, and the process-local set of revoked mounts
    (engine.py, [_LOCAL_REVOCATIONS]). *)
Record cdb := mk_cdb {
  d_mounts : gmap string mount_row; d_events : list cevent; d_receipts : gmap string receipt;
  d_leases : list lease; d_redeemed : gmap string redemption; d_revoked : gset string;
  d_consumed : gmap string consumption }.

Inductive cerr :=
  | ConsequenceInvariantViolation (msg : string)
  | ExecutionTerminatedError (reason : string)
  | IntegrityError
  | LeaseInvariantViolation (e : lease_err)
  | ValueErrorM (msg : string) | PermissionErrorM (msg : string) | RuntimeErrorM (msg : string)
  | TypeErrorM
  | PolicyErrorM (reason : string) | TokenExpiredErrorM (msg : string) | CappoUncertainError (msg : string)
  | TargetRefusedError (msg : string)
  | TerminalExecutionError (msg : string) | ProviderExecutionError (msg : string)
  | ExecutorUnavailableError (msg : string) | OtherException (msg : string).

(** [str(exc)]. *)
Definition err_str (e : cerr) : string :=
  match e with
  | ConsequenceInvariantViolation m | ExecutionTerminatedError m | ValueErrorM m | PermissionErrorM m
  | RuntimeErrorM m | TerminalExecutionError m | ProviderExecutionError m | ExecutorUnavailableError m
  | OtherException m | PolicyErrorM m | TargetRefusedError m | TokenExpiredErrorM m | CappoUncertainError m => m
  | IntegrityError => "IntegrityError" | LeaseInvariantViolation _ => "InvariantViolationError"
  | TypeErrorM => "TypeError"
  end.

(** [x or d] on an optional str. *)
Definition py_or (o : option string) (d : string) : string :=
  match o with Some s => if str_eqb s "" then d else s | None => d end.

Section consequence.
Context `{Ext}.

Definition build_intent_hash (mount_id execution_id action : string) (resource : option string)
  (normalized_args : list (string * json)) : string :=
  sha256_json (JObj [("mount_id", JStr mount_id); ("execution_id", JStr execution_id);
  ("action", JStr action); ("resource", JStr (py_or resource "*"));
  ("normalized_args", JObj normalized_args)]).

Definition build_proof_subject_hash (operation_id intent_hash previous_truth_state
  asserted_truth_state consequence_identity canonical_asserted_proposition : string) : string :=
  sha256_json (JObj [("operation_id", JStr operation_id); ("intent_hash", JStr intent_hash);
  ("previous_truth_state", JStr previous_truth_state);
  ("asserted_truth_state", JStr asserted_truth_state);
  ("consequence_identity", JStr consequence_identity);
  ("canonical_asserted_proposition", JStr canonical_asserted_proposition)]).

(** ** The event table *)

Definition events_of (db : cdb) (operation_id : string) : list cevent :=
  filter (fun e => ce_op e = operation_id) (d_events db).

Definition newer (a b : cevent) : cevent := if (ce_version a <? ce_version b)%Z then b else a.

(** [order_by(version.desc()).limit(1)]. *)
Definition latest_event (db : cdb) (operation_id : string) : option cevent :=
  match events_of db operation_id with
  | [] => None
  | e :: es => Some (foldl newer e es)
  end.

(** The primary key and UNIQUE(operation_id, version). *)
Definition row_conflict (e : cevent) (rows : list cevent) : bool :=
  existsb (fun r => str_eqb (ce_id r) (ce_id e)
                  || (str_eqb (ce_op r) (ce_op e) && (ce_version r =? ce_version e)%Z)) rows.

Definition set_events (db : cdb) (es : list cevent) : cdb :=
  mk_cdb (d_mounts db) es (d_receipts db) (d_leases db) (d_redeemed db) (d_revoked db) (d_consumed db).

(** [db.add(e); db.commit()]: [None] when the commit raises. *)
Definition insert_event (db : cdb) (e : cevent) : option cdb :=
  if row_conflict e (d_events db) then None else Some (set_events db (d_events db ++ [e])).

(** The row of the next version of an operation: what every writer copies
    from the latest event. *)
Definition next_event (latest : cevent) (event_id : string) (target : ConsequenceState)
  (epoch : option Z) (proof_type proof_ref error_summary : option string) (proposition : string)
  : cevent :=
  mk_cevent event_id (ce_op latest) (ce_intent latest) target (ce_version latest + 1) epoch
  (ce_receipt latest) (ce_mount latest) (ce_execution latest) (ce_principal latest)
  (ce_action latest) (ce_resource latest) proof_type proof_ref error_summary
  (Some (build_proof_subject_hash (ce_op latest) (ce_intent latest) (cs_value (ce_state latest))
           (cs_value target) (py_or (ce_receipt latest) "unknown") proposition)).

(** ** ConsequenceLifecycleRecorder *)

(** The AUTHORIZED and STARTED rows of [begin]; [authority_epoch] takes the
    column default 1. *)
Definition recorder_rows (r : receipt) (operation_id intent_hash : string) (resource : option string)
  (id1 id2 : string) : cevent * cevent :=
  let eff_res := match resource with
               | Some s => if str_eqb s "" then rc_resource r else Some s
               | None => rc_resource r
               end in
  let row id st v prev verb :=
  mk_cevent id operation_id intent_hash st v (Some 1%Z) (Some (rc_id r)) (rc_mount r)
    (rc_execution r) (rc_principal r) (rc_action r) eff_res None None None
    (Some (build_proof_subject_hash operation_id intent_hash prev (cs_value st) (rc_id r)
             (verb +:+ " " +:+ rc_action r +:+ " on " +:+ py_or eff_res "*"))) in
  (row id1 C_AUTHORIZED 0%Z "none" "authorize",
  row id2 C_STARTED 1%Z (cs_value C_AUTHORIZED) "execution_started").

Definition recorder_begin (receipt_id operation_id intent_hash : string) (resource : option string)
  (id1 id2 : string) : eff cerr cdb unit := fun db =>
  match d_receipts db !! receipt_id with
  | None => Raise (ConsequenceInvariantViolation "consequence start requires a persisted CAPPO ALLOW receipt") db
  | Some r =>
  if negb (str_eqb (rc_decision r) "allow") then
    Raise (ConsequenceInvariantViolation "consequence start requires a persisted CAPPO ALLOW receipt") db
  else match latest_event db operation_id with
  | Some existing =>
    if negb (str_eqb (ce_intent existing) intent_hash) then
      Raise (ConsequenceInvariantViolation "operation_id is already bound to a different consequence intent") db
    else Raise (ConsequenceInvariantViolation
                  ("operation_id already exists in state " +:+ cs_value (ce_state existing))) db
  | None =>
    let rows := recorder_rows r operation_id intent_hash resource id1 id2 in
    match insert_event db rows.1 with
    | None => Raise IntegrityError db
    | Some db1 => match insert_event db1 rows.2 with
                  | None => Raise IntegrityError db
                  | Some db2 => Ret tt db2
                  end
    end
  end
  end.

Definition recorder_complete (operation_id : string) (succeeded outcome_uncertain : bool)
  (error_summary : option string) (proof_type : string) (proof_ref : option string)
  (event_id : string) : eff cerr cdb cevent := fun db =>
  match latest_event db operation_id with
  | None => Raise (ConsequenceInvariantViolation "cannot complete a consequence with no persisted STARTED event") db
  | Some latest =>
  if negb (bool_decide (ce_state latest = C_STARTED)) then
    Raise (ConsequenceInvariantViolation
             ("cannot complete consequence from state " +:+ cs_value (ce_state latest))) db
  else
    let target := if outcome_uncertain then C_OUTCOME_UNKNOWN
                  else if succeeded then C_SUCCEEDED else C_FAILED in
    let pt := if outcome_uncertain then "outcome_uncertain"
              else if succeeded then proof_type else py_or (Some proof_type) "callback_exception" in
    if negb (bool_decide (target ∈ C_ALLOWED C_STARTED)) then
      Raise (ConsequenceInvariantViolation ("illegal consequence transition started -> " +:+ cs_value target)) db
    else
      let e := next_event latest event_id target (Some 1%Z) (Some pt) proof_ref error_summary
                 (cs_value target +:+ " " +:+ ce_action latest +:+ " on "
                  +:+ py_or (ce_resource latest) "*" +:+ " with_proof " +:+ pt) in
      match insert_event db e with
      | None => Raise IntegrityError db
      | Some db' => Ret e db'
      end
  end.

(** ** ConsequenceLifecycleExecutor *)

(** What [getattr(delegate, "completion_proof", None)] finds, and what it
    answers for a result. *)
Inductive proof_value := PTuple (l : list json) | PNotTuple.
Inductive resolver :=
  | NoResolver
  | NotCallable
  | Resolver (f : json -> cerr + proof_value).

Definition completion_proof (rs : resolver) (result : json) : res cerr (string * string) :=
  match rs with
  | NoResolver => Ok ("callback_return", sha256_json result)
  | NotCallable => Err (ConsequenceInvariantViolation "executor completion_proof attribute is not callable")
  | Resolver f =>
  match f result with
  | inl e => Err e
  | inr (PTuple [JStr t; JStr r]) =>
    if str_eqb t "" || str_eqb r "" then
      Err (ConsequenceInvariantViolation "executor completion proof must be a non-empty (type, ref) tuple")
    else Ok (t, r)
  | inr _ => Err (ConsequenceInvariantViolation "executor completion proof must be a non-empty (type, ref) tuple")
  end
  end.

(** [execute].  The delegate is a computation on the tables: whatever else
    the process and its peers do to them while it runs. *)
Definition lifecycle_execute (delegate : eff cerr cdb json) (rs : resolver)
  (receipt_id operation_id intent_hash : string) (resource : option string)
  (id1 id2 id3 : string) : eff cerr cdb json := fun db =>
  match recorder_begin receipt_id operation_id intent_hash resource id1 id2 db with
  | Raise e db1 => Raise e db1
  | Crash db1 => Crash db1
  | Ret _ db1 =>
  let uncertain (e : cerr) (msg : string) (db2 : cdb) :=
    (do! recorder_complete operation_id false true (Some msg) "callback_return" None id3 in
     eraise e) db2 in
  match delegate db1 with
  | Crash db2 => Crash db2
  | Raise (TerminalExecutionError m) db2 =>
      (do! recorder_complete operation_id false false (Some m) "callback_exception" None id3 in
       eraise (TerminalExecutionError m)) db2
  | Raise e db2 => uncertain e (err_str e) db2
  | Ret result db2 =>
    match completion_proof rs result with
    | Err e => uncertain e ("completion proof verification failed: " +:+ err_str e) db2
    | Ok (t, r) =>
      (do! recorder_complete operation_id true false None t (Some r) id3 in
       eret result) db2
    end
  end
  end.

(** ** The closures of a mount (service.py, [_record]) *)

Inductive Decision := ALLOW | DENY.

(** The AUTHORIZED row; [row] is the mount row [evaluate] read. *)
Definition authorized_row (mount_id : string) (row : mount_row) (action : string)
  (resource : option string) (operation_id intent_hash receipt_id event_id : string) : cevent :=
  mk_cevent event_id operation_id intent_hash C_AUTHORIZED 0 (Some (mr_epoch row)) (Some receipt_id)
  mount_id (mr_execution row) (mr_principal row) action resource None None None
  (Some (build_proof_subject_hash operation_id intent_hash "none" (cs_value C_AUTHORIZED) receipt_id
           ("authorize " +:+ action +:+ " on " +:+ default "*" resource))).

(** [cappo_evaluator].  [evaluate] is [MountRegistry.evaluate] for this
    request: its decision, reason, receipt id and the row it read. *)
Definition cappo_evaluator
  (evaluate : eff cerr cdb (Decision * string * option string * mount_row))
  (mount_id action : string) (resource : option string) (operation_id intent_hash event_id : string)
  : eff cerr cdb (Decision * string * option string) := fun db =>
  match latest_event db operation_id with
  | Some latest =>
  if negb (str_eqb (ce_intent latest) intent_hash) then Ret (DENY, "idempotency_intent_mismatch", None) db
  else Ret (DENY, "idempotency_replay:" +:+ cs_value (ce_state latest), ce_receipt latest) db
  | None =>
  match evaluate db with
  | Raise e db1 => Raise e db1
  | Crash db1 => Crash db1
  | Ret (dec, reason, receipt_id, row) db1 =>
    match dec, receipt_id with
    | ALLOW, Some rid =>
      if str_eqb rid "" then Ret (dec, reason, receipt_id) db1
      else match insert_event db1 (authorized_row mount_id row action resource operation_id intent_hash
                                     rid event_id) with
           | None => Raise IntegrityError db1
           | Some db2 => Ret (dec, reason, receipt_id) db2
           end
    | _, _ => Ret (dec, reason, receipt_id) db1
    end
  end
  end.

(** Why the fence refuses. *)
Definition refusal_reason (fence_row : option mount_row) (latest : cevent) : option string :=
  match fence_row with
  | None => Some "mount_terminated"
  | Some row =>
  if mr_terminated row then Some "mount_terminated"
  else match ce_epoch latest with
       | Some e => if (mr_epoch row =? e)%Z then None else Some "stale_authority_epoch"
       | None => None
       end
  end.

Definition fence_epoch (fence_row : option mount_row) (latest : cevent) : option Z :=
  match fence_row with Some row => Some (mr_epoch row) | None => ce_epoch latest end.

Definition fence_event (fence_row : option mount_row) (latest : cevent) (reason event_id : string) : cevent :=
  next_event latest event_id C_FAILED (fence_epoch fence_row latest) (Some "fence_refusal") None (Some reason)
  ("failed " +:+ ce_action latest +:+ " on " +:+ py_or (ce_resource latest) "*"
   +:+ " with_proof fence_refusal (" +:+ reason +:+ ")").

Definition started_event (fence_row : option mount_row) (latest : cevent) (event_id : string) : cevent :=
  next_event latest event_id C_STARTED (fence_epoch fence_row latest) (Some "optimistic_claim") None None
  ("execution_started " +:+ ce_action latest +:+ " on " +:+ py_or (ce_resource latest) "*").

Definition begin_consequence (mount_id operation_id event_id : string) : eff cerr cdb bool := fun db =>
  let fence_row := d_mounts db !! mount_id in
  match latest_event db operation_id with
  | None => Ret false db
  | Some latest =>
  if negb (bool_decide (ce_state latest = C_AUTHORIZED)) then Ret false db
  else match refusal_reason fence_row latest with
       | Some reason =>
         Raise (ExecutionTerminatedError reason)
           (default db (insert_event db (fence_event fence_row latest reason event_id)))
       | None =>
         match insert_event db (started_event fence_row latest event_id) with
         | Some db' => Ret true db'
         | None => Ret false db
         end
       end
  end.

Definition certainty_level (proof_type : string) : nat :=
  if str_eqb proof_type "optimistic_claim" || str_eqb proof_type "callback_return"
   || str_eqb proof_type "callback_exception" then 1
  else if str_eqb proof_type "reconciliation_filesystem" || str_eqb proof_type "reconciliation_db_query"
        || str_eqb proof_type "reconciliation_api_query" then 2
  else if str_eqb proof_type "cryptographic_receipt" then 3
  else 0.

Definition state_certainty (s : ConsequenceState) : nat :=
  match s with
  | C_SUCCEEDED | C_FAILED => 1
  | C_RECONCILED_SUCCEEDED | C_RECONCILED_FAILED => 2
  | _ => 0
  end.

(** The target state and proof type of a report. *)
Definition report_target (latest : ConsequenceState) (succeeded outcome_uncertain : bool)
  (proof_type : string) : ConsequenceState * string :=
  if outcome_uncertain then (C_OUTCOME_UNKNOWN, "outcome_uncertain")
  else if bool_decide (latest = C_OUTCOME_UNKNOWN) then
  (if succeeded then C_RECONCILED_SUCCEEDED else C_RECONCILED_FAILED, proof_type)
  else (if succeeded then C_SUCCEEDED else C_FAILED, proof_type).

(** [completion_reporter] from the event it read: the checks and the row it
    appends; [None] when it returns without writing. *)
Definition report_event (latest : cevent) (succeeded : bool) (error_summary : option string)
  (outcome_uncertain : bool) (proof_type event_id : string) : res cerr (option cevent) :=
  let tp := report_target (ce_state latest) succeeded outcome_uncertain proof_type in
  let target := tp.1 in let pt := tp.2 in
  do? raise_if (negb (bool_decide (target = ce_state latest))
              && negb (bool_decide (target ∈ C_ALLOWED (ce_state latest))))
      (ConsequenceInvariantViolation
         ("Illegal transition: " +:+ cs_value (ce_state latest) +:+ " -> " +:+ cs_value target)) in
  if bool_decide (ce_state latest ∈ [C_SUCCEEDED; C_FAILED; C_RECONCILED_SUCCEEDED; C_RECONCILED_FAILED])
  then Ok None
  else
  do? raise_if (certainty_level pt <? state_certainty target)%nat
        (ConsequenceInvariantViolation
           ("Certainty invariant failed: Asserted state " +:+ cs_value target +:+ " requires certainty "
            +:+ pretty (state_certainty target) +:+ ", but proof " +:+ pt +:+ " provides certainty "
            +:+ pretty (certainty_level pt) +:+ ".")) in
  Ok (Some (next_event latest event_id target (ce_epoch latest) (Some pt) None error_summary
              (cs_value target +:+ " " +:+ ce_action latest +:+ " on " +:+ py_or (ce_resource latest) "*"
               +:+ " with_proof " +:+ pt))).

(** The write of [completion_reporter]: a failing commit is swallowed. *)
Definition report_commit (latest : cevent) (succeeded : bool) (error_summary : option string)
  (outcome_uncertain : bool) (proof_type event_id : string) : eff cerr cdb unit := fun db =>
  match report_event latest succeeded error_summary outcome_uncertain proof_type event_id with
  | Err e => Raise e db
  | Ok None => Ret tt db
  | Ok (Some e) => Ret tt (default db (insert_event db e))
  end.

Definition completion_reporter (operation_id : string) (succeeded : bool) (error_summary : option string)
  (outcome_uncertain : bool) (proof_type event_id : string) : eff cerr cdb unit := fun db =>
  match latest_event db operation_id with
  | None => Ret tt db
  | Some latest => report_commit latest succeeded error_summary outcome_uncertain proof_type event_id db
  end.

(** ** The reconcile endpoint *)

(** What the connector's status request comes to: a 404, an exception (no
    answer, another error status, no JSON), or the evidence. *)
Inductive connector_answer := NoEvidence | ConnectorError (reason : string) | Evidence (evidence : json).

Inductive reconcile_answer :=
  | Skipped (state : ConsequenceState)
  | Pending
  | ReconcileFailed (reason : string)
  | Reconciled (evidence : json).

(** The newest event of an execution, whatever its operation; of equal
    versions the one stored last. *)
Definition newer_or_later (a b : cevent) : cevent := if (ce_version a <=? ce_version b)%Z then b else a.
Definition latest_of_execution (db : cdb) (execution_id : string) : option cevent :=
  match filter (fun e => ce_execution e = execution_id) (d_events db) with
  | [] => None
  | e :: es => Some (foldl newer_or_later e es)
  end.

(** [not proof_subject.strip()], on ASCII. *)
Definition blank (s : string) : bool :=
  forallb (fun c => let n := nat_of_ascii c in ((9 <=? n)%nat && (n <=? 13)%nat) || ((28 <=? n)%nat && (n <=? 32)%nat)) (chars s).

(** [receipt.operation_id] of the evidence, where there is one. *)
Definition proof_subject (evidence : json) : option string :=
  match evidence with
  | JObj d => match assoc "receipt" d with
              | Some (JObj r) => match assoc "operation_id" r with
                                 | Some (JStr s) => if blank s then None else Some s
                                 | _ => None
                                 end
              | _ => None
              end
  | _ => None
  end.

(** The row it adds: no receipt, and the column default of the epoch. *)
Definition reconcile_event (latest : cevent) (subject event_id : string) : cevent :=
  mk_cevent event_id (ce_op latest) (ce_intent latest) C_RECONCILED_SUCCEEDED (ce_version latest + 1) (Some 1%Z)
  None (ce_mount latest) (ce_execution latest) (ce_principal latest) (ce_action latest) (ce_resource latest)
  (Some "reconciliation_api_query") None None (Some subject).

Definition reconcilable (s : ConsequenceState) : bool := bool_decide (s ∈ [C_OUTCOME_UNKNOWN; C_STARTED]).

Definition reconcile_commit (latest : cevent) (subject event_id : string) : eff cerr cdb unit := fun db =>
  match insert_event db (reconcile_event latest subject event_id) with
  | Some db' => Ret tt db'
  | None => Raise IntegrityError db
  end.

(** [reconcile_execution], with a configured connector: a computation on the
    tables, since nothing is locked while it is asked. *)
Definition reconcile_execution (connector : string -> eff cerr cdb connector_answer) (execution_id event_id : string)
  : eff cerr cdb reconcile_answer := fun db =>
  match latest_of_execution db execution_id with
  | None => Raise (OtherException "Execution not found") db
  | Some latest =>
  if negb (reconcilable (ce_state latest)) then Ret (Skipped (ce_state latest)) db
  else (let! answer := connector execution_id in
        match answer with
        | NoEvidence => eret Pending
        | ConnectorError reason => eret (ReconcileFailed reason)
        | Evidence evidence =>
          match proof_subject evidence with
          | None => eret (ReconcileFailed "Connector evidence has no receipt.operation_id; refusing to assert reconciled_succeeded")
          | Some subject => do! reconcile_commit latest subject event_id in eret (Reconciled evidence)
          end
        end) db
  end.
End consequence.
