(* ===== verification/Mounts.v ===== *)
(** * Mount authority (capability_mount/service.py)

    The operations that change a mount row under its lock: the start claim,
    termination with its account of in-flight operations, epoch advance and
    incarnation handover.  Each takes the row lock for its whole body, so one
    call is one atomic step on the tables.  The result of the external anchor
    and the drawn secrets are arguments. *)

From Stdlib Require Import ZArith Lia Ascii String.
From stdpp Require Import base gmap strings list pretty sorting.
From S2P Require Import Prelude Canon PyJson MountModels Lease Consequence.

(** The column updates of a mount row. *)
Definition with_claim (r : mount_row) (op : string) (now : Z) : mount_row :=
  mk_mount_row (mr_token_id r) (mr_nonce r) (mr_principal r) (mr_workspace r) (mr_record r)
    (mr_continuity r) (mr_expires_at r) (mr_epoch r) (mr_terminated r) (mr_nonce_consumed r)
    (Some op) (Some now).
Definition with_epoch (r : mount_row) (epoch : Z) (terminated : bool) : mount_row :=
  mk_mount_row (mr_token_id r) (mr_nonce r) (mr_principal r) (mr_workspace r) (mr_record r)
    (mr_continuity r) (mr_expires_at r) epoch terminated (mr_nonce_consumed r) (mr_start_claim r)
    (mr_start_claimed_at r).
Definition with_incarnation (r : mount_row) (epoch : Z) (token_id nonce : string) (c : continuity) : mount_row :=
  mk_mount_row token_id nonce (mr_principal r) (mr_workspace r) (retoken (mr_record r) token_id nonce) c (mr_expires_at r)
    epoch (mr_terminated r) false (mr_start_claim r) (mr_start_claimed_at r).

Definition set_mount (db : cdb) (mount_id : string) (r : mount_row) : cdb :=
  mk_cdb (<[mount_id := r]> (d_mounts db)) (d_events db) (d_receipts db) (d_leases db) (d_redeemed db)
    (d_revoked db) (d_consumed db).
Definition set_leases (db : cdb) (ls : list lease) : cdb :=
  mk_cdb (d_mounts db) (d_events db) (d_receipts db) ls (d_redeemed db) (d_revoked db) (d_consumed db).
(** [mark_mount_revoked]. *)
Definition mark_mount_revoked (db : cdb) (mount_id : string) : cdb :=
  mk_cdb (d_mounts db) (d_events db) (d_receipts db) (d_leases db) (d_redeemed db)
    ({[mount_id]} ∪ d_revoked db) (d_consumed db).

(** [x or 1] on an epoch. *)
Definition epoch_or_1 (z : Z) : Z := if (z =? 0)%Z then 1%Z else z.

(** [bool(owner_workspace) and row.owner_workspace == owner_workspace]. *)
Definition workspace_matches (row : mount_row) (owner_workspace : option string) : bool :=
  match owner_workspace with
  | Some w => negb (str_eqb w "") && str_eqb (mr_workspace row) w
  | None => false
  end.

Definition owned_by (mount_id : string) (row : mount_row) (owner_principal : string)
    (owner_workspace : option string) : bool :=
  if str_eqb owner_principal ("mount-holder:" +:+ mount_id) then workspace_matches row owner_workspace
  else if negb (str_eqb (mr_principal row) owner_principal) then false
  else if str_eqb owner_principal "auth-disabled" then true
  else workspace_matches row owner_workspace.

(** ** In-flight operations *)

Definition IN_FLIGHT_STATES : list ConsequenceState := [C_AUTHORIZED; C_STARTED].

(** One row of the scan: the highest version seen so far per operation. *)
Definition scan_row (latest : gmap string (Z * ConsequenceState)) (e : cevent)
    : gmap string (Z * ConsequenceState) :=
  match latest !! ce_op e with
  | Some (v, _) => if (v <? ce_version e)%Z then <[ce_op e := (ce_version e, ce_state e)]> latest else latest
  | None => <[ce_op e := (ce_version e, ce_state e)]> latest
  end.

Definition in_flight_operations (db : cdb) (mount_id : string) : list string :=
  let rows := filter (fun e => ce_mount e = mount_id) (d_events db) in
  let latest := foldl scan_row ∅ rows in
  merge_sort String.le
    (map fst (filter (fun kv => kv.2.2 ∈ IN_FLIGHT_STATES) (map_to_list latest))).

(** [_settle_in_flight]: poll [i] reads the tables [poll i] and then the clock
    [clock i]; [fuel] bounds the number of polls. *)
Fixpoint settle_in_flight (poll : nat -> cdb) (clock : nat -> Z) (mount_id : string) (deadline : Z)
    (fuel i : nat) : option (list string) :=
  match fuel with
  | 0 => None
  | S fuel' =>
    let in_flight := in_flight_operations (poll i) mount_id in
    if bool_decide (in_flight = []) || (deadline <=? clock i)%Z then Some in_flight
    else settle_in_flight poll clock mount_id deadline fuel' (S i)
  end.

(** ** The start claim *)

Definition claim_start (mount_id token_id nonce operation_id owner_principal : string)
    (owner_workspace : option string) (now : Z) : eff cerr cdb (Decision * string) := fun db =>
  match d_mounts db !! mount_id with
  | None => Ret (DENY, "unknown_mount") db
  | Some row =>
    if negb (owned_by mount_id row owner_principal owner_workspace) then Ret (DENY, "owner_mismatch") db
    else if mr_terminated row then Ret (DENY, "terminated") db
    else if (mr_expires_at row <=? now)%Z then Ret (DENY, "expired") db
    else if mr_nonce_consumed row then Ret (DENY, "token_replay") db
    else if negb (str_eqb token_id (mr_token_id row)) || negb (str_eqb nonce (mr_nonce row)) then
      Ret (DENY, "token_mismatch") db
    else if bool_decide (mr_start_claim row = Some operation_id) then Ret (ALLOW, "start_claim_replayed") db
    else if bool_decide (mr_start_claim row <> None) then Ret (DENY, "start_already_claimed") db
    else Ret (ALLOW, "start_claimed") (set_mount db mount_id (with_claim row operation_id now))
  end.

(** ** Leases of a mount *)

Definition newer_lease (a b : lease) : lease :=
  if (le_authority_epoch a <? le_authority_epoch b)%Z then b else a.

(** [filter(mount_id).order_by(authority_epoch.desc()).first()]. *)
Definition latest_lease (db : cdb) (mount_id : string) : option lease :=
  match filter (fun l => le_mount_id l = mount_id) (d_leases db) with
  | [] => None
  | l :: ls => Some (foldl newer_lease l ls)
  end.

Definition update_lease (db : cdb) (l : lease) : cdb :=
  set_leases db (map (fun x => if str_eqb (le_id x) (le_id l) then l else x) (d_leases db)).

Definition lease_with_epoch (l : lease) (epoch : Z) : lease :=
  mk_lease (le_id l) (le_mount_id l) (le_subject l) (le_executor l) (le_expires_at l) (le_state l)
    (le_state_version l) epoch (le_revocation_epoch l) (le_depth l) (le_max_depth l) (le_actions l)
    (le_resources l) (le_offline_enabled l) (le_max_offline l) (le_reconciliation_required l)
    (le_updated_at l) (le_offline_budget l) (le_offline_side_effect_limit l).

(** Revoking the newest live lease of a terminated mount. *)
Definition revoke_lease (db : cdb) (mount_id : string) : res lease_err cdb :=
  match latest_lease db mount_id with
  | Some l =>
    if bool_decide (le_state l ∈ [L_ISSUED; L_ACTIVE]) then
      let current_epoch := Z.max (le_revocation_epoch l + 1) (le_authority_epoch l) in
      let? l' := transition_state l L_REVOKED current_epoch in
      Ok (update_lease db l')
    else Ok db
  | None => Ok db
  end.

(** Keeping the lease's generation aligned with the mount's. *)
Definition align_lease (db : cdb) (mount_id : string) (new_epoch : Z) : cdb :=
  match latest_lease db mount_id with
  | Some l => if (le_authority_epoch l <? new_epoch)%Z then update_lease db (lease_with_epoch l new_epoch) else db
  | None => db
  end.

(** ** Termination *)

(** The locked part of [terminate_with_in_flight], up to its commit: the
    decision and reason, with [true] when in-flight operations are then
    awaited. *)
Definition terminate_fence (mount_id owner_principal : string) (owner_workspace : option string)
    (anchor_status : string) : eff cerr cdb (Decision * string * bool) := fun db =>
  match d_mounts db !! mount_id with
  | None => Ret (DENY, "unknown_mount", false) db
  | Some row =>
    if negb (owned_by mount_id row owner_principal owner_workspace) then Ret (DENY, "owner_mismatch", false) db
    else if mr_terminated row then Ret (ALLOW, "already_terminated", true) db
    else if negb (bool_decide (anchor_status ∈ ["confirmed"; "pending_reconciliation"])) then
      Ret (DENY, "pgl_anchor_unconfirmed", false) db
    else
      let db1 := mark_mount_revoked
                   (set_mount db mount_id (with_epoch row (epoch_or_1 (mr_epoch row) + 1) true)) mount_id in
      match revoke_lease db1 mount_id with
      | Err e => Raise (LeaseInvariantViolation e) (mark_mount_revoked db mount_id)
      | Ok db2 => Ret (ALLOW, "terminated", true) db2
      end
  end.

(** [terminate_with_in_flight]: the fence, then the wait, whose polls see the
    tables as they evolve. *)
Definition terminate_with_in_flight (mount_id owner_principal : string) (owner_workspace : option string)
    (anchor_status : string) (poll : cdb -> nat -> cdb) (clock : nat -> Z) (deadline : Z) (fuel : nat)
    : eff cerr cdb (option (Decision * string * list string)) := fun db =>
  match terminate_fence mount_id owner_principal owner_workspace anchor_status db with
  | Raise e db' => Raise e db'
  | Crash db' => Crash db'
  | Ret (dec, reason, wait) db' =>
    if wait then
      match settle_in_flight (poll db') clock mount_id deadline fuel 0 with
      | None => Ret None db'
      | Some [] => Ret (Some (dec, reason, [])) db'
      | Some ops => Ret (Some (dec, "terminated_in_flight", ops)) db'
      end
    else Ret (Some (dec, reason, [])) db'
  end.

(** ** Epochs and incarnations *)

Definition advance_epoch (mount_id owner_principal : string) (owner_workspace : option string)
    : eff cerr cdb Z := fun db =>
  match d_mounts db !! mount_id with
  | None => Raise (ValueErrorM ("unknown_mount: " +:+ mount_id)) db
  | Some row =>
    if negb (owned_by mount_id row owner_principal owner_workspace) then Raise (PermissionErrorM "owner_mismatch") db
    else if mr_terminated row then Raise (RuntimeErrorM "cannot advance epoch on terminated mount") db
    else
      let new_epoch := (epoch_or_1 (mr_epoch row) + 1)%Z in
      Ret new_epoch (align_lease (set_mount db mount_id (with_epoch row new_epoch false)) mount_id new_epoch)
  end.

Section handover.
Context `{Ext}.

Definition genesis_head (mount_id token_id : string) (epoch : Z) : string :=
  sha256_hex ("genesis:" +:+ mount_id +:+ ":" +:+ token_id +:+ ":" +:+ pretty epoch).

Definition chained_head (previous mount_id : string) (from_epoch to_epoch : Z) (decision_hash token_id : string)
  : string :=
  sha256_hex (previous +:+ ":" +:+ mount_id +:+ ":" +:+ pretty from_epoch +:+ "->" +:+ pretty to_epoch
            +:+ ":" +:+ decision_hash +:+ ":" +:+ token_id).

Record handover_result := mk_handover {
  ho_incarnation : Z; ho_previous_epoch : Z; ho_epoch : Z; ho_token_id : string; ho_nonce : string;
  ho_previous_head : string; ho_head : string }.

(** [token_id] and [token_nonce] are UNIQUE columns. *)
Definition token_conflict (db : cdb) (mount_id token_id nonce : string) : bool :=
  existsb (fun kv => negb (str_eqb kv.1 mount_id)
                   && (str_eqb (mr_token_id kv.2) token_id || str_eqb (mr_nonce kv.2) nonce))
  (map_to_list (d_mounts db)).

Definition handover_incarnation (mount_id decision_hash reason owner_principal : string)
  (owner_workspace : option string) (new_token_id new_nonce : string) : eff cerr cdb handover_result :=
  fun db =>
  match d_mounts db !! mount_id with
  | None => Raise (ValueErrorM ("unknown_mount: " +:+ mount_id)) db
  | Some row =>
  if negb (owned_by mount_id row owner_principal owner_workspace) then Raise (PermissionErrorM "owner_mismatch") db
  else if mr_terminated row then Raise (RuntimeErrorM "cannot handover incarnation on terminated mount") db
  else
    let previous_epoch := epoch_or_1 (mr_epoch row) in
    let new_epoch := (previous_epoch + 1)%Z in
    let c := mr_continuity row in
    let previous_head := py_or (cn_history_head c) (genesis_head mount_id (mr_token_id row) previous_epoch) in
    let new_head := chained_head previous_head mount_id previous_epoch new_epoch decision_hash new_token_id in
    let incarnation := (epoch_or_1 (default 0%Z (cn_incarnation c)) + 1)%Z in
    let c' := mk_continuity (Some incarnation) (Some previous_head) (Some new_head) (Some decision_hash)
                (Some reason) in
    if token_conflict db mount_id new_token_id new_nonce then Raise IntegrityError db
    else Ret (mk_handover incarnation previous_epoch new_epoch new_token_id new_nonce previous_head new_head)
           (align_lease (set_mount db mount_id (with_incarnation row new_epoch new_token_id new_nonce c'))
              mount_id new_epoch)
  end.
End handover.
