(* ===== verification/Permits.v ===== *)
(** * Consequence permits and their redemption

    capability_mount/permits.py and [MountRegistry.redeem_consequence] of
    service.py.  HMAC-SHA256 and the raw SHA-256 digest are the class [Mac];
    bytes are strings. *)

From Stdlib Require Import ZArith Lia Ascii String.
From stdpp Require Import base gmap strings list.
From S2P Require Import Prelude Canon PyJson MountModels Lease Consequence.

(** [hmac_raw key msg] / [hmac_hex key msg]: digest and hexdigest of
    [hmac.new(key, msg, hashlib.sha256)]; [sha256_raw]: [sha256(b).digest()]. *)
Class Mac := {
  hmac_raw : string -> string -> string;
  hmac_hex : string -> string -> string;
  sha256_raw : string -> string }.

Definition nl : string := String "010"%char "".
Definition DOMAIN : string := "veklom-consequence-permit-v2".
Definition REDEEM_DOMAIN : string := "veklom-target-redeem-v1".

(** ** bytes.fromhex *)

Definition hex_val (c : ascii) : option nat :=
  let n := nat_of_ascii c in
  if (48 <=? n)%nat && (n <=? 57)%nat then Some (n - 48)
  else if (97 <=? n)%nat && (n <=? 102)%nat then Some (n - 87)
  else if (65 <=? n)%nat && (n <=? 70)%nat then Some (n - 55)
  else None.

Definition is_space (c : ascii) : bool :=
  let n := nat_of_ascii c in (n =? 32)%nat || ((9 <=? n)%nat && (n <=? 13)%nat).

(** Pairs of digits, whitespace allowed between pairs; [None] is a
    [ValueError]. *)
Fixpoint fromhex_chars (l : list ascii) : option (list ascii) :=
  match l with
  | [] => Some []
  | c :: l' =>
    if is_space c then fromhex_chars l'
    else match l' with
         | [] => None
         | d :: l'' =>
           match hex_val c, hex_val d, fromhex_chars l'' with
           | Some h, Some k, Some r => Some (ascii_of_nat (16 * h + k) :: r)
           | _, _, _ => None
           end
         end
  end.

Definition fromhex (s : string) : option string := string_of_list_ascii <$> fromhex_chars (chars s).

Definition all_ascii (s : string) : bool := forallb (fun c => (nat_of_ascii c <? 128)%nat) (chars s).

Section permits.
Context `{Ext, Mac}.

(** [permit_key(settings)] from the two settings, [None] when unset. *)
Definition permit_key (consequence_permit_key approval_token_signing_key : option string) : option string :=
  let explicit := py_or consequence_permit_key "" in
  let base := py_or approval_token_signing_key "" in
  if negb (str_eqb explicit "") then Some (sha256_raw (DOMAIN +:+ "|explicit|" +:+ explicit))
  else if negb (str_eqb base "") then Some (hmac_raw base (DOMAIN +:+ "|derived"))
  else None.

Definition permit_message (operation_id mount_id : string) (receipt_id : option string)
  (payload_sha256 target_ref : string) : string :=
  String.concat nl [operation_id; mount_id; py_or receipt_id ""; payload_sha256; target_ref].

Definition mint_permit (key operation_id mount_id : string) (receipt_id : option string)
  (payload_sha256 target_ref : string) : res cerr string :=
  if str_eqb target_ref "" then Err (ValueErrorM "a permit must be bound to a target")
  else Ok (hmac_hex key (DOMAIN +:+ nl +:+ permit_message operation_id mount_id receipt_id payload_sha256 target_ref)).

(** [hmac.compare_digest] refuses a str that is not ASCII. *)
Definition permit_matches (key presented operation_id mount_id : string) (receipt_id : option string)
  (payload_sha256 target_ref : string) : res cerr bool :=
  let? expected := mint_permit key operation_id mount_id receipt_id payload_sha256 target_ref in
  do? raise_if (negb (all_ascii presented) || negb (all_ascii expected)) TypeErrorM in
  Ok (str_eqb expected presented).

Definition redeem_message (operation_id payload_sha256 permit target_ref : string) : string :=
  String.concat nl [REDEEM_DOMAIN; operation_id; payload_sha256; sha256_hex permit; target_ref].

Definition target_signature_valid (public_key_hex signature_hex message : string) : bool :=
  match fromhex public_key_hex, fromhex signature_hex with
  | Some pub, Some sig => ed_verify pub sig message
  | _, _ => false
  end.

Definition set_redeemed (db : cdb) (m : gmap string redemption) : cdb :=
  mk_cdb (d_mounts db) (d_events db) (d_receipts db) (d_leases db) m (d_revoked db) (d_consumed db).

(** The decision under the mount row lock. *)
Definition redeem_locked (key operation_id permit payload_sha256 sink_ref : string) (now : Z)
  : eff cerr cdb (Decision * string) := fun db =>
  match latest_event db operation_id with
  | None => Ret (DENY, "unknown_operation") db
  | Some latest =>
  if str_eqb (ce_mount latest) "" then Ret (DENY, "unknown_operation") db
  else match d_mounts db !! ce_mount latest with
  | None => Ret (DENY, "unknown_mount") db
  | Some row =>
    if mr_terminated row then Ret (DENY, "mount_terminated") db
    else if (mr_expires_at row <=? now)%Z then Ret (DENY, "mount_expired") db
    else if negb (bool_decide (ce_state latest = C_STARTED)) then
      Ret (DENY, "operation_not_dispatched:" +:+ cs_value (ce_state latest)) db
    else match permit_matches key permit operation_id (ce_mount latest) (ce_receipt latest)
                 payload_sha256 sink_ref with
         | Err e => Raise e db
         | Ok false => Ret (DENY, "permit_mismatch") db
         | Ok true =>
           match d_redeemed db !! operation_id with
           | Some _ => Ret (DENY, "already_redeemed") db
           | None => Ret (ALLOW, "redeemed")
               (set_redeemed db (<[operation_id := mk_redemption (ce_mount latest) (ce_receipt latest)
                                                     payload_sha256 sink_ref]> (d_redeemed db)))
           end
         end
  end
  end.

(** [redeem_consequence]; [pinned_key sink_ref] is the redemption key pinned
    for a registered target. *)
Definition redeem_consequence (consequence_permit_key approval_token_signing_key : option string)
  (pinned_key : string -> option string) (operation_id permit payload_sha256 : string)
  (sink_ref target_signature : option string) (now : Z) : eff cerr cdb (Decision * string) := fun db =>
  match permit_key consequence_permit_key approval_token_signing_key with
  | None => Ret (DENY, "permits_not_configured") db
  | Some key =>
  let sink := py_or sink_ref "" in
  if str_eqb sink "" then Ret (DENY, "target_identity_required") db
  else let pinned := py_or (pinned_key sink) "" in
  if str_eqb pinned "" then Ret (DENY, "target_not_registered_for_redemption") db
  else if negb (target_signature_valid pinned (py_or target_signature "")
                  (redeem_message operation_id payload_sha256 permit sink)) then
    Ret (DENY, "target_signature_invalid") db
  else redeem_locked key operation_id permit payload_sha256 sink now db
  end.
End permits.
