(* ===== verification/ConsequenceProofs.v ===== *)
(** * The consequence invariant

    The step relation of the mount service, the lifecycle recorder and the
    reconcile endpoint (every operation of [Consequence], [Mounts] and
    [Permits] that changes the tables, in any interleaving and with stale reads
    where the code reads without a lock) and the invariant of the event
    streams. *)

From Stdlib Require Import ZArith Lia Ascii String.
From stdpp Require Import base gmap strings list pretty sorting.
From S2P Require Import Prelude Canon PyJson MountModels Lease Consequence Mounts Permits.

Local Open Scope Z_scope.

(** ** Streams *)

(** The fields every event of an operation shares. *)
Definition same_operation (a b : cevent) : Prop :=
  ce_op a = ce_op b /\ ce_intent a = ce_intent b /\ ce_mount a = ce_mount b
  /\ ce_execution a = ce_execution b /\ ce_principal a = ce_principal b /\ ce_action a = ce_action b
  /\ ce_resource a = ce_resource b.

Definition legal_next (s s' : ConsequenceState) : Prop :=
  s' ∈ C_ALLOWED s \/ (s = C_OUTCOME_UNKNOWN /\ s' = C_OUTCOME_UNKNOWN).

(** The row of the reconcile endpoint, which asks for no transition of the
    table and carries no receipt. *)
Definition reconciled_by_query (e e' : cevent) : Prop :=
  (ce_state e = C_STARTED \/ ce_state e = C_OUTCOME_UNKNOWN) /\ ce_state e' = C_RECONCILED_SUCCEEDED
  /\ ce_proof_type e' = Some "reconciliation_api_query" /\ ce_receipt e' = None /\ is_Some (ce_subject_hash e').

(** How an event follows another: by the table and with its receipt, or by
    reconciliation. *)
Definition follows (e e' : cevent) : Prop :=
  (legal_next (ce_state e) (ce_state e') /\ ce_receipt e' = ce_receipt e) \/ reconciled_by_query e e'.

(** The proof an event carries for the state it asserts. *)
Definition evidence_ok (e : cevent) : Prop :=
  match ce_state e with
  | C_AUTHORIZED => ce_proof_type e = None
  | C_STARTED => ce_proof_type e = None \/ ce_proof_type e = Some "optimistic_claim"
  | C_SUCCEEDED | C_FAILED => is_Some (ce_proof_type e)
  | C_OUTCOME_UNKNOWN => ce_proof_type e = Some "outcome_uncertain"
  | C_RECONCILED_SUCCEEDED | C_RECONCILED_FAILED =>
      exists pt, ce_proof_type e = Some pt /\ (2 <= certainty_level pt)%nat
  | _ => False
  end.

Inductive stream : list cevent -> Prop :=
  | stream_nil : stream []
  | stream_first e : ce_version e = 0 -> ce_state e = C_AUTHORIZED -> evidence_ok e -> stream [e]
  | stream_snoc l e e' :
      stream l -> last l = Some e -> ce_version e' = ce_version e + 1 ->
      follows e e' -> same_operation e e' -> evidence_ok e' ->
      stream (l ++ [e']).

Lemma stream_version l i e : stream l -> l !! i = Some e -> ce_version e = Z.of_nat i.
Proof.
  intros H. revert i e. induction H as [|e0 H0|l a b Hs IH Hl Hv]; intros i e Hi.
  - done.
  - destruct i; [|done]. injection Hi as <-. done.
  - apply lookup_app_Some in Hi as [Hi|[Hle Hi]]; [by apply IH|].
    destruct (i - length l)%nat eqn:E; [|done]. injection Hi as <-.
    rewrite last_lookup in Hl. pose proof (IH _ _ Hl).
    apply lookup_lt_Some in Hl. lia.
Qed.

Lemma stream_last_version l e : stream l -> last l = Some e -> ce_version e + 1 = Z.of_nat (length l).
Proof.
  intros H Hl. rewrite last_lookup in Hl. pose proof (stream_version _ _ _ H Hl).
  apply lookup_lt_Some in Hl. lia.
Qed.

Lemma last_is_elem {A} (l : list A) x : last l = Some x -> x ∈ l.
Proof. rewrite last_lookup. apply list_elem_of_lookup_2. Qed.

Lemma stream_same l a b : stream l -> a ∈ l -> b ∈ l -> same_operation a b.
Proof.
  intros H. revert a b.
  assert (Hsym : forall x y, same_operation x y -> same_operation y x).
  { unfold same_operation. naive_solver. }
  assert (Htr : forall x y z, same_operation x y -> same_operation y z -> same_operation x z).
  { unfold same_operation. intuition congruence. }
  assert (Hrefl : forall x, same_operation x x) by (unfold same_operation; naive_solver).
  induction H as [|e0 H0|l x y Hs IH Hl Hv Hn Hsame]; intros a b Ha Hb.
  - by apply not_elem_of_nil in Ha.
  - apply list_elem_of_singleton in Ha, Hb. by subst.
  - apply last_is_elem in Hl.
    apply elem_of_app in Ha as [Ha|Ha%list_elem_of_singleton],
      Hb as [Hb|Hb%list_elem_of_singleton]; subst; eauto.
Qed.

Lemma stream_state_evidence l e : stream l -> e ∈ l -> evidence_ok e.
Proof.
  intros H. induction H as [|e0 ? ? H0|l x y Hs IH Hl Hv Hn Hsame Hev]; intros He.
  - by apply not_elem_of_nil in He.
  - apply list_elem_of_singleton in He. by subst.
  - apply elem_of_app in He as [He|He%list_elem_of_singleton]; [auto|by subst].
Qed.

(** Rank along the machine: STARTED is left behind for good. *)
Definition cs_rank (s : ConsequenceState) : nat :=
  match s with C_AUTHORIZED => 0 | C_STARTED => 1 | _ => 2 end.

Lemma legal_rank s s' : legal_next s s' -> (cs_rank s < cs_rank s' \/ (cs_rank s = 2 /\ cs_rank s' = 2))%nat.
Proof.
  intros [H|[-> ->]]; [|right; done].
  destruct s; simpl in H; repeat (apply elem_of_cons in H as [->|H]; [simpl; lia|]);
    by apply not_elem_of_nil in H.
Qed.

Lemma follows_rank e e' :
  follows e e' -> (cs_rank (ce_state e) < cs_rank (ce_state e') \/ (cs_rank (ce_state e) = 2 /\ cs_rank (ce_state e') = 2))%nat.
Proof. intros [[Hn _]|([-> | ->] & -> & _)]; [by apply legal_rank|left; simpl; lia|by right]. Qed.

Lemma stream_rank l e : stream l -> e ∈ l -> forall z, last l = Some z -> (cs_rank (ce_state e) <= cs_rank (ce_state z))%nat.
Proof.
  intros H. revert e. induction H as [|e0 ? ?|l x y Hs IH Hl Hv Hn]; intros e He z Hz.
  - done.
  - apply list_elem_of_singleton in He as ->. by injection Hz as <-.
  - rewrite last_snoc in Hz. injection Hz as <-.
    apply elem_of_app in He as [He|He%list_elem_of_singleton]; [|by subst].
    specialize (IH e He x Hl). apply follows_rank in Hn. lia.
Qed.

(** AUTHORIZED and STARTED occur at most once. *)
Lemma stream_once l s :
  stream l -> (cs_rank s <= 1)%nat -> (length (filter (fun e => ce_state e = s) l) <= 1)%nat.
Proof.
  intros H Hs. induction H as [|e0 ? ?|l x y Hst IH Hl Hv Hn].
  - simpl. lia.
  - rewrite filter_cons, filter_nil. case_decide; simpl; lia.
  - rewrite filter_app, length_app. simpl. rewrite filter_cons, filter_nil.
    destruct (decide (ce_state y = s)) as [Hy|]; simpl; [|lia].
    replace (filter (fun e => ce_state e = s) l) with (@nil cevent); [simpl; lia|].
    symmetry. apply elem_of_nil_inv.
    intros e [He1 He2]%list_elem_of_filter.
    pose proof (stream_rank _ _ Hst He2 _ Hl) as Hr. apply follows_rank in Hn. rewrite Hy, He1 in *. lia.
Qed.

(** ** The tables *)

Definition cinv (db : cdb) : Prop := forall op, stream (events_of db op).

Lemma events_of_snoc db e op :
  events_of (set_events db (d_events db ++ [e])) op
  = events_of db op ++ (if decide (ce_op e = op) then [e] else []).
Proof.
  unfold events_of. simpl. rewrite filter_app, filter_cons, filter_nil. done.
Qed.

Lemma events_of_elem db op e : e ∈ events_of db op <-> ce_op e = op /\ e ∈ d_events db.
Proof. unfold events_of. by rewrite list_elem_of_filter. Qed.

(** The newest version is the last row. *)
Lemma newest_is_last l e : stream (e :: l) -> last (e :: l) = Some (foldl newer e l).
Proof.
  intros H. assert (Hv : forall i x, (e :: l) !! i = Some x -> ce_version x = Z.of_nat i).
  { intros. by eapply stream_version. }
  clear H. revert Hv. induction l as [|x l IH] using rev_ind; intros Hv; [done|].
  rewrite foldl_app. simpl. rewrite app_comm_cons, last_snoc. f_equal.
  assert (IH' : last (e :: l) = Some (foldl newer e l)).
  { apply IH. intros i y Hy. apply Hv. rewrite app_comm_cons. by apply lookup_app_l_Some. }
  rewrite last_lookup in IH'. apply lookup_app_l_Some with (l2 := [x]) in IH' as Hl.
  specialize (Hv _ _ Hl) as H1.
  specialize (Hv (length (e :: l)) x). rewrite app_comm_cons, list_lookup_middle in Hv by done.
  specialize (Hv eq_refl). apply lookup_lt_Some in IH'. unfold newer at 1.
  rewrite (proj2 (Z.ltb_lt _ _)); [done|]. lia.
Qed.

Lemma latest_event_last db op : cinv db -> latest_event db op = last (events_of db op).
Proof.
  intros H. specialize (H op). unfold latest_event. destruct (events_of db op) as [|e l]; [done|].
  by rewrite newest_is_last.
Qed.

Lemma latest_event_elem db op e :
  cinv db -> latest_event db op = Some e -> ce_op e = op /\ e ∈ d_events db.
Proof. intros H Hl. rewrite latest_event_last in Hl by done. by apply events_of_elem, last_is_elem. Qed.

Lemma row_conflict_false e rows :
  row_conflict e rows = false ->
  forall r, r ∈ rows -> ce_id r <> ce_id e /\ (ce_op r = ce_op e -> ce_version r <> ce_version e).
Proof.
  unfold row_conflict. intros H r Hr. rewrite <- not_true_iff_false, existsb_exists in H.
  split; [intros Hid | intros Hop Hv]; apply H; exists r; (split; [by apply list_elem_of_In|]);
    rewrite orb_true_iff, ?andb_true_iff, ?str_eqb_spec, ?Z.eqb_eq; auto.
Qed.

Lemma insert_event_Some db e db' :
  insert_event db e = Some db' ->
  row_conflict e (d_events db) = false /\ db' = set_events db (d_events db ++ [e]).
Proof. unfold insert_event. destruct (row_conflict _ _); [done|]. by intros [= <-]. Qed.

(** A row numbered after [e] can only be inserted when [e] is the latest. *)
Lemma insert_after_latest db e e' db' :
  cinv db -> e ∈ d_events db -> ce_op e' = ce_op e -> ce_version e' = ce_version e + 1 ->
  insert_event db e' = Some db' -> last (events_of db (ce_op e)) = Some e.
Proof.
  intros Hinv He Hop Hv Hins. apply insert_event_Some in Hins as [Hc _].
  specialize (Hinv (ce_op e)). set (l := events_of db (ce_op e)) in *.
  assert (He' : e ∈ l) by (by apply events_of_elem).
  apply list_elem_of_lookup in He' as [i Hi]. rewrite last_lookup.
  pose proof (lookup_lt_Some _ _ _ Hi) as Hlt.
  destruct (decide (i = pred (length l))) as [->|Hne]; [done|]. exfalso.
  destruct (lookup_lt_is_Some_2 l (S i)) as [r Hr]; [lia|].
  pose proof (stream_version _ _ _ Hinv Hi). pose proof (stream_version _ _ _ Hinv Hr).
  apply list_elem_of_lookup_2, events_of_elem in Hr as [Hro Hr].
  destruct (row_conflict_false _ _ Hc r Hr) as [_ Hn]. apply Hn; [congruence|]. lia.
Qed.

(** Inserting a legal successor preserves the invariant. *)
Lemma cinv_next db e e' db' :
  cinv db -> e ∈ d_events db -> insert_event db e' = Some db' ->
  ce_version e' = ce_version e + 1 -> follows e e' ->
  same_operation e e' -> evidence_ok e' -> cinv db'.
Proof.
  intros Hinv He Hins Hv Hn Hs Hev op. pose proof Hs as (Hop & _).
  pose proof (insert_after_latest _ _ _ _ Hinv He (eq_sym Hop) Hv Hins) as Hl.
  apply insert_event_Some in Hins as [_ ->]. rewrite events_of_snoc.
  destruct (decide (ce_op e' = op)) as [<-|]; [|by rewrite app_nil_r].
  rewrite <- Hop. econstructor; eauto.
Qed.

Lemma cinv_first db e db' :
  cinv db -> insert_event db e = Some db' -> ce_version e = 0 -> ce_state e = C_AUTHORIZED ->
  evidence_ok e -> events_of db (ce_op e) = [] /\ cinv db'.
Proof.
  intros Hinv Hins Hv Hst Hev. apply insert_event_Some in Hins as [Hc ->].
  assert (Hnil : events_of db (ce_op e) = []).
  { destruct (events_of db (ce_op e)) as [|r l] eqn:E; [done|]. exfalso.
    assert (Hr : r ∈ events_of db (ce_op e)) by (rewrite E; by left).
    pose proof (stream_version _ 0 r (Hinv (ce_op e))) as Hrv. rewrite E in Hrv. specialize (Hrv eq_refl).
    apply events_of_elem in Hr as [Hro Hr].
    destruct (row_conflict_false _ _ Hc r Hr) as [_ Hn]. apply Hn; [done|]. simpl in Hrv. lia. }
  split; [done|]. intros op. rewrite events_of_snoc.
  destruct (decide (ce_op e = op)) as [<-|]; [|by rewrite app_nil_r].
  rewrite Hnil. by constructor.
Qed.

(** The successor of the latest event, under a fresh id, is accepted and
    becomes the latest. *)
Lemma append_next db op e e' :
  cinv db -> latest_event db op = Some e -> same_operation e e' -> ce_version e' = ce_version e + 1 ->
  (forall r, r ∈ d_events db -> ce_id r <> ce_id e') ->
  follows e e' -> evidence_ok e' ->
  exists db', insert_event db e' = Some db' /\ cinv db' /\ latest_event db' op = Some e'.
Proof.
  intros Hi El Hs Hv Hf Hn Hev. destruct (latest_event_elem _ _ _ Hi El) as [Ho He].
  assert (Hins : insert_event db e' = Some (set_events db (d_events db ++ [e']))).
  { unfold insert_event. replace (row_conflict e' (d_events db)) with false; [done|].
    symmetry. apply not_true_iff_false. unfold row_conflict. rewrite existsb_exists. intros (r & Hr & Hc).
    apply list_elem_of_In in Hr. rewrite orb_true_iff, andb_true_iff, !str_eqb_spec, Z.eqb_eq in Hc.
    destruct Hc as [Hc|[Hro Hrv]]; [by apply (Hf r Hr)|].
    rewrite latest_event_last in El by done. pose proof (stream_last_version _ _ (Hi op) El) as Hlen.
    assert (Hin : r ∈ events_of db op) by (apply events_of_elem; destruct Hs; split; [congruence|done]).
    apply list_elem_of_lookup in Hin as [i Hin]. pose proof (stream_version _ _ _ (Hi op) Hin).
    apply lookup_lt_Some in Hin. lia. }
  assert (Hi' : cinv (set_events db (d_events db ++ [e']))) by (by apply (cinv_next db e e')).
  eexists. split_and!; [done..|]. rewrite latest_event_last, events_of_snoc, decide_True; [|destruct Hs; congruence|done].
  apply last_snoc.
Qed.

Lemma cinv_same_events db db' : d_events db' = d_events db -> cinv db -> cinv db'.
Proof. intros He H op. unfold events_of. rewrite He. apply H. Qed.

Lemma default_insert db e :
  default db (insert_event db e) = db \/ insert_event db e = Some (default db (insert_event db e)).
Proof. destruct (insert_event db e); auto. Qed.

(** ** Steps *)

Section steps.
Context `{Ext, Mac}.

Lemma next_event_follows l id t ep pt pr er p :
  legal_next (ce_state l) t -> follows l (next_event l id t ep pt pr er p).
Proof. intros Hn. by left. Qed.

Lemma next_event_same l id t ep pt pr er p : same_operation l (next_event l id t ep pt pr er p).
Proof. unfold same_operation. done. Qed.

(** One atomic change of the tables.  [evaluate] and [request_mount], which
    are not modelled, may insert mounts, consume a nonce and change receipts
    and leases; [ce_authorize] is the AUTHORIZED commit of
    [cappo_evaluator], whose row snapshot may be older than the current
    row; [ce_report] and [ce_reconcile] read their latest event without a
    lock, so any event ever written may be the one they read. *)
Inductive cstep : cdb -> cdb -> Prop :=
  | ce_new_mount db m row :
  d_mounts db !! m = None -> cstep db (set_mount db m row)
  | ce_nonce db m row :
  d_mounts db !! m = Some row ->
  cstep db (set_mount db m (mk_mount_row (mr_token_id row) (mr_nonce row) (mr_principal row)
    (mr_workspace row) (mr_record row) (mr_continuity row) (mr_expires_at row) (mr_epoch row)
    (mr_terminated row) true (mr_start_claim row) (mr_start_claimed_at row)))
  | ce_evaluated db rs ls cs :
  cstep db (mk_cdb (d_mounts db) (d_events db) rs ls (d_redeemed db) (d_revoked db) cs)
  | ce_authorize db db' m row cur action resource op intent rid id :
  d_mounts db !! m = Some cur -> mr_epoch row <= mr_epoch cur ->
  insert_event db (authorized_row m row action resource op intent rid id) = Some db' -> cstep db db'
  | ce_begin db m op id :
  (exists e, e ∈ d_events db /\ ce_op e = op /\ ce_mount e = m) ->
  cstep db (oworld (begin_consequence m op id db))
  | ce_report db latest ok er unc pt id :
  latest ∈ d_events db -> cstep db (oworld (report_commit latest ok er unc pt id db))
  | ce_rec_begin db rid op intent resource id1 id2 :
  cstep db (oworld (recorder_begin rid op intent resource id1 id2 db))
  | ce_rec_complete db op ok unc er pt pr id :
  cstep db (oworld (recorder_complete op ok unc er pt pr id db))
  | ce_reconcile db latest subject id :
  latest ∈ d_events db -> reconcilable (ce_state latest) = true -> cstep db (oworld (reconcile_commit latest subject id db))
  | ce_claim db m t n op p w now : cstep db (oworld (claim_start m t n op p w now db))
  | ce_terminate db m p w st : cstep db (oworld (terminate_fence m p w st db))
  | ce_advance db m p w : cstep db (oworld (advance_epoch m p w db))
  | ce_handover db m h r p w t n : cstep db (oworld (handover_incarnation m h r p w t n db))
  | ce_redeem db k1 k2 keys op pm pl sink sg now :
  cstep db (oworld (redeem_consequence k1 k2 keys op pm pl sink sg now db)).

(** Reading one branch of an operation off its definition. *)
Ltac branches := repeat (case_match; simplify_eq; simpl in *); try done.

Lemma report_event_ok latest ok er unc pt id e :
  report_event latest ok er unc pt id = Ok (Some e) ->
  evidence_ok e /\ follows latest e /\ same_operation latest e
  /\ ce_version e = ce_version latest + 1 /\ ce_epoch e = ce_epoch latest /\ ce_state e <> C_STARTED.
Proof.
  unfold report_event. intros HR. res_inv HR.
  destruct (bool_decide (ce_state latest ∈ _)) eqn:Et; [done|]. res_inv HR. injection HR as <-. simpl.
  apply bool_decide_eq_false in Et.
  set (tp := report_target _ _ _ _) in *.
  assert (Hl : legal_next (ce_state latest) tp.1).
  { apply andb_false_iff in E as [E|E]; apply negb_false_iff, bool_decide_eq_true in E; [|by left].
  destruct unc; [|]; subst tp; unfold report_target in *; simpl in *.
  - right. by rewrite <- E.
  - exfalso. apply Et. rewrite <- E. destruct (bool_decide _), ok; set_solver. }
  split_and!; [|by apply next_event_follows|apply next_event_same|done|done|].
  - apply Nat.ltb_ge in E0. subst tp. unfold evidence_ok, report_target in *. simpl.
  clear E Et Hl.
  destruct unc; [done|]. destruct (bool_decide (ce_state latest = _)), ok; simpl in *; by eexists.
  - subst tp. unfold report_target. destruct unc; [done|]. by destruct (bool_decide (ce_state latest = _)), ok.
Qed.

Lemma evidence_mk s id op it v ep rc m ex pr ac rs pt pf er sh :
  match s with
  | C_AUTHORIZED => pt = None
  | C_STARTED => pt = None \/ pt = Some "optimistic_claim"
  | C_SUCCEEDED | C_FAILED => is_Some pt
  | C_OUTCOME_UNKNOWN => pt = Some "outcome_uncertain"
  | _ => False
  end -> evidence_ok (mk_cevent id op it s v ep rc m ex pr ac rs pt pf er sh).
Proof. unfold evidence_ok. simpl. by destruct s. Qed.

(** What one step does to the events: it appends rows; a row that claims a
    start for a mount was written under that mount's live row, in the epoch
    its operation was authorized in. *)
Definition started_under (db : cdb) (e : cevent) : Prop :=
  exists row, d_mounts db !! ce_mount e = Some row /\ mr_terminated row = false
  /\ ce_epoch e = Some (mr_epoch row)
  /\ exists a, a ∈ d_events db /\ ce_op a = ce_op e /\ ce_state a = C_AUTHORIZED
               /\ (ce_epoch a = None \/ ce_epoch a = ce_epoch e).

Definition start_claim_of (e : cevent) : Prop :=
  ce_state e = C_STARTED /\ ce_proof_type e = Some "optimistic_claim".

(** The start the lifecycle recorder writes, on the strength of an ALLOW
    receipt alone: it does not look at the mount. *)
Definition recorded_under (db : cdb) (e : cevent) : Prop :=
  ce_proof_type e = None /\ exists r, r ∈ (map_to_list (d_receipts db)).*2 /\ rc_decision r = "allow"
  /\ ce_receipt e = Some (rc_id r) /\ ce_mount e = rc_mount r.

(** The two ways to start. *)
Definition start_of (db : cdb) (e : cevent) : Prop :=
  (start_claim_of e /\ started_under db e) \/ recorded_under db e.

Definition grows (db db' : cdb) : Prop :=
  cinv db' /\ exists es, d_events db' = d_events db ++ es
  /\ forall e, e ∈ es -> ce_state e = C_STARTED -> start_of db e.

Lemma grows_same db db' : cinv db -> d_events db' = d_events db -> grows db db'.
Proof.
  intros Hi He. split; [by eapply cinv_same_events|]. exists []. rewrite app_nil_r. split; [done|].
  intros e H1. by apply not_elem_of_nil in H1.
Qed.

Lemma grows_one db e db' :
  insert_event db e = Some db' -> cinv db' -> (ce_state e = C_STARTED -> start_of db e) -> grows db db'.
Proof.
  intros Hins Hi Hs. split; [done|]. apply insert_event_Some in Hins as [_ ->]. exists [e].
  split; [done|]. intros x ->%list_elem_of_singleton. done.
Qed.

(** Appending a successor of an existing row. *)
Lemma grows_next db e e' :
  cinv db -> e ∈ d_events db -> ce_version e' = ce_version e + 1 ->
  follows e e' -> same_operation e e' -> evidence_ok e' ->
  (ce_state e' = C_STARTED -> start_of db e') ->
  grows db (default db (insert_event db e')).
Proof.
  intros Hi He Hv Hn Hs Hev Hc. destruct (insert_event db e') as [db'|] eqn:Hins; simpl.
  - eapply grows_one; [done| |done]. by eapply cinv_next.
  - by apply grows_same.
Qed.

Lemma begin_grows db m op id :
  cinv db -> (exists e, e ∈ d_events db /\ ce_op e = op /\ ce_mount e = m) ->
  grows db (oworld (begin_consequence m op id db)).
Proof.
  intros Hi (w & Hw & Hwo & Hwm). unfold begin_consequence.
  destruct (latest_event db op) as [latest|] eqn:El; [|by apply grows_same].
  destruct (latest_event_elem _ _ _ Hi El) as [Hlo Hle].
  destruct (bool_decide _) eqn:Est; simpl; [|by apply grows_same].
  apply bool_decide_eq_true in Est.
  destruct (refusal_reason _ latest) as [rsn|] eqn:Er; simpl.
  - apply grows_next with latest; try done.
  + apply next_event_follows. left. rewrite Est. simpl. set_solver.
  + by apply evidence_mk.
  - assert (Hg : grows db (default db (insert_event db (started_event (d_mounts db !! m) latest id)))).
  { apply grows_next with latest; try done.
    - apply next_event_follows. left. rewrite Est. simpl. set_solver.
    - apply evidence_mk. by right.
    - intros _. left. split; [done|]. destruct (d_mounts db !! m) as [row|] eqn:Em; [|done]. simpl in Er.
      destruct (mr_terminated row) eqn:Et; [done|].
      assert (Hmm : ce_mount latest = m).
      { rewrite <- Hwm. apply (stream_same (events_of db op)); [apply Hi|by apply events_of_elem..]. }
      exists row. simpl. rewrite Hmm. split_and!; [done..|].
      exists latest. split_and!; try done.
      destruct (ce_epoch latest) as [ep|]; [right|by left].
      destruct (mr_epoch row =? ep) eqn:E; [|done]. apply Z.eqb_eq in E. by rewrite E. }
  by destruct (insert_event _ _).
Qed.

Lemma report_grows db latest ok er unc pt id :
  cinv db -> latest ∈ d_events db -> grows db (oworld (report_commit latest ok er unc pt id db)).
Proof.
  intros Hi Hl. unfold report_commit.
  destruct (report_event latest ok er unc pt id) as [[e|]|] eqn:E; simpl; [|by apply grows_same..].
  apply report_event_ok in E as (He & Hn & Hs & Hv & _ & Hst).
  by apply grows_next with latest.
Qed.

Lemma rec_complete_grows db op ok unc er pt pr id :
  cinv db -> grows db (oworld (recorder_complete op ok unc er pt pr id db)).
Proof.
  intros Hi. unfold recorder_complete.
  destruct (latest_event db op) as [latest|] eqn:El; [|by apply grows_same].
  destruct (latest_event_elem _ _ _ Hi El) as [Hlo Hle].
  destruct (bool_decide (ce_state latest = _)) eqn:Est; simpl; [|by apply grows_same].
  apply bool_decide_eq_true in Est.
  set (t := if unc then _ else _). destruct (bool_decide (t ∈ _)) eqn:Et; simpl; [|by apply grows_same].
  apply bool_decide_eq_true in Et.
  set (e := next_event _ _ _ _ _ _ _ _).
  assert (Hg : grows db (default db (insert_event db e))).
  { apply grows_next with latest; try done.
  - apply next_event_follows. left. by rewrite Est.
  - subst e t. apply evidence_mk. destruct unc; [done|]. destruct ok; by eexists.
  - intros Hst. simpl in Hst. subst t. destruct unc; [done|]. by destruct ok. }
  by destruct (insert_event db e).
Qed.

Lemma rec_begin_grows db rid op intent resource id1 id2 :
  cinv db -> grows db (oworld (recorder_begin rid op intent resource id1 id2 db)).
Proof.
  intros Hi. unfold recorder_begin.
  destruct (d_receipts db !! rid) as [r|] eqn:Er; [|by apply grows_same].
  destruct (str_eqb (rc_decision r) "allow") eqn:Ed; [|by apply grows_same]. apply str_eqb_spec in Ed. cbn [negb].
  destruct (latest_event db op) as [ex|] eqn:El; [destruct (negb _); by apply grows_same|].
  destruct (insert_event db _) as [db1|] eqn:E1; [|by apply grows_same].
  destruct (insert_event db1 _) as [db2|] eqn:E2; [|by apply grows_same]. simpl.
  destruct (cinv_first _ _ _ Hi E1) as [_ Hi1]; [done..|].
  pose proof (insert_event_Some _ _ _ E1) as [_ Hd1].
  set (e1 := (recorder_rows r op intent resource id1 id2).1) in *.
  set (e2 := (recorder_rows r op intent resource id1 id2).2) in *.
  assert (Hin : e1 ∈ d_events db1) by (rewrite Hd1; simpl; apply elem_of_app; right; by left).
  assert (Hi2 : cinv db2).
  { apply (cinv_next db1 e1 e2 db2 Hi1 Hin E2); try done; [|by left].
  left. split; [|done]. left. simpl. set_solver. }
  split; [done|]. apply insert_event_Some in E2 as [_ ->]. rewrite Hd1. simpl.
  exists [e1; e2]. split; [by rewrite <- app_assoc|].
  intros e [->|[->|Hn]%elem_of_cons]%elem_of_cons Hst; [done| |by apply not_elem_of_nil in Hn].
  right. split; [done|]. exists r. split_and!; try done. apply list_elem_of_fmap. exists (rid, r). split; [done|].
  by apply elem_of_map_to_list.
Qed.

Lemma reconcile_grows db latest subject id :
  cinv db -> latest ∈ d_events db -> reconcilable (ce_state latest) = true ->
  grows db (oworld (reconcile_commit latest subject id db)).
Proof.
  intros Hi Hl Hr. assert (Hs : ce_state latest = C_STARTED \/ ce_state latest = C_OUTCOME_UNKNOWN).
  { apply bool_decide_eq_true in Hr. set_solver. }
  assert (Hg : grows db (default db (insert_event db (reconcile_event latest subject id)))).
  { apply grows_next with latest; try done.
  - right. by split_and!.
  - exists "reconciliation_api_query". split; [done|]. vm_compute. lia. }
  unfold reconcile_commit. by destruct (insert_event _ _).
Qed.

Lemma authorize_grows db db' m row action resource op intent rid id :
  cinv db -> insert_event db (authorized_row m row action resource op intent rid id) = Some db' ->
  grows db db'.
Proof.
  intros Hi Hins. eapply grows_one; [done| |done].
  by eapply (cinv_first _ _ _ Hi Hins).
Qed.

(** ** Mounts along a step *)

Record row_le (r r' : mount_row) : Prop := {
  rl_epoch : mr_epoch r <= mr_epoch r';
  rl_terminated : mr_terminated r = true -> mr_terminated r' = true;
  rl_claim : forall op, mr_start_claim r = Some op -> mr_start_claim r' = Some op;
  rl_owner : mr_principal r' = mr_principal r /\ mr_workspace r' = mr_workspace r;
  rl_ids : tk_mount_id (mc_token (mr_record r')) = tk_mount_id (mc_token (mr_record r))
  /\ tk_execution_id (mc_token (mr_record r')) = tk_execution_id (mc_token (mr_record r)) }.

Definition mounts_le (db db' : cdb) : Prop :=
  (forall m r, d_mounts db !! m = Some r -> exists r', d_mounts db' !! m = Some r' /\ row_le r r')
  /\ (forall op x, d_redeemed db !! op = Some x -> d_redeemed db' !! op = Some x)
  /\ extends (d_events db) (d_events db').

Lemma row_le_refl r : row_le r r.
Proof. split; [lia|done..]. Qed.

#[export] Instance mounts_le_preorder : PreOrder mounts_le.
Proof.
  split.
  - intros db. split_and!; [|done|apply extends_refl]. intros m r Hr. exists r. split; [done|apply row_le_refl].
  - intros a b c (H1 & H2 & H3) (K1 & K2 & K3). split_and!; [|auto|by etrans].
  intros m r Hr. destruct (H1 m r Hr) as (r' & Hr' & [L1 L2 L3 L4 L5]).
  destruct (K1 m r' Hr') as (r'' & Hr'' & [M1 M2 M3 M4 M5]).
  exists r''. split; [done|]. split; [lia|auto|auto|intuition congruence..].
Qed.

(** Everything but the leases is untouched. *)
Definition same_but_leases (db db' : cdb) : Prop :=
  d_mounts db' = d_mounts db /\ d_events db' = d_events db /\ d_redeemed db' = d_redeemed db
  /\ d_receipts db' = d_receipts db /\ d_revoked db' = d_revoked db.

Lemma align_lease_same db m e : same_but_leases db (align_lease db m e).
Proof. unfold align_lease. destruct (latest_lease db m); [|done]. by destruct (_ <? _). Qed.

Lemma fold_newer_lease_in l ls : foldl newer_lease l ls ∈ l :: ls.
Proof.
  revert l. induction ls as [|x ls IH]; intros l; simpl; [by left|].
  specialize (IH (newer_lease l x)). apply elem_of_cons in IH as [->|IH]; [|set_solver].
  unfold newer_lease. destruct (_ <? _); set_solver.
Qed.

Lemma latest_lease_in db m l : latest_lease db m = Some l -> l ∈ d_leases db /\ le_mount_id l = m.
Proof.
  unfold latest_lease. destruct (filter _ _) as [|x ls] eqn:E; [done|]. intros [= <-].
  assert (Hin : foldl newer_lease x ls ∈ filter (fun l => le_mount_id l = m) (d_leases db)).
  { rewrite E. apply fold_newer_lease_in. }
  apply list_elem_of_filter in Hin as [? ?]. done.
Qed.

(** Terminating a mount never trips over its lease, and a live newest lease
    ends REVOKED in a later revocation epoch. *)
Lemma revoke_lease_ok db m :
  exists db', revoke_lease db m = Ok db' /\ same_but_leases db db'
  /\ forall l, latest_lease db m = Some l -> le_state l = L_ISSUED \/ le_state l = L_ACTIVE ->
     exists l', l' ∈ d_leases db' /\ le_id l' = le_id l /\ le_state l' = L_REVOKED
       /\ le_revocation_epoch l < le_revocation_epoch l' /\ le_authority_epoch l <= le_authority_epoch l'.
Proof.
  unfold revoke_lease. destruct (latest_lease db m) as [l|] eqn:El; [|by exists db].
  destruct (bool_decide _) eqn:Es.
  - apply bool_decide_eq_true, list_elem_of_In in Es.
  set (ce := Z.max _ _).
  assert (Ht : transition_state l L_REVOKED ce = Ok (with_state l L_REVOKED ce ce)).
  { unfold transition_state. rewrite (bool_decide_eq_false_2 (le_state l = L_REVOKED)) by (by destruct Es as [<-|[<-|[]]]).
    rewrite (bool_decide_eq_false_2 (le_state l = L_EXPIRED)) by (by destruct Es as [<-|[<-|[]]]). simpl.
    rewrite (proj2 (Z.ltb_ge ce (le_authority_epoch l))) by lia. simpl.
    rewrite (proj2 (Z.ltb_ge ce (le_revocation_epoch l))) by lia. done. }
  rewrite Ht. simpl. eexists. split_and!; [done|done|].
  intros x [= <-] _. exists (with_state l L_REVOKED ce ce). simpl. split_and!; try done; [|lia|lia].
  apply list_elem_of_In, in_map_iff. exists l. rewrite str_eqb_refl. split; [done|].
  apply list_elem_of_In. by apply (latest_lease_in db m).
  - exists db. split_and!; [done..|]. intros x [= <-] Hx. apply bool_decide_eq_false in Es. exfalso. apply Es.
  destruct Hx as [->| ->]; set_solver.
Qed.

Lemma epoch_up z : z < epoch_or_1 z + 1.
Proof. unfold epoch_or_1. destruct (z =? 0) eqn:E; [apply Z.eqb_eq in E|]; lia. Qed.

(** Replacing one row by a later one. *)
Lemma mounts_le_row db db' m row row' :
  d_mounts db !! m = Some row -> row_le row row' -> d_mounts db' = <[m := row']> (d_mounts db) ->
  d_redeemed db' = d_redeemed db -> d_events db' = d_events db -> mounts_le db db'.
Proof.
  intros Hm Hle Hd Hr He. split_and!; [|by rewrite Hr|rewrite He; apply extends_refl].
  intros x r Hx. rewrite Hd. destruct (decide (x = m)) as [->|Hne].
  - rewrite lookup_insert_eq. exists row'. split; [done|]. congruence.
  - rewrite lookup_insert_ne by done. exists r. split; [done|apply row_le_refl].
Qed.

Lemma mounts_le_same db db' :
  d_mounts db' = d_mounts db -> d_redeemed db' = d_redeemed db -> extends (d_events db) (d_events db') ->
  mounts_le db db'.
Proof.
  intros Hm Hr He. split_and!; [|by rewrite Hr|done]. intros m r. rewrite Hm. intros ?. exists r.
  split; [done|apply row_le_refl].
Qed.

(** The operations on a mount row, by the row they leave. *)
Lemma claim_shape m t n op p w now db :
  oworld (claim_start m t n op p w now db) = db
  \/ exists row, d_mounts db !! m = Some row /\ mr_start_claim row = None
     /\ oworld (claim_start m t n op p w now db) = set_mount db m (with_claim row op now).
Proof.
  unfold claim_start. repeat case_match; simpl; auto. right.
  eexists. split_and!; [done| |done].
  match goal with E : bool_decide (mr_start_claim _ <> None) = false |- _ =>
  apply bool_decide_eq_false in E; by apply dec_stable in E end.
Qed.

Lemma terminate_shape m p w st db :
  match terminate_fence m p w st db with
  | Ret (_, _, _) db' =>
    db' = db \/ exists row, d_mounts db !! m = Some row /\ mr_terminated row = false
      /\ d_mounts db' = <[m := with_epoch row (epoch_or_1 (mr_epoch row) + 1) true]> (d_mounts db)
      /\ d_events db' = d_events db /\ d_redeemed db' = d_redeemed db
  | _ => False
  end.
Proof.
  unfold terminate_fence. destruct (d_mounts db !! m) as [row|] eqn:Em; [|by left].
  destruct (owned_by _ _ _ _); simpl; [|by left].
  destruct (mr_terminated row) eqn:Et; [by left|]. destruct (bool_decide _); simpl; [|by left].
  set (db1 := mark_mount_revoked _ _).
  destruct (revoke_lease_ok db1 m) as (db2 & -> & (Hm & He & Hr & _) & _). right. exists row.
  by rewrite Hm, He, Hr.
Qed.

Lemma redeem_shape k1 k2 keys op pm pl sink sg now db :
  oworld (redeem_consequence k1 k2 keys op pm pl sink sg now db) = db
  \/ exists x, d_redeemed db !! op = None
     /\ oworld (redeem_consequence k1 k2 keys op pm pl sink sg now db)
        = set_redeemed db (<[op := x]> (d_redeemed db)).
Proof. unfold redeem_consequence, redeem_locked. repeat case_match; simpl; eauto. Qed.

Lemma step_grows db db' : cinv db -> cstep db db' -> grows db db'.
Proof.
  intros Hi Hs. destruct Hs; try (by apply grows_same).
  - by eapply authorize_grows.
  - by apply begin_grows.
  - by apply report_grows.
  - by apply rec_begin_grows.
  - by apply rec_complete_grows.
  - by apply reconcile_grows.
  - destruct (claim_shape m t n op p w now db) as [->|(row & _ & _ & ->)]; by apply grows_same.
  - pose proof (terminate_shape m p w st db) as Ht. destruct (terminate_fence _ _ _ _ _) as [[[? ?] ?] db'| |];
    [|done..]. simpl. destruct Ht as [->|(row & _ & _ & _ & He & _)]; by apply grows_same.
  - unfold advance_epoch. repeat case_match; simpl; try (by apply grows_same).
  apply grows_same; [done|].
  match goal with |- d_events (align_lease ?d ?a ?b) = _ => apply (align_lease_same d a b) end.
  - unfold handover_incarnation. repeat case_match; simpl; try (by apply grows_same).
  apply grows_same; [done|].
  match goal with |- d_events (align_lease ?d ?a ?b) = _ => apply (align_lease_same d a b) end.
  - destruct (redeem_shape k1 k2 keys op pm pl sink sg now db) as [->|(x & _ & ->)]; by apply grows_same.
Qed.

Lemma grows_extends db db' : grows db db' -> extends (d_events db) (d_events db').
Proof. intros [_ (es & -> & _)]. apply extends_app. Qed.

Lemma insert_mounts db e : d_mounts (default db (insert_event db e)) = d_mounts db
  /\ d_redeemed (default db (insert_event db e)) = d_redeemed db.
Proof. unfold insert_event. by destruct (row_conflict _ _). Qed.

Lemma event_ops_mounts db db' :
  (exists db0, db' = db0 /\ d_mounts db0 = d_mounts db /\ d_redeemed db0 = d_redeemed db) ->
  grows db db' -> mounts_le db db'.
Proof. intros (db0 & -> & ? & ?) Hg. by apply mounts_le_same, grows_extends. Qed.

Lemma step_mounts db db' : cinv db -> cstep db db' -> mounts_le db db'.
Proof.
  intros Hi Hs. pose proof (step_grows _ _ Hi Hs) as Hg. destruct Hs.
  - split_and!; [|done|apply extends_refl]. intros x r Hx. exists r. split; [|apply row_le_refl]. simpl.
  rewrite lookup_insert_ne; [done|]. congruence.
  - eapply mounts_le_row; [done| |done..]. split; simpl; [lia|done..].
  - by apply mounts_le_same, grows_extends.
  - apply insert_event_Some in H3 as [_ ->]. by apply mounts_le_same, grows_extends.
  - apply event_ops_mounts; [|done]. eexists; split; [done|]. unfold begin_consequence.
  repeat case_match; simpl; try done; [apply insert_mounts|].
  match goal with E : insert_event _ _ = Some _ |- _ => apply insert_event_Some in E as [_ ->]; done end.
  - apply event_ops_mounts; [|done]. eexists; split; [done|]. unfold report_commit.
  repeat case_match; simpl; try done. apply insert_mounts.
  - apply event_ops_mounts; [|done]. eexists; split; [done|]. unfold recorder_begin.
  repeat case_match; simpl; try done.
  repeat match goal with E : insert_event _ _ = Some _ |- _ => apply insert_event_Some in E as [_ ->] end.
  done.
  - apply event_ops_mounts; [|done]. eexists; split; [done|]. unfold recorder_complete.
  repeat case_match; simpl; try done;
  match goal with E : insert_event _ _ = Some _ |- _ => apply insert_event_Some in E as [_ ->]; done end.
  - apply event_ops_mounts; [|done]. eexists; split; [done|]. unfold reconcile_commit.
  destruct (insert_event _ _) eqn:E; [|done]. by apply insert_event_Some in E as [_ ->].
  - destruct (claim_shape m t n op p w now db) as [->|(row & Hm & Hc & ->)]; [reflexivity|].
  eapply mounts_le_row; [done| |done..]. split; simpl; [lia|done| |done..]. intros x. by rewrite Hc.
  - pose proof (terminate_shape m p w st db) as Ht. destruct (terminate_fence _ _ _ _ _) as [[[? ?] ?] db'| |];
    [|done..]. simpl in *. destruct Ht as [->|(row & Hm & Hf & Hd & He & Hr)]; [reflexivity|].
  eapply mounts_le_row; [done| |done..]. split; simpl; [|done..]. pose proof (epoch_up (mr_epoch row)). lia.
  - unfold advance_epoch in *. repeat case_match; simpl in *; try reflexivity.
  destruct (align_lease_same (set_mount db m (with_epoch m0 (epoch_or_1 (mr_epoch m0) + 1) false)) m
              (epoch_or_1 (mr_epoch m0) + 1)) as (Hm & He & Hr & _).
  eapply mounts_le_row; [done| |exact Hm|exact Hr|exact He]. pose proof (epoch_up (mr_epoch m0)).
  split; simpl; [lia|congruence|done..].
  - unfold handover_incarnation in *. repeat case_match; simpl in *; try reflexivity.
  match goal with |- mounts_le _ (align_lease ?d ?a ?b) =>
    destruct (align_lease_same d a b) as (Hm & He & Hr & _) end.
  eapply mounts_le_row; [done| |exact Hm|exact Hr|exact He]. pose proof (epoch_up (mr_epoch m0)).
  split; simpl; [lia|congruence|done..].
  - destruct (redeem_shape k1 k2 keys op pm pl sink sg now db) as [->|(x & Hn & ->)]; [reflexivity|].
  split_and!; [|simpl|apply extends_refl].
  + intros m r Hr. exists r. split; [done|apply row_le_refl].
  + intros o y Hy. rewrite lookup_insert_ne; [done|]. congruence.
Qed.

Lemma steps_cinv db db' : cinv db -> steps cstep db db' -> cinv db'.
Proof. intros Hi. apply steps_invariant; [|done]. intros a b Ha Hs. by apply (step_grows a b). Qed.

Lemma steps_mounts db db' : cinv db -> steps cstep db db' -> mounts_le db db'.
Proof.
  intros Hi Hs. induction Hs as [|a b c Hs IH Hst]; [reflexivity|].
  etrans; [by apply IH|]. apply step_mounts; [|done]. by eapply steps_cinv.
Qed.
End steps.
