(* ===== verification/ConsequenceProperties.v ===== *)
(** * Properties of the consequence lifecycle

    Event streams, the termination fence, in-flight accounting, start claims,
    handover, redemption, the executor's truthfulness and what a proof
    subject hash binds. *)

From Stdlib Require Import ZArith Lia Ascii String.
From stdpp Require Import base gmap strings list pretty sorting.
From S2P Require Import Prelude Canon PyJson MountModels Lease Consequence Mounts Permits ConsequenceProofs.

Local Open Scope Z_scope.

(** ** Lemmas *)

Lemma stream_head l e : stream l -> l !! 0%nat = Some e -> ce_state e = C_AUTHORIZED.
Proof.
  intros H. revert e. induction H as [|e0 ? ?|l x y Hs IH Hl]; intros e He; [done|by injection He as <-|].
  destruct l as [|z l]; [done|]. by apply IH.
Qed.

Lemma stream_next l i e e' :
  stream l -> l !! i = Some e -> l !! S i = Some e' -> follows e e' /\ same_operation e e'.
Proof.
  intros H. revert i e e'. induction H as [|e0 ? ?|l x y Hs IH Hl Hv Hn Hsame Hev]; intros i e e' Hi Hj; [done|by destruct i|].
  apply lookup_app_Some in Hj as [Hj|[Hle Hj]].
  - apply (IH i); [|done]. apply lookup_lt_Some in Hj.
    rewrite lookup_app_l in Hi by lia. done.
  - destruct (S i - length l)%nat eqn:E; [|done]. injection Hj as <-.
    rewrite last_lookup in Hl. replace (pred (length l)) with i in Hl by lia.
    rewrite (lookup_app_l_Some _ _ _ _ Hl) in Hi. injection Hi as <-. done.
Qed.

(** The scan of [_in_flight_operations] keeps the newest event of each
    operation. *)
Definition best (l : list cevent) : option cevent :=
  match l with [] => None | e :: es => Some (foldl newer e es) end.

Lemma best_snoc l x : best (l ++ [x]) = Some (match best l with Some b => newer b x | None => x end).
Proof. destruct l; [done|]. simpl. by rewrite foldl_app. Qed.

Lemma scan_best rows op :
  foldl scan_row ∅ rows !! op = (fun e => (ce_version e, ce_state e)) <$> best (filter (fun e => ce_op e = op) rows).
Proof.
  induction rows as [|x rows IH] using rev_ind; [by rewrite filter_nil|].
  rewrite foldl_app, filter_app, filter_cons, filter_nil. simpl.
  unfold scan_row at 1. destruct (decide (ce_op x = op)) as [<-|Hne].
  - rewrite best_snoc, IH. destruct (best _) as [b|]; simpl.
    + unfold newer. destruct (_ <? _); [by rewrite lookup_insert_eq|]. by rewrite IH.
    + by rewrite lookup_insert_eq.
  - rewrite app_nil_r, <- IH. repeat case_match; try done; by rewrite lookup_insert_ne.
Qed.

Lemma same_mount db op e e' :
  cinv db -> e ∈ events_of db op -> e' ∈ events_of db op -> ce_mount e = ce_mount e'.
Proof. intros Hi H1 H2. by apply (stream_same _ _ _ (Hi op) H1 H2). Qed.

(** The rows the scan sees of an operation. *)
Lemma scan_rows db m op e :
  cinv db -> latest_event db op = Some e ->
  filter (fun e => ce_op e = op) (filter (fun e => ce_mount e = m) (d_events db))
  = if decide (ce_mount e = m) then events_of db op else [].
Proof.
  intros Hi He. rewrite list_filter_filter.
  assert (Hin : e ∈ events_of db op) by (by apply events_of_elem, latest_event_elem).
  destruct (decide (ce_mount e = m)) as [<-|Hne].
  - apply filter_ext_elem. intros x Hx. split; [by intros [? _]|]. intros Hop. split; [done|].
    apply (same_mount db op); [done| |done]. by apply events_of_elem.
  - apply elem_of_nil_inv. intros x [[Hxo Hxm] Hx]%list_elem_of_filter. apply Hne. rewrite <- Hxm.
    apply (same_mount db op); [done..|]. by apply events_of_elem.
Qed.

(** An operation is in flight on a mount exactly when its latest event is
    AUTHORIZED or STARTED and carries the mount. *)
Lemma in_flight_spec db m op :
  cinv db ->
  op ∈ in_flight_operations db m <->
  exists e, latest_event db op = Some e /\ ce_mount e = m /\ ce_state e ∈ IN_FLIGHT_STATES.
Proof.
  intros Hi. unfold in_flight_operations. rewrite merge_sort_Permutation.
  set (rows := filter _ (d_events db)). set (lat := foldl scan_row ∅ rows).
  transitivity (exists v s, lat !! op = Some (v, s) /\ s ∈ IN_FLIGHT_STATES).
  { rewrite list_elem_of_In, in_map_iff. split.
    - intros ([k [v s]] & <- & Hin%list_elem_of_In). apply list_elem_of_filter in Hin as [Hs Hin].
      apply elem_of_map_to_list in Hin. by exists v, s.
    - intros (v & s & Hl & Hs). exists (op, (v, s)). split; [done|]. apply list_elem_of_In, list_elem_of_filter.
      split; [done|]. by apply elem_of_map_to_list. }
  unfold lat. rewrite scan_best.
  destruct (latest_event db op) as [e|] eqn:El.
  - unfold rows. rewrite (scan_rows db m op e Hi El). destruct (decide (ce_mount e = m)) as [Hm|Hm].
    + change (best (events_of db op)) with (latest_event db op). rewrite El. simpl. split.
      * intros (v & s & [= <- <-] & Hs). by exists e.
      * intros (x & [= <-] & _ & Hs). by exists (ce_version e), (ce_state e).
    + simpl. split; [by intros (? & ? & ? & _)|]. intros (x & [= <-] & ? & _). done.
  - replace (filter (fun e => ce_op e = op) rows) with (@nil cevent); [simpl; split|].
    + by intros (? & ? & ? & _).
    + by intros (? & ? & _).
    + symmetry. apply elem_of_nil_inv. intros x [Hx Hr]%list_elem_of_filter.
      apply list_elem_of_filter in Hr as [_ Hr].
      assert (Hin : x ∈ events_of db op) by (by apply events_of_elem).
      unfold latest_event in El. destruct (events_of db op); [|done]. by apply not_elem_of_nil in Hin.
Qed.

(** Every STARTED event written during a run was written in one of the two
    ways: as a claim under a live row in the row's epoch of that moment, or by
    the lifecycle recorder. *)
Lemma run_starts `{Ext, Mac} db db' e :
  cinv db -> steps cstep db db' -> e ∈ drop (length (d_events db)) (d_events db') -> ce_state e = C_STARTED ->
  exists mid, steps cstep db mid /\ start_of mid e /\ mounts_le mid db'.
Proof.
  intros Hi Hs. induction Hs as [|a b c Hs IH Hst]; intros He Hc.
  { rewrite drop_ge in He by lia. by apply not_elem_of_nil in He. }
  pose proof (steps_cinv _ _ Hi Hs) as Hb. pose proof (step_mounts _ _ Hb Hst) as Hbc.
  destruct (step_grows _ _ Hb Hst) as [_ (es & Hes & Hnew)].
  destruct (steps_mounts _ _ Hi Hs) as (_ & _ & Hext).
  rewrite Hes, drop_app_le in He by (by apply extends_length).
  apply elem_of_app in He as [He|He].
  - destruct (IH Hi He Hc) as (mid & H1 & H2 & H3). exists mid. split_and!; [done..|]. by etrans.
  - exists b. split_and!; [done|by apply Hnew|done].
Qed.

Lemma claim_started_under db e : start_of db e -> start_claim_of e -> started_under db e.
Proof. intros [[_ Hu]|[Hn _]] [_ Hp]; [done|congruence]. Qed.

Lemma cinv_empty db : d_events db = [] -> cinv db.
Proof. intros H op. unfold events_of. rewrite H. constructor. Qed.

Section properties.
Context `{Ext, Mac}.


(** C26: the termination fence.  Take any reachable tables and any
    continuation, and a STARTED event written in it.  If it was claimed through
    the mount ([begin_consequence]), the mount was not terminated at the
    outset, the event's authority epoch is not behind the mount's epoch at the
    outset, and the operation was authorized in that epoch (or without one):
    so after [terminate] nothing starts that way, and after [advance_epoch] or
    [handover_incarnation] nothing authorized in an earlier epoch.  The only
    other way is the lifecycle recorder of the exec route, which asks for a
    persisted ALLOW receipt of the mount and does not look at the mount. *)
Theorem fence_blocks_start db0 db db' e row :
  d_events db0 = [] -> steps cstep db0 db -> steps cstep db db' ->
  e ∈ drop (length (d_events db)) (d_events db') -> ce_state e = C_STARTED ->
  d_mounts db !! ce_mount e = Some row ->
  (ce_proof_type e = Some "optimistic_claim" /\ mr_terminated row = false
   /\ (exists ep, ce_epoch e = Some ep /\ mr_epoch row <= ep)
   /\ (exists a, a ∈ d_events db' /\ ce_op a = ce_op e /\ ce_state a = C_AUTHORIZED
              /\ (ce_epoch a = None \/ ce_epoch a = ce_epoch e)))
  \/ (ce_proof_type e = None /\ exists mid, steps cstep db mid /\ recorded_under mid e).
Proof.
  intros H0' Hs Hs' He Hc Hr. pose proof (steps_cinv _ _ (cinv_empty _ H0') Hs) as Hi.
  destruct (run_starts _ _ _ Hi Hs' He Hc) as (mid & Hm & [[[_ Hp] (r & Hr' & Ht & Hep & a & Ha & Hrest)]|Hrec] & Hle);
    [left|right; split; [apply Hrec|by exists mid]].
  destruct (steps_mounts _ _ Hi Hm) as (Hmm & _ & _). destruct (Hmm _ _ Hr) as (r2 & Hr2 & [L1 L2 _]).
  rewrite Hr' in Hr2. injection Hr2 as <-. split_and!; [done|..].
  - destruct (mr_terminated row); [|done]. rewrite L2 in Ht; done.
  - eauto.
  - exists a. destruct Hle as (_ & _ & zs & ->). split; [|done]. apply elem_of_app. by left.
Qed.

(** One winner.  With a fresh event id, [begin_consequence] on an
    operation whose latest event is AUTHORIZED either records STARTED and
    returns true (the mount is live and in the authorized epoch) or records
    FAILED with proof fence_refusal and raises; in both cases every later
    call for that operation, on any mount, returns false and writes
    nothing, until another event is written. *)
Theorem begin_decides db m op id e :
  cinv db -> latest_event db op = Some e -> ce_state e = C_AUTHORIZED ->
  (forall r, r ∈ d_events db -> ce_id r <> id) ->
  exists db', oworld (begin_consequence m op id db) = db' /\
  begin_consequence m op id db =
  match refusal_reason (d_mounts db !! m) e with
  | None => Ret true db'
  | Some reason => Raise (ExecutionTerminatedError reason) db'
  end
  /\ (exists e', latest_event db' op = Some e' /\ same_operation e e' /\ ce_receipt e' = ce_receipt e /\
     match refusal_reason (d_mounts db !! m) e with
     | None => ce_state e' = C_STARTED /\ ce_proof_type e' = Some "optimistic_claim"
     | Some reason => ce_state e' = C_FAILED /\ ce_proof_type e' = Some "fence_refusal"
                      /\ ce_error e' = Some reason
     end)
  /\ forall m' id', begin_consequence m' op id' db' = Ret false db'.
Proof.
  intros Hi El Est Hfresh.
  assert (Hdone : forall e', same_operation e e' -> ce_version e' = ce_version e + 1 -> ce_id e' = id ->
  follows e e' -> evidence_ok e' -> ce_state e' <> C_AUTHORIZED ->
  exists db', insert_event db e' = Some db' /\ latest_event db' op = Some e'
    /\ forall m' id', begin_consequence m' op id' db' = Ret false db').
  { intros e' Hsame Hv Hid Hn Hev Hne.
  destruct (append_next db op e e' Hi El Hsame Hv) as (db' & Hins & _ & Hl); [by rewrite Hid|done..|].
  exists db'. split_and!; [done..|]. intros m' id'. unfold begin_consequence.
  by rewrite Hl, bool_decide_eq_false_2. }
  unfold begin_consequence at 1 2. rewrite El, bool_decide_eq_true_2 by done. simpl.
  destruct (refusal_reason _ e) as [reason|].
  - destruct (Hdone (fence_event (d_mounts db !! m) e reason id)) as (db' & Hins & Hl & Ha); try done;
    [apply next_event_follows; left; rewrite Est; simpl; set_solver|by apply evidence_mk|].
  rewrite Hins. exists db'. split_and!; [done..| |done]. eexists. split_and!; [exact Hl|done..].
  - destruct (Hdone (started_event (d_mounts db !! m) e id)) as (db' & Hins & Hl & Ha); try done;
    [apply next_event_follows; left; rewrite Est; simpl; set_solver|apply evidence_mk; by right|].
  rewrite Hins. exists db'. split_and!; [done..| |done]. eexists. split_and!; [exact Hl|done..].
Qed.

(** What the fence leaves behind when it lets the caller wait. *)
Lemma terminate_allow db m p w st :
  match terminate_fence m p w st db with
  | Ret (dec, reason, wait) db' =>
    (wait = true -> dec = ALLOW /\ exists row, d_mounts db' !! m = Some row /\ mr_terminated row = true)
    /\ (dec = ALLOW -> wait = true)
  | _ => False
  end.
Proof.
  unfold terminate_fence. destruct (d_mounts db !! m) as [row|] eqn:Em; [|done].
  destruct (owned_by _ _ _ _); simpl; [|done].
  destruct (mr_terminated row) eqn:Et; [split; [|done]; intros _; split; [done|]; eauto|].
  destruct (bool_decide _); simpl; [|done].
  set (db1 := mark_mount_revoked _ _).
  destruct (revoke_lease_ok db1 m) as (db2 & -> & (Hm & _) & _). split; [|done]. intros _. split; [done|].
  rewrite Hm. simpl. rewrite lookup_insert_eq. eauto.
Qed.

(** An operation whose latest event was written before was in that event
    before. *)
Lemma latest_earlier db db' op e :
  cinv db -> cinv db' -> mounts_le db db' -> latest_event db' op = Some e -> e ∈ d_events db ->
  latest_event db op = Some e.
Proof.
  intros Hi Hi' (_ & _ & zs & Hzs) El He.
  destruct (latest_event_elem _ _ _ Hi' El) as [Ho _].
  rewrite latest_event_last in * by done.
  assert (Hev : events_of db' op = events_of db op ++ filter (fun e => ce_op e = op) zs).
  { unfold events_of. by rewrite Hzs, filter_app. }
  assert (Hin : e ∈ events_of db op) by (by apply events_of_elem).
  apply list_elem_of_lookup in Hin as [i Hin]. pose proof (stream_version _ _ _ (Hi op) Hin) as Hv.
  pose proof (stream_last_version _ _ (Hi' op) El) as Hlv. rewrite Hev, length_app in Hlv.
  apply lookup_lt_Some in Hin as Hlt. rewrite last_lookup.
  replace (pred (length (events_of db op))) with i by lia. done.
Qed.

(** A wait that ends: the polls before the one that decided. *)
Lemma settle_result poll clock m deadline fuel i ops :
  settle_in_flight poll clock m deadline fuel i = Some ops ->
  exists n, (i <= n < i + fuel)%nat /\ ops = in_flight_operations (poll n) m
  /\ (ops = [] \/ deadline <= clock n).
Proof.
  revert i. induction fuel as [|fuel IH]; intros i Hs; [done|]. simpl in Hs.
  destruct (bool_decide (in_flight_operations (poll i) m = []) || (deadline <=? clock i)) eqn:E.
  - injection Hs as <-. exists i. split_and!; [lia|lia|done|].
  apply orb_true_iff in E as [E|E]; [left; by apply bool_decide_eq_true in E|right; lia].
  - destruct (IH _ Hs) as (n & Hn & Hops & Hd). exists n. split_and!; [lia|lia|done..].
Qed.

Lemma settle_total poll clock m deadline n : forall fuel i,
  deadline <= clock (i + n)%nat -> (n < fuel)%nat ->
  exists ops, settle_in_flight poll clock m deadline fuel i = Some ops.
Proof.
  induction n as [|n IH]; intros fuel i Hc Hf; (destruct fuel as [|fuel]; [lia|]); simpl.
  - rewrite Nat.add_0_r in Hc. rewrite (proj2 (Z.leb_le _ _) Hc), orb_true_r. eauto.
  - destruct (_ || _); [eauto|]. apply IH; [|lia]. by replace (S i + n)%nat with (i + S n)%nat by lia.
Qed.

(** C28: what "terminated" promises.  Let the tables evolve from the fence by
    steps of the service, poll after poll.  If [terminate_with_in_flight]
    answers ALLOW without in-flight operations, then at some poll no
    operation of the mount was AUTHORIZED or STARTED, and from that poll on
    no operation of the mount is ever in a claimed start again.  If it names
    operations, the deadline had passed at the poll it reports.  And it
    answers: once the clock reaches the deadline at poll [n], more than [n]
    polls are enough. *)
Theorem terminated_is_final db0 db m p w st poll clock deadline fuel dbf :
  d_events db0 = [] -> steps cstep db0 db ->
  oworld (terminate_fence m p w st db) = dbf ->
  (forall i, steps cstep dbf (poll dbf i)) ->
  (exists n, deadline <= clock n /\ (n < fuel)%nat) ->
  exists dec reason ops,
  terminate_with_in_flight m p w st poll clock deadline fuel db = Ret (Some (dec, reason, ops)) dbf
  /\ (dec = ALLOW ->
    (exists row, d_mounts dbf !! m = Some row /\ mr_terminated row = true)
    /\ exists n, ops = in_flight_operations (poll dbf n) m
      /\ (ops <> [] -> deadline <= clock n)
      /\ (ops = [] -> forall db', steps cstep (poll dbf n) db' ->
           forall op e, latest_event db' op = Some e -> ce_mount e = m -> ~ start_claim_of e)).
Proof.
  intros H0' Hs Hdbf Hpoll (n & Hn & Hf).
  pose proof (steps_cinv _ _ (cinv_empty _ H0') Hs) as Hi.
  unfold terminate_with_in_flight. pose proof (terminate_allow db m p w st) as Hal.
  destruct (terminate_fence m p w st db) as [[[dec rsn] wait] db1| |] eqn:Et; try done. simpl in *.
  subst dbf. assert (Hi1 : cinv db1).
  { change db1 with (oworld (Ret (E:=cerr) (dec, rsn, wait) db1)). rewrite <- Et.
  apply (step_grows db); [done|]. apply ce_terminate. }
  destruct wait.
  - destruct (settle_total (poll db1) clock m deadline n fuel 0 Hn Hf) as [os Hos]. rewrite Hos.
  apply settle_result in Hos as (k & _ & Hk & Hd).
  exists dec, (match os with [] => rsn | _ => "terminated_in_flight" end), os.
  split; [by destruct os|]. intros _. destruct Hal as [Hal _].
  destruct (Hal eq_refl) as [Hdec (row & Hrow & Hterm)].
  split; [eauto|]. exists k.
  split_and!; [done|by destruct Hd|]. intros Hnil db' Hs' op e El Hm Hsc. subst os.
  pose proof (steps_cinv _ _ Hi1 (Hpoll k)) as Hik.
  pose proof (steps_cinv _ _ Hik Hs') as Hi'.
  destruct (latest_event_elem _ _ _ Hi' El) as [Ho He].
  destruct (steps_mounts _ _ Hik Hs') as (_ & _ & zs & Hzs).
  rewrite Hzs in He. apply elem_of_app in He as [He|He].
  + assert (Hin : op ∈ in_flight_operations (poll db1 k) m); [|rewrite Hnil in Hin; by apply not_elem_of_nil in Hin].
    apply in_flight_spec; [done|]. exists e. split_and!; [|done|destruct Hsc as [-> _]; set_solver].
    apply (latest_earlier _ db'); [done|done|by apply steps_mounts|done|done].
  + assert (Hex : exists row', d_mounts (poll db1 k) !! ce_mount e = Some row' /\ mr_terminated row' = true).
    { destruct (steps_mounts _ _ Hi1 (Hpoll k)) as (Hmm & _). rewrite Hm.
      destruct (Hmm _ _ Hrow) as (row' & Hr' & [_ L _]). eauto. }
    destruct Hex as (row' & Hr' & Ht').
    destruct (run_starts _ _ e Hik Hs') as (mid & Hmid & Hso & _); [by rewrite Hzs, drop_app_length|apply Hsc|].
    destruct (claim_started_under _ _ Hso Hsc) as (r & Hr & Hnt & _).
    destruct (steps_mounts _ _ Hik Hmid) as (Hmm & _). destruct (Hmm _ _ Hr') as (r'' & Hr'' & [_ L _]).
    rewrite Hr in Hr''. injection Hr'' as <-. rewrite (L Ht') in Hnt. done.
  - do 3 eexists. split; [done|]. intros ->. by destruct Hal as [_ Hal]; specialize (Hal eq_refl).
Qed.

(** The key order of a proof subject. *)
Lemma proof_subject_sorted v1 v2 v3 v4 v5 v6 :
  merge_sort key_le [("operation_id", v1); ("intent_hash", v2); ("previous_truth_state", v3);
  ("asserted_truth_state", v4); ("consequence_identity", v5); ("canonical_asserted_proposition", v6)]
  = [("asserted_truth_state", v4); ("canonical_asserted_proposition", v6); ("consequence_identity", v5);
   ("intent_hash", v2); ("operation_id", v1); ("previous_truth_state", v3)].
Proof. vm_compute. reflexivity. Qed.

Lemma proof_subject_text a1 a2 a3 a4 a5 a6 :
  build_proof_subject_hash a1 a2 a3 a4 a5 a6
  = sha256_hex ("{" +:+ members [("asserted_truth_state", a4); ("canonical_asserted_proposition", a6);
    ("consequence_identity", a5); ("intent_hash", a2); ("operation_id", a1); ("previous_truth_state", a3)]
    +:+ "}").
Proof.
  unfold build_proof_subject_hash, sha256_json, py_dumps. cbn [dumps_with map fst snd].
  rewrite proof_subject_sorted. reflexivity.
Qed.

(** A proof subject hash binds its six fields.  Two equal hashes come
    from equal operation id, intent hash, previous state, asserted state,
    consequence identity and proposition, or exhibit a SHA-256 collision:
    the canonical JSON text leaves no ambiguity between fields, whatever
    characters they contain. *)
Theorem proof_subject_binds a1 a2 a3 a4 a5 a6 b1 b2 b3 b4 b5 b6 :
  build_proof_subject_hash a1 a2 a3 a4 a5 a6 = build_proof_subject_hash b1 b2 b3 b4 b5 b6 ->
  (a1 = b1 /\ a2 = b2 /\ a3 = b3 /\ a4 = b4 /\ a5 = b5 /\ a6 = b6)
  \/ exists x y, x <> y /\ sha256_hex x = sha256_hex y.
Proof.
  rewrite !proof_subject_text. intros Hh. match type of Hh with sha256_hex ?x = sha256_hex ?y =>
  destruct (decide (x = y)) as [Hxy|Hxy]; [left|right; by exists x, y] end.
  apply string_app_inj in Hxy.
  apply (members_inj _ _ "" "") in Hxy; [|reflexivity].
  by injection Hxy as -> -> -> -> -> ->.
Qed.
End properties.
