(* ===== verification/MountProperties.v ===== *)
(** * Properties of mount authority, redemption and the lifecycle executor *)

From Stdlib Require Import ZArith Lia Ascii String.
From stdpp Require Import base gmap strings list pretty sorting.
From S2P Require Import Prelude Canon PyJson MountModels Lease Consequence Mounts Permits ConsequenceProofs.

Local Open Scope Z_scope.

(** ** Reading an ALLOW off the operations *)

Lemma claim_allow m t n op p w now db reason db' :
  claim_start m t n op p w now db = Ret (ALLOW, reason) db' ->
  exists row, d_mounts db !! m = Some row /\ owned_by m row p w = true /\ mr_terminated row = false
    /\ now < mr_expires_at row /\ mr_nonce_consumed row = false /\ mr_token_id row = t /\ mr_nonce row = n
    /\ ((reason = "start_claim_replayed" /\ mr_start_claim row = Some op /\ db' = db)
        \/ (reason = "start_claimed" /\ mr_start_claim row = None
            /\ db' = set_mount db m (with_claim row op now))).
Proof.
  unfold claim_start. intros Hc. destruct (d_mounts db !! m) as [row|] eqn:Em; [|done]. exists row.
  destruct (owned_by m row p w) eqn:Eo; [|done]. simpl in Hc.
  destruct (mr_terminated row) eqn:Et; [done|].
  destruct (mr_expires_at row <=? now) eqn:Ee; [done|]. apply Z.leb_gt in Ee.
  destruct (mr_nonce_consumed row) eqn:En; [done|].
  destruct (negb (str_eqb t (mr_token_id row)) || negb (str_eqb n (mr_nonce row))) eqn:Ek; [done|].
  apply orb_false_iff in Ek as [Ek1 Ek2]. apply negb_false_iff, str_eqb_spec in Ek1, Ek2.
  split_and!; try done.
  destruct (bool_decide (mr_start_claim row = Some op)) eqn:E1.
  - apply bool_decide_eq_true in E1. injection Hc as <- <-. by left.
  - destruct (bool_decide (mr_start_claim row <> None)) eqn:E2; [done|].
    apply bool_decide_eq_false in E2. apply dec_stable in E2. injection Hc as <- <-. by right.
Qed.

Section properties.
Context `{Ext, Mac}.

Lemma redeem_allow k1 k2 keys op pm pl sink sg now db reason db' :
  redeem_consequence k1 k2 keys op pm pl sink sg now db = Ret (ALLOW, reason) db' ->
  exists key s pinned e row, permit_key k1 k2 = Some key /\ sink = Some s /\ keys s = Some pinned
  /\ target_signature_valid pinned (py_or sg "") (redeem_message op pl pm s) = true
  /\ latest_event db op = Some e /\ ce_state e = C_STARTED
  /\ d_mounts db !! ce_mount e = Some row /\ mr_terminated row = false /\ now < mr_expires_at row
  /\ mint_permit key op (ce_mount e) (ce_receipt e) pl s = Ok pm
  /\ d_redeemed db !! op = None
  /\ db' = set_redeemed db (<[op := mk_redemption (ce_mount e) (ce_receipt e) pl s]> (d_redeemed db)).
Proof.
  unfold redeem_consequence. intros Hr. destruct (permit_key k1 k2) as [key|]; [|done].
  destruct (str_eqb (py_or sink "") "") eqn:E1; [done|].
  destruct sink as [s|]; [|done]. simpl in *. destruct (str_eqb s "") eqn:Es; [done|].
  destruct (str_eqb (py_or (keys s) "") "") eqn:E2; [done|].
  destruct (keys s) as [pinned|] eqn:Ek; [|done]. simpl in *. destruct (str_eqb pinned "") eqn:Ep; [done|].
  destruct (target_signature_valid _ _ _) eqn:Et; [|done]. simpl in Hr.
  unfold redeem_locked in Hr. destruct (latest_event db op) as [e|] eqn:El; [|done].
  destruct (str_eqb (ce_mount e) ""); [done|].
  destruct (d_mounts db !! ce_mount e) as [row|] eqn:Em; [|done].
  destruct (mr_terminated row) eqn:Etm; [done|].
  destruct (mr_expires_at row <=? now) eqn:Ee; [done|]. apply Z.leb_gt in Ee.
  destruct (bool_decide (ce_state e = C_STARTED)) eqn:Est; [|done]. apply bool_decide_eq_true in Est.
  simpl in Hr. destruct (permit_matches _ _ _ _ _ _ _) as [[]|] eqn:Epm; try done.
  destruct (d_redeemed db !! op) eqn:Er; [done|]. injection Hr as _ <-.
  unfold permit_matches in Epm. res_inv Epm. injection Epm as Epm. apply str_eqb_spec in Epm as ->.
  exists key, s, pinned, e, row. by split_and!.
Qed.

(** One start per mount.  After a claim was granted, and along any
    steps, a claim on that mount is granted only to the same operation (as
    a replay); a grant is never given on a terminated or expired mount, to a
    caller who does not own it, or for another token or nonce. *)
Theorem claim_start_exclusive db db1 db2 db3 m t n op p w now r t' n' op' p' w' now' r' :
  cinv db -> claim_start m t n op p w now db = Ret (ALLOW, r) db1 ->
  steps cstep db1 db2 -> claim_start m t' n' op' p' w' now' db2 = Ret (ALLOW, r') db3 ->
  op' = op /\ r' = "start_claim_replayed" /\ db3 = db2
  /\ exists row, d_mounts db2 !! m = Some row /\ mr_terminated row = false /\ now' < mr_expires_at row
     /\ owned_by m row p' w' = true /\ mr_token_id row = t' /\ mr_nonce row = n'.
Proof.
  intros Hi H1 Hs H2.
  assert (Hi1 : cinv db1).
  { change db1 with (oworld (Ret (E:=cerr) (ALLOW, r) db1)). rewrite <- H1.
  apply (step_grows db); [done|]. apply ce_claim. }
  apply claim_allow in H1 as (row & Hm & _ & _ & _ & _ & _ & _ & Hc).
  assert (Hc1 : exists row1, d_mounts db1 !! m = Some row1 /\ mr_start_claim row1 = Some op).
  { destruct Hc as [(_ & ? & ->)|(_ & _ & ->)]; [eauto|]. simpl. rewrite lookup_insert_eq. eauto. }
  destruct Hc1 as (row1 & Hm1 & Hc1).
  destruct (steps_mounts _ _ Hi1 Hs) as (Hmm & _). destruct (Hmm _ _ Hm1) as (row2 & Hm2 & [_ _ Hcl]).
  apply claim_allow in H2 as (row3 & Hm3 & Ho & Ht & He & _ & Htk & Hno & Hc2).
  rewrite Hm2 in Hm3. injection Hm3 as <-. rewrite (Hcl _ Hc1) in Hc2.
  destruct Hc2 as [(-> & [= ->] & ->)|(_ & ? & _)]; [|done]. split_and!; try done. by exists row2.
Qed.

(** C31: a permit is redeemed at most once.  A redemption is allowed only
    for an operation CAPPO itself dispatched (its latest event is STARTED),
    on a mount that is live and unexpired, to a target whose pinned key
    signed exactly this redemption, with the permit minted for this
    operation, mount, receipt, payload and target; and after it, along any
    steps, no redemption of that operation is allowed. *)
Theorem redeem_once db db1 db2 k1 k2 keys op pm pl sink sg now r k1' k2' keys' pm' pl' sink' sg' now' r' db3 :
  cinv db -> redeem_consequence k1 k2 keys op pm pl sink sg now db = Ret (ALLOW, r) db1 ->
  steps cstep db1 db2 ->
  (exists key s pinned e row, permit_key k1 k2 = Some key /\ sink = Some s /\ keys s = Some pinned
  /\ target_signature_valid pinned (py_or sg "") (redeem_message op pl pm s) = true
  /\ latest_event db op = Some e /\ ce_state e = C_STARTED
  /\ d_mounts db !! ce_mount e = Some row /\ mr_terminated row = false /\ now < mr_expires_at row
  /\ mint_permit key op (ce_mount e) (ce_receipt e) pl s = Ok pm)
  /\ redeem_consequence k1' k2' keys' op pm' pl' sink' sg' now' db2 <> Ret (ALLOW, r') db3.
Proof.
  intros Hi H1 Hs.
  assert (Hi1 : cinv db1).
  { change db1 with (oworld (Ret (E:=cerr) (ALLOW, r) db1)). rewrite <- H1.
  apply (step_grows db); [done|]. apply ce_redeem. }
  apply redeem_allow in H1 as (key & s & pinned & e & row & ? & ? & ? & ? & ? & ? & ? & ? & ? & ? & _ & Hd).
  split; [exists key, s, pinned, e, row; by split_and!|]. intros Hagain.
  apply redeem_allow in Hagain as (? & ? & ? & ? & ? & _ & _ & _ & _ & _ & _ & _ & _ & _ & _ & Hn & _).
  destruct (steps_mounts _ _ Hi1 Hs) as (_ & Hr & _). erewrite (Hr op) in Hn; [done|].
  rewrite Hd. simpl. apply lookup_insert_eq.
Qed.

(** Incarnation handover.  A successful handover moves the mount to the
    next epoch and incarnation, chains its history head to the previous one
    and installs the new token and nonce; from then on a claim with the old
    token is refused, and an operation authorized on the mount before it is
    refused at the fence as stale_authority_epoch. *)
Theorem handover_retires_predecessor db db' m h r p w t n res row :
  d_mounts db !! m = Some row ->
  handover_incarnation m h r p w t n db = Ret res db' ->
  t <> mr_token_id row ->
  (exists row', d_mounts db' !! m = Some row' /\ mr_epoch row < mr_epoch row' /\ mr_epoch row' = ho_epoch res
   /\ mr_token_id row' = t /\ mr_nonce row' = n /\ mr_terminated row' = false
   /\ cn_previous_history_head (mr_continuity row') = Some (ho_previous_head res)
   /\ cn_history_head (mr_continuity row')
      = Some (chained_head (ho_previous_head res) m (ho_previous_epoch res) (ho_epoch res) h t)
   /\ (forall head, cn_history_head (mr_continuity row) = Some head -> head <> "" ->
       ho_previous_head res = head))
  /\ (forall op p' w' now reason db2,
      claim_start m (mr_token_id row) (mr_nonce row) op p' w' now db' <> Ret (ALLOW, reason) db2)
  /\ (forall op e ep id, latest_event db op = Some e -> ce_state e = C_AUTHORIZED ->
      ce_epoch e = Some ep -> ep <= mr_epoch row ->
      exists db2, begin_consequence m op id db' = Raise (ExecutionTerminatedError "stale_authority_epoch") db2).
Proof.
  intros Hm Hh Hne. unfold handover_incarnation in Hh. rewrite Hm in Hh.
  destruct (owned_by m row p w); [|done]. simpl in Hh.
  destruct (mr_terminated row) eqn:Et; [done|]. destruct (token_conflict _ _ _ _); [done|].
  injection Hh as <- <-.
  match goal with |- context [align_lease ?d ?a ?b] => destruct (align_lease_same d a b) as (Hd & He & _) end.
  simpl in Hd, He. set (db' := align_lease _ _ _) in *.
  assert (Hm' : exists row', d_mounts db' !! m = Some row' /\ mr_epoch row' = epoch_or_1 (mr_epoch row) + 1
  /\ mr_token_id row' = t /\ mr_terminated row' = false).
  { rewrite Hd, lookup_insert_eq. eexists. split_and!; [done..|]. simpl. done. }
  pose proof (epoch_up (mr_epoch row)) as Hup. split_and!.
  - rewrite Hd, lookup_insert_eq. eexists. simpl. split_and!; try done.
  intros head -> Hhd. simpl. by rewrite (proj2 (str_eqb_neq head "") Hhd).
  - intros op p' w' now reason db2 Hc. apply claim_allow in Hc as (row2 & Hm2 & _ & _ & _ & _ & Htk & _).
  destruct Hm' as (row' & Hm' & _ & Ht & _). congruence.
  - intros op e ep id El Est Hep Hle. destruct Hm' as (row' & Hm' & Hepo & _ & Hnt).
  unfold begin_consequence.
  assert (latest_event db' op = Some e) as ->.
  { unfold latest_event, events_of in *. by rewrite He. }
  rewrite bool_decide_eq_true_2 by done. simpl. rewrite Hm'. simpl. rewrite Hnt, Hep.
  rewrite (proj2 (Z.eqb_neq _ _)) by lia. eauto.
Qed.

(** The outcome an execution leaves. *)
Definition recorded (db : cdb) (op : string) (s : ConsequenceState) (proof : option string) : Prop :=
  exists e, latest_event db op = Some e /\ ce_state e = s /\ ce_proof_type e = proof.

Lemma complete_records db op e ok unc er pt pr id :
  cinv db -> latest_event db op = Some e -> ce_state e = C_STARTED ->
  (forall r, r ∈ d_events db -> ce_id r <> id) ->
  exists ev db', recorder_complete op ok unc er pt pr id db = Ret ev db' /\ latest_event db' op = Some ev
  /\ ce_state ev = (if unc then C_OUTCOME_UNKNOWN else if ok then C_SUCCEEDED else C_FAILED)
  /\ ce_proof_type ev = Some (if unc then "outcome_uncertain" else if ok then pt
                              else py_or (Some pt) "callback_exception").
Proof.
  intros Hi El Est Hf. unfold recorder_complete. rewrite El, bool_decide_eq_true_2 by done. simpl.
  set (t := if unc then C_OUTCOME_UNKNOWN else _).
  assert (Ht : t ∈ C_ALLOWED C_STARTED) by (subst t; destruct unc, ok; simpl; set_solver).
  rewrite bool_decide_eq_true_2 by done. simpl. set (ev := next_event _ _ _ _ _ _ _ _).
  destruct (append_next db op e ev Hi El) as (db' & -> & _ & Hl); try done.
  - apply next_event_follows. left. by rewrite Est.
  - subst ev t. apply evidence_mk. destruct unc; [done|]. destruct ok; by eexists.
  - exists ev, db'. by split_and!.
Qed.

Lemma begin_records db rid op intent rs id1 id2 db1 :
  cinv db -> recorder_begin rid op intent rs id1 id2 db = Ret tt db1 ->
  cinv db1 /\ exists e, latest_event db1 op = Some e /\ ce_state e = C_STARTED /\ ce_intent e = intent
  /\ ce_proof_type e = None.
Proof.
  intros Hi Hb. assert (Hi1 : cinv db1).
  { change db1 with (oworld (Ret (E:=cerr) tt db1)). rewrite <- Hb. by apply rec_begin_grows. }
  split; [done|]. revert Hb. unfold recorder_begin. destruct (d_receipts db !! rid) as [r|]; [|done].
  destruct (negb _); [done|]. destruct (latest_event db op); [by destruct (negb _)|].
  destruct (insert_event db _) as [dba|] eqn:E1; [|done].
  destruct (insert_event dba _) as [dbb|] eqn:E2; [|done]. intros [= <-].
  apply insert_event_Some in E2 as [_ ->]. rewrite latest_event_last, events_of_snoc by done. simpl.
  rewrite decide_True, last_snoc by done. eauto.
Qed.

End properties.
