(* ===== verification/MountDemo.v ===== *)
(** * A concrete mount

    Runs of the mount service on a concrete outside world: the witnesses of
    the consequence and mount properties, and the run in which the in-flight
    set of a terminated mount grows. *)

From Stdlib Require Import ZArith Lia Ascii String.
From stdpp Require Import base gmap strings list pretty sorting.
From S2P Require Import Prelude Canon VdbExample PyJson MountModels Lease LeaseProperties Consequence Mounts Permits ConsequenceProofs ConsequenceProperties MountProperties.

Local Open Scope Z_scope.

#[export] Instance demo_mac : Mac := {|
  hmac_raw := fun k m => checksum (k +:+ m);
  hmac_hex := fun k m => checksum (k +:+ m);
  sha256_raw := checksum |}.

Definition demo_grants : Grants :=
  mk_grants ["counter.read"] ["counter.increment"] [] ["counter.reset"] [] [] None.
Definition demo_record : mrecord :=
  mk_mrecord (mk_token "tok-1" "mnt-1" "exec-1" "veklom.governed-counter@v1" "ws-1" "sandbox" demo_grants
                default_policy 0 1000 600 "nonce-1") (Some "biscuit-1") None None None None.

Definition demo_row : mount_row :=
  mk_mount_row "tok-1" "nonce-1" "alice" "ws-1" demo_record (mk_continuity None None None None None)
    1000 1 false false None None.

Definition demo_receipt : receipt :=
  mk_receipt "rcpt-1" "mnt-1" "exec-1" "alice" "counter.increment" (Some "counter") "allow" "tok-1" None None None "confirmed".

Definition demo0 : cdb :=
  mk_cdb {["mnt-1" := demo_row]} [] {["rcpt-1" := demo_receipt]} [demo_lease L_ACTIVE ["*"]] ∅ ∅ ∅.

Definition demo_authorized (op id : string) : cevent :=
  authorized_row "mnt-1" demo_row "counter.increment" (Some "counter") op "intent-1" "rcpt-1" id.

(** Authorized, started, terminated. *)
Definition demo1 : cdb := set_events demo0 [demo_authorized "op-1" "evt-1"].
Definition demo2 : cdb := oworld (begin_consequence "mnt-1" "op-1" "evt-2" demo1).
Definition demo3 : cdb := oworld (terminate_fence "mnt-1" "alice" (Some "ws-1") "confirmed" demo2).

Lemma demo1_step : cstep demo0 demo1.
Proof.
  apply (ce_authorize demo0 demo1 "mnt-1" demo_row demo_row "counter.increment" (Some "counter") "op-1"
           "intent-1" "rcpt-1" "evt-1"); [reflexivity|lia|vm_compute; reflexivity].
Qed.

Lemma demo2_step : cstep demo1 demo2.
Proof. apply ce_begin. exists (demo_authorized "op-1" "evt-1"). split; [by left|done]. Qed.

Lemma demo1_steps : steps cstep demo0 demo1.
Proof. eapply steps_snoc; [apply steps_refl|apply demo1_step]. Qed.
Lemma demo2_steps : steps cstep demo0 demo2.
Proof. eapply steps_snoc; [apply demo1_steps|apply demo2_step]. Qed.
Lemma demo3_steps : steps cstep demo0 demo3.
Proof. eapply steps_snoc; [apply demo2_steps|]. apply ce_terminate. Qed.

Lemma demo1_cinv : cinv demo1.
Proof. eapply steps_cinv; [|apply demo1_steps]. by apply cinv_empty. Qed.
Lemma demo2_cinv : cinv demo2.
Proof. eapply steps_cinv; [|apply demo2_steps]. by apply cinv_empty. Qed.

(** The in-flight set of a terminated mount can grow.  [evaluate] commits
    before [cappo_evaluator] commits the AUTHORIZED event, so a termination
    between the two answers with no operation in flight, after which the
    event appears: the comment of [_settle_in_flight] that the set can only
    shrink does not hold of AUTHORIZED operations.  (They still cannot
    start.) *)
Theorem in_flight_can_grow :
  exists db db' row, steps cstep demo0 db /\ d_mounts db !! "mnt-1" = Some row /\ mr_terminated row = true
    /\ in_flight_operations db "mnt-1" = [] /\ cstep db db'
    /\ in_flight_operations db' "mnt-1" = ["op-2"].
Proof.
  set (db := oworld (terminate_fence "mnt-1" "alice" (Some "ws-1") "confirmed" demo0)).
  exists db, (set_events db [demo_authorized "op-2" "evt-9"]), (with_epoch demo_row 2 true). split_and!.
  - eapply steps_snoc; [apply steps_refl|]. apply ce_terminate.
  - vm_compute. reflexivity.
  - vm_compute. reflexivity.
  - vm_compute. reflexivity.
  - apply (ce_authorize db _ "mnt-1" demo_row (with_epoch demo_row 2 true) "counter.increment" (Some "counter") "op-2"
             "intent-1" "rcpt-1" "evt-9"); [vm_compute; reflexivity|simpl; lia|vm_compute; reflexivity].
  - vm_compute. reflexivity.
Qed.


Lemma fence_blocks_start_witness : mr_terminated demo_row = false.
Proof.
  destruct (fence_blocks_start demo0 demo1 demo2 (started_event (Some demo_row) (demo_authorized "op-1" "evt-1") "evt-2")
           demo_row) as [(_ & Ht & _)|[Hn _]].
  - reflexivity.
  - apply demo1_steps.
  - eapply steps_snoc; [apply steps_refl|apply demo2_step].
  - vm_compute. by left.
  - reflexivity.
  - reflexivity.
  - exact Ht.
  - vm_compute in Hn. discriminate Hn.
Defined.

Lemma begin_decides_witness :
  exists db', oworld (begin_consequence "mnt-1" "op-1" "evt-2" demo1) = db' /\
    forall m' id', begin_consequence m' "op-1" id' db' = Ret false db'.
Proof.
  destruct (begin_decides demo1 "mnt-1" "op-1" "evt-2" (demo_authorized "op-1" "evt-1")) as (db' & H1 & _ & _ & H2).
  - apply demo1_cinv.
  - reflexivity.
  - reflexivity.
  - intros r Hr. apply list_elem_of_singleton in Hr as ->. done.
  - exists db'. split; [exact H1|exact H2].
Defined.

(** The started operation settles during the second poll. *)
Definition demo_settled : cdb :=
  oworld (report_commit (started_event (Some demo_row) (demo_authorized "op-1" "evt-1") "evt-2") true None false
            "callback_return" "evt-3" demo3).
Definition demo_poll (db : cdb) (i : nat) : cdb := match i with 0%nat => demo3 | _ => demo_settled end.

Lemma terminated_is_final_witness :
  exists dec reason ops,
    terminate_with_in_flight "mnt-1" "alice" (Some "ws-1") "confirmed" demo_poll Z.of_nat 5 10 demo2
    = Ret (Some (dec, reason, ops)) demo3.
Proof.
  destruct (terminated_is_final demo0 demo2 "mnt-1" "alice" (Some "ws-1") "confirmed" demo_poll Z.of_nat 5 10 demo3)
    as (dec & reason & ops & H1 & _).
  - reflexivity.
  - apply demo2_steps.
  - reflexivity.
  - intros [|i]; [apply steps_refl|]. eapply steps_snoc; [apply steps_refl|]. apply ce_report.
    vm_compute. right. by left.
  - exists 5%nat. split; lia.
  - exists dec, reason, ops. exact H1.
Defined.

Lemma proof_subject_binds_witness :
  ("op" = "op" /\ "h" = "h" /\ "none" = "none" /\ "authorized" = "authorized" /\ "r" = "r" /\ "p" = "p")
  \/ exists x y, x <> y /\ sha256_hex x = sha256_hex y.
Proof. apply (proof_subject_binds "op" "h" "none" "authorized" "r" "p"). reflexivity. Defined.

Definition demo_claimed : cdb := set_mount demo0 "mnt-1" (with_claim demo_row "op-1" 5).

Lemma claim_start_exclusive_witness : "op-1" = "op-1" /\ "start_claim_replayed" = "start_claim_replayed".
Proof.
  destruct (claim_start_exclusive demo0 demo_claimed demo_claimed demo_claimed "mnt-1" "tok-1" "nonce-1" "op-1" "alice"
              (Some "ws-1") 5 "start_claimed" "tok-1" "nonce-1" "op-1" "alice" (Some "ws-1") 6 "start_claim_replayed")
    as (H1 & H2 & _).
  - by apply cinv_empty.
  - vm_compute. reflexivity.
  - apply steps_refl.
  - vm_compute. reflexivity.
  - split; [exact H1|exact H2].
Defined.

(** A target "t" with the pinned key "AA" (hex 4141). *)
Definition demo_keys (s : string) : option string := if str_eqb s "t" then Some "4141" else None.
Definition demo_key : string := sha256_raw (DOMAIN +:+ "|explicit|" +:+ "k").
Definition demo_permit : string :=
  hmac_hex demo_key (DOMAIN +:+ nl +:+ permit_message "op-1" "mnt-1" (Some "rcpt-1") "payload" "t").
Definition hex_of (s : string) : string :=
  string_of_list_ascii (concat (map (fun c => [hex_digit (nat_of_ascii c / 16); hex_digit (nat_of_ascii c mod 16)])
    (chars s))).
Definition demo_sig : string := hex_of (ed_sign "AA" (redeem_message "op-1" "payload" demo_permit "t")).
Definition demo_redeemed : cdb :=
  set_redeemed demo2 {["op-1" := mk_redemption "mnt-1" (Some "rcpt-1") "payload" "t"]}.

Lemma redeem_once_witness :
  redeem_consequence (Some "k") None demo_keys "op-1" demo_permit "payload" (Some "t") (Some demo_sig) 5 demo_redeemed
  <> Ret (ALLOW, "redeemed") demo_redeemed.
Proof.
  apply (redeem_once demo2 demo_redeemed demo_redeemed (Some "k") None demo_keys "op-1" demo_permit "payload" (Some "t")
           (Some demo_sig) 5 "redeemed").
  - apply demo2_cinv.
  - vm_compute. reflexivity.
  - apply steps_refl.
Defined.

Definition demo_handover := handover_incarnation "mnt-1" "dec" "successor_handover" "alice" (Some "ws-1") "tok-2" "nonce-2" demo1.
Definition demo_ho : handover_result :=
  match demo_handover with Ret r _ => r | _ => mk_handover 0 0 0 "" "" "" "" end.

Lemma handover_retires_predecessor_witness :
  exists db2, begin_consequence "mnt-1" "op-1" "evt-2" (oworld demo_handover)
              = Raise (ExecutionTerminatedError "stale_authority_epoch") db2.
Proof.
  destruct (handover_retires_predecessor demo1 (oworld demo_handover) "mnt-1" "dec" "successor_handover" "alice"
              (Some "ws-1") "tok-2" "nonce-2" demo_ho demo_row) as (_ & _ & H3).
  - reflexivity.
  - vm_compute. reflexivity.
  - done.
  - apply (H3 "op-1" (demo_authorized "op-1" "evt-1") 1 "evt-2"); [reflexivity|reflexivity|reflexivity|simpl; lia].
Defined.

Definition demo_begun : cdb := oworld (recorder_begin "rcpt-1" "op-7" "intent-7" None "a" "b" demo0).
Definition demo_delegate : eff cerr cdb json := fun db => Raise (ProviderExecutionError "502") db.

