(* ===== verification/Correspondence.v ===== *)
(** * The TLA+ correspondence layer (cappo_backend/formal/p5_correspondence.py)

    The trace record, the map from (previous state, next state, write site)
    to TLA+ actions, the trace and model-gap verifiers, the scan of
    service.py for write sites, and the trace extractor; with the theorem
    that relates them to the events the modelled service writes. *)

From Stdlib Require Import ZArith Lia Ascii String.
From stdpp Require Import base gmap strings list pretty sorting.
From S2P Require Import Prelude Canon VdbExample PyJson MountModels Lease Consequence Mounts Permits ConsequenceProofs ConsequenceProperties MountDemo.

Record TruthTransitionTrace := mk_trace {
  tt_operation_id : string; tt_event_index : Z; tt_previous : string; tt_next : string;
  tt_intent_hash : string; tt_identity : string; tt_proof_type : string; tt_subject_hash : string;
  tt_actor : string }.

Definition PYTHON_TO_TLA : list (string * string * string * string) :=
  [("none", "authorized", "cappo_evaluator", "Authorize");
   ("authorized", "started", "begin_consequence", "Start");
   ("started", "succeeded", "completion_reporter", "CompleteSucceeded");
   ("started", "failed", "completion_reporter", "CompleteFailed");
   ("started", "outcome_unknown", "completion_reporter", "EnterUnknown");
   ("outcome_unknown", "outcome_unknown", "completion_reporter", "EnterUnknown");
   ("outcome_unknown", "reconciled_succeeded", "completion_reporter", "ReconcileSucceeded");
   ("outcome_unknown", "reconciled_failed", "completion_reporter", "ReconcileFailed");
   ("started", "succeeded", "direct_orm_bypass", "ForgeState");
   ("authorized", "succeeded", "direct_orm_bypass", "ForgeState");
   ("outcome_unknown", "succeeded", "direct_orm_bypass", "ForgeState");
   ("outcome_unknown", "reconciled_succeeded", "direct_orm_bypass", "ForgeState")].

Definition KNOWN_MUTATION_SITES : list string :=
  ["cappo_evaluator"; "begin_consequence"; "completion_reporter"; "direct_orm_bypass"].

Definition TLA_SYSTEM_ACTIONS : list string :=
  ["Authorize"; "Start"; "CompleteSucceeded"; "CompleteFailed"; "EnterUnknown"; "ReconcileSucceeded";
   "ReconcileFailed"].

Definition HOSTILE_TLA_ACTIONS : list string :=
  ["ForgeState"; "ReplayProof"; "BypassAuthority"; "SwapIntent"; "SwapConsequence"; "RollbackEpoch";
   "RaceReconcilers"; "RaceExecutors"; "SwapOperation"; "ResolveUnknownWithoutProof"].

(** The three ways a trace violates the correspondence. *)
Inductive CorrespondenceViolation := UnregisteredSite | UnmodeledTransition | HostileAction.

(** [PYTHON_TO_TLA.get(key)]. *)
Fixpoint tla_lookup (m : list (string * string * string * string)) (prev next actor : string) : option string :=
  match m with
  | [] => None
  | (p, n, a, act) :: m' =>
    if str_eqb p prev && str_eqb n next && str_eqb a actor then Some act else tla_lookup m' prev next actor
  end.

Definition verify_trace (t : TruthTransitionTrace) : res CorrespondenceViolation string :=
  if negb (bool_decide (tt_actor t ∈ KNOWN_MUTATION_SITES)) then Err UnregisteredSite
  else match tla_lookup PYTHON_TO_TLA (tt_previous t) (tt_next t) (tt_actor t) with
       | None => Err UnmodeledTransition
       | Some act => if bool_decide (act ∈ HOSTILE_TLA_ACTIONS) then Err HostileAction else Ok act
       end.

(** System actions without a Python correspondent, sorted. *)
Definition verify_no_model_gap : list string :=
  let covered := filter (fun a => a ∉ HOSTILE_TLA_ACTIONS) (map snd PYTHON_TO_TLA) in
  merge_sort String.le (filter (fun a => a ∉ covered) TLA_SYSTEM_ACTIONS).

(** ** The source scan *)

(** [sub in s]. *)
Definition contains (s sub : string) : bool :=
  match String.index 0 sub s with Some _ => true | None => false end.

(** [s.split(sep)[1]] for a line that contains [sep]. *)
Definition split_1 (s sep : string) : string :=
  match String.index 0 sep s with
  | None => ""
  | Some i =>
    let rest := String.substring (i + String.length sep) (String.length s - i - String.length sep) s in
    match String.index 0 sep rest with
    | None => rest
    | Some j => String.substring 0 j rest
    end
  end.

(** [s.strip()] for ASCII whitespace. *)
Fixpoint lstrip (l : list ascii) : list ascii :=
  match l with
  | c :: l' => let n := nat_of_ascii c in
               if (n =? 32)%nat || ((9 <=? n)%nat && (n <=? 13)%nat) || ((28 <=? n)%nat && (n <=? 31)%nat)
               then lstrip l' else l
  | [] => []
  end.
Definition strip (s : string) : string :=
  string_of_list_ascii (rev (lstrip (rev (lstrip (chars s))))).

(** The nearest site tag among the lines [hi], [hi-1], ... down to, and not
    including, [lo]. *)
Fixpoint tag_above (lines : list string) (hi lo : nat) : option string :=
  match hi with
  | 0 => None
  | S hi' =>
    if (hi <=? lo)%nat then None
    else let line := nth hi lines "" in
         if contains line "# _SITE:" then Some (strip (split_1 line "# _SITE:"))
         else tag_above lines hi' lo
  end.

Definition quote1 (s : string) : string := "'" +:+ s +:+ "'".

(** [verify_mutation_surface] on the lines of the file; [enclosing] is the
    AST fallback [_enclosing_function]. *)
Definition scan_line (lines : list string) (enclosing : nat -> string) (i : nat) : list string :=
  let line := nth i lines "" in
  if contains line "ConsequenceExecutionEvent(" && contains line "ce = " then
    let site := match tag_above lines (i - 1) (i - 10) with
                | Some s => s
                | None => enclosing (i + 1)
                end in
    if bool_decide (site ∈ KNOWN_MUTATION_SITES) then []
    else ["L" +:+ pretty (i + 1) +:+ ": site=" +:+ quote1 site +:+ " not in KNOWN_MUTATION_SITES"]
  else [].

Definition verify_mutation_surface (lines : list string) (enclosing : nat -> string) : list string :=
  concat (map (scan_line lines enclosing) (seq 0 (length lines))).

(** ** Traces of an operation *)

(** [sorted(db_events, key=version)], a stable sort. *)
Fixpoint insert_version (e : cevent) (l : list cevent) : list cevent :=
  match l with
  | [] => [e]
  | x :: l' => if (ce_version e <=? ce_version x)%Z then e :: l else x :: insert_version e l'
  end.
Definition sort_versions (l : list cevent) : list cevent := foldr insert_version [] l.

Fixpoint traces_from (prev_state : string) (actor_map : string * Z -> option string) (l : list cevent)
    : list TruthTransitionTrace :=
  match l with
  | [] => []
  | ev :: l' =>
    mk_trace (ce_op ev) (ce_version ev) prev_state (cs_value (ce_state ev)) (ce_intent ev)
      (py_or (ce_receipt ev) "unknown") (py_or (ce_proof_type ev) "none") (py_or (ce_subject_hash ev) "none")
      (default "unknown" (actor_map (ce_op ev, ce_version ev)))
    :: traces_from (cs_value (ce_state ev)) actor_map l'
  end.

Definition extract_traces (db_events : list cevent) (actor_map : string * Z -> option string)
    : list TruthTransitionTrace :=
  traces_from "none" actor_map (sort_versions db_events).

(** ** Correspondence with the modelled service *)

(** The [_SITE] tag of the code that writes an event after [prev]. *)
Definition site_of (prev : string) (e : cevent) : string :=
  match ce_state e with
  | C_AUTHORIZED => "cappo_evaluator"
  | C_STARTED => "begin_consequence"
  | _ => if str_eqb prev "authorized" && opt_eqb (ce_proof_type e) (Some "fence_refusal")
         then "begin_consequence_fence" else "completion_reporter"
  end.

(** The state before position [i]. *)
Definition prev_of (l : list cevent) (i : nat) : string :=
  match i with
  | 0 => "none"
  | S j => match l !! j with Some e => cs_value (ce_state e) | None => "none" end
  end.

Lemma sort_sorted l k :
  (forall i e, l !! i = Some e -> ce_version e = Z.of_nat (k + i)) -> sort_versions l = l.
Proof.
  revert k. induction l as [|e l IH]; intros k Hv; [done|].
  change (sort_versions (e :: l)) with (insert_version e (sort_versions l)). rewrite (IH (S k)).
  - destruct l as [|x l]; [done|]. simpl.
    pose proof (Hv 0%nat e eq_refl). pose proof (Hv 1%nat x eq_refl).
    rewrite (proj2 (Z.leb_le _ _)); [done|lia].
  - intros i x Hx. rewrite (Hv (S i) x Hx). lia.
Qed.

Lemma traces_from_lookup am l : forall prev i t,
  traces_from prev am l !! i = Some t ->
  exists e, l !! i = Some e /\ tt_next t = cs_value (ce_state e)
    /\ tt_previous t = (match i with 0 => prev | S j => prev_of l (S j) end)
    /\ tt_actor t = default "unknown" (am (ce_op e, ce_version e)).
Proof.
  induction l as [|e l IH]; intros prev i t Ht; [done|]. destruct i as [|i]; simpl in Ht.
  - injection Ht as <-. by exists e.
  - destruct (IH _ _ _ Ht) as (x & Hx & Hn & Hp & Ha). exists x. split_and!; [done..| |done].
    rewrite Hp. by destruct i.
Qed.

Lemma fence_or_reporter s : str_eqb (cs_value s) "authorized" = bool_decide (s = C_AUTHORIZED).
Proof. by destruct s. Qed.

(** The trace of one legal transition, written by its site. *)
Lemma legal_trace_verifies t e0 e :
  legal_next (ce_state e0) (ce_state e) -> evidence_ok e0 -> evidence_ok e ->
  tt_previous t = cs_value (ce_state e0) -> tt_next t = cs_value (ce_state e) ->
  tt_actor t = site_of (cs_value (ce_state e0)) e ->
  (exists a, verify_trace t = Ok a /\ a ∈ TLA_SYSTEM_ACTIONS)
  \/ (tt_previous t = "authorized" /\ tt_next t = "failed" /\ exists v, verify_trace t = Err v).
Proof.
  intros Hn He0 He Hp Hx Ha. unfold verify_trace. rewrite Ha, Hp, Hx. unfold site_of.
  rewrite fence_or_reporter.
  destruct Hn as [Hn|[Hs0 Hs]].
  - unfold evidence_ok in He0, He. destruct (ce_state e0) eqn:E0; simpl in Hn; try done;
      repeat (apply elem_of_cons in Hn as [Hn|Hn]; [rewrite Hn in *|]); try (by apply not_elem_of_nil in Hn); try done;
      try (left; eexists; split; [vm_compute; reflexivity|set_solver]).
    right. split_and!; [done..|]. destruct (opt_eqb _ _); eexists; vm_compute; reflexivity.
  - rewrite Hs0, Hs. left. eexists. split; [vm_compute; reflexivity|set_solver].
Qed.

(** The transitions that no entry of the map covers: the fence's, and the
    reconcile endpoint's of a started operation. *)
Definition uncovered (t : TruthTransitionTrace) : Prop :=
  (tt_previous t = "authorized" /\ tt_next t = "failed") \/ (tt_previous t = "started" /\ tt_next t = "reconciled_succeeded").

(** The correspondence holds of the service, with two gaps.  For every
    reachable table and every operation, label each event with the site of
    service.py that writes that transition: every extracted trace verifies to
    a TLA+ system action, except the transitions authorized -> failed and
    started -> reconciled_succeeded, which no entry of the map covers.  No
    system action is without a Python correspondent. *)
Theorem traces_correspond `{Ext, Mac} db0 db op am t :
  d_events db0 = [] -> steps cstep db0 db ->
  (forall i e, events_of db op !! i = Some e ->
     am (op, ce_version e) = Some (site_of (prev_of (events_of db op) i) e)) ->
  t ∈ extract_traces (events_of db op) am ->
  verify_no_model_gap = [] /\
  ((exists a, verify_trace t = Ok a /\ a ∈ TLA_SYSTEM_ACTIONS) \/ (uncovered t /\ exists v, verify_trace t = Err v)).
Proof.
  intros H0' Hs Ham Ht. split; [vm_compute; reflexivity|].
  pose proof (steps_cinv _ _ (cinv_empty _ H0') Hs op) as Hst.
  unfold extract_traces in Ht. rewrite (sort_sorted _ 0) in Ht by (intros i e; by apply stream_version).
  apply list_elem_of_lookup in Ht as [i Ht].
  destruct (traces_from_lookup _ _ _ _ _ Ht) as (e & Hi & Hn & Hp & Ha).
  assert (Hop : ce_op e = op) by (by apply list_elem_of_lookup_2, events_of_elem in Hi as [? _]).
  rewrite Hop, (Ham i e Hi) in Ha. simpl in Ha.
  assert (Hev : evidence_ok e) by (eapply stream_state_evidence; [done|by eapply list_elem_of_lookup_2]).
  destruct i as [|i].
  - pose proof (stream_head _ _ Hst Hi) as Hh. left. unfold verify_trace. rewrite Ha, Hp, Hn.
    unfold site_of. rewrite Hh. eexists. split; [vm_compute; reflexivity|set_solver].
  - destruct (lookup_lt_is_Some_2 (events_of db op) i) as [e0 H1]; [apply lookup_lt_Some in Hi; lia|].
    destruct (stream_next _ _ _ _ Hst H1 Hi) as [Hl _]. simpl in Hp, Ha. rewrite H1 in Hp, Ha.
    destruct Hl as [[Hl _]|(Hs0 & Hs1 & _)].
    + destruct (legal_trace_verifies t e0 e) as [Hv|(Hv1 & Hv2 & Hv3)]; try done; [|by left|right; split; [by left|done]].
      eapply stream_state_evidence; [done|by eapply list_elem_of_lookup_2].
    + unfold verify_trace. rewrite Ha, Hp, Hn, Hs1. unfold site_of. rewrite Hs1. destruct Hs0 as [Hs0|Hs0]; rewrite Hs0.
      * right. split; [right; by rewrite Hp, Hn, Hs0, Hs1|]. eexists. vm_compute. reflexivity.
      * left. eexists. split; [vm_compute; reflexivity|set_solver].
Qed.

(** The lines 402-404 of service.py, and an unregistered site as an
    assignment. *)
Definition fence_lines : list string :=
  [""; "                    # _SITE: begin_consequence_fence";
   "                    db.add(";
   "                        ConsequenceExecutionEvent("].
Definition reporter_lines : list string :=
  [""; "                # _SITE: rogue_writer"; "                ce = ConsequenceExecutionEvent("].

(** The write site of the fence escapes the correspondence layer.  The
    scan of service.py reports an unregistered site that is written as an
    assignment to [ce], but not the fence's [db.add(ConsequenceExecutionEvent(]
    even though its tag is not a registered site; and the trace the fence
    writes, authorized -> failed, is rejected whichever site it is labelled
    with. *)
Theorem fence_site_unregistered :
  verify_mutation_surface fence_lines (fun _ => "begin_consequence") = []
  /\ ("begin_consequence_fence" ∉ KNOWN_MUTATION_SITES)
  /\ verify_mutation_surface reporter_lines (fun _ => "unknown")
     = ["L3: site='rogue_writer' not in KNOWN_MUTATION_SITES"]
  /\ forall t, tt_previous t = "authorized" -> tt_next t = "failed" -> exists v, verify_trace t = Err v.
Proof.
  split_and!; [vm_compute; reflexivity|unfold KNOWN_MUTATION_SITES; set_solver|vm_compute; reflexivity|].
  intros t Hp Hn. unfold verify_trace. rewrite Hp, Hn. destruct (negb _); [by eexists|].
  simpl. by eexists.
Qed.

(** The demo run after its terminal report. *)
Definition demo_actors (k : string * Z) : option string :=
  let l := events_of demo_settled k.1 in
  match l !! Z.to_nat k.2 with Some e => Some (site_of (prev_of l (Z.to_nat k.2)) e) | None => None end.

Definition demo_trace : TruthTransitionTrace :=
  default (mk_trace "" 0 "" "" "" "" "" "" "") (extract_traces (events_of demo_settled "op-1") demo_actors !! 1%nat).

Lemma demo_settled_steps : steps cstep demo0 demo_settled.
Proof. eapply steps_snoc; [apply demo3_steps|]. apply ce_report. vm_compute. right. by left. Qed.

Lemma traces_correspond_witness :
  verify_no_model_gap = [] /\
  ((exists a, verify_trace demo_trace = Ok a /\ a ∈ TLA_SYSTEM_ACTIONS)
   \/ (uncovered demo_trace /\ exists v, verify_trace demo_trace = Err v)).
Proof.
  apply (traces_correspond demo0 demo_settled "op-1" demo_actors demo_trace).
  - reflexivity.
  - apply demo_settled_steps.
  - intros i e Hi.
    pose proof (stream_version _ _ _ (steps_cinv _ _ (cinv_empty demo0 eq_refl) demo_settled_steps "op-1") Hi) as Hv.
    unfold demo_actors. simpl. rewrite Hv, Nat2Z.id, Hi. reflexivity.
  - vm_compute. right. by left.
Defined.
