(* ===== verification/Merkle.v ===== *)
(** * The receipt Merkle tree (cappo_backend/security/merkle.py, merkle_ops.py)

    RFC 6962-style trees over byte strings, inclusion and consistency proofs
    with their verifiers, and the allocation of leaf indices to signed
    receipts.  Python integers are [Z]; [IndexError], [ValueError] and
    [AssertionError] are results.  The recursions run on fuel; the fuel every
    entry point supplies is proved enough (MerkleProofs).  SHA-256 is
    [sha256_raw] of the class [Mac]. *)

From Stdlib Require Import ZArith Lia Ascii String.
From stdpp Require Import base gmap strings list.
From S2P Require Import Prelude Canon PyJson Permits.

Local Open Scope Z_scope.

(** [OutOfFuel] is no Python exception: no entry point yields it. *)
Inductive merr := IndexErr | ValueErr | AssertErr | OutOfFuel.

(** [while k < n: k <<= 1; return k >> 1]. *)
Fixpoint double_until (fuel : nat) (k n : Z) : Z :=
  match fuel with
  | O => Z.shiftr k 1
  | S f => if k <? n then double_until f (Z.shiftl k 1) n else Z.shiftr k 1
  end.

Definition largest_power_of_2_less_than (n : Z) : res merr Z :=
  do? raise_if (n <? 2) AssertErr in Ok (double_until (Z.to_nat n) 1 n).

(** [AppendOnlyMerkleTree]: its leaves. *)
Abbreviation tree := (list string).

Section merkle.
Context `{Mac}.

Definition hash_leaf (data : string) : string := sha256_raw (String "000"%char data).
Definition hash_children (left right : string) : string := sha256_raw (String "001"%char (left +:+ right)).

Definition tree_append (t : tree) (data : string) : tree * Z := (t ++ [data], Z.of_nat (length t)).

(** [self._leaves[i]] for [i >= 0]. *)
Definition leaf_at (t : tree) (i : Z) : res merr string :=
  match t !! Z.to_nat i with Some d => Ok d | None => Err IndexErr end.

Fixpoint merkle_hash (fuel : nat) (t : tree) (start length : Z) : res merr string :=
  match fuel with
  | O => Err OutOfFuel
  | S f =>
  if length =? 0 then Ok (sha256_raw "")
  else if length =? 1 then let? d := leaf_at t start in Ok (hash_leaf d)
  else
    let? k := largest_power_of_2_less_than length in
    let? left := merkle_hash f t start k in
    let? right := merkle_hash f t (start + k) (length - k) in
    Ok (hash_children left right)
  end.

Definition fuel_for (n : Z) : nat := S (Z.to_nat n).

Definition node_hash (t : tree) (start length : Z) : res merr string :=
  merkle_hash (fuel_for length) t start length.

Definition root (t : tree) (n : option Z) : res merr string :=
  node_hash t 0 (default (Z.of_nat (length t)) n).

Fixpoint path (fuel : nat) (t : tree) (m start length : Z) : res merr (list string) :=
  match fuel with
  | O => Err OutOfFuel
  | S f =>
  if length =? 1 then Ok []
  else
    let? k := largest_power_of_2_less_than length in
    if m <? start + k then
      let? p := path f t m start k in
      let? s := node_hash t (start + k) (length - k) in
      Ok (p ++ [s])
    else
      let? p := path f t m (start + k) (length - k) in
      let? s := node_hash t start k in
      Ok (p ++ [s])
  end.

Definition inclusion_proof (t : tree) (m : Z) (n : option Z) : res merr (list string) :=
  let n := default (Z.of_nat (length t)) n in
  do? raise_if (negb ((0 <=? m) && (m <? n))) ValueErr in
  path (fuel_for n) t m 0 n.

Fixpoint subproof (fuel : nat) (t : tree) (m start length : Z) (b : bool) : res merr (list string) :=
  match fuel with
  | O => Err OutOfFuel
  | S f =>
  if m =? length then
    if b then Ok [] else let? h := node_hash t start length in Ok [h]
  else
    let? k := largest_power_of_2_less_than length in
    if m <=? k then
      let? p := subproof f t m start k b in
      let? s := node_hash t (start + k) (length - k) in
      Ok (p ++ [s])
    else
      let? p := subproof f t (m - k) (start + k) (length - k) false in
      let? s := node_hash t start k in
      Ok (p ++ [s])
  end.

Definition consistency_proof (t : tree) (first : Z) (second : option Z) : res merr (list string) :=
  let second := default (Z.of_nat (length t)) second in
  do? raise_if (negb ((0 <=? first) && (first <=? second) && (second <=? Z.of_nat (length t)))) ValueErr in
  if (first =? 0) || (first =? second) then Ok []
  else subproof (fuel_for second) t first 0 second true.

(** [proof.pop(0)]. *)
Definition pop0 (proof : list string) : res merr (string * list string) :=
  match proof with [] => Err IndexErr | s :: p => Ok (s, p) end.

Fixpoint recompute_root (fuel : nat) (h : string) (m start length : Z) (proof : list string)
  : res merr (string * list string) :=
  match fuel with
  | O => Err OutOfFuel
  | S f =>
  if length =? 1 then Ok (h, proof)
  else
    let? k := largest_power_of_2_less_than length in
    if m <? start + k then
      let? lp := recompute_root f h m start k proof in
      let? sp := pop0 lp.2 in
      Ok (hash_children lp.1 sp.1, sp.2)
    else
      let? rp := recompute_root f h m (start + k) (length - k) proof in
      let? sp := pop0 rp.2 in
      Ok (hash_children sp.1 rp.1, sp.2)
  end.

(** [except (IndexError, ValueError): return False]. *)
Definition or_false (r : res merr bool) : res merr bool :=
  match r with Err IndexErr | Err ValueErr => Ok false | _ => r end.

Definition is_nil (l : list string) : bool := match l with [] => true | _ => false end.

Definition verify_inclusion_proof (leaf_hash : string) (m n : Z) (proof : list string) (root : string)
  : res merr bool :=
  if negb ((0 <=? m) && (m <? n)) then Ok false
  else or_false (let? cp := recompute_root (fuel_for n) leaf_hash m 0 n proof in
               Ok (str_eqb cp.1 root && is_nil cp.2)).

Fixpoint verify_subproof (fuel : nat) (m start length : Z) (b : bool) (proof : list string)
  (first_root : string) : res merr (string * string * list string) :=
  match fuel with
  | O => Err OutOfFuel
  | S f =>
  if m =? length then
    if b then Ok (first_root, first_root, proof)
    else let? np := pop0 proof in Ok (np.1, np.1, np.2)
  else
    let? k := largest_power_of_2_less_than length in
    if m <=? k then
      let? r := verify_subproof f m start k b proof first_root in
      let? sp := pop0 r.2 in
      Ok (r.1.1, hash_children r.1.2 sp.1, sp.2)
    else
      let? r := verify_subproof f (m - k) (start + k) (length - k) false proof first_root in
      let? sp := pop0 r.2 in
      Ok (hash_children sp.1 r.1.1, hash_children sp.1 r.1.2, sp.2)
  end.

Definition verify_consistency_proof (first second : Z) (first_root second_root : string)
  (proof : list string) : res merr bool :=
  if first =? second then Ok (str_eqb first_root second_root && is_nil proof)
  else if (first =? 0) || (second <? first) then Ok false
  else or_false (let? r := verify_subproof (fuel_for second) first 0 second true proof first_root in
               Ok (str_eqb r.1.1 first_root && str_eqb r.1.2 second_root && is_nil r.2)).
End merkle.

(** ** Leaf indices (merkle_ops.py) *)

(** The two columns of a stored receipt that the tree uses. *)
Record mreceipt := mk_mreceipt { m_cose : option string; m_index : option Z }.

(** [merkle_leaf_sequence] (its row 1, if seeded) and the receipts in commit
    order. *)
Record mdb := mk_mdb { m_next : option Z; m_receipts : list mreceipt }.

Inductive merkle_ops_err := MissingSequenceRow.

(** [db.add(receipt); assign_merkle_leaf_index(db, receipt); db.commit()]:
    the sequence row stays locked until the commit. *)
Definition commit_receipt (db : mdb) (cose : option string) : res merkle_ops_err (mdb * option Z) :=
  match cose with
  | None => Ok (mk_mdb (m_next db) (m_receipts db ++ [mk_mreceipt cose None]), None)
  | Some c =>
    if str_eqb c "" then Ok (mk_mdb (m_next db) (m_receipts db ++ [mk_mreceipt cose None]), None)
    else match m_next db with
         | None => Err MissingSequenceRow
         | Some n =>
           let new_value := n + 1 in
           let assigned_index := new_value - 1 in
           Ok (mk_mdb (Some new_value) (m_receipts db ++ [mk_mreceipt cose (Some assigned_index)]),
               Some assigned_index)
         end
  end.

(** [seed_merkle_sequence]: on conflict do nothing. *)
Definition seed_merkle_sequence (db : mdb) : mdb :=
  match m_next db with None => mk_mdb (Some 0) (m_receipts db) | Some _ => db end.

(** The indexed leaves, with their indices. *)
Definition indexed (r : mreceipt) : option (Z * string) :=
  match m_index r, m_cose r with Some i, Some c => Some (i, c) | _, _ => None end.

Fixpoint insert_index (x : Z * string) (l : list (Z * string)) : list (Z * string) :=
  match l with
  | [] => [x]
  | y :: l' => if x.1 <=? y.1 then x :: l else y :: insert_index x l'
  end.

(** [get_merkle_ordered_cose_bytes]: ORDER BY merkle_leaf_index ASC. *)
Definition get_merkle_ordered_cose_bytes (db : mdb) : list string :=
  map snd (foldr insert_index [] (omap indexed (m_receipts db))).
