(* ===== verification/MerkleProofs.v ===== *)
(** * Merkle proofs: completeness and soundness

    The RFC 6962 tree hash of a list ([mth]) as the specification of the
    recursive routines, and the inductions behind the properties. *)

From Stdlib Require Import ZArith Lia Ascii String.
From stdpp Require Import base gmap strings list.
From S2P Require Import Prelude Canon PyJson Permits Merkle.

Local Open Scope Z_scope.

(** ** The split *)

Lemma double_until_spec fuel k n :
  0 < k -> k < n -> n <= k * 2 ^ Z.of_nat fuel ->
  exists j, 0 <= j /\ double_until (S fuel) k n = k * 2 ^ j /\ k * 2 ^ j < n /\ n <= k * 2 ^ (j + 1).
Proof.
  revert k. induction fuel as [|fuel IH]; intros k Hk Hlt Hle.
  { simpl in Hle. lia. }
  change (double_until (S (S fuel)) k n) with
    (if k <? n then double_until (S fuel) (Z.shiftl k 1) n else Z.shiftr k 1).
  rewrite (proj2 (Z.ltb_lt k n) Hlt), Z.shiftl_mul_pow2 by lia. change (2 ^ 1) with 2.
  destruct (decide (k * 2 < n)) as [H2|H2].
  - rewrite Nat2Z.inj_succ, Z.pow_succ_r in Hle by lia.
    destruct (IH (k * 2)) as (j & Hj & -> & Hl & Hu); [lia..|]. exists (j + 1). split_and!; [lia| | |].
    + rewrite Z.pow_add_r by lia. lia.
    + rewrite Z.pow_add_r by lia. lia.
    + rewrite (Z.pow_add_r 2 (j + 1)) by lia. lia.
  - exists 0. change (2 ^ 0) with 1. change (2 ^ (0 + 1)) with 2. split_and!; [lia| |lia|lia].
    simpl. rewrite (proj2 (Z.ltb_ge (k * 2) n)) by lia.
    rewrite Z.shiftr_div_pow2 by lia. change (2 ^ 1) with 2. rewrite Z.div_mul by lia. lia.
Qed.

Lemma split_pow n :
  2 <= n -> exists j, 0 <= j /\ largest_power_of_2_less_than n = Ok (2 ^ j) /\ 2 ^ j < n /\ n <= 2 ^ (j + 1).
Proof.
  intros Hn. unfold largest_power_of_2_less_than. rewrite (proj2 (Z.ltb_ge n 2)) by lia. simpl.
  destruct (Z.to_nat n) as [|f] eqn:Ef; [lia|].
  destruct (double_until_spec f 1 n) as (j & Hj & -> & Hl & Hu); [lia|lia| |].
  - pose proof (Z.pow_gt_lin_r 2 (Z.of_nat f)). lia.
  - exists j. rewrite !Z.mul_1_l in *. done.
Qed.

(** The split point of a size. *)
Definition split_of (n : Z) : Z :=
  match largest_power_of_2_less_than n with Ok k => k | Err _ => 0 end.

Lemma split_spec n : 2 <= n -> largest_power_of_2_less_than n = Ok (split_of n) /\ 1 <= split_of n < n.
Proof.
  intros Hn. destruct (split_pow n Hn) as (j & Hj & Hs & Hl & _). unfold split_of. rewrite Hs.
  split; [done|]. pose proof (Z.pow_pos_nonneg 2 j). lia.
Qed.

(** A prefix that reaches past the split splits at the same point. *)
Lemma split_prefix m n : 2 <= n -> split_of n < m <= n -> split_of m = split_of n.
Proof.
  intros Hn Hm. destruct (split_pow n Hn) as (j & Hj & Hs & Hl & Hu).
  assert (Hsn : split_of n = 2 ^ j) by (unfold split_of; by rewrite Hs). rewrite Hsn in *.
  pose proof (Z.pow_pos_nonneg 2 j).
  destruct (split_pow m) as (i & Hi & Hsm & Hlm & Hum); [lia|].
  assert (split_of m = 2 ^ i) as -> by (unfold split_of; by rewrite Hsm). f_equal.
  assert (i < j + 1) by (apply (Z.pow_lt_mono_r_iff 2); lia).
  assert (j < i + 1) by (apply (Z.pow_lt_mono_r_iff 2); lia). lia.
Qed.

(** ** The tree hash of a list *)

Section proofs.
Context `{Mac}.

Fixpoint mth_fuel (fuel : nat) (l : list string) : string :=
  match fuel, l with
  | _, [] => sha256_raw ""
  | _, [d] => hash_leaf d
  | O, _ => ""
  | S f, _ =>
  let k := Z.to_nat (split_of (Z.of_nat (length l))) in
  hash_children (mth_fuel f (take k l)) (mth_fuel f (drop k l))
  end.
(** MTH of RFC 6962. *)
Definition mth (l : list string) : string := mth_fuel (length l) l.

Lemma mth_fuel_S f l :
  (2 <= length l)%nat ->
  mth_fuel (S f) l = hash_children (mth_fuel f (take (Z.to_nat (split_of (Z.of_nat (length l)))) l))
                     (mth_fuel f (drop (Z.to_nat (split_of (Z.of_nat (length l)))) l)).
Proof. intros Hl. destruct l as [|d [|d' l]]; [simpl in Hl; lia..|]. reflexivity. Qed.

Lemma mth_fuel_enough f g l : (length l <= f)%nat -> (length l <= g)%nat -> mth_fuel f l = mth_fuel g l.
Proof.
  revert g l. induction f as [|f IH]; intros g l Hf Hg.
  - destruct l; [by destruct g|simpl in Hf; lia].
  - destruct g as [|g]; [destruct l; [done|simpl in Hg; lia]|].
  destruct (decide (length l < 2)%nat) as [Hl|Hl].
  { destruct l as [|d [|d' l]]; [done..|simpl in Hl; lia]. }
  destruct (split_spec (Z.of_nat (length l))) as [_ Hk]; [lia|].
  rewrite !mth_fuel_S by lia. f_equal; apply IH; rewrite ?length_take, ?length_drop; lia.
Qed.

Lemma mth_split l :
  (2 <= length l)%nat -> mth l = hash_children (mth (take (Z.to_nat (split_of (Z.of_nat (length l)))) l))
                                 (mth (drop (Z.to_nat (split_of (Z.of_nat (length l)))) l)).
Proof.
  intros Hl. destruct (split_spec (Z.of_nat (length l))) as [_ Hk]; [lia|].
  unfold mth at 1. destruct (length l) as [|f] eqn:Ef; [lia|]. rewrite mth_fuel_S by lia. rewrite Ef.
  f_equal; apply mth_fuel_enough; rewrite ?length_take, ?length_drop; lia.
Qed.

(** Slices of the leaves. *)
Definition slice (t : tree) (start len : Z) : list string := take (Z.to_nat len) (drop (Z.to_nat start) t).

Definition in_range (t : tree) (start len : Z) : Prop :=
  0 <= start /\ 0 <= len /\ start + len <= Z.of_nat (length t).

Lemma slice_length t s n : in_range t s n -> length (slice t s n) = Z.to_nat n.
Proof. intros (? & ? & ?). unfold slice. rewrite length_take, length_drop. lia. Qed.

Lemma mth_slice t s n :
  in_range t s n -> 2 <= n ->
  mth (slice t s n) = hash_children (mth (slice t s (split_of n))) (mth (slice t (s + split_of n) (n - split_of n))).
Proof.
  intros Hr Hn. pose proof Hr as (? & ? & ?). destruct (split_spec n Hn) as [_ Hk].
  rewrite mth_split by (rewrite slice_length by done; lia).
  rewrite slice_length, Z2Nat.id by (done || lia). unfold slice. f_equal; f_equal.
  - rewrite take_take. f_equal. lia.
  - rewrite skipn_firstn_comm, drop_drop. f_equal; [lia|]. f_equal. lia.
Qed.

Lemma in_range_left t s n : in_range t s n -> 2 <= n -> in_range t s (split_of n).
Proof. intros (? & ? & ?) Hn. destruct (split_spec n Hn). unfold in_range. lia. Qed.
Lemma in_range_right t s n : in_range t s n -> 2 <= n -> in_range t (s + split_of n) (n - split_of n).
Proof. intros (? & ? & ?) Hn. destruct (split_spec n Hn). unfold in_range. lia. Qed.

Lemma merkle_hash_ok fuel t s n :
  in_range t s n -> n < Z.of_nat fuel -> merkle_hash fuel t s n = Ok (mth (slice t s n)).
Proof.
  revert s n. induction fuel as [|f IH]; intros s n Hr Hf; [destruct Hr; lia|].
  pose proof Hr as (H1 & H2 & H3). cbn [merkle_hash].
  destruct (n =? 0) eqn:E0; [apply Z.eqb_eq in E0 as ->; done|].
  destruct (n =? 1) eqn:E1.
  - apply Z.eqb_eq in E1 as ->. unfold leaf_at.
  destruct (lookup_lt_is_Some_2 t (Z.to_nat s)) as [d Hd]; [lia|]. rewrite Hd. simpl.
  unfold slice. change (Z.to_nat 1) with 1%nat. rewrite (drop_S _ _ _ Hd). done.
  - apply Z.eqb_neq in E0, E1. assert (2 <= n) as Hn by lia. destruct (split_spec n Hn) as [-> Hk]. simpl.
  rewrite (IH s) by (first [by apply in_range_left | lia]). simpl.
  rewrite (IH (s + _)) by (first [by apply in_range_right | lia]). simpl. by rewrite (mth_slice t s n).
Qed.

Lemma node_hash_ok t s n : in_range t s n -> node_hash t s n = Ok (mth (slice t s n)).
Proof. intros Hr. apply merkle_hash_ok; [done|]. unfold fuel_for. destruct Hr as (? & ? & ?). lia. Qed.

(** ** Inclusion *)

Lemma inclusion_complete fuel t m s n d :
  in_range t s n -> s <= m < s + n -> n < Z.of_nat fuel -> t !! Z.to_nat m = Some d ->
  exists p, path fuel t m s n = Ok p
  /\ forall rest, recompute_root fuel (hash_leaf d) m s n (p ++ rest) = Ok (mth (slice t s n), rest).
Proof.
  revert s n. induction fuel as [|f IH]; intros s n Hr Hm Hf Hd; [lia|]. pose proof Hr as (H1 & H2 & H3).
  cbn [path recompute_root]. destruct (n =? 1) eqn:E1.
  - apply Z.eqb_eq in E1 as ->. assert (m = s) as -> by lia. exists []. split; [done|]. intros rest. simpl.
  do 2 f_equal. unfold slice. change (Z.to_nat 1) with 1%nat. rewrite (drop_S _ _ _ Hd). done.
  - apply Z.eqb_neq in E1. assert (2 <= n) as Hn by lia. destruct (split_spec n Hn) as [-> Hk]. simpl.
  pose proof (in_range_left _ _ _ Hr Hn) as Hl. pose proof (in_range_right _ _ _ Hr Hn) as Hri.
  destruct (m <? s + split_of n) eqn:Em; [apply Z.ltb_lt in Em|apply Z.ltb_ge in Em].
  + destruct (IH s (split_of n)) as (p & -> & Hp); [done|lia..|done|]. simpl.
    rewrite node_hash_ok by done. simpl. eexists. split; [done|]. intros rest.
    rewrite <- app_assoc, Hp. simpl. by rewrite (mth_slice t s n).
  + destruct (IH (s + split_of n) (n - split_of n)) as (p & -> & Hp); [done|lia..|done|]. simpl.
    rewrite node_hash_ok by done. simpl. eexists. split; [done|]. intros rest.
    rewrite <- app_assoc, Hp. simpl. by rewrite (mth_slice t s n).
Qed.

(** ** What is hashed *)

Definition node_input (left right : string) : string := String "001"%char (left +:+ right).

(** The inputs of SHA-256 when the tree hash of a list is computed. *)
Fixpoint tree_inputs (fuel : nat) (l : list string) : list string :=
  match fuel, l with
  | _, [] => [""]
  | _, [d] => [String "000"%char d]
  | O, _ => []
  | S f, _ =>
  let k := Z.to_nat (split_of (Z.of_nat (length l))) in
  node_input (mth (take k l)) (mth (drop k l)) :: tree_inputs f (take k l) ++ tree_inputs f (drop k l)
  end.
Definition hashed_by_tree (l : list string) : list string := tree_inputs (length l) l.

(** The inputs when an inclusion proof is verified. *)
Fixpoint inclusion_inputs (fuel : nat) (h : string) (m start length : Z) (proof : list string) : list string :=
  match fuel with
  | O => []
  | S f =>
  if length =? 1 then []
  else
    let k := split_of length in
    if m <? start + k then
      inclusion_inputs f h m start k proof
      ++ match recompute_root f h m start k proof with Ok (l, s :: _) => [node_input l s] | _ => [] end
    else
      inclusion_inputs f h m (start + k) (length - k) proof
      ++ match recompute_root f h m (start + k) (length - k) proof with Ok (r, s :: _) => [node_input s r] | _ => [] end
  end.
Definition hashed_by_inclusion (h : string) (m n : Z) (proof : list string) : list string :=
  inclusion_inputs (fuel_for n) h m 0 n proof.

(** The inputs when a consistency proof is verified. *)
Fixpoint consistency_inputs (fuel : nat) (m start length : Z) (b : bool) (proof : list string) (first_root : string) : list string :=
  match fuel with
  | O => []
  | S f =>
  if m =? length then []
  else
    let k := split_of length in
    if m <=? k then
      consistency_inputs f m start k b proof first_root
      ++ match verify_subproof f m start k b proof first_root with Ok (_, s1, s :: _) => [node_input s1 s] | _ => [] end
    else
      consistency_inputs f (m - k) (start + k) (length - k) false proof first_root
      ++ match verify_subproof f (m - k) (start + k) (length - k) false proof first_root with
         | Ok (f1, s1, s :: _) => [node_input s f1; node_input s s1] | _ => [] end
  end.
Definition hashed_by_consistency (first second : Z) (first_root : string) (proof : list string) : list string :=
  consistency_inputs (fuel_for second) first 0 second true proof first_root.

(** Two different inputs with one digest, one from each of two lists. *)
Definition collides (xs ys : list string) : Prop := exists x y, x ∈ xs /\ y ∈ ys /\ x <> y /\ sha256_raw x = sha256_raw y.

Lemma collides_mono xs xs' ys ys' : xs ⊆ xs' -> ys ⊆ ys' -> collides xs ys -> collides xs' ys'.
Proof. intros Hx Hy (x & y & ? & ? & ? & ?). exists x, y. auto. Qed.

Lemma tree_inputs_S f l :
  (2 <= length l)%nat -> let k := Z.to_nat (split_of (Z.of_nat (length l))) in
  tree_inputs (S f) l = node_input (mth (take k l)) (mth (drop k l)) :: tree_inputs f (take k l) ++ tree_inputs f (drop k l).
Proof. intros Hl. destruct l as [|d [|d' l]]; [simpl in Hl; lia..|]. reflexivity. Qed.

Lemma tree_inputs_enough f g l : (length l <= f)%nat -> (length l <= g)%nat -> tree_inputs f l = tree_inputs g l.
Proof.
  revert g l. induction f as [|f IH]; intros g l Hf Hg.
  - destruct l; [by destruct g|simpl in Hf; lia].
  - destruct g as [|g]; [destruct l; [done|simpl in Hg; lia]|].
  destruct (decide (length l < 2)%nat) as [Hl|Hl].
  { destruct l as [|d [|d' l]]; [done..|simpl in Hl; lia]. }
  destruct (split_spec (Z.of_nat (length l))) as [_ Hk]; [lia|].
  rewrite !tree_inputs_S by lia. f_equal; f_equal; apply IH; rewrite ?length_take, ?length_drop; lia.
Qed.

(** What is hashed for a slice: its root's node, and what its halves hash. *)
Lemma hashed_slice t s n :
  in_range t s n -> 2 <= n ->
  hashed_by_tree (slice t s n)
  = node_input (mth (slice t s (split_of n))) (mth (slice t (s + split_of n) (n - split_of n)))
    :: hashed_by_tree (slice t s (split_of n)) ++ hashed_by_tree (slice t (s + split_of n) (n - split_of n)).
Proof.
  intros Hr Hn. pose proof Hr as (? & ? & ?). destruct (split_spec n Hn) as [_ Hk].
  assert (Hl : take (Z.to_nat (split_of n)) (slice t s n) = slice t s (split_of n)) by (unfold slice; rewrite take_take; f_equal; lia).
  assert (Hd : drop (Z.to_nat (split_of n)) (slice t s n) = slice t (s + split_of n) (n - split_of n)).
  { unfold slice. rewrite skipn_firstn_comm, drop_drop. f_equal; [lia|]. f_equal. lia. }
  unfold hashed_by_tree at 1. rewrite slice_length by done. destruct (Z.to_nat n) as [|f] eqn:Ef; [lia|].
  rewrite tree_inputs_S by (rewrite slice_length by done; lia). cbv zeta. rewrite slice_length, Z2Nat.id, Hl, Hd by (done || lia).
  f_equal. unfold hashed_by_tree. f_equal; apply tree_inputs_enough; rewrite ?slice_length by (by apply in_range_left || by apply in_range_right); lia.
Qed.

Lemma sapp_length (a b : string) : String.length (a +:+ b) = (String.length a + String.length b)%nat.
Proof. induction a; simpl; auto. Qed.

Lemma sapp_inj_length (a b c d : string) :
  String.length a = String.length c -> a +:+ b = c +:+ d -> a = c /\ b = d.
Proof.
  revert c. induction a as [|x a IH]; intros [|y c] Hl He; simpl in *; try done.
  injection Hl as Hl. injection He as -> He. by destruct (IH _ Hl He) as [-> ->].
Qed.

(** Equal nodes have equal children, or their inputs collide. *)
Lemma children_left a b c d :
  String.length a = String.length c -> hash_children a b = hash_children c d ->
  (a = c /\ b = d) \/ node_input c d <> node_input a b /\ sha256_raw (node_input c d) = sha256_raw (node_input a b).
Proof.
  intros Hl He. destruct (decide (node_input c d = node_input a b)) as [Hx|Hx]; [left|by right].
  apply (sapp_inj_length a b c d Hl). by injection Hx.
Qed.

Lemma children_right a b c d :
  String.length b = String.length d -> hash_children a b = hash_children c d ->
  (a = c /\ b = d) \/ node_input c d <> node_input a b /\ sha256_raw (node_input c d) = sha256_raw (node_input a b).
Proof.
  intros Hl He. destruct (decide (node_input c d = node_input a b)) as [Hx|Hx]; [left|by right].
  assert (a +:+ b = c +:+ d) as Hab by (by injection Hx).
  apply (sapp_inj_length a b c d); [|done].
  apply (f_equal String.length) in Hab. rewrite !sapp_length in Hab. lia.
Qed.

(** A digest has 32 bytes. *)
Context (digest_len : forall x, String.length (sha256_raw x) = 32%nat).

Lemma mth_len l : l <> [] -> String.length (mth l) = 32%nat.
Proof.
  intros Hl. destruct l as [|d [|d' l]]; [done|apply digest_len|].
  rewrite mth_split by (simpl; lia). apply digest_len.
Qed.

Lemma mth_slice_len t s n : in_range t s n -> 0 < n -> String.length (mth (slice t s n)) = 32%nat.
Proof.
  intros Hr Hn. apply mth_len. intros He. pose proof (slice_length _ _ _ Hr) as Hl. rewrite He in Hl.
  simpl in Hl. lia.
Qed.

(** The recomputed node is a digest when the leaf hash is. *)
Lemma recompute_len fuel h m s n p r rest :
  String.length h = 32%nat -> recompute_root fuel h m s n p = Ok (r, rest) -> String.length r = 32%nat.
Proof.
  intros Hh. destruct fuel as [|f]; [done|]. cbn [recompute_root]. destruct (n =? 1); [by intros [= <- _]|].
  intros Hr. res_inv Hr. destruct (m <? _); res_inv Hr; injection Hr as <- _; apply digest_len.
Qed.

Lemma inclusion_sound fuel t h m s n p rest :
  in_range t s n -> s <= m < s + n -> String.length h = 32%nat ->
  recompute_root fuel h m s n p = Ok (mth (slice t s n), rest) ->
  (exists d, t !! Z.to_nat m = Some d /\ h = hash_leaf d)
  \/ collides (hashed_by_tree (slice t s n)) (inclusion_inputs fuel h m s n p).
Proof.
  revert s n p rest. induction fuel as [|f IH]; intros s n p rest Hr Hm Hh Hc; [done|].
  pose proof Hr as (H1 & H2 & H3). cbn [recompute_root inclusion_inputs] in *. destruct (n =? 1) eqn:E1.
  - apply Z.eqb_eq in E1 as ->. assert (m = s) as -> by lia. injection Hc as -> _.
  destruct (lookup_lt_is_Some_2 t (Z.to_nat s)) as [d Hd]; [lia|]. left. exists d. split; [done|].
  unfold slice. change (Z.to_nat 1) with 1%nat. by rewrite (drop_S _ _ _ Hd).
  - apply Z.eqb_neq in E1. assert (2 <= n) as Hn by lia. destruct (split_spec n Hn) as [Hs Hk].
  rewrite Hs in Hc. cbn [rbind] in Hc. cbv zeta.
  pose proof (in_range_left _ _ _ Hr Hn) as Hl. pose proof (in_range_right _ _ _ Hr Hn) as Hri.
  rewrite (mth_slice t s n) in Hc by done. rewrite (hashed_slice t s n) by done.
  destruct (m <? s + split_of n) eqn:Em; [apply Z.ltb_lt in Em|apply Z.ltb_ge in Em]; res_inv Hc;
    destruct v as [r [|sib' p']]; try done; destruct v0 as [sib p'']; cbn [pop0 fst snd] in *; injection E0 as -> ->; injection Hc as Hc ->; rewrite E.
  + apply children_left in Hc as [[-> _]|[Hne Heq]].
    * destruct (IH s (split_of n) p (sib :: rest)) as [?|?]; [done|lia|done..|by left|]. right. eapply collides_mono; [..|done]; set_solver.
    * right. exists (node_input (mth (slice t s (split_of n))) (mth (slice t (s + split_of n) (n - split_of n)))), (node_input r sib). set_solver.
    * rewrite mth_slice_len by (done || lia). by eapply recompute_len.
  + apply children_right in Hc as [[_ ->]|[Hne Heq]].
    * destruct (IH (s + split_of n) (n - split_of n) p (sib :: rest)) as [?|?]; [done|lia|done..|by left|]. right. eapply collides_mono; [..|done]; set_solver.
    * right. exists (node_input (mth (slice t s (split_of n))) (mth (slice t (s + split_of n) (n - split_of n)))), (node_input sib r). set_solver.
    * rewrite mth_slice_len by (done || lia). by eapply recompute_len.
Qed.

(** ** Consistency *)

(** The first [m] leaves of a slice, past its split. *)
Lemma mth_prefix t s m n :
  in_range t s n -> 2 <= n -> split_of n < m <= n ->
  mth (slice t s m) = hash_children (mth (slice t s (split_of n))) (mth (slice t (s + split_of n) (m - split_of n))).
Proof.
  intros Hr Hn Hm. destruct (split_spec n Hn) as [_ Hk]. rewrite <- (split_prefix m n Hn Hm).
  apply mth_slice; [|lia]. destruct Hr as (? & ? & ?). unfold in_range. lia.
Qed.

Lemma consistency_complete fuel t m s n b fr :
  in_range t s n -> 0 < m <= n -> n < Z.of_nat fuel -> (b = true -> fr = mth (slice t s m)) ->
  exists p, subproof fuel t m s n b = Ok p
  /\ forall rest, verify_subproof fuel m s n b (p ++ rest) fr
                  = Ok (mth (slice t s m), mth (slice t s n), rest).
Proof.
  revert m s n b. induction fuel as [|f IH]; intros m s n b Hr Hm Hf Hb; [lia|].
  cbn [subproof verify_subproof]. destruct (m =? n) eqn:E1.
  - apply Z.eqb_eq in E1 as ->. destruct b.
  + exists []. split; [done|]. intros rest. by rewrite <- Hb.
  + rewrite node_hash_ok by done. eexists. split; [done|]. intros rest. done.
  - apply Z.eqb_neq in E1. assert (2 <= n) as Hn by lia. destruct (split_spec n Hn) as [-> Hk]. cbn [rbind].
  pose proof (in_range_left _ _ _ Hr Hn) as Hl. pose proof (in_range_right _ _ _ Hr Hn) as Hri.
  destruct (m <=? split_of n) eqn:Em; [apply Z.leb_le in Em|apply Z.leb_gt in Em].
  + destruct (IH m s (split_of n) b) as (p & -> & Hp); [done|lia..|done|]. cbn [rbind].
    rewrite node_hash_ok by done. cbn [rbind]. eexists. split; [done|]. intros rest.
    rewrite <- app_assoc, Hp. simpl. by rewrite (mth_slice t s n).
  + destruct (IH (m - split_of n) (s + split_of n) (n - split_of n) false) as (p & -> & Hp); [done|lia..|done|].
    cbn [rbind]. rewrite node_hash_ok by done. cbn [rbind]. eexists. split; [done|]. intros rest.
    rewrite <- app_assoc, Hp. simpl. by rewrite (mth_slice t s n), (mth_prefix t s m n) by (done || lia).
Qed.

Definition all32 (p : list string) : Prop := Forall (fun s => String.length s = 32%nat) p.

Lemma pop0_all32 p s q : all32 p -> pop0 p = Ok (s, q) -> String.length s = 32%nat /\ all32 q.
Proof. intros Hp. destruct Hp; [done|]. by intros [= <- <-]. Qed.

Lemma subproof_len fuel m s n b p fr f1 s1 rest :
  String.length fr = 32%nat -> all32 p -> verify_subproof fuel m s n b p fr = Ok (f1, s1, rest) ->
  String.length s1 = 32%nat /\ all32 rest.
Proof.
  intros Hfr. revert m s n b p f1 s1 rest. induction fuel as [|f IH]; intros m s n b p f1 s1 rest Hp Hv; [done|].
  cbn [verify_subproof] in Hv. destruct (m =? n).
  - destruct b; [by injection Hv as <- <- <-|]. res_inv Hv. destruct v as [x q]. injection Hv as <- <- <-.
  by eapply pop0_all32.
  - res_inv Hv. destruct (m <=? _); res_inv Hv; destruct v0 as [[fx sx] q], v1 as [y q']; simpl in *;
    injection Hv as <- <- <-; apply IH in E0 as [_ Hq]; try done; split; try apply digest_len;
    by eapply pop0_all32.
Qed.

Lemma consistency_sound fuel t m s n b p fr f1 rest :
  in_range t s n -> 0 < m <= n -> String.length fr = 32%nat -> all32 p ->
  verify_subproof fuel m s n b p fr = Ok (f1, mth (slice t s n), rest) ->
  f1 = mth (slice t s m) \/ collides (hashed_by_tree (slice t s n)) (consistency_inputs fuel m s n b p fr).
Proof.
  intros Hr Hm Hfr. revert m s n b p f1 rest Hr Hm.
  induction fuel as [|f IH]; intros m s n b p f1 rest Hr Hm Hp Hv; [done|].
  cbn [verify_subproof consistency_inputs] in *. destruct (m =? n) eqn:E1.
  - apply Z.eqb_eq in E1 as ->. left. destruct b; [by injection Hv as <- <- _|].
  res_inv Hv. destruct v as [x q]. by injection Hv as <- <- _.
  - apply Z.eqb_neq in E1. assert (2 <= n) as Hn by lia. destruct (split_spec n Hn) as [Hs Hk].
  rewrite Hs in Hv. cbn [rbind] in Hv. cbv zeta.
  pose proof (in_range_left _ _ _ Hr Hn) as Hl. pose proof (in_range_right _ _ _ Hr Hn) as Hri.
  rewrite (mth_slice t s n) in Hv by done. rewrite (hashed_slice t s n) by done.
  destruct (m <=? split_of n) eqn:Em; [apply Z.leb_le in Em|apply Z.leb_gt in Em]; res_inv Hv;
    destruct v as [[fx sx] [|y' q]]; try done; destruct v0 as [y q']; cbn [pop0 fst snd] in *; injection E0 as -> ->; injection Hv as <- Hc _; rewrite E;
    destruct (subproof_len _ _ _ _ _ _ _ _ _ _ Hfr Hp E) as [Hlen _].
  + apply children_left in Hc as [[-> _]|[Hne Heq]]; [| |by rewrite mth_slice_len by (done || lia)].
    * destruct (IH m s (split_of n) b p fx (y :: q')) as [?|?]; [done|lia|done..|by left|]. right. eapply collides_mono; [..|done]; set_solver.
    * right. exists (node_input (mth (slice t s (split_of n))) (mth (slice t (s + split_of n) (n - split_of n)))), (node_input sx y). set_solver.
  + apply children_right in Hc as [[-> ->]|[Hne Heq]]; [| |by rewrite mth_slice_len by (done || lia)].
    * destruct (IH (m - split_of n) (s + split_of n) (n - split_of n) false p fx (mth (slice t s (split_of n)) :: q')) as [-> |?]; [done|lia|done..| |].
      { left. symmetry. apply mth_prefix; [done|done|lia]. }
      right. eapply collides_mono; [..|done]; set_solver.
    * right. exists (node_input (mth (slice t s (split_of n))) (mth (slice t (s + split_of n) (n - split_of n)))), (node_input y sx). set_solver.
Qed.
End proofs.
