(* ===== verification/MerkleProperties.v ===== *)
(** * Properties of the receipt Merkle tree *)

From Stdlib Require Import ZArith Lia Ascii String.
From stdpp Require Import base gmap strings list sorting.
From S2P Require Import Prelude Canon VdbExample PyJson Permits Merkle MerkleProofs.

Local Open Scope Z_scope.

Lemma slice_0 (t : tree) n : slice t 0 n = take (Z.to_nat n) t.
Proof. reflexivity. Qed.

Section properties.
Context `{Mac}.

Lemma root_ok t n : 0 <= n <= Z.of_nat (length t) -> root t (Some n) = Ok (mth (take (Z.to_nat n) t)).
Proof. intros Hn. unfold root. simpl. rewrite node_hash_ok; [done|]. unfold in_range. lia. Qed.

(** C35: inclusion proofs.  For a leaf index below a tree size, the tree
    returns a root, which is the RFC 6962 tree hash of the first [n]
    leaves, and an inclusion proof that verifies against it; and no proof
    at all verifies a 32-byte leaf hash at that index and size against that
    root unless it is the hash of the leaf there, or an input that the
    verifier hashes and another one that the tree hashes have one digest. *)
Theorem inclusion_correct t m n :
  (forall x, String.length (sha256_raw x) = 32%nat) ->
  0 <= m < n -> n <= Z.of_nat (length t) ->
  exists d p r, t !! Z.to_nat m = Some d /\ inclusion_proof t m (Some n) = Ok p /\ root t (Some n) = Ok r
  /\ r = mth (take (Z.to_nat n) t)
  /\ verify_inclusion_proof (hash_leaf d) m n p r = Ok true
  /\ forall h p', String.length h = 32%nat -> verify_inclusion_proof h m n p' r = Ok true ->
       h = hash_leaf d \/ collides (hashed_by_tree (take (Z.to_nat n) t)) (hashed_by_inclusion h m n p').
Proof.
  intros Hlen Hm Hn. destruct (lookup_lt_is_Some_2 t (Z.to_nat m)) as [d Hd]; [lia|].
  assert (Hr : in_range t 0 n) by (unfold in_range; lia).
  destruct (inclusion_complete (fuel_for n) t m 0 n d Hr) as (p & Hp & Hv); [lia|unfold fuel_for; lia|done|].
  exists d, p, (mth (take (Z.to_nat n) t)).
  assert (Hg : negb ((0 <=? m) && (m <? n)) = false).
  { rewrite (proj2 (Z.leb_le 0 m)), (proj2 (Z.ltb_lt m n)) by lia. done. }
  split_and!; [done| |by apply root_ok; lia|done| |].
  - unfold inclusion_proof. simpl. rewrite Hg. exact Hp.
  - unfold verify_inclusion_proof. rewrite Hg.
  specialize (Hv []). rewrite app_nil_r in Hv. rewrite Hv. simpl. by rewrite slice_0, str_eqb_refl.
  - intros h p' Hh. unfold verify_inclusion_proof. rewrite Hg.
  destruct (recompute_root _ _ _ _ _ _) as [[c rest]|[]] eqn:Ec; simpl; try done.
  intros [= He]. apply andb_true_iff in He as [He _]. apply str_eqb_spec in He as ->.
  destruct (inclusion_sound Hlen (fuel_for n) t h m 0 n p' rest Hr) as [(d' & Hd' & ->)|?];
    [lia|done|exact Ec|left|by right]. congruence.
Qed.

(** C36: consistency proofs.  For sizes [0 < first <= second], the proof the
    tree returns verifies between the two roots; and if a proof of 32-byte
    nodes verifies a 32-byte first root against the root of the first
    [second] leaves, that first root is the root of the first [first]
    leaves (the smaller tree is a prefix of the larger), or an input that the
    verifier hashes and another one that the tree hashes have one digest. *)
Theorem consistency_correct t first second :
  (forall x, String.length (sha256_raw x) = 32%nat) ->
  0 < first <= second -> second <= Z.of_nat (length t) ->
  exists p r1 r2, consistency_proof t first (Some second) = Ok p
  /\ root t (Some first) = Ok r1 /\ root t (Some second) = Ok r2
  /\ r1 = mth (take (Z.to_nat first) t)
  /\ verify_consistency_proof first second r1 r2 p = Ok true
  /\ forall r p', String.length r = 32%nat -> all32 p' ->
       verify_consistency_proof first second r r2 p' = Ok true ->
       r = r1 \/ collides (hashed_by_tree (take (Z.to_nat second) t)) (hashed_by_consistency first second r p').
Proof.
  intros Hlen Hf Hs. assert (Hr : in_range t 0 second) by (unfold in_range; lia).
  assert (Hg : negb ((0 <=? first) && (first <=? second) && (second <=? Z.of_nat (length t))) = false).
  { rewrite (proj2 (Z.leb_le 0 first)), (proj2 (Z.leb_le first second)), (proj2 (Z.leb_le second _)) by lia. done. }
  unfold consistency_proof, verify_consistency_proof. cbn [default from_option id]. rewrite Hg.
  cbn [raise_if rbind].
  rewrite (proj2 (Z.eqb_neq first 0)), (proj2 (Z.ltb_ge second first)) by lia. cbn [orb].
  destruct (first =? second) eqn:E.
  - apply Z.eqb_eq in E as ->. exists [], (mth (take (Z.to_nat second) t)), (mth (take (Z.to_nat second) t)).
  split_and!; [done|by apply root_ok; lia..|done|by rewrite str_eqb_refl|].
  intros r p' _ _ [= He]. apply andb_true_iff in He as [He _]. left. by apply str_eqb_spec in He.
  - apply Z.eqb_neq in E.
  destruct (consistency_complete (fuel_for second) t first 0 second true (mth (slice t 0 first)) Hr)
    as (p & Hp & Hv); [lia|unfold fuel_for; lia|done|].
  exists p, (mth (take (Z.to_nat first) t)), (mth (take (Z.to_nat second) t)).
  split_and!; [exact Hp|by apply root_ok; lia..|done| |].
  + specialize (Hv []). rewrite app_nil_r, !slice_0 in Hv.
    rewrite Hv. simpl. by rewrite !str_eqb_refl.
  + intros r p' Hl Hp'. destruct (verify_subproof _ _ _ _ _ _ _) as [[[f1 s1] rest]|[]] eqn:Ev; simpl; try done.
    intros [= He]. rewrite !andb_true_iff, !str_eqb_spec in He. destruct He as [[-> ->] _].
    rewrite <- slice_0 in Ev. by apply (consistency_sound Hlen) in Ev; [|done|lia|done|done].
Qed.

(** A negative size always trips the assertion. *)
Lemma negative_asserts fuel m s n b p fr :
  m < 0 -> m < n -> n < Z.of_nat fuel -> (0 < fuel)%nat -> verify_subproof fuel m s n b p fr = Err AssertErr.
Proof.
  revert s n b p. induction fuel as [|f IH]; intros s n b p Hm Hn Hf Hp; [lia|]. cbn [verify_subproof].
  rewrite (proj2 (Z.eqb_neq m n)) by lia.
  destruct (decide (n < 2)) as [H2|H2].
  - unfold largest_power_of_2_less_than. by rewrite (proj2 (Z.ltb_lt n 2)).
  - destruct (split_spec n ltac:(lia)) as [-> Hk]. cbn [rbind].
  rewrite (proj2 (Z.leb_le m (split_of n))) by lia. rewrite IH by lia. done.
Qed.

(** What the consistency verifier does not check.  It never looks at the
    length of a proof node, so bytes can be moved across the boundary of two
    nodes: for any four leaves there is a 32-byte first root that is not the
    root of the first three (or that root's input has a second preimage) which it accepts
    as consistent with the root of the four.  And for a negative first size
    it raises AssertionError instead of returning False. *)
Theorem consistency_verifier_gaps a b c d :
  (forall x, String.length (sha256_raw x) = 32%nat) ->
  (exists r p, verify_consistency_proof 3 4 r (mth [a; b; c; d]) p = Ok true
   /\ String.length r = 32%nat /\ (r <> mth [a; b; c] \/ exists y, y <> node_input (mth [a; b]) (hash_leaf c) /\ sha256_raw y = mth [a; b; c]))
  /\ forall first second r1 r2 p, first < 0 -> first < second ->
     verify_consistency_proof first second r1 r2 p = Err AssertErr.
Proof.
  intros Hlen. split.
  - destruct (hash_leaf d) as [|x rest] eqn:Ed.
  { pose proof (Hlen (String "000"%char d)) as Hl. unfold hash_leaf in Ed. by rewrite Ed in Hl. }
  set (node := hash_leaf c +:+ String x "").
  exists (hash_children (mth [a; b]) node), [node; rest; mth [a; b]]. split_and!.
  + assert (Hsr : hash_children node rest = mth [c; d]).
    { change (mth [c; d]) with (hash_children (hash_leaf c) (hash_leaf d)). unfold node, hash_children.
      rewrite Ed. do 2 f_equal. by rewrite <- sapp_assoc. }
    assert (Hv : verify_subproof (fuel_for 4) 3 0 4 true [node; rest; mth [a; b]]
                   (hash_children (mth [a; b]) node)
                 = Ok (hash_children (mth [a; b]) node, hash_children (mth [a; b]) (hash_children node rest), []))
      by reflexivity.
    unfold verify_consistency_proof. change (3 =? 4) with false. change ((3 =? 0) || (4 <? 3)) with false.
    cbn [orb]. rewrite Hv, Hsr. simpl.
    change (mth [a; b; c; d]) with (hash_children (mth [a; b]) (mth [c; d])). by rewrite !str_eqb_refl.
  + apply Hlen.
  + change (mth [a; b; c]) with (hash_children (mth [a; b]) (hash_leaf c)).
    destruct (decide (hash_children (mth [a; b]) node = hash_children (mth [a; b]) (hash_leaf c))) as [He|He];
      [|by left]. apply children_left in He as [[_ He]|[Hne Heq]]; [| |done].
    2: { right. exists (node_input (mth [a; b]) node). split; [by apply not_eq_sym|by symmetry]. }
    exfalso. apply (f_equal String.length) in He. unfold node in He. rewrite sapp_length in He. simpl in He. lia.
  - intros first second r1 r2 p Hf Hs. unfold verify_consistency_proof.
  rewrite (proj2 (Z.eqb_neq first second)), (proj2 (Z.eqb_neq first 0)), (proj2 (Z.ltb_ge second first)) by lia.
  cbn [orb]. rewrite negative_asserts; [done|done|done|unfold fuel_for; lia|unfold fuel_for; lia].
Qed.
End properties.

(** ** Leaf allocation *)

(** What happens to the receipts table. *)
Inductive mop_step : mdb -> mdb -> Prop :=
  | mo_commit db c db' i : commit_receipt db c = Ok (db', i) -> mop_step db db'
  | mo_seed db : mop_step db (seed_merkle_sequence db).

(** The indexed leaves in commit order have increasing indices below the
    counter. *)
Definition index_inv (db : mdb) : Prop :=
  let l := omap indexed (m_receipts db) in
  StronglySorted (fun x y : Z * string => x.1 < y.1) l
  /\ forall x, x ∈ l -> exists n, m_next db = Some n /\ x.1 < n.

Lemma sorted_leaves l :
  StronglySorted (fun x y : Z * string => x.1 < y.1) l -> foldr insert_index [] l = l.
Proof.
  induction 1 as [|x l Hs IH Hx]; [done|]. simpl. rewrite IH. destruct l as [|y l]; [done|]. simpl.
  inversion Hx; subst. rewrite (proj2 (Z.leb_le _ _)); [done|]. lia.
Qed.

Lemma ordered_is_commit_order db :
  index_inv db -> get_merkle_ordered_cose_bytes db = map snd (omap indexed (m_receipts db)).
Proof. intros [Hs _]. unfold get_merkle_ordered_cose_bytes. by rewrite sorted_leaves. Qed.

Lemma strongly_sorted_snoc (l : list (Z * string)) x :
  StronglySorted (fun x y : Z * string => x.1 < y.1) l -> (forall y, y ∈ l -> y.1 < x.1) ->
  StronglySorted (fun x y : Z * string => x.1 < y.1) (l ++ [x]).
Proof.
  induction 1 as [|y l Hs IH Hy]; intros Hx; simpl.
  - repeat constructor.
  - constructor; [apply IH; set_solver|]. apply Forall_app. split; [done|]. constructor; [|done]. apply Hx. by left.
Qed.

Lemma mop_step_ok db db' :
  index_inv db -> mop_step db db' ->
  index_inv db' /\ extends (omap indexed (m_receipts db)) (omap indexed (m_receipts db'))
  /\ (forall n, m_next db = Some n -> exists n', m_next db' = Some n' /\ n <= n').
Proof.
  intros [Hs Hn] Hst.
  assert (Hnone : forall c, index_inv (mk_mdb (m_next db) (m_receipts db ++ [mk_mreceipt c None]))
    /\ extends (omap indexed (m_receipts db)) (omap indexed (m_receipts db ++ [mk_mreceipt c None]))).
  { intros c. unfold index_inv. simpl. rewrite omap_app. simpl. rewrite app_nil_r. done. }
  destruct Hst as [db0 c db' i Hc|db0].
  - unfold commit_receipt in Hc. destruct c as [c|].
    + destruct (str_eqb c ""); [injection Hc as <- _; split_and!; [apply Hnone..|eauto]; intros; exists n; split; [done|lia]|].
      destruct (m_next db0) as [n|] eqn:En; [|done]. injection Hc as <- _. unfold index_inv. simpl.
      rewrite omap_app. simpl. split_and!.
      * apply strongly_sorted_snoc; [done|]. intros y Hy. destruct (Hn y Hy) as (n' & [= <-] & Hlt). simpl. lia.
      * intros x [Hx|Hx%list_elem_of_singleton]%elem_of_app.
        -- destruct (Hn x Hx) as (n' & [= <-] & Hlt). exists (n + 1). split; [done|lia].
        -- subst x. exists (n + 1). simpl. split; [done|lia].
      * apply extends_app.
      * intros n' [= <-]. exists (n + 1). split; [done|lia].
    + injection Hc as <- _. split_and!; [apply Hnone..|]. intros. exists n. split; [done|lia].
  - unfold seed_merkle_sequence. destruct (m_next db0) as [n|] eqn:En.
    + split; [split; [done|by rewrite En]|]. split; [apply extends_refl|]. intros n' Hn'. exists n'. split; [congruence|lia].
    + unfold index_inv. simpl. split_and!; [done| |apply extends_refl|done].
      intros x Hx. destruct (Hn x Hx) as (? & ? & _). congruence.
Qed.

(** The leaf order is append-only.  From an empty receipts table, through
    any sequence of receipt commits and seedings, every index is given to one
    receipt, reconstruction by index order is commit order, and the leaves
    reconstructed earlier are an initial segment of the leaves reconstructed
    later; so the tree of the earlier table is the one a consistency proof
    compares with. *)
Theorem leaves_append_only db0 db db' :
  m_receipts db0 = [] -> steps mop_step db0 db -> steps mop_step db db' ->
  extends (get_merkle_ordered_cose_bytes db) (get_merkle_ordered_cose_bytes db')
  /\ NoDup (map fst (omap indexed (m_receipts db')))
  /\ get_merkle_ordered_cose_bytes db' = map snd (omap indexed (m_receipts db')).
Proof.
  intros H0 H1 H2.
  assert (Hi0 : index_inv db0).
  { unfold index_inv. rewrite H0. simpl. split; [constructor|]. intros x Hx. by apply not_elem_of_nil in Hx. }
  assert (Hi : index_inv db) by (eapply (steps_invariant mop_step index_inv); [|exact Hi0|exact H1];
    intros a b Ha Hb; by apply (mop_step_ok a b)).
  assert (Hrun : index_inv db' /\ extends (omap indexed (m_receipts db)) (omap indexed (m_receipts db'))).
  { clear H1. induction H2 as [|a b c Hs IH Hst]; [split; [done|apply extends_refl]|].
    destruct (IH Hi) as [Hb He]. destruct (mop_step_ok b c Hb Hst) as (Hc & He' & _). split; [done|]. by etrans. }
  destruct Hrun as [Hi' [zs Hzs]]. rewrite !ordered_is_commit_order by done. split_and!; [|shelve|done].
  rewrite Hzs, map_app. apply extends_app.
  Unshelve. destruct Hi' as [Hs _]. clear -Hs. induction Hs as [|x l Hs IH Hx]; simpl; [constructor|].
  constructor; [|done]. rewrite list_elem_of_In, in_map_iff. intros (y & Hy & Hin).
  rewrite Forall_forall in Hx. apply list_elem_of_In in Hin. specialize (Hx y Hin). lia.
Qed.

(** ** Witnesses *)

(** A checksum padded to 32 bytes in place of SHA-256. *)
Definition pad32 (s : string) : string :=
  string_of_list_ascii (take 32 (chars s ++ replicate 32 "0"%char)).
#[export] Instance mac32 : Mac := {|
  hmac_raw := fun k m => pad32 (checksum (k +:+ m));
  hmac_hex := fun k m => checksum (k +:+ m);
  sha256_raw := fun s => pad32 (checksum s) |}.

Lemma pad32_len s : String.length (pad32 s) = 32%nat.
Proof.
  unfold pad32.
  set (l := take 32 _). assert (Hl : length l = 32%nat).
  { subst l. rewrite length_take, length_app, length_replicate. lia. }
  clearbody l. rewrite <- Hl. clear. induction l as [|c l IH]; simpl; [done|]. by rewrite IH.
Qed.

Lemma mac32_len x : String.length (sha256_raw x) = 32%nat.
Proof. apply pad32_len. Qed.

Lemma inclusion_correct_witness :
  exists p r, inclusion_proof ["a"; "b"; "c"; "d"; "e"] 2 (Some 5) = Ok p
    /\ verify_inclusion_proof (hash_leaf "c") 2 5 p r = Ok true.
Proof.
  destruct (inclusion_correct ["a"; "b"; "c"; "d"; "e"] 2 5 mac32_len ltac:(lia) ltac:(simpl; lia))
    as (d & p & r & Hd & Hp & _ & _ & Hv & _). injection Hd as <-. exists p, r. split; [exact Hp|exact Hv].
Defined.

Lemma consistency_correct_witness :
  exists p r1 r2, consistency_proof ["a"; "b"; "c"; "d"; "e"] 3 (Some 5) = Ok p
    /\ verify_consistency_proof 3 5 r1 r2 p = Ok true.
Proof.
  destruct (consistency_correct ["a"; "b"; "c"; "d"; "e"] 3 5 mac32_len ltac:(lia) ltac:(simpl; lia))
    as (p & r1 & r2 & Hp & _ & _ & _ & Hv & _). exists p, r1, r2. split; [exact Hp|exact Hv].
Defined.

Lemma consistency_verifier_gaps_witness :
  exists r p, verify_consistency_proof 3 4 r (mth ["a"; "b"; "c"; "d"]) p = Ok true.
Proof.
  destruct (consistency_verifier_gaps "a" "b" "c" "d" mac32_len) as [(r & p & Hv & _) _]. exists r, p. exact Hv.
Defined.

Definition leaf_db (l : list string) : mdb :=
  fold_left (fun db c => match commit_receipt db (Some c) with Ok (db', _) => db' | Err _ => db end) l
    (mk_mdb (Some 0) []).

Lemma leaves_append_only_witness : extends ["x"; "y"] ["x"; "y"; "z"].
Proof.
  apply (leaves_append_only (mk_mdb (Some 0) []) (leaf_db ["x"; "y"]) (leaf_db ["x"; "y"; "z"])).
  - reflexivity.
  - eapply steps_snoc; [eapply steps_snoc; [apply steps_refl|]|].
    + apply (mo_commit _ (Some "x") (leaf_db ["x"]) (Some 0)). reflexivity.
    + apply (mo_commit _ (Some "y") _ (Some 1)). reflexivity.
  - eapply steps_snoc; [apply steps_refl|]. apply (mo_commit _ (Some "z") _ (Some 2)). reflexivity.
Defined.
