(* ===== verification/Engine.v ===== *)
(** * Capability mounting and the execution binding

    capability_mount/engine.py with the resource syntax of effects.py and
    envelope.py: the mounter, which attenuates a package to a scope and a
    policy, the capability profile, the local checks and the guarded execution
    of a consequence, and the binding's hash-chained audit trail.  Drawn ids
    and timestamps are arguments. *)

From Stdlib Require Import ZArith Lia Ascii String.
From stdpp Require Import base gmap strings list sorting.
From S2P Require Import Prelude Canon PyJson MountModels Lease Consequence.

Inductive mount_err := MountError (msg : string).

(** ** CapabilityProfile *)

Definition mem (x : string) (l : list string) : bool := bool_decide (x ∈ l).

Definition profile_allows (g : Grants) (action : string) : bool :=
  if mem action (gr_blocked g) then false else mem action (gr_reads g) || mem action (gr_writes g).

Definition profile_is_blocked (g : Grants) (action : string) : bool := mem action (gr_blocked g).

Definition profile_covers_resource (g : Grants) (resource : option string) : bool :=
  match gr_resources g with
  | [] => true
  | rs => match resource with Some r => mem r rs | None => false end
  end.

(** ** Mounter *)

(** [^[A-Za-z0-9._-]{1,128}$] (effects.py, [validate_resource]). *)
Definition resource_char (c : ascii) : bool :=
  let n := nat_of_ascii c in
  ((65 <=? n)%nat && (n <=? 90)%nat) || ((97 <=? n)%nat && (n <=? 122)%nat) || ((48 <=? n)%nat && (n <=? 57)%nat)
  || (n =? 46)%nat || (n =? 95)%nat || (n =? 45)%nat.
Definition valid_resource (r : string) : bool :=
  (1 <=? String.length r)%nat && (String.length r <=? 128)%nat && forallb resource_char (chars r).

(** [sorted(s)] of a set. *)
Definition sorted_set (s : gset string) : list string := merge_sort String.le (elements s).

Definition effective_policy (package : CapabilityPackage) (requested : option MountPolicy) : MountPolicy :=
  let trusted := mk_policy (default "draft_only" (pk_mode package)) (default true (pk_human package))
                   (default true (pk_suppression package)) (default false (pk_persistent package)) in
  let caller := default default_policy requested in
  mk_policy (mp_mode trusted) (mp_human_approval trusted || mp_human_approval caller)
    (mp_suppression_check trusted || mp_suppression_check caller)
    (mp_persistent_memory trusted && mp_persistent_memory caller).

Definition MAX_TTL_SECONDS : Z := 600.

Section mounter.
Context `{Ext}.

Definition operation_envelope_digest (package_ref target_ref action resource : string)
  (arguments : list (string * json)) : string :=
  sha256_hex ("veklom-consequence-envelope-v1" +:+ String "010"%char ""
  +:+ py_dumps (JObj [("action", JStr action); ("arguments", JObj arguments);
        ("package_ref", JStr package_ref); ("resource", JStr resource); ("target_ref", JStr target_ref)])).

(** The writes, resources and envelope a bound operation leaves. *)
Definition bind_operation (package : CapabilityPackage) (scope : MountScope) (granted_writes granted_resources : gset string)
  : res mount_err (gset string * gset string * option string) :=
  match sc_operation scope with
  | None => Ok (granted_writes, granted_resources, None)
  | Some op =>
  do? raise_if (negb (negb (str_eqb (py_or (pk_target_ref package) "") "")
                      && opt_eqb (Some (bo_target_ref op)) (pk_target_ref package)))
        (MountError "operation_target_not_bound_to_package") in
  do? raise_if (negb (bool_decide (bo_action op ∈ granted_writes))) (MountError "operation_action_not_granted") in
  do? raise_if (negb (valid_resource (bo_resource op))) (MountError "invalid_resource") in
  do? raise_if (match sc_resources scope with
                | Some _ => negb (bool_decide (granted_resources = {[bo_resource op]}))
                | None => false
                end) (MountError "operation_resource_mismatch") in
  Ok ({[bo_action op]}, {[bo_resource op]},
      Some (operation_envelope_digest (pk_id package) (bo_target_ref op) (bo_action op) (bo_resource op)
              (bo_arguments op)))
  end.

Definition to_set (l : list string) : gset string := list_to_set l.

Definition mount (package : CapabilityPackage) (scope : MountScope) (policy : option MountPolicy) (ttl : Z)
  (execution_id : option string) (mount_hex exec_hex token_hex nonce : string) (issued_at : Z)
  : res mount_err Token :=
  do? raise_if ((ttl <? 1)%Z || (MAX_TTL_SECONDS <? ttl)%Z)
      (MountError "ttl must be between 1 and 600 seconds") in
  let selected := effective_policy package policy in
  do? raise_if (mp_persistent_memory selected)
      (MountError "persistent memory is not permitted for ephemeral mounts") in
  let package_reads := to_set (pk_reads package) in
  let package_writes := to_set (pk_writes package) in
  let requested_reads := match sc_reads scope with Some l => to_set l | None => package_reads end in
  let requested_writes := match sc_writes scope with Some l => to_set l | None => package_writes end in
  do? (match sc_resources scope with
     | None => Ok tt
     | Some [] => Err (MountError "resources, when given, must name at least one resource")
     | Some l => raise_if (negb (forallb valid_resource l)) (MountError "invalid_resource")
     end) in
  let? wre := bind_operation package scope (package_writes ∩ requested_writes)
              (to_set (default [] (sc_resources scope))) in
  let granted_writes := wre.1.1 in
  let grants := mk_grants (sorted_set (package_reads ∩ requested_reads)) (sorted_set granted_writes)
                (sorted_set wre.1.2) (sorted_set (to_set (pk_blocked package) ∪ to_set (sc_blocked scope)))
                (sorted_set (to_set (pk_external_send package) ∩ granted_writes))
                (sorted_set (to_set (pk_suppression_required package) ∩ granted_writes)) wre.2 in
  Ok (mk_token ("tok_" +:+ token_hex) ("mnt_" +:+ mount_hex) (py_or execution_id ("exec_" +:+ exec_hex))
      (pk_id package) (sc_workspace scope) (sc_project scope) grants selected issued_at
      (issued_at + ttl * 1000000) ttl nonce).
End mounter.

(** ** ExecutionBinding *)

Record audit_event := mk_audit {
  ae_id : string; ae_execution : string; ae_action : string; ae_decision : Decision; ae_reason : string;
  ae_ts : string; ae_prev : option string; ae_hash : string }.

Definition decision_value (d : Decision) : string := match d with ALLOW => "allow" | DENY => "deny" end.

(** The binding, its in-memory sink, the tables, and the number of times the
    consequence callback was called. *)
Record bworld := mk_bworld {
  bw_db : cdb; bw_terminated : bool; bw_last_hash : option string; bw_events : list audit_event; bw_calls : nat }.

Section binding.
Context `{Ext}.
(** The token of the binding, and the ids and timestamps its audit events
    draw, by position. *)
Context (token : Token) (ev_id ev_ts : nat -> string).

Definition audit_hash (e : audit_event) : string :=
  sha256_hex (py_dumps_ascii (JObj [("event_id", JStr (ae_id e)); ("execution_id", JStr (ae_execution e));
  ("action", JStr (ae_action e)); ("decision", JStr (decision_value (ae_decision e)));
  ("reason", JStr (ae_reason e)); ("ts", JStr (ae_ts e)); ("prev_hash", jopt (ae_prev e))])).

Fixpoint verify_from (previous : option string) (l : list audit_event) : bool :=
  match l with
  | [] => true
  | e :: l' =>
  if negb (opt_eqb (ae_prev e) previous) then false
  else if negb (str_eqb (audit_hash e) (ae_hash e)) then false
  else verify_from (Some (ae_hash e)) l'
  end.
(** [InMemoryAuditSink.verify_chain]. *)
Definition verify_chain (l : list audit_event) : bool := verify_from None l.

Definition set_audit (w : bworld) (last : option string) (evs : list audit_event) : bworld :=
  mk_bworld (bw_db w) (bw_terminated w) last evs (bw_calls w).

(** [_append]. *)
Definition append (action : string) (d : Decision) (reason : string) : eff cerr bworld unit := fun w =>
  let n := length (bw_events w) in
  let e := mk_audit (ev_id n) (tk_execution_id token) action d reason (ev_ts n) (bw_last_hash w) "pending" in
  let h := audit_hash e in
  let hashed := mk_audit (ev_id n) (tk_execution_id token) action d reason (ev_ts n) (bw_last_hash w) h in
  Ret tt (set_audit w (Some h) (bw_events w ++ [hashed])).

Definition set_terminated (w : bworld) : bworld :=
  mk_bworld (bw_db w) true (bw_last_hash w) (bw_events w) (bw_calls w).

(** [append(...)] and [raise]. *)
Definition deny {A} (action reason : string) (e : cerr) : eff cerr bworld A :=
  do! append action DENY reason in eraise e.

Definition check_live (now : Z) : eff cerr bworld unit := fun w =>
  if bw_terminated w || bool_decide (tk_mount_id token ∈ d_revoked (bw_db w)) then
  deny "execution" "terminated" (ExecutionTerminatedError "execution is terminated") (set_terminated w)
  else if (tk_expires_at token <? now)%Z then
  deny "execution" "token_expired" (TokenExpiredErrorM "execution token has expired") w
  else Ret tt w.

(** Keyword arguments: [None] is Python's None, [Some s] a value whose str
    is [s]. *)
Definition kwargs := list (string * option string).
Definition kw_get (k : string) (kw : kwargs) : option string :=
  match assoc k kw with Some v => v | None => None end.
(** [str(kwargs.get(k)) if k in kwargs else None]. *)
Definition kw_str (k : string) (kw : kwargs) : option string :=
  match assoc k kw with Some v => Some (default "None" v) | None => None end.
Definition kw_pop (k : string) (kw : kwargs) : kwargs := filter (fun p => p.1 <> k) kw.

Definition local_eval (action : string) (kw : kwargs) (now : Z) : eff cerr bworld unit :=
  let g := tk_grants token in
  do! check_live now in
  if negb (profile_allows g action) then
  let reason := if profile_is_blocked g action then "blocked_action" else "not_in_capability_profile" in
  deny action reason (PolicyErrorM reason)
  else if negb (profile_covers_resource g (kw_get "resource" kw)) then
  deny action "resource_not_granted" (PolicyErrorM "resource_not_granted")
  else if mem action (gr_external_send g) && mp_human_approval (tk_policy token) then
  deny action "human_approval_not_verified" (PolicyErrorM "human_approval_not_verified")
  else if mem action (gr_suppression_required g) && mp_suppression_check (tk_policy token) then
  deny action "suppression_not_verified" (PolicyErrorM "suppression_not_verified")
  else eret tt.

Definition evaluate_pure (action : string) (kw : kwargs) (now : Z) : eff cerr bworld unit :=
  do! local_eval action kw now in append action ALLOW "allowed".

(** A step on the tables. *)
Definition on_db {A} (m : eff cerr cdb A) : eff cerr bworld A := fun w =>
  let set db := mk_bworld db (bw_terminated w) (bw_last_hash w) (bw_events w) (bw_calls w) in
  match m (bw_db w) with
  | Ret a db => Ret a (set db)
  | Raise e db => Raise e (set db)
  | Crash db => Crash (set db)
  end.

(** The call of [fn], counted. *)
Definition call_fn (fn : eff cerr cdb json) : eff cerr bworld json := fun w =>
  on_db fn (mk_bworld (bw_db w) (bw_terminated w) (bw_last_hash w) (bw_events w) (S (bw_calls w))).

(** [try: m except Exception: pass]. *)
Definition try_pass (m : eff cerr bworld unit) : eff cerr bworld unit := fun w =>
  match m w with Raise _ w' => Ret tt w' | o => o end.

Definition type_name (e : cerr) : string :=
  match e with
  | ConsequenceInvariantViolation _ => "ConsequenceInvariantViolation"
  | ExecutionTerminatedError _ => "ExecutionTerminatedError" | IntegrityError => "IntegrityError"
  | LeaseInvariantViolation _ => "InvariantViolationError" | ValueErrorM _ => "ValueError"
  | PermissionErrorM _ => "PermissionError" | RuntimeErrorM _ => "RuntimeError" | TypeErrorM => "TypeError"
  | PolicyErrorM _ => "PolicyError" | TokenExpiredErrorM _ => "TokenExpiredError"
  | TargetRefusedError _ => "TargetRefusedError"
  | CappoUncertainError _ => "CappoUncertainError" | TerminalExecutionError _ => "TerminalExecutionError"
  | ProviderExecutionError _ => "ProviderExecutionError"
  | ExecutorUnavailableError _ => "ExecutorUnavailableError" | OtherException _ => "Exception"
  end.
Definition is_policy_error (e : cerr) : bool :=
  match e with
  | ExecutionTerminatedError _ | PolicyErrorM _ | TokenExpiredErrorM _ | TargetRefusedError _ => true
  | _ => false
  end.

(** [except Exception] around the callback: report, record, re-raise. *)
Definition fn_failed (op_id action report_id : string) (exc : cerr) : eff cerr bworld json :=
  do! try_pass (on_db (completion_reporter op_id false (Some (type_name exc +:+ ": " +:+ err_str exc))
                       (str_eqb (type_name exc) "CappoUncertainError") "callback_exception" report_id)) in
  do! append action DENY ("consequence_failed:" +:+ type_name exc) in
  eraise exc.

Definition fn_returned (op_id action report_id : string) (result : json) : eff cerr bworld json :=
  do! try_pass (on_db (completion_reporter op_id true None false "callback_return" report_id)) in
  do! append action ALLOW "allowed" in
  eret result.

(** Claiming STARTED: a refusal at the fence is re-raised, any other
    exception counts as not owned. *)
Definition claim_started (action op_id start_id : string) : eff cerr bworld bool := fun w =>
  match on_db (begin_consequence (tk_mount_id token) op_id start_id) w with
  | Raise e w' => if is_policy_error e then deny action (err_str e) e w' else Ret false w'
  | o => o
  end.

Definition intent_hash_of (action : string) (kw : kwargs) : string :=
  build_intent_hash (tk_mount_id token) (tk_execution_id token) action (kw_str "resource" kw)
  (map (fun p => (p.1, JStr (default "None" p.2)))
     (filter (fun p => p.1 ∉ ["approval_token"; "suppression_evidence"; "suppression_confirmed"]) kw)).

(** [consequence], with the callables that [MountRegistry._record] injects;
    [evaluate] is [None] when no evaluator was injected. *)
Definition consequence (action : string) (fn : eff cerr cdb json) (op_id : string) (kw0 : kwargs) (now : Z)
  (evaluate : option (eff cerr cdb (Decision * string * option string * mount_row)))
  (auth_id start_id report_id : string) : eff cerr bworld json :=
  do! local_eval action kw0 now in
  let kw := kw_pop "suppression_confirmed" (kw_pop "approval_token" kw0) in
  match evaluate with
  | None => deny action "cappo_evaluator_missing" (PolicyErrorM "cappo_evaluator_missing")
  | Some ev =>
  let! dr := on_db (cappo_evaluator ev (tk_mount_id token) action (kw_str "resource" kw) op_id
                      (intent_hash_of action kw) auth_id) in
  match dr with
  | (DENY, reason, _) => deny action reason (PolicyErrorM reason)
  | (ALLOW, _, _) =>
    let! owned := claim_started action op_id start_id in
    if negb owned then deny action "consequence_already_started" (PolicyErrorM "consequence_already_started")
    else fun w =>
      match call_fn fn w with
      | Raise exc w' => fn_failed op_id action report_id exc w'
      | Ret result w' => fn_returned op_id action report_id result w'
      | Crash w' => Crash w'
      end
  end
  end.

(** [terminate]. *)
Definition terminate (reason : string) : eff cerr bworld unit := fun w =>
  if negb (mem reason ["task_complete"; "token_expiry"; "explicit_terminate"]) then
  Raise (PolicyErrorM "unsupported unmount reason") w
  else if bw_terminated w then Ret tt w
  else append "execution" ALLOW ("terminated:" +:+ reason) (set_terminated w).
End binding.
