(* ===== verification/EngineProperties.v ===== *)
(** * Properties of mounting and of the execution binding *)

From Stdlib Require Import ZArith Lia Ascii String.
From stdpp Require Import base gmap strings list pretty sorting.
From S2P Require Import Prelude Canon VdbExample PyJson MountModels Lease Consequence Mounts Permits ConsequenceProofs ConsequenceProperties MountProperties MountDemo Engine.

(** ** Mounting *)

Lemma sorted_set_elem x s : x ∈ sorted_set s <-> x ∈ s.
Proof. unfold sorted_set. rewrite merge_sort_Permutation. apply elem_of_elements. Qed.

Lemma to_set_elem x l : x ∈ to_set l <-> x ∈ l.
Proof. unfold to_set. apply elem_of_list_to_set. Qed.

Section mounter.
Context `{Ext}.

(** What a bound operation can leave. *)
Lemma bind_operation_ok package scope gw gr wre :
  bind_operation package scope gw gr = Ok wre ->
  wre.1.1 ⊆ gw /\ (sc_resources scope <> None -> wre.1.2 = gr)
  /\ match sc_operation scope with
   | None => wre = (gw, gr, None)
   | Some op => wre.1.1 = {[bo_action op]} /\ wre.1.2 = {[bo_resource op]}
       /\ pk_target_ref package = Some (bo_target_ref op) /\ valid_resource (bo_resource op) = true
       /\ wre.2 = Some (operation_envelope_digest (pk_id package) (bo_target_ref op) (bo_action op)
                          (bo_resource op) (bo_arguments op))
   end.
Proof.
  unfold bind_operation. destruct (sc_operation scope) as [op|]; [|intros [= <-]; done].
  intros Hb. res_inv Hb. injection Hb as <-. simpl.
  apply negb_false_iff, andb_true_iff in E as [_ E]. apply bool_decide_eq_true in E.
  apply negb_false_iff, bool_decide_eq_true in E0. apply negb_false_iff in E1.
  split_and!; [set_solver| |done..]. intros Hne. destruct (sc_resources scope); [|done].
  apply negb_false_iff, bool_decide_eq_true in E2. done.
Qed.

(** C37: a mount never grants more than its package and scope.  The token of
    a successful mount grants a read only if package and scope both name
    it, a write only if both do, blocks everything either blocks (and a
    blocked action is not allowed even when granted), lists for approval
    and suppression every granted write the package classifies, names
    exactly the requested resources, which are well formed, allows no
    persistent memory, keeps every approval gate that the package or the
    caller requires, and lives between 1 and 600 seconds; a bound operation
    leaves that operation's action and resource alone, on the package's own
    target, with its envelope digest. *)
Theorem mount_attenuates package scope policy ttl ex a b c d t0 tok :
  mount package scope policy ttl ex a b c d t0 = Ok tok ->
  let g := tk_grants tok in
  (forall x, x ∈ gr_reads g <-> x ∈ pk_reads package /\ (forall l, sc_reads scope = Some l -> x ∈ l))
  /\ (forall x, x ∈ gr_writes g -> x ∈ pk_writes package /\ (forall l, sc_writes scope = Some l -> x ∈ l))
  /\ (forall x, x ∈ gr_blocked g <-> x ∈ pk_blocked package \/ x ∈ sc_blocked scope)
  /\ (forall x, profile_allows g x = true ->
      (x ∈ gr_reads g \/ x ∈ gr_writes g) /\ (x ∉ pk_blocked package) /\ (x ∉ sc_blocked scope))
  /\ (forall x, x ∈ gr_external_send g <-> x ∈ pk_external_send package /\ x ∈ gr_writes g)
  /\ (forall x, x ∈ gr_suppression_required g <-> x ∈ pk_suppression_required package /\ x ∈ gr_writes g)
  /\ (forall l, sc_resources scope = Some l ->
      l <> [] /\ (forall x, x ∈ gr_resources g <-> x ∈ l) /\ (forall x, x ∈ l -> valid_resource x = true))
  /\ mp_persistent_memory (tk_policy tok) = false
  /\ (pk_human package <> Some false \/ policy = None \/ (exists p, policy = Some p /\ mp_human_approval p = true) ->
    mp_human_approval (tk_policy tok) = true)
  /\ (pk_suppression package <> Some false \/ policy = None \/ (exists p, policy = Some p /\ mp_suppression_check p = true) ->
    mp_suppression_check (tk_policy tok) = true)
  /\ (1 <= tk_ttl tok <= 600)%Z /\ tk_expires_at tok = (tk_issued_at tok + tk_ttl tok * 1000000)%Z
  /\ (forall op, sc_operation scope = Some op ->
      (forall x, x ∈ gr_writes g <-> x = bo_action op) /\ (forall x, x ∈ gr_resources g <-> x = bo_resource op)
      /\ pk_target_ref package = Some (bo_target_ref op)
      /\ gr_envelope_digest g = Some (operation_envelope_digest (pk_id package) (bo_target_ref op) (bo_action op)
                                        (bo_resource op) (bo_arguments op))).
Proof.
  unfold mount. intros Hm. res_inv Hm. destruct (bind_operation_ok _ _ _ _ _ E2) as (Hsub & Hres & Hop).
  injection Hm as <-. simpl. apply orb_false_iff in E as [Hl Hu]. apply Z.ltb_ge in Hl, Hu.
  split_and!.
  - intros x. rewrite sorted_set_elem, elem_of_intersection, to_set_elem.
  destruct (sc_reads scope) as [l|]; rewrite to_set_elem; naive_solver.
  - intros x. rewrite sorted_set_elem. intros Hx%Hsub. revert Hx.
  rewrite elem_of_intersection, to_set_elem. destruct (sc_writes scope) as [l|]; rewrite to_set_elem; naive_solver.
  - intros x. rewrite sorted_set_elem, elem_of_union, !to_set_elem. done.
  - intros x. unfold profile_allows, mem. simpl. case_bool_decide as Eb; [done|].
  rewrite orb_true_iff, !bool_decide_eq_true. rewrite sorted_set_elem, elem_of_union, !to_set_elem in Eb. tauto.
  - intros x. rewrite !sorted_set_elem, elem_of_intersection, to_set_elem. done.
  - intros x. rewrite !sorted_set_elem, elem_of_intersection, to_set_elem. done.
  - intros l Hrl. rewrite Hrl in *. destruct l as [|r l]; [done|]. split_and!; [done| |].
  + intros x. rewrite sorted_set_elem, Hres by done. apply to_set_elem.
  + apply raise_if_Ok, negb_false_iff in E1. rewrite forallb_forall in E1. intros x Hx%list_elem_of_In. by apply E1.
  - done.
  - intros Hh. destruct Hh as [Hh|[->|(p & -> & Hh)]]; simpl; [|by rewrite orb_true_r|by rewrite Hh, orb_true_r].
  destruct (pk_human package) as [[]|]; done.
  - intros Hh. destruct Hh as [Hh|[->|(p & -> & Hh)]]; simpl; [|by rewrite orb_true_r|by rewrite Hh, orb_true_r].
  destruct (pk_suppression package) as [[]|]; done.
  - done.
  - done.
  - done.
  - intros op Heq. rewrite Heq in Hop. destruct Hop as (Hw & Hr & Ht & _ & Hd). split_and!; [|..|done|done].
  + intros x. rewrite sorted_set_elem, Hw. set_solver.
  + intros x. rewrite sorted_set_elem, Hr. set_solver.
Qed.
End mounter.

(** ** The audit trail *)

Section binding.
Context `{Ext, Mac}.
Context (token : Token) (ev_id ev_ts : nat -> string).
Abbreviation append := (append token ev_id ev_ts).
Abbreviation deny := (deny token ev_id ev_ts).
Abbreviation check_live := (check_live token ev_id ev_ts).
Abbreviation local_eval := (local_eval token ev_id ev_ts).
Abbreviation consequence := (consequence token ev_id ev_ts).

Definition chain_ok (w : bworld) : Prop :=
  verify_chain (bw_events w) = true /\ bw_last_hash w = ae_hash <$> last (bw_events w).

Lemma verify_from_snoc prev l e :
  verify_from prev (l ++ [e]) = verify_from prev l
  && opt_eqb (ae_prev e) (match last l with Some x => Some (ae_hash x) | None => prev end)
  && str_eqb (audit_hash e) (ae_hash e).
Proof.
  revert prev. induction l as [|x l IH]; intros prev; simpl.
  - destruct (opt_eqb _ _), (str_eqb _ _); done.
  - destruct (opt_eqb (ae_prev x) prev); [|done]. destruct (str_eqb (audit_hash x) (ae_hash x)); [|done]. simpl.
  rewrite IH.
  destruct l as [|a l]; [done|]. rewrite last_cons_cons.
  destruct (last (a :: l)) eqn:El; [done|]. by apply last_None in El.
Qed.

Lemma append_keeps_chain action d reason w : chain_ok w -> chain_ok (oworld (append action d reason w)).
Proof.
  intros [Hv Hl]. unfold Engine.append. split; cbn [oworld set_audit bw_events bw_last_hash].
  - unfold verify_chain in *. rewrite verify_from_snoc, Hv, andb_true_l. apply andb_true_iff. split.
  + apply bool_decide_eq_true. rewrite Hl. cbn [ae_prev]. by destruct (last (bw_events w)).
  + apply str_eqb_refl.
  - by rewrite last_snoc.
Qed.

(** Computations that keep the trail well formed. *)
Definition keeps {A} (m : eff cerr bworld A) : Prop := forall w, chain_ok w -> chain_ok (oworld (m w)).

Lemma keeps_bind {A B} (m : eff cerr bworld A) (k : A -> eff cerr bworld B) :
  keeps m -> (forall a, keeps (k a)) -> keeps (ebind m k).
Proof. intros Hm Hk w Hw. specialize (Hm w Hw). unfold ebind. destruct (m w); simpl in *; try done. by apply Hk. Qed.
Lemma keeps_append action d reason : keeps (append action d reason).
Proof. intros w. apply append_keeps_chain. Qed.
Lemma keeps_deny {A} action reason e : @keeps A (deny action reason e).
Proof. apply keeps_bind; [apply keeps_append|]. by intros ? w. Qed.
Lemma keeps_ret {A} (a : A) : keeps (eret a).
Proof. by intros w. Qed.
Lemma keeps_on_db {A} (m : eff cerr cdb A) : keeps (on_db m).
Proof. intros w Hw. unfold on_db. by destruct (m (bw_db w)). Qed.
Lemma keeps_try m : keeps m -> keeps (try_pass m).
Proof. intros Hm w Hw. specialize (Hm w Hw). unfold try_pass. by destruct (m w). Qed.
Lemma keeps_terminated {A} (m : eff cerr bworld A) : keeps m -> keeps (fun w => m (set_terminated w)).
Proof. intros Hm w Hw. by apply Hm. Qed.

Lemma keeps_check_live now : keeps (check_live now).
Proof.
  intros w Hw. unfold Engine.check_live. destruct (_ || _); [by apply keeps_deny|].
  destruct (_ <? _)%Z; [by apply keeps_deny|done].
Qed.
Lemma keeps_local_eval action kw now : keeps (local_eval action kw now).
Proof.
  apply keeps_bind; [apply keeps_check_live|]. intros _.
  destruct (negb _); [apply keeps_deny|]. destruct (negb _); [apply keeps_deny|].
  destruct (_ && _); [apply keeps_deny|]. destruct (_ && _); [apply keeps_deny|apply keeps_ret].
Qed.
Lemma keeps_failed op action id exc : keeps (fn_failed token ev_id ev_ts op action id exc).
Proof. apply keeps_bind; [apply keeps_try, keeps_on_db|]. intros _. apply keeps_bind; [apply keeps_append|]. by intros ? w. Qed.
Lemma keeps_returned op action id r : keeps (fn_returned token ev_id ev_ts op action id r).
Proof. apply keeps_bind; [apply keeps_try, keeps_on_db|]. intros _. apply keeps_bind; [apply keeps_append|]. intros ?. apply keeps_ret. Qed.
Lemma keeps_claim action op id : keeps (claim_started token ev_id ev_ts action op id).
Proof.
  intros w Hw. unfold claim_started. pose proof (keeps_on_db (begin_consequence (tk_mount_id token) op id) w Hw) as Hk.
  destruct (on_db _ w) as [| e w'|]; simpl in *; try done. destruct (is_policy_error e); [by apply keeps_deny|done].
Qed.
Lemma keeps_consequence action fn op kw now ev i1 i2 i3 : keeps (consequence action fn op kw now ev i1 i2 i3).
Proof.
  apply keeps_bind; [apply keeps_local_eval|]. intros _. destruct ev as [ev|]; [|apply keeps_deny].
  apply keeps_bind; [apply keeps_on_db|]. intros [[[] reason] rid]; [|apply keeps_deny].
  apply keeps_bind; [apply keeps_claim|]. intros [|]; simpl; [|apply keeps_deny].
  intros w Hw. pose proof (keeps_on_db fn (mk_bworld (bw_db w) (bw_terminated w) (bw_last_hash w) (bw_events w) (S (bw_calls w))) Hw) as Hk.
  unfold call_fn. destruct (on_db fn _); simpl in *; [by apply keeps_returned|by apply keeps_failed|done].
Qed.

(** One public call on a binding, or a change of the tables by others. *)
Inductive bstep : bworld -> bworld -> Prop :=
  | bs_pure w action kw now : bstep w (oworld (evaluate_pure token ev_id ev_ts action kw now w))
  | bs_consequence w action fn op kw now ev i1 i2 i3 :
  bstep w (oworld (consequence action fn op kw now ev i1 i2 i3 w))
  | bs_terminate w reason : bstep w (oworld (terminate token ev_id ev_ts reason w))
  | bs_env w db : bstep w (mk_bworld db (bw_terminated w) (bw_last_hash w) (bw_events w) (bw_calls w)).

(** The audit trail of a binding always verifies.  From an empty trail,
    after any calls of [evaluate_pure], [consequence] (whatever the
    callback and the evaluator do) and [terminate], with other activity on
    the tables in between, [verify_chain] accepts the trail, and events are
    only ever appended. *)
Theorem audit_chain_verifies w0 w w' :
  bw_events w0 = [] -> bw_last_hash w0 = None -> steps bstep w0 w -> bstep w w' ->
  verify_chain (bw_events w) = true /\ verify_chain (bw_events w') = true
  /\ bw_last_hash w' = ae_hash <$> last (bw_events w').
Proof.
  intros He Hh Hs Hst.
  assert (Hstep : forall a b, chain_ok a -> bstep a b -> chain_ok b).
  { intros a b Ha Hb. destruct Hb as [x action kw now|x action fn op kw now ev i1 i2 i3|x reason|x db]; [| | |exact Ha].
  - apply keeps_bind; [apply keeps_local_eval| |done]. intros _. apply keeps_append.
  - by apply keeps_consequence.
  - unfold terminate. destruct (negb _); [done|]. destruct (bw_terminated x); [done|]. by apply append_keeps_chain. }
  assert (Hw : chain_ok w).
  { eapply (steps_invariant bstep chain_ok); [exact Hstep| |exact Hs]. split; [by rewrite He|by rewrite He, Hh]. }
  destruct (Hstep _ _ Hw Hst). destruct Hw. done.
Qed.

(** ** The guarded consequence *)

(** The local checks pass and change nothing, or raise without a call. *)
(** The action needs evidence that [_local_eval] does not look at. *)
Definition gated (token : Token) (action : string) : bool :=
  (mem action (gr_external_send (tk_grants token)) && mp_human_approval (tk_policy token))
  || (mem action (gr_suppression_required (tk_grants token)) && mp_suppression_check (tk_policy token)).

Lemma local_eval_cases action kw now w :
  (local_eval action kw now w = Ret tt w /\ bw_terminated w = false
  /\ (tk_mount_id token ∉ d_revoked (bw_db w)) /\ (now <= tk_expires_at token)%Z
  /\ profile_allows (tk_grants token) action = true
  /\ profile_covers_resource (tk_grants token) (kw_get "resource" kw) = true
  /\ gated token action = false)
  \/ exists e w', local_eval action kw now w = Raise e w' /\ bw_calls w' = bw_calls w.
Proof.
  unfold Engine.local_eval, Engine.check_live, ebind. cbv beta zeta.
  destruct (bw_terminated w || bool_decide (tk_mount_id token ∈ d_revoked (bw_db w))) eqn:E1;
  [right; do 2 eexists; split; reflexivity|].
  destruct (tk_expires_at token <? now)%Z eqn:E2; [right; do 2 eexists; split; reflexivity|].
  destruct (profile_allows (tk_grants token) action) eqn:E3; simpl; [|right; do 2 eexists; split; reflexivity].
  destruct (profile_covers_resource (tk_grants token) (kw_get "resource" kw)) eqn:E4; simpl;
  [|right; do 2 eexists; split; reflexivity].
  unfold gated.
  destruct (mem action (gr_external_send _) && _); [right; do 2 eexists; split; reflexivity|].
  destruct (mem action (gr_suppression_required _) && _); [right; do 2 eexists; split; reflexivity|].
  left. apply orb_false_iff in E1 as [-> E1]. apply bool_decide_eq_false in E1. apply Z.ltb_ge in E2. done.
Qed.

(** A report on a started operation lands. *)
(** The event table is well-formed and the operation's newest event carries
    an intent. *)
Definition of_intent (db : cdb) (op intent : string) : Prop :=
  cinv db /\ exists e, latest_event db op = Some e /\ ce_intent e = intent.

Lemma report_lands db op e ok er unc pt id :
  cinv db -> latest_event db op = Some e -> ce_state e = C_STARTED ->
  (forall r, r ∈ d_events db -> ce_id r <> id) -> (1 <= certainty_level pt)%nat ->
  exists db', completion_reporter op ok er unc pt id db = Ret tt db'
  /\ recorded db' op (if unc then C_OUTCOME_UNKNOWN else if ok then C_SUCCEEDED else C_FAILED)
       (Some (if unc then "outcome_uncertain" else pt))
  /\ of_intent db' op (ce_intent e).
Proof.
  intros Hi El Est Hf Hpt. unfold completion_reporter, report_commit. rewrite El.
  set (t := if unc then C_OUTCOME_UNKNOWN else if ok then C_SUCCEEDED else C_FAILED).
  set (p := if unc then "outcome_uncertain" else pt).
  assert (Ht : report_target (ce_state e) ok unc pt = (t, p)) by (subst t p; rewrite Est; by destruct unc, ok).
  assert (Ha : t ∈ C_ALLOWED (ce_state e)) by (subst t; rewrite Est; destruct unc, ok; simpl; set_solver).
  assert (Hc : (certainty_level p <? state_certainty t)%nat = false).
  { apply Nat.ltb_ge. subst t p. destruct unc; [simpl; lia|]. destruct ok; simpl; lia. }
  unfold report_event. rewrite Ht. cbn [fst snd].
  rewrite (bool_decide_eq_true_2 (t ∈ C_ALLOWED _) Ha), andb_false_r. cbn [raise_if rbind].
  rewrite (bool_decide_eq_false_2 (ce_state e ∈ _)) by (rewrite Est; set_solver). rewrite Hc. cbn [raise_if rbind].
  set (ev := next_event _ _ _ _ _ _ _ _).
  destruct (append_next db op e ev Hi El) as (db' & -> & Hi' & Hl); try done.
  - apply next_event_follows. by left.
  - subst ev t p. apply evidence_mk. destruct unc; [done|]. destruct ok; by eexists.
  - exists db'. split_and!; [done|by exists ev|split; [done|by exists ev]].
Qed.

(** What an ALLOW of [cappo_evaluator] leaves when [evaluate] writes no
    consequence event: nothing before, and an AUTHORIZED row if there is a
    receipt. *)
Lemma evaluator_allow ev m action resource op intent id db reason rid db' :
  cinv db -> (forall x, d_events (oworld (ev x)) = d_events x) ->
  cappo_evaluator ev m action resource op intent id db = Ret (ALLOW, reason, rid) db' ->
  latest_event db op = None /\ cinv db' /\ incl (map ce_id (d_events db')) (id :: map ce_id (d_events db))
  /\ (latest_event db' op = None \/ exists e, latest_event db' op = Some e /\ ce_mount e = m /\ ce_intent e = intent)
  /\ exists row dbe es, ev db = Ret (ALLOW, reason, rid, row) dbe /\ db' = set_events dbe es.
Proof.
  assert (Heta : forall x : cdb, x = set_events x (d_events x)) by by intros [].
  intros Hi Hev. unfold cappo_evaluator. destruct (latest_event db op) as [l|] eqn:El; [by destruct (negb _)|].
  specialize (Hev db). destruct (ev db) as [[[[dec rs] rid'] row] db1|e db1|db1] eqn:Ee; try done. simpl in Hev.
  assert (Hi1 : cinv db1) by (by eapply cinv_same_events).
  assert (Hl1 : latest_event db1 op = None) by (unfold latest_event, events_of in *; by rewrite Hev).
  assert (Hsame : incl (map ce_id (d_events db1)) (id :: map ce_id (d_events db))).
  { rewrite Hev. intros x Hx. by right. }
  destruct dec; [|by destruct rid'].
  destruct rid' as [r|]; [|intros [= <- <- <-]; split_and!; auto; by eexists _, _, _].
  destruct (str_eqb r ""); [intros [= <- <- <-]; split_and!; auto; by eexists _, _, _|].
  destruct (insert_event db1 _) as [db2|] eqn:Ein; [|done]. intros [= <- <- <-].
  destruct (cinv_first _ _ _ Hi1 Ein) as [_ Hi2]; [done..|].
  apply insert_event_Some in Ein as [_ ->]. split_and!; [done..| | |by eexists _, _, _].
  - simpl. rewrite map_app, Hev. intros x [Hx|[<-|[]]]%in_app_or; [by right|by left].
  - right. eexists. rewrite latest_event_last, events_of_snoc by done. simpl.
  rewrite decide_True, last_snoc by done. split_and!; reflexivity.
Qed.

(** What a successful claim leaves. *)
Lemma begin_true m op intent id db db' :
  cinv db -> (exists e, latest_event db op = Some e /\ ce_mount e = m /\ ce_intent e = intent) ->
  begin_consequence m op id db = Ret true db' ->
  cinv db' /\ (exists e, latest_event db' op = Some e /\ ce_state e = C_STARTED
               /\ ce_proof_type e = Some "optimistic_claim" /\ ce_intent e = intent)
  /\ incl (map ce_id (d_events db')) (id :: map ce_id (d_events db))
  /\ (exists row, d_mounts db' !! m = Some row /\ mr_terminated row = false)
  /\ exists es, db' = set_events db es.
Proof.
  intros Hi (e & El & Hm & Hin) Hb.
  destruct (latest_event_elem _ _ _ Hi El) as [Ho He].
  assert (Hi' : cinv db').
  { change db' with (oworld (Ret (E:=cerr) true db')). rewrite <- Hb. apply begin_grows; [done|]. by exists e. }
  split; [done|]. unfold begin_consequence in Hb. rewrite El in Hb.
  destruct (bool_decide _); simpl in Hb; [|done].
  destruct (refusal_reason _ e) eqn:Er; [done|].
  destruct (insert_event db _) as [db1|] eqn:Ein; [|done]. injection Hb as <-.
  apply insert_event_Some in Ein as [_ ->]. split_and!.
  - eexists. rewrite latest_event_last, events_of_snoc by done. simpl.
  rewrite decide_True, last_snoc by done. by split_and!.
  - simpl. rewrite map_app. intros x [Hx|[<-|[]]]%in_app_or; [by right|by left].
  - simpl. destruct (d_mounts db !! m) as [row|]; [|done]. exists row. split; [done|].
  simpl in Er. by destruct (mr_terminated row).
  - by eexists.
Qed.

(** A callback during which nobody writes to the operation, or under the id of
    its report. *)
Definition leaves_alone (op id : string) (db : cdb) (o : outcome cerr cdb json) : Prop :=
  (cinv db -> cinv (oworld o)) /\ events_of (oworld o) op = events_of db op
  /\ (~ In id (map ce_id (d_events db)) -> ~ In id (map ce_id (d_events (oworld o)))).

(** The newest event is one of the table's, well-formed or not. *)
Lemma latest_event_stored db op e : latest_event db op = Some e -> e ∈ d_events db.
Proof.
  unfold latest_event. destruct (events_of db op) as [|e0 l] eqn:El; [done|]. intros [= <-].
  assert (Hf : forall l a, foldl newer a l ∈ a :: l).
  { clear. induction l as [|b l IH]; intros a; simpl; [set_solver|]. specialize (IH (newer a b)).
    unfold newer in *. destruct (_ <? _)%Z; set_solver. }
  apply (events_of_elem db op). rewrite El. apply Hf.
Qed.

(** The report of a completed callback is a step of the tables. *)
Lemma report_steps op ok er unc pt id db :
  steps cstep db (oworld (completion_reporter op ok er unc pt id db)).
Proof.
  unfold completion_reporter. destruct (latest_event db op) as [e|] eqn:E; [|apply steps_refl].
  eapply steps_snoc; [apply steps_refl|]. apply ce_report. by apply (latest_event_stored db op).
Qed.

(** A run of [consequence]: the callback is not called and nothing is
    returned, or it is called once, with local authority, an ALLOW of the
    evaluator and STARTED recorded; its outcome is recorded if the operation
    was left alone meanwhile and the report's id is fresh. *)
Lemma consequence_cases action fn op kw now ev i1 i2 i3 w :
  cinv (bw_db w) ->
  (forall db, d_events (oworld (ev db)) = d_events db) ->
  let o := consequence action fn op kw now (Some ev) i1 i2 i3 w in
  (bw_calls (oworld o) = bw_calls w /\ forall r w', o <> Ret r w')
  \/ exists db1, bw_calls (oworld o) = S (bw_calls w)
   /\ bw_terminated w = false /\ (tk_mount_id token ∉ d_revoked (bw_db w)) /\ (now <= tk_expires_at token)%Z
   /\ profile_allows (tk_grants token) action = true
   /\ profile_covers_resource (tk_grants token) (kw_get "resource" kw) = true
   /\ gated token action = false
   /\ latest_event (bw_db w) op = None
   /\ (exists reason rid row dbe es, ev (bw_db w) = Ret (ALLOW, reason, rid, row) dbe /\ db1 = set_events dbe es)
   /\ recorded db1 op C_STARTED (Some "optimistic_claim")
   /\ (exists row, d_mounts db1 !! tk_mount_id token = Some row /\ mr_terminated row = false)
   /\ of_intent db1 op
      (intent_hash_of token action (kw_pop "suppression_confirmed" (kw_pop "approval_token" kw)))
   /\ steps cstep (oworld (fn db1)) (bw_db (oworld o))
   /\ (leaves_alone op i3 db1 (fn db1) -> ~ In i3 (i1 :: i2 :: map ce_id (d_events (bw_db w))) ->
      of_intent (bw_db (oworld o)) op
        (intent_hash_of token action (kw_pop "suppression_confirmed" (kw_pop "approval_token" kw)))
      /\ match fn db1 with
      | Ret r _ => exists w', o = Ret r w' /\ recorded (bw_db w') op C_SUCCEEDED (Some "callback_return")
      | Raise (CappoUncertainError m) _ => exists w', o = Raise (CappoUncertainError m) w'
          /\ recorded (bw_db w') op C_OUTCOME_UNKNOWN (Some "outcome_uncertain")
      | Raise e _ => exists w', o = Raise e w' /\ recorded (bw_db w') op C_FAILED (Some "callback_exception")
      | Crash _ => exists w', o = Crash w' /\ recorded (bw_db w') op C_STARTED (Some "optimistic_claim")
      end).
Proof.
  intros Hi Hev o. remember o as x eqn:Ho. subst o. rename x into o.
  unfold Engine.consequence, ebind at 1 in Ho.
  destruct (local_eval_cases action kw now w) as [(Hle & Hlive)|(e & w' & Hle & Hc)];
  rewrite Hle in Ho; [|left; by rewrite Ho].
  unfold ebind at 1, on_db at 1 in Ho. set (kw' := kw_pop _ _) in Ho.
  destruct (cappo_evaluator _ _ _ _ _ _ _ (bw_db w)) as [[[dec reason] rid] dba|e dba|dba] eqn:Ea;
  [|left; by rewrite Ho..].
  destruct dec; [|left; by rewrite Ho].
  destruct (evaluator_allow _ _ _ _ _ _ _ _ _ _ _ Hi Hev Ea) as (Hnone & Hia & Hincl & Hlat & row1 & dbe & es1 & Hee & Hdba).
  unfold ebind at 1, claim_started, on_db at 1 in Ho. cbn [bw_db] in Ho.
  destruct (begin_consequence _ _ _ dba) as [[] dbb|e dbb|dbb] eqn:Eb;
  [|left; by rewrite Ho|left; by destruct (is_policy_error e); rewrite Ho|left; by rewrite Ho].
  destruct Hlat as [Hlat|Hlat].
  { exfalso. unfold begin_consequence in Eb. by rewrite Hlat in Eb. }
  destruct (begin_true _ _ _ _ _ _ Hia Hlat Eb) as (Hib & (e & El & Est & Hpt & Hint) & Hincl2 & Hrow & es2 & Hdbb).
  assert (Hrun : exists reason rid row dbe es, ev (bw_db w) = Ret (ALLOW, reason, rid, row) dbe /\ dbb = set_events dbe es).
  { exists reason, rid, row1, dbe, es2. split; [done|]. by rewrite Hdbb, Hdba. }
  right. exists dbb. destruct Hlive as (Ht & Hrv & Hex & Hpa & Hpc & Hgt).
  assert (Hrec : recorded dbb op C_STARTED (Some "optimistic_claim")) by by exists e.
  assert (Hrs : bw_calls (oworld o) = S (bw_calls w) /\ steps cstep (oworld (fn dbb)) (bw_db (oworld o))).
  { rewrite Ho. unfold call_fn, on_db. cbn [negb bw_db bw_calls bw_terminated bw_last_hash bw_events].
    destruct (fn dbb) as [r dbf|x dbf|dbf]; [| |split; [done|apply steps_refl]];
      unfold fn_returned, fn_failed, ebind, try_pass, on_db; cbn [bw_db oworld];
      match goal with |- context [completion_reporter ?a ?b ?c ?d ?e ?f ?g] =>
        pose proof (report_steps a b c d e f g) as Hrep; destruct (completion_reporter a b c d e f g) end;
      try destruct x; by split. }
  split; [apply Hrs|]. split_and!; try done; [by split; [|exists e]|apply Hrs|]. intros Hfn Hid.
  destruct Hfn as (Hif & Hevf & Hif3). specialize (Hif Hib).
  assert (Hfresh : forall r, r ∈ d_events (oworld (fn dbb)) -> ce_id r <> i3).
  { intros r Hr <-. apply list_elem_of_In in Hr. apply Hif3; [|by apply in_map]. intros Hx. apply Hid.
  destruct (Hincl2 _ Hx) as [<-|Hx']; [right; by left|].
  destruct (Hincl _ Hx') as [<-|Hx'']; [by left|]. right. by right. }
  assert (Elf : latest_event (oworld (fn dbb)) op = Some e) by (unfold latest_event in *; by rewrite Hevf).
  unfold call_fn, on_db at 1 in Ho. cbn [negb bw_db bw_calls bw_terminated bw_last_hash bw_events] in Ho.
  destruct (fn dbb) as [r dbf|x dbf|dbf] eqn:Ef; cbn [oworld] in *.
  - destruct (report_lands dbf op e true None false "callback_return" i3) as (db' & Hr & Hrr & Hri);
    [done..|apply Nat.leb_le; vm_compute; reflexivity|].
  unfold fn_returned, ebind, try_pass, on_db in Ho. cbn [bw_db] in Ho. rewrite Hr in Ho.
  rewrite Ho. rewrite Hint in Hri. split; [done|]. eexists. split; [reflexivity|]. exact Hrr.
  - assert (Hx : forall unc, exists db', completion_reporter op false (Some (type_name x +:+ ": " +:+ err_str x)) unc
      "callback_exception" i3 dbf = Ret tt db'
    /\ recorded db' op (if unc then C_OUTCOME_UNKNOWN else C_FAILED)
         (Some (if unc then "outcome_uncertain" else "callback_exception"))
    /\ of_intent db' op (ce_intent e)).
  { intros unc. apply (report_lands dbf op e false); done. }
  unfold fn_failed, ebind, try_pass, on_db in Ho. cbn [bw_db] in Ho.
  destruct (Hx (str_eqb (type_name x) "CappoUncertainError")) as (db' & Hr & Hrr & Hri). rewrite Hr in Ho.
  rewrite Ho. rewrite Hint in Hri. split; [done|]. destruct x; (eexists; split; [reflexivity|exact Hrr]).
  - rewrite Ho. split; [split; [done|by exists e]|]. eexists. split; [reflexivity|]. by exists e.
Qed.
End binding.

(** ** Witnesses *)

Definition demo_package : CapabilityPackage :=
  mk_package "veklom.governed-counter@v1" ["counter.read"] ["counter.increment"] ["counter.reset"] [] []
    (Some "activation.governed-counter") None None None None false.
Definition demo_scope : MountScope :=
  mk_scope "ws-1" "sandbox" None None (Some ["counter"]) [] None.
Definition demo_mounted : res mount_err Token :=
  mount demo_package demo_scope None 300 (Some "exec-1") "m" "e" "t" "nonce-1" 0.
Definition empty_grants : Grants := mk_grants [] [] [] [] [] [] None.
Definition demo_token : Token :=
  match demo_mounted with
  | Ok t => mk_token (tk_token_id t) "mnt-1" (tk_execution_id t) (tk_package_ref t) (tk_workspace t) (tk_project t)
              (tk_grants t) (tk_policy t) (tk_issued_at t) (tk_expires_at t) (tk_ttl t) (tk_nonce t)
  | Err _ => mk_token "" "" "" "" "" "" empty_grants default_policy 0 0 0 ""
  end.

Lemma mount_attenuates_witness :
  exists t, demo_mounted = Ok t /\ mp_persistent_memory (tk_policy t) = false.
Proof.
  destruct demo_mounted as [t|e] eqn:E; [|vm_compute in E; discriminate]. exists t. split; [reflexivity|].
  destruct (mount_attenuates demo_package demo_scope None 300 (Some "exec-1") "m" "e" "t" "nonce-1" 0 t E)
    as (_ & _ & _ & _ & _ & _ & _ & Hp & _). exact Hp.
Defined.

Definition demo_ids (n : nat) : string := pretty n.
Definition demo_w0 : bworld := mk_bworld demo0 false None [] 0.
Definition demo_eval : eff cerr cdb (Decision * string * option string * mount_row) :=
  fun db => Ret (ALLOW, "allowed", Some "rcpt-1", demo_row) db.
Definition demo_fn : eff cerr cdb json := fun db => Ret (JInt 1) db.
Definition demo_kw : kwargs := [("resource", Some "counter")].

Lemma audit_chain_verifies_witness :
  verify_chain (bw_events (oworld (terminate demo_token demo_ids demo_ids "task_complete" demo_w0))) = true.
Proof.
  apply (audit_chain_verifies demo_token demo_ids demo_ids demo_w0 demo_w0).
  - reflexivity.
  - reflexivity.
  - apply steps_refl.
  - apply bs_terminate.
Defined.
