(* ===== verification/Biscuit.v ===== *)
(** * Biscuit capability tokens (cappo_backend/security/biscuit.py)

    The Datalog text that [mint_biscuit_capability] and
    [attenuate_biscuit_capability] hand to the biscuit package, the readers
    [extract_authority_context] and [extract_allowed_envelopes], the trusted
    revocation state and [verify_biscuit_capability].  The package itself is
    the class [Biscuit]: a token is built from lines of code, queried for the
    terms of its facts, and authorized. *)

From Stdlib Require Import ZArith Lia Ascii String.
From stdpp Require Import base gmap strings list pretty.
From S2P Require Import Prelude Canon PyJson Lease.

(** [bk_build] is [builder.add_code] for each line and [build(...).to_base64()];
    [None] when a line does not parse.  [bk_query tok p] is the [str] of the
    terms of the facts [p(...)] of the authority block, [None] when the token
    does not verify under the root key.  [bk_authorize] is the authorizer with
    the given code. *)
Class Biscuit := {
  bk_build : list string -> option string;
  bk_append : string -> list string -> option string;
  bk_query : string -> string -> option (list string);
  bk_block_count : string -> Z;
  bk_authorize : string -> list string -> bool;
  bk_strftime : Z -> string;
  bk_strptime : string -> option Z }.

Inductive biscuit_err := BValueError (msg : string) | BiscuitError.

(** ** Datalog text *)

Definition Q : string := String dquote "".
Definition dq (s : string) : string := Q +:+ s +:+ Q.
(** A line of code: a fact with one term, or any other statement. *)
Inductive dline := DFact (name term : string) | DCode (text : string).
Definition dtext (d : dline) : string :=
  match d with DFact name term => name +:+ "(" +:+ term +:+ ");" | DCode text => text end.
(** A fact about a string literal. *)
Definition sfact (name s : string) : dline := DFact name (dq s).

(** [[A-Za-z0-9._:@/-]]. *)
Definition term_char (c : ascii) : bool :=
  let n := nat_of_ascii c in
  ((65 <=? n)%nat && (n <=? 90)%nat) || ((97 <=? n)%nat && (n <=? 122)%nat) || ((45 <=? n)%nat && (n <=? 58)%nat)
  || (n =? 95)%nat || (n =? 64)%nat.
Definition plain_term (s : string) : bool :=
  (1 <=? String.length s)%nat && (String.length s <=? 256)%nat && forallb term_char (chars s).
(** [_RESOURCE_TERM.fullmatch]. *)
Definition resource_term (s : string) : bool :=
  plain_term s || (ends_with s "/*" && plain_term (drop_last 2 s)).
(** [_ENVELOPE_TERM.fullmatch]. *)
Definition envelope_term (s : string) : bool :=
  (String.length s =? 64)%nat
  && forallb (fun c => let n := nat_of_ascii c in
                       ((48 <=? n)%nat && (n <=? 57)%nat) || ((97 <=? n)%nat && (n <=? 102)%nat)) (chars s).

Fixpoint resource_bound_code (resources : list string) (fact prefix_fact : string) : res biscuit_err (list dline) :=
  match resources with
  | [] => Ok []
  | r :: rs =>
    if negb (resource_term r) then Err (BValueError ("invalid resource bound: " +:+ r))
    else let? code := resource_bound_code rs fact prefix_fact in
         Ok ((if ends_with r "/*" then sfact prefix_fact (drop_last 1 r) else sfact fact r) :: code)
  end.

Definition checked_envelope (envelope_digest : string) : res biscuit_err string :=
  if envelope_term envelope_digest then Ok envelope_digest
  else Err (BValueError "envelope digest must be 64 lowercase hex characters").

Definition envelope_lines (envelope_digest : option string) : res biscuit_err (list dline) :=
  match envelope_digest with
  | None => Ok []
  | Some d => let? d := checked_envelope d in
              Ok [sfact "allowed_envelope" d; DCode "check if current_envelope($env), allowed_envelope($env);"]
  end.

Section biscuit.
Context `{Biscuit}.

(** ** Minting *)

Definition header_lines (caller_spiffe_id execution_id capability_id revocation_scope : string)
  (revocation_epoch : Z) : list dline :=
  [sfact "issuer" "veklom"; DFact "policy_version" "1"; DFact "delegation_depth_max" "1";
  sfact "subject" caller_spiffe_id;
  DCode ("check if current_subject($subj), subject($subj) or current_subject(" +:+ dq "any" +:+ ");");
  sfact "execution_id" execution_id; sfact "capability_id" capability_id;
  sfact "revocation_scope" revocation_scope; DFact "revocation_epoch" (pretty revocation_epoch)].

Definition executor_lines (executor_spiffe_id : option string) : list dline :=
  [sfact "allowed_executor" (match executor_spiffe_id with
                           | Some e => if str_eqb e "" then "any" else e
                           | None => "any"
                           end);
  DCode ("check if current_executor($exec), allowed_executor($exec) or allowed_executor(" +:+ dq "any" +:+ ");")].

Definition terminate_term : string := " or current_action(" +:+ dq "terminate" +:+ ", " +:+ dq "" +:+ ");".

Definition bound_lines (resources : option (list string)) : res biscuit_err (list dline) :=
  match resources with
  | Some (r :: rs) =>
  let? code := resource_bound_code (r :: rs) "allowed_resource" "allowed_resource_prefix" in
  Ok (code ++ [DCode ("check if current_action($act, $res), allowed_action($act), allowed_resource($res)"
               +:+ " or current_action($act, $res), allowed_action($act), allowed_resource_prefix($p), $res.starts_with($p)"
               +:+ terminate_term)])
  | _ => Ok [DCode ("check if current_action($act, $res), allowed_action($act)" +:+ terminate_term)]
  end.

Definition time_lines (issued expires : Z) : list dline :=
  [sfact "issued_at" (bk_strftime issued); sfact "expires_at" (bk_strftime expires);
  DCode ("check if time($time), $time <= " +:+ bk_strftime expires +:+ ";")].

Definition mint_lines (caller_spiffe_id : string) (executor_spiffe_id : option string) (capability_id : string)
  (reads writes : list string) (execution_id : string) (ttl_seconds : Z) (resources : option (list string))
  (revocation_scope : string) (revocation_epoch : Z) (envelope_digest : option string) (now : Z)
  : res biscuit_err (list dline) :=
  let? env := envelope_lines envelope_digest in
  let? bound := bound_lines resources in
  Ok (header_lines caller_spiffe_id execution_id capability_id revocation_scope revocation_epoch
    ++ env ++ executor_lines executor_spiffe_id ++ map (sfact "allowed_action") reads
    ++ map (sfact "allowed_action") writes ++ bound ++ time_lines now (now + ttl_seconds * 1000000)).

Definition mint_biscuit_capability (caller_spiffe_id : string) (executor_spiffe_id : option string)
  (capability_id : string) (reads writes : list string) (execution_id : string) (ttl_seconds : Z)
  (resources : option (list string)) (revocation_scope : string) (revocation_epoch : Z)
  (envelope_digest : option string) (now : Z) : res biscuit_err string :=
  let? lines := mint_lines caller_spiffe_id executor_spiffe_id capability_id reads writes execution_id ttl_seconds
                resources revocation_scope revocation_epoch envelope_digest now in
  match bk_build (map dtext lines) with Some tok => Ok tok | None => Err BiscuitError end.

(** ** Reading *)

Definition is_dquote (c : ascii) : bool := Ascii.eqb c dquote.
Fixpoint drop_quotes (l : list ascii) : list ascii :=
  match l with c :: l' => if is_dquote c then drop_quotes l' else l | [] => [] end.
(** [s.strip] of double quotes. *)
Definition strip_quotes (s : string) : string :=
  string_of_list_ascii (rev (drop_quotes (rev (drop_quotes (chars s))))).

(** [int(s)] for a decimal literal. *)
Fixpoint read_nat (acc : Z) (l : list ascii) : option Z :=
  match l with
  | [] => Some acc
  | c :: l' => let n := Z.of_nat (nat_of_ascii c) in
             if (48 <=? n)%Z && (n <=? 57)%Z then read_nat (acc * 10 + (n - 48)) l' else None
  end.
Definition read_int (s : string) : option Z :=
  match chars s with
  | [] => None
  | c :: l => if Ascii.eqb c "-"%char then match l with [] => None | _ => Z.opp <$> read_nat 0 l end
            else read_nat 0 (c :: l)
  end.

(** The first fact's term, or a default. *)
Definition first_term (ts : list string) (d : string) : string :=
  match ts with t :: _ => strip_quotes t | [] => d end.

(** [extract_authority_context]; [None] is the logged exception. *)
Definition extract_authority_context (tok : string) : option AuthorityContext :=
  action_facts ← bk_query tok "allowed_action";
  resource_facts ← bk_query tok "allowed_resource";
  prefix_facts ← bk_query tok "allowed_resource_prefix";
  exec_facts ← bk_query tok "allowed_executor";
  subj_facts ← bk_query tok "subject";
  exp_facts ← bk_query tok "expires_at";
  depth_facts ← bk_query tok "delegation_depth_max";
  max_depth ← match depth_facts with d :: _ => read_int d | [] => Some 0%Z end;
  let resources : gset string :=
  list_to_set (map strip_quotes resource_facts ++ map (fun p => strip_quotes p +:+ "*") prefix_facts) in
  Some (mk_auth (list_to_set (map strip_quotes action_facts))
        (if bool_decide (resources = ∅) then {["*"]} else resources)
        (first_term exec_facts "any") (first_term subj_facts "any")
        (match exp_facts with e :: _ => bk_strptime (strip_quotes e) | [] => None end)
        (bk_block_count tok - 1) max_depth 0).

Definition extract_allowed_envelopes (tok : string) : option (gset string) :=
  facts ← bk_query tok "allowed_envelope"; Some (list_to_set (map strip_quotes facts)).

(** ** Attenuation *)

Definition child_action_lines (reads writes : option (list string)) : list dline :=
  match reads, writes with
  | None, None => []
  | _, _ => map (sfact "allowed_action_child") (default [] reads)
          ++ map (sfact "allowed_action_child") (default [] writes)
          ++ [DCode ("check if current_action($act, $res), allowed_action_child($act)" +:+ terminate_term)]
  end.

Definition child_bound_lines (resources : option (list string)) : res biscuit_err (list dline) :=
  match resources with
  | Some (r :: rs) =>
  let? code := resource_bound_code (r :: rs) "allowed_resource_child" "allowed_resource_child_prefix" in
  Ok (code ++ [DCode ("check if current_action($act, $res), allowed_resource_child($res)"
               +:+ " or current_action($act, $res), allowed_resource_child_prefix($p), $res.starts_with($p)"
               +:+ terminate_term)])
  | _ => Ok []
  end.

Definition attenuate_biscuit_capability (tok : string) (reads writes : option (list string))
  (ttl_seconds : option Z) (resources : option (list string)) (envelope_digest : option string) (now : Z)
  : res biscuit_err string :=
  let? bound := child_bound_lines resources in
  let? env := envelope_lines envelope_digest in
  let lines := child_action_lines reads writes ++ bound
             ++ match ttl_seconds with
                | Some ttl => [DCode ("check if time($t), $t <= " +:+ dq (bk_strftime (now + ttl * 1000000)) +:+ ";")]
                | None => []
                end ++ env in
  match bk_append tok (map dtext lines) with Some child => Ok child | None => Err BiscuitError end.

(** ** Revocation state *)

Record TrustedRevocationState := mk_trusted {
  known_epochs : gmap string Z; revoked_execution_ids : gset string }.

Definition sync_one (epochs : gmap string Z) (se : string * Z) : gmap string Z :=
  if (default 0 (epochs !! se.1) <? se.2)%Z then <[se.1 := se.2]> epochs else epochs.
Definition sync_epochs (st : TrustedRevocationState) (incoming : list (string * Z)) : TrustedRevocationState :=
  mk_trusted (foldl sync_one (known_epochs st) incoming) (revoked_execution_ids st).
Definition revoke_execution (st : TrustedRevocationState) (execution_id : string) : TrustedRevocationState :=
  mk_trusted (known_epochs st) ({[execution_id]} ∪ revoked_execution_ids st).

(** ** Verification *)

Definition authorizer_lines (executor_spiffe_id action resource : string) (subject_spiffe_id : option string)
  (envelope_digest : option string) : list dline :=
  [sfact "current_executor" executor_spiffe_id;
  sfact "current_subject" (match subject_spiffe_id with
                          | Some s => if str_eqb s "" then "any" else s
                          | None => "any"
                          end);
  DCode ("current_action(" +:+ dq action +:+ ", " +:+ dq resource +:+ ");")]
  ++ match envelope_digest with Some d => [sfact "current_envelope" d] | None => [] end
  ++ [DCode "allow if true;"].

(** The checks on the token's execution id: [None] is an exception. *)
Definition execution_check (tok : string) (trusted_state : option TrustedRevocationState)
  (execution_id : option string) : option bool :=
  exec_facts ← bk_query tok "execution_id";
  Some (match exec_facts with
      | [] => true
      | e :: _ =>
        let token_exec_id := strip_quotes e in
        if match execution_id with Some x => negb (str_eqb token_exec_id x) | None => false end then false
        else match trusted_state with
             | None => false
             | Some st => negb (bool_decide (token_exec_id ∈ revoked_execution_ids st))
             end
      end).

(** The checks on its revocation scope and epoch: the rule joins the two
    facts, so it has a result only when both exist. *)
Definition epoch_check (tok : string) (trusted_state : option TrustedRevocationState) : option bool :=
  scopes ← bk_query tok "revocation_scope";
  epochs ← bk_query tok "revocation_epoch";
  match scopes, epochs with
  | s :: _, e :: _ =>
  match trusted_state with
  | None => Some false
  | Some st =>
    ep ← read_int e;
    Some (match known_epochs st !! strip_quotes s with
          | None => false
          | Some known => negb (ep <? known)%Z
          end)
  end
  | _, _ => Some true
  end.

Definition depth_check (tok : string) : option bool :=
  depth_facts ← bk_query tok "delegation_depth_max";
  match depth_facts with
  | [] => Some true
  | d :: _ => max_depth ← read_int d; Some (negb (max_depth <? bk_block_count tok - 1)%Z)
  end.

Definition verify_biscuit_capability (tok executor_spiffe_id action resource : string)
  (subject_spiffe_id : option string) (trusted_state : option TrustedRevocationState)
  (execution_id envelope_digest : option string) : bool :=
  if negb (str_eqb resource "") && negb (resource_term resource) then false
  else if match envelope_digest with Some d => negb (envelope_term d) | None => false end then false
  else if negb (bk_authorize tok (map dtext (authorizer_lines executor_spiffe_id action resource subject_spiffe_id
                                              envelope_digest)))
  then false
  else match execution_check tok trusted_state execution_id with
     | Some true => match epoch_check tok trusted_state with
                    | Some true => default false (depth_check tok)
                    | _ => false
                    end
     | _ => false
     end.
End biscuit.

(** ** What the package documents

    A token of well-formed lines can be built; it carries one block; its
    facts are the fact lines, whatever checks are beside them; and the
    second-precision time text parses back. *)

Definition safe_char (c : ascii) : bool :=
  negb (Ascii.eqb c dquote) && negb (Ascii.eqb c bslash) && (32 <=? nat_of_ascii c)%nat.
(** Characters that cannot close a string literal. *)
Definition safe (s : string) : bool := forallb safe_char (chars s).
Definition printable (s : string) : bool := forallb (fun c => (32 <=? nat_of_ascii c)%nat) (chars s).
Definition ident_char (c : ascii) : bool :=
  let n := nat_of_ascii c in ((97 <=? n)%nat && (n <=? 122)%nat) || (n =? 95)%nat.
Definition ident (s : string) : bool := forallb ident_char (chars s).

Inductive datalog_line : dline -> Prop :=
  | dl_string name s : ident name = true -> safe s = true -> datalog_line (sfact name s)
  | dl_int name z : ident name = true -> datalog_line (DFact name (pretty (z : Z)))
  | dl_check s : starts_with s "check if " = true -> printable s = true -> datalog_line (DCode s).

Class BiscuitLaws `{Biscuit} : Prop := {
  bk_build_ok lines : Forall datalog_line lines -> is_Some (bk_build (map dtext lines));
  bk_query_ok lines tok name :
    Forall datalog_line lines -> ident name = true -> bk_build (map dtext lines) = Some tok ->
    exists ts, bk_query tok name = Some ts /\ forall t, t ∈ ts <-> DFact name t ∈ lines;
  bk_nonempty lines tok : lines <> [] -> bk_build (map dtext lines) = Some tok -> tok <> "";
  bk_one_block lines tok : bk_build (map dtext lines) = Some tok -> bk_block_count tok = 1%Z;
  bk_time_ok t : bk_strptime (bk_strftime t) = Some (whole_second t);
  bk_time_safe t : safe (bk_strftime t) = true }.
