(* ===== verification/BiscuitProperties.v ===== *)
(** * What a minted token says when it is read back *)

From Stdlib Require Import ZArith Lia Ascii String.
From stdpp Require Import base gmap strings list pretty.
From S2P Require Import Prelude Canon PyJson Lease Biscuit.

(** ** Quotes *)

Lemma safe_no_quote s : safe s = true -> Forall (fun c => is_dquote c = false) (chars s).
Proof.
  unfold safe. rewrite forallb_forall, Forall_forall. intros Hs c Hc.
  apply list_elem_of_In in Hc. specialize (Hs c Hc). unfold safe_char in Hs. unfold is_dquote.
  by destruct (Ascii.eqb c dquote).
Qed.

Lemma drop_quotes_id l : Forall (fun c => is_dquote c = false) l -> drop_quotes l = l.
Proof. intros [|c l' Hc _]; [done|]. simpl. by rewrite Hc. Qed.

Lemma drop_quotes_snoc l :
  Forall (fun c => is_dquote c = false) l -> rev (drop_quotes (rev (drop_quotes (l ++ [dquote])))) = l.
Proof.
  intros Hl. destruct l as [|c l'] eqn:E; [done|]. rewrite <- E in *.
  replace (drop_quotes (l ++ [dquote])) with (l ++ [dquote]).
  - rewrite rev_app_distr. simpl. rewrite drop_quotes_id; [apply rev_involutive|].
    by apply List.Forall_rev.
  - subst l. inversion Hl as [|? ? Hc _]. simpl. by rewrite Hc.
Qed.

Lemma strip_dq s : safe s = true -> strip_quotes (dq s) = s.
Proof.
  intros Hs. unfold strip_quotes, dq, Q.
  change (String dquote "" +:+ s +:+ String dquote "") with (String dquote (s +:+ String dquote "")).
  simpl. rewrite chars_app. simpl.
  rewrite drop_quotes_snoc by by apply safe_no_quote. apply string_of_list_ascii_of_string.
Qed.

(** ** The terms of the facts of a program *)

Fixpoint terms (name : string) (lines : list dline) : list string :=
  match lines with
  | [] => []
  | DFact n t :: ls => if decide (n = name) then t :: terms name ls else terms name ls
  | DCode _ :: ls => terms name ls
  end.

Lemma elem_terms name lines t : t ∈ terms name lines <-> DFact name t ∈ lines.
Proof.
  induction lines as [|[n u|c] ls IH]; simpl; [by split; intros ?%not_elem_of_nil| |].
  - rewrite elem_of_cons, <- IH. case_decide; [rewrite elem_of_cons|]; naive_solver.
  - rewrite elem_of_cons, <- IH. naive_solver.
Qed.

Lemma terms_app name a b : terms name (a ++ b) = terms name a ++ terms name b.
Proof. induction a as [|[n u|c] a IH]; simpl; [done| |done]. case_decide; simpl; by rewrite IH. Qed.

Lemma terms_map name n xs : terms name (map (sfact n) xs) = if decide (n = name) then map dq xs else [].
Proof. induction xs as [|x xs IH]; simpl; [by case_decide|]. rewrite IH. by case_decide. Qed.

Lemma bound_code_ok rs fact pfact code :
  resource_bound_code rs fact pfact = Ok code -> fact <> pfact ->
  terms fact code = map dq (filter (fun r => ends_with r "/*" = false) rs)
  /\ terms pfact code = map (fun r => dq (drop_last 1 r)) (filter (fun r => ends_with r "/*" = true) rs)
  /\ (forall name, name <> fact -> name <> pfact -> terms name code = [])
  /\ Forall (fun r => resource_term r = true) rs.
Proof.
  intros HC Hn. revert code HC. induction rs as [|r rs IH]; simpl; intros code HC; [by injection HC as <-|].
  destruct (resource_term r) eqn:Er; [|done]. simpl in HC.
  apply rbind_Ok in HC as (code' & HC & Ho). injection Ho as <-.
  destruct (IH _ HC) as (I1 & I2 & I3 & I4). rewrite !filter_cons. simpl.
  destruct (ends_with r "/*"); simpl; split_and!; intros; repeat case_decide; simplify_eq/=;
    try done; try (by f_equal); try by constructor. all: by apply I3.
Qed.

Lemma forallb_impl {A} (f g : A -> bool) l :
  (forall x, f x = true -> g x = true) -> forallb f l = true -> forallb g l = true.
Proof. rewrite !forallb_forall. eauto. Qed.

Lemma term_char_safe c : term_char c = true -> safe_char c = true.
Proof.
  unfold term_char, safe_char. intros Hc.
  destruct c as [[] [] [] [] [] [] [] []]; vm_compute in Hc; try done.
Qed.

Lemma plain_term_safe s : plain_term s = true -> safe s = true.
Proof.
  unfold plain_term. intros Hs. apply andb_true_iff in Hs as [_ Hs].
  eapply forallb_impl; [|exact Hs]. apply term_char_safe.
Qed.

Lemma dir_split r : ends_with r "/*" = true -> exists d, r = d +:+ "/*" /\ drop_last 2 r = d /\ drop_last 1 r = d +:+ "/".
Proof.
  unfold ends_with. rewrite bool_decide_eq_true. intros [l Hl].
  exists (string_of_list_ascii l).
  assert (Hr : r = string_of_list_ascii l +:+ "/*").
  { apply chars_inj. by rewrite chars_app, list_ascii_of_string_of_list_ascii. }
  split; [done|]. unfold drop_last. rewrite Hl, length_app. simpl. split.
  - f_equal. replace (length l + 2 - 2) with (length l) by lia. apply take_app_length.
  - apply chars_inj. rewrite list_ascii_of_string_of_list_ascii, chars_app, list_ascii_of_string_of_list_ascii.
    simpl. rewrite take_app_ge by lia. by replace (length l + 2 - 1 - length l) with 1 by lia.
Qed.

Lemma safe_app a b : safe (a +:+ b) = safe a && safe b.
Proof. unfold safe. by rewrite chars_app, forallb_app. Qed.

Lemma resource_term_safe r :
  resource_term r = true -> safe r = true /\ (ends_with r "/*" = true -> safe (drop_last 1 r) = true).
Proof.
  unfold resource_term. intros [Hp|[He Hp]%andb_true_iff]%orb_true_iff.
  - apply plain_term_safe in Hp. split; [done|]. intros (d & -> & _ & ->)%dir_split.
    rewrite safe_app in *. by apply andb_true_iff in Hp as [-> _].
  - destruct (dir_split _ He) as (d & -> & E2 & E1). rewrite E2 in Hp. apply plain_term_safe in Hp.
    rewrite E1, !safe_app, Hp. done.
Qed.

Lemma envelope_term_safe d : envelope_term d = true -> safe d = true.
Proof.
  unfold envelope_term. intros [_ Hd]%andb_true_iff. eapply forallb_impl; [|exact Hd].
  intros c Hc. destruct c as [[] [] [] [] [] [] [] []]; vm_compute in Hc; done.
Qed.

Lemma bound_code_lines rs fact pfact code :
  resource_bound_code rs fact pfact = Ok code -> ident fact = true -> ident pfact = true ->
  Forall datalog_line code.
Proof.
  intros HC H1 H2. revert code HC. induction rs as [|r rs IH]; simpl; intros code HC; [by injection HC as <-|].
  destruct (resource_term r) eqn:Er; [|done]. simpl in HC.
  apply rbind_Ok in HC as (code' & HC & Ho). injection Ho as <-.
  destruct (resource_term_safe _ Er) as [S1 S2]. constructor; [|by apply IH].
  destruct (ends_with r "/*"); constructor; auto.
Qed.

(** ** Minting, then reading *)

Lemma Ok_inj {E A} (a b : A) : @Ok E A a = Ok b -> a = b.
Proof. congruence. Qed.

Section roundtrip.
Context `{BiscuitLaws}.
  Variables (caller executor capability execution scope : string) (reads writes resources : list string)
  (ttl epoch now : Z) (envelope : option string).

(** The interpolated texts cannot close a string literal. *)
Definition mint_safe : Prop :=
  safe caller = true /\ safe executor = true /\ executor <> "" /\ safe capability = true /\ safe execution = true
  /\ safe scope = true /\ Forall (fun a => safe a = true) reads /\ Forall (fun a => safe a = true) writes.

Lemma map_sfact_lines name xs :
  ident name = true -> Forall (fun a => safe a = true) xs -> Forall datalog_line (map (sfact name) xs).
Proof. intros Hn Hx. induction Hx; constructor; [by constructor|done]. Qed.

Lemma safe_printable s : safe s = true -> printable s = true.
Proof. apply forallb_impl. intros c Hc. unfold safe_char in Hc. by apply andb_true_iff in Hc as [_ ?]. Qed.

Lemma printable_app a b : printable (a +:+ b) = printable a && printable b.
Proof. unfold printable. by rewrite chars_app, forallb_app. Qed.

Lemma mint_lines_wf lines :
  mint_lines caller (Some executor) capability reads writes execution ttl (Some resources) scope epoch envelope now
  = Ok lines -> mint_safe -> Forall datalog_line lines.
Proof.
  intros HM (S1 & S2 & Hne & S3 & S4 & S5 & S6 & S7). unfold mint_lines in HM. res_inv HM. apply Ok_inj in HM as <-.
  apply str_eqb_neq in Hne.
  rewrite !Forall_app. split_and!.
  - unfold header_lines. repeat apply Forall_cons_2; [..|apply Forall_nil_2].
  all: try (apply dl_string; by try vm_compute). all: try (by apply dl_check).
  + by apply (dl_int _ 1).
  + by apply (dl_int _ 1).
  + by apply dl_int.
  - destruct envelope as [d|]; simpl in E; [|by injection E as <-].
  unfold checked_envelope in E. destruct (envelope_term d) eqn:Ed; [|done]. injection E as <-.
  apply envelope_term_safe in Ed. repeat apply Forall_cons_2; [by apply dl_string|by apply dl_check|done].
  - unfold executor_lines. rewrite Hne. repeat apply Forall_cons_2; [by apply dl_string|by apply dl_check|done].
  - by apply map_sfact_lines.
  - by apply map_sfact_lines.
  - unfold bound_lines in E0. destruct resources as [|r rs].
  { injection E0 as <-. apply Forall_singleton. by apply dl_check. }
  res_inv E0. injection E0 as <-. apply Forall_app. split; [by eapply bound_code_lines|].
  apply Forall_singleton. by apply dl_check.
  - unfold time_lines. repeat apply Forall_cons_2; [by apply dl_string, bk_time_safe..| |done].
  apply dl_check; [done|]. rewrite !printable_app, (safe_printable _ (bk_time_safe _)). done.
Qed.

Lemma query_terms lines tok name :
  Forall datalog_line lines -> bk_build (map dtext lines) = Some tok -> ident name = true ->
  exists ts, bk_query tok name = Some ts /\ forall t, t ∈ ts <-> t ∈ terms name lines.
Proof.
  intros Hw Hb Hn. destruct (bk_query_ok _ _ _ Hw Hn Hb) as (ts & Hq & Ht).
  exists ts. split; [done|]. intros t. by rewrite elem_terms, Ht.
Qed.

Lemma strip_set (ts xs : list string) :
  (forall t, t ∈ ts <-> t ∈ map dq xs) -> Forall (fun x => safe x = true) xs ->
  forall x, x ∈ map strip_quotes ts <-> x ∈ xs.
Proof.
  intros Ht Hs x. rewrite list_elem_of_fmap. rewrite Forall_forall in Hs. split.
  - intros (t & -> & Hi). rewrite Ht in Hi. apply list_elem_of_fmap in Hi as (y & -> & Hy).
  by rewrite strip_dq by by apply Hs.
  - intros Hx. exists (dq x). rewrite strip_dq by by apply Hs. split; [done|].
  apply Ht, list_elem_of_fmap. by exists x.
Qed.

Lemma single_term (ts : list string) t : (forall u, u ∈ ts <-> u ∈ [t]) -> exists ts', ts = t :: ts'.
Proof.
  intros Ht. destruct ts as [|u ts].
  - assert (t ∈ @nil string) as ?%not_elem_of_nil; [|done]. apply Ht. by apply list_elem_of_singleton.
  - assert (u ∈ [t]) as ->%list_elem_of_singleton by (apply Ht, elem_of_cons; by left). by exists ts.
Qed.

(** Which facts a minted token states. *)
Lemma mint_terms lines name :
  mint_lines caller (Some executor) capability reads writes execution ttl (Some resources) scope epoch envelope now
  = Ok lines -> mint_safe ->
  name ∈ ["allowed_action"; "allowed_resource"; "allowed_resource_prefix"; "allowed_executor"; "subject";
        "expires_at"; "delegation_depth_max"; "allowed_envelope"] ->
  terms name lines
  = if str_eqb name "allowed_action" then map dq (reads ++ writes)
  else if str_eqb name "allowed_resource" then map dq (filter (fun r => ends_with r "/*" = false) resources)
  else if str_eqb name "allowed_resource_prefix" then
    map (fun r => dq (drop_last 1 r)) (filter (fun r => ends_with r "/*" = true) resources)
  else if str_eqb name "allowed_executor" then [dq executor]
  else if str_eqb name "subject" then [dq caller]
  else if str_eqb name "expires_at" then [dq (bk_strftime (now + ttl * 1000000))]
  else if str_eqb name "delegation_depth_max" then ["1"]
  else match envelope with Some d => [dq d] | None => [] end.
Proof.
  intros HM (_ & _ & Hne & _) Hname. unfold mint_lines in HM. res_inv HM. apply Ok_inj in HM as <-.
  apply str_eqb_neq in Hne. unfold executor_lines. rewrite Hne, !terms_app, !terms_map.
  assert (Henv : terms name v = if str_eqb name "allowed_envelope"
                              then match envelope with Some d => [dq d] | None => [] end else []).
  { destruct envelope as [d|]; simpl in E; [|injection E as <-; by case_match].
  unfold checked_envelope in E. destruct (envelope_term d); [|done]. injection E as <-. simpl.
  unfold str_eqb. case_decide; case_bool_decide; congruence. }
  assert (Hb : terms name v0 = if str_eqb name "allowed_resource"
              then map dq (filter (fun r => ends_with r "/*" = false) resources)
              else if str_eqb name "allowed_resource_prefix" then
                map (fun r => dq (drop_last 1 r)) (filter (fun r => ends_with r "/*" = true) resources) else []).
  { unfold bound_lines in E0. destruct resources as [|r rs]; [injection E0 as <-; by repeat case_match|].
  res_inv E0. apply Ok_inj in E0 as <-. rewrite terms_app. simpl (terms name [_]). rewrite app_nil_r.
  destruct (bound_code_ok _ _ _ _ E1) as (I1 & I2 & I3 & _); [done|]. unfold str_eqb.
  case_bool_decide; [by subst|]. case_bool_decide; [by subst|]. by apply I3. }
  rewrite Henv, Hb. clear -Hname.
  repeat (apply elem_of_cons in Hname as [->|Hname]; [simpl; rewrite ?app_nil_r, ?map_app; done|]).
  by apply not_elem_of_nil in Hname.
Qed.

Lemma bound_resources ts ps :
  (forall t, t ∈ ts <-> t ∈ map dq (filter (fun r => ends_with r "/*" = false) resources)) ->
  (forall t, t ∈ ps <-> t ∈ map (fun r => dq (drop_last 1 r)) (filter (fun r => ends_with r "/*" = true) resources)) ->
  Forall (fun r => resource_term r = true) resources ->
  (list_to_set (map strip_quotes ts ++ map (fun p => strip_quotes p +:+ "*") ps) : gset string)
  = list_to_set resources.
Proof.
  intros Ht Hp Hr. rewrite Forall_forall in Hr. apply set_eq. intros x.
  rewrite !elem_of_list_to_set, elem_of_app.
  rewrite (strip_set ts (filter (fun r => ends_with r "/*" = false) resources) Ht).
  2: { apply Forall_forall. intros r [_ Hi]%list_elem_of_filter. by apply resource_term_safe, Hr. }
  rewrite list_elem_of_filter, list_elem_of_fmap. split.
  - intros [[_ ?]|(p & -> & Hi)]; [done|]. apply Hp, list_elem_of_fmap in Hi as (r & -> & Hi).
  apply list_elem_of_filter in Hi as [He Hi]. destruct (resource_term_safe _ (Hr _ Hi)) as [_ Hs].
  rewrite strip_dq by auto. destruct (dir_split _ He) as (d & -> & _ & ->). by rewrite <- sapp_assoc.
  - intros Hi. destruct (ends_with x "/*") eqn:He; [right|by left].
  destruct (dir_split _ He) as (d & Hx & _ & Hd). exists (dq (d +:+ "/")). split.
  + rewrite strip_dq; [by rewrite Hx, <- sapp_assoc|]. rewrite <- Hd. apply resource_term_safe; [by apply Hr|done].
  + apply Hp, list_elem_of_fmap. exists x. rewrite Hd. split; [done|]. by apply list_elem_of_filter.
Qed.

Lemma mint_extract tok :
  mint_safe ->
  mint_biscuit_capability caller (Some executor) capability reads writes execution ttl (Some resources) scope epoch
  envelope now = Ok tok ->
  extract_authority_context tok
  = Some (mk_auth (list_to_set (reads ++ writes))
          (match resources with [] => {["*"]} | _ => list_to_set resources end)
          executor caller (Some (whole_second (now + ttl * 1000000))) 0 1 0)
  /\ extract_allowed_envelopes tok = Some (match envelope with Some d => {[d]} | None => ∅ end).
Proof.
  intros Hs HM. unfold mint_biscuit_capability in HM.
  apply rbind_Ok in HM as (lines & HL & HM). destruct (bk_build _) as [tok'|] eqn:Eb; [|done]. injection HM as ->.
  pose proof (mint_lines_wf _ HL Hs) as Hw.
  assert (Hq : forall name, ident name = true ->
          exists ts, bk_query tok name = Some ts /\ forall t, t ∈ ts <-> t ∈ terms name lines).
  { intros name. by apply query_terms. }
  assert (Hr : Forall (fun r => resource_term r = true) resources).
  { unfold mint_lines in HL. res_inv HL. unfold bound_lines in E0. destruct resources; [done|]. res_inv E0.
  by apply (bound_code_ok _ _ _ _ E1). }
  assert (He : match envelope with Some d => safe d = true | None => True end).
  { unfold mint_lines, envelope_lines, checked_envelope in HL. res_inv HL. destruct envelope as [d|]; [|done].
  res_inv E. destruct (envelope_term d) eqn:Ed; [|done]. by apply envelope_term_safe. }
  destruct (Hq "allowed_action") as (t1 & Q1 & T1), (Hq "allowed_resource") as (t2 & Q2 & T2),
  (Hq "allowed_resource_prefix") as (t3 & Q3 & T3), (Hq "allowed_executor") as (t4 & Q4 & T4),
  (Hq "subject") as (t5 & Q5 & T5), (Hq "expires_at") as (t6 & Q6 & T6),
  (Hq "delegation_depth_max") as (t7 & Q7 & T7), (Hq "allowed_envelope") as (t8 & Q8 & T8); try done.
  let go T := rewrite (mint_terms lines _ HL Hs) in T by (by apply (bool_decide_unpack _)); simpl in T in
  go T1; go T2; go T3; go T4; go T5; go T6; go T7; go T8.
  destruct Hs as (S1 & S2 & Hne & S3 & S4 & S5 & S6 & S7).
  unfold extract_authority_context, extract_allowed_envelopes. rewrite Q1, Q2, Q3, Q4, Q5, Q6, Q7, Q8. simpl.
  apply single_term in T4 as [ts4 ->], T5 as [ts5 ->], T6 as [ts6 ->], T7 as [ts7 ->]. simpl.
  rewrite !strip_dq by (done || apply bk_time_safe).
  rewrite (bk_one_block _ _ Eb), (bound_resources _ _ T2 T3 Hr), bk_time_ok.
  assert (H1 : (list_to_set (map strip_quotes t1) : gset string) = list_to_set (reads ++ writes)).
  { apply set_eq. intros x. rewrite !elem_of_list_to_set. apply strip_set; [done|]. by apply Forall_app. }
  rewrite H1. split.
  - do 2 f_equal. destruct resources as [|r rs]; [done|]. rewrite bool_decide_eq_false_2; [done|].
  rewrite list_to_set_cons. set_solver.
  - f_equal. apply set_eq. intros x. rewrite elem_of_list_to_set.
  destruct envelope as [d|].
  + rewrite (strip_set t8 [d] T8) by by apply Forall_singleton. set_solver.
  + destruct t8 as [|u t8]; [set_solver|]. assert (u ∈ @nil string) as ?%not_elem_of_nil; [|done].
    apply T8, elem_of_cons. by left.
Qed.
(** What is minted is what is read.  A token minted for safe texts is
    read back as exactly the authority it was minted for: the reads and
    writes as actions, the resource bounds (exact names and "dir/*" prefixes
    alike, or "*" when none were given), the caller as subject, the executor,
    the expiry to the second, depth 0 of at most 1, epoch 0; and its allowed
    envelopes are the one given, or none. *)
Theorem biscuit_roundtrip tok :
  mint_safe ->
  mint_biscuit_capability caller (Some executor) capability reads writes execution ttl (Some resources) scope epoch
  envelope now = Ok tok ->
  extract_authority_context tok
  = Some (mk_auth (list_to_set (reads ++ writes))
          (match resources with [] => {["*"]} | _ => list_to_set resources end)
          executor caller (Some (whole_second (now + ttl * 1000000))) 0 1 0)
  /\ extract_allowed_envelopes tok = Some (match envelope with Some d => {[d]} | None => ∅ end).
Proof. apply mint_extract. Qed.

(** A minted token is not the empty string. *)
Lemma mint_nonempty tok :
  mint_biscuit_capability caller (Some executor) capability reads writes execution ttl (Some resources) scope epoch
  envelope now = Ok tok -> tok <> "".
Proof.
  intros HM. unfold mint_biscuit_capability in HM. apply rbind_Ok in HM as (lines & HL & HM).
  destruct (bk_build _) as [tok'|] eqn:Eb; [|done]. injection HM as ->. eapply bk_nonempty; [|done].
  unfold mint_lines in HL. res_inv HL. by apply Ok_inj in HL as <-.
Qed.
End roundtrip.

(** ** Revocation *)

Inductive trust_step : TrustedRevocationState -> TrustedRevocationState -> Prop :=
  | ts_sync st incoming : trust_step st (sync_epochs st incoming)
  | ts_revoke st x : trust_step st (revoke_execution st x).

(** The state only ever gains revocations and higher epochs. *)
Definition trust_le (a b : TrustedRevocationState) : Prop :=
  revoked_execution_ids a ⊆ revoked_execution_ids b
  /\ forall scope k, known_epochs a !! scope = Some k ->
       exists k', known_epochs b !! scope = Some k' /\ (k <= k')%Z.

Lemma sync_one_le m se scope k :
  m !! scope = Some k -> exists k', sync_one m se !! scope = Some k' /\ (k <= k')%Z.
Proof.
  intros Hm. unfold sync_one. case_match eqn:E; [|by exists k].
  destruct (decide (se.1 = scope)) as [<-|Hn].
  - exists se.2. rewrite lookup_insert_eq. split; [done|]. rewrite Hm in E. simpl in E. lia.
  - exists k. by rewrite lookup_insert_ne.
Qed.

#[local] Instance trust_le_preorder : PreOrder trust_le.
Proof.
  split.
  - intros x. split; [done|]. intros scope k Hk. by exists k.
  - intros x y z [R1 K1] [R2 K2]. split; [by etrans|]. intros scope k Hk.
    destruct (K1 _ _ Hk) as (k' & Hk' & ?), (K2 _ _ Hk') as (k'' & Hk'' & ?). exists k''. split; [done|lia].
Qed.

Lemma trust_step_le a b : steps trust_step a b -> trust_le a b.
Proof.
  apply (steps_preorder trust_step id trust_le).
  intros x y [st incoming|st e]; (split; [simpl; set_solver|]); simpl; intros scope k Hk; [|by exists k].
  revert k Hk. generalize (known_epochs st) as m. induction incoming as [|se inc IH]; intros m k Hk; simpl.
  - by exists k.
  - destruct (sync_one_le _ se _ _ Hk) as (k1 & Hk1 & ?), (IH _ _ Hk1) as (k2 & Hk2 & ?).
    exists k2. split; [done|lia].
Qed.

Lemma verify_refuses `{Biscuit} tok executor action resource subject ts execution envelope :
  execution_check tok ts execution <> Some true \/ epoch_check tok ts <> Some true ->
  verify_biscuit_capability tok executor action resource subject ts execution envelope = false.
Proof.
  intros Hc. unfold verify_biscuit_capability. do 3 (match goal with |- (if ?c then _ else _) = _ => destruct c; [done|] end).
  destruct (execution_check _ _ _) as [[]|]; try done. destruct (epoch_check _ _) as [[]|]; try done.
  by destruct Hc.
Qed.

(** Revocation is final.  Once the trusted state revokes a token's
    execution, or knows an epoch of its scope above its own, every later
    verification of the token is refused, whatever is synchronized or revoked
    afterwards: a stale synchronization cannot lower an epoch.  And a token
    that carries an execution id or a scope is refused without a trusted
    state. *)
Theorem revocation_is_final `{Biscuit} tok e es s ss ep eps z st st' :
  bk_query tok "execution_id" = Some (e :: es) ->
  bk_query tok "revocation_scope" = Some (s :: ss) -> bk_query tok "revocation_epoch" = Some (ep :: eps) ->
  read_int ep = Some z ->
  strip_quotes e ∈ revoked_execution_ids st \/ (exists k, known_epochs st !! strip_quotes s = Some k /\ (z < k)%Z) ->
  steps trust_step st st' ->
  forall executor action resource subject execution envelope,
    verify_biscuit_capability tok executor action resource subject (Some st') execution envelope = false
    /\ verify_biscuit_capability tok executor action resource subject None execution envelope = false.
Proof.
  intros Qe Qs Qp Hz Hrev Hst executor action resource subject execution envelope.
  apply trust_step_le in Hst as [Hr Hk].
  split; apply verify_refuses; unfold execution_check, epoch_check; rewrite Qe, Qs, Qp; simpl.
  - destruct Hrev as [Hi|(k & Hi & Hlt)].
    + left. rewrite bool_decide_eq_true_2 by set_solver. by repeat case_match.
    + right. rewrite Hz. simpl. destruct (Hk _ _ Hi) as (k' & -> & ?).
      destruct (z <? k')%Z eqn:E; [done|lia].
  - left. by repeat case_match.
Qed.
