(* ===== verification/BiscuitDemo.v ===== *)
(** * A concrete biscuit package

    An instance of [Biscuit] that computes and satisfies [BiscuitLaws]: a
    token is the escaped lines it was built from, a query reads them back, and
    times are binary numbers. *)

From Stdlib Require Import ZArith Lia Ascii String.
From stdpp Require Import base gmap strings list pretty.
From S2P Require Import Prelude Canon VdbExample PyJson Lease Biscuit BiscuitProperties.

(** ** Lines in a token *)

Definition mark : ascii := "x"%char.
Definition stop : ascii := "n"%char.
Definition put_line (line : string) : list ascii := concat (map (fun c => [mark; c]) (chars line)) ++ [stop].
Definition put_lines (lines : list string) : string := string_of_list_ascii (concat (map put_line lines)).
Fixpoint get_lines (acc : list ascii) (l : list ascii) : list (list ascii) :=
  match l with
  | c :: l1 =>
    if Ascii.eqb c stop then acc :: get_lines [] l1
    else match l1 with d :: l2 => get_lines (acc ++ [d]) l2 | [] => [] end
  | [] => []
  end.

Lemma get_put_line acc cs rest :
  get_lines acc (concat (map (fun c => [mark; c]) cs) ++ stop :: rest) = (acc ++ cs) :: get_lines [] rest.
Proof.
  revert acc. induction cs as [|c cs IH]; intros acc; simpl.
  - by rewrite app_nil_r.
  - rewrite IH. by rewrite <- (assoc_L (++)).
Qed.

Lemma get_put_lines lines : get_lines [] (chars (put_lines lines)) = map chars lines.
Proof.
  unfold put_lines. rewrite list_ascii_of_string_of_list_ascii.
  induction lines as [|l ls IH]; simpl; [done|]. unfold put_line at 1.
  rewrite <- (assoc_L (++)). simpl. by rewrite get_put_line, IH.
Qed.

(** ** Facts in a line *)

Fixpoint span_ident (l : list ascii) : list ascii * list ascii :=
  match l with
  | c :: l' => if ident_char c then let (a, b) := span_ident l' in (c :: a, b) else ([], l)
  | [] => ([], [])
  end.
Definition close : list ascii := [")"%char; ";"%char].
Definition term_in (name : string) (line : list ascii) : option string :=
  let (n, r) := span_ident line in
  if bool_decide (n = chars name) then
    match r with
    | c :: m => if Ascii.eqb c "("%char then
                  if bool_decide (close `suffix_of` m)
                  then Some (string_of_list_ascii (take (length m - 2) m)) else None
                else None
    | [] => None
    end
  else None.

Lemma span_name name r : ident name = true -> span_ident (chars name ++ "("%char :: r) = (chars name, "("%char :: r).
Proof.
  unfold ident. induction (chars name) as [|c cs IH]; [done|]. cbn [forallb span_ident app].
  intros [Hc Hcs]%andb_true_iff. by rewrite Hc, IH.
Qed.

Lemma chars_fact n t : chars (dtext (DFact n t)) = chars n ++ "("%char :: chars t ++ close.
Proof. unfold dtext. by rewrite !chars_app. Qed.

Lemma term_in_fact name n t :
  ident n = true -> term_in name (chars (dtext (DFact n t))) = if decide (n = name) then Some t else None.
Proof.
  intros Hn. rewrite chars_fact. unfold term_in. rewrite (span_name _ _ Hn). case_bool_decide as E.
  - apply chars_inj in E as ->. rewrite decide_True by done.
    change (Ascii.eqb "("%char "("%char) with true. cbv iota.
    rewrite bool_decide_eq_true_2 by by exists (chars t).
    rewrite length_app. change (length close) with 2.
    replace (length (chars t) + 2 - 2) with (length (chars t)) by lia.
    by rewrite take_app_length, string_of_list_ascii_of_string.
  - rewrite decide_False; [done|]. congruence.
Qed.

Lemma term_in_check name s : starts_with s "check if " = true -> term_in name (chars s) = None.
Proof.
  unfold starts_with. rewrite bool_decide_eq_true. intros [k ->]. unfold term_in. simpl. by case_bool_decide.
Qed.

(** ** Times *)

Fixpoint get_bits (l : list ascii) : option positive :=
  match l with
  | [] => None
  | c :: l' => if Ascii.eqb c "0"%char then xO <$> get_bits l'
               else match l' with [] => Some xH | _ => xI <$> get_bits l' end
  end.
Definition put_z (z : Z) : string :=
  match z with Z0 => "z" | Zpos p => String "p" (bits p) | Zneg p => String "m" (bits p) end.
Definition get_z (s : string) : option Z :=
  match s with
  | String c t => if Ascii.eqb c "z"%char then Some 0%Z
                  else if Ascii.eqb c "p"%char then Z.pos <$> get_bits (chars t)
                  else Z.neg <$> get_bits (chars t)
  | EmptyString => None
  end.

Lemma get_bits_ok p : get_bits (chars (bits p)) = Some p.
Proof.
  induction p as [p IH|p IH|]; [..|done]; simpl in *; rewrite IH; [|done].
  destruct (chars (bits p)) eqn:E; [|done]. by destruct p.
Qed.

Lemma bits_safe p : safe (bits p) = true.
Proof. induction p; [..|done]; unfold safe in *; simpl; done. Qed.

#[export] Instance demo_biscuit : Biscuit := {|
  bk_build := fun lines => Some (put_lines lines);
  bk_append := fun tok lines => Some tok;
  bk_query := fun tok name => Some (omap (term_in name) (get_lines [] (chars tok)));
  bk_block_count := fun _ => 1%Z;
  bk_authorize := fun _ _ => true;
  bk_strftime := fun t => put_z (whole_second t);
  bk_strptime := get_z |}.

#[export] Instance demo_biscuit_laws : BiscuitLaws.
Proof.
  split; simpl.
  - intros lines _. by eexists.
  - intros lines tok name Hw Hn [= <-]. eexists. split; [done|]. intros t.
    rewrite get_put_lines, list_elem_of_omap. rewrite Forall_forall in Hw. split.
    + intros (l & Hl & Ht). apply list_elem_of_fmap in Hl as (l' & -> & Hl).
      apply list_elem_of_fmap in Hl as (d & -> & Hd). destruct (Hw _ Hd) as [n s Hi _|n z Hi|s Hs _].
      1-2: unfold sfact in *; rewrite term_in_fact in Ht by done; case_decide; by simplify_eq.
      simpl in Ht. by rewrite term_in_check in Ht.
    + intros Hd. exists (chars (dtext (DFact name t))). split.
      * apply list_elem_of_fmap. eexists. split; [done|]. apply list_elem_of_fmap. by eexists.
      * rewrite term_in_fact by done. by rewrite decide_True.
  - intros [|d ds] tok Hne [= <-]; [done|]. unfold put_lines. simpl. unfold put_line. by destruct (chars (dtext d)).
  - done.
  - intros t. unfold put_z, get_z. destruct (whole_second t); simpl; by rewrite ?get_bits_ok.
  - intros t. unfold put_z. destruct (whole_second t); simpl; [done|..]; apply bits_safe.
Qed.

(** ** Witnesses *)

Definition demo_minted : string :=
  match mint_biscuit_capability "alice" (Some "alice") "veklom.governed-counter@v1" ["counter.read"]
          ["counter.increment"] "exec-1" 600 (Some ["counter"; "reports/*"]) "execution:exec-1" 0 None 1000000 with
  | Ok tok => tok
  | Err _ => ""
  end.

Lemma biscuit_roundtrip_witness :
  extract_authority_context demo_minted
  = Some (mk_auth (list_to_set (["counter.read"] ++ ["counter.increment"])) (list_to_set ["counter"; "reports/*"])
            "alice" "alice" (Some (whole_second (1000000 + 600 * 1000000))) 0 1 0)
  /\ extract_allowed_envelopes demo_minted = Some ∅.
Proof.
  apply (biscuit_roundtrip "alice" "alice" "veklom.governed-counter@v1" "exec-1" "execution:exec-1"
           ["counter.read"] ["counter.increment"] ["counter"; "reports/*"] 600 0 1000000 None).
  - unfold mint_safe. repeat split; try done; by repeat constructor.
  - reflexivity.
Defined.

Definition demo_trust_state : TrustedRevocationState := mk_trusted {["execution:exec-1" := 0%Z]} ∅.

Lemma revocation_is_final_witness :
  verify_biscuit_capability demo_minted "alice" "counter.read" "" None (Some demo_trust_state) None None = true
  /\ verify_biscuit_capability demo_minted "alice" "counter.read" "" None
       (Some (sync_epochs (revoke_execution demo_trust_state "exec-1") [("execution:exec-1", (-3)%Z)])) None None = false.
Proof.
  split; [vm_compute; reflexivity|].
  eapply (revocation_is_final demo_minted (dq "exec-1") [] (dq "execution:exec-1") [] "0" [] 0
            (revoke_execution demo_trust_state "exec-1")).
  - vm_compute. reflexivity.
  - vm_compute. reflexivity.
  - vm_compute. reflexivity.
  - reflexivity.
  - left. vm_compute. done.
  - eapply steps_snoc; [apply steps_refl|apply ts_sync].
Defined.
