(* ===== verification/Registry.v ===== *)
(** * The mount registry: mounting and evaluating (capability_mount/service.py)

    [request_mount], [evaluate], [evaluate_candidates] and [status].  One call
    holds the row lock for its whole body, so it is one step on the tables.
    The external anchor, the evidence verifier, the clock and the drawn ids
    are arguments; rows of the audit ledger are not in the tables, and signing
    a receipt does not raise. *)

From Stdlib Require Import ZArith Lia Ascii String.
From stdpp Require Import base gmap strings list pretty sorting.
From S2P Require Import Prelude Canon PyJson MountModels Lease Biscuit Consequence Mounts Engine.

Record AnchorResult := mk_anchor { an_status : string; an_id : option string; an_ref : option string }.

(** What a registry is configured with.  [rg_anchor] is the anchor's answer
    to an event, decision and reason; [rg_verify] the jti of the evidence a
    token proves, by kind, principal, mount, action and nonce; [rg_offline]
    whether the ledger is known to be unreachable; [rg_clock n] the [n]-th
    reading of the clock in a call, and [rg_stamp] its digits. *)
Record registry := mk_registry {
  rg_packages : gmap string CapabilityPackage;
  rg_anchor : string -> Decision -> string -> AnchorResult;
  rg_verify : option string -> string -> string -> mrecord -> string -> string -> option string;
  rg_offline : bool;
  rg_clock : nat -> Z;
  rg_stamp : string }.

Definition anchored (a : AnchorResult) : bool :=
  bool_decide (an_status a ∈ ["confirmed"; "pending_reconciliation"]).

Section registry.
Context `{Ext, Biscuit} (reg : registry).

(** ** evaluate *)

(** [decision == "allow"] receipts of a token. *)
Definition prior_receipt (db : cdb) (token_id : string) : bool :=
  existsb (fun kv => str_eqb (rc_token kv.2) token_id && str_eqb (rc_decision kv.2) "allow")
  (map_to_list (d_receipts db)).

Definition token_reason (db : cdb) (row : mount_row) (token_id nonce : string) : option string :=
  let presented := str_eqb token_id (mr_token_id row) && str_eqb nonce (mr_nonce row) in
  if mr_terminated row then Some "terminated"
  else if (mr_expires_at row <=? rg_clock reg 0)%Z then Some "token_expired"
  else if mr_nonce_consumed row || negb presented then
  Some (if mr_nonce_consumed row && presented then "token_replay" else "token_mismatch")
  else if prior_receipt db token_id then Some "token_replay_receipt"
  else None.

Definition budget_reason (lease : option lease) : option string :=
  match lease with
  | Some l => if le_offline_enabled l && (le_offline_budget l <=? 0)%Z then Some "offline_budget_exhausted" else None
  | None => None
  end.

(** The ceiling a package puts on a biscuit's authority. *)
Definition package_ceiling (package_ref : string) (b : AuthorityContext) : AuthorityContext :=
  match rg_packages reg !! package_ref with
  | Some pk => mk_auth (list_to_set (pk_reads pk ++ pk_writes pk ++ pk_external_send pk)) {["*"]}
               (ac_executor b) (ac_subject b) (ac_expires_at b) (ac_depth b) (ac_max_depth b) (ac_epoch b)
  | None => b
  end.

(** The authority of lease, biscuit and package: the reason of a refusal. *)
Definition lease_refusal (l : lease) (rec : mrecord) (action : string) (resource : option string)
  : option string :=
  let b_auth := match mc_biscuit rec with
              | Some t => if str_eqb t "" then None else extract_authority_context t
              | None => None
              end in
  match b_auth with
  | None => Some "missing_cryptographic_authority"
  | Some b =>
  match evaluate_authority l (Some b) (package_ceiling (tk_package_ref (mc_token rec)) b) ONLINE (rg_clock reg 1) with
  | Err _ => Some "lease_invariant_violation"
  | Ok eff =>
    if negb (bool_decide (action ∈ ac_actions eff)) then Some "lease_invariant_violation"
    else if negb (bool_decide (gr_resources (tk_grants (mc_token rec)) = [])) && bool_decide ("*" ∈ ac_resources b)
    then Some "resource_bound_not_signed"
    else if negb (resource_in resource (ac_resources eff)) then Some "resource_not_granted"
    else None
  end
  end.

(** Evidence of one kind: the reason it is missing or replayed, or its jti. *)
Definition evidence (db : cdb) (rec : mrecord) (token : option string) (kind principal action nonce
  missing replayed : string) : string + string :=
  match rg_verify reg token kind principal rec action nonce with
  | None => inl missing
  | Some jti => match d_consumed db !! jti with Some _ => inl replayed | None => inr jti end
  end.

(** The binding's local checks and the two evidence gates: the decision, its
    reason, and the (jti, kind) of the evidence used. *)
Definition gate (db : cdb) (row : mount_row) (principal action : string) (resource : option string)
  (nonce : string) (approval suppression : option string) : Decision * string * list (string * string) :=
  let rec := mr_record row in
  let t := mc_token rec in
  let g := tk_grants t in
  if mr_terminated row || bool_decide (tk_mount_id t ∈ d_revoked db) then (DENY, "terminated", [])
  else if (tk_expires_at t <? rg_clock reg 2)%Z then (DENY, "token_expired", [])
  else if negb (profile_allows g action) then
  (DENY, if profile_is_blocked g action then "blocked_action" else "not_in_capability_profile", [])
  else if negb (profile_covers_resource g resource) then (DENY, "resource_not_granted", [])
  else
  let approved :=
    if mem action (gr_external_send g) && mp_human_approval (tk_policy t) then
      match evidence db rec approval "human_approval" principal action nonce
              "human_approval_not_verified" "human_approval_replayed" with
      | inl reason => inl reason
      | inr jti => inr [(jti, "human_approval")]
      end
    else inr [] in
  match approved with
  | inl reason => (DENY, reason, [])
  | inr used =>
    if mem action (gr_suppression_required g) && mp_suppression_check (tk_policy t) then
      match evidence db rec suppression "suppression_check" principal action nonce
              "suppression_not_verified" "suppression_evidence_replayed" with
      | inl reason => (DENY, reason, used)
      | inr jti => (ALLOW, "allowed", used ++ [(jti, "suppression_check")])
      end
    else (ALLOW, "allowed", used)
  end.

(** The lease's expiry. *)
Definition lease_expired (lease : option lease) : bool :=
  match lease with Some l => (le_expires_at l <? rg_clock reg 3)%Z | None => false end.

Definition spend_offline (l : lease) : lease :=
  mk_lease (le_id l) (le_mount_id l) (le_subject l) (le_executor l) (le_expires_at l) (le_state l)
  (le_state_version l) (le_authority_epoch l) (le_revocation_epoch l) (le_depth l) (le_max_depth l)
  (le_actions l) (le_resources l) (le_offline_enabled l) (le_max_offline l) (le_reconciliation_required l)
  (le_updated_at l) (le_offline_budget l - 1) (le_offline_side_effect_limit l - 1).

(** Offline enforcement of an allowed action: a refusal, or the tables with
    the limits spent. *)
Definition offline_limits (db : cdb) (lease : option lease) : string + cdb :=
  match lease with
  | Some l =>
  if rg_offline reg then
    if negb (le_offline_enabled l) then inl "offline_execution_disabled"
    else if (le_offline_budget l <=? 0)%Z then inl "offline_budget_exhausted"
    else if (le_offline_side_effect_limit l <=? 0)%Z then inl "offline_side_effect_limit_exhausted"
    else inr (update_lease db (spend_offline l))
  else inr db
  | None => inr db
  end.

Definition consume (cs : gmap string consumption) (mount_id action : string) (e : string * string)
  : gmap string consumption := <[e.1 := mk_consumption e.2 mount_id action]> cs.

Definition with_nonce_consumed (r : mount_row) : mount_row :=
  mk_mount_row (mr_token_id r) (mr_nonce r) (mr_principal r) (mr_workspace r) (mr_record r) (mr_continuity r)
  (mr_expires_at r) (mr_epoch r) (mr_terminated r) true (mr_start_claim r) (mr_start_claimed_at r).

Definition the_receipt (row : mount_row) (mount_id principal action : string) (resource target_ref : option string)
  (a : AnchorResult) : receipt :=
  mk_receipt ("rcpt_" +:+ py_or (an_id a) (rg_stamp reg)) mount_id (mr_execution row) principal action resource
  "allow" (tk_token_id (mc_token (mr_record row))) target_ref
  (gr_envelope_digest (tk_grants (mc_token (mr_record row)))) (an_id a) (an_status a).

(** The commit of an allowed action: the evidence, the nonce, the receipt.
    Primary keys are the jti and the receipt id. *)
Definition commit_allow (db : cdb) (row : mount_row) (mount_id principal action : string)
  (resource target_ref : option string) (used : list (string * string)) (a : AnchorResult)
  : eff cerr cdb (Decision * string * option string) := fun db0 =>
  let r := the_receipt row mount_id principal action resource target_ref a in
  if negb (bool_decide (NoDup (map fst used))) || existsb (fun e => bool_decide (is_Some (d_consumed db !! e.1))) used
   || bool_decide (is_Some (d_receipts db !! rc_id r)) then Raise IntegrityError db0
  else Ret (ALLOW, "allowed", Some (rc_id r))
       (mk_cdb (<[mount_id := with_nonce_consumed row]> (d_mounts db)) (d_events db)
          (<[rc_id r := r]> (d_receipts db)) (d_leases db) (d_redeemed db) (d_revoked db)
          (foldl (fun cs e => consume cs mount_id action e) (d_consumed db) used)).

(** [evaluate]: decision, reason and receipt id. *)
Definition evaluate (mount_id action : string) (resource : option string) (token_id nonce owner_principal : string)
  (owner_workspace approval_token suppression_evidence target_ref : option string)
  : eff cerr cdb (Decision * string * option string) := fun db =>
  match d_mounts db !! mount_id with
  | None => Ret (DENY, "unknown_mount", None) db
  | Some row =>
  if negb (owned_by mount_id row owner_principal owner_workspace) then Ret (DENY, "owner_mismatch", None) db
  else
    let lease := latest_lease db mount_id in
    let deny reason := Ret (DENY, reason, None) db in
    match token_reason db row token_id nonce with
    | Some reason => deny reason
    | None =>
      match budget_reason lease with
      | Some reason => deny reason
      | None =>
        match match lease with Some l => lease_refusal l (mr_record row) action resource | None => None end with
        | Some reason => deny reason
        | None =>
          match gate db row owner_principal action resource nonce approval_token suppression_evidence with
          | (DENY, reason, _) => deny (if lease_expired lease then "lease_expired" else reason)
          | (ALLOW, _, used) =>
            if lease_expired lease then deny "lease_expired"
            else match offline_limits db lease with
                 | inl reason => deny reason
                 | inr db1 =>
                   let a := rg_anchor reg "action_decision" ALLOW "allowed" in
                   if negb (anchored a) then deny "pgl_anchor_unconfirmed"
                   else commit_allow db1 row mount_id owner_principal action resource target_ref used a db
                 end
          end
        end
      end
    end
  end.

(** The call [cappo_evaluator] makes for the row its record was built from:
    the same, with the row as the call read it. *)
Definition evaluate_for (captured : mount_row) (mount_id action : string) (resource : option string)
  (approval_token suppression_evidence target_ref : option string)
  : eff cerr cdb (Decision * string * option string * mount_row) := fun db =>
  let t := mc_token (mr_record captured) in
  match evaluate mount_id action resource (tk_token_id t) (tk_nonce t) (mr_principal captured)
        (Some (mr_workspace captured)) approval_token suppression_evidence target_ref db with
  | Ret (dec, reason, rid) db' => Ret (dec, reason, rid, default captured (d_mounts db !! mount_id)) db'
  | Raise e db' => Raise e db'
  | Crash db' => Crash db'
  end.

(** ** request_mount *)

(** The ids and secrets drawn, and the clock at the mount and at the mint. *)
Record draws := mk_draws {
  dr_mount : string; dr_execution : string; dr_token : string; dr_nonce : string; dr_secret : string;
  dr_issued_at : Z; dr_minted_at : Z }.

Record mount_request := mk_mount_request {
  rq_package_ref : string; rq_scope : MountScope; rq_policy : MountPolicy; rq_ttl : Z;
  rq_owner_principal : string; rq_owner_workspace : option string; rq_execution_id : option string;
  rq_caller_spiffe : option string; rq_executor_spiffe : option string;
  rq_authority : option (Decision * list string);
  rq_substrate_id : option string; rq_boot_instance_id : option string;
  rq_runtime_key_thumbprint : option string; rq_state_root : option string }.

Definition unverified (principal : string) : bool :=
  bool_decide (principal ∈ [""; "auth-disabled"; "legacy-unbound"]).

(** The biscuit of a mounted token. *)
Definition mint_for (package : CapabilityPackage) (t : Token) (caller executor : string) (now : Z)
  : res biscuit_err string :=
  let g := tk_grants t in
  mint_biscuit_capability caller (Some executor) (pk_id package) (gr_reads g) (gr_writes g) (tk_execution_id t)
  (tk_ttl t) (match gr_resources g with [] => None | rs => Some rs end)
  ("execution:" +:+ tk_execution_id t) 0 (gr_envelope_digest g) now.

Definition new_row (rq : mount_request) (t : Token) (biscuit : string) : mount_row :=
  mk_mount_row (tk_token_id t) (tk_nonce t) (rq_owner_principal rq)
  (py_or (rq_owner_workspace rq) (sc_workspace (rq_scope rq)))
  (mk_mrecord t (Some biscuit) (rq_substrate_id rq) (rq_boot_instance_id rq) (rq_runtime_key_thumbprint rq)
     (rq_state_root rq))
  (mk_continuity (Some 1%Z) None (Some (genesis_head (tk_mount_id t) (tk_token_id t) 1)) None None)
  (tk_expires_at t) 1 false false None None.

Definition new_lease (t : Token) (caller executor : string) : lease :=
  let g := tk_grants t in
  mk_lease ("lease_" +:+ tk_mount_id t) (tk_mount_id t) caller executor (tk_expires_at t) L_ACTIVE 1 0 0 0 0
  (list_to_set (gr_reads g ++ gr_writes g ++ gr_external_send g))
  (match gr_resources g with [] => {["*"]} | rs => list_to_set rs end)
  false 0 false None 0 0.

(** The commit of a new mount and its lease; mount id, token id, nonce and
    lease id are unique. *)
Definition commit_mount (mount_id : string) (row : mount_row) (l : lease) (db : cdb) : option cdb :=
  if bool_decide (is_Some (d_mounts db !! mount_id)) || token_conflict db mount_id (mr_token_id row) (mr_nonce row)
   || existsb (fun x => str_eqb (le_id x) (le_id l)) (d_leases db) then None
  else Some (set_leases (set_mount db mount_id row) (d_leases db ++ [l])).

(** The evaluation result a caller presents, checked before the mount. *)
Definition authority_refusal (rq : mount_request) : option string :=
  match rq_authority rq with
  | Some (DENY, _) => Some "authority_denied"
  | Some (ALLOW, permitted) =>
  if bool_decide (rq_package_ref rq ∈ permitted) then None else Some "binding_mismatch"
  | None => None
  end.

(** [request_mount]: the new mount's id and row with the holder credential,
    or [None]; and the reason. *)
Definition request_mount (rq : mount_request) (dr : draws)
  : eff cerr cdb (option (string * mount_row * string) * string) := fun db =>
  match authority_refusal rq with
  | Some reason => Ret (None, reason) db
  | None =>
  match rg_packages reg !! rq_package_ref rq with
  | None => Ret (None, match rq_authority rq with None => "unknown_package" | Some _ => "provider_disappeared" end) db
  | Some package =>
    match mount package (rq_scope rq) (Some (rq_policy rq)) (rq_ttl rq) (rq_execution_id rq) (dr_mount dr)
            (dr_execution dr) (dr_token dr) (dr_nonce dr) (dr_issued_at dr) with
    | Err (MountError msg) => Ret (None, msg) db
    | Ok t =>
      let caller := py_or (rq_caller_spiffe rq) (rq_owner_principal rq) in
      let executor := py_or (rq_executor_spiffe rq) (rq_owner_principal rq) in
      if unverified caller || unverified executor then Ret (None, "missing_verified_principal") db
      else match mint_for package t caller executor (dr_minted_at dr) with
           | Err (BValueError msg) => Raise (ValueErrorM msg) db
           | Err BiscuitError => Raise (OtherException "DataLogError") db
           | Ok biscuit =>
             if negb (anchored (rg_anchor reg "mount" ALLOW "mounted")) then Ret (None, "pgl_anchor_unconfirmed") db
             else
               let row := new_row rq t biscuit in
               match commit_mount (tk_mount_id t) row (new_lease t caller executor) db with
               | None => Raise IntegrityError db
               | Some db' =>
                 Ret (Some (tk_mount_id t, row, "vlm_" +:+ tk_mount_id t +:+ "." +:+ dr_secret dr), "mounted") db'
               end
           end
    end
  end
  end.

(** ** evaluate_candidates and status *)

(** The candidates a context permits, in order, and the refusals;
    [cost] is [policy_defaults.get("cost", 0)]. *)
Definition candidate_refusal (cost : CapabilityPackage -> Z) (budget : Z) (forbidden : list string) (c : string)
  : option string :=
  match rg_packages reg !! c with
  | None => Some "unknown_package"
  | Some pk =>
  if bool_decide (c ∈ forbidden) then Some "policy_forbidden"
  else if (budget <? cost pk)%Z then Some "budget_ceiling"
  else None
  end.

Definition evaluate_candidates (cost : CapabilityPackage -> Z) (budget : Z) (forbidden candidates : list string)
  : Decision * list string * list (string * string) :=
  let permitted := filter (fun c => candidate_refusal cost budget forbidden c = None) candidates in
  let rejected := omap (fun c => (fun r => (c, r)) <$> candidate_refusal cost budget forbidden c) candidates in
  match permitted with
  | [] => (DENY, [], rejected)
  | _ => (ALLOW, merge_sort String.le permitted, rejected)
  end.

Definition status (mount_id owner_principal : string) (owner_workspace : option string) (db : cdb)
  : option mount_row * string :=
  match d_mounts db !! mount_id with
  | None => (None, "unknown_mount")
  | Some row =>
  if negb (owned_by mount_id row owner_principal owner_workspace) then (None, "owner_mismatch")
  else (Some row, if mr_terminated row then "terminated"
                  else if (mr_expires_at row <=? rg_clock reg 0)%Z then "expired" else "mounted")
  end.
End registry.

(** [register_package]. *)
Definition register_package (reg : registry) (package : CapabilityPackage) : registry :=
  mk_registry (<[pk_id package := package]> (rg_packages reg)) (rg_anchor reg) (rg_verify reg) (rg_offline reg)
    (rg_clock reg) (rg_stamp reg).
