(* ===== verification/RegistryProofs.v ===== *)
(** * What an evaluation and a mount request do

    Case analysis of [evaluate] and [request_mount], the step relation of the
    whole service with the two in place, its simulation by the step relation
    of ConsequenceProofs, and the invariant of tokens and receipts. *)

From Stdlib Require Import ZArith Lia Ascii String.
From stdpp Require Import base gmap strings list pretty sorting.
From S2P Require Import Prelude Canon PyJson MountModels Lease LeaseProperties Biscuit Consequence Mounts Permits ConsequenceProofs Engine Registry.

Local Open Scope Z_scope.

Section proofs.
Context `{Ext, Biscuit}.

(** ** evaluate *)

(** The token was presented for the first time, on a live mount, by its
    owner. *)
Record presented (reg : registry) (db : cdb) (m : string) (row : mount_row) (token_id nonce principal : string)
  (workspace : option string) : Prop := {
  pr_owned : owned_by m row principal workspace = true;
  pr_live : mr_terminated row = false;
  pr_unexpired : rg_clock reg 0 < mr_expires_at row;
  pr_token : token_id = mr_token_id row;
  pr_nonce : nonce = mr_nonce row;
  pr_unconsumed : mr_nonce_consumed row = false;
  pr_first : forall id r, d_receipts db !! id = Some r -> rc_token r = token_id -> rc_decision r <> "allow" }.

(** The lease, the biscuit and the package each grant the action on the
    resource. *)
Record granted (reg : registry) (l : lease) (rec : mrecord) (action : string) (resource : option string)
  (b : AuthorityContext) : Prop := {
  gt_biscuit : exists tok, mc_biscuit rec = Some tok /\ extract_authority_context tok = Some b;
  gt_state : le_state l = L_ISSUED \/ le_state l = L_ACTIVE;
  gt_unexpired : rg_clock reg 3 <= le_expires_at l;
  gt_lease : action ∈ le_actions l /\ resource_in resource (le_resources l) = true;
  gt_signed : action ∈ ac_actions b /\ resource_in resource (ac_resources b) = true;
  gt_package : forall pk, rg_packages reg !! tk_package_ref (mc_token rec) = Some pk ->
  action ∈ pk_reads pk ++ pk_writes pk ++ pk_external_send pk }.

(** Evidence of a kind was verified, is unspent before and spent after. *)
Definition spent (reg : registry) (db db' : cdb) (rec : mrecord) (token : option string)
  (kind principal action nonce : string) : Prop :=
  exists jti, rg_verify reg token kind principal rec action nonce = Some jti
  /\ d_consumed db !! jti = None /\ is_Some (d_consumed db' !! jti).

Lemma prior_receipt_false db token_id :
  prior_receipt db token_id = false <->
  forall id r, d_receipts db !! id = Some r -> rc_token r = token_id -> rc_decision r <> "allow".
Proof.
  unfold prior_receipt. rewrite <- not_true_iff_false, existsb_exists. split.
  - intros Hf id r Hr Ht Hd. apply Hf. exists (id, r). split; [by apply list_elem_of_In, elem_of_map_to_list|].
  simpl. by rewrite Ht, Hd, !str_eqb_refl.
  - intros Hf ([id r] & Hi & [Ht Hd]%andb_true_iff). apply list_elem_of_In, elem_of_map_to_list in Hi.
  apply str_eqb_spec in Ht, Hd. by eapply Hf.
Qed.

Lemma token_reason_None reg db m row token_id nonce principal workspace :
  owned_by m row principal workspace = true -> token_reason reg db row token_id nonce = None ->
  presented reg db m row token_id nonce principal workspace.
Proof.
  unfold token_reason. intros Ho Ht.
  destruct (mr_terminated row) eqn:E1; [done|]. destruct (mr_expires_at row <=? _) eqn:E2; [done|].
  destruct (mr_nonce_consumed row) eqn:E3; [done|]. simpl in Ht.
  destruct (str_eqb token_id _ && str_eqb nonce _) eqn:E4; [|done]. simpl in Ht.
  apply andb_true_iff in E4 as [?%str_eqb_spec ?%str_eqb_spec].
  destruct (prior_receipt db token_id) eqn:E5; [done|]. rewrite prior_receipt_false in E5.
  constructor; try done. lia.
Qed.

Lemma authority_effective l b p conn now eff :
  evaluate_authority l (Some b) p conn now = Ok eff ->
  (le_state l = L_ISSUED \/ le_state l = L_ACTIVE)
  /\ ac_actions eff = le_actions l ∩ ac_actions b ∩ ac_actions p
  /\ forall r, resource_in r (ac_resources eff)
     = resource_in r (le_resources l) && resource_in r (ac_resources b) && resource_in r (ac_resources p).
Proof.
  unfold evaluate_authority. intros HE. res_inv HE. injection HE as <-. simpl.
  apply negb_false_iff, bool_decide_eq_true in E. split_and!; [|done|].
  - apply list_elem_of_In in E as [<-|[<-|[]]]; auto.
  - intros r. by rewrite !resource_meet.
Qed.

Lemma lease_refusal_None reg l rec action resource :
  lease_refusal reg l rec action resource = None -> rg_clock reg 3 <= le_expires_at l ->
  exists b, granted reg l rec action resource b.
Proof.
  unfold lease_refusal. intros HL Hexp.
  destruct (mc_biscuit rec) as [t|] eqn:Eb; [|done]. destruct (str_eqb t ""); [done|].
  destruct (extract_authority_context t) as [b|] eqn:Ex; [|done].
  destruct (evaluate_authority _ _ _ _ _) as [eff|] eqn:Ee; [|done].
  destruct (bool_decide (action ∈ ac_actions eff)) eqn:Ea; [|done]. apply bool_decide_eq_true in Ea. simpl in HL.
  destruct (_ && _); [done|]. destruct (resource_in resource (ac_resources eff)) eqn:Er; [|done].
  apply authority_effective in Ee as (Hst & Hac & Hre). rewrite Hre in Er. rewrite Hac in Ea.
  apply andb_true_iff in Er as [[E1 E2]%andb_true_iff _]. exists b.
  constructor; try done; [by exists t|set_solver|set_solver|].
  intros pk Hpk. unfold package_ceiling in Ea. rewrite Hpk in Ea. simpl in Ea. set_solver.
Qed.

(** A needed piece of evidence is among those used. *)
Definition used_evidence (reg : registry) (db : cdb) (rec : mrecord) (token : option string)
  (kind principal action nonce : string) (used : list (string * string)) : Prop :=
  exists jti, rg_verify reg token kind principal rec action nonce = Some jti
  /\ d_consumed db !! jti = None /\ (jti, kind) ∈ used.

Lemma evidence_inr reg db rec token kind principal action nonce mi re jti :
  evidence reg db rec token kind principal action nonce mi re = inr jti ->
  rg_verify reg token kind principal rec action nonce = Some jti /\ d_consumed db !! jti = None.
Proof. unfold evidence. intros HE. repeat case_match; by simplify_eq. Qed.

Lemma gate_allow reg db row principal action resource nonce ap su reason used :
  gate reg db row principal action resource nonce ap su = (ALLOW, reason, used) ->
  let t := mc_token (mr_record row) in
  reason = "allowed" /\ (tk_mount_id t ∉ d_revoked db)
  /\ profile_allows (tk_grants t) action = true /\ profile_covers_resource (tk_grants t) resource = true
  /\ (action ∈ gr_external_send (tk_grants t) -> mp_human_approval (tk_policy t) = true ->
    used_evidence reg db (mr_record row) ap "human_approval" principal action nonce used)
  /\ (action ∈ gr_suppression_required (tk_grants t) -> mp_suppression_check (tk_policy t) = true ->
    used_evidence reg db (mr_record row) su "suppression_check" principal action nonce used).
Proof.
  unfold gate. intros HG. cbv zeta. set (t := mc_token (mr_record row)) in *.
  destruct (mr_terminated row); [done|]. case_bool_decide as Erev; [done|]. simpl in HG.
  destruct (tk_expires_at t <? _); [done|]. destruct (profile_allows _ _) eqn:Ea; [|done].
  destruct (profile_covers_resource _ _) eqn:Ec; [|done]. simpl in HG.
  set (need_a := mem action (gr_external_send (tk_grants t)) && mp_human_approval (tk_policy t)) in *.
  set (need_s := mem action (gr_suppression_required (tk_grants t)) && mp_suppression_check (tk_policy t)) in *.
  assert (Ha : forall P : Prop, (need_a = true -> P) ->
  action ∈ gr_external_send (tk_grants t) -> mp_human_approval (tk_policy t) = true -> P).
  { intros P HP H1 H2. apply HP. unfold need_a, mem. by rewrite bool_decide_eq_true_2, H2. }
  assert (Hs : forall P : Prop, (need_s = true -> P) ->
  action ∈ gr_suppression_required (tk_grants t) -> mp_suppression_check (tk_policy t) = true -> P).
  { intros P HP H1 H2. apply HP. unfold need_s, mem. by rewrite bool_decide_eq_true_2, H2. }
  destruct need_a; [destruct (evidence _ _ _ ap _ _ _ _ _ _) as [?|ja] eqn:E1; [done|]|];
  (destruct need_s; [destruct (evidence _ _ _ su _ _ _ _ _ _) as [?|js] eqn:E2; [done|]|]); simplify_eq.
  all: try apply evidence_inr in E1 as [V1 C1]; try apply evidence_inr in E2 as [V2 C2].
  all: split_and!; try done.
  all: first [refine (Ha _ _) | refine (Hs _ _)]; intros Hn; try done; eexists; split_and!; try done; set_solver.
Qed.

Lemma consume_used cs m action used e :
  e ∈ used -> is_Some (foldl (fun cs e => consume cs m action e) cs used !! e.1).
Proof.
  assert (Hk : forall used cs, is_Some (cs !! e.1) -> is_Some (foldl (fun cs e => consume cs m action e) cs used !! e.1)).
  { intros us. induction us as [|x us IH]; intros c Hc; [done|]. simpl. apply IH. unfold consume.
  destruct (decide (x.1 = e.1)) as [->|]; [by rewrite lookup_insert_eq|by rewrite lookup_insert_ne]. }
  revert cs. induction used as [|x us IH]; intros cs He; [by apply not_elem_of_nil in He|].
  simpl. apply elem_of_cons in He as [->|He]; [|by apply IH].
  apply Hk. unfold consume. by rewrite lookup_insert_eq.
Qed.

(** The tables after an allowed action, up to the lease's offline limits. *)
Definition allowed_db (db : cdb) (ls : list lease) (m : string) (row : mount_row) (r : receipt) (action : string)
  (used : list (string * string)) : cdb :=
  mk_cdb (<[m := with_nonce_consumed row]> (d_mounts db)) (d_events db) (<[rc_id r := r]> (d_receipts db)) ls
  (d_redeemed db) (d_revoked db) (foldl (fun cs e => consume cs m action e) (d_consumed db) used).

(** Every run of [evaluate]: a refusal or an IntegrityError leave the tables
    as they were; an ALLOW has the facts above behind it. *)
Lemma evaluate_cases reg m action resource token_id nonce principal workspace ap su tg db :
  let o := evaluate reg m action resource token_id nonce principal workspace ap su tg db in
  (exists reason, o = Ret (DENY, reason, None) db) \/ o = Raise IntegrityError db
  \/ exists row used ls a, d_mounts db !! m = Some row /\
    let r := the_receipt reg row m principal action resource tg a in
    o = Ret (ALLOW, "allowed", Some (rc_id r)) (allowed_db db ls m row r action used)
    /\ d_receipts db !! rc_id r = None
    /\ presented reg db m row token_id nonce principal workspace
    /\ (forall l, latest_lease db m = Some l -> exists b, granted reg l (mr_record row) action resource b)
    /\ gate reg db row principal action resource nonce ap su = (ALLOW, "allowed", used)
    /\ anchored a = true.
Proof.
  cbv zeta. unfold evaluate. destruct (d_mounts db !! m) as [row|] eqn:Erow; [|eauto].
  destruct (owned_by m row principal workspace) eqn:Eo; [|eauto]. simpl.
  destruct (token_reason reg db row token_id nonce) eqn:Et; [eauto|].
  destruct (budget_reason _); [eauto|].
  destruct (match latest_lease db m with Some l => _ | None => _ end) eqn:El; [eauto|].
  destruct (gate _ _ _ _ _ _ _ _ _) as [[[] reason] used] eqn:Eg; [|eauto].
  destruct (lease_expired reg (latest_lease db m)) eqn:Ex; [eauto|].
  destruct (offline_limits reg db _) as [?|db1] eqn:Eoff; [eauto|].
  destruct (anchored _) eqn:Ean; [|eauto]. simpl.
  assert (Hdb1 : exists ls, db1 = set_leases db ls).
  { assert (Hid : set_leases db (d_leases db) = db) by by destruct db.
  unfold offline_limits in Eoff. repeat case_match; simplify_eq; first [by eexists|by exists (d_leases db1)]. }
  destruct Hdb1 as [ls ->]. unfold commit_allow. simpl.
  destruct (negb (bool_decide (NoDup _)) || _ || _) eqn:Ec; [eauto|]. right. right.
  exists row, used, ls, (rg_anchor reg "action_decision" ALLOW "allowed"). split; [done|].
  apply orb_false_iff in Ec as [_ Ec%bool_decide_eq_false].
  pose proof (gate_allow _ _ _ _ _ _ _ _ _ _ _ Eg) as (-> & _).
  split_and!; try done.
  - by apply eq_None_not_Some.
  - by apply token_reason_None.
  - intros l Hl. rewrite Hl in El, Ex. apply lease_refusal_None in El; [done|]. simpl in Ex. lia.
Qed.

(** ** request_mount *)

Lemma request_mount_cases reg rq dr db :
  let o := request_mount reg rq dr db in
  (exists reason, o = Ret (None, reason) db) \/ (exists e, o = Raise e db)
  \/ exists package t biscuit db',
    let caller := py_or (rq_caller_spiffe rq) (rq_owner_principal rq) in
    let executor := py_or (rq_executor_spiffe rq) (rq_owner_principal rq) in
    let row := new_row rq t biscuit in
    o = Ret (Some (tk_mount_id t, row, "vlm_" +:+ tk_mount_id t +:+ "." +:+ dr_secret dr), "mounted") db'
    /\ authority_refusal rq = None /\ rg_packages reg !! rq_package_ref rq = Some package
    /\ mount package (rq_scope rq) (Some (rq_policy rq)) (rq_ttl rq) (rq_execution_id rq) (dr_mount dr)
         (dr_execution dr) (dr_token dr) (dr_nonce dr) (dr_issued_at dr) = Ok t
    /\ unverified caller = false /\ unverified executor = false
    /\ mint_for package t caller executor (dr_minted_at dr) = Ok biscuit
    /\ commit_mount (tk_mount_id t) row (new_lease t caller executor) db = Some db'.
Proof.
  cbv zeta. unfold request_mount. destruct (authority_refusal rq) eqn:Ea; [eauto|].
  destruct (rg_packages reg !! _) as [package|] eqn:Ep; [|eauto].
  destruct (mount _ _ _ _ _ _ _ _ _ _) as [t|[msg]] eqn:Em; [|eauto].
  destruct (unverified _) eqn:Eu; [eauto|]. destruct (unverified (py_or (rq_executor_spiffe rq) _)) eqn:Eu'; [eauto|].
  simpl. destruct (mint_for _ _ _ _ _) as [biscuit|[msg|]] eqn:Eb; [|eauto..].
  destruct (anchored _); [|eauto]. simpl. destruct (commit_mount _ _ _ _) as [db'|] eqn:Ec; [|eauto].
  right. right. exists package, t, biscuit, db'. by split_and!.
Qed.

Lemma commit_mount_Some m row l db db' :
  commit_mount m row l db = Some db' ->
  d_mounts db !! m = None /\ token_conflict db m (mr_token_id row) (mr_nonce row) = false
  /\ (forall x, x ∈ d_leases db -> le_id x <> le_id l)
  /\ db' = set_leases (set_mount db m row) (d_leases db ++ [l]).
Proof.
  unfold commit_mount. intros HC. destruct (_ || _ || _) eqn:Eg; [done|]. injection HC as <-.
  apply orb_false_iff in Eg as [[E1 E2]%orb_false_iff E3]. split_and!; try done.
  - apply bool_decide_eq_false in E1. by apply eq_None_not_Some.
  - intros x Hx He. rewrite <- not_true_iff_false, existsb_exists in E3. apply E3. exists x.
  split; [by apply list_elem_of_In|]. rewrite He. apply str_eqb_refl.
Qed.

Lemma mount_ids package scope policy ttl ex a b c d t0 t :
  mount package scope policy ttl ex a b c d t0 = Ok t ->
  tk_mount_id t = "mnt_" +:+ a /\ tk_token_id t = "tok_" +:+ c /\ tk_nonce t = d /\ tk_package_ref t = pk_id package
  /\ tk_issued_at t = t0 /\ tk_expires_at t = t0 + ttl * 1000000 /\ tk_ttl t = ttl.
Proof. unfold mount. intros HM. res_inv HM. by injection HM as <-. Qed.
End proofs.

(** ** The steps of the service *)

Section service.
Context `{Ext, Mac, Biscuit}.

(** Every operation of the registry, in any order, for any registry
    configuration; an AUTHORIZED event is written in a transaction of its own
    after the evaluation, with the row read then. *)
Inductive rstep : cdb -> cdb -> Prop :=
  | rs_mount db reg rq dr : rstep db (oworld (request_mount reg rq dr db))
  | rs_evaluate db reg m action resource t n p w ap su tg :
  rstep db (oworld (evaluate reg m action resource t n p w ap su tg db))
  | rs_authorize db db' m row cur action resource op intent rid id :
  d_mounts db !! m = Some cur -> mr_epoch row <= mr_epoch cur ->
  insert_event db (authorized_row m row action resource op intent rid id) = Some db' -> rstep db db'
  | rs_begin db m op id :
  (exists e, e ∈ d_events db /\ ce_op e = op /\ ce_mount e = m) ->
  rstep db (oworld (begin_consequence m op id db))
  | rs_report db latest ok er unc pt id :
  latest ∈ d_events db -> rstep db (oworld (report_commit latest ok er unc pt id db))
  | rs_rec_begin db rid op intent resource id1 id2 :
  rstep db (oworld (recorder_begin rid op intent resource id1 id2 db))
  | rs_rec_complete db op ok unc er pt pr id :
  rstep db (oworld (recorder_complete op ok unc er pt pr id db))
  | rs_claim db m t n op p w now : rstep db (oworld (claim_start m t n op p w now db))
  | rs_terminate db m p w st : rstep db (oworld (terminate_fence m p w st db))
  | rs_advance db m p w : rstep db (oworld (advance_epoch m p w db))
  | rs_handover db m h r p w t n : rstep db (oworld (handover_incarnation m h r p w t n db))
  | rs_redeem db k1 k2 keys op pm pl sink sg now :
  rstep db (oworld (redeem_consequence k1 k2 keys op pm pl sink sg now db)).

(** Two steps of the relation of ConsequenceProofs simulate each step. *)
Lemma rstep_simulated db db' : rstep db db' -> steps cstep db db'.
Proof.
  assert (Hone : forall a b, cstep a b -> steps cstep a b).
  { intros a b Hs. eapply steps_snoc; [apply steps_refl|done]. }
  intros Hs. destruct Hs.
  - destruct (request_mount_cases reg rq dr db) as [[r ->]|[[e ->]|(pk & t & b & db' & -> & _ & _ & _ & _ & _ & _ & HC)]];
    [apply steps_refl..|]. apply commit_mount_Some in HC as (Hn & _ & _ & ->). simpl.
  eapply steps_snoc; [apply Hone, ce_new_mount, Hn|]. apply ce_evaluated.
  - destruct (evaluate_cases reg m action resource t n p w ap su tg db)
    as [[r ->]|[->|(row & used & ls & a & Hm & -> & _)]]; [apply steps_refl..|]. simpl.
  eapply steps_snoc; [apply Hone, ce_nonce, Hm|]. apply (ce_evaluated (set_mount db m _)).
  - apply Hone. by eapply ce_authorize.
  - apply Hone. by apply ce_begin.
  - apply Hone. by apply ce_report.
  - apply Hone. apply ce_rec_begin.
  - apply Hone. apply ce_rec_complete.
  - apply Hone. apply ce_claim.
  - apply Hone. apply ce_terminate.
  - apply Hone. apply ce_advance.
  - apply Hone. apply ce_handover.
  - apply Hone. apply ce_redeem.
Qed.

Lemma rsteps_simulated db db' : steps rstep db db' -> steps cstep db db'.
Proof. intros Hs. induction Hs; [apply steps_refl|]. eapply steps_trans; [done|by apply rstep_simulated]. Qed.

(** ** Tokens and receipts *)

(** A row and the token in its JSON columns name the same token and mount. *)
Definition tokens_agree (m : string) (row : mount_row) : Prop :=
  let t := mc_token (mr_record row) in
  tk_token_id t = mr_token_id row /\ tk_nonce t = mr_nonce row /\ tk_mount_id t = m.

Record rinv (db : cdb) : Prop := {
  ri_tokens : map_Forall tokens_agree (d_mounts db);
  ri_ids : forall id r, d_receipts db !! id = Some r -> rc_id r = id;
  ri_once : forall i j r s, d_receipts db !! i = Some r -> d_receipts db !! j = Some s ->
  rc_decision r = "allow" -> rc_decision s = "allow" -> rc_token r = rc_token s -> i = j }.

(** An operation that keeps the receipts and replaces at most one row. *)
Definition row_op (db db' : cdb) : Prop :=
  d_receipts db' = d_receipts db
  /\ (d_mounts db' = d_mounts db
    \/ exists m row row', d_mounts db !! m = Some row /\ d_mounts db' = <[m := row']> (d_mounts db)
        /\ (tokens_agree m row -> tokens_agree m row')).

Lemma row_op_rinv db db' : row_op db db' -> rinv db -> rinv db'.
Proof.
  intros [Hr Hm] [I1 I2 I3]. split; [|by rewrite Hr..].
  destruct Hm as [->|(m & row & row' & Hm & -> & Ha)]; [done|]. apply map_Forall_insert_2; [|done].
  by apply Ha, I1.
Qed.

Lemma row_op_refl db : row_op db db.
Proof. split; [done|by left]. Qed.

Lemma row_op_insert db e db' : insert_event db e = Some db' -> row_op db db'.
Proof. unfold insert_event. case_match; [done|]. intros [= <-]. split; [done|by left]. Qed.

Lemma row_op_trans_insert db e db1 db2 : row_op db db1 -> insert_event db1 e = Some db2 -> row_op db db2.
Proof. unfold insert_event. case_match; [done|]. intros [R1 R2] [= <-]. by split. Qed.

Lemma row_op_default db e : row_op db (default db (insert_event db e)).
Proof. destruct (insert_event db e) eqn:E; [by eapply row_op_insert|apply row_op_refl]. Qed.

(** A row replaced in place, with the lease adjusted. *)
Lemma row_op_set db db' m row row' :
  d_mounts db !! m = Some row -> d_mounts db' = <[m := row']> (d_mounts db) -> d_receipts db' = d_receipts db ->
  (tokens_agree m row -> tokens_agree m row') -> row_op db db'.
Proof. intros R1 R2 R3 R4. split; [done|]. right. by exists m, row, row'. Qed.

#[local] Hint Resolve row_op_refl row_op_insert row_op_default : core.

Lemma rstep_rows db db' :
  rstep db db' -> row_op db db'
  \/ (exists reg rq dr, db' = oworld (request_mount reg rq dr db))
  \/ (exists reg m action resource t n p w ap su tg,
      db' = oworld (evaluate reg m action resource t n p w ap su tg db)).
Proof.
  intros Hs. destruct Hs.
  1: right; left; by eexists _, _, _.
  1: right; right; by eexists _, _, _, _, _, _, _, _, _, _, _.
  all: left.
  - eauto.
  - unfold begin_consequence. repeat case_match; simpl; eauto.
  - unfold report_commit. repeat case_match; simpl; eauto.
  - unfold recorder_begin. repeat case_match; simpl; eauto. by eapply row_op_trans_insert; [eapply row_op_insert|].
  - unfold recorder_complete. repeat case_match; simpl; eauto.
  - destruct (claim_shape m t n op p w now db) as [->|(row & Hm & _ & ->)]; [done|]. by eapply row_op_set.
  - unfold terminate_fence. destruct (d_mounts db !! m) as [row|] eqn:Em; [|done].
  repeat case_match; simpl; try done.
  all: match goal with E : revoke_lease ?d ?x = _ |- _ =>
         destruct (revoke_lease_ok d x) as (db2 & E2 & (S1 & _ & _ & S2 & _) & _);
         rewrite E in E2; try done; injection E2 as -> end.
  by eapply (row_op_set _ _ _ _ _ Em S1 S2).
  - unfold advance_epoch. destruct (d_mounts db !! m) as [row|] eqn:Em; [|done]. repeat case_match; simpl; try done.
  match goal with |- row_op _ (align_lease ?d ?a ?b) => destruct (align_lease_same d a b) as (S1 & _ & _ & S2 & _) end.
  by eapply (row_op_set _ _ _ _ _ Em S1 S2).
  - unfold handover_incarnation. destruct (d_mounts db !! m) as [row|] eqn:Em; [|done].
  repeat case_match; simpl; try done.
  match goal with |- row_op _ (align_lease ?d ?a ?b) => destruct (align_lease_same d a b) as (S1 & _ & _ & S2 & _) end.
  eapply (row_op_set _ _ _ _ _ Em S1 S2). by intros (_ & _ & ?).
  - destruct (redeem_shape k1 k2 keys op pm pl sink sg now db) as [->|(x & _ & ->)]; [done|]. split; [done|by left].
Qed.

Lemma rstep_rinv db db' : rinv db -> rstep db db' -> rinv db'.
Proof.
  intros Hi Hs. destruct (rstep_rows _ _ Hs)
  as [Ho|[(reg & rq & dr & ->)|(reg & m & action & resource & t & n & p & w & ap & su & tg & ->)]];
  [by eapply row_op_rinv|..]; destruct Hi as [I1 I2 I3].
  - destruct (request_mount_cases reg rq dr db)
    as [[r ->]|[[e ->]|(pk & t & b & db' & -> & _ & _ & HM & _ & _ & _ & HC)]]; [done..|].
  apply commit_mount_Some in HC as (Hn & _ & _ & ->). simpl. split; simpl; [|done..].
  by apply map_Forall_insert_2.
  - destruct (evaluate_cases reg m action resource t n p w ap su tg db)
    as [[r ->]|[->|(row & used & ls & a & Hm & -> & Hfresh & Hp & _)]]; [done..|]. simpl.
  set (r := the_receipt _ _ _ _ _ _ _ _) in *. pose proof (I1 _ _ Hm) as Hag.
  assert (Hrt : rc_token r = t). { destruct Hag as (Ht & _). destruct Hp. subst. done. }
  destruct Hp as [_ _ _ _ _ _ Hfirst]. split; simpl.
  + apply map_Forall_insert_2; [|done]. done.
  + intros id x [[<- <-]|[Hne Hx]]%lookup_insert_Some; [done|by apply I2].
  + intros i j x y [[<- <-]|[Hi Hx]]%lookup_insert_Some [[<- <-]|[Hj Hy]]%lookup_insert_Some Dx Dy Ht; try done.
    * exfalso. eapply (Hfirst _ _ Hy); [congruence|done].
    * exfalso. eapply (Hfirst _ _ Hx); [congruence|done].
    * by eapply I3.
Qed.

Lemma rsteps_rinv db db' : rinv db -> steps rstep db db' -> rinv db'.
Proof. intros Hi. apply steps_invariant; [|done]. intros a b Ha Hs. by eapply rstep_rinv. Qed.
End service.
