(* ===== verification/RegistryProperties.v ===== *)
(** * Properties of mounting and evaluating through the registry *)

From Stdlib Require Import ZArith Lia Ascii String.
From stdpp Require Import base gmap strings list pretty sorting.
From S2P Require Import Prelude Canon PyJson MountModels Lease Biscuit BiscuitProperties Consequence Mounts Permits ConsequenceProofs Engine EngineProperties Registry RegistryProofs.

Local Open Scope Z_scope.

Section decisions.
Context `{Ext, Mac, Biscuit}.

(** An evaluation decides soundly and refuses without trace.  ALLOW is
    answered only to the owner of a live, unexpired mount who presents its
    current token and nonce for the first time; only if the lease, the signed
    biscuit and the registered package each grant the action, and lease and
    biscuit the resource; only within the token's profile; and only with
    verified, unspent evidence wherever the mount requires human approval or
    a suppression check.  It then spends the nonce and the evidence, records
    one receipt naming mount, action, resource and token, and touches no
    consequence event.  DENY and every exception leave the tables unchanged. *)
Theorem evaluate_decides reg m action resource token_id nonce principal workspace ap su tg db :
  match evaluate reg m action resource token_id nonce principal workspace ap su tg db with
  | Ret (ALLOW, _, rid) db' =>
    exists row r, d_mounts db !! m = Some row
    /\ presented reg db m row token_id nonce principal workspace
    /\ (forall l, latest_lease db m = Some l -> exists b, granted reg l (mr_record row) action resource b)
    /\ (let t := mc_token (mr_record row) in
        profile_allows (tk_grants t) action = true /\ profile_covers_resource (tk_grants t) resource = true
        /\ (tk_mount_id t ∉ d_revoked db)
        /\ (action ∈ gr_external_send (tk_grants t) -> mp_human_approval (tk_policy t) = true ->
            spent reg db db' (mr_record row) ap "human_approval" principal action nonce)
        /\ (action ∈ gr_suppression_required (tk_grants t) -> mp_suppression_check (tk_policy t) = true ->
            spent reg db db' (mr_record row) su "suppression_check" principal action nonce))
    /\ d_mounts db' = <[m := with_nonce_consumed row]> (d_mounts db)
    /\ rid = Some (rc_id r) /\ d_receipts db !! rc_id r = None
    /\ d_receipts db' = <[rc_id r := r]> (d_receipts db)
    /\ rc_mount r = m /\ rc_principal r = principal /\ rc_action r = action /\ rc_resource r = resource
    /\ rc_token r = tk_token_id (mc_token (mr_record row)) /\ rc_decision r = "allow"
    /\ d_events db' = d_events db
  | Ret (DENY, _, rid) db' => rid = None /\ db' = db
  | Raise _ db' => db' = db
  | Crash _ => False
  end.
Proof.
  destruct (evaluate_cases reg m action resource token_id nonce principal workspace ap su tg db)
  as [[r ->]|[->|(row & used & ls & a & Hm & -> & Hf & Hp & Hl & Hg & _)]]; [done..|].
  apply gate_allow in Hg as (_ & Hrev & Hal & Hco & Ha & Hs).
  exists row, (the_receipt reg row m principal action resource tg a).
  split_and!; try done. cbv zeta. split_and!; try done.
  - intros H1' H2'. destruct (Ha H1' H2') as (jti & V & C & U). exists jti. split_and!; [done..|].
  by apply (consume_used _ _ _ _ _ U).
  - intros H1' H2'. destruct (Hs H1' H2') as (jti & V & C & U). exists jti. split_and!; [done..|].
  by apply (consume_used _ _ _ _ _ U).
Qed.

(** C23: a token is good for one action.  In every state the service can reach
    from empty tables a token has at most one ALLOW receipt; and once it has
    one, no evaluation with that token is ever allowed again in any tables
    that still hold the receipt, whatever was done to the mount row, its nonce
    flag included. *)
Theorem token_single_use db0 db db2 i r :
  d_mounts db0 = ∅ -> d_receipts db0 = ∅ -> steps rstep db0 db ->
  d_receipts db !! i = Some r -> rc_decision r = "allow" ->
  (forall j s, d_receipts db !! j = Some s -> rc_decision s = "allow" -> rc_token s = rc_token r -> j = i)
  /\ (d_receipts db ⊆ d_receipts db2 ->
    forall reg m action resource n p w ap su tg reason rid db3,
      evaluate reg m action resource (rc_token r) n p w ap su tg db2 <> Ret (ALLOW, reason, rid) db3).
Proof.
  intros Hm0 Hr0 Hs Hr Hd.
  assert (Hi : rinv db).
  { eapply rsteps_rinv; [|done]. split; [by rewrite Hm0|..]; rewrite Hr0; intros; by simplify_map_eq. }
  split.
  - intros j s Hj Hs' Ht. by eapply (ri_once _ Hi).
  - intros Hsub reg m action resource n p w ap su tg reason rid db3 He.
  destruct (evaluate_cases reg m action resource (rc_token r) n p w ap su tg db2)
    as [[x E]|[E|(row & used & ls & a & Hm & E & _ & Hp & _)]]; rewrite E in He; [done..|].
  eapply (pr_first _ _ _ _ _ _ _ _ Hp); [eapply lookup_weaken; [exact Hr|exact Hsub]|done|done].
Qed.

(** The registry implements the abstract service.  Every run of the
    concrete operations, with [request_mount] and [evaluate] as the code has
    them, is a run of the step relation that the consequence theorems (the
    event stream, the fence, termination, start claims, redemption,
    handover) quantify over; so those hold of the registry itself.  On the
    way, every mount row keeps naming the token in its JSON columns. *)
Theorem registry_refines db0 db db' :
  d_mounts db0 = ∅ -> d_receipts db0 = ∅ -> steps rstep db0 db -> steps rstep db db' ->
  steps cstep db db' /\ (forall m row, d_mounts db' !! m = Some row -> tokens_agree m row).
Proof.
  intros Hm0 Hr0 H1' H2'. split; [by apply rsteps_simulated|]. intros m row Hm.
  assert (Hi : rinv db').
  { eapply rsteps_rinv; [|exact H2']. eapply rsteps_rinv; [|exact H1'].
  split; [by rewrite Hm0|..]; rewrite Hr0; intros; by simplify_map_eq. }
  by apply (ri_tokens _ Hi).
Qed.
End decisions.

(** ** From a mount to an allowed action *)

Lemma issubset_refl s : resource_issubset s s = true.
Proof.
  unfold resource_issubset. case_bool_decide; [done|]. apply forallb_forall. intros x Hx.
  apply existsb_exists. exists x. by rewrite str_eqb_refl.
Qed.

Lemma resource_in_elem r (s : gset string) : r ∈ s -> resource_in (Some r) s = true.
Proof.
  intros Hr. apply resource_in_spec. destruct (decide ("*" ∈ s)); [by left|]. right. split; [done|].
  exists r, r. unfold bound_covers. by rewrite str_eqb_refl.
Qed.

Section usable.
Context `{Ext, Mac, BiscuitLaws}.

(** The grants of a mounted token. *)
Lemma mount_grants package scope policy ttl ex a b c d t0 t :
  mount package scope policy ttl ex a b c d t0 = Ok t ->
  let g := tk_grants t in
  (forall x, x ∈ gr_reads g -> x ∈ pk_reads package) /\ (forall x, x ∈ gr_writes g -> x ∈ pk_writes package)
  /\ (forall x, x ∈ gr_external_send g -> x ∈ gr_writes g)
  /\ (forall x, x ∈ gr_resources g -> valid_resource x = true).
Proof.
  unfold mount. intros HM. res_inv HM. destruct (bind_operation_ok _ _ _ _ _ E2) as (Hsub & Hres & Hop).
  injection HM as <-. simpl. split_and!; intros x; rewrite ?sorted_set_elem.
  - rewrite elem_of_intersection, to_set_elem. tauto.
  - intros Hx%Hsub. revert Hx. rewrite elem_of_intersection, to_set_elem. tauto.
  - rewrite elem_of_intersection. tauto.
  - destruct (sc_operation scope) as [op|].
  + destruct Hop as (_ & -> & _ & Hv & _). by intros ->%elem_of_singleton.
  + rewrite Hop. simpl. rewrite to_set_elem. destruct (sc_resources scope) as [[|r l]|]; simpl; [done| |].
    * apply raise_if_Ok, negb_false_iff in E1. rewrite forallb_forall in E1.
      intros Hx%list_elem_of_In. by apply E1.
    * by intros ?%not_elem_of_nil.
Qed.

(** The authority its biscuit carries. *)
Definition grant_auth (t : Token) (caller executor : string) (minted_at : Z) : AuthorityContext :=
  let g := tk_grants t in
  mk_auth (list_to_set (gr_reads g ++ gr_writes g))
  (match gr_resources g with [] => {["*"]} | rs => list_to_set rs end)
  executor caller (Some (whole_second (minted_at + tk_ttl t * 1000000))) 0 1 0.

(** The texts interpolated into the biscuit cannot close a literal. *)
Definition mint_texts_safe (package : CapabilityPackage) (t : Token) (caller executor : string) : Prop :=
  mint_safe caller executor (pk_id package) (tk_execution_id t) ("execution:" +:+ tk_execution_id t)
  (gr_reads (tk_grants t)) (gr_writes (tk_grants t)).

Lemma mint_for_extract package t caller executor now biscuit :
  mint_for package t caller executor now = Ok biscuit -> mint_texts_safe package t caller executor ->
  biscuit <> "" /\ extract_authority_context biscuit = Some (grant_auth t caller executor now).
Proof.
  intros HM Hs. unfold mint_for in HM.
  assert (HM' : mint_biscuit_capability caller (Some executor) (pk_id package) (gr_reads (tk_grants t))
  (gr_writes (tk_grants t)) (tk_execution_id t) (tk_ttl t) (Some (gr_resources (tk_grants t)))
  ("execution:" +:+ tk_execution_id t) 0 (gr_envelope_digest (tk_grants t)) now = Ok biscuit).
  { rewrite <- HM. by destruct (gr_resources _). }
  split; [by eapply mint_nonempty|]. edestruct mint_extract as [E _]; [exact Hs|exact HM'|]. rewrite E. unfold grant_auth. by destruct (gr_resources _).
Qed.

Lemma whole_second_mono a b : a <= b -> whole_second a <= whole_second b.
Proof. unfold whole_second. intros Hab. pose proof (Z.div_mod a 1000000). pose proof (Z.div_mod b 1000000).
  pose proof (Z.div_le_mono a b 1000000). lia. Qed.

Lemma whole_second_idem a : whole_second (whole_second a) = whole_second a.
Proof.
  unfold whole_second. assert ((a - a mod 1000000) mod 1000000 = 0) as ->; [|lia].
  by rewrite Zminus_mod, Zmod_mod, Z.sub_diag.
Qed.

(** The lease of a new mount and its biscuit yield what the token grants. *)
Lemma new_lease_authority reg package t caller executor minted_at :
  (forall x, x ∈ gr_external_send (tk_grants t) -> x ∈ gr_writes (tk_grants t)) ->
  tk_expires_at t <= minted_at + tk_ttl t * 1000000 ->
  rg_packages reg !! tk_package_ref t = Some package ->
  let b := grant_auth t caller executor minted_at in
  exists eff, evaluate_authority (new_lease t caller executor) (Some b) (package_ceiling reg (tk_package_ref t) b)
              ONLINE (rg_clock reg 1) = Ok eff.
Proof.
  intros Hsend Hexp Hpk b. unfold evaluate_authority, package_ceiling. rewrite Hpk. simpl.
  rewrite bool_decide_eq_true_2.
  2: { intros x. rewrite !elem_of_list_to_set, !elem_of_app. naive_solver. }
  simpl. rewrite issubset_refl, !str_eqb_refl. simpl.
  rewrite (proj2 (Z.ltb_ge _ _)).
  2: { rewrite whole_second_idem. by apply whole_second_mono. }
  simpl. eexists. done.
Qed.

Lemma new_lease_refusal reg package t caller executor minted_at rec biscuit action resource :
  mc_token rec = t -> mc_biscuit rec = Some biscuit -> biscuit <> "" ->
  extract_authority_context biscuit = Some (grant_auth t caller executor minted_at) ->
  (let g := tk_grants t in
  (forall x, x ∈ gr_reads g -> x ∈ pk_reads package) /\ (forall x, x ∈ gr_writes g -> x ∈ pk_writes package)
  /\ (forall x, x ∈ gr_external_send g -> x ∈ gr_writes g)
  /\ (forall x, x ∈ gr_resources g -> valid_resource x = true)) ->
  tk_expires_at t <= minted_at + tk_ttl t * 1000000 ->
  rg_packages reg !! tk_package_ref t = Some package ->
  profile_allows (tk_grants t) action = true -> profile_covers_resource (tk_grants t) resource = true ->
  lease_refusal reg (new_lease t caller executor) rec action resource = None.
Proof.
  intros <- Hb Hne Hx (G1 & G2 & G3 & G4) Hexp Hpk Hal Hco. set (t := mc_token rec) in *.
  unfold lease_refusal. rewrite Hb, (proj2 (str_eqb_neq _ _) Hne), Hx.
  destruct (new_lease_authority reg package t caller executor minted_at G3 Hexp Hpk) as [eff He].
  fold t. rewrite He. apply authority_effective in He as (_ & Hac & Hre).
  assert (Hstar : gr_resources (tk_grants t) <> [] -> "*" ∉ (list_to_set (gr_resources (tk_grants t)) : gset string)).
  { intros _ Hs. apply elem_of_list_to_set, G4 in Hs. by vm_compute in Hs. }
  rewrite bool_decide_eq_true_2.
  2: { rewrite Hac. unfold package_ceiling. rewrite Hpk. simpl. unfold profile_allows, mem in Hal.
     case_bool_decide; [done|]. rewrite orb_true_iff, !bool_decide_eq_true in Hal.
     rewrite !elem_of_intersection, !elem_of_list_to_set, !elem_of_app. naive_solver. }
  rewrite Hre. unfold package_ceiling. rewrite Hpk. simpl (ac_resources _).
  replace (resource_in resource {["*"]}) with true by (unfold resource_in; by rewrite bool_decide_eq_true_2 by set_solver).
  simpl. unfold profile_covers_resource in Hco. destruct (gr_resources (tk_grants t)) as [|r rs] eqn:Er.
  - rewrite (bool_decide_eq_true_2 ([] = [])) by done. simpl.
  unfold resource_in. by rewrite bool_decide_eq_true_2 by set_solver.
  - rewrite (bool_decide_eq_false_2 ("*" ∈ _)) by (apply Hstar; done). rewrite andb_false_r.
  destruct resource as [x|]; [|done]. apply bool_decide_eq_true in Hco.
  by rewrite !resource_in_elem by set_solver.
Qed.

(** What a first use of a new mount needs: a granted action on a covered
    resource that requires no further evidence, an open clock, an answering
    anchor, and ids nobody has used. *)
Record first_use (reg : registry) (db : cdb) (row : mount_row) (action : string) (resource : option string) : Prop := {
  fu_profile : profile_allows (tk_grants (mc_token (mr_record row))) action = true;
  fu_resource : profile_covers_resource (tk_grants (mc_token (mr_record row))) resource = true;
  fu_approval : action ∈ gr_external_send (tk_grants (mc_token (mr_record row))) ->
              mp_human_approval (tk_policy (mc_token (mr_record row))) = false;
  fu_suppression : action ∈ gr_suppression_required (tk_grants (mc_token (mr_record row))) ->
                 mp_suppression_check (tk_policy (mc_token (mr_record row))) = false;
  fu_clock : forall n, rg_clock reg n < tk_expires_at (mc_token (mr_record row));
  fu_anchor : anchored (rg_anchor reg "action_decision" ALLOW "allowed") = true;
  fu_online : rg_offline reg = false;
  fu_mount : tk_mount_id (mc_token (mr_record row)) ∉ d_revoked db;
  fu_lease : forall l, l ∈ d_leases db -> le_mount_id l <> tk_mount_id (mc_token (mr_record row));
  fu_token : prior_receipt db (mr_token_id row) = false;
  fu_receipt : d_receipts db !! ("rcpt_" +:+ py_or (an_id (rg_anchor reg "action_decision" ALLOW "allowed"))
                                             (rg_stamp reg)) = None }.

Lemma gate_open reg db db1 row principal action resource nonce ap su :
  first_use reg db row action resource -> d_revoked db1 = d_revoked db -> mr_terminated row = false ->
  gate reg db1 row principal action resource nonce ap su = (ALLOW, "allowed", []).
Proof.
  intros [F1 F2 F3 F4 F5 F6 F7 F8 F9 F10 F11] Hrv Ht. unfold gate. rewrite Ht, Hrv, bool_decide_eq_false_2 by done. simpl.
  rewrite (proj2 (Z.ltb_ge _ _)) by (specialize (F5 2%nat); lia). rewrite F1, F2. simpl.
  assert (E1 : mem action (gr_external_send (tk_grants (mc_token (mr_record row))))
              && mp_human_approval (tk_policy (mc_token (mr_record row))) = false).
  { unfold mem. case_bool_decide as Hi; [|done]. by rewrite F3. }
  assert (E2 : mem action (gr_suppression_required (tk_grants (mc_token (mr_record row))))
              && mp_suppression_check (tk_policy (mc_token (mr_record row))) = false).
  { unfold mem. case_bool_decide as Hi; [|done]. by rewrite F4. }
  by rewrite E1, E2.
Qed.

Lemma latest_lease_new db m row l :
  le_mount_id l = m -> (forall x, x ∈ d_leases db -> le_mount_id x <> m) ->
  latest_lease (set_leases (set_mount db m row) (d_leases db ++ [l])) m = Some l.
Proof.
  intros Hl Hn. unfold latest_lease. simpl. rewrite filter_app.
  replace (filter _ (d_leases db)) with (@nil lease).
  - rewrite filter_cons_True by done. done.
  - symmetry. induction (d_leases db) as [|x ls IH]; [done|].
  rewrite filter_cons_False by (apply Hn; left). apply IH. intros y Hy. apply Hn. by right.
Qed.

(** A mount is usable.  When [request_mount] answers "mounted", an
    evaluation of any action and resource the token grants, by the owner with
    the token's id and nonce, is allowed: the lease, the signed biscuit and
    the package that the mount created agree with the grants.  Hypotheses: the
    biscuit package behaves as documented, the interpolated texts cannot close
    a literal, packages are registered under their id, the clock does not go
    back between mount and mint, and the conditions of a first use hold. *)
Theorem mounted_is_usable reg reg' rq dr db db' m row cred action resource principal workspace ap su tg :
  request_mount reg rq dr db = Ret (Some (m, row, cred), "mounted") db' ->
  (forall k pk, rg_packages reg !! k = Some pk -> pk_id pk = k) -> rg_packages reg' = rg_packages reg ->
  (forall pk, rg_packages reg !! rq_package_ref rq = Some pk ->
   mint_texts_safe pk (mc_token (mr_record row)) (py_or (rq_caller_spiffe rq) (rq_owner_principal rq))
     (py_or (rq_executor_spiffe rq) (rq_owner_principal rq))) ->
  dr_issued_at dr <= dr_minted_at dr -> owned_by m row principal workspace = true ->
  first_use reg' db row action resource ->
  exists rid db'', evaluate reg' m action resource (mr_token_id row) (mr_nonce row) principal workspace ap su tg db'
  = Ret (ALLOW, "allowed", Some rid) db''.
Proof.
  intros HR Hkey Hpks Hsafe Hclk Hown Hfu.
  destruct (request_mount_cases reg rq dr db)
  as [[r E]|[[e E]|(package & t & biscuit & db1 & E & _ & Hpk & HM & _ & _ & HB & HC)]];
  rewrite E in HR; [done..|]. simplify_eq. set (row := new_row rq t biscuit) in *.
  apply commit_mount_Some in HC as (Hnew & Hconf & Hid & ->).
  pose proof (mount_ids _ _ _ _ _ _ _ _ _ _ _ HM) as (I1 & I2 & I3 & I4 & I5 & I6 & I7).
  pose proof (mount_grants _ _ _ _ _ _ _ _ _ _ _ HM) as HG.
  destruct (mint_for_extract _ _ _ _ _ _ HB (Hsafe _ Hpk)) as [Hne Hext].
  pose proof Hfu as [F1 F2 F3 F4 F5 F6 F7 F8 F9 F10 F11].
  unfold evaluate. simpl (d_mounts _). rewrite lookup_insert_eq, Hown. cbn [negb].
  set (db1 := set_leases _ _).
  assert (Ht : token_reason reg' db1 row (mr_token_id row) (mr_nonce row) = None).
  { unfold token_reason. simpl. rewrite (proj2 (Z.leb_gt _ _)) by apply (F5 0%nat). rewrite !str_eqb_refl. simpl.
  change (prior_receipt db1) with (prior_receipt db). change (tk_token_id t) with (mr_token_id row). rewrite F10. done. }
  rewrite Ht. cbv zeta.
  set (l := new_lease t (py_or (rq_caller_spiffe rq) (rq_owner_principal rq))
            (py_or (rq_executor_spiffe rq) (rq_owner_principal rq))) in db1.
  assert (HL : latest_lease db1 (tk_mount_id t) = Some l) by exact (latest_lease_new db _ row l eq_refl F9).
  assert (HR : lease_refusal reg' l (mr_record row) action resource = None).
  { apply (new_lease_refusal reg' package t _ _ (dr_minted_at dr) _ biscuit); try done; [lia|].
  rewrite Hpks, I4. by rewrite (Hkey _ _ Hpk). }
  rewrite HL. change (budget_reason (Some l)) with (@None string). cbv iota. rewrite HR.
  rewrite (gate_open reg' db db1 row) by done. 
  assert (HX : lease_expired reg' (Some l) = false) by (apply Z.ltb_ge; specialize (F5 3%nat); simpl in *; lia).
  rewrite HX.
  unfold offline_limits. rewrite F7, F6. cbn [negb]. unfold commit_allow.
  cbn [the_receipt rc_id]. change (d_receipts db1) with (d_receipts db). rewrite F11. simpl. by eexists _, _.
Qed.
End usable.
