(* ===== verification/Execute.v ===== *)
(** * Executing a consequence (capability_mount/service.py, effects.py)

    [MountRegistry.execute_consequence]: the preflight checks, the replay
    check, the run of the mount's binding with the registered target adapter
    as its callback, and the termination of the mount.  The world is the
    tables and the number of dispatches.  Left out of the returned payload
    are the fields that echo the request, [nonce_consumed] and the anchoring
    of the receipt. *)

From Stdlib Require Import ZArith Lia Ascii String.
From stdpp Require Import base gmap strings list pretty.
From S2P Require Import Prelude Canon PyJson MountModels Lease Biscuit Consequence Mounts Permits Engine Registry.

Record ConsequenceContext := mk_context {
  cx_action : string; cx_resource : string; cx_arguments : list (string * json); cx_operation_id : string;
  cx_workspace : string; cx_project : string; cx_permit_for : option (string -> res cerr string) }.

(** A registered target; [ad_dispatch] acts on the tables because whatever
    else happens to them while the target works happens then. *)
Record TargetAdapter := mk_adapter {
  ad_actions : list string; ad_project_isolated : bool; ad_dispatch : ConsequenceContext -> eff cerr cdb json }.

Record exec_request := mk_exec_request {
  xr_mount_id : string; xr_action : string; xr_token_id : string; xr_nonce : string;
  xr_principal : string; xr_workspace : option string; xr_approval_token : option string;
  xr_suppression_evidence : option string; xr_suppression_confirmed : bool; xr_target_ref : string;
  xr_resource : string; xr_arguments : list (string * json); xr_operation_id : option string;
  xr_spiffe_fields : option (list (string * json));
  xr_substrate_id : option string; xr_boot_instance_id : option string;
  xr_runtime_key_thumbprint : option string; xr_state_root : option string; xr_authority_epoch : option Z }.

(** The uuids drawn, the clock at the preflight and in the binding. *)
Record exec_draws := mk_exec_draws {
  xd_uuid : string; xd_now : Z; xd_live : Z; xd_authorized : string; xd_started : string; xd_reported : string;
  xd_ev_id : nat -> string; xd_ev_ts : nat -> string }.

Record exec_result := mk_exec_result {
  xs_decision : Decision; xs_reason : string; xs_state : option ConsequenceState; xs_invoked : bool;
  xs_result : option json; xs_receipt : option string; xs_terminated : bool }.

Record xworld := mk_xworld { xw_db : cdb; xw_calls : nat }.

Definition SANDBOX_PROJECT : string := "sandbox".

Section execute.
Context `{Ext, Mac, Biscuit} (reg : registry).
(** [TargetAdapterRegistry._targets], the permit key of the settings, and
    Python's [str] of a dict. *)
Context (targets : gmap string TargetAdapter) (key : option string) (dict_str : list (string * json) -> string).

(** [_envelope_refusal]. *)
Definition envelope_refusal (rec : mrecord) (target_ref action resource : string) (arguments : list (string * json))
  : option string :=
  let bound := gr_envelope_digest (tk_grants (mc_token rec)) in
  let biscuit := py_or (mc_biscuit rec) "" in
  if bool_decide (is_Some bound) && str_eqb biscuit "" then Some "operation_envelope_unverifiable"
  else match (if str_eqb biscuit "" then Some ∅ else extract_allowed_envelopes biscuit) with
     | None => Some "operation_envelope_unverifiable"
     | Some signed =>
       match bound with
       | None => if bool_decide (signed = ∅) then None else Some "operation_envelope_unverifiable"
       | Some digest =>
         if negb (str_eqb biscuit "") && negb (bool_decide (digest ∈ signed)) then
           Some "operation_envelope_unverifiable"
         else if str_eqb (operation_envelope_digest (tk_package_ref (mc_token rec)) target_ref action resource
                            arguments) digest then None
         else Some "operation_envelope_mismatch"
       end
     end.

(** The epoch a caller must present. *)
Definition effective_epoch (db : cdb) (mount_id : string) (row : mount_row) : Z :=
  let lease_epoch := match latest_lease db mount_id with Some l => le_authority_epoch l | None => 0%Z end in
  let row_epoch := if mr_terminated row then 1%Z else epoch_or_1 (mr_epoch row) in
  Z.max lease_epoch (if (1 <? row_epoch)%Z then row_epoch else 0).

Definition epoch_refused (rq : exec_request) (epoch : Z) : bool :=
  match xr_authority_epoch rq with
  | Some e => (e <? epoch)%Z
  | None => (1 <? epoch)%Z
  end.

(** The substrate and state root a mount is bound to. *)
Definition substrate_refusal (rec : mrecord) (rq : exec_request) : option string :=
  if bool_decide (is_Some (mc_substrate_id rec)) && negb (opt_eqb (xr_substrate_id rq) (mc_substrate_id rec)) then
  Some "substrate_id_mismatch"
  else if bool_decide (is_Some (mc_substrate_id rec))
        && negb (opt_eqb (xr_boot_instance_id rq) (mc_boot_instance_id rec)) then Some "boot_instance_id_mismatch"
  else if bool_decide (is_Some (mc_substrate_id rec))
        && negb (opt_eqb (xr_runtime_key_thumbprint rq) (mc_runtime_key_thumbprint rec)) then
  Some "runtime_key_thumbprint_mismatch"
  else if bool_decide (is_Some (mc_state_root rec)) && negb (opt_eqb (xr_state_root rq) (mc_state_root rec)) then
  Some "state_root_mismatch"
  else None.

(** What the package demands of the request. *)
Definition package_refusal (row : mount_row) (rq : exec_request) : option string :=
  match rg_packages reg !! tk_package_ref (mc_token (mr_record row)) with
  | None => None
  | Some pk =>
  if pk_requires_start_claim pk
     && (bool_decide (xr_operation_id rq = None) || negb (opt_eqb (mr_start_claim row) (xr_operation_id rq))) then
    Some "start_not_claimed"
  else if negb (str_eqb (py_or (pk_target_ref pk) "") "")
          && negb (opt_eqb (Some (xr_target_ref rq)) (pk_target_ref pk)) then
    Some "target_not_bound_to_package"
  else None
  end.

(** The target: the adapter, or a refusal. *)
Definition target_or_refusal (rec : mrecord) (rq : exec_request) : string + TargetAdapter :=
  match targets !! xr_target_ref rq with
  | None => inl "unknown_effect_target"
  | Some adapter =>
  if negb (mem (xr_action rq) (ad_actions adapter)) then inl "effect_not_mapped"
  else if str_eqb (tk_project (mc_token rec)) SANDBOX_PROJECT && negb (ad_project_isolated adapter) then
    inl "target_has_no_sandbox"
  else if negb (valid_resource (xr_resource rq)) then inl "invalid_effect_resource"
  else inr adapter
  end.

(** The preflight of a request, in the code's order. *)
Definition preflight (db : cdb) (row : mount_row) (rq : exec_request) (now : Z) : string + TargetAdapter :=
  let rec := mr_record row in
  match substrate_refusal rec rq with
  | Some reason => inl reason
  | None =>
  if epoch_refused rq (effective_epoch db (xr_mount_id rq) row) then inl "stale_authority_epoch"
  else if negb (mr_terminated row) && (now <? mr_expires_at row)%Z
          && (negb (str_eqb (xr_token_id rq) (mr_token_id row)) || negb (str_eqb (xr_nonce rq) (mr_nonce row))) then
    inl "token_mismatch"
  else match package_refusal row rq with
       | Some reason => inl reason
       | None =>
         match envelope_refusal rec (xr_target_ref rq) (xr_action rq) (xr_resource rq) (xr_arguments rq) with
         | Some reason => inl reason
         | None => target_or_refusal rec rq
         end
       end
  end.

(** [passthrough]. *)
Definition passthrough (rq : exec_request) : kwargs :=
  [("resource", Some (xr_resource rq)); ("arguments", Some (dict_str (xr_arguments rq)));
  ("target_ref", Some (xr_target_ref rq)); ("approval_token", xr_approval_token rq);
  ("suppression_evidence", xr_suppression_evidence rq);
  ("suppression_confirmed", Some (if xr_suppression_confirmed rq then "True" else "False"));
  ("spiffe_fields", dict_str <$> xr_spiffe_fields rq)].

(** The intent hash the replay check expects. *)
Definition expected_intent (t : Token) (rq : exec_request) : string :=
  build_intent_hash (tk_mount_id t) (tk_execution_id t) (xr_action rq) (Some (xr_resource rq))
  [("resource", JStr (xr_resource rq)); ("arguments", JStr (dict_str (xr_arguments rq)));
   ("target_ref", JStr (xr_target_ref rq));
   ("spiffe_fields", JStr (default "None" (dict_str <$> xr_spiffe_fields rq)))].

(** An operation id that was used before: the answer. *)
Definition replayed (db : cdb) (t : Token) (rq : exec_request) : option exec_result :=
  match xr_operation_id rq with
  | None => None
  | Some op =>
  match latest_event db op with
  | None => None
  | Some latest =>
    let reason := if negb (str_eqb (ce_intent latest) (expected_intent t rq)) then "idempotency_intent_mismatch"
                  else "idempotency_replay:" +:+ cs_value (ce_state latest) in
    Some (mk_exec_result DENY reason (Some (ce_state latest)) false None (ce_receipt latest) false)
  end
  end.

(** [_with_permit]: the permit names the receipt of the operation's newest
    event at dispatch. *)
Definition with_permit (cx : ConsequenceContext) (mount_id target_ref : string) (db : cdb) : ConsequenceContext :=
  match key with
  | None => cx
  | Some k =>
  if str_eqb (cx_operation_id cx) "" then cx
  else
    let receipt_id := match latest_event db (cx_operation_id cx) with Some e => ce_receipt e | None => None end in
    mk_context (cx_action cx) (cx_resource cx) (cx_arguments cx) (cx_operation_id cx) (cx_workspace cx)
      (cx_project cx)
      (Some (fun payload => mint_permit k (cx_operation_id cx) mount_id receipt_id (sha256_hex payload) target_ref))
  end.

(** [invoke_effect]. *)
Definition invoke_effect (adapter : TargetAdapter) (cx : ConsequenceContext) (mount_id target_ref : string)
  : eff cerr cdb json := fun db => ad_dispatch adapter (with_permit cx mount_id target_ref db) db.

(** The evaluator of the mount's binding for these arguments. *)
Definition evaluator_of (row : mount_row) (rq : exec_request) (kw : kwargs)
  : eff cerr cdb (Decision * string * option string * mount_row) :=
  evaluate_for reg row (tk_mount_id (mc_token (mr_record row))) (xr_action rq) (kw_str "resource" kw)
  (kw_str "approval_token" kw) (kw_str "suppression_evidence" kw) (kw_get "target_ref" kw).

Definition keeps_mount (reason : string) (in_flight : list string) : bool :=
  String.prefix "idempotency_replay:" reason || str_eqb reason "consequence_already_started"
  || (str_eqb reason "nonce_replayed" && negb (bool_decide (in_flight = []))).

(** The end of a request: what the operation's newest event says, and the
    termination of the mount ([settle_seconds=0], so nothing is awaited). *)
Definition finish (rq : exec_request) (op_id : string) (before : nat) (dec : Decision) (reason : string)
  (result : option json) : eff cerr xworld exec_result := fun w =>
  let db := xw_db w in
  let latest := latest_event db op_id in
  let answer terminated :=
  mk_exec_result dec reason (ce_state <$> latest) (before <? xw_calls w)%nat result
    (match latest with Some e => ce_receipt e | None => None end) terminated in
  if keeps_mount reason (in_flight_operations db (xr_mount_id rq)) then Ret (answer false) w
  else match terminate_fence (xr_mount_id rq) (xr_principal rq) (xr_workspace rq)
             (an_status (rg_anchor reg "terminate" ALLOW "task_complete")) db with
     | Ret (termination, _, _) db' =>
       Ret (answer (match termination with ALLOW => true | DENY => false end)) (mk_xworld db' (xw_calls w))
     | Raise e db' => Raise e (mk_xworld db' (xw_calls w))
     | Crash db' => Crash (mk_xworld db' (xw_calls w))
     end.

(** The run of the binding, and what its exceptions mean. *)
Definition run_binding (rq : exec_request) (xd : exec_draws) (row : mount_row) (adapter : TargetAdapter)
  (op_id : string) : eff cerr xworld exec_result := fun w =>
  let t := mc_token (mr_record row) in
  let cx := mk_context (xr_action rq) (xr_resource rq) (xr_arguments rq) op_id (mr_workspace row) (tk_project t) None in
  let kw := passthrough rq in
  let popped := kw_pop "suppression_confirmed" (kw_pop "approval_token" kw) in
  let out bw := mk_xworld (bw_db bw) (bw_calls bw) in
  match consequence t (xd_ev_id xd) (xd_ev_ts xd) (xr_action rq)
        (invoke_effect adapter cx (tk_mount_id t) (xr_target_ref rq)) op_id kw (xd_live xd)
        (Some (evaluator_of row rq popped)) (xd_authorized xd) (xd_started xd) (xd_reported xd)
        (mk_bworld (xw_db w) (mr_terminated row) None [] (xw_calls w)) with
  | Crash bw => Crash (out bw)
  | Ret result bw => finish rq op_id (xw_calls w) ALLOW "allowed" (Some result) (out bw)
  | Raise e bw =>
  if is_policy_error e then finish rq op_id (xw_calls w) DENY (err_str e) None (out bw)
  else match e, latest_event (bw_db bw) op_id with
       | ValueErrorM msg, Some latest =>
         if bool_decide (ce_state latest = C_FAILED) then
           finish rq op_id (xw_calls w) DENY ("target_rejected:" +:+ msg) None (out bw)
         else Raise e (out bw)
       | _, _ => Raise e (out bw)
       end
  end.

Definition execute_consequence (rq : exec_request) (xd : exec_draws) : eff cerr xworld exec_result := fun w =>
  let db := xw_db w in
  let op_id := py_or (xr_operation_id rq) (xd_uuid xd) in
  let preflight_deny reason := Ret (mk_exec_result DENY reason None false None None false) w in
  match d_mounts db !! xr_mount_id rq with
  | None => preflight_deny "unknown_mount"
  | Some row =>
  if negb (owned_by (xr_mount_id rq) row (xr_principal rq) (xr_workspace rq)) then preflight_deny "owner_mismatch"
  else match preflight db row rq (xd_now xd) with
       | inl reason => preflight_deny reason
       | inr adapter =>
         match replayed db (mc_token (mr_record row)) rq with
         | Some answer => Ret answer w
         | None => run_binding rq xd row adapter op_id w
         end
       end
  end.
End execute.
