(* ===== verification/ExecuteProofs.v ===== *)
(** * What executing a consequence does

    Case analysis of [execute_consequence]: the facts a dispatch depends on,
    and what is recorded after it. *)

From Stdlib Require Import ZArith Lia Ascii String.
From stdpp Require Import base gmap strings list pretty.
From S2P Require Import Prelude Canon PyJson MountModels Lease Biscuit Consequence Mounts Permits ConsequenceProofs MountProperties Engine EngineProperties Registry RegistryProofs Execute.

Local Open Scope Z_scope.

Section proofs.
Context `{Ext, Mac, Biscuit} (reg : registry) (targets : gmap string TargetAdapter) (key : option string).
Context (dict_str : list (string * json) -> string).
Abbreviation execute_consequence := (execute_consequence reg targets key dict_str).
Abbreviation run_binding := (run_binding reg key dict_str).
Abbreviation preflight := (preflight reg targets).
Abbreviation invoke_effect := (invoke_effect key).

(** ** The evaluator *)

Lemma popped_intent t rq :
  intent_hash_of t (xr_action rq) (kw_pop "suppression_confirmed" (kw_pop "approval_token" (passthrough dict_str rq)))
  = expected_intent dict_str t rq.
Proof. reflexivity. Qed.

Lemma evaluator_events row rq kw db : d_events (oworld (evaluator_of reg row rq kw db)) = d_events db.
Proof.
  unfold evaluator_of, evaluate_for.
  match goal with |- context [evaluate ?a ?b ?c ?d ?e ?f ?g ?h ?i ?j ?k db] =>
  destruct (evaluate_cases a b c d e f g h i j k db)
    as [[reason ->]|[->|(r & used & ls & an & _ & -> & _)]] end; reflexivity.
Qed.

(** An ALLOW of the evaluator on the row it was built for. *)
Lemma evaluator_allows m row rq kw db reason rid row1 dbe :
  d_mounts db !! m = Some row -> tokens_agree m row ->
  evaluator_of reg row rq kw db = Ret (ALLOW, reason, rid, row1) dbe ->
  (exists r, d_receipts dbe !! rc_id r = Some r /\ rc_decision r = "allow" /\ rc_action r = xr_action rq
   /\ rc_resource r = kw_str "resource" kw /\ rc_target_ref r = kw_get "target_ref" kw /\ rc_token r = mr_token_id row)
  /\ presented reg db m row (mr_token_id row) (mr_nonce row) (mr_principal row) (Some (mr_workspace row))
  /\ (forall l, latest_lease db m = Some l ->
      exists b, granted reg l (mr_record row) (xr_action rq) (kw_str "resource" kw) b)
  /\ d_mounts dbe !! m = Some (with_nonce_consumed row).
Proof.
  intros Hm (Ht & Hn & Hid). unfold evaluator_of, evaluate_for. rewrite Ht, Hn, Hid.
  match goal with |- context [evaluate ?a ?b ?c ?d ?e ?f ?g ?h ?i ?j ?k db] =>
  destruct (evaluate_cases a b c d e f g h i j k db)
    as [[rs ->]|[->|(r & used & ls & an & Hr & -> & _ & Hp & Hg & _ & _)]] end; [done..|].
  assert (r = row) as -> by congruence. intros [= <- <- <- <-]. split_and!; [|done|done|].
  - exists (the_receipt reg row m (mr_principal row) (xr_action rq) (kw_str "resource" kw) (kw_get "target_ref" kw) an).
  unfold allowed_db. cbn [d_receipts]. rewrite lookup_insert_eq. by split_and!.
  - unfold allowed_db. cbn [d_mounts]. by rewrite lookup_insert_eq.
Qed.

(** ** The facts of a dispatch *)

Record dispatched (rq : exec_request) (xd : exec_draws) (op_id : string) (db : cdb) (row : mount_row)
  (adapter : TargetAdapter) (db1 : cdb) : Prop := {
  di_row : d_mounts db !! xr_mount_id rq = Some row;
  di_owned : owned_by (xr_mount_id rq) row (xr_principal rq) (xr_workspace rq) = true;
  di_live : mr_terminated row = false /\ (xr_mount_id rq ∉ d_revoked db) /\ rg_clock reg 0 < mr_expires_at row;
  di_token : xd_now xd < mr_expires_at row -> xr_token_id rq = mr_token_id row /\ xr_nonce rq = mr_nonce row;
  di_epoch : forall e, xr_authority_epoch rq = Some e -> effective_epoch db (xr_mount_id rq) row <= e;
  di_target : targets !! xr_target_ref rq = Some adapter /\ xr_action rq ∈ ad_actions adapter
  /\ valid_resource (xr_resource rq) = true;
  di_sandbox : tk_project (mc_token (mr_record row)) = SANDBOX_PROJECT -> ad_project_isolated adapter = true;
  di_package : forall pk, rg_packages reg !! tk_package_ref (mc_token (mr_record row)) = Some pk ->
  (pk_requires_start_claim pk = true -> xr_operation_id rq <> None /\ mr_start_claim row = xr_operation_id rq)
  /\ (forall t, pk_target_ref pk = Some t -> t <> "" -> xr_target_ref rq = t);
  di_envelope : forall d, gr_envelope_digest (tk_grants (mc_token (mr_record row))) = Some d ->
  operation_envelope_digest (tk_package_ref (mc_token (mr_record row))) (xr_target_ref rq) (xr_action rq)
    (xr_resource rq) (xr_arguments rq) = d
  /\ exists tok signed, mc_biscuit (mr_record row) = Some tok /\ extract_allowed_envelopes tok = Some signed
       /\ d ∈ signed;
  di_profile : profile_allows (tk_grants (mc_token (mr_record row))) (xr_action rq) = true
  /\ profile_covers_resource (tk_grants (mc_token (mr_record row))) (Some (xr_resource rq)) = true
  /\ gated (mc_token (mr_record row)) (xr_action rq) = false;
  di_lease : forall l, latest_lease db (xr_mount_id rq) = Some l ->
  exists b, granted reg l (mr_record row) (xr_action rq) (Some (xr_resource rq)) b;
  di_fresh : latest_event db op_id = None;
  di_receipt : exists r, d_receipts db1 !! rc_id r = Some r /\ rc_decision r = "allow"
  /\ rc_action r = xr_action rq /\ rc_resource r = Some (xr_resource rq)
  /\ rc_target_ref r = Some (xr_target_ref rq) /\ rc_token r = mr_token_id row;
  di_consumed : d_mounts db1 !! xr_mount_id rq = Some (with_nonce_consumed row);
  di_started : recorded db1 op_id C_STARTED (Some "optimistic_claim") }.

(** ** The preflight *)

Lemma envelope_passes rec tr action resource args d :
  envelope_refusal rec tr action resource args = None -> gr_envelope_digest (tk_grants (mc_token rec)) = Some d ->
  operation_envelope_digest (tk_package_ref (mc_token rec)) tr action resource args = d
  /\ exists tok signed, mc_biscuit rec = Some tok /\ extract_allowed_envelopes tok = Some signed /\ d ∈ signed.
Proof.
  unfold envelope_refusal. intros HE Hd. rewrite Hd in HE. rewrite (bool_decide_eq_true_2 (is_Some _)) in HE by by eexists.
  destruct (str_eqb (py_or (mc_biscuit rec) "") "") eqn:Eb; simpl in HE; [done|].
  destruct (extract_allowed_envelopes _) as [signed|] eqn:Es; [|done].
  destruct (bool_decide (d ∈ signed)) eqn:Ed; simpl in HE; [|done]. apply bool_decide_eq_true in Ed.
  destruct (str_eqb _ d) eqn:Ex in HE; [|done]. apply str_eqb_spec in Ex. split; [done|].
  destruct (mc_biscuit rec) as [tok|]; simpl in *; [|done].
  destruct (str_eqb tok "") eqn:Et; [done|]. by exists tok, signed.
Qed.

Lemma package_passes row rq pk :
  package_refusal reg row rq = None -> rg_packages reg !! tk_package_ref (mc_token (mr_record row)) = Some pk ->
  (pk_requires_start_claim pk = true -> xr_operation_id rq <> None /\ mr_start_claim row = xr_operation_id rq)
  /\ (forall t, pk_target_ref pk = Some t -> t <> "" -> xr_target_ref rq = t).
Proof.
  unfold package_refusal. intros HP Hpk. rewrite Hpk in HP. split.
  - intros Hc. rewrite Hc in HP. simpl in HP. case_bool_decide as Ho; [done|]. simpl in HP.
  destruct (opt_eqb _ _) eqn:E; [|done]. by apply bool_decide_eq_true in E.
  - intros t Ht Hne. rewrite Ht in HP. simpl in HP. destruct (_ && _) in HP; [done|].
  destruct (_ && _) eqn:E in HP; [done|]. apply andb_false_iff in E as [E|E].
  + simpl in *. destruct (str_eqb t "") eqn:Et; [by apply str_eqb_spec in Et|]. by rewrite Et in E.
  + apply negb_false_iff, bool_decide_eq_true in E. by injection E.
Qed.

Lemma preflight_passes db row rq now adapter :
  preflight db row rq now = inr adapter ->
  (mr_terminated row = false -> now < mr_expires_at row -> xr_token_id rq = mr_token_id row /\ xr_nonce rq = mr_nonce row)
  /\ (forall e, xr_authority_epoch rq = Some e -> effective_epoch db (xr_mount_id rq) row <= e)
  /\ package_refusal reg row rq = None
  /\ envelope_refusal (mr_record row) (xr_target_ref rq) (xr_action rq) (xr_resource rq) (xr_arguments rq) = None
  /\ target_or_refusal targets (mr_record row) rq = inr adapter.
Proof.
  unfold Execute.preflight. destruct (substrate_refusal _ _); [done|].
  destruct (epoch_refused rq _) eqn:Ee; [done|].
  destruct (_ && (_ || _)) eqn:Et; [done|].
  destruct (package_refusal reg row rq); [done|]. destruct (envelope_refusal _ _ _ _ _) eqn:En; [done|].
  intros Ht. split_and!; try done.
  - intros Hl Hn. rewrite Hl, (proj2 (Z.ltb_lt _ _) Hn) in Et. simpl in Et.
  apply orb_false_iff in Et as [E1%negb_false_iff E2%negb_false_iff]. by apply str_eqb_spec in E1, E2.
  - intros e He. unfold epoch_refused in Ee. rewrite He in Ee. by apply Z.ltb_ge in Ee.
Qed.

Lemma target_passes rec rq adapter :
  target_or_refusal targets rec rq = inr adapter ->
  (targets !! xr_target_ref rq = Some adapter /\ xr_action rq ∈ ad_actions adapter /\ valid_resource (xr_resource rq) = true)
  /\ (tk_project (mc_token rec) = SANDBOX_PROJECT -> ad_project_isolated adapter = true).
Proof.
  unfold target_or_refusal. destruct (targets !! _) as [a|]; [|done].
  destruct (mem _ _) eqn:Em; simpl; [|done]. apply bool_decide_eq_true in Em.
  destruct (str_eqb _ SANDBOX_PROJECT) eqn:Es, (ad_project_isolated a) eqn:Ei; simpl; try done;
  destruct (valid_resource _) eqn:Ev; simpl; try done; intros [= <-]; split_and!; try done.
  intros Hp. by rewrite Hp, str_eqb_refl in Es.
Qed.

(** ** The run *)

(** An ALLOW of the fence leaves the mount terminated. *)
Lemma fence_allows m p w st db reason b db' :
  terminate_fence m p w st db = Ret (ALLOW, reason, b) db' ->
  exists row, d_mounts db' !! m = Some row /\ mr_terminated row = true.
Proof.
  unfold terminate_fence. destruct (d_mounts db !! m) as [row|] eqn:Em; [|done].
  destruct (owned_by _ _ _ _); simpl; [|done].
  destruct (mr_terminated row) eqn:Et; [intros [= _ _ <-]; by exists row|]. destruct (bool_decide _); simpl; [|done].
  set (db1 := mark_mount_revoked _ _).
  destruct (revoke_lease_ok db1 m) as (db2 & -> & (Hm & _) & _). intros [= _ _ <-].
  rewrite Hm. simpl. rewrite lookup_insert_eq. by eexists.
Qed.

(** [finish] returns its decision, with what the newest event says; it
    writes no event. *)
Lemma finish_returns rq op before dec reason result w :
  exists x db', finish reg rq op before dec reason result w = Ret x (mk_xworld db' (xw_calls w))
  /\ xs_decision x = dec /\ xs_reason x = reason /\ xs_result x = result
  /\ xs_state x = ce_state <$> latest_event (xw_db w) op /\ xs_invoked x = (before <? xw_calls w)%nat
  /\ d_events db' = d_events (xw_db w)
  /\ (xs_terminated x = true -> exists row, d_mounts db' !! xr_mount_id rq = Some row /\ mr_terminated row = true).
Proof.
  unfold finish. destruct (keeps_mount _ _).
  { eexists _, (xw_db w). split; [by destruct w|]. by split_and!. }
  pose proof (terminate_shape (xr_mount_id rq) (xr_principal rq) (xr_workspace rq)
              (an_status (rg_anchor reg "terminate" ALLOW "task_complete")) (xw_db w)) as Hs.
  pose proof (fence_allows (xr_mount_id rq) (xr_principal rq) (xr_workspace rq)
              (an_status (rg_anchor reg "terminate" ALLOW "task_complete")) (xw_db w)) as Hf.
  destruct (terminate_fence _ _ _ _ _) as [[[d r] b] db'|e db'|db'] eqn:Et; [|done..].
  eexists _, db'. split; [done|]. split_and!; try done.
  - destruct Hs as [->|(row & _ & _ & _ & He & _)]; [done|exact He].
  - destruct d; [|done]. intros _. by eapply Hf.
Qed.

(** What a request reports and records, by what its dispatch did. *)
Definition settled (o : outcome cerr xworld exec_result) (op : string) (d : outcome cerr cdb json) : Prop :=
  let answers dec st := exists x w', o = Ret x w' /\ xs_decision x = dec /\ xs_invoked x = true
                                /\ xs_state x = Some st in
  match d with
  | Ret r _ => answers ALLOW C_SUCCEEDED
  | Raise (CappoUncertainError m) _ =>
    exists w', o = Raise (CappoUncertainError m) w' /\ recorded (xw_db w') op C_OUTCOME_UNKNOWN (Some "outcome_uncertain")
  | Raise e _ => answers DENY C_FAILED
    \/ (is_policy_error e = false
        /\ exists w', o = Raise e w' /\ recorded (xw_db w') op C_FAILED (Some "callback_exception"))
  | Crash _ => exists w', o = Crash w' /\ recorded (xw_db w') op C_STARTED (Some "optimistic_claim")
  end.

Definition context_of (rq : exec_request) (row : mount_row) (op_id : string) : ConsequenceContext :=
  mk_context (xr_action rq) (xr_resource rq) (xr_arguments rq) op_id (mr_workspace row)
  (tk_project (mc_token (mr_record row))) None.

(** The fact about [consequence] of EngineProperties, for a mount's row. *)
Definition binding_run (rq : exec_request) (xd : exec_draws) (row : mount_row) (adapter : TargetAdapter) (op : string)
  (w : xworld) : outcome cerr bworld json :=
  let t := mc_token (mr_record row) in
  let kw := passthrough dict_str rq in
  consequence t (xd_ev_id xd) (xd_ev_ts xd) (xr_action rq)
  (invoke_effect adapter (context_of rq row op) (tk_mount_id t) (xr_target_ref rq)) op kw (xd_live xd)
  (Some (evaluator_of reg row rq (kw_pop "suppression_confirmed" (kw_pop "approval_token" kw))))
  (xd_authorized xd) (xd_started xd) (xd_reported xd)
  (mk_bworld (xw_db w) (mr_terminated row) None [] (xw_calls w)).

(** A run of the binding without a call. *)
Lemma run_uncalled rq xd row adapter op w :
  let b := binding_run rq xd row adapter op w in
  bw_calls (oworld b) = xw_calls w -> (forall r w', b <> Ret r w') ->
  let o := run_binding rq xd row adapter op w in
  xw_calls (oworld o) = xw_calls w /\ forall x w', o = Ret x w' -> xs_decision x = DENY /\ xs_invoked x = false.
Proof.
  intros b Hc Hn o. unfold o, Execute.run_binding. fold b. change (consequence _ _ _ _ _ _ _ _ _ _ _ _ _) with b.
  assert (Hf : forall reason w', xw_calls w' = xw_calls w ->
  let o := finish reg rq op (xw_calls w) DENY reason None w' in
  xw_calls (oworld o) = xw_calls w /\ forall x w'', o = Ret x w'' -> xs_decision x = DENY /\ xs_invoked x = false).
  { intros reason w' Hw. destruct (finish_returns rq op (xw_calls w) DENY reason None w')
    as (x & db' & -> & Hd & _ & _ & _ & Hi & _). split; [done|]. intros y w'' [= <- _]. rewrite Hi, Hw, Nat.ltb_irrefl. done. }
  destruct b as [r bw|e bw|bw]; [by destruct (Hn r bw)| |done].
  destruct (is_policy_error e); [by apply Hf|].
  destruct e; try done. destruct (latest_event _ op); [|done]. destruct (bool_decide _); [by apply Hf|done].
Qed.

(** What follows the binding calls nothing and only terminates the mount. *)
Lemma finish_steps rq op before dec reason result w :
  let o := finish reg rq op before dec reason result w in
  xw_calls (oworld o) = xw_calls w /\ steps cstep (xw_db w) (xw_db (oworld o)).
Proof.
  unfold finish. destruct (keeps_mount _ _); [split; [done|apply steps_refl]|].
  match goal with |- context [terminate_fence ?m ?p ?ws ?st ?db] =>
    pose proof (ce_terminate db m p ws st) as Hs; destruct (terminate_fence m p ws st db) as [[[d r] b] db'|e db'|db'] end;
  (split; [done|]; eapply steps_snoc; [apply steps_refl|exact Hs]).
Qed.

Lemma run_steps rq xd row adapter op w :
  let b := binding_run rq xd row adapter op w in
  let o := run_binding rq xd row adapter op w in
  xw_calls (oworld o) = bw_calls (oworld b) /\ steps cstep (bw_db (oworld b)) (xw_db (oworld o)).
Proof.
  intros b o. subst o. unfold Execute.run_binding. change (consequence _ _ _ _ _ _ _ _ _ _ _ _ _) with b.
  assert (Hf : forall dec reason result bw,
    let o := finish reg rq op (xw_calls w) dec reason result (mk_xworld (bw_db bw) (bw_calls bw)) in
    xw_calls (oworld o) = bw_calls bw /\ steps cstep (bw_db bw) (xw_db (oworld o)))
    by (intros; apply finish_steps).
  destruct b as [r bw|e bw|bw]; [apply Hf| |split; [done|apply steps_refl]].
  destruct (is_policy_error e); [apply Hf|].
  assert (Hr : xw_calls (mk_xworld (bw_db bw) (bw_calls bw)) = bw_calls bw /\ steps cstep (bw_db bw) (bw_db bw))
    by (split; [done|apply steps_refl]).
  destruct e; try exact Hr. destruct (latest_event _ op); [|exact Hr]. by destruct (bool_decide _).
Qed.

(** An operation keeps its intent while the tables change. *)
Lemma of_intent_steps db db2 op intent :
  of_intent db op intent -> steps cstep db db2 -> of_intent db2 op intent.
Proof.
  intros [Hi (e & El & He)] Hs. pose proof (steps_cinv _ _ Hi Hs) as Hi2. split; [done|].
  destruct (steps_mounts _ _ Hi Hs) as (_ & _ & [es Hes]).
  assert (Hev : events_of db2 op = events_of db op ++ filter (fun e => ce_op e = op) es).
  { unfold events_of. by rewrite Hes, filter_app. }
  assert (Hin : e ∈ events_of db2 op).
  { rewrite Hev, elem_of_app. left. rewrite latest_event_last in El by done. by apply last_is_elem. }
  destruct (latest_event db2 op) as [e2|] eqn:E2.
  - exists e2. split; [done|]. rewrite latest_event_last in E2 by done. apply last_is_elem in E2.
  destruct (stream_same _ _ _ (Hi2 op) E2 Hin) as (_ & Ho & _). congruence.
  - unfold latest_event in E2. destruct (events_of db2 op); [|done]. by apply not_elem_of_nil in Hin.
Qed.

(** A run of the binding with a call: every way out of it. *)
Lemma finish_called rq op before dec reason result w st pt :
  xw_calls w = S before -> recorded (xw_db w) op st pt ->
  exists x w', finish reg rq op before dec reason result w = Ret x w' /\ xs_decision x = dec
    /\ xs_invoked x = true /\ xs_state x = Some st.
Proof.
  intros Hc (e & El & Est & _). destruct (finish_returns rq op before dec reason result w)
  as (x & db' & -> & Hd & _ & _ & Hs & Hv & He & _).
  eexists _, _. split_and!; [done|done| |by rewrite Hs, El, <- Est].
  rewrite Hv, Hc. apply Nat.ltb_lt. lia.
Qed.

Lemma run_called rq xd row adapter op w (d : outcome cerr cdb json) :
  let b := binding_run rq xd row adapter op w in
  bw_calls (oworld b) = S (xw_calls w) ->
  match d with
  | Ret r _ => exists w', b = Ret r w' /\ recorded (bw_db w') op C_SUCCEEDED (Some "callback_return")
  | Raise (CappoUncertainError m) _ => exists w', b = Raise (CappoUncertainError m) w'
    /\ recorded (bw_db w') op C_OUTCOME_UNKNOWN (Some "outcome_uncertain")
  | Raise e _ => exists w', b = Raise e w' /\ recorded (bw_db w') op C_FAILED (Some "callback_exception")
  | Crash _ => exists w', b = Crash w' /\ recorded (bw_db w') op C_STARTED (Some "optimistic_claim")
  end ->
  settled (run_binding rq xd row adapter op w) op d.
Proof.
  intros b Hc Hd. unfold Execute.run_binding. change (consequence _ _ _ _ _ _ _ _ _ _ _ _ _) with b.
  destruct d as [r db|e db|db].
  - destruct Hd as (w' & Hb & Hr). rewrite Hb in *. simpl in Hc. by eapply finish_called.
  - assert (Hu : forall m, e = CappoUncertainError m -> settled (run_binding rq xd row adapter op w) op (Raise e db)).
  { intros m ->. destruct Hd as (w' & Hb & Hr). unfold Execute.run_binding.
    change (consequence _ _ _ _ _ _ _ _ _ _ _ _ _) with b. rewrite Hb. simpl. by eexists. }
  unfold Execute.run_binding in Hu. change (consequence _ _ _ _ _ _ _ _ _ _ _ _ _) with b in Hu.
  destruct e; try (by eapply Hu); clear Hu; destruct Hd as (w' & Hb & Hr); rewrite Hb in *; simpl in Hc |- *;
    try (right; split; [done|]; by eexists); try (left; by eapply finish_called).
  destruct Hr as (ev & El & Est & Hp). rewrite El, Est. simpl. left. eapply finish_called; [done|by exists ev].
  - destruct Hd as (w' & Hb & Hr). rewrite Hb in *. by eexists.
Qed.

Lemma owned_same m r r' p ws :
  mr_principal r' = mr_principal r /\ mr_workspace r' = mr_workspace r -> owned_by m r' p ws = owned_by m r p ws.
Proof. intros [Hp Hw]. unfold owned_by, workspace_matches. by rewrite Hp, Hw. Qed.

(** Every run of [execute_consequence]. *)
Lemma execute_cases rq xd w :
  cinv (xw_db w) -> map_Forall tokens_agree (d_mounts (xw_db w)) ->
  let op := py_or (xr_operation_id rq) (xd_uuid xd) in
  let o := execute_consequence rq xd w in
  (xw_calls (oworld o) = xw_calls w /\ forall x w', o = Ret x w' -> xs_decision x = DENY /\ xs_invoked x = false)
  \/ exists row adapter db1,
   let d := ad_dispatch adapter (with_permit key (context_of rq row op) (xr_mount_id rq) (xr_target_ref rq) db1) db1 in
   xw_calls (oworld o) = S (xw_calls w) /\ dispatched rq xd op (xw_db w) row adapter db1
   /\ of_intent db1 op (expected_intent dict_str (mc_token (mr_record row)) rq)
   /\ steps cstep (oworld d) (xw_db (oworld o))
   /\ (leaves_alone op (xd_reported xd) db1 d ->
       ~ In (xd_reported xd) (xd_authorized xd :: xd_started xd :: map ce_id (d_events (xw_db w))) -> settled o op d).
Proof.
  intros Hi Hag op o. unfold o, Execute.execute_consequence. fold op. clear o.
  assert (Hdeny : forall reason, (xw_calls (oworld (Ret (E:=cerr) (mk_exec_result DENY reason None false None None false) w))
    = xw_calls w /\ forall x w', Ret (E:=cerr) (mk_exec_result DENY reason None false None None false) w = Ret x w' ->
    xs_decision x = DENY /\ xs_invoked x = false)).
  { intros reason. split; [done|]. by intros x w' [= <- _]. }
  destruct (d_mounts (xw_db w) !! xr_mount_id rq) as [row|] eqn:Em; [|left; by apply Hdeny].
  destruct (owned_by _ _ _ _) eqn:Eo; cbn [negb]; [|left; by apply Hdeny].
  destruct (preflight (xw_db w) row rq (xd_now xd)) as [reason|adapter] eqn:Ep; [left; by apply Hdeny|].
  destruct (replayed _ _ _ _) as [x|] eqn:Er.
  { left. split; [done|]. intros y w' [= <- _]. unfold replayed in Er. destruct (xr_operation_id rq); [|done].
  destruct (latest_event _ _); [|done]. by injection Er as <-. }
  destruct (preflight_passes _ _ _ _ _ Ep) as (P1 & P2 & P3 & P4 & P5). destruct (target_passes _ _ _ P5) as [T1 T2].
  pose proof (Hag _ _ Em) as (A1 & A2 & A3).
  set (kw := kw_pop "suppression_confirmed" (kw_pop "approval_token" (passthrough dict_str rq))).
  destruct (consequence_cases (mc_token (mr_record row)) (xd_ev_id xd) (xd_ev_ts xd) (xr_action rq)
  (invoke_effect adapter (context_of rq row op) (tk_mount_id (mc_token (mr_record row))) (xr_target_ref rq)) op
  (passthrough dict_str rq) (xd_live xd) (evaluator_of reg row rq kw)
  (xd_authorized xd) (xd_started xd) (xd_reported xd)
  (mk_bworld (xw_db w) (mr_terminated row) None [] (xw_calls w)))
  as [[C1 C2]|(db1 & C1 & C2 & C3 & C4 & C5 & C6 & C7 & C8 & (reason & rid & row1 & dbe & es & C9 & ->) & C10 & C11 & C12
        & C13 & C14)];
  [done|apply evaluator_events|left; by apply run_uncalled|]. right. cbn [bw_terminated bw_db] in *.
  destruct (evaluator_allows _ _ _ _ _ _ _ _ _ Em (Hag _ _ Em) C9) as (E1 & E2 & E3 & E4).
  exists row, adapter, (set_events dbe es).
  destruct (run_steps rq xd row adapter op w) as [R1 R2].
  unfold Execute.invoke_effect in C13, C14. rewrite A3 in C3, C11.
  split_and!; [by rewrite R1| |exact C12|eapply steps_trans; [|exact R2]; rewrite <- A3; exact C13|].
  - split; try done.
  + split_and!; [done|done|apply E2].
  + intros Hn. by apply P1.
  + intros pk. by apply package_passes.
  + intros d. by apply envelope_passes.
  - intros Hl Hid. destruct C14 as [_ C14]; [by rewrite A3|done|].
  pose proof (run_called rq xd row adapter op w _ C1 C14) as R3. by rewrite A3 in R3.
Qed.

(** After a dispatch: the request's operation has its intent, and the mount
    its owner and ids. *)
Lemma execute_steps rq xd w :
  cinv (xw_db w) -> map_Forall tokens_agree (d_mounts (xw_db w)) ->
  (forall ref a cx db, targets !! ref = Some a -> steps cstep db (oworld (ad_dispatch a cx db))) ->
  let o := execute_consequence rq xd w in
  xw_calls (oworld o) <> xw_calls w ->
  exists row, owned_by (xr_mount_id rq) row (xr_principal rq) (xr_workspace rq) = true
  /\ of_intent (xw_db (oworld o)) (py_or (xr_operation_id rq) (xd_uuid xd))
       (expected_intent dict_str (mc_token (mr_record row)) rq)
  /\ exists row1, d_mounts (xw_db (oworld o)) !! xr_mount_id rq = Some row1
     /\ (tk_mount_id (mc_token (mr_record row1)) = tk_mount_id (mc_token (mr_record row))
         /\ tk_execution_id (mc_token (mr_record row1)) = tk_execution_id (mc_token (mr_record row)))
     /\ mr_principal row1 = mr_principal row /\ mr_workspace row1 = mr_workspace row.
Proof.
  intros Hi Hag Hq o Hc.
  destruct (execute_cases rq xd w Hi Hag) as [[Hn _]|(row & adapter & db1 & _ & Hd & Hin & Hfin & _)]; [done|].
  exists row. pose proof (fun cx db => Hq _ _ cx db (proj1 (di_target _ _ _ _ _ _ _ Hd))) as Hs.
  pose proof (steps_trans _ _ _ _ (Hs _ _) Hfin) as Hall. split; [apply Hd|]. split; [by eapply of_intent_steps|].
  destruct (steps_mounts _ _ (proj1 Hin) Hall) as (Hle & _ & _).
  destruct (Hle _ _ (di_consumed _ _ _ _ _ _ _ Hd)) as (row1 & Hr1 & [_ _ _ Hw Hid]). by exists row1.
Qed.
End proofs.
