(* ===== verification/ExecuteProperties.v ===== *)
(** * Properties of executing a consequence *)

From Stdlib Require Import ZArith Lia Ascii String.
From stdpp Require Import base gmap strings list pretty.
From S2P Require Import Prelude Canon PyJson MountModels Lease Biscuit Consequence Mounts Permits ConsequenceProofs MountProperties Engine EngineProperties Registry RegistryProofs Execute ExecuteProofs.

Local Open Scope Z_scope.

Section properties.
Context `{Ext, Mac, Biscuit} (reg : registry) (targets : gmap string TargetAdapter) (key : option string).
Context (dict_str : list (string * json) -> string).
Abbreviation execute_consequence := (execute_consequence reg targets key dict_str).

(** C3: no effect without authority, and none unaccounted.  On a well-formed
    event table whose rows carry their own tokens, a call of
    [execute_consequence] dispatches to a target at most once.  It either
    dispatches nothing and, if it returns, answers DENY with
    target_invoked false; or everything [dispatched] lists held: the owner on
    a live mount, with the mount's own token and nonce if the mount had not
    expired at the preflight's own reading of the clock, the epoch, the start
    claim and target the package demands, the signed operation envelope, an
    isolated target for a sandbox project, the profile granting the action on
    the resource, the lease and biscuit granting it too if the mount has a
    lease row (without one the code asks for neither), an operation id never
    used, and before the dispatch a committed ALLOW receipt, a consumed nonce
    and a STARTED event.  If nobody else (the reconcile endpoint, say) writes
    to this operation while the target works, and the id of the report's row
    is not taken, what is then answered and recorded agrees with what the
    target did ([settled]). *)
Theorem execute_guarded rq xd w :
  cinv (xw_db w) -> map_Forall tokens_agree (d_mounts (xw_db w)) ->
  let op := py_or (xr_operation_id rq) (xd_uuid xd) in
  let o := execute_consequence rq xd w in
  (xw_calls (oworld o) = xw_calls w /\ forall x w', o = Ret x w' -> xs_decision x = DENY /\ xs_invoked x = false)
  \/ exists row adapter db1,
   let d := ad_dispatch adapter (with_permit key (context_of rq row op) (xr_mount_id rq) (xr_target_ref rq) db1) db1 in
   xw_calls (oworld o) = S (xw_calls w) /\ dispatched reg targets rq xd op (xw_db w) row adapter db1
   /\ (leaves_alone op (xd_reported xd) db1 d ->
       ~ In (xd_reported xd) (xd_authorized xd :: xd_started xd :: map ce_id (d_events (xw_db w))) -> settled o op d).
Proof.
  intros Hi Hag op o.
  destruct (execute_cases reg targets key dict_str rq xd w Hi Hag)
  as [Hn|(row & adapter & db1 & Hc & Hd & _ & _ & Hs)]; [by left|right]. by exists row, adapter, db1.
Qed.

(** ** Retries *)

(** C25: retries are safe.  Once a request with a caller-chosen operation id
    has been dispatched, no request with that id is ever dispatched again,
    whatever the service does during and after the dispatch: it changes
    nothing and answers DENY.  The same request sent again is answered, on
    every branch, either with the reason the preflight now refuses it for
    (a terminated mount's epoch has moved on, say) or with the operation's
    recorded state and receipt, never as a different intent. *)
Theorem retry_never_dispatches rq xd w db2 op :
  cinv (xw_db w) -> map_Forall tokens_agree (d_mounts (xw_db w)) ->
  xr_operation_id rq = Some op -> op <> "" ->
  (forall ref a cx db, targets !! ref = Some a -> steps cstep db (oworld (ad_dispatch a cx db))) ->
  xw_calls (oworld (execute_consequence rq xd w)) <> xw_calls w ->
  steps cstep (xw_db (oworld (execute_consequence rq xd w))) db2 ->
  (forall reg' rq' xd' n, xr_operation_id rq' = Some op ->
   exists x, Execute.execute_consequence reg' targets key dict_str rq' xd' (mk_xworld db2 n) = Ret x (mk_xworld db2 n)
     /\ xs_decision x = DENY /\ xs_invoked x = false)
  /\ exists row2 e, d_mounts db2 !! xr_mount_id rq = Some row2 /\ latest_event db2 op = Some e /\
   forall reg' xd' n,
     exists x, Execute.execute_consequence reg' targets key dict_str rq xd' (mk_xworld db2 n) = Ret x (mk_xworld db2 n)
     /\ match preflight reg' targets db2 row2 rq (xd_now xd') with
       | inl reason => xs_reason x = reason /\ xs_state x = None
       | inr _ => xs_reason x = "idempotency_replay:" +:+ cs_value (ce_state e)
         /\ xs_state x = Some (ce_state e) /\ xs_receipt x = ce_receipt e
       end.
Proof.
  intros Hi Hag Hop Hne Hq Hcalls Hs.
  assert (Ho : py_or (xr_operation_id rq) (xd_uuid xd) = op).
  { rewrite Hop. simpl. destruct (str_eqb op "") eqn:E; [by apply str_eqb_spec in E|done]. }
  destruct (execute_steps reg targets key dict_str rq xd w Hi Hag Hq Hcalls)
    as (row & Hown & Hin & row1 & Hr1 & Hid1 & Hw1). rewrite Ho in Hin.
  pose proof (proj1 Hin) as Hi1. apply (of_intent_steps _ db2) in Hin as [_ (e & El & He)]; [|done].
  destruct (steps_mounts _ _ Hi1 Hs) as (Hle & _ & _). destruct (Hle _ _ Hr1) as (row2 & Hr2 & [_ _ _ Hw2 Hid2]).
  split.
  - intros reg' rq' xd' n Hop'. unfold Execute.execute_consequence. cbn [xw_db].
  destruct (d_mounts db2 !! xr_mount_id rq') as [row3|]; [|by eexists]. destruct (owned_by (xr_mount_id rq') row3 _ _); simpl; [|by eexists].
  destruct (preflight _ _ _ _ _ _) as [r|a]; [by eexists|].
  unfold replayed. rewrite Hop', El. by eexists.
  - exists row2, e. split; [done|]. split; [done|]. intros reg' xd' n.
  unfold Execute.execute_consequence. cbn [xw_db]. rewrite Hr2.
  rewrite (owned_same _ row) by intuition congruence. rewrite Hown. simpl.
  destruct (preflight _ _ _ _ _ _) as [r|a]; [by eexists|].
  unfold replayed. rewrite Hop, El. eexists. split; [reflexivity|]. split_and!; try done. cbn [xs_reason].
  rewrite He. unfold expected_intent. destruct Hid1, Hid2.
  replace (tk_mount_id (mc_token (mr_record row2))) with (tk_mount_id (mc_token (mr_record row))) by congruence.
  replace (tk_execution_id (mc_token (mr_record row2))) with (tk_execution_id (mc_token (mr_record row))) by congruence.
  by rewrite str_eqb_refl.
Qed.

(** ** Blocked runs *)

(** A terminated row, or an action that needs evidence, stops the binding
    before its evaluator. *)
Lemma run_blocked rq xd row adapter op w :
  mr_terminated row = true \/ gated (mc_token (mr_record row)) (xr_action rq) = true ->
  let o := run_binding reg key dict_str rq xd row adapter op w in
  xw_calls (oworld o) = xw_calls w /\ forall x w', o = Ret x w' -> xs_decision x = DENY /\ xs_invoked x = false.
Proof.
  intros Hb.
  assert (Hr : exists e w', binding_run reg key dict_str rq xd row adapter op w = Raise e w' /\ bw_calls w' = xw_calls w).
  { unfold binding_run, consequence, ebind at 1.
  destruct (local_eval_cases (mc_token (mr_record row)) (xd_ev_id xd) (xd_ev_ts xd) (xr_action rq)
    (passthrough dict_str rq) (xd_live xd) (mk_bworld (xw_db w) (mr_terminated row) None [] (xw_calls w)))
    as [(_ & Ht & _ & _ & _ & _ & Hg)|(e & w' & -> & Hc)]; [|by exists e, w'].
  simpl in Ht. destruct Hb; congruence. }
  destruct Hr as (e & w' & Hr & Hc). apply run_uncalled; rewrite Hr; done.
Qed.

Lemma execute_blocked rq xd w row :
  d_mounts (xw_db w) !! xr_mount_id rq = Some row ->
  mr_terminated row = true \/ gated (mc_token (mr_record row)) (xr_action rq) = true ->
  let o := execute_consequence rq xd w in
  xw_calls (oworld o) = xw_calls w /\ forall x w', o = Ret x w' -> xs_decision x = DENY /\ xs_invoked x = false.
Proof.
  intros Hm Hb o. subst o. unfold Execute.execute_consequence. rewrite Hm.
  destruct (owned_by _ _ _ _); simpl; [|split; [done|by intros x w' [= <- _]]].
  destruct (preflight _ _ _ _ _) as [r|a]; [split; [done|by intros x w' [= <- _]]|].
  destruct (replayed _ _ _ _) as [x|] eqn:Er; [|by apply run_blocked].
  split; [done|]. intros y w' [= <- _]. unfold replayed in Er. destruct (xr_operation_id rq); [|done].
  destruct (latest_event _ _); [|done]. by injection Er as <-.
Qed.

(** The answer says terminated only if the mount's row is. *)
Lemma terminated_answer rq xd w x w' :
  execute_consequence rq xd w = Ret x w' -> xs_terminated x = true ->
  exists row, d_mounts (xw_db w') !! xr_mount_id rq = Some row /\ mr_terminated row = true.
Proof.
  assert (Hf : forall op n dec reason res w0, finish reg rq op n dec reason res w0 = Ret x w' ->
  xs_terminated x = true -> exists row, d_mounts (xw_db w') !! xr_mount_id rq = Some row /\ mr_terminated row = true).
  { intros op n dec reason res w0 He Ht. destruct (finish_returns reg rq op n dec reason res w0)
    as (y & db' & Hr & _ & _ & _ & _ & _ & _ & Hy). rewrite Hr in He. injection He as -> <-. by apply Hy. }
  unfold Execute.execute_consequence. destruct (d_mounts (xw_db w) !! _) as [row|]; [|by intros [= <- _]].
  destruct (owned_by _ _ _ _); simpl; [|by intros [= <- _]].
  destruct (preflight _ _ _ _ _) as [r|a]; [by intros [= <- _]|].
  destruct (replayed _ _ _ _) as [y|] eqn:Er.
  { intros [= <- _]. unfold replayed in Er. destruct (xr_operation_id rq); [|done].
  destruct (latest_event _ _); [|done]. by injection Er as <-. }
  unfold run_binding. destruct (consequence _ _ _ _ _ _ _ _ _ _ _ _ _) as [r bw|e bw|bw]; [apply Hf| |done].
  destruct (is_policy_error e); [apply Hf|].
  destruct e; try done. destruct (latest_event _ _); [|done]. destruct (bool_decide _); [apply Hf|done].
Qed.

(** A mount is spent by its execution.  When [execute_consequence]
    answers that the mount is terminated, no later request on the mount, of
    any caller and at any time, is dispatched or allowed, whatever the
    service does in between. *)
Theorem executed_mount_is_final rq xd w x w' db2 :
  execute_consequence rq xd w = Ret x w' -> xs_terminated x = true -> cinv (xw_db w') ->
  steps cstep (xw_db w') db2 ->
  forall rq' xd' n, xr_mount_id rq' = xr_mount_id rq ->
  let o := execute_consequence rq' xd' (mk_xworld db2 n) in
  xw_calls (oworld o) = n /\ forall y w'', o = Ret y w'' -> xs_decision y = DENY /\ xs_invoked y = false.
Proof.
  intros He Ht Hi Hs rq' xd' n Hm. destruct (terminated_answer _ _ _ _ _ He Ht) as (row & Hr & Hrt).
  destruct (steps_mounts _ _ Hi Hs) as (Hle & _ & _). destruct (Hle _ _ Hr) as (row2 & Hr2 & Hl).
  apply (execute_blocked rq' xd' (mk_xworld db2 n) row2); [by rewrite Hm|]. left. by apply Hl.
Qed.

(** An approval gate cannot be passed.  An action whose token demands
    human approval for external sends (or suppression evidence) is never
    dispatched by [execute_consequence], whatever evidence the request
    carries, although [evaluate] would verify it: [_local_eval] of the
    binding refuses the action before the evaluator is asked. *)
Theorem gated_never_dispatched rq xd w row :
  d_mounts (xw_db w) !! xr_mount_id rq = Some row -> gated (mc_token (mr_record row)) (xr_action rq) = true ->
  let o := execute_consequence rq xd w in
  xw_calls (oworld o) = xw_calls w /\ forall x w', o = Ret x w' -> xs_decision x = DENY /\ xs_invoked x = false.
Proof. intros Hm Hg. apply (execute_blocked rq xd w row Hm). by right. Qed.
End properties.
