(* ===== verification/ExecuteDemo.v ===== *)
(** * A mount, its first use, its execution and a retry

    The registry on the concrete outside world of the other demonstrations, and
    its mount executed against a concrete target: witnesses of the properties
    of RegistryProperties and ExecuteProperties. *)

From Stdlib Require Import ZArith Lia Ascii String.
From stdpp Require Import base gmap strings list pretty sorting.
From S2P Require Import Prelude Canon PyJson VdbExample MountModels Lease Consequence Mounts Permits ConsequenceProofs ConsequenceProperties MountProperties MountDemo Engine EngineProperties Biscuit BiscuitProperties BiscuitDemo Registry RegistryProofs RegistryProperties Execute ExecuteProofs ExecuteProperties.

Local Open Scope Z_scope.

Definition reg_demo : registry :=
  mk_registry {["veklom.governed-counter@v1" := demo_package]}
    (fun _ _ _ => mk_anchor "confirmed" (Some "a1") None) (fun _ _ _ _ _ _ => None) false (fun _ => 7000000) "0".

Definition reg_request : mount_request :=
  mk_mount_request "veklom.governed-counter@v1" demo_scope default_policy 300 "alice" None (Some "exec-1") None None
    None None None None None.
Definition reg_draws : draws := mk_draws "m" "e" "t" "nonce-1" "s" 5000000 6000000.

Definition reg0 : cdb := mk_cdb ∅ [] ∅ [] ∅ ∅ ∅.
Definition reg1 : cdb := oworld (request_mount reg_demo reg_request reg_draws reg0).
Definition reg_row : mount_row := default demo_row (d_mounts reg1 !! "mnt_m").
Definition reg_use := evaluate reg_demo "mnt_m" "counter.increment" (Some "counter") "tok_t" "nonce-1" "alice"
  (Some "ws-1") None None None.
Definition reg2 : cdb := oworld (reg_use reg1).

Example reg_mounted : request_mount reg_demo reg_request reg_draws reg0
  = Ret (Some ("mnt_m", reg_row, "vlm_mnt_m.s"), "mounted") reg1.
Proof. vm_compute. reflexivity. Qed.
Example reg_used : reg_use reg1 = Ret (ALLOW, "allowed", Some "rcpt_a1") reg2.
Proof. vm_compute. reflexivity. Qed.
Example reg_replayed : reg_use reg2 = Ret (DENY, "token_replay", None) reg2.
Proof. vm_compute. reflexivity. Qed.

Lemma reg1_steps : steps rstep reg0 reg1.
Proof. eapply steps_snoc; [apply steps_refl|apply rs_mount]. Qed.
Lemma reg2_steps : steps rstep reg0 reg2.
Proof. eapply steps_snoc; [apply reg1_steps|apply rs_evaluate]. Qed.

Lemma token_single_use_witness :
  exists r, d_receipts reg2 !! "rcpt_a1" = Some r /\ rc_token r = "tok_t"
    /\ forall db3, reg_use reg2 <> Ret (ALLOW, "allowed", Some "rcpt_a1") db3.
Proof.
  destruct (d_receipts reg2 !! "rcpt_a1") as [r|] eqn:E; [|vm_compute in E; discriminate].
  exists r. assert (Ht : rc_token r = "tok_t") by (vm_compute in E; by injection E as <-).
  split; [done|]. split; [done|]. intros db3.
  destruct (token_single_use reg0 reg2 reg2 "rcpt_a1" r) as [_ H].
  - reflexivity.
  - reflexivity.
  - apply reg2_steps.
  - exact E.
  - vm_compute in E. by injection E as <-.
  - rewrite Ht in H. apply H. done.
Defined.

Lemma registry_refines_witness : steps cstep reg1 reg2.
Proof.
  apply (registry_refines reg0 reg1 reg2); [reflexivity|reflexivity|apply reg1_steps|].
  eapply steps_snoc; [apply steps_refl|apply rs_evaluate].
Defined.

Lemma mounted_is_usable_witness :
  exists rid db'', evaluate reg_demo "mnt_m" "counter.increment" (Some "counter") "tok_t" "nonce-1" "alice"
    (Some "ws-1") None None None reg1 = Ret (ALLOW, "allowed", Some rid) db''.
Proof.
  apply (mounted_is_usable reg_demo reg_demo reg_request reg_draws reg0 reg1 "mnt_m" reg_row "vlm_mnt_m.s"
           "counter.increment" (Some "counter") "alice" (Some "ws-1") None None None).
  - exact reg_mounted.
  - intros k pk Hk. unfold reg_demo, rg_packages in Hk. apply lookup_singleton_Some in Hk as [<- <-]. done.
  - done.
  - intros pk Hk. unfold reg_demo, rg_packages in Hk. apply lookup_singleton_Some in Hk as [_ <-].
    assert (Ht : tk_grants (mc_token (mr_record reg_row)) = mk_grants ["counter.read"] ["counter.increment"] ["counter"]
                 ["counter.reset"] [] [] None /\ tk_execution_id (mc_token (mr_record reg_row)) = "exec-1")
      by (vm_compute; done).
    unfold mint_texts_safe. rewrite (proj1 Ht), (proj2 Ht). unfold mint_safe. repeat split; by repeat constructor.
  - simpl. lia.
  - reflexivity.
  - split.
    1,2,6,7,10,11: vm_compute; reflexivity.
    1,2: vm_compute; intros Hin; by apply elem_of_nil in Hin.
    + intros n. vm_compute. reflexivity.
    + apply not_elem_of_empty.
    + intros l Hl. change (l ∈ @nil lease) in Hl. set_solver.
Defined.

Definition x_adapter : TargetAdapter :=
  mk_adapter ["counter.read"; "counter.increment"] true (fun cx db => Ret (JStr (cx_resource cx)) db).
Definition x_targets : gmap string TargetAdapter := {["activation.governed-counter" := x_adapter]}.
Definition x_str (d : list (string * json)) : string := py_dumps (JObj d).

Definition x_request (op : option string) (approval : option string) : exec_request :=
  mk_exec_request "mnt_m" "counter.increment" "tok_t" "nonce-1" "alice" (Some "ws-1") approval None false
    "activation.governed-counter" "counter" [("delta", JInt 1)] op None None None None None None.
Definition x_draws : exec_draws := mk_exec_draws "u" 6500000 7100000 "e1" "e2" "e3" demo_ids demo_ids.
Definition x_run := execute_consequence reg_demo x_targets (Some "k") x_str (x_request (Some "op-1") None) x_draws.
Definition x_world : xworld := mk_xworld reg1 0.
Definition x_after : xworld := oworld (x_run x_world).

Lemma x_tokens db : steps rstep reg0 db -> map_Forall tokens_agree (d_mounts db).
Proof.
  intros Hs. assert (Hi : rinv db).
  { eapply rsteps_rinv; [|exact Hs]. split; [done|intros id r Hr|intros i j r s Hr]; cbn in Hr; by rewrite lookup_empty in Hr. }
  apply Hi.
Qed.

Lemma x_quiet ref a cx db : x_targets !! ref = Some a -> steps cstep db (oworld (ad_dispatch a cx db)).
Proof. unfold x_targets. intros [_ <-]%lookup_singleton_Some. apply steps_refl. Qed.

Lemma execute_guarded_witness :
  exists x w', x_run x_world = Ret x w' /\ xs_decision x = ALLOW /\ xs_state x = Some C_SUCCEEDED.
Proof.
  destruct (execute_guarded reg_demo x_targets (Some "k") x_str (x_request (Some "op-1") None) x_draws x_world)
    as [[Hc _]|(row & adapter & db1 & _ & Hd & Hs)].
  - by apply cinv_empty.
  - apply x_tokens, reg1_steps.
  - exfalso. vm_compute in Hc. discriminate Hc.
  - assert (adapter = x_adapter) as ->.
    { destruct Hd as [_ _ _ _ _ [Ht _]]. unfold x_targets in Ht. by apply lookup_singleton_Some in Ht as [_ <-]. }
    destruct Hs as (x & w' & E & E1 & _ & E2).
    { split; [|split; [reflexivity|]]; intros Hn; exact Hn. }
    { vm_compute. intros [Hx|[Hx|[]]]; discriminate Hx. }
    exists x, w'. split; [exact E|]. split; [exact E1|exact E2].
Defined.

Lemma retry_never_dispatches_witness :
  exists x, execute_consequence reg_demo x_targets (Some "k") x_str (x_request (Some "op-1") None) x_draws
              (mk_xworld (xw_db x_after) 5) = Ret x (mk_xworld (xw_db x_after) 5) /\ xs_decision x = DENY.
Proof.
  destruct (retry_never_dispatches reg_demo x_targets (Some "k") x_str (x_request (Some "op-1") None) x_draws x_world
              (xw_db x_after) "op-1") as [Hr _].
  - by apply cinv_empty.
  - apply x_tokens, reg1_steps.
  - reflexivity.
  - discriminate.
  - intros ref a cx db. apply x_quiet.
  - vm_compute. discriminate.
  - apply steps_refl.
  - destruct (Hr reg_demo (x_request (Some "op-1") None) x_draws 5%nat eq_refl) as (x & E & E1 & _). exists x. split; [exact E|exact E1].
Defined.

Example x_replayed :
  match x_run x_after with Ret x _ => xs_reason x | _ => "" end = "idempotency_replay:succeeded".
Proof. vm_compute. reflexivity. Qed.

Lemma executed_mount_is_final_witness :
  exists x w', x_run x_world = Ret x w' /\ xs_terminated x = true /\
    xw_calls (oworld (execute_consequence reg_demo x_targets (Some "k") x_str (x_request None None) x_draws
                        (mk_xworld (xw_db w') 1))) = 1%nat.
Proof.
  destruct (x_run x_world) as [x w'|e w'|w'] eqn:E; [|vm_compute in E; discriminate E..].
  exists x, w'. assert (Ht : xs_terminated x = true).
  { replace x with (match x_run x_world with Ret y _ => y | _ => x end) by by rewrite E. vm_compute. reflexivity. }
  assert (Hi : cinv (xw_db w')).
  { destruct (execute_steps reg_demo x_targets (Some "k") x_str (x_request (Some "op-1") None) x_draws x_world)
      as (row & _ & [Hi _] & _).
    - by apply cinv_empty.
    - apply x_tokens, reg1_steps.
    - intros ref a cx db. apply x_quiet.
    - vm_compute. discriminate.
    - change (execute_consequence _ _ _ _ _ _ _) with (x_run x_world) in Hi. by rewrite E in Hi. }
  split; [reflexivity|]. split; [exact Ht|].
  apply (executed_mount_is_final reg_demo x_targets (Some "k") x_str (x_request (Some "op-1") None) x_draws x_world x w'
           (xw_db w') E Ht Hi (steps_refl _) (x_request None None) x_draws 1 eq_refl).
Defined.

(** An external send with a verified approval: [evaluate] allows it, and
    executing it is refused. *)
Definition g_package : CapabilityPackage :=
  mk_package "veklom.mail@v1" [] ["mail.send"] [] ["mail.send"] [] None None None None None false.
Definition g_reg : registry :=
  mk_registry {["veklom.mail@v1" := g_package]} (fun _ _ _ => mk_anchor "confirmed" (Some "a2") None)
    (fun _ _ _ _ _ _ => Some "jti-1") false (fun _ => 7000000) "0".
Definition g_db : cdb :=
  oworld (request_mount g_reg (mk_mount_request "veklom.mail@v1" (mk_scope "ws-1" "sandbox" None None (Some ["counter"]) [] None)
    default_policy 300 "alice" None (Some "exec-1") None None None None None None None) reg_draws reg0).
Definition g_targets : gmap string TargetAdapter :=
  {["activation.mail" := mk_adapter ["mail.send"] true (fun _ db => Ret JNull db)]}.
Definition g_request : exec_request :=
  mk_exec_request "mnt_m" "mail.send" "tok_t" "nonce-1" "alice" (Some "ws-1") (Some "approval") None false
    "activation.mail" "counter" [] None None None None None None None.

Lemma gated_never_dispatched_witness :
  (exists rid db', evaluate g_reg "mnt_m" "mail.send" (Some "counter") "tok_t" "nonce-1" "alice" (Some "ws-1")
                     (Some "approval") None None g_db = Ret (ALLOW, "allowed", Some rid) db')
  /\ xw_calls (oworld (execute_consequence g_reg g_targets None x_str g_request x_draws (mk_xworld g_db 0))) = 0%nat.
Proof.
  split; [exists "rcpt_a2"; eexists; vm_compute; reflexivity|].
  destruct (d_mounts g_db !! "mnt_m") as [row|] eqn:E; [|vm_compute in E; discriminate E].
  apply (gated_never_dispatched g_reg g_targets None x_str g_request x_draws (mk_xworld g_db 0) row).
  - exact E.
  - replace row with (default demo_row (d_mounts g_db !! "mnt_m")) by (rewrite E; reflexivity).
    vm_compute. reflexivity.
Defined.
