(* ===== verification/JsonScan.v ===== *)
(** * JSON text delimits itself

    A scanner that skips one JSON value, and the injectivity it gives: equal
    texts of objects have equal members.  Used where a hash of a JSON record
    has to bind one of its fields. *)

From Stdlib Require Import ZArith Lia Ascii String.
From stdpp Require Import base gmap strings list pretty sorting.
From S2P Require Import Prelude Canon PyJson.

Definition opener (c : ascii) : bool := Ascii.eqb c "{" || Ascii.eqb c "[".
Definition closer (c : ascii) : bool := Ascii.eqb c "}" || Ascii.eqb c "]".
Definition comma (c : ascii) : bool := Ascii.eqb c ",".
Definition plain (c : ascii) : bool := negb (Ascii.eqb c dquote || opener c || closer c || comma c).

(** What follows the value at the head: [d] brackets are open, [s] inside a
    literal. *)
Fixpoint scan (d : nat) (s : bool) (l : list ascii) : list ascii :=
  match l with
  | [] => []
  | c :: r =>
    if s then
      if Ascii.eqb c bslash then match r with [] => [] | _ :: r' => scan d true r' end
      else scan d (negb (Ascii.eqb c dquote)) r
    else if Ascii.eqb c dquote then scan d true r
    else if opener c then scan (S d) false r
    else if closer c then match d with O => l | S d' => scan d' false r end
    else if comma c then match d with O => l | S _ => scan d false r end
    else scan d false r
  end.

(** A text the scanner skips at any depth. *)
Definition skipped (t : string) : Prop := forall d x, scan d false (chars t ++ x) = scan d false x.

Lemma scan_esc_char d c x : scan d true (esc_char c ++ x) = scan d true x.
Proof. destruct c as [[] [] [] [] [] [] [] []]; reflexivity. Qed.

Lemma scan_esc d s x : scan d true (esc s ++ x) = scan d true x.
Proof. induction s as [|c s IH]; [done|]. by rewrite esc_cons, <- app_assoc, scan_esc_char. Qed.

Lemma skipped_str s : skipped (py_str s).
Proof.
  intros d x. rewrite chars_py_str. change ((dquote :: esc s ++ [dquote]) ++ x) with (dquote :: (esc s ++ [dquote]) ++ x).
  rewrite <- app_assoc. cbn [scan]. rewrite (Ascii.eqb_refl dquote), scan_esc. reflexivity.
Qed.

Lemma skipped_plain s : forallb plain (chars s) = true -> skipped s.
Proof.
  intros Hp d x. induction s as [|c s IH]; [done|]. simpl in Hp. apply andb_true_iff in Hp as [Hc Hp].
  rewrite <- (IH Hp). unfold plain in Hc. apply negb_true_iff in Hc.
  apply orb_false_iff in Hc as [[[H1 H2]%orb_false_iff H3]%orb_false_iff H4].
  cbn [chars list_ascii_of_string app scan]. by rewrite H1, H2, H3, H4.
Qed.

Lemma skipped_app s t : skipped s -> skipped t -> skipped (s +:+ t).
Proof. intros Hs Ht d x. by rewrite chars_app, <- app_assoc, Hs, Ht. Qed.

(** ** Numbers *)

Lemma pretty_char_plain n : plain (pretty_N_char n) = true.
Proof. unfold pretty_N_char. by repeat case_match. Qed.

Lemma pretty_go_plain n s : forallb plain (chars s) = true -> forallb plain (chars (pretty_N_go n s)) = true.
Proof.
  revert s. induction (N.lt_wf_0 n) as [n _ IH]. intros s Hs. destruct (decide (n = 0%N)) as [->|Hn].
  { by rewrite pretty_N_go_0. }
  rewrite pretty_N_go_step by lia. apply IH; [apply N.div_lt; lia|]. simpl. by rewrite pretty_char_plain.
Qed.

Lemma pretty_Z_plain (z : Z) : forallb plain (chars (pretty z)) = true.
Proof.
  assert (Hn : forall n : N, forallb plain (chars (pretty n)) = true).
  { intros n. unfold pretty, pretty_N. case_match; [done|]. by apply pretty_go_plain. }
  unfold pretty, pretty_Z. destruct z; [done|apply Hn|].
  rewrite chars_app, forallb_app. apply andb_true_iff. split; [done|apply Hn].
Qed.

(** ** Values *)

(** Number literals hold no structural characters. *)
Fixpoint json_wf (j : json) : bool :=
  match j with
  | JFloat l => forallb plain (chars l)
  | JArr l => forallb json_wf l
  | JObj m => forallb (fun kv => json_wf kv.2) m
  | _ => true
  end.

(** Induction through arrays and objects. *)
Lemma json_nested (P : json -> Prop) :
  P JNull -> (forall b, P (JBool b)) -> (forall z, P (JInt z)) -> (forall l, P (JFloat l)) -> (forall s, P (JStr s)) ->
  (forall l, Forall P l -> P (JArr l)) -> (forall m, Forall (fun kv => P kv.2) m -> P (JObj m)) -> forall j, P j.
Proof.
  intros H1 H2 H3 H4 H5 H6 H7. fix IH 1. intros [|b|z|l|s|l|m]; [done|done|done|done|done| |].
  - apply H6. induction l as [|j l IHl]; constructor; [apply IH|done].
  - apply H7. induction m as [|[k j] m IHm]; constructor; [apply IH|done].
Qed.

Lemma scan_items d ts x :
  Forall skipped ts -> scan (S d) false (chars (String.concat "," ts) ++ x) = scan (S d) false x.
Proof.
  intros Ht. induction Ht as [|t ts Hs Ht IH]; [done|]. destruct ts as [|t' ts].
  - apply Hs.
  - change (String.concat "," (t :: t' :: ts)) with (t +:+ "," +:+ String.concat "," (t' :: ts)).
    by rewrite !chars_app, <- !app_assoc, Hs.
Qed.

(** The members of an object, printed and in key order. *)
Definition printed (m : list (string * json)) : list (string * string) :=
  merge_sort key_le (map (fun kv => (kv.1, py_dumps kv.2)) m).
Definition member (kv : string * string) : string := py_str kv.1 +:+ ":" +:+ kv.2.

Lemma dumps_obj m : py_dumps (JObj m) = "{" +:+ String.concat "," (map member (printed m)) +:+ "}".
Proof. reflexivity. Qed.

Lemma printed_elem m k t : (k, t) ∈ printed m <-> exists v, (k, v) ∈ m /\ t = py_dumps v.
Proof.
  unfold printed. rewrite merge_sort_Permutation, list_elem_of_fmap. split.
  - intros ([k' v] & [= -> ->] & Hi). by exists v.
  - intros (v & Hi & ->). by exists (k, v).
Qed.

Lemma skipped_member k t : skipped t -> skipped (member (k, t)).
Proof. intros Ht. apply skipped_app; [apply skipped_str|]. by apply skipped_app; [apply skipped_plain|]. Qed.

Lemma dumps_skipped j : json_wf j = true -> skipped (py_dumps j).
Proof.
  induction j as [|b|z|l|s|l IH|m IH] using json_nested; intros Hw.
  - by apply skipped_plain.
  - destruct b; by apply skipped_plain.
  - apply skipped_plain, pretty_Z_plain.
  - by apply skipped_plain.
  - apply skipped_str.
  - intros d x. change (py_dumps (JArr l)) with ("[" +:+ String.concat "," (map py_dumps l) +:+ "]").
    rewrite !chars_app, <- !app_assoc. change (chars "[" ++ ?y) with ("["%char :: y). cbn [scan].
    cbn. rewrite scan_items; [done|]. apply Forall_map. simpl in Hw.
    rewrite Forall_forall in *. intros j Hj. apply IH; [done|]. rewrite forallb_forall in Hw. by apply Hw, list_elem_of_In.
  - intros d x. rewrite dumps_obj, !chars_app, <- !app_assoc.
    change (chars "{" ++ ?y) with ("{"%char :: y). cbn. rewrite scan_items; [done|]. apply Forall_map.
    apply Forall_forall. intros [k t] Hk. apply skipped_member. apply printed_elem in Hk as (v & Hv & ->).
    simpl in Hw. rewrite forallb_forall in Hw. apply (proj1 (Forall_forall _ _) IH _ Hv). by apply (Hw (k, v)), list_elem_of_In.
Qed.

(** ** Injectivity *)

(** A value followed by a comma or a closing bracket. *)
Lemma value_split t t' x y :
  skipped t -> skipped t' ->
  (exists c r, x = c :: r /\ (comma c || closer c) = true) -> (exists c r, y = c :: r /\ (comma c || closer c) = true) ->
  chars t ++ x = chars t' ++ y -> t = t' /\ x = y.
Proof.
  intros Ht Ht' (c & r & -> & Hc) (c' & r' & -> & Hc') He.
  assert (Hstop : forall c r, (comma c || closer c) = true -> scan 0 false (c :: r) = c :: r).
  { intros [[] [] [] [] [] [] [] []] rr Hx; try discriminate Hx; reflexivity. }
  assert (Hr : c :: r = c' :: r').
  { rewrite <- (Hstop c r Hc), <- (Hstop c' r' Hc'), <- (Ht 0 (c :: r)), <- (Ht' 0 (c' :: r')). by rewrite He. }
  split; [|done]. rewrite Hr in He. by apply app_inv_tail, chars_inj in He.
Qed.

(** The first member of a printed object, and what follows it. *)
Lemma members_head k t ms z : exists r,
  chars (String.concat "," (map member ((k, t) :: ms))) ++ "}"%char :: z
    = dquote :: esc k ++ dquote :: ":"%char :: chars t ++ r
  /\ (exists c r', r = c :: r' /\ (comma c || closer c) = true)
  /\ (ms = [] /\ r = "}"%char :: z
      \/ ms <> [] /\ r = ","%char :: chars (String.concat "," (map member ms)) ++ "}"%char :: z).
Proof.
  assert (Hm : forall y, chars (member (k, t)) ++ y = dquote :: esc k ++ dquote :: ":"%char :: chars t ++ y).
  { intros y. unfold member. rewrite !chars_app, chars_py_str, <- !app_assoc. cbn [app]. by rewrite <- !app_assoc. }
  destruct ms as [|kv ms].
  - exists ("}"%char :: z). split; [apply Hm|]. split; [by eexists _, _|by left].
  - eexists. split; [|split; [|right; split; [done|reflexivity]]]; [|by eexists _, _].
    change (String.concat "," (map member ((k, t) :: kv :: ms)))
      with (member (k, t) +:+ "," +:+ String.concat "," (map member (kv :: ms))).
    rewrite !chars_app, <- !app_assoc. apply Hm.
Qed.

Lemma members_split ms ms' x y :
  Forall (fun kv => skipped kv.2) ms -> Forall (fun kv => skipped kv.2) ms' ->
  chars (String.concat "," (map member ms)) ++ "}"%char :: x = chars (String.concat "," (map member ms')) ++ "}"%char :: y ->
  ms = ms'.
Proof.
  intros Hs. revert ms'. induction Hs as [|[k t] ms Ht Hs IH]; intros ms' Hs' He; destruct Hs' as [|[k' t'] ms' Ht' Hs'];
    [done|destruct (members_head k' t' ms' y) as (r & E & _); by rewrite E in He
    |destruct (members_head k t ms x) as (r & E & _); by rewrite E in He|].
  destruct (members_head k t ms x) as (r & E & Hr & Hc). destruct (members_head k' t' ms' y) as (r' & E' & Hr' & Hc').
  rewrite E, E' in He. injection He as He. apply esc_inj in He as [<- He]. injection He as He.
  simpl in Ht, Ht'. destruct (value_split t t' r r' Ht Ht' Hr Hr' He) as [<- Hrr]. f_equal.
  destruct Hc as [[-> ->]|[Hn ->]], Hc' as [[-> ->]|[Hn' ->]]; try done.
  injection Hrr as Hrr. by apply IH.
Qed.

Lemma dumps_obj_inj m m' :
  json_wf (JObj m) = true -> json_wf (JObj m') = true -> py_dumps (JObj m) = py_dumps (JObj m') -> printed m = printed m'.
Proof.
  assert (Hp : forall m, json_wf (JObj m) = true -> Forall (fun kv => skipped kv.2) (printed m)).
  { intros m0 Hw. apply Forall_forall. intros [k t] (v & Hv & ->)%printed_elem. apply dumps_skipped.
    simpl in Hw. rewrite forallb_forall in Hw. by apply (Hw (k, v)), list_elem_of_In. }
  intros Hw Hw' He. apply (members_split _ _ [] []); [by apply Hp..|].
  rewrite !dumps_obj in He. apply (f_equal chars) in He. rewrite !chars_app in He. by injection He.
Qed.

(** Equal texts agree on a key that stands for one optional string. *)
Lemma dumps_field m m' k a b :
  json_wf (JObj m) = true -> json_wf (JObj m') = true -> py_dumps (JObj m) = py_dumps (JObj m') ->
  (k, jopt a) ∈ m -> (forall v, (k, v) ∈ m' -> v = jopt b) -> a = b.
Proof.
  intros Hw Hw' He Ha Hb. apply dumps_obj_inj in He; [|done..].
  assert (Hi : (k, py_dumps (jopt a)) ∈ printed m') by (rewrite <- He; apply printed_elem; by exists (jopt a)).
  apply printed_elem in Hi as (v & Hv & Ht). apply Hb in Hv as ->.
  destruct a as [a|], b as [b|]; simpl in Ht; [|discriminate Ht..|done].
  apply (f_equal (fun s => s +:+ "")) in Ht. by apply py_str_inj in Ht as [-> _].
Qed.
