(* ===== verification/Ledger.v ===== *)
(** * The audit and PGL ledgers and their verifier

    services/audit_service.py ([record]), services/pgl_client.py
    ([_append_ledger_event]) and services/ledger_verifier.py.  A table is the
    list of its rows in the order of insertion; ids and times drawn are
    arguments.  Forwarding to the external ledger runs in its own thread and
    writes no row. *)

From Stdlib Require Import ZArith Lia Ascii String.
From stdpp Require Import base gmap strings list pretty sorting.
From S2P Require Import Prelude Canon PyJson.

(** What the link walker reads of a row, and the JSON its hash covers. *)
Class LedgerNode (A : Type) := {
  node_id : A -> string;
  self_hash : A -> string;
  prev_hash : A -> option string;
  created_at : A -> Z;
  content : A -> json }.

(** ** Rows *)

Record AuditEvent := mk_audit_event {
  av_log_id : string; av_operation_type : string; av_workspace_id : option string; av_run_id : option string;
  av_payload : json; av_previous_log_hash : option string; av_log_hash : string; av_created_at : Z }.

Record PGLLedgerEvent := mk_pgl_event {
  pv_event_id : string; pv_certificate_id : string; pv_event_type : string; pv_payload : list (string * json);
  pv_previous_event_hash : option string; pv_event_hash : string; pv_created_at : Z }.

Definition audit_content (operation_type : string) (workspace_id run_id : option string) (payload : json)
    (previous : option string) : json :=
  JObj [("operation_type", JStr operation_type); ("workspace_id", jopt workspace_id); ("run_id", jopt run_id);
        ("payload", payload); ("previous_log_hash", jopt previous)].

(** [{**m, k: v}]; where the key stands does not matter to sorted output. *)
Definition dict_set (m : list (string * json)) (k : string) (v : json) : list (string * json) :=
  filter (fun kv => kv.1 <> k) m ++ [(k, v)].
Definition pgl_content (payload : list (string * json)) (previous : option string) : json :=
  JObj (dict_set payload "previous_event_hash" (jopt previous)).

#[export] Instance audit_node : LedgerNode AuditEvent := {|
  node_id := av_log_id; self_hash := av_log_hash; prev_hash := av_previous_log_hash; created_at := av_created_at;
  content := fun e => audit_content (av_operation_type e) (av_workspace_id e) (av_run_id e) (av_payload e)
                        (av_previous_log_hash e) |}.
#[export] Instance pgl_node : LedgerNode PGLLedgerEvent := {|
  node_id := pv_event_id; self_hash := pv_event_hash; prev_hash := pv_previous_event_hash; created_at := pv_created_at;
  content := fun e => pgl_content (pv_payload e) (pv_previous_event_hash e) |}.

(** ** The verifier *)

Record ChainReport := mk_report {
  cr_name : string; cr_total : nat; cr_valid : bool; cr_broken_links : list (string * string) }.

Definition fail (r : ChainReport) (node_id reason : string) : ChainReport :=
  mk_report (cr_name r) (cr_total r) false (cr_broken_links r ++ [(node_id, reason)]).
Definition fail_all (r : ChainReport) (ids : list string) (reason : string) : ChainReport :=
  foldl (fun r i => fail r i reason) r ids.

Inductive walk_end := Stopped | Forked (ids : list string) | Done (visited : nat).

Section verifier.
Context `{Ext} {A} `{LedgerNode A}.

Definition intact (e : A) : bool := str_eqb (sha256_json (content e)) (self_hash e).

(** Node integrity: the report, and the hashes of the rows that hold. *)
Definition check_node (reason : string) (rb : ChainReport * gset string) (e : A) : ChainReport * gset string :=
  if intact e then (rb.1, {[self_hash e]} ∪ rb.2) else (fail rb.1 (node_id e) reason, rb.2).
Definition check_nodes (reason : string) (r : ChainReport) (events : list A) : ChainReport * gset string :=
  foldl (check_node reason) (r, ∅) events.

Definition children (events : list A) (h : string) : list A := filter (fun e => prev_hash e = Some h) events.

(** The [while] loop; [fuel] bounds its turns. *)
Fixpoint walk (events : list A) (by_hash : gset string) (fuel : nat) (current : A) (visited : nat)
    : option walk_end :=
  match fuel with
  | O => None
  | S fuel' =>
    if negb (bool_decide (self_hash current ∈ by_hash)) then Some Stopped
    else match children events (self_hash current) with
         | [] => Some (Done (S visited))
         | [next] => walk events by_hash fuel' next (S visited)
         | many => Some (Forked (map node_id many))
         end
  end.

(** [_verify_links]; [None] when the loop does not end within the fuel. *)
Definition verify_links (fuel : nat) (r : ChainReport) (events : list A) (by_hash : gset string)
    : option ChainReport :=
  match filter (fun e => prev_hash e = None) events with
  | [] => Some (fail r "<chain>" "no genesis node (every node references a parent)")
  | [genesis] =>
    match walk events by_hash fuel genesis 0 with
    | None => None
    | Some Stopped => Some r
    | Some (Forked ids) => Some (fail_all r ids "chain forks: multiple nodes share a parent")
    | Some (Done visited) =>
      Some (if (visited =? length events)%nat then r
            else fail r "<chain>" ("chain reachable=" +:+ pretty visited +:+ " but total=" +:+ pretty (length events)
                                   +:+ " (broken link or orphaned node)"))
    end
  | many => Some (fail_all r (map node_id many) "multiple genesis nodes (forked chain)")
  end.

Definition at_le (a b : A) : Prop := (created_at a <= created_at b)%Z.
#[export] Instance at_le_dec : RelDecision at_le.
Proof. intros a b. unfold at_le. apply _. Defined.

(** A table's verification: the rows by [created_at], node integrity, links. *)
Definition verify_chain_of (fuel : nat) (name reason : string) (rows : list A) : option ChainReport :=
  let events := merge_sort at_le rows in
  let r := mk_report name (length events) true [] in
  match events with
  | [] => Some r
  | _ => let rb := check_nodes reason r events in verify_links fuel rb.1 events rb.2
  end.
End verifier.

Section ledgers.
Context `{Ext}.

Definition verify_audit_chain (fuel : nat) (rows : list AuditEvent) : option ChainReport :=
  verify_chain_of fuel "audit_events" "log_hash does not match recomputed hash" rows.

Definition verify_pgl_chain (fuel : nat) (certificate_id : string) (rows : list PGLLedgerEvent) : option ChainReport :=
  verify_chain_of fuel ("pgl_ledger:" +:+ certificate_id) "event_hash does not match recomputed hash"
    (filter (fun e => pv_certificate_id e = certificate_id) rows).

(** The certificates named in the table, sorted. *)
Definition verify_all_pgl_chains (fuel : nat) (rows : list PGLLedgerEvent) : option (list ChainReport) :=
  mapM (fun cid => verify_pgl_chain fuel cid rows)
    (merge_sort String.le (remove_dups (map pv_certificate_id rows))).

Definition verify_all (fuel : nat) (audit : list AuditEvent) (pgl : list PGLLedgerEvent)
    : option (bool * list ChainReport) :=
  a ← verify_audit_chain fuel audit; p ← verify_all_pgl_chains fuel pgl;
  Some (forallb cr_valid (a :: p), a :: p).

(** ** The writers *)

(** [order_by(created_at.desc()).limit(1)]. *)
Definition newer_row {A} `{LedgerNode A} (a b : A) : A := if (created_at a <? created_at b)%Z then b else a.
Definition newest {A} `{LedgerNode A} (rows : list A) : option A :=
  match rows with [] => None | e :: es => Some (foldl newer_row e es) end.

(** [_latest_hash]: the newest row that no row points to, or the newest row. *)
Definition latest_hash (rows : list AuditEvent) : option string :=
  match newest (filter (fun e => children rows (av_log_hash e) = []) rows) with
  | Some tail => Some (av_log_hash tail)
  | None => av_log_hash <$> newest rows
  end.

(** The rows, and the alerts raised so far. *)
Record audit_state := mk_audit_state {
  as_rows : list AuditEvent; as_alerts : list (string * json * option string * option string) }.

Definition LAW0_VIOLATION : string := "law0_violation".
Definition ALERTING_OPERATIONS : list string := [LAW0_VIOLATION].

Definition audit_row (previous : option string) (operation_type : string) (payload : json)
    (workspace_id run_id : option string) (log_id : string) (now : Z) : AuditEvent :=
  mk_audit_event log_id operation_type workspace_id run_id payload previous
    (sha256_json (audit_content operation_type workspace_id run_id payload previous)) now.

(** [record]. *)
Definition record (operation_type : string) (payload : json) (workspace_id run_id : option string) (log_id : string)
    (now : Z) (st : audit_state) : AuditEvent * audit_state :=
  let event := audit_row (latest_hash (as_rows st)) operation_type payload workspace_id run_id log_id now in
  (event, mk_audit_state (as_rows st ++ [event])
            (if bool_decide (operation_type ∈ ALERTING_OPERATIONS)
             then as_alerts st ++ [(operation_type, payload, workspace_id, run_id)] else as_alerts st)).

Definition record_law0_violation (detail : string) (workspace_id run_id : option string)
    (extra : list (string * json)) (log_id : string) (now : Z) (st : audit_state) : AuditEvent * audit_state :=
  record LAW0_VIOLATION
    (JObj (foldl (fun m kv => dict_set m kv.1 kv.2) [("detail", JStr detail); ("law0", JBool true)] extra))
    workspace_id run_id log_id now st.

(** [_append_ledger_event] for a certificate with its genome and plan hash. *)
Definition append_ledger_event (certificate_id event_type genome_hash plan_hash : string)
    (evidence : option json) (event_id : string) (now : Z) (rows : list PGLLedgerEvent)
    : PGLLedgerEvent * list PGLLedgerEvent :=
  let previous := pv_event_hash <$> newest (filter (fun e => pv_certificate_id e = certificate_id) rows) in
  let payload := [("certificate_id", JStr certificate_id); ("event_type", JStr event_type);
                  ("genome_hash", JStr genome_hash); ("plan_hash", JStr plan_hash)]
                 ++ match evidence with Some e => [("evidence_seal", e)] | None => [] end in
  let event := mk_pgl_event event_id certificate_id event_type payload previous
                 (sha256_json (pgl_content payload previous)) now in
  (event, rows ++ [event]).
End ledgers.
