(* ===== verification/LedgerProofs.v ===== *)
(** * Hash chains and the walk that verifies them

    Chains of ledger rows: the tip determines the history, hashes are
    distinct, and the verifier's walk follows the chain. *)

From Stdlib Require Import ZArith Lia Ascii String.
From stdpp Require Import base gmap strings list pretty sorting.
From S2P Require Import Prelude Canon PyJson JsonScan Ledger.

(** Two texts with one SHA-256. *)
Definition hex_collision `{Ext} : Prop := exists x y, x <> y /\ sha256_hex x = sha256_hex y.

(** A row's hash covers its pointer, for rows with well-formed payloads. *)
Class LedgerLaws (A : Type) `{LedgerNode A} := {
  row_wf : A -> Prop;
  prev_bound : forall a b, row_wf a -> row_wf b -> py_dumps (content a) = py_dumps (content b) -> prev_hash a = prev_hash b }.

#[export] Instance audit_laws : LedgerLaws AuditEvent.
Proof.
  refine {| row_wf := fun e => json_wf (av_payload e) = true |}. intros a b Ha Hb. cbn [content audit_node prev_hash]. unfold audit_content.
  assert (Hw : forall op ws run p prev, json_wf p = true ->
    json_wf (JObj [("operation_type", JStr op); ("workspace_id", jopt ws); ("run_id", jopt run); ("payload", p);
                   ("previous_log_hash", jopt prev)]) = true).
  { intros op ws run p prev Hp. cbn [json_wf forallb snd]. rewrite Hp. by destruct ws, run, prev. }
  intros He. eapply (dumps_field _ _ "previous_log_hash"); [| |exact He| |]; [by apply Hw..|set_solver|].
  intros v Hv. rewrite !elem_of_cons, elem_of_nil in Hv. by destruct Hv as [?|[?|[?|[?|[?|[]]]]]]; simplify_eq.
Defined.

#[export] Instance pgl_laws : LedgerLaws PGLLedgerEvent.
Proof.
  refine {| row_wf := fun e => json_wf (JObj (pv_payload e)) = true |}. intros a b Ha Hb. cbn [content pgl_node prev_hash]. unfold pgl_content, dict_set.
  assert (Hw : forall m prev, json_wf (JObj m) = true ->
    json_wf (JObj (filter (fun kv => kv.1 <> "previous_event_hash") m ++ [("previous_event_hash", jopt prev)])) = true).
  { intros m prev Hm. cbn [json_wf] in *. rewrite forallb_app. apply andb_true_iff. split; [|by destruct prev].
    rewrite forallb_forall in *. intros kv Hk. apply Hm. apply list_elem_of_In in Hk. apply list_elem_of_In.
    by apply list_elem_of_filter in Hk as [_ Hk]. }
  intros He. eapply (dumps_field _ _ "previous_event_hash"); [| |exact He| |]; [by apply Hw..|set_solver|].
  intros v [Hv|Hv]%elem_of_app; [by apply list_elem_of_filter in Hv as [[] _]|].
  apply list_elem_of_singleton in Hv. by simplify_eq.
Defined.

Section chains.
Context `{Ext} {A} `{Hn : LedgerNode A} `{!LedgerLaws A}.

(** A chain: every row holds and points to the row before it. *)
Fixpoint linked (prev : option string) (l : list A) : Prop :=
  match l with
  | [] => True
  | e :: l' => prev_hash e = prev /\ intact e = true /\ linked (Some (self_hash e)) l'
  end.

Definition tip (p : option string) (l : list A) : option string :=
  match last l with Some e => Some (self_hash e) | None => p end.

Lemma linked_snoc p l e : linked p (l ++ [e]) <-> linked p l /\ prev_hash e = tip p l /\ intact e = true.
Proof.
  revert p. induction l as [|x l IH]; intros p; [unfold tip; simpl; tauto|].
  cbn [app linked]. rewrite IH. unfold tip. rewrite last_cons. destruct (last l); tauto.
Qed.

Lemma intact_same a b :
  intact a = true -> intact b = true -> self_hash a = self_hash b ->
  py_dumps (content a) = py_dumps (content b) \/ hex_collision.
Proof.
  unfold intact. intros Ha%str_eqb_spec Hb%str_eqb_spec Hh.
  destruct (decide (py_dumps (content a) = py_dumps (content b))); [by left|right].
  eexists _, _. split; [done|]. unfold sha256_json in *. congruence.
Qed.

(** The tip determines the history. *)
Lemma same_tip l1 l2 :
  linked None l1 -> linked None l2 -> Forall row_wf l1 -> Forall row_wf l2 -> tip None l1 = tip None l2 ->
  map (fun e => py_dumps (content e)) l1 = map (fun e => py_dumps (content e)) l2 \/ hex_collision.
Proof.
  revert l2. induction l1 as [|e1 l1 IH] using rev_ind; intros l2 H1 H2 W1 W2 Ht.
  - destruct l2 as [|e2 l2 _] using rev_ind; [by left|]. unfold tip in Ht. by rewrite last_snoc in Ht.
  - destruct l2 as [|e2 l2 _] using rev_ind; [unfold tip in Ht; by rewrite last_snoc in Ht|].
    apply linked_snoc in H1 as (L1 & P1 & I1). apply linked_snoc in H2 as (L2 & P2 & I2).
    unfold tip in Ht. rewrite !last_snoc in Ht. injection Ht as Ht.
    apply Forall_app in W1 as [W1 E1%Forall_inv]. apply Forall_app in W2 as [W2 E2%Forall_inv].
    destruct (intact_same _ _ I1 I2 Ht) as [Hc|]; [|by right].
    destruct (IH l2 L1 L2 W1 W2) as [Hl|]; [|left|by right].
    + rewrite <- P1, <- P2. apply prev_bound; [exact E1|exact E2|exact Hc].
    + rewrite !map_app, Hl. simpl. by rewrite Hc.
Qed.

(** Hashes along a chain are distinct. *)
Lemma linked_nodup l : linked None l -> Forall row_wf l -> NoDup (map self_hash l) \/ hex_collision.
Proof.
  induction l as [|e l IH] using rev_ind; intros Hl Hw; [left; constructor|].
  pose proof Hl as (L & P & I)%linked_snoc. apply Forall_app in Hw as [W E%Forall_inv].
  destruct (IH L W) as [Hn'|]; [|by right].
  destruct (decide (self_hash e ∈ map self_hash l)) as [Hin|Hnin].
  - right. apply list_elem_of_fmap in Hin as (x & Hx & Hin). apply list_elem_of_split in Hin as (a & b & ->).
    assert (La : linked None (a ++ [x])).
    { clear -L. rewrite cons_middle, app_assoc in L. revert L. generalize (@None string) as p.
      induction (a ++ [x]) as [|y l' IH]; intros p Hl; [done|]. simpl in *. destruct Hl as (? & ? & ?). eauto. }
    destruct (same_tip (a ++ [x]) ((a ++ x :: b) ++ [e]) La Hl) as [Ht|]; [| | |exfalso|done].
    + rewrite Forall_app, Forall_singleton. rewrite Forall_app, Forall_cons in W. tauto.
    + rewrite Forall_app, Forall_singleton. tauto.
    + unfold tip. rewrite !last_snoc. congruence.
    + apply (f_equal length) in Ht. rewrite !length_map, !length_app in Ht. simpl in Ht. lia.
  - left. rewrite map_app. apply NoDup_app. split; [done|]. split; [|apply NoDup_singleton].
    intros y Hy ->%list_elem_of_singleton. done.
Qed.

(** The positions of a chain. *)
Lemma linked_next l i e e' : linked None l -> l !! i = Some e -> l !! S i = Some e' -> prev_hash e' = Some (self_hash e).
Proof.
  generalize (@None string) as p. revert i. induction l as [|x l IH]; intros i p Hl Hi Hi'; [done|].
  destruct Hl as (_ & _ & Hl). destruct i as [|i]; [|by eapply IH].
  injection Hi as ->. destruct l as [|y l]; [done|]. injection Hi' as ->. by destruct Hl.
Qed.
Lemma linked_prev l i e : linked None l -> l !! i = Some e ->
  match i with O => prev_hash e = None | S j => exists e0, l !! j = Some e0 /\ prev_hash e = Some (self_hash e0) end.
Proof.
  intros Hl Hi. destruct i as [|j]; [destruct l as [|x l]; [done|]; injection Hi as ->; by destruct Hl|].
  assert (exists e0, l !! j = Some e0) as [e0 He].
  { apply lookup_lt_is_Some. apply lookup_lt_Some in Hi. lia. }
  exists e0. split; [done|]. by eapply linked_next.
Qed.

Lemma hash_index l i j a b :
  NoDup (map self_hash l) -> l !! i = Some a -> l !! j = Some b -> self_hash a = self_hash b -> i = j.
Proof.
  intros Hd Hi Hj He. eapply (NoDup_lookup _ i j (self_hash a) Hd); rewrite list_lookup_fmap; [by rewrite Hi|].
  by rewrite Hj, He.
Qed.

(** The only child of a row is the next one; the last row has none. *)
Lemma linked_children l i e :
  linked None l -> NoDup (map self_hash l) -> l !! i = Some e ->
  forall x, x ∈ children l (self_hash e) <-> l !! S i = Some x.
Proof.
  intros Hl Hd Hi x. unfold children. rewrite list_elem_of_filter. split.
  - intros [Hp [j Hj]%list_elem_of_lookup]. pose proof (linked_prev _ _ _ Hl Hj) as Hx.
    destruct j as [|j]; [congruence|]. destruct Hx as (e0 & He0 & Hp0).
    rewrite (hash_index _ _ _ _ _ Hd Hi He0) by congruence. done.
  - intros Hx. split; [by eapply linked_next|]. by eapply list_elem_of_lookup_2.
Qed.

(** ** Reports *)

Lemma fail_all_invalid r ids reason : ids <> [] -> cr_valid (fail_all r ids reason) = false.
Proof.
  assert (Hk : forall r, cr_valid r = false -> cr_valid (fail_all r ids reason) = false).
  { unfold fail_all. induction ids as [|i ids IH]; intros r0 Hr; [done|]. by apply IH. }
  destruct ids as [|i ids]; [done|]. intros _. unfold fail_all. simpl. clear Hk.
  assert (Hk : forall r, cr_valid r = false -> cr_valid (foldl (fun r i => fail r i reason) r ids) = false).
  { induction ids as [|j ids IH]; intros r0 Hr; [done|]. by apply IH. }
  by apply Hk.
Qed.

(** Node integrity. *)
Lemma check_nodes_spec reason r events :
  let rb := check_nodes reason r events in
  (cr_valid rb.1 = true -> cr_valid r = true /\ rb.1 = r /\ Forall (fun e => intact e = true) events)
  /\ (cr_valid r = true -> Forall (fun e => intact e = true) events -> rb.1 = r)
  /\ (forall h, h ∈ rb.2 <-> exists e, e ∈ events /\ intact e = true /\ self_hash e = h).
Proof.
  unfold check_nodes. induction events as [|e events IH] using rev_ind; [set_solver|].
  rewrite foldl_app. cbn [foldl]. destruct IH as (IH1 & IH2 & IH3).
  set (rb := foldl _ _ _) in *. unfold check_node. destruct (intact e) eqn:Ei; simpl.
  - split_and!.
    + intros Hv. destruct (IH1 Hv) as (? & ? & ?). split_and!; [done..|]. rewrite Forall_app. by split; [|constructor].
    + intros Hr Hf. apply IH2; [done|]. by apply Forall_app in Hf as [? _].
    + intros h. rewrite elem_of_union, elem_of_singleton, IH3. setoid_rewrite elem_of_app.
      setoid_rewrite list_elem_of_singleton. naive_solver.
  - split_and!; [done| |].
    + intros _ Hf. apply Forall_app in Hf as [_ Hf%Forall_inv]. congruence.
    + intros h. rewrite IH3. setoid_rewrite elem_of_app. setoid_rewrite list_elem_of_singleton. naive_solver congruence.
Qed.

(** ** The walk *)

Lemma children_perm l l' h : l ≡ₚ l' -> children l h ≡ₚ children l' h.
Proof. intros Hp. unfold children. by rewrite Hp. Qed.

Lemma single_of {B} (l : list B) x : NoDup l -> (forall y, y ∈ l <-> y = x) -> l = [x].
Proof.
  intros Hd Hx. apply Permutation_singleton_r. apply NoDup_Permutation; [done|apply NoDup_singleton|].
  intros y. by rewrite Hx, list_elem_of_singleton.
Qed.

Lemma nodup_rows (l : list A) : NoDup (map self_hash l) -> NoDup l.
Proof. apply NoDup_fmap_1. Qed.

(** On the rows of a chain in any order, the walk visits them all. *)
Lemma walk_chain l events by_hash fuel i e :
  linked None l -> NoDup (map self_hash l) -> events ≡ₚ l -> (forall x, x ∈ l -> self_hash x ∈ by_hash) ->
  l !! i = Some e -> (length l - i <= fuel)%nat -> walk events by_hash fuel e i = Some (Done (length l)).
Proof.
  intros Hl Hd Hp Hb. revert i e. induction fuel as [|fuel IH]; intros i e Hi Hf.
  { apply lookup_lt_Some in Hi. lia. }
  simpl. rewrite bool_decide_eq_true_2 by (apply Hb; by eapply list_elem_of_lookup_2). simpl.
  pose proof (linked_children l i e Hl Hd Hi) as Hc. pose proof (children_perm _ _ (self_hash e) Hp) as Hcp.
  destruct (l !! S i) as [e'|] eqn:Ei.
  - rewrite (single_of (children events (self_hash e)) e').
    + apply IH; [done|]. apply lookup_lt_Some in Hi. lia.
    + rewrite Hcp. apply NoDup_filter. by apply nodup_rows.
    + intros y. rewrite Hcp, Hc. naive_solver.
  - destruct (children events (self_hash e)) as [|x xs]; [|exfalso].
    + apply lookup_ge_None in Ei. apply lookup_lt_Some in Hi. do 2 f_equal. lia.
    + assert (Hx : x ∈ children l (self_hash e)) by (rewrite <- Hcp; by left). apply Hc in Hx. done.
Qed.

(** A chain verifies, whatever the order of its rows. *)
Lemma chain_verifies name reason l rows fuel :
  linked None l -> NoDup (map self_hash l) -> rows ≡ₚ l -> (length rows <= fuel)%nat ->
  verify_chain_of fuel name reason rows = Some (mk_report name (length rows) true []).
Proof.
  intros Hl Hd Hp Hf. unfold verify_chain_of.
  pose proof (merge_sort_Permutation at_le rows) as Hs. set (events := merge_sort at_le rows) in *.
  assert (Hel : events ≡ₚ l) by (by rewrite Hs). rewrite <- Hs in Hf |- *.
  assert (Hlen : length events = length l) by (by apply Permutation_length).
  assert (Hall : Forall (fun e => intact e = true) l).
  { clear -Hl. revert Hl. generalize (@None string) as p. induction l as [|x l IH]; intros p Hl; constructor; [apply Hl|].
    eapply IH. apply Hl. }
  assert (Hr : Forall (fun e => intact e = true) events) by (by rewrite Hel).
  destruct events as [|x xs] eqn:Ee; [done|]. rewrite <- Ee in *.
  set (r := mk_report name (length events) true []).
  destruct (check_nodes_spec reason r events) as (_ & Hok & Hset). rewrite (Hok eq_refl Hr).
  unfold verify_links. assert (exists g, l !! 0%nat = Some g) as [g Hg].
  { apply lookup_lt_is_Some. rewrite <- Hlen, Ee. simpl. lia. }
  rewrite (single_of (filter _ events) g).
  - rewrite (walk_chain l events _ fuel 0 g); try done; [by rewrite <- Hlen, Nat.eqb_refl| |by rewrite Hlen, Nat.sub_0_r in *].
    intros y Hy. apply Hset. exists y. rewrite Hel. split_and!; [done| |done]. by eapply Forall_forall in Hall.
  - apply NoDup_filter. rewrite Hel. by apply nodup_rows.
  - intros y. rewrite list_elem_of_filter, Hel. split.
    + intros [Hy [i Hi]%list_elem_of_lookup]. pose proof (linked_prev _ _ _ Hl Hi) as Hpv. destruct i as [|i].
      * congruence.
      * destruct Hpv as (? & _ & ?). congruence.
    + intros ->. split; [by apply (linked_prev l 0 g)|by eapply list_elem_of_lookup_2].
Qed.

(** ** What a finished walk shows *)

(** The rows a finished walk has visited. *)
Inductive walked (events : list A) (by_hash : gset string) : A -> list A -> Prop :=
  | walked_end e : self_hash e ∈ by_hash -> children events (self_hash e) = [] -> walked events by_hash e [e]
  | walked_step e x l :
    self_hash e ∈ by_hash -> children events (self_hash e) = [x] -> walked events by_hash x l ->
    walked events by_hash e (e :: l).

Lemma walk_walked events by_hash f e v n :
  walk events by_hash f e v = Some (Done n) -> exists l, walked events by_hash e l /\ n = (v + length l)%nat.
Proof.
  revert e v. induction f as [|f IH]; intros e v Hw; [done|]. simpl in Hw.
  destruct (bool_decide _) eqn:Eb; simpl in Hw; [|done]. apply bool_decide_eq_true in Eb.
  destruct (children _ _) as [|x [|y ys]] eqn:Ec; [| |done].
  - injection Hw as <-. exists [e]. split; [by constructor|]. simpl. lia.
  - destruct (IH _ _ Hw) as (l & Hl & ->). exists (e :: l). split; [by econstructor|]. simpl. lia.
Qed.

Lemma walked_det events by_hash e l l' : walked events by_hash e l -> walked events by_hash e l' -> l = l'.
Proof.
  intros Hw. revert l'. induction Hw as [e Hb Hc|e x l Hb Hc Hw IH]; intros l' Hw'; inversion Hw'; subst; try congruence.
  f_equal. apply IH. congruence.
Qed.

Lemma walked_head events by_hash e l : walked events by_hash e l -> l !! 0%nat = Some e.
Proof. by inversion 1. Qed.

Lemma walked_drop events by_hash e l i x :
  walked events by_hash e l -> l !! i = Some x -> walked events by_hash x (drop i l).
Proof.
  intros Hw. revert i. induction Hw as [e Hb Hc|e y l Hb Hc Hw IH]; intros [|i] Hi; simplify_eq/=.
  - by constructor.
  - by econstructor.
  - by apply IH.
Qed.

Lemma walked_nodup events by_hash e l : walked events by_hash e l -> NoDup l.
Proof.
  intros Hw. apply NoDup_alt. intros i j x Hi Hj.
  pose proof (walked_det _ _ _ _ _ (walked_drop _ _ _ _ _ _ Hw Hi) (walked_drop _ _ _ _ _ _ Hw Hj)) as Hd.
  apply (f_equal length) in Hd. rewrite !length_drop in Hd. apply lookup_lt_Some in Hi, Hj. lia.
Qed.

Lemma walked_linked events by_hash e l :
  walked events by_hash e l -> e ∈ events -> Forall (fun x => intact x = true) events ->
  linked (prev_hash e) l /\ (forall x, x ∈ l -> x ∈ events).
Proof.
  intros Hw He Hi. rewrite Forall_forall in Hi. induction Hw as [e Hb Hc|e x l Hb Hc Hw IH].
  - simpl. split; [by auto|]. by intros x ->%list_elem_of_singleton.
  - assert (Hx : x ∈ children events (self_hash e)) by (rewrite Hc; by left).
    unfold children in Hx. apply list_elem_of_filter in Hx as [Hp Hx]. destruct (IH Hx) as [Hl Hin]. rewrite Hp in Hl.
    split; [simpl; by auto|]. intros y [->|Hy]%elem_of_cons; [done|by apply Hin].
Qed.

Lemma walk_not_stopped events by_hash f e v :
  (forall x, x ∈ events -> self_hash x ∈ by_hash) -> e ∈ events -> walk events by_hash f e v <> Some Stopped.
Proof.
  intros Hb. revert e v. induction f as [|f IH]; intros e v He; [done|]. simpl.
  rewrite bool_decide_eq_true_2 by by apply Hb. simpl. destruct (children _ _) as [|x [|y ys]] eqn:Ec; [done| |done].
  apply IH. assert (Hx : x ∈ children events (self_hash e)) by (rewrite Ec; by left).
  by apply list_elem_of_filter in Hx as [_ Hx].
Qed.

Lemma walk_forked events by_hash f e v ids : walk events by_hash f e v = Some (Forked ids) -> ids <> [].
Proof.
  revert e v. induction f as [|f IH]; intros e v Hw; [done|]. simpl in Hw. destruct (negb _); [done|].
  destruct (children _ _) as [|x [|y ys]]; [done|by eapply IH|]. by injection Hw as <-.
Qed.

(** A valid report: the rows form one chain. *)
Lemma valid_report name reason rows fuel r :
  verify_chain_of fuel name reason rows = Some r -> cr_valid r = true ->
  exists l, l ≡ₚ rows /\ linked None l.
Proof.
  unfold verify_chain_of. pose proof (merge_sort_Permutation at_le rows) as Hs. set (events := merge_sort at_le rows) in *.
  destruct events as [|x xs] eqn:Ee; [exists []; split; [by rewrite <- Hs|done]|]. rewrite <- Ee in *. clear x xs Ee.
  set (r0 := mk_report _ _ _ _). destruct (check_nodes_spec reason r0 events) as (Hv & _ & Hset).
  set (rb := check_nodes _ _ _) in *. unfold verify_links.
  destruct (filter _ events) as [|g [|g' gs]] eqn:Eg; [by intros [= <-]| |].
  2: { intros He Hr. apply (inj Some) in He. by rewrite <- He, fail_all_invalid in Hr. }
  assert (Hg : g ∈ filter (fun e => prev_hash e = None) events) by (rewrite Eg; by left).
  apply list_elem_of_filter in Hg as [Hgp Hg].
  destruct (walk _ _ _ _ _) as [[|ids|n]|] eqn:Ew; [| | |done].
  - intros [= <-] Hr. destruct (Hv Hr) as (_ & _ & Hi). exfalso. eapply walk_not_stopped; [|exact Hg|exact Ew].
    intros y Hy. apply Hset. exists y. split_and!; [done| |done]. rewrite Forall_forall in Hi. by apply Hi.
  - intros [= <-] Hr. rewrite fail_all_invalid in Hr; [done|by eapply walk_forked].
  - intros [= <-] Hr. destruct (n =? length events)%nat eqn:En; [|done]. apply Nat.eqb_eq in En.
    destruct (Hv Hr) as (_ & _ & Hi). destruct (walk_walked _ _ _ _ _ _ Ew) as (l & Hw & Hn').
    destruct (walked_linked _ _ _ _ Hw Hg Hi) as [Hl Hin]. rewrite Hgp in Hl. exists l. split; [|done].
    rewrite <- Hs. apply submseteq_length_Permutation; [|simpl in Hn'; lia].
    apply NoDup_submseteq; [by eapply walked_nodup|done].
Qed.

(** ** The walk ends when hashes are distinct *)

Lemma walk_ends events by_hash fuel path e v :
  NoDup (map self_hash events) -> NoDup path -> (forall x, x ∈ path -> x ∈ events) ->
  (forall i x, path !! i = Some x ->
     match i with O => prev_hash x = None | S j => exists a, path !! j = Some a /\ prev_hash x = Some (self_hash a) end) ->
  last path = Some e -> (length events < fuel + length path)%nat -> walk events by_hash fuel e v <> None.
Proof.
  intros Hd. revert path e v. induction fuel as [|fuel IH]; intros path e v Hp Hin Hlk Hlast Hf.
  { apply NoDup_submseteq in Hin; [|done]. apply submseteq_length in Hin. simpl in Hf. lia. }
  simpl. destruct (negb _); [done|]. destruct (children _ _) as [|x [|y ys]] eqn:Ec; [done| |done].
  assert (Hx : x ∈ children events (self_hash e)) by (rewrite Ec; by left).
  unfold children in Hx. apply list_elem_of_filter in Hx as [Hxp Hx].
  pose proof Hlast as Hlast'. rewrite last_lookup in Hlast'.
  assert (Hnew : x ∉ path).
  { intros [k Hk]%list_elem_of_lookup. pose proof (Hlk _ _ Hk) as Hlk'. destruct k as [|j]; [congruence|].
    destruct Hlk' as (a & Ha & Hap). assert (a = e) as ->.
    { assert (Hae : a ∈ events) by (by apply Hin; eapply list_elem_of_lookup_2).
      assert (Hee : e ∈ events) by (by apply Hin; eapply list_elem_of_lookup_2).
      apply list_elem_of_lookup in Hae as [i1 H1'], Hee as [i2 H2'].
      assert (i1 = i2) as -> by (eapply (hash_index events); [done..|congruence]). congruence. }
    assert (j = pred (length path)) as -> by (by eapply NoDup_lookup). apply lookup_lt_Some in Hk. lia. }
  apply (IH (path ++ [x])).
  - apply NoDup_app. split; [done|]. split; [|apply NoDup_singleton]. by intros z Hz ->%list_elem_of_singleton.
  - intros z [Hz|Hz%list_elem_of_singleton]%elem_of_app; [by apply Hin|by subst].
  - intros i z [Hi|[Hi Hz]]%lookup_app_Some.
    + pose proof (Hlk _ _ Hi) as Hz. destruct i as [|j]; [done|]. destruct Hz as (a & Ha & Hap). exists a.
      split; [by apply lookup_app_l_Some|done].
    + apply list_lookup_singleton_Some in Hz as [Hz <-]. destruct path as [|p0 path]; [done|]. simpl in Hi, Hz.
      destruct i as [|j]; [lia|]. exists e. split; [|done]. apply lookup_app_l_Some. simpl in Hlast'.
      by replace j with (length path) by lia.
  - apply last_snoc.
  - rewrite length_app. simpl. lia.
Qed.

Lemma verify_ends name reason rows fuel :
  NoDup (map self_hash rows) -> (length rows <= fuel)%nat -> verify_chain_of fuel name reason rows <> None.
Proof.
  intros Hd Hf. unfold verify_chain_of. pose proof (merge_sort_Permutation at_le rows) as Hs.
  set (events := merge_sort at_le rows) in *.
  assert (Hde : NoDup (map self_hash events)) by by rewrite Hs. rewrite <- Hs in Hf.
  destruct events as [|x xs] eqn:Ee; [done|]. rewrite <- Ee in *. clear x xs Ee.
  set (rb := check_nodes _ _ _). unfold verify_links.
  destruct (filter _ events) as [|g [|g' gs]] eqn:Eg; [done| |done].
  assert (Hg : g ∈ filter (fun e => prev_hash e = None) events) by (rewrite Eg; by left).
  apply list_elem_of_filter in Hg as [Hgp Hg].
  pose proof (walk_ends events rb.2 fuel [g] g 0) as Hw.
  destruct (walk events rb.2 fuel g 0) as [[|ids|n]|]; [done..|]. exfalso. apply Hw; try done.
  - apply NoDup_singleton.
  - by intros z ->%list_elem_of_singleton.
  - intros i z [-> <-]%list_lookup_singleton_Some. done.
  - simpl. lia.
Qed.
End chains.
