(* ===== verification/LedgerProperties.v ===== *)
(** * Properties of the audit and PGL ledgers *)

From Stdlib Require Import ZArith Lia Ascii String.
From stdpp Require Import base gmap strings list pretty sorting.
From S2P Require Import Prelude Canon VdbExample PyJson JsonScan Ledger LedgerProofs.

Section audit.
Context `{Ext}.

(** ** The writers keep a chain *)

Lemma newest_elem {A} `{LedgerNode A} (rows : list A) e : newest rows = Some e -> e ∈ rows.
Proof.
  destruct rows as [|x rows]; [done|]. intros [= <-]. revert x. induction rows as [|y rows IH]; intros x; simpl; [set_solver|].
  specialize (IH (newer_row x y)). unfold newer_row in *. destruct (_ <? _)%Z; set_solver.
Qed.

Lemma latest_hash_linked l :
  linked None l -> NoDup (map self_hash l) -> latest_hash l = tip None l.
Proof.
  intros Hl Hd. destruct l as [|e l _] using rev_ind; [done|]. unfold tip. rewrite last_snoc.
  pose proof (linked_children (l ++ [e]) (length l) e Hl Hd) as Hc.
  assert (Hin : e ∈ filter (fun e0 => children (l ++ [e]) (av_log_hash e0) = []) (l ++ [e])).
  { apply list_elem_of_filter. split; [|set_solver].
    destruct (children (l ++ [e]) (av_log_hash e)) as [|x xs] eqn:Ec; [done|exfalso].
    assert (Hx : x ∈ children (l ++ [e]) (av_log_hash e)) by (rewrite Ec; by left).
    apply Hc in Hx; [|by apply list_lookup_middle]. apply lookup_lt_Some in Hx. rewrite length_app in Hx. simpl in Hx. lia. }
  unfold latest_hash. destruct (newest _) as [x|] eqn:En.
  - apply newest_elem, list_elem_of_filter in En as [Hx [i Hi]%list_elem_of_lookup].
    destruct ((l ++ [e]) !! S i) as [y|] eqn:Ey.
    + assert (Hy : y ∈ children (l ++ [e]) (av_log_hash x)) by (by apply (linked_children _ i x Hl Hd Hi)).
      rewrite Hx in Hy. by apply not_elem_of_nil in Hy.
    + apply lookup_ge_None in Ey. rewrite length_app in Ey. simpl in Ey.
      assert (i = length l) as ->. { apply lookup_lt_Some in Hi. rewrite length_app in Hi. simpl in Hi. lia. }
      rewrite list_lookup_middle in Hi by done. by injection Hi as <-.
  - destruct (filter _ (l ++ [e])) as [|z zs]; [by apply not_elem_of_nil in Hin|done].
Qed.

Lemma record_links st op payload ws run id now :
  linked None (as_rows st) -> NoDup (map self_hash (as_rows st)) ->
  linked None (as_rows (record op payload ws run id now st).2).
Proof.
  intros Hl Hd. simpl. apply linked_snoc. split; [done|]. simpl. rewrite latest_hash_linked by done. split; [done|].
  unfold intact. simpl. apply str_eqb_refl.
Qed.

(** One call of [record] with a payload whose numbers are numbers. *)
Definition audit_op (st st' : audit_state) : Prop :=
  exists op payload ws run id now, json_wf payload = true /\ st' = (record op payload ws run id now st).2.

Definition audit0 : audit_state := mk_audit_state [] [].

Lemma audit_steps st :
  steps audit_op audit0 st ->
  (linked None (as_rows st) /\ NoDup (map self_hash (as_rows st)) /\ Forall row_wf (as_rows st)) \/ hex_collision.
Proof.
  intros Hs. remember audit0 as st0 eqn:E0. induction Hs as [s|a b c Hs IH Hop]; subst.
  { left. split_and!; [done|constructor|constructor]. }
  destruct (IH eq_refl) as [(Hl & Hd & Hw)|]; [|by right]. destruct Hop as (op & p & ws & run & id & now & Hp & ->).
  assert (Hl' := record_links b op p ws run id now Hl Hd).
  assert (Hw' : Forall row_wf (as_rows (record op p ws run id now b).2)).
  { simpl. apply Forall_app. split; [done|]. by apply Forall_singleton. }
  destruct (linked_nodup _ Hl' Hw') as [Hd'|]; [left|by right]. by split_and!.
Qed.

(** What is recorded verifies.  After any sequence of [record] calls from
    an empty table the verifier answers, within as many turns as there are
    rows, that the chain of all rows is valid; unless two texts with one
    SHA-256 have been found. *)
Theorem recorded_ledger_verifies st fuel :
  steps audit_op audit0 st -> (length (as_rows st) <= fuel)%nat ->
  verify_audit_chain fuel (as_rows st) = Some (mk_report "audit_events" (length (as_rows st)) true []) \/ hex_collision.
Proof.
  intros Hs Hf. destruct (audit_steps st Hs) as [(Hl & Hd & _)|]; [left|by right].
  by apply (chain_verifies _ _ (as_rows st)).
Qed.

(** ** The verifier *)

(** C39: the ledger is tamper-evident.  A table (of audit events, or the rows
    of a PGL certificate) that the verifier reports valid is, in some order,
    one chain from a genesis row in which every row's hash is that of its
    contents; and of two such tables whose chains end in the same hash the
    contents agree row by row, unless two texts with one SHA-256 have been
    found. *)
Theorem ledger_tamper_evident {A} `{LedgerLaws A} f1 f2 name1 name2 reason1 reason2 (rows1 rows2 : list A) r1 r2 :
  verify_chain_of f1 name1 reason1 rows1 = Some r1 -> cr_valid r1 = true -> Forall row_wf rows1 ->
  verify_chain_of f2 name2 reason2 rows2 = Some r2 -> cr_valid r2 = true -> Forall row_wf rows2 ->
  exists l1 l2, l1 ≡ₚ rows1 /\ linked None l1 /\ l2 ≡ₚ rows2 /\ linked None l2
    /\ (tip None l1 = tip None l2 ->
        map (fun e => py_dumps (content e)) l1 = map (fun e => py_dumps (content e)) l2 \/ hex_collision).
Proof.
  intros V1 R1 W1 V2 R2 W2. destruct (valid_report _ _ _ _ _ V1 R1) as (l1 & P1 & L1).
  destruct (valid_report _ _ _ _ _ V2 R2) as (l2 & P2 & L2). exists l1, l2. split_and!; [done..|].
  intros Ht. apply same_tip; try done; [by rewrite P1|by rewrite P2].
Qed.

(** C40: the verifier terminates on a table whose stored hashes are distinct,
    whatever else was altered: the loop of [_verify_links] takes at most as
    many turns as there are rows. *)
Theorem verification_terminates rows fuel :
  NoDup (map av_log_hash rows) -> (length rows <= fuel)%nat -> exists r, verify_audit_chain fuel rows = Some r.
Proof.
  intros Hd Hf. destruct (verify_audit_chain fuel rows) as [r|] eqn:E; [by exists r|].
  by destruct (verify_ends (Hn:=audit_node) "audit_events" "log_hash does not match recomputed hash" rows fuel Hd Hf).
Qed.

(** The loop on three rows where the last stores the first one's hash. *)
Lemma walk_loops (G A B : AuditEvent) events by_hash fuel v :
  av_log_hash B = av_log_hash G -> av_log_hash G ∈ by_hash -> av_log_hash A ∈ by_hash ->
  children events (av_log_hash G) = [A] -> children events (av_log_hash A) = [B] ->
  walk events by_hash fuel G v = None /\ walk events by_hash fuel A v = None.
Proof.
  intros HB HG HA C1 C2. revert v. induction (lt_wf fuel) as [fuel _ IH]. intros v.
  assert (HWA : walk events by_hash fuel A v = None).
  { destruct fuel as [|fuel]; [done|]. simpl. rewrite bool_decide_eq_true_2 by done. simpl. rewrite C2.
    destruct fuel as [|fuel]; [done|]. simpl. rewrite bool_decide_eq_true_2 by (by rewrite HB). simpl. rewrite HB, C1.
    apply IH. lia. }
  split; [|done]. destruct fuel as [|fuel]; [done|]. simpl. rewrite bool_decide_eq_true_2 by done. simpl. rewrite C1.
  apply (IH fuel). lia.
Qed.

(** A tampered row can make the verifier run forever.  Take an intact
    genesis row G and its intact successor A, and alter a row B that follows
    A so that its stored hash is G's: B's own hash is wrong, but the walk
    checks only that the stored hash is among the verified ones, so from B it
    goes on to A again, and [verify_audit_chain] answers with no amount of
    fuel. *)
Theorem altered_hash_hangs_verifier (G A B : AuditEvent) :
  intact G = true -> intact A = true -> av_previous_log_hash G = None ->
  av_previous_log_hash A = Some (av_log_hash G) -> av_previous_log_hash B = Some (av_log_hash A) ->
  av_log_hash B = av_log_hash G -> av_log_hash A <> av_log_hash G ->
  (av_created_at G < av_created_at A)%Z -> (av_created_at A < av_created_at B)%Z ->
  forall fuel, verify_audit_chain fuel [G; A; B] = None.
Proof.
  intros IG IA PG PA PB HB HA T1 T2 fuel. unfold verify_audit_chain, verify_chain_of.
  assert (Es : merge_sort at_le [G; A; B] = [G; A; B]).
  { unfold merge_sort. simpl. rewrite !decide_True by (unfold at_le; simpl; lia). simpl.
    by rewrite !decide_False by (unfold at_le; simpl; lia). }
  rewrite Es. destruct (check_nodes_spec "log_hash does not match recomputed hash"
    (mk_report "audit_events" (length [G; A; B]) true []) [G; A; B]) as (_ & _ & Hset).
  set (rb := check_nodes _ _ _) in *. unfold verify_links.
  assert (Eg : filter (fun e : AuditEvent => prev_hash e = None) [G; A; B] = [G]).
  { rewrite filter_cons_True by done. rewrite filter_cons_False by (simpl; congruence).
    rewrite filter_cons_False by (simpl; congruence). done. }
  rewrite Eg.
  assert (C1 : children [G; A; B] (av_log_hash G) = [A]).
  { unfold children. rewrite filter_cons_False by (simpl; congruence). rewrite filter_cons_True by done.
    rewrite filter_cons_False by (simpl; congruence). done. }
  assert (C2 : children [G; A; B] (av_log_hash A) = [B]).
  { unfold children. rewrite filter_cons_False by (simpl; congruence). rewrite filter_cons_False by (simpl; congruence).
    rewrite filter_cons_True by done. done. }
  destruct (walk_loops G A B [G; A; B] rb.2 fuel 0 HB) as [HW _]; try done.
  - apply Hset. exists G. set_solver.
  - apply Hset. exists A. set_solver.
  - by rewrite HW.
Qed.

(** ** Concurrent writers *)

(** Two rows of a valid table never share their pointer. *)
Lemma valid_no_fork {A} `{LedgerLaws A} f name reason (rows : list A) r a b :
  verify_chain_of f name reason rows = Some r -> cr_valid r = true -> Forall row_wf rows ->
  a ∈ rows -> b ∈ rows -> prev_hash a = prev_hash b -> a = b \/ hex_collision.
Proof.
  intros V R W Ha Hb Hp. destruct (valid_report _ _ _ _ _ V R) as (l & P & L).
  destruct (linked_nodup l L) as [Hd|]; [by rewrite P|left|by right].
  rewrite <- P in Ha, Hb. apply list_elem_of_lookup in Ha as [i Hi], Hb as [j Hj].
  pose proof (linked_prev _ _ _ L Hi) as Ci. pose proof (linked_prev _ _ _ L Hj) as Cj.
  destruct i as [|i], j as [|j]; [congruence|destruct Cj as (? & _ & ?); congruence|destruct Ci as (? & _ & ?); congruence|].
  destruct Ci as (x & Hx & Px), Cj as (y & Hy & Py).
  rewrite (hash_index l i j x y Hd Hx Hy) in Hi by congruence. congruence.
Qed.

(** Concurrent writers fork the chain.  [record] reads the tail and inserts
    its row without a lock; when two sessions read the same tail, no table
    that holds both rows is reported valid, although nothing was altered. *)
Theorem concurrent_records_fork rows ops1 ops2 ws1 ws2 run1 run2 p1 p2 id1 id2 t1 t2 fuel r :
  let a := audit_row (latest_hash rows) ops1 p1 ws1 run1 id1 t1 in
  let b := audit_row (latest_hash rows) ops2 p2 ws2 run2 id2 t2 in
  id1 <> id2 -> Forall row_wf (rows ++ [a; b]) ->
  verify_audit_chain fuel (rows ++ [a; b]) = Some r -> cr_valid r = false \/ hex_collision.
Proof.
  intros a b Hid Hw Hv. destruct (cr_valid r) eqn:Er; [|by left]. right.
  destruct (valid_no_fork _ _ _ _ _ a b Hv Er Hw) as [Hab|]; [set_solver|set_solver|done| |done].
  exfalso. apply Hid. by injection Hab.
Qed.

(** ** The PGL ledger *)

Definition cert_rows (cid : string) (rows : list PGLLedgerEvent) : list PGLLedgerEvent :=
  filter (fun e => pv_certificate_id e = cid) rows.

(** An append whose clock is later than every row's. *)
Definition pgl_op (rows rows' : list PGLLedgerEvent) : Prop :=
  exists cid ty g p ev id now, match ev with Some e => json_wf e = true | None => True end
    /\ Forall (fun e => (pv_created_at e < now)%Z) rows
    /\ rows' = (append_ledger_event cid ty g p ev id now rows).2.

(** Times increase along the rows. *)
Definition increasing (rows : list PGLLedgerEvent) : Prop :=
  forall i j a b, rows !! i = Some a -> rows !! j = Some b -> (i < j)%nat -> (pv_created_at a < pv_created_at b)%Z.

Lemma newest_last (rows : list PGLLedgerEvent) : increasing rows -> newest rows = last rows.
Proof.
  destruct rows as [|x rows]; [done|]. intros Hi. simpl newest.
  assert (Hf : forall y, increasing (y :: rows) -> Some (foldl newer_row y rows) = last (y :: rows)).
  { clear. induction rows as [|z rows IH]; intros y Hy; [done|]. simpl.
    assert (Hyz : (pv_created_at y < pv_created_at z)%Z) by (by apply (Hy 0 1 y z)%nat; [..|lia]).
    unfold newer_row at 2. simpl. rewrite (proj2 (Z.ltb_lt _ _) Hyz). apply IH.
    intros i j a b Ha Hb Hij. apply (Hy (S i) (S j)); [done|done|lia]. }
  by apply Hf.
Qed.

Lemma increasing_filter rows cid : increasing rows -> increasing (cert_rows cid rows).
Proof.
  induction rows as [|e rows IH] using rev_ind; intros Hi; [done|].
  assert (Hp : increasing rows).
  { intros i j a b Ha Hb. apply Hi; by apply lookup_app_l_Some. }
  unfold cert_rows in *. rewrite filter_app. rewrite filter_cons. case_decide; simpl; [|by rewrite app_nil_r; apply IH].
  intros i j a b Ha Hb Hij. apply lookup_app_Some in Hb as [Hb|[Hl Hb]].
  { assert (Hi' : (i < length (filter (fun e0 => pv_certificate_id e0 = cid) rows))%nat).
    { apply lookup_lt_Some in Hb. lia. }
    rewrite lookup_app_l in Ha by done. by eapply IH. }
  apply list_lookup_singleton_Some in Hb as [Hj <-].
  rewrite lookup_app_l in Ha by lia. apply list_elem_of_lookup_2, list_elem_of_filter in Ha as [_ [k Hk]%list_elem_of_lookup].
  apply (Hi k (length rows)); [by apply lookup_app_l_Some|by apply list_lookup_middle|]. by eapply lookup_lt_Some.
Qed.

Lemma pgl_steps rows :
  steps pgl_op [] rows ->
  (increasing rows /\ forall cid, linked None (cert_rows cid rows) /\ NoDup (map self_hash (cert_rows cid rows))
     /\ Forall row_wf (cert_rows cid rows)) \/ hex_collision.
Proof.
  intros Hs. remember [] as r0 eqn:E0. induction Hs as [s|a b c Hs IH Hop]; subst.
  { left. split; [by intros ? ? ? ? ?|]. intros cid. split_and!; [done|constructor|constructor]. }
  destruct (IH eq_refl) as [[Hinc Hc]|]; [|by right].
  destruct Hop as (cid & ty & g & p & ev & id & now & Hev & Hnow & ->). unfold append_ledger_event. cbn [snd].
  set (e := mk_pgl_event _ _ _ _ _ _ _).
  assert (Hwe : row_wf e) by (simpl; by destruct ev; simpl; rewrite ?Hev).
  assert (Hle : linked None (cert_rows cid b ++ [e])).
  { apply linked_snoc. destruct (Hc cid) as (Hl & _ & _). split; [done|]. split.
    - simpl. fold (cert_rows cid b). rewrite newest_last by (by apply increasing_filter). unfold tip. by destruct (last _).
    - unfold intact. simpl. apply str_eqb_refl. }
  assert (Hwl : Forall row_wf (cert_rows cid b ++ [e])).
  { apply Forall_app. split; [apply Hc|]. by apply Forall_singleton. }
  destruct (linked_nodup _ Hle Hwl) as [Hd|]; [left|by right]. split.
  - intros i j x y Hx Hy Hij. apply lookup_app_Some in Hy as [Hy|[Hy1 [Hy2 <-]%list_lookup_singleton_Some]].
    + apply (Hinc i j); [|done|done]. rewrite lookup_app_l in Hx; [done|]. apply lookup_lt_Some in Hy. lia.
    + apply lookup_app_Some in Hx as [Hx|[Hx1 [Hx2 <-]%list_lookup_singleton_Some]].
      * simpl. rewrite Forall_forall in Hnow. apply Hnow. by eapply list_elem_of_lookup_2.
      * lia.
  - intros cid'. unfold cert_rows in *. rewrite filter_app, filter_cons. case_decide as Hcid; simpl in *.
    + subst cid'. by split_and!.
    + rewrite app_nil_r. apply Hc.
Qed.

(** A certificate's ledger verifies.  When every append of
    [_append_ledger_event] reads a later clock than the rows have, the chain
    of every certificate is reported valid (or a collision has been found). *)
Theorem pgl_ledger_verifies rows cid fuel :
  steps pgl_op [] rows -> (length (cert_rows cid rows) <= fuel)%nat ->
  verify_pgl_chain fuel cid rows = Some (mk_report ("pgl_ledger:" +:+ cid) (length (cert_rows cid rows)) true [])
  \/ hex_collision.
Proof.
  intros Hs Hf. destruct (pgl_steps rows Hs) as [[_ Hc]|]; [left|by right]. destruct (Hc cid) as (Hl & Hd & _).
  by apply (chain_verifies _ _ (cert_rows cid rows)).
Qed.
End audit.

(** ** Witnesses *)

Definition lg1 : audit_state := (record "mount" (JObj [("a", JInt 1)]) None None "l1" 1 audit0).2.
Definition lg2 : audit_state := (record LAW0_VIOLATION (JObj [("b", JNull)]) (Some "ws") None "l2" 2 lg1).2.
Definition lg_bad : AuditEvent :=
  mk_audit_event "l3" "x" None None JNull (av_log_hash <$> last (as_rows lg2)) (default "" (av_log_hash <$> head (as_rows lg2))) 3.

Lemma lg2_steps : steps audit_op audit0 lg2.
Proof.
  apply (steps_snoc audit0 lg1); [apply (steps_snoc audit0 audit0); [apply steps_refl|]|].
  - by exists "mount", (JObj [("a", JInt 1)]), None, None, "l1", 1%Z.
  - by exists LAW0_VIOLATION, (JObj [("b", JNull)]), (Some "ws"), None, "l2", 2%Z.
Qed.

Lemma recorded_ledger_verifies_witness :
  verify_audit_chain 2 (as_rows lg2) = Some (mk_report "audit_events" 2 true []) \/ hex_collision.
Proof. apply (recorded_ledger_verifies lg2 2); [apply lg2_steps|vm_compute; lia]. Defined.

Lemma ledger_tamper_evident_witness :
  exists l1 l2, l1 ≡ₚ as_rows lg2 /\ l2 ≡ₚ as_rows lg1 /\ linked None l1 /\ linked None l2.
Proof.
  destruct (ledger_tamper_evident 2 1 "audit_events" "audit_events" "" "" (as_rows lg2) (as_rows lg1)
              (mk_report "audit_events" 2 true []) (mk_report "audit_events" 1 true []))
    as (l1 & l2 & P1 & L1 & P2 & L2 & _).
  - vm_compute. reflexivity.
  - reflexivity.
  - by repeat constructor.
  - vm_compute. reflexivity.
  - reflexivity.
  - by repeat constructor.
  - by exists l1, l2.
Defined.

Lemma verification_terminates_witness : exists r, verify_audit_chain 2 (as_rows lg2) = Some r.
Proof.
  apply (verification_terminates (as_rows lg2) 2); [|vm_compute; lia].
  apply (bool_decide_unpack _). vm_compute. reflexivity.
Defined.

Lemma altered_hash_hangs_verifier_witness :
  match as_rows lg2 with
  | [g; a] => verify_audit_chain 1000 [g; a; lg_bad] = None
  | _ => False
  end.
Proof.
  change (as_rows lg2) with
    [(record "mount" (JObj [("a", JInt 1)]) None None "l1" 1 audit0).1;
     (record LAW0_VIOLATION (JObj [("b", JNull)]) (Some "ws") None "l2" 2 lg1).1].
  apply altered_hash_hangs_verifier; try (vm_compute; reflexivity). vm_compute. discriminate.
Defined.

Definition pg1 : list PGLLedgerEvent := (append_ledger_event "c1" "minted" "g" "p" None "e1" 1 []).2.
Definition pg2 : list PGLLedgerEvent := (append_ledger_event "c1" "attested" "g" "p" (Some (JBool true)) "e2" 2 pg1).2.

Lemma pgl_ledger_verifies_witness :
  verify_pgl_chain 2 "c1" pg2 = Some (mk_report "pgl_ledger:c1" 2 true []) \/ hex_collision.
Proof.
  apply (pgl_ledger_verifies pg2 "c1" 2); [|vm_compute; lia].
  apply (steps_snoc [] pg1); [apply (steps_snoc [] []); [apply steps_refl|]|].
  - exists "c1", "minted", "g", "p", None, "e1", 1%Z. by repeat constructor.
  - exists "c1", "attested", "g", "p", (Some (JBool true)), "e2", 2%Z. by repeat constructor.
Defined.

