(* ===== verification/Breaker.v ===== *)
(** * The circuit breaker (services/circuit_breaker.py)

    The breaker's fields and methods; each reading of [time_fn] is an
    argument.  Times are integers (the code's floats only meet subtraction
    and comparison). *)

From Stdlib Require Import ZArith Lia String.
From stdpp Require Import base strings list.
From S2P Require Import Prelude.

Local Open Scope Z_scope.

Inductive CircuitState := CLOSED | OPEN | HALF_OPEN.
#[export] Instance CircuitState_eq_dec : EqDecision CircuitState.
Proof. solve_decision. Defined.

Record CircuitBreaker := mk_breaker {
  cb_failure_threshold : Z; cb_recovery_timeout : Z; cb_success_threshold : Z;
  cb_state : CircuitState; cb_failures : Z; cb_successes : Z; cb_opened_at : Z }.

Definition new_breaker (failure_threshold recovery_timeout success_threshold : Z) : CircuitBreaker :=
  mk_breaker failure_threshold recovery_timeout success_threshold CLOSED 0 0 0.

Definition set_breaker (b : CircuitBreaker) (st : CircuitState) (failures successes opened_at : Z) : CircuitBreaker :=
  mk_breaker (cb_failure_threshold b) (cb_recovery_timeout b) (cb_success_threshold b) st failures successes opened_at.

Definition recovery_elapsed (b : CircuitBreaker) (now : Z) : bool := cb_recovery_timeout b <=? now - cb_opened_at b.
Definition open_ (b : CircuitBreaker) (now : Z) : CircuitBreaker := set_breaker b OPEN (cb_failures b) 0 now.
Definition close_ (b : CircuitBreaker) : CircuitBreaker := set_breaker b CLOSED 0 0 (cb_opened_at b).

(** The [state] property, which moves an elapsed OPEN to HALF_OPEN. *)
Definition state (b : CircuitBreaker) (now : Z) : CircuitBreaker :=
  if bool_decide (cb_state b = OPEN) && recovery_elapsed b now
  then set_breaker b HALF_OPEN (cb_failures b) 0 (cb_opened_at b) else b.

Definition is_open (b : CircuitBreaker) (now : Z) : bool * CircuitBreaker :=
  let b' := state b now in (bool_decide (cb_state b' = OPEN), b').
Definition allows_request (b : CircuitBreaker) (now : Z) : bool * CircuitBreaker :=
  let b' := state b now in (negb (bool_decide (cb_state b' = OPEN)), b').

Definition record_success (b : CircuitBreaker) (now : Z) : CircuitBreaker :=
  let b' := state b now in
  if bool_decide (cb_state b' = HALF_OPEN) then
    let b'' := set_breaker b' HALF_OPEN (cb_failures b') (cb_successes b' + 1) (cb_opened_at b') in
    if cb_success_threshold b <=? cb_successes b'' then close_ b'' else b''
  else set_breaker b' (cb_state b') 0 (cb_successes b') (cb_opened_at b').

(** [now] is read by [state], [now'] by [_open]. *)
Definition record_failure (b : CircuitBreaker) (now now' : Z) : CircuitBreaker :=
  let b' := state b now in
  if bool_decide (cb_state b' = HALF_OPEN) then open_ b' now'
  else
    let b'' := set_breaker b' (cb_state b') (cb_failures b' + 1) (cb_successes b') (cb_opened_at b') in
    if cb_failure_threshold b <=? cb_failures b'' then open_ b'' now' else b''.

Inductive call_err (E : Type) := CircuitOpenError | Reraised (e : E).
Arguments CircuitOpenError {E}.
Arguments Reraised {E} _.

(** [call]: the callable runs on the world beside the breaker; [t i] is the
    [i]-th reading of the clock. *)
Definition call {E W A} (fn : eff E W A) (t : nat -> Z) : eff (call_err E) (CircuitBreaker * W) A := fun bw =>
  let a := allows_request bw.1 (t 0%nat) in
  if negb a.1 then Raise CircuitOpenError (a.2, bw.2)
  else match fn bw.2 with
       | Raise e w => Raise (Reraised e) (record_failure a.2 (t 1%nat) (t 2%nat), w)
       | Ret r w => Ret r (record_success a.2 (t 1%nat), w)
       | Crash w => Crash (a.2, w)
       end.

(** ** Properties *)

(** The counters are below their thresholds. *)
Definition breaker_ok (b : CircuitBreaker) : Prop :=
  1 <= cb_failure_threshold b /\ 1 <= cb_success_threshold b /\ 0 <= cb_failures b /\ 0 <= cb_successes b
  /\ match cb_state b with
     | CLOSED => cb_failures b < cb_failure_threshold b
     | OPEN => True
     | HALF_OPEN => cb_successes b < cb_success_threshold b
     end.

Lemma state_ok b now : breaker_ok b -> breaker_ok (state b now).
Proof.
  unfold state, breaker_ok. destruct (bool_decide _ && _); simpl; [lia|done].
Qed.

Lemma record_success_ok b now : breaker_ok b -> breaker_ok (record_success b now).
Proof.
  intros Hb. pose proof (state_ok b now Hb) as Hs. unfold record_success.
  assert (Ht : cb_success_threshold (state b now) = cb_success_threshold b) by (unfold state; by destruct (_ && _)).
  case_bool_decide as Hst; [destruct (_ <=? _) eqn:El|]; unfold breaker_ok in *; simpl in *.
  - lia.
  - apply Z.leb_gt in El. rewrite Hst in Hs. lia.
  - destruct (cb_state (state b now)); lia.
Qed.

Lemma record_failure_ok b now now' : breaker_ok b -> breaker_ok (record_failure b now now').
Proof.
  intros Hb. pose proof (state_ok b now Hb) as Hs. unfold record_failure.
  assert (Ht : cb_failure_threshold (state b now) = cb_failure_threshold b) by (unfold state; by destruct (_ && _)).
  case_bool_decide as Hst; [|destruct (_ <=? _) eqn:El]; unfold breaker_ok in *; simpl in *; [lia|lia|].
  apply Z.leb_gt in El. destruct (cb_state (state b now)); lia.
Qed.

(** A call of any callable, at any clock. *)
Inductive bstep {E W A} : CircuitBreaker * W -> CircuitBreaker * W -> Prop :=
  | bs_call (fn : eff E W A) t bw : bstep bw (oworld (call fn t bw)).

Lemma bstep_ok {E W A} (bw bw' : CircuitBreaker * W) : @bstep E W A bw bw' -> breaker_ok bw.1 -> breaker_ok bw'.1.
Proof.
  intros [fn t bw0] Hb. unfold call. cbn [allows_request fst snd]. destruct (negb _); cbn [oworld fst]; [by apply state_ok|].
  destruct (fn bw0.2); cbn [oworld fst]; [apply record_success_ok|apply record_failure_ok|]; by apply state_ok.
Qed.

(** The breaker fails closed and recovers.  In every breaker that calls have
    produced: while it is open and the recovery timeout has not passed since
    it opened, a call runs nothing and changes nothing; once it has passed a
    call is a probe, whose failure opens the breaker again at that moment
    and whose success counts towards closing it; and in the closed state the
    failure that reaches the threshold opens it. *)
Theorem breaker_contract {E W A} ft rt sth w0 (b : CircuitBreaker) (w : W) (fn : eff E W A) t :
  1 <= ft -> 1 <= sth -> steps (@bstep E W A) (new_breaker ft rt sth, w0) (b, w) ->
  breaker_ok b
  /\ (cb_state b = OPEN -> t 0%nat - cb_opened_at b < rt -> call fn t (b, w) = Raise CircuitOpenError (b, w))
  /\ (cb_state b = OPEN -> rt <= t 0%nat - cb_opened_at b -> forall e w', fn w = Raise e w' ->
        exists b', call fn t (b, w) = Raise (Reraised e) (b', w') /\ cb_state b' = OPEN /\ cb_opened_at b' = t 2%nat)
  /\ (cb_state b = OPEN -> rt <= t 0%nat - cb_opened_at b -> forall r w', fn w = Ret r w' ->
        exists b', call fn t (b, w) = Ret r (b', w') /\ cb_state b' = (if sth <=? 1 then CLOSED else HALF_OPEN))
  /\ (cb_state b = CLOSED -> forall e w', fn w = Raise e w' ->
        exists b', call fn t (b, w) = Raise (Reraised e) (b', w')
          /\ cb_state b' = (if ft <=? cb_failures b + 1 then OPEN else CLOSED)).
Proof.
  intros Hft Hst Hs.
  assert (Hok : breaker_ok b /\ cb_failure_threshold b = ft /\ cb_recovery_timeout b = rt /\ cb_success_threshold b = sth).
  { change b with (b, w).1. revert Hs. generalize (b, w) as bw. intros bw Hs.
    remember (new_breaker ft rt sth, w0) as bw0 eqn:E0. induction Hs as [s|s1 s2 s3 Hs IH Hop]; subst.
    { unfold breaker_ok. simpl. lia. }
    destruct (IH eq_refl) as (H1 & H2 & H3 & H4). split; [by eapply bstep_ok|].
    destruct Hop as [fn0 t0 bw1]. unfold call, allows_request, record_success, record_failure, state, open_, close_.
    repeat case_match; simpl in *; try done. }
  destruct Hok as (Hok & <- & <- & <-). split; [done|].
  assert (Hopen : forall now, cb_state b = OPEN -> recovery_elapsed b now = true ->
    state b now = set_breaker b HALF_OPEN (cb_failures b) 0 (cb_opened_at b)).
  { intros now Ho He. unfold state. rewrite Ho, He. done. }
  split_and!.
  - intros Ho Hn. unfold call, allows_request, state. simpl.
    rewrite Ho. unfold recovery_elapsed. rewrite (proj2 (Z.leb_gt _ _)) by lia. simpl. rewrite Ho. done.
  - intros Ho He e w' Hf. unfold call, allows_request. cbn [fst snd]. rewrite Hopen by (try done; unfold recovery_elapsed; by apply Z.leb_le).
    simpl. rewrite Hf. eexists. split; [reflexivity|]. unfold record_failure, state. simpl. done.
  - intros Ho He r w' Hf. unfold call, allows_request. cbn [fst snd]. rewrite Hopen by (try done; unfold recovery_elapsed; by apply Z.leb_le).
    simpl. rewrite Hf. eexists. split; [reflexivity|]. unfold record_success, state. simpl. change (0 + 1) with 1. by destruct (_ <=? 1).
  - intros Hc e w' Hf. unfold call, allows_request, state. cbn [fst snd]. rewrite Hc. simpl. rewrite Hc. simpl. rewrite Hf.
    eexists. split; [reflexivity|]. unfold record_failure, state. rewrite Hc. simpl. rewrite Hc. simpl.
    by destruct (_ <=? _); simpl; rewrite ?Hc.
Qed.

(** A breaker that two failures have opened. *)
Definition br_fail : eff string nat nat := fun n => Raise "down" (S n).
Definition br_clock (now : Z) (i : nat) : Z := now.
Definition br1 : CircuitBreaker * nat := oworld (call br_fail (br_clock 1) (new_breaker 2 30 1, 0%nat)).
Definition br2 : CircuitBreaker * nat := oworld (call br_fail (br_clock 2) br1).

Lemma breaker_contract_witness :
  cb_state br2.1 = OPEN /\ call br_fail (br_clock 31) br2 = Raise CircuitOpenError br2.
Proof.
  split; [reflexivity|].
  destruct (breaker_contract (A:=nat) 2 30 1 0%nat br2.1 br2.2 br_fail (br_clock 31)) as (_ & Hc & _).
  - lia.
  - lia.
  - apply (steps_snoc _ br1); [apply (steps_snoc _ (new_breaker 2 30 1, 0%nat)); [apply steps_refl|]|].
    + apply (bs_call br_fail (br_clock 1)).
    + apply (bs_call br_fail (br_clock 2) br1).
  - apply Hc; [reflexivity|]. vm_compute. reflexivity.
Defined.
