(* ===== verification/Counter.v ===== *)
(** * The governed counter target (capability_mount/effects.py)

    [GovernedCounterAdapter]: its sqlite table keyed by workspace, project
    and resource, its in-memory counters, [dispatch] and [read_state].  The
    [with] block is one transaction; database errors are left out. *)

From Stdlib Require Import ZArith Lia Ascii String.
From stdpp Require Import base gmap strings list.
From S2P Require Import Prelude Canon VdbExample PyJson Verify MountModels Lease Biscuit Consequence Mounts Permits Engine Registry Execute.

Local Open Scope Z_scope.

Record counters := mk_counters {
  ct_rows : gmap (string * string * string) (Z * Z);
  ct_invocation_count : Z; ct_invocations_by_action : gmap string Z }.

Definition counter_actions : list string := ["counter.read"; "counter.increment"; "counter.reset"].

Definition key_of (cx : ConsequenceContext) : string * string * string := (cx_workspace cx, cx_project cx, cx_resource cx).

Section counter.
Context `{Ext}.

(** The identity checks that [dispatch] and [read_state] share. *)
Definition check_context (cx : ConsequenceContext) : option cerr :=
  if negb (valid_resource (cx_resource cx)) then Some (ValueErrorM "invalid_target_resource")
  else if str_eqb (cx_workspace cx) "" then Some (ValueErrorM "missing_workspace_identity")
  else if str_eqb (cx_project cx) "" then Some (ValueErrorM "missing_project_scope")
  else None.

Definition read_state (cx : ConsequenceContext) : eff cerr counters json := fun st =>
  match check_context cx with
  | Some e => Raise e st
  | None =>
    let row := default (0, 0) (ct_rows st !! key_of cx) in
    Ret (JObj [("resource", JStr (cx_resource cx)); ("value", JInt row.1); ("version", JInt row.2)]) st
  end.

Definition count_call (cx : ConsequenceContext) (st : counters) : counters :=
  mk_counters (ct_rows st) (ct_invocation_count st + 1)
    (<[cx_action cx := default 0 (ct_invocations_by_action st !! cx_action cx) + 1]> (ct_invocations_by_action st)).

Definition set_row (cx : ConsequenceContext) (vv : Z * Z) (st : counters) : counters :=
  mk_counters (<[key_of cx := vv]> (ct_rows st)) (ct_invocation_count st) (ct_invocations_by_action st).

(** ["delta" in arguments and arguments["delta"] != 1]. *)
Definition bad_delta (cx : ConsequenceContext) : bool :=
  match assoc "delta" (cx_arguments cx) with Some v => negb (py_eqb v (JInt 1)) | None => false end.

Definition dispatch (cx : ConsequenceContext) : eff cerr counters json := fun st0 =>
  let st := count_call cx st0 in
  match check_context cx with
  | Some e => Raise e st
  | None =>
    if str_eqb (cx_action cx) "counter.read" then read_state cx st
    else if bad_delta cx then Raise (ValueErrorM "invalid_counter_delta") st
    else
      (* INSERT OR IGNORE, then the update *)
      let row := default (0, 0) (ct_rows st !! key_of cx) in
      if str_eqb (cx_action cx) "counter.increment" then
        Ret (JObj [("resource", JStr (cx_resource cx)); ("previous_value", JInt row.1); ("value", JInt (row.1 + 1));
                   ("version", JInt (row.2 + 1))]) (set_row cx (row.1 + 1, row.2 + 1) st)
      else if str_eqb (cx_action cx) "counter.reset" then
        Ret (JObj [("resource", JStr (cx_resource cx)); ("value", JInt 0); ("version", JInt (row.2 + 1))])
          (set_row cx (0, row.2 + 1) st)
      else Raise (ValueErrorM "target_not_mapped") (set_row cx row st)
  end.

(** ** Properties *)

(** A mutation of counter [k] that the target accepts. *)
Definition accepted (k : string * string * string) (cx : ConsequenceContext) : bool :=
  bool_decide (check_context cx = None) && negb (bad_delta cx) && bool_decide (key_of cx = k)
  && (str_eqb (cx_action cx) "counter.increment" || str_eqb (cx_action cx) "counter.reset").

(** The reference: the increments of [k] since its last reset, and the
    mutations of [k], in a history. *)
Definition tally1 (k : string * string * string) (vv : Z * Z) (cx : ConsequenceContext) : Z * Z :=
  if accepted k cx then
    if str_eqb (cx_action cx) "counter.increment" then (vv.1 + 1, vv.2 + 1) else (0, vv.2 + 1)
  else vv.
Definition tally (k : string * string * string) (cxs : list ConsequenceContext) : Z * Z := foldl (tally1 k) (0, 0) cxs.

Definition run (cxs : list ConsequenceContext) (st : counters) : counters :=
  foldl (fun st cx => oworld (dispatch cx st)) st cxs.
Definition no_counters : counters := mk_counters ∅ 0 ∅.

Lemma dispatch_row k cx st :
  default (0, 0) (ct_rows (oworld (dispatch cx st)) !! k) = tally1 k (default (0, 0) (ct_rows st !! k)) cx.
Proof.
  unfold tally1, accepted, dispatch. destruct (check_context cx) as [e|] eqn:Ec; [by simpl|]. simpl.
  destruct (str_eqb (cx_action cx) "counter.read") eqn:Er.
  { apply str_eqb_spec in Er. rewrite Er. unfold read_state. rewrite Ec. simpl. by rewrite andb_false_r. }
  destruct (bad_delta cx); simpl; [done|].
  assert (Hk : forall vv, default (0, 0) (ct_rows (set_row cx vv (count_call cx st)) !! k)
    = if bool_decide (key_of cx = k) then vv else default (0, 0) (ct_rows st !! k)).
  { intros vv. simpl. case_bool_decide as Hk; [by rewrite Hk, lookup_insert_eq|by rewrite lookup_insert_ne]. }
  destruct (str_eqb (cx_action cx) "counter.increment") eqn:Ei.
  { cbn [oworld]. rewrite Hk. case_bool_decide as Hke; [subst k|]; done. }
  destruct (str_eqb (cx_action cx) "counter.reset"); cbn [oworld]; rewrite Hk; case_bool_decide as Hke; [subst k|..]; try done.
  by subst k.
Qed.

(** The counter counts.  After any history of dispatches, in every
    workspace, project and resource, the stored value is the number of
    accepted increments of that counter since its last accepted reset and the
    version the number of its accepted mutations: nothing dispatched under
    another key, refused, or read has any effect.  An accepted increment
    answers with the value and version before it plus one, and every
    dispatch, accepted or not, is counted as an invocation. *)
Theorem counter_counts k cxs :
  let st := run cxs no_counters in
  default (0, 0) (ct_rows st !! k) = tally k cxs
  /\ ct_invocation_count st = Z.of_nat (length cxs)
  /\ forall cx, key_of cx = k -> accepted k cx = true -> cx_action cx = "counter.increment" ->
       exists st', dispatch cx st = Ret (JObj [("resource", JStr (cx_resource cx)); ("previous_value", JInt (tally k cxs).1);
                                          ("value", JInt ((tally k cxs).1 + 1)); ("version", JInt ((tally k cxs).2 + 1))]) st'.
Proof.
  intros st.
  assert (Hr : default (0, 0) (ct_rows st !! k) = tally k cxs).
  { subst st. unfold run, tally. induction cxs as [|cx cxs IH] using rev_ind; [done|].
    rewrite !foldl_app. cbn [foldl]. by rewrite dispatch_row, IH. }
  split_and!; [done| |].
  - subst st. unfold run. clear Hr. induction cxs as [|cx cxs IH] using rev_ind; [done|].
    rewrite foldl_app, length_app. cbn [foldl length]. set (s := foldl _ _ _) in *.
    assert (Hc : ct_invocation_count (oworld (dispatch cx s)) = ct_invocation_count s + 1).
    { unfold dispatch, read_state. repeat case_match; done. }
    rewrite Hc, IH. lia.
  - intros cx Hk Ha Hi. unfold dispatch. unfold accepted in Ha.
    apply andb_true_iff in Ha as [[[Hc Hd]%andb_true_iff _]%andb_true_iff _].
    apply bool_decide_eq_true in Hc. rewrite Hc, Hi. simpl. apply negb_true_iff in Hd. rewrite Hd.
    subst k. rewrite <- Hr. by eexists.
Qed.
End counter.

Definition ct_context (project : string) : ConsequenceContext :=
  mk_context "counter.increment" "counter" [("delta", JInt 1)] "op" "ws-1" project None.

Lemma counter_counts_witness :
  exists st', dispatch (ct_context "live") (run [ct_context "live"; ct_context "sandbox"; ct_context "live"] no_counters)
    = Ret (JObj [("resource", JStr "counter"); ("previous_value", JInt 2); ("value", JInt 3); ("version", JInt 3)]) st'.
Proof.
  destruct (counter_counts ("ws-1", "live", "counter") [ct_context "live"; ct_context "sandbox"; ct_context "live"])
    as (_ & _ & Hc).
  destruct (Hc (ct_context "live")) as [st' E]; [reflexivity|vm_compute; reflexivity|reflexivity|].
  exists st'. exact E.
Defined.
