(* ===== verification/Identity.v ===== *)
(** * Execution identities and the gateway that enforces them

    services/ei_builder.py ([ExecutionIdentityBuilder]), the Ed25519 helpers of
    services/canonical.py, and the validation of security/mcp_gateway.py (the
    last [MCPGateway] of the module, the one its importers get).  An identity
    is a dict of JSON values.  Directives, tiers and tools are ASCII text;
    where the code computes with a value that is not of the type every caller
    gives it (a tools list, an integer budget), the model takes the path of the
    TypeError that other values would raise.  The last part shows that what
    [sign_payload_ed25519] produces [verify_signature_ed25519] accepts. *)

From Stdlib Require Import ZArith Lia Ascii String.
From stdpp Require Import base gmap strings list.
From S2P Require Import Prelude Canon PyJson.

Definition dict : Type := list (string * json).

(** ** Python on strings and values *)

(** [str.isspace] on ASCII. *)
Definition is_space (c : ascii) : bool :=
  let n := nat_of_ascii c in ((9 <=? n)%nat && (n <=? 13)%nat) || ((28 <=? n)%nat && (n <=? 32)%nat).
Fixpoint lstrip (l : list ascii) : list ascii :=
  match l with c :: r => if is_space c then lstrip r else l | [] => [] end.
Definition strip (s : string) : string :=
  string_of_list_ascii (rev (lstrip (rev (lstrip (chars s))))).

Definition upper_char (c : ascii) : ascii :=
  let n := nat_of_ascii c in if (97 <=? n)%nat && (n <=? 122)%nat then ascii_of_nat (n - 32) else c.
Definition lower_char (c : ascii) : ascii :=
  let n := nat_of_ascii c in if (65 <=? n)%nat && (n <=? 90)%nat then ascii_of_nat (n + 32) else c.
Definition upper (s : string) : string := string_of_list_ascii (map upper_char (chars s)).
Definition lower (s : string) : string := string_of_list_ascii (map lower_char (chars s)).

(** [s.split(".")[0]]. *)
Fixpoint until_dot (l : list ascii) : list ascii :=
  match l with c :: r => if Ascii.eqb c "." then [] else c :: until_dot r | [] => [] end.
Definition head_of (s : string) : string := string_of_list_ascii (until_dot (chars s)).

(** [s.split(":")[0]]. *)
Fixpoint until_colon (l : list ascii) : list ascii :=
  match l with c :: r => if Ascii.eqb c ":" then [] else c :: until_colon r | [] => [] end.
Definition scope_head (s : string) : string := string_of_list_ascii (until_colon (chars s)).

(** [s.replace("Z", "+00:00")]. *)
Definition replace_Z (s : string) : string :=
  string_of_list_ascii (concat (map (fun c => if Ascii.eqb c "Z" then chars "+00:00" else [c]) (chars s))).

(** What building and checking an identity raises. *)
Inductive ei_err :=
  | EIValidationError (detail : string)
  | MissingEIInputError (missing : list string)
  | EiTypeError.

(** ** The Ed25519 helpers of canonical.py

    - [seed_key]: [get_ed25519_private_key(seed)], a key from the SHA-256 of the
      seed;
    - [spki_public]: the raw public key of a Base64 SPKI text, if it is one;
    - [iso]: [datetime.isoformat()] in UTC, on microseconds. *)
Class EiWorld `{Ext} := {
  seed_key : string -> privkey;
  spki_public : string -> option string;
  iso : Z -> string }.

(** What hashlib, the cryptography package and datetime promise: a digest is
    not empty, signatures are of 64 bytes and verify under their key, a printed
    time is not empty and parses back. *)
Class EiLaws `{EiWorld} := {
  sha256_hex_nonempty : forall m, sha256_hex m <> "";
  ed_sign_length : forall sk m, String.length (ed_sign sk m) = 64%nat;
  ed_sign_verifies : forall sk m, ed_verify (ed_public_raw sk) (ed_sign sk m) m = true;
  iso_nonempty : forall t, iso t <> "";
  iso_parses : forall t, fromisoformat (iso t) = Some t;
  iso_plain : forall t, replace_Z (iso t) = iso t }.

Section identity.
Context `{EiWorld}.

(** [bool(v)]. *)
Definition truthy (j : json) : bool :=
  match j with
  | JNull => false
  | JBool b => b
  | JInt z => negb (z =? 0)%Z
  | JFloat l => negb (float_is l 0)
  | JStr s => negb (str_eqb s "")
  | JArr l => match l with [] => false | _ => true end
  | JObj m => match m with [] => false | _ => true end
  end.

(** [d.get(k)], [d.get(k, default)] and [a or b]. *)
Definition dget (d : dict) (k : string) : json := default JNull (assoc k d).
Definition dget_or (d : dict) (k : string) (v : json) : json := default v (assoc k d).
Definition py_or (a b : json) : json := if truthy a then a else b.

Definition sign_payload_ed25519 (payload : dict) (seed : string) : string :=
  b64u (ed_sign (seed_key seed) (canonical_json payload)).

Definition public_key_from_config (value : string) : string :=
  match spki_public value with Some pub => pub | None => ed_public_raw (seed_key value) end.

(** The signature padded to a multiple of four, and
    [base64.b64decode(padded, altchars=b"-_", validate=True)]: both alphabets,
    padding only at the end and at most two. *)
Definition std_char (c : ascii) : ascii :=
  if Ascii.eqb c "+" then "-"%char else if Ascii.eqb c "/" then "_"%char else c.
Fixpoint drop_pads (l : list ascii) : list ascii :=
  match l with c :: r => if Ascii.eqb c "=" then drop_pads r else l | [] => [] end.
Definition unpad (l : list ascii) : option (list ascii) :=
  let padded := l ++ repeat "="%char ((4 - length l mod 4) mod 4) in
  let data := rev (drop_pads (rev padded)) in
  if (length padded - length data <=? 2)%nat then Some data else None.
Definition b64decode_strict (text : string) : option string :=
  match unpad (chars text) with
  | None => None
  | Some l => match mapM (fun c => b64_val (std_char c)) l with
              | None => None
              | Some vs => string_of_list_ascii <$> b64_decode_vals vs
              end
  end.

Definition verify_signature_ed25519 (payload : dict) (signature : json) (key : string) : bool :=
  match signature with
  | JStr s =>
    negb (str_eqb s "") &&
    match b64decode_strict s with
    | None => false
    | Some sig => (String.length sig =? 64)%nat
                  && ed_verify (public_key_from_config key) sig (canonical_json payload)
    end
  | _ => false
  end.

(** ** The builder *)

Definition canonical_body (identity : dict) : dict :=
  filter (fun kv => kv.1 <> "hash" /\ kv.1 <> "signature") identity.

Definition legacy_required : list string :=
  ["pgl_pre_certificate_id"; "genome_hash"; "constitution_hash"; "plan_hash"; "directive"; "risk_tier"; "scope"; "issuer"].
Definition REQUIRED_INPUTS : list string :=
  ["subject"; "tenant_id"; "run_id"; "capabilities"; "authority_bundle_hash"; "policy_hash"; "pgl_certificate_id";
   "delegation"; "budget"; "execution_mode"].

Definition is_legacy (inputs : dict) : bool :=
  truthy (dget inputs "_is_legacy") || existsb (fun k => bool_decide (is_Some (assoc k inputs))) legacy_required.

Definition missing_inputs (inputs : dict) : list string :=
  filter (fun k => truthy (dget inputs k) = false) (if is_legacy inputs then legacy_required else REQUIRED_INPUTS).

(** [int(v or d)] of an integer input. *)
Definition int_or (v : json) (d : Z) : res ei_err Z :=
  if truthy v then match v with JInt z => Ok z | JBool b => Ok (Z.b2z b) | _ => Err EiTypeError end else Ok d.

(** The dict assembled from legacy inputs; [id] is the drawn uuid and the
    times are [issued_at] and the printed [expires_at]. *)
Definition legacy_identity (inputs : dict) (id : string) (ttl approved reserve depth : Z)
    (issued expires : string) : dict :=
  let i := dget inputs in
  let execution_id := py_or (i "execution_id") (JStr id) in
  [("execution_id", execution_id);
   ("pgl_pre_certificate_id", i "pgl_pre_certificate_id");
   ("pgl_post_certificate_id", i "pgl_post_certificate_id");
   ("genome_hash", i "genome_hash");
   ("constitution_hash", i "constitution_hash");
   ("plan_hash", i "plan_hash");
   ("tool_manifest_hash", i "tool_manifest_hash");
   ("delegation_chain_hash", i "delegation_chain_hash");
   ("input_hash", i "input_hash");
   ("seked_attestation_hash", i "seked_attestation_hash");
   ("directive", i "directive");
   ("risk_tier", i "risk_tier");
   ("budget_approved_cents", JInt approved);
   ("budget_reserve_cents", JInt reserve);
   ("delegation_depth", JInt depth);
   ("ttl_seconds", JInt ttl);
   ("expires_at", JStr expires);
   ("scope", i "scope");
   ("human_attestation_hash", i "human_attestation_hash");
   ("ai_attestation_hash", i "ai_attestation_hash");
   ("execution_attestation_hash", i "execution_attestation_hash");
   ("issuer", i "issuer");
   ("issued_at", JStr issued);
   ("ei_id", execution_id);
   ("subject", py_or (i "subject") (i "issuer"));
   ("tenant_id", py_or (i "tenant_id") (JStr "default"));
   ("run_id", execution_id);
   ("capabilities", py_or (i "capabilities") (JArr []));
   ("pgl_certificate_id", i "pgl_pre_certificate_id");
   ("delegation", py_or (i "delegation") (JArr []));
   ("budget", py_or (i "budget") (JObj [("approved_cents", JInt approved)]));
   ("authority_bundle_hash", py_or (i "authority_bundle_hash") (i "constitution_hash"));
   ("policy_hash", py_or (i "policy_hash") (i "plan_hash"))].

Definition modern_identity (inputs : dict) (id issued expires : string) : dict :=
  let i := dget inputs in
  let ei_id := py_or (i "ei_id") (py_or (i "execution_id") (JStr id)) in
  [("ei_id", ei_id);
   ("subject", i "subject");
   ("tenant_id", i "tenant_id");
   ("run_id", i "run_id");
   ("capabilities", i "capabilities");
   ("issued_at", JStr issued);
   ("expires_at", JStr expires);
   ("authority_bundle_hash", i "authority_bundle_hash");
   ("policy_hash", i "policy_hash");
   ("pgl_certificate_id", i "pgl_certificate_id");
   ("delegation", i "delegation");
   ("budget", i "budget");
   ("execution_mode", dget_or inputs "execution_mode" (JStr "live"))]
  ++ match assoc "agent" inputs with Some a => [("agent", a)] | None => [] end
  ++ [("execution_id", ei_id); ("pgl_pre_certificate_id", i "pgl_certificate_id")]
  ++ (if truthy (i "directive") then [("directive", i "directive")] else [])
  ++ [("risk_tier", py_or (i "risk_tier") (JStr "standard"))].

Definition finalize_and_sign (seed : string) (identity : dict) : dict :=
  let hashed := identity ++ [("hash", JStr (sha256_json (JObj (canonical_body identity))))] in
  hashed ++ [("signature", JStr (sign_payload_ed25519 (canonical_body hashed) seed))].

(** [build] at time [now] with the default [ttl] of 300 seconds; the inputs
    carry no [issued_at] or [expires_at] of their own. *)
Definition build (seed : string) (now : Z) (id : string) (inputs : dict) : res ei_err dict :=
  match missing_inputs inputs with
  | [] =>
    let? ttl := int_or (dget inputs "ttl_seconds") 300 in
    let expires := iso (now + ttl * 1000000)%Z in
    let? identity :=
      if is_legacy inputs then
        let? approved := int_or (dget inputs "budget_approved_cents") 0 in
        let? reserve := int_or (dget inputs "budget_reserve_cents") 0 in
        let? depth := int_or (dget inputs "delegation_depth") 0 in
        Ok (legacy_identity inputs id ttl approved reserve depth (iso now) expires)
      else Ok (modern_identity inputs id (iso now) expires) in
    Ok (finalize_and_sign seed
          (identity ++ match assoc "runtime_ownership" inputs with Some o => [("runtime_ownership", o)] | None => [] end))
  | missing => Err (MissingEIInputError missing)
  end.

(** ** The gateway *)

(** What the gateway reads of a certificate row. *)
Record cert_view := mk_cert_view {
  cv_persisted : bool; cv_genome_hash : string; cv_constitution_hash : string; cv_plan_hash : string }.

Definition is_str (j : json) (s : string) : bool := match j with JStr t => str_eqb t s | _ => false end.

Definition as_dict (j : json) : res ei_err dict := match j with JObj m => Ok m | _ => Err EiTypeError end.
Definition as_int (j : json) : res ei_err Z :=
  match j with JInt z => Ok z | JBool b => Ok (Z.b2z b) | _ => Err EiTypeError end.
Definition invalid_if (c : bool) (detail : string) : res ei_err unit := raise_if c (EIValidationError detail).

(** Rule 1: the certificate the identity names. *)
Definition find_certificate (lookup : json -> option cert_view) (ei : dict) : res ei_err cert_view :=
  let cert_id := py_or (dget ei "pre_execution_certificate_id") (dget ei "pgl_pre_certificate_id") in
  do? invalid_if (negb (truthy cert_id)) "pgl pre-cert reference missing" in
  match lookup cert_id with Some c => Ok c | None => Err (EIValidationError "pgl pre-cert not found") end.

(** Rules 1 and 2 on the certificate. *)
Definition check_certificate (ei : dict) (cert : cert_view) : res ei_err unit :=
  do? invalid_if (negb (cv_persisted cert)) "pgl pre-cert not persisted" in
  do? invalid_if (negb (is_str (dget ei "genome_hash") (cv_genome_hash cert))) "genome_hash mismatch" in
  do? invalid_if (negb (is_str (dget ei "constitution_hash") (cv_constitution_hash cert))) "constitution_hash mismatch" in
  invalid_if (negb (is_str (dget ei "plan_hash") (cv_plan_hash cert))) "plan_hash mismatch".

(** Rule 3; [seked_directive] is read only when there is no directive. *)
Definition check_directive (ei : dict) : res ei_err unit :=
  let? directive :=
    if truthy (dget ei "directive") then Ok (dget ei "directive")
    else let? seked := as_dict (dget_or ei "seked_directive" (JObj [])) in Ok (dget seked "decision") in
  invalid_if (negb (is_str directive "ALLOW" || is_str directive "ALLOW_WITH_AUDIT")) "directive does not permit execution".

(** Rule 4. *)
Definition check_ttl (now : Z) (ei : dict) : res ei_err unit :=
  let expires_at := dget ei "expires_at" in
  if truthy expires_at then
    match expires_at with
    | JStr s => match fromisoformat (replace_Z s) with
                | Some t => invalid_if (t <? now)%Z "ttl expired"
                | None => Err EiTypeError
                end
    | _ => Err EiTypeError
    end
  else Ok tt.

(** Rule 5. *)
Definition tool_heads (tools : list json) : list string :=
  omap (fun t => match t with JStr s => Some (head_of s) | _ => None end) tools.
Definition check_scope (action : string) (ei : dict) : res ei_err unit :=
  match dget ei "scope" with
  | JObj m =>
    if str_eqb action "unknown" then Ok tt
    else match py_or (dget m "tools") (JArr []) with
         | JArr tools =>
           invalid_if (truthy (JArr tools) && negb (existsb (fun t => is_str t action) tools)
                       && negb (bool_decide (head_of action ∈ tool_heads tools)))
             "scope does not cover requested action"
         | _ => Err EiTypeError
         end
  | JStr scope =>
    invalid_if (negb (str_eqb scope action) && negb (str_eqb action "unknown")
                && negb (String.prefix (scope_head scope) action)) "scope does not cover requested action"
  | _ => Ok tt
  end.

(** Rule 6. *)
Definition check_budget (cost : Z) (ei : dict) : res ei_err unit :=
  let? budget := as_dict (dget_or ei "budget" (JObj [])) in
  let? remaining := as_int (dget_or budget "remaining" (JInt 1)) in
  do? invalid_if (remaining <=? 0)%Z "budget exceeded" in
  let approved := py_or (dget ei "budget_approved_cents") (py_or (dget budget "approved_cents")
                    (py_or (dget budget "limit_cents") (JInt 0))) in
  if truthy approved then let? a := as_int approved in invalid_if (a <? cost)%Z "budget exceeded" else Ok tt.

(** Rule 7. *)
Definition check_depth (ei : dict) : res ei_err unit :=
  let? seked := as_dict (dget_or ei "seked_directive" (JObj [])) in
  let? depth := as_int (dget_or ei "delegation_depth" (JInt 0)) in
  let? max_depth := as_int (dget_or seked "max_delegation_depth" (JInt 5)) in
  invalid_if (max_depth <? depth)%Z "delegation depth exceeded".

(** Rule 8. *)
Definition check_revoked (revoked : json -> bool) (ei : dict) : res ei_err unit :=
  do? invalid_if (truthy (dget ei "revoked")) "execution identity revoked" in
  invalid_if (revoked (dget_or ei "execution_id" (JStr ""))) "execution identity revoked".

(** Rule 9. *)
Definition check_integrity (key : string) (ei : dict) : res ei_err unit :=
  let body := canonical_body ei in
  do? invalid_if (negb (truthy (dget ei "hash") && is_str (dget ei "hash") (sha256_json (JObj body))))
        "hash verification failed" in
  invalid_if (negb (verify_signature_ed25519 body (dget_or ei "signature" (JStr "")) key)) "signature verification failed".

(** [_validate_execution_identity] with a certificate lookup and a revocation
    lookup; [key] is [settings.ei_signing_key]. *)
Definition validate_execution_identity (lookup : json -> option cert_view) (revoked : json -> bool) (key : string)
    (now : Z) (ei : option dict) (action : string) (cost : Z) : res ei_err unit :=
  match ei with
  | None | Some [] => Err (EIValidationError "missing execution identity")
  | Some ei =>
    let? cert := find_certificate lookup ei in
    do? check_certificate ei cert in
    do? check_directive ei in
    do? check_ttl now ei in
    do? check_scope action ei in
    do? check_budget cost ei in
    do? check_depth ei in
    do? check_revoked revoked ei in
    check_integrity (if str_eqb key "" then "test-signing-key" else key) ei
  end.
End identity.

(** The encoder writes characters of the alphabet only. *)
Lemma b64u_list_alphabet k l :
  (length l <= k)%nat -> Forall (fun c => is_Some (b64_val c)) (b64u_list l) /\ (length (b64u_list l) mod 4)%nat <> 1%nat.
Proof.
  revert l. induction k as [|k IH]; intros l Hk.
  { destruct l; [by split|simpl in Hk; lia]. }
  assert (Hv : forall n, (0 <= n < 64)%Z -> is_Some (b64_val (b64_char n))).
  { intros n Hn. by rewrite b64_char_val. }
  destruct l as [|a [|b [|c l]]]; [by split|..].
  - pose proof (byte_of_bound a). cbn [b64u_list]. split; [|done]. repeat (apply Forall_cons; split); try (by apply Forall_nil).
    all: apply Hv; zdiv.
  - pose proof (byte_of_bound a). pose proof (byte_of_bound b). cbn [b64u_list]. split; [|done].
    repeat (apply Forall_cons; split); try (by apply Forall_nil). all: apply Hv; zdiv.
  - pose proof (byte_of_bound a). pose proof (byte_of_bound b). pose proof (byte_of_bound c). cbn [b64u_list].
    destruct (IH l) as [HF Hm]; [simpl in Hk; lia|]. split.
    + repeat (apply Forall_cons; split); try done. all: apply Hv; zdiv.
    + cbn [length]. replace (S (S (S (S (length (b64u_list l)))))) with (length (b64u_list l) + 1 * 4)%nat by lia.
      by rewrite Nat.Div0.mod_add.
Qed.

Lemma alphabet_char c : is_Some (b64_val c) -> std_char c = c /\ c <> "="%char.
Proof.
  intros Hc. assert (Hne : forall d, b64_val d = None -> c <> d) by (intros d Hd ->; rewrite Hd in Hc; by destruct Hc).
  unfold std_char. destruct (Ascii.eqb_spec c "+") as [He|_]; [by apply Hne in He|].
  destruct (Ascii.eqb_spec c "/") as [He|_]; [by apply Hne in He|]. split; [done|]. by apply Hne.
Qed.

Lemma drop_pads_plain k l :
  Forall (fun c => is_Some (b64_val c)) l -> drop_pads (rev (l ++ repeat "="%char k)) = rev l.
Proof.
  intros HF. rewrite rev_app_distr. assert (Hp : forall n r, drop_pads (repeat "="%char n ++ r) = drop_pads r).
  { intros n r. induction n as [|n IH]; [done|]. simpl. exact IH. }
  replace (rev (repeat "="%char k)) with (repeat "="%char k).
  - rewrite Hp. apply Forall_rev in HF. destruct (rev l) as [|c r]; [done|]. apply Forall_cons_1 in HF as [Hc _].
    apply alphabet_char in Hc as [_ Hc]. simpl. by apply Ascii.eqb_neq in Hc as ->.
  - induction k as [|k IH]; [done|]. simpl. rewrite <- IH, <- repeat_cons. done.
Qed.

Lemma unpad_plain l : Forall (fun c => is_Some (b64_val c)) l -> (length l mod 4)%nat <> 1%nat -> unpad l = Some l.
Proof.
  intros HF Hm. unfold unpad. rewrite drop_pads_plain, rev_involutive by done. rewrite length_app, repeat_length.
  assert (Hk : (length l + (4 - length l mod 4) mod 4 - length l <=? 2)%nat = true).
  { apply Nat.leb_le. pose proof (Nat.mod_upper_bound (length l) 4 ltac:(lia)).
    destruct (length l mod 4)%nat as [|[|[|[|n]]]]; simpl; lia. }
  by rewrite Hk.
Qed.

Lemma mapM_alphabet l :
  Forall (fun c => is_Some (b64_val c)) l -> mapM (fun c => b64_val (std_char c)) l = Some (b64_values l).
Proof.
  induction 1 as [|c l Hc HF IH]; [done|]. simpl. destruct (alphabet_char c Hc) as [-> _]. destruct Hc as [v Hv].
  unfold b64_values in *. simpl. rewrite Hv. simpl. by rewrite IH.
Qed.

Lemma b64decode_b64u raw : b64decode_strict (b64u raw) = Some raw.
Proof.
  destruct (b64u_list_alphabet (length (chars raw)) (chars raw)) as [HF Hm]; [done|].
  unfold b64decode_strict, b64u. rewrite list_ascii_of_string_of_list_ascii, unpad_plain by done.
  rewrite mapM_alphabet by done. rewrite (b64_decode_encode (length (chars raw))) by done. simpl.
  by rewrite string_of_list_ascii_of_string.
Qed.

Section verify.
Context `{EiLaws}.

Lemma signature_verifies payload seed :
  spki_public seed = None -> verify_signature_ed25519 payload (JStr (sign_payload_ed25519 payload seed)) seed = true.
Proof.
  intros Hk. unfold verify_signature_ed25519, sign_payload_ed25519. rewrite b64decode_b64u, ed_sign_length.
  unfold public_key_from_config. rewrite Hk, ed_sign_verifies. simpl. rewrite andb_true_r, negb_true_iff, str_eqb_neq.
  intros He. pose proof (b64decode_b64u (ed_sign (seed_key seed) (canonical_json payload))) as Hd. rewrite He in Hd.
  change (b64decode_strict "") with (Some "") in Hd. injection Hd as Hd.
  pose proof (ed_sign_length (seed_key seed) (canonical_json payload)) as Hl. by rewrite <- Hd in Hl.
Qed.
End verify.
