(* ===== verification/Runs.v ===== *)
(** * The governed run pipeline

    services/orchestrator.py ([RunOrchestrator]), services/run_state.py,
    [normalize_directive] of services/authorization.py, services/eat_builder.py,
    services/revocation_service.py and the local ledger client
    services/pgl_client.py.  The gateway and the EAT builder are optional, as in
    the constructor; api/routers/exec_router.py passes a gateway and no builder.

    The session is two copies of the tables: what it sees ([w_db]) and what is
    committed ([w_durable]).  The executor is a parameter that answers a
    request, raises, or does not come back; it writes no table of this file.
    What it was asked is logged in [w_dispatched].  Requests are dumped
    [ExecRequest]s, which have no [agent], [trust_score] or genome layers; a
    quoted text in a message is written between single quotes. *)

From Stdlib Require Import ZArith Lia Ascii String.
From stdpp Require Import base gmap strings list pretty.
From S2P Require Import Prelude Canon PyJson Identity Ledger.

(** ** run_state.py *)

Inductive RunState :=
  | CREATED | COMPILED | CONTEXTUALIZED | GOVERNED | COMMITTED | EI_MINTED | EAT_MINTED | ROUTED
  | EXECUTING | EXECUTED | ATTESTED | FAILED.
#[export] Instance RunState_eq_dec : EqDecision RunState.
Proof. solve_decision. Defined.

Definition state_value (s : RunState) : string :=
  match s with
  | CREATED => "CREATED" | COMPILED => "COMPILED" | CONTEXTUALIZED => "CONTEXTUALIZED" | GOVERNED => "GOVERNED"
  | COMMITTED => "COMMITTED" | EI_MINTED => "EI_MINTED" | EAT_MINTED => "EAT_MINTED" | ROUTED => "ROUTED"
  | EXECUTING => "EXECUTING" | EXECUTED => "EXECUTED" | ATTESTED => "ATTESTED" | FAILED => "FAILED"
  end.

Definition ALLOWED (s : RunState) : list RunState :=
  match s with
  | CREATED => [COMPILED; FAILED]
  | COMPILED => [CONTEXTUALIZED; FAILED]
  | CONTEXTUALIZED => [GOVERNED; FAILED]
  | GOVERNED => [COMMITTED; FAILED]
  | COMMITTED => [EI_MINTED; FAILED]
  | EI_MINTED => [EAT_MINTED; ROUTED; FAILED]
  | EAT_MINTED => [ROUTED; FAILED]
  | ROUTED => [EXECUTING; FAILED]
  | EXECUTING => [EXECUTED; FAILED]
  | EXECUTED => [ATTESTED; FAILED]
  | ATTESTED => []
  | FAILED => []
  end.

(** ** Errors *)

Inductive run_err :=
  | MissingGovernanceDecisionError (m : string)
  | GovernanceDeniedError (m : string)
  | RuntimeOwnershipError (m : string)
  | InvalidTransitionError (m : string)
  | MissingEATInputError (m : string)
  | PGLPersistenceError (m : string)
  | UnknownExecutionIdentityError (m : string)
  | RuntimeError (m : string)
  | ValueError (m : string)
  | IntegrityError
  | ObjectDeletedError
  | KeyError
  | EiError (e : ei_err)
  | ProviderError (cls m : string).

Definition quote (s : string) : string := "'" +:+ s +:+ "'".
Definition list_repr (l : list string) : string := "[" +:+ String.concat ", " (map quote l) +:+ "]".

(** [exc.__class__.__name__] and [str(exc)]; the messages of built-in and
    database errors are left empty. *)
Definition err_class (e : run_err) : string :=
  match e with
  | MissingGovernanceDecisionError _ => "MissingGovernanceDecisionError"
  | GovernanceDeniedError _ => "GovernanceDeniedError"
  | RuntimeOwnershipError _ => "RuntimeOwnershipError"
  | InvalidTransitionError _ => "InvalidTransitionError"
  | MissingEATInputError _ => "MissingEATInputError"
  | PGLPersistenceError _ => "PGLPersistenceError"
  | UnknownExecutionIdentityError _ => "UnknownExecutionIdentityError"
  | RuntimeError _ => "RuntimeError"
  | ValueError _ => "ValueError"
  | IntegrityError => "IntegrityError"
  | ObjectDeletedError => "ObjectDeletedError"
  | KeyError => "KeyError"
  | EiError (EIValidationError _) => "EIValidationError"
  | EiError (MissingEIInputError _) => "MissingEIInputError"
  | EiError EiTypeError => "TypeError"
  | ProviderError cls _ => cls
  end.
Definition err_message (e : run_err) : string :=
  match e with
  | MissingGovernanceDecisionError m | GovernanceDeniedError m | RuntimeOwnershipError m | InvalidTransitionError m
  | MissingEATInputError m | PGLPersistenceError m | UnknownExecutionIdentityError m | RuntimeError m | ValueError m
  | ProviderError _ m | EiError (EIValidationError m) => m
  | EiError (MissingEIInputError ks) => "Missing required ExecutionIdentity inputs: " +:+ list_repr ks
  | IntegrityError | ObjectDeletedError | KeyError | EiError EiTypeError => ""
  end.

(** ** Data *)

(** [ExecRequest] as dumped, with the keys the route adds. *)
Record ExecRequest := mk_request {
  q_prompt : string; q_agent_id : option string; q_pgl_id : option string; q_workspace_id : string; q_tenant_id : string;
  q_delegation_depth : Z; q_budget_approved_cents : Z; q_action_cost_cents : Z; q_scope : option dict;
  q_genome_hash : option string; q_constitution_hash : option string; q_plan_hash : option string;
  q_action : option string; q_directive : option string; q_risk_tier : option string; q_security : option dict;
  q_execution_mode : string; q_extra : dict }.

Definition payload_of (q : ExecRequest) : dict :=
  [("prompt", JStr (q_prompt q)); ("agent_id", jopt (q_agent_id q)); ("pgl_id", jopt (q_pgl_id q));
   ("workspace_id", JStr (q_workspace_id q)); ("tenant_id", JStr (q_tenant_id q));
   ("delegation_depth", JInt (q_delegation_depth q)); ("budget_approved_cents", JInt (q_budget_approved_cents q));
   ("action_cost_cents", JInt (q_action_cost_cents q)); ("scope", default JNull (JObj <$> q_scope q));
   ("genome_hash", jopt (q_genome_hash q)); ("constitution_hash", jopt (q_constitution_hash q));
   ("plan_hash", jopt (q_plan_hash q)); ("action", jopt (q_action q)); ("directive", jopt (q_directive q));
   ("risk_tier", jopt (q_risk_tier q)); ("security", default JNull (JObj <$> q_security q));
   ("execution_mode", JStr (q_execution_mode q))] ++ q_extra q.

Record GovernedRun := mk_run {
  gr_run_id : string; gr_workspace_id : string; gr_tenant_id : string; gr_delegation_depth : Z; gr_state : RunState;
  gr_execution_mode : string; gr_governance_decision : option string; gr_risk_tier : option string; gr_pgl_identity : dict;
  gr_seked_state : dict; gr_v4_decision : dict; gr_hashes : list (string * string); gr_approved_budget_cents : Z;
  gr_reserve_cents : Z; gr_scope : dict; gr_execution_identity : option dict; gr_eat : option dict;
  gr_request : ExecRequest; gr_result_payload : option dict }.

Record RuntimePathAssignment := mk_assignment {
  pa_assignment_id : string; pa_path_id : string; pa_authority_epoch : Z; pa_runtime_kind : string;
  pa_runtime_instance : string }.

Record ExecutionIdentityRow := mk_ei_row {
  ei_run_id : string; ei_tenant_id : string; ei_certificate : json; ei_post_certificate : option string;
  ei_expires_at : Z; ei_identity : dict; ei_revoked : bool }.

Record PGLCertificate := mk_cert {
  ct_run_id : string; ct_workspace_id : string; ct_actor_id : option string; ct_agent_id : option string;
  ct_pre : option string; ct_post : option string; ct_genome_hash : string; ct_constitution_hash : string;
  ct_plan_hash : string; ct_output_hash : option string; ct_outcome_hash : option string; ct_governance_decision : string;
  ct_risk_tier : string; ct_approved_budget_cents : Z; ct_reserve_cents : Z; ct_persisted : bool }.

Record tables := mk_tables {
  t_runs : gmap string GovernedRun; t_assignments : list RuntimePathAssignment;
  t_identities : gmap string ExecutionIdentityRow; t_certificates : gmap string PGLCertificate;
  t_pgl_events : list PGLLedgerEvent; t_audit : audit_state }.

(** [w_tick] counts the uuids and clock readings drawn. *)
Record world := mk_world {
  w_db : tables; w_durable : tables; w_tick : nat; w_dispatched : list (string * json) }.

Inductive exec_answer := Answered (result : dict) | Failed (cls m : string) | Died.

(** What the orchestrator was built with, and the draws: [o_gateway] says
    whether it has a gateway, [o_eat_builder] is the signing key of its EAT
    builder, if any. *)
Record orchestrator := mk_orchestrator {
  o_uuid : nat -> string; o_nonce : nat -> string; o_now : nat -> Z; o_issuer : string; o_runtime_kind : string; o_runtime_instance : string;
  o_signing_key : string; o_gateway : bool; o_eat_builder : option string; o_executor : nat -> json -> exec_answer }.

Definition R (A : Type) : Type := eff run_err world A.

(** ** The session *)

Definition draw : R nat := fun w =>
  Ret (w_tick w) (mk_world (w_db w) (w_durable w) (S (w_tick w)) (w_dispatched w)).
Definition read_db : R tables := fun w => Ret (w_db w) w.
Definition write_db (f : tables -> tables) : R unit := fun w =>
  Ret tt (mk_world (f (w_db w)) (w_durable w) (w_tick w) (w_dispatched w)).
Definition commit : R unit := fun w => Ret tt (mk_world (w_db w) (w_db w) (w_tick w) (w_dispatched w)).
Definition rollback : R unit := fun w => Ret tt (mk_world (w_durable w) (w_durable w) (w_tick w) (w_dispatched w)).
Definition lift {A} (r : res ei_err A) : R A := match r with Ok a => eret a | Err e => eraise (EiError e) end.
(** [try: m except Exception as exc: h]. *)
Definition try_except {A} (m : R A) (h : run_err -> R A) : R A := fun w =>
  match m w with Raise e w' => h e w' | o => o end.

Definition set_runs (f : gmap string GovernedRun -> gmap string GovernedRun) (t : tables) : tables :=
  mk_tables (f (t_runs t)) (t_assignments t) (t_identities t) (t_certificates t) (t_pgl_events t) (t_audit t).
Definition add_assignment (a : RuntimePathAssignment) (t : tables) : tables :=
  mk_tables (t_runs t) (t_assignments t ++ [a]) (t_identities t) (t_certificates t) (t_pgl_events t) (t_audit t).
Definition set_identities (f : gmap string ExecutionIdentityRow -> gmap string ExecutionIdentityRow) (t : tables) : tables :=
  mk_tables (t_runs t) (t_assignments t) (f (t_identities t)) (t_certificates t) (t_pgl_events t) (t_audit t).
Definition set_certificates (f : gmap string PGLCertificate -> gmap string PGLCertificate) (t : tables) : tables :=
  mk_tables (t_runs t) (t_assignments t) (t_identities t) (f (t_certificates t)) (t_pgl_events t) (t_audit t).
Definition set_pgl_events (l : list PGLLedgerEvent) (t : tables) : tables :=
  mk_tables (t_runs t) (t_assignments t) (t_identities t) (t_certificates t) l (t_audit t).
Definition set_audit (a : audit_state) (t : tables) : tables :=
  mk_tables (t_runs t) (t_assignments t) (t_identities t) (t_certificates t) (t_pgl_events t) a.

(** The run as the session sees it; attributes of a row that is gone raise. *)
Definition get_run (rid : string) : R GovernedRun := fun w =>
  match t_runs (w_db w) !! rid with Some r => Ret r w | None => Raise ObjectDeletedError w end.
Definition put_run (rid : string) (r : GovernedRun) : R unit := write_db (set_runs <[rid := r]>).

Definition set_state (s : RunState) (r : GovernedRun) : GovernedRun :=
  mk_run (gr_run_id r) (gr_workspace_id r) (gr_tenant_id r) (gr_delegation_depth r) s (gr_execution_mode r)
    (gr_governance_decision r) (gr_risk_tier r) (gr_pgl_identity r) (gr_seked_state r) (gr_v4_decision r) (gr_hashes r)
    (gr_approved_budget_cents r) (gr_reserve_cents r) (gr_scope r) (gr_execution_identity r) (gr_eat r) (gr_request r)
    (gr_result_payload r).
Definition set_decision (d tier : string) (r : GovernedRun) : GovernedRun :=
  mk_run (gr_run_id r) (gr_workspace_id r) (gr_tenant_id r) (gr_delegation_depth r) (gr_state r) (gr_execution_mode r)
    (Some d) (Some tier) (gr_pgl_identity r) [("directive", JStr d)] [("directive", JStr d); ("risk_tier", JStr tier)]
    (gr_hashes r) (gr_approved_budget_cents r) (gr_reserve_cents r) (gr_scope r) (gr_execution_identity r) (gr_eat r)
    (gr_request r) (gr_result_payload r).
Definition set_pgl_identity (p : dict) (r : GovernedRun) : GovernedRun :=
  mk_run (gr_run_id r) (gr_workspace_id r) (gr_tenant_id r) (gr_delegation_depth r) (gr_state r) (gr_execution_mode r)
    (gr_governance_decision r) (gr_risk_tier r) p (gr_seked_state r) (gr_v4_decision r) (gr_hashes r)
    (gr_approved_budget_cents r) (gr_reserve_cents r) (gr_scope r) (gr_execution_identity r) (gr_eat r) (gr_request r)
    (gr_result_payload r).
Definition set_identity (i : dict) (r : GovernedRun) : GovernedRun :=
  mk_run (gr_run_id r) (gr_workspace_id r) (gr_tenant_id r) (gr_delegation_depth r) (gr_state r) (gr_execution_mode r)
    (gr_governance_decision r) (gr_risk_tier r) (gr_pgl_identity r) (gr_seked_state r) (gr_v4_decision r) (gr_hashes r)
    (gr_approved_budget_cents r) (gr_reserve_cents r) (gr_scope r) (Some i) (gr_eat r) (gr_request r) (gr_result_payload r).
Definition set_eat (e : dict) (r : GovernedRun) : GovernedRun :=
  mk_run (gr_run_id r) (gr_workspace_id r) (gr_tenant_id r) (gr_delegation_depth r) (gr_state r) (gr_execution_mode r)
    (gr_governance_decision r) (gr_risk_tier r) (gr_pgl_identity r) (gr_seked_state r) (gr_v4_decision r) (gr_hashes r)
    (gr_approved_budget_cents r) (gr_reserve_cents r) (gr_scope r) (gr_execution_identity r) (Some e) (gr_request r)
    (gr_result_payload r).
Definition set_result (x : dict) (r : GovernedRun) : GovernedRun :=
  mk_run (gr_run_id r) (gr_workspace_id r) (gr_tenant_id r) (gr_delegation_depth r) (gr_state r) (gr_execution_mode r)
    (gr_governance_decision r) (gr_risk_tier r) (gr_pgl_identity r) (gr_seked_state r) (gr_v4_decision r) (gr_hashes r)
    (gr_approved_budget_cents r) (gr_reserve_cents r) (gr_scope r) (gr_execution_identity r) (gr_eat r) (gr_request r)
    (Some x).

Section orchestrator.
Context `{EiWorld} (o : orchestrator).

(** ** Directives *)

Definition ALLOW_DIRECTIVES : list string := ["ALLOW"; "ALLOW_WITH_AUDIT"].
Definition DENY_DIRECTIVES : list string := ["DENY"; "DENIED"].
Definition VALID_DIRECTIVES : list string := ALLOW_DIRECTIVES ++ DENY_DIRECTIVES.
Definition RISK_TIERS : list string := ["standard"; "elevated"; "critical"].

(** [normalize_directive] of authorization.py. *)
Definition normalize_directive (strict : bool) (directive risk_tier : option string) : res run_err (string * string) :=
  let d := match directive with Some s => upper (strip s) | None => "" end in
  let d := if str_eqb d "" then if strict then "NEEDS_APPROVAL" else "ALLOW" else d in
  let t := match risk_tier with Some s => lower (strip s) | None => "" end in
  let t := if str_eqb t "" then "standard" else t in
  if bool_decide (t ∈ RISK_TIERS) then Ok (d, t) else Err (ValueError "risk_tier is not a supported governance lane").

(** [_normalize_directive], [_require_governance_decision] and
    [_require_recorded_governance_decision] of the orchestrator. *)
Definition recorded_directive (raw : option string) : res run_err string :=
  let raw := default "" raw in
  if str_eqb (strip raw) "" then
    Err (MissingGovernanceDecisionError
           "CAPPO governance directive is required; missing decisions never default to ALLOW.")
  else let directive := upper (strip raw) in
       if bool_decide (directive ∈ VALID_DIRECTIVES) then Ok directive
       else Err (MissingGovernanceDecisionError ("Unsupported CAPPO governance directive " +:+ quote raw
              +:+ "; expected one of ['ALLOW', 'ALLOW_WITH_AUDIT', 'DENIED', 'DENY'].")).
Definition permitted_directive (raw : option string) : res run_err string :=
  let? directive := recorded_directive raw in
  if bool_decide (directive ∈ ALLOW_DIRECTIVES) then Ok directive
  else Err (GovernanceDeniedError ("governance directive " +:+ quote directive +:+ " does not permit execution")).

Definition lift_run {A} (r : res run_err A) : R A := match r with Ok a => eret a | Err e => eraise e end.

(** ** Shared steps *)

Definition transition (rid : string) (target : RunState) : R unit :=
  let! r := get_run rid in
  if bool_decide (target ∈ ALLOWED (gr_state r)) then put_run rid (set_state target r)
  else eraise (InvalidTransitionError ("illegal run transition: " +:+ state_value (gr_state r) +:+ " -> "
                                       +:+ state_value target)).

Definition audit_record (operation_type : string) (payload : dict) (workspace_id run_id : option string) : R unit :=
  let! n := draw in
  write_db (fun t => set_audit (record operation_type (JObj payload) workspace_id run_id (o_uuid o n) (o_now o n)
                                  (t_audit t)).2 t).

(** [_append_ledger_event]. *)
Definition pgl_append (certificate_id event_type : string) (cert : PGLCertificate) (evidence : option json) : R string :=
  let! n := draw in
  let! t := read_db in
  let ev := append_ledger_event certificate_id event_type (ct_genome_hash cert) (ct_plan_hash cert) evidence
              (o_uuid o n) (o_now o n) (t_pgl_events t) in
  do! write_db (set_pgl_events ev.2) in
  eret (pv_event_id ev.1).

(** Insert a certificate under a drawn id: add, flush. *)
Definition insert_certificate (cert : PGLCertificate) : R string :=
  let! n := draw in
  let! t := read_db in
  let id := o_uuid o n in
  match t_certificates t !! id with
  | Some _ => eraise IntegrityError
  | None => do! write_db (set_certificates <[id := cert]>) in eret id
  end.

Definition mint_pre_certificate (cert : PGLCertificate) : R string :=
  let! id := insert_certificate cert in
  do! pgl_append id "pre_certificate_minted" cert None in
  eret id.

Definition link_post (post : string) (c : PGLCertificate) : PGLCertificate :=
  mk_cert (ct_run_id c) (ct_workspace_id c) (ct_actor_id c) (ct_agent_id c) (ct_pre c) (Some post) (ct_genome_hash c)
    (ct_constitution_hash c) (ct_plan_hash c) (ct_output_hash c) (ct_outcome_hash c) (ct_governance_decision c)
    (ct_risk_tier c) (ct_approved_budget_cents c) (ct_reserve_cents c) (ct_persisted c).

Definition mint_post_certificate (pre_id : string) (cert : PGLCertificate) : R string :=
  let! id := insert_certificate cert in
  do! write_db (set_certificates (alter (link_post id) pre_id)) in
  do! pgl_append id "post_certificate_minted" cert None in
  eret id.

Definition append_evidence_event (certificate_id event_type : string) (evidence : dict) : R string :=
  let! t := read_db in
  match t_certificates t !! certificate_id with
  | Some cert => if ct_persisted cert then pgl_append certificate_id event_type cert (Some (JObj evidence))
                 else eraise (PGLPersistenceError "cannot seal evidence for a non-persisted PGL certificate")
  | None => eraise (PGLPersistenceError "cannot seal evidence for a non-persisted PGL certificate")
  end.

(** ** The phases *)

(** [v or d] on an optional text. *)
Definition or_else (v : option string) (d : string) : string :=
  match v with Some s => if str_eqb s "" then d else s | None => d end.
Definition hash_of (r : GovernedRun) (k : string) : string := default "" (assoc k (gr_hashes r)).

Definition create_run (q : ExecRequest) : R string :=
  let! n := draw in
  let! t := read_db in
  let rid := o_uuid o n in
  let hashes := [("genome_hash", or_else (q_genome_hash q) (sha256_json (JObj (payload_of q))));
                 ("constitution_hash", or_else (q_constitution_hash q) (sha256_json (JObj [("version", JStr "1")])));
                 ("plan_hash", or_else (q_plan_hash q) (sha256_json (JStr (q_prompt q))))] in
  let scope := match q_scope q with Some (kv :: m) => kv :: m | _ => [("tools", JArr [JStr "llm.exec"])] end in
  match t_runs t !! rid with
  | Some _ => eraise IntegrityError
  | None =>
    do! put_run rid (mk_run rid (q_workspace_id q) (q_tenant_id q) (q_delegation_depth q) CREATED (q_execution_mode q)
                       None None [] [] [] hashes (q_budget_approved_cents q) 0 scope None None q None) in
    eret rid
  end.

Definition compile_run (rid : string) : R unit := transition rid COMPILED.
Definition contextualize_run (rid : string) : R unit := transition rid CONTEXTUALIZED.
Definition route_run (rid : string) : R unit := transition rid ROUTED.

Definition govern_run (rid : string) : R unit :=
  let! r := get_run rid in
  let raw := q_directive (gr_request r) in
  if str_eqb (strip (default "" raw)) "" then
    eraise (MissingGovernanceDecisionError "CAPPO governance decision required")
  else
    let! dt := lift_run (normalize_directive true raw (q_risk_tier (gr_request r))) in
    do! put_run rid (set_decision dt.1 dt.2 r) in
    do! transition rid GOVERNED in
    if bool_decide (dt.1 ∈ DENY_DIRECTIVES) then
      eraise (GovernanceDeniedError ("governance directive " +:+ quote dt.1 +:+ " vetoed execution"))
    else eret tt.

Definition opt_or (a b : option string) : option string :=
  match a with Some s => if str_eqb s "" then b else a | None => b end.

Definition commit_run (rid : string) : R unit :=
  let! r := get_run rid in
  let! directive := lift_run (recorded_directive (gr_governance_decision r)) in
  let q := gr_request r in
  let! id := mint_pre_certificate
    (mk_cert (gr_run_id r) (gr_workspace_id r) (q_pgl_id q) (opt_or (q_agent_id q) (opt_or (q_pgl_id q) None)) None None
       (hash_of r "genome_hash") (hash_of r "constitution_hash") (hash_of r "plan_hash") None None directive
       (or_else (gr_risk_tier r) "standard") (gr_approved_budget_cents r) (gr_reserve_cents r) true) in
  do! put_run rid (set_pgl_identity [("pre_execution_certificate_id", JStr id); ("persisted", JBool true)] r) in
  transition rid COMMITTED.

(** [_claim_runtime_ownership]: the assignment it inserted. *)
Definition claim_runtime_ownership (r : GovernedRun) : R RuntimePathAssignment :=
  if str_eqb (o_runtime_kind o) "" || str_eqb (o_runtime_instance o) "" then
    eraise (RuntimeOwnershipError "RUNTIME_IDENTITY_UNAVAILABLE")
  else
    let! t := read_db in
    if existsb (fun a => str_eqb (pa_path_id a) (gr_run_id r)) (t_assignments t) then
      eraise (RuntimeOwnershipError "PATH_ALREADY_ASSIGNED")
    else
      let! n := draw in
      let a := mk_assignment (o_uuid o n) (gr_run_id r) 1 (o_runtime_kind o) (o_runtime_instance o) in
      if existsb (fun b => str_eqb (pa_assignment_id b) (pa_assignment_id a)) (t_assignments t) then
        eraise (RuntimeOwnershipError "PATH_ALREADY_ASSIGNED")
      else do! write_db (add_assignment a) in eret a.

Definition ownership_json (a : RuntimePathAssignment) : json :=
  JObj [("path_id", JStr (pa_path_id a)); ("assignment_id", JStr (pa_assignment_id a));
        ("authority_epoch", JInt (pa_authority_epoch a)); ("runtime_kind", JStr (pa_runtime_kind a));
        ("runtime_instance", JStr (pa_runtime_instance a))].

Definition ei_inputs (r : GovernedRun) (directive : string) (a : RuntimePathAssignment) : dict :=
  [("execution_id", JStr (gr_run_id r));
   ("pgl_pre_certificate_id", dget_or (gr_pgl_identity r) "pre_execution_certificate_id" (JStr ""));
   ("genome_hash", JStr (hash_of r "genome_hash"));
   ("constitution_hash", JStr (hash_of r "constitution_hash"));
   ("plan_hash", JStr (hash_of r "plan_hash"));
   ("tool_manifest_hash", jopt (assoc "tool_manifest_hash" (gr_hashes r)));
   ("delegation_chain_hash", jopt (assoc "delegation_chain_hash" (gr_hashes r)));
   ("input_hash", jopt (assoc "input_hash" (gr_hashes r)));
   ("seked_attestation_hash", JStr (sha256_json (JObj (gr_seked_state r))));
   ("directive", JStr directive);
   ("risk_tier", JStr (or_else (gr_risk_tier r) "standard"));
   ("budget_approved_cents", JInt (gr_approved_budget_cents r));
   ("budget_reserve_cents", JInt (gr_reserve_cents r));
   ("delegation_depth", JInt (gr_delegation_depth r));
   ("scope", JObj (gr_scope r));
   ("issuer", JStr (o_issuer o));
   ("runtime_ownership", ownership_json a)].

(** Insert the identity's row: add, flush. *)
Definition insert_identity (r : GovernedRun) (identity : dict) : R unit :=
  let! t := read_db in
  match dget identity "ei_id", dget identity "expires_at" with
  | JStr ei_id, JStr expires =>
    match fromisoformat expires with
    | None => eraise (ValueError "")
    | Some e =>
      match t_identities t !! ei_id with
      | Some _ => eraise IntegrityError
      | None => write_db (set_identities <[ei_id := mk_ei_row (gr_run_id r) (gr_workspace_id r)
                            (dget identity "pgl_certificate_id") None e identity false]>)
      end
    end
  | _, _ => eraise (EiError EiTypeError)
  end.

Definition mint_execution_identity (rid : string) : R unit :=
  let! r := get_run rid in
  let! directive := lift_run (permitted_directive (gr_governance_decision r)) in
  let! a := claim_runtime_ownership r in
  let! n := draw in
  let! identity := lift (build (o_signing_key o) (o_now o n) (o_uuid o n) (ei_inputs r directive a)) in
  do! put_run rid (set_identity identity r) in
  do! insert_identity r identity in
  transition rid EI_MINTED.

(** ** The execution authorization token *)

(** [EATBuilder.build]; trust scores are whole points, [ttl] is 300 seconds. *)
Definition eat_keys : list string :=
  ["execution_id"; "directive"; "scope"; "budget_approved_cents"; "pgl_pre_certificate_id"; "genome_hash";
   "constitution_hash"; "plan_hash"; "risk_tier"].
Definition eat_body (ei : dict) (agent_id : string) (certificate_id : json) (trust_score : Z) (risk_tier eat_id nonce : string)
    (now : Z) : dict :=
  let e := dget ei in
  [("eat_version", JStr "1.0");
   ("eat_id", JStr ("eat-" +:+ eat_id));
   ("execution_id", e "execution_id");
   ("subject", JObj [("agent_id", JStr agent_id); ("certificate_id", certificate_id);
                     ("trust_score", JFloat (pretty trust_score +:+ ".0")); ("risk_tier", JStr risk_tier)]);
   ("authorization", JObj [("directive", e "directive"); ("scope", e "scope");
                           ("budget_approved_cents", e "budget_approved_cents");
                           ("budget_reserve_cents", dget_or ei "budget_reserve_cents" (JInt 0)); ("single_use", JBool true)]);
   ("provenance", JObj [("pgl_pre_certificate_id", e "pgl_pre_certificate_id"); ("genome_hash", e "genome_hash");
                        ("constitution_hash", e "constitution_hash"); ("plan_hash", e "plan_hash");
                        ("governance_decision_hash", JStr (sha256_json (JObj [("directive", e "directive");
                                                                             ("risk_tier", e "risk_tier")])))]);
   ("temporal", JObj [("issued_at", JStr (iso now)); ("expires_at", JStr (iso (now + 300 * 1000000)));
                      ("ttl_seconds", JInt 300)]);
   ("issuer", JStr "cappo-inside-mcp");
   ("audience", JStr "cappo-edge-mcp");
   ("nonce", JStr nonce)].
Definition eat_build (ei : dict) (agent_id : string) (certificate_id : json) (trust_score : Z)
    (risk_tier eat_id nonce key : string) (now : Z) : res run_err dict :=
  if negb (truthy (dget ei "execution_id")) then
    Err (MissingEATInputError "execution_identity must contain a non-empty 'execution_id'")
  else if str_eqb agent_id "" then Err (MissingEATInputError "agent_id must not be empty")
  else if (trust_score <=? 40)%Z then
    Err (MissingEATInputError ("trust_score must be > 40, got " +:+ pretty trust_score +:+ ".0"))
  else if str_eqb risk_tier "terminated" then Err (MissingEATInputError "risk_tier must not be 'terminated'")
  else if negb (forallb (fun k => bool_decide (is_Some (assoc k ei))) eat_keys) then Err KeyError
  else
    let body := eat_body ei agent_id certificate_id trust_score risk_tier eat_id nonce now in
    Ok (body ++ [("hash", JStr (sha256_json (JObj body))); ("signature", JStr (sign_payload_ed25519 body key))]).

(** [mint_eat]: by the builder or else by the gateway, and not at all without
    both; a dumped request names no [agent]. *)
Definition mint_eat (rid : string) : R unit :=
  if negb (o_gateway o) && bool_decide (o_eat_builder o = None) then eret tt else
  let! r := get_run rid in
  match gr_execution_identity r with
  | None | Some [] => eraise (ValueError "Cannot mint EAT without an Execution Identity.")
  | Some ei =>
    let! n := draw in
    let! eat := lift_run (eat_build ei "unknown" (dget_or (gr_pgl_identity r) "pre_execution_certificate_id" (JStr "unknown"))
                            75 (or_else (gr_risk_tier r) "standard") (o_uuid o n) (o_nonce o n) (default (o_signing_key o) (o_eat_builder o)) (o_now o n)) in
    do! put_run rid (set_eat eat r) in
    do! audit_record "eat_minted"
          [("eat_id", dget eat "eat_id"); ("execution_id", dget ei "execution_id"); ("agent_id", JStr "unknown");
           ("ttl_seconds", JInt 300)] (Some (gr_workspace_id r)) (Some (gr_run_id r)) in
    transition rid EAT_MINTED
  end.
(** ** Enforcement *)

(** [_default_action]. *)
Definition default_action (scope : dict) : string :=
  match dget scope "tools" with JArr (JStr t :: _) => t | _ => "" end.

Definition lookup_certificate (t : tables) (id : json) : option cert_view :=
  match id with
  | JStr s => (fun c => mk_cert_view (ct_persisted c) (ct_genome_hash c) (ct_constitution_hash c) (ct_plan_hash c))
                <$> t_certificates t !! s
  | _ => None
  end.

(** [RevocationService.is_revoked]. *)
Definition is_revoked (t : tables) (id : json) : bool :=
  match id with JStr s => match t_identities t !! s with Some e => ei_revoked e | None => false end | _ => false end.

(** [RevocationService.revoke]. *)
Definition revoke (ei_id : string) (reason workspace_id : option string) : R unit :=
  let! t := read_db in
  match t_identities t !! ei_id with
  | None => eraise (UnknownExecutionIdentityError ei_id)
  | Some e =>
    if ei_revoked e then eret tt
    else
      do! write_db (set_identities <[ei_id := mk_ei_row (ei_run_id e) (ei_tenant_id e) (ei_certificate e)
                       (ei_post_certificate e) (ei_expires_at e) (ei_identity e) true]>) in
      audit_record "ei_revoked" [("execution_id", JStr ei_id); ("reason", jopt reason)]
        (Some (or_else workspace_id (ei_tenant_id e)))
        (Some (ei_run_id e))
  end.

(** [MCPGateway.require_execution_identity]: the refusal is audited. *)
Definition require_execution_identity (identity : option dict) (action : string) (cost : Z) (workspace_id run_id : string)
    : R unit :=
  let! n := draw in
  let! t := read_db in
  match validate_execution_identity (lookup_certificate t) (is_revoked t) (o_signing_key o) (o_now o n) identity action cost with
  | Ok _ => eret tt
  | Err (EIValidationError detail) =>
    do! audit_record "law0_violation"
          [("law0", JBool true); ("error", JStr detail); ("action", JStr action);
           ("execution_id", dget (default [] identity) "execution_id")] (Some workspace_id) (Some run_id) in
    eraise (EiError (EIValidationError detail))
  | Err e => eraise (EiError e)
  end.

(** [_enforce_law0]: nothing is enforced without a gateway. *)
Definition enforce_law0 (r : GovernedRun) : R unit :=
  if negb (o_gateway o) then eret tt else
  require_execution_identity (gr_execution_identity r)
    (or_else (q_action (gr_request r)) (default_action (gr_scope r)))
    (q_action_cost_cents (gr_request r)) (gr_workspace_id r) (gr_run_id r).

Definition is_int (j : json) (z : Z) : bool := match j with JInt y => (y =? z)%Z | JBool b => (Z.b2z b =? z)%Z | _ => false end.
Definition ownership_keys : list string :=
  ["path_id"; "assignment_id"; "authority_epoch"; "runtime_kind"; "runtime_instance"].
Definition find_assignment (t : tables) (id : json) : option RuntimePathAssignment :=
  match id with
  | JStr s => head (filter (fun a => pa_assignment_id a = s) (t_assignments t))
  | _ => None
  end.

(** [_enforce_runtime_ownership]: the refusal, if any. *)
Definition ownership_problem (t : tables) (r : GovernedRun) : option run_err :=
  let refuse m := Some (RuntimeOwnershipError m) in
  match dget (default [] (gr_execution_identity r)) "runtime_ownership" with
  | JObj own =>
    if negb (forallb (fun k => bool_decide (is_Some (assoc k own))) ownership_keys) then refuse "RUNTIME_OWNERSHIP_INCOMPLETE"
    else if negb (is_str (dget own "path_id") (gr_run_id r)) then refuse "PATH_ID_MISMATCH"
    else if negb (is_str (dget own "runtime_kind") (o_runtime_kind o))
            || negb (is_str (dget own "runtime_instance") (o_runtime_instance o)) then
      if truthy (dget own "previous_assignment_id") then
        match as_int (dget own "authority_epoch") with
        | Ok e => refuse (if (e <=? 1)%Z then "AUTHORITY_EPOCH_NOT_ADVANCED" else "RUNTIME_OWNER_MISMATCH")
        | Err e => Some (EiError e)
        end
      else refuse "RUNTIME_OWNER_MISMATCH"
    else match find_assignment t (dget own "assignment_id") with
         | None => refuse "PATH_ASSIGNMENT_NOT_PERSISTED"
         | Some a =>
           if negb (is_str (dget own "path_id") (pa_path_id a)) then refuse "PERSISTED_PATH_ID_MISMATCH"
           else if negb (is_int (dget own "authority_epoch") (pa_authority_epoch a)) then refuse "AUTHORITY_EPOCH_MISMATCH"
           else if negb (is_str (dget own "runtime_kind") (pa_runtime_kind a))
                   || negb (is_str (dget own "runtime_instance") (pa_runtime_instance a)) then
             refuse "PERSISTED_OWNER_MISMATCH"
           else None
         end
  | _ => refuse "RUNTIME_OWNERSHIP_REQUIRED"
  end.
Definition enforce_runtime_ownership (r : GovernedRun) : R unit :=
  let! t := read_db in
  match ownership_problem t r with Some e => eraise e | None => eret tt end.

(** ** Execution *)

(** [_execution_request]. *)
Definition execution_request (q : ExecRequest) (identity : dict) : json :=
  let allowed := match dget identity "scope" with JObj m => dget m "allowed_provider_set" | _ => JNull end in
  let epoch := match dget identity "runtime_ownership" with JObj m => dget m "authority_epoch" | _ => JNull end in
  JObj (dict_set (payload_of q) "authority_envelope"
          (JObj [("execution_id", dget identity "execution_id"); ("authority_epoch", epoch);
                 ("allowed_provider_set", allowed)])).

(** Hand a request to the executor; the process may die there, and then only
    what was committed is left. *)
Definition dispatch (rid : string) (request : json) : R dict := fun w =>
  let logged := w_dispatched w ++ [(rid, request)] in
  match o_executor o (w_tick w) request with
  | Answered result => Ret result (mk_world (w_db w) (w_durable w) (S (w_tick w)) logged)
  | Failed cls m => Raise (ProviderError cls m) (mk_world (w_db w) (w_durable w) (S (w_tick w)) logged)
  | Died => Crash (mk_world (w_durable w) (w_durable w) (S (w_tick w)) logged)
  end.

Definition execute_run (rid : string) : R dict :=
  let! r := get_run rid in
  do! enforce_law0 r in
  do! enforce_runtime_ownership r in
  do! transition rid EXECUTING in
  do! commit in
  try_except
    (let! result := dispatch rid (execution_request (gr_request r) (default [] (gr_execution_identity r))) in
     let! r' := get_run rid in
     do! put_run rid (set_result result r') in
     do! transition rid EXECUTED in
     do! commit in
     eret result)
    (fun e => do! rollback in eraise e).

Definition attest_run (rid : string) : R unit :=
  let! r := get_run rid in
  let result := JObj (default [] (gr_result_payload r)) in
  let output_hash := sha256_json result in
  let outcome_hash := sha256_json (JObj [("state", JStr (state_value EXECUTED)); ("result", result)]) in
  let! directive := lift_run (permitted_directive (gr_governance_decision r)) in
  let pre_id := match dget_or (gr_pgl_identity r) "pre_execution_certificate_id" (JStr "") with JStr s => s | _ => "" end in
  let! post_id := mint_post_certificate pre_id
    (mk_cert (gr_run_id r) (gr_workspace_id r) (q_pgl_id (gr_request r)) None (Some pre_id) None (hash_of r "genome_hash")
       (hash_of r "constitution_hash") (hash_of r "plan_hash") (Some output_hash) (Some outcome_hash) directive
       (or_else (gr_risk_tier r) "standard") 0 0 true) in
  do! put_run rid (set_pgl_identity (dict_set (gr_pgl_identity r) "post_execution_certificate_id" (JStr post_id)) r) in
  let execution_id := dget (default [] (gr_execution_identity r)) "execution_id" in
  do! write_db (set_identities
        match execution_id with
        | JStr s => alter (fun e => mk_ei_row (ei_run_id e) (ei_tenant_id e) (ei_certificate e) (Some post_id)
                                      (ei_expires_at e) (ei_identity e) (ei_revoked e)) s
        | _ => fun m => m
        end) in
  do! audit_record "run_attested"
        [("run_id", JStr (gr_run_id r)); ("execution_id", execution_id); ("state", JStr (state_value (gr_state r)));
         ("post_execution_certificate_id", JStr post_id); ("output_hash", JStr output_hash);
         ("outcome_hash", JStr outcome_hash)] (Some (gr_workspace_id r)) (Some (gr_run_id r)) in
  transition rid ATTESTED.

(** [record_evidence_seal]: the id of the ledger event. *)
Definition record_evidence_seal (rid : string) (seal : dict) : R string :=
  let! r := get_run rid in
  match py_or (dget (gr_pgl_identity r) "post_execution_certificate_id")
              (dget (gr_pgl_identity r) "pre_execution_certificate_id") with
  | JStr certificate_id =>
    if str_eqb certificate_id "" then eraise (RuntimeError "cannot seal evidence without a persisted PGL certificate")
    else
      let! event_id := append_evidence_event certificate_id "capi_evidence_sealed" seal in
      if str_eqb event_id "" then eraise (RuntimeError "PGL did not return a durable evidence event identifier")
      else
        do! put_run rid (set_pgl_identity (dict_set (gr_pgl_identity r) "capi_evidence_event_id" (JStr event_id)) r) in
        do! audit_record "capi_evidence_sealed"
              [("run_id", JStr (gr_run_id r)); ("execution_id", dget (default [] (gr_execution_identity r)) "execution_id");
               ("post_execution_certificate_id", JStr certificate_id); ("pgl_event_id", JStr event_id);
               ("evidence_id", dget seal "evidence_id"); ("seal_hash", dget seal "seal_hash")]
              (Some (gr_workspace_id r)) (Some (gr_run_id r)) in
        eret event_id
  | _ => eraise (RuntimeError "cannot seal evidence without a persisted PGL certificate")
  end.

(** ** The pipeline *)

Definition is_denied (e : run_err) : bool := match e with GovernanceDeniedError _ => true | _ => false end.

Definition governed_phases (rid : string) : R dict :=
  do! compile_run rid in
  do! contextualize_run rid in
  do! try_except (govern_run rid) (fun e => if is_denied e then do! commit_run rid in eraise e else eraise e) in
  do! commit_run rid in
  do! mint_execution_identity rid in
  do! mint_eat rid in
  do! route_run rid in
  let! result := execute_run rid in
  do! attest_run rid in
  eret result.

(** The handler of a failure: the run fails and the failure is audited. *)
Definition on_failure (rid : string) (e : run_err) : R dict :=
  do! transition rid FAILED in
  let! r := get_run rid in
  do! audit_record "run_failed"
        [("error", JStr (err_message e)); ("error_type", JStr (err_class e)); ("state_at_failure", JStr (state_value (gr_state r)));
         ("agent_id", jopt (q_agent_id (gr_request r))); ("pgl_id", jopt (q_pgl_id (gr_request r)))]
        (Some (gr_workspace_id r)) (Some (gr_run_id r)) in
  eraise e.

Definition run_governed (q : ExecRequest) : R dict :=
  let! rid := create_run q in
  try_except (governed_phases rid) (on_failure rid).
End orchestrator.
