(* ===== verification/RunDemo.v ===== *)
(** * A concrete world for the run pipeline

    An instance of the outside world that satisfies [EiLaws], an orchestrator
    built with it, and runs that evaluate. *)

From Stdlib Require Import ZArith Lia Ascii String.
From stdpp Require Import base gmap strings list pretty.
From S2P Require Import Prelude Canon PyJson VdbExample Identity Ledger Runs.

(** A time as its sign and its binary digits. *)
Definition print_time (t : Z) : string :=
  match t with Z0 => "0" | Zpos p => String "P" (bits p) | Zneg p => String "N" (bits p) end.
Fixpoint read_bits (s : string) : positive :=
  match s with
  | String c r => if Ascii.eqb c "0" then xO (read_bits r)
                  else match r with EmptyString => xH | _ => xI (read_bits r) end
  | EmptyString => xH
  end.
Definition read_time (s : string) : option Z :=
  match s with
  | String c r => Some (if Ascii.eqb c "P" then Zpos (read_bits r)
                        else if Ascii.eqb c "N" then Zneg (read_bits r) else 0%Z)
  | EmptyString => None
  end.

(** A signature of 64 bytes: the key and the message's checksum, cut to size. *)
Fixpoint pad (n : nat) (s : string) : string :=
  match n with
  | O => ""
  | S n' => match s with String c r => String c (pad n' r) | EmptyString => String "." (pad n' "") end
  end.
Definition demo_sig (sk m : string) : string := pad 64 (sk +:+ checksum m).

#[export] Instance run_ext : Ext := {|
    rfc8785_dumps := jprint;
    jcs_raises := fun _ => false;
    sha256_hex := checksum;
    privkey := string;
    ed_public_raw := fun sk => sk;
    ed_sign := demo_sig;
    ed_verify := fun pub sig m => str_eqb sig (demo_sig pub m);
    isoformat_ms := print_time;
    fromisoformat := read_time;
    uuid_ok := fun _ => true;
    float_eqb := str_eqb;
    float_is := fun _ _ => false;
    float_ltb := fun a b => negb (String.leb b a);
    float_lt_int := fun _ _ => false;
    int_lt_float := fun _ _ => true;
    float_succ := fun l => l
  |}.
#[export] Instance run_world : EiWorld (H := run_ext) := {|
  seed_key := fun s => s; spki_public := fun _ => None; iso := print_time |}.

Lemma read_bits_bits p : read_bits (bits p) = p.
Proof.
  induction p as [p IH|p IH|]; simpl; [|by rewrite IH|done].
  rewrite IH. by destruct p.
Qed.
Lemma pad_length n s : String.length (pad n s) = n.
Proof. revert s. induction n as [|n IH]; intros s; [done|]. destruct s; simpl; by rewrite IH. Qed.
Lemma replace_Z_cons c s : c <> "Z"%char -> replace_Z s = s -> replace_Z (String c s) = String c s.
Proof. intros Hc Hs. unfold replace_Z in *. simpl. apply Ascii.eqb_neq in Hc. rewrite Hc. simpl. by f_equal. Qed.
Lemma replace_Z_bits p : replace_Z (bits p) = bits p.
Proof. induction p; simpl; [by apply replace_Z_cons|by apply replace_Z_cons|done]. Qed.
#[export] Instance run_laws : EiLaws.
Proof.
  split.
  - intros m. simpl. unfold checksum. by destruct (N.succ_pos _).
  - intros sk m. apply pad_length.
  - intros sk m. apply str_eqb_refl.
  - by intros [|p|p].
  - intros [|p|p]; simpl; by rewrite ?read_bits_bits.
  - intros [|p|p]; [done|..]; apply replace_Z_cons; try done; apply replace_Z_bits.
Qed.

Module RunDemo.
Definition orch (answer : exec_answer) : orchestrator :=
  mk_orchestrator (fun n => "id" +:+ pretty n) (fun n => "nonce" +:+ pretty n) (fun n => (1000 + Z.of_nat n)%Z)
    "cappo-orchestrator" "vre" "node-1" "seed" true None (fun _ _ => answer).
Definition ok : exec_answer := Answered [("response", JStr "done")].
Definition req (directive : option string) : ExecRequest :=
  mk_request "hello" (Some "agent-7") None "ws" "ws" 0 500 10
    (Some [("tools", JArr [JStr "llm.exec"]); ("allowed_provider_set", JArr [JStr "echo"])]) None None None
    (Some "llm.exec") directive None None "live" [].
Definition none : tables := mk_tables ∅ [] ∅ ∅ [] (mk_audit_state [] []).
Definition start : world := mk_world none none 0 [].
Definition state_in (t : tables) : option RunState := gr_state <$> t_runs t !! "id0".

Definition summary (x : outcome run_err world dict) :=
  match x with
  | Ret r w => (Some (inl r), state_in (w_db w), state_in (w_durable w), length (w_dispatched w))
  | Raise e w => (Some (inr (err_class e)), state_in (w_db w), state_in (w_durable w), length (w_dispatched w))
  | Crash w => (None, state_in (w_db w), state_in (w_durable w), length (w_dispatched w))
  end.
End RunDemo.

(** An allowed run is attested, a denied one fails with its certificate, a
    death in the executor leaves the run EXECUTING. *)
Example demo_runs :
  RunDemo.summary (run_governed (RunDemo.orch RunDemo.ok) (RunDemo.req (Some " allow ")) RunDemo.start)
    = (Some (inl [("response", JStr "done")]), Some ATTESTED, Some EXECUTED, 1%nat)
  /\ RunDemo.summary (run_governed (RunDemo.orch RunDemo.ok) (RunDemo.req (Some "deny")) RunDemo.start)
    = (Some (inr "GovernanceDeniedError"), Some FAILED, None, 0%nat)
  /\ RunDemo.summary (run_governed (RunDemo.orch Died) (RunDemo.req (Some "ALLOW")) RunDemo.start)
    = (None, Some EXECUTING, Some EXECUTING, 1%nat).
Proof. split_and!; vm_compute; reflexivity. Qed.
