(* ===== verification/RunProofs.v ===== *)
(** * Proofs about the run pipeline

    The shape of what every phase does to the tables: which rows it keeps, how
    the state of a run moves from phase to phase, and that a phase that raises
    leaves it in a state that can still fail.  Used by RunProperties. *)

From Stdlib Require Import ZArith Lia Ascii String.
From stdpp Require Import base gmap strings list.
From S2P Require Import Prelude Canon PyJson Ledger Identity Runs.

(** ** At most one dispatch *)

(** The states from which a run is never dispatched (again). *)
Definition past (s : RunState) : Prop := s ∈ [EXECUTING; EXECUTED; ATTESTED; FAILED].

(** The runs of a dispatch log are past dispatch in a table. *)
Definition settled (log : list (string * json)) (t : tables) : Prop :=
  forall rid, rid ∈ log.*1 -> exists r, t_runs t !! rid = Some r /\ past (gr_state r).

Definition logged (log : list (string * json)) (w : world) : Prop :=
  w_dispatched w = log /\ settled log (w_db w) /\ settled log (w_durable w).
Definition at_most_once (w : world) : Prop := exists log, NoDup log.*1 /\ logged log w.

Lemma allowed_past s s' : s' ∈ ALLOWED s -> past s -> past s'.
Proof. unfold past. destruct s; simpl; set_solver. Qed.
Lemma executing_from s : EXECUTING ∈ ALLOWED s -> s = ROUTED.
Proof. destruct s; simpl; set_solver. Qed.

(** A transition between closed states is in the table. *)
Ltac in_table := apply (bool_decide_eq_true_1 _); reflexivity.

Section orchestrator.
Context `{EiWorld} (o : orchestrator).

(** A computation that dispatches nothing and keeps settled runs settled. *)
Definition still {A} (log : list (string * json)) (m : R A) : Prop :=
  spec (logged log) m (fun _ => logged log) (fun _ => logged log) (logged log).
(** The fact that reading a run gives. *)
Definition known (log : list (string * json)) (rid : string) (r : GovernedRun) : Prop :=
  rid ∈ log.*1 -> past (gr_state r).

Lemma settled_put log rid r t : settled log t -> known log rid r -> settled log (set_runs <[rid := r]> t).
Proof.
  intros Hs Hk rid' Hr. simpl. destruct (decide (rid = rid')) as [<-|Hne].
  - exists r. by rewrite lookup_insert_eq; auto.
  - rewrite lookup_insert_ne by done. by apply Hs.
Qed.

Lemma still_ret {A} log (a : A) : still log (eret a).
Proof. by intros w Hw. Qed.
Lemma still_raise {A} log e : still log (eraise e : R A).
Proof. by intros w Hw. Qed.
Lemma still_bind {A B} log (m : R A) (k : A -> R B) : still log m -> (forall a, still log (k a)) -> still log (ebind m k).
Proof. intros Hm Hk. eapply spec_bind; [exact Hm|exact Hk]. Qed.
Lemma still_get {B} log rid (k : GovernedRun -> R B) :
  (forall r, known log rid r -> still log (k r)) -> still log (ebind (get_run rid) k).
Proof.
  intros Hk w Hw. unfold ebind, get_run. destruct (t_runs (w_db w) !! rid) as [r|] eqn:E; [|done].
  apply Hk; [|done]. intros Hr. destruct Hw as (_ & Hs & _). destruct (Hs rid Hr) as (r' & Hr' & Hp). congruence.
Qed.
Lemma still_read {B} log (k : tables -> R B) :
  (forall t, settled log t -> still log (k t)) -> still log (ebind read_db k).
Proof. intros Hk w Hw. unfold ebind, read_db. apply Hk; [|done]. apply Hw. Qed.
Lemma still_draw log : still log draw.
Proof. by intros w Hw. Qed.
Lemma still_write log f : (forall t, t_runs (f t) = t_runs t) -> still log (write_db f).
Proof.
  intros Hf w (Hd & Hs & Hp). unfold write_db. split_and!; try done. intros rid Hr. cbn [w_db]. rewrite Hf. by apply Hs.
Qed.
Lemma still_put log rid r : known log rid r -> still log (put_run rid r).
Proof. intros Hk w (Hd & Hs & Hp). unfold put_run, write_db. split_and!; try done. by apply settled_put. Qed.
Lemma still_commit log : still log commit.
Proof. intros w (Hd & Hs & Hp). unfold commit. by split_and!. Qed.
Lemma still_rollback log : still log rollback.
Proof. intros w (Hd & Hs & Hp). unfold rollback. by split_and!. Qed.
Lemma still_try {A} log (m : R A) h : still log m -> (forall e, still log (h e)) -> still log (try_except m h).
Proof. intros Hm Hh w Hw. specialize (Hm w Hw). unfold try_except. destruct (m w); try done. by apply Hh. Qed.
Lemma still_lift {A} log (r : res ei_err A) : still log (lift r).
Proof. destruct r; [apply still_ret|apply still_raise]. Qed.
Lemma still_lift_run {A} log (r : res run_err A) : still log (lift_run r).
Proof. destruct r; [apply still_ret|apply still_raise]. Qed.

Create HintDb still.
Hint Resolve still_ret still_raise still_draw still_commit still_rollback still_lift still_lift_run : still.
(** Walk through a computation by the lemmas above. *)
Ltac still_step :=
  match goal with
  | |- forall _, _ => intros ?
  | |- still _ (ebind (get_run _) _) => apply still_get
  | |- still _ (ebind read_db _) => apply still_read
  | |- still _ (ebind _ _) => apply still_bind
  | |- still _ (try_except _ _) => apply still_try
  | |- still _ (write_db _) => apply still_write; intros ?; reflexivity
  | |- still _ (put_run _ _) => apply still_put; done
  | |- still _ (if ?b then _ else _) => destruct b eqn:?
  | |- still _ (match ?x with _ => _ end) => destruct x eqn:?
  | |- still _ _ => solve [auto with still]
  end.
Ltac still_walk := repeat still_step.

Lemma still_transition log rid s : still log (transition rid s).
Proof.
  unfold transition. still_walk. apply still_put. intros Hr. apply bool_decide_eq_true in Heqb.
  by eapply allowed_past; [|by eauto].
Qed.
Lemma still_audit log op p ws run : still log (audit_record o op p ws run).
Proof. unfold audit_record. still_walk. Qed.
Lemma still_pgl_append log c ty cert ev : still log (pgl_append o c ty cert ev).
Proof. unfold pgl_append. still_walk. Qed.
Hint Resolve still_transition still_audit still_pgl_append : still.
Lemma still_insert_certificate log c : still log (insert_certificate o c).
Proof. unfold insert_certificate. still_walk. Qed.
Hint Resolve still_insert_certificate : still.
Lemma still_claim log r : still log (claim_runtime_ownership o r).
Proof. unfold claim_runtime_ownership. still_walk. Qed.
Lemma still_insert_identity log r i : still log (insert_identity r i).
Proof. unfold insert_identity. still_walk. Qed.
Hint Resolve still_claim still_insert_identity : still.

Lemma still_create_run log q : still log (create_run o q).
Proof.
  unfold create_run. apply still_bind; [auto with still|]. intros n. apply still_read. intros t Ht.
  destruct (t_runs t !! o_uuid o n) as [r|] eqn:E; still_walk. apply still_put.
  intros Hr. destruct (Ht _ Hr) as (r' & Hr' & _). congruence.
Qed.
Lemma still_govern_run log rid : still log (govern_run rid).
Proof. unfold govern_run. still_walk. Qed.
Lemma still_commit_run log rid : still log (commit_run o rid).
Proof. unfold commit_run, mint_pre_certificate. still_walk. Qed.
Lemma still_mint_identity log rid : still log (mint_execution_identity o rid).
Proof. unfold mint_execution_identity. still_walk. Qed.
Lemma still_mint_eat log rid : still log (mint_eat o rid).
Proof. unfold mint_eat. still_walk. Qed.
Lemma still_attest log rid : still log (attest_run o rid).
Proof. unfold attest_run, mint_post_certificate. still_walk. Qed.
Lemma still_seal log rid seal : still log (record_evidence_seal o rid seal).
Proof. unfold record_evidence_seal, append_evidence_event. still_walk. Qed.
Lemma still_revoke log id reason ws : still log (revoke o id reason ws).
Proof. unfold revoke. still_walk. Qed.
Lemma still_on_failure log rid e : still log (on_failure o rid e).
Proof. unfold on_failure. still_walk. Qed.
Lemma still_require log i a c ws run : still log (require_execution_identity o i a c ws run).
Proof. unfold require_execution_identity. still_walk. Qed.
Lemma still_ownership log r : still log (enforce_runtime_ownership o r).
Proof. unfold enforce_runtime_ownership. still_walk. Qed.
(** ** What [execute_run] does *)

Lemma set_runs_twice rid r r' t : set_runs <[rid := r]> (set_runs <[rid := r']> t) = set_runs <[rid := r]> t.
Proof. unfold set_runs. simpl. by rewrite insert_insert_eq. Qed.

Lemma transition_ok rid s r w :
  t_runs (w_db w) !! rid = Some r -> s ∈ ALLOWED (gr_state r) ->
  transition rid s w = Ret tt (mk_world (set_runs <[rid := set_state s r]> (w_db w)) (w_durable w) (w_tick w) (w_dispatched w)).
Proof.
  intros Hr Hs. unfold transition, ebind, get_run. rewrite Hr. by rewrite bool_decide_eq_true_2 by done.
Qed.

(** The tables committed before the dispatch, and after an answer. *)
Definition executing_tables (rid : string) (r : GovernedRun) (t : tables) : tables :=
  set_runs <[rid := set_state EXECUTING r]> t.
Definition executed_tables (rid : string) (r : GovernedRun) (x : dict) (t : tables) : tables :=
  set_runs <[rid := set_state EXECUTED (set_result x (set_state EXECUTING r))]> t.

(** The draws made when the enforcement of LAW 0 is over: the gateway reads
    its clock once. *)
Definition after_law0 (w : world) : nat := if o_gateway o then S (w_tick w) else w_tick w.

(** The outcome once everything has been enforced. *)
Definition dispatched_outcome (rid : string) (r : GovernedRun) (w : world) : outcome run_err world dict :=
  let t := executing_tables rid r (w_db w) in
  let request := execution_request (gr_request r) (default [] (gr_execution_identity r)) in
  let log := w_dispatched w ++ [(rid, request)] in
  let n := after_law0 w in
  match o_executor o n request with
  | Answered x => let t' := executed_tables rid r x (w_db w) in Ret x (mk_world t' t' (S n) log)
  | Failed cls m => Raise (ProviderError cls m) (mk_world t t (S n) log)
  | Died => Crash (mk_world t t (S n) log)
  end.

(** Nothing but the audit table and the draws changed. *)
Definition same_runs (w w' : world) : Prop :=
  w_dispatched w' = w_dispatched w /\ t_runs (w_db w') = t_runs (w_db w) /\ w_durable w' = w_durable w.
Lemma same_runs_logged log w w' : same_runs w w' -> logged log w -> logged log w'.
Proof.
  intros (Hd & Hr & Hp) (Hlog & Hs & Hs2). split_and!; [congruence|intros rid Hin; rewrite Hr; by apply Hs|by rewrite Hp].
Qed.

(** The gateway, if there is one, accepts the run's identity in a world. *)
Definition law0_holds (r : GovernedRun) (w : world) : Prop :=
  o_gateway o = true ->
  validate_execution_identity (lookup_certificate (w_db w)) (is_revoked (w_db w)) (o_signing_key o) (o_now o (w_tick w))
    (gr_execution_identity r) (or_else (q_action (gr_request r)) (default_action (gr_scope r)))
    (q_action_cost_cents (gr_request r)) = Ok tt.

Lemma law0_cases r w :
  (enforce_law0 o r w = Ret tt (mk_world (w_db w) (w_durable w) (after_law0 w) (w_dispatched w)) /\ law0_holds r w)
  \/ exists e w', enforce_law0 o r w = Raise e w' /\ same_runs w w' /\ ~ law0_holds r w.
Proof.
  unfold enforce_law0, law0_holds, after_law0. destruct (o_gateway o) eqn:Hg; cbn [negb]; [|left; by destruct w].
  unfold require_execution_identity, ebind, draw, read_db, eret, eraise. cbn.
  destruct (validate_execution_identity _ _ _ _ _ _ _) as [[]|e]; [by left|right].
  destruct e; eexists _, _; (split_and!; [reflexivity|done..|]); intros Hv; by specialize (Hv eq_refl).
Qed.

Lemma execute_enforced rid r w :
  t_runs (w_db w) !! rid = Some r -> gr_state r = ROUTED -> law0_holds r w -> ownership_problem o (w_db w) r = None ->
  execute_run o rid w = dispatched_outcome rid r w.
Proof.
  intros Hr Hs Hl Ho. unfold execute_run, ebind at 1, get_run. rewrite Hr.
  destruct (law0_cases r w) as [[E _]|(e & w' & _ & _ & Hn)]; [|done].
  unfold ebind at 1. rewrite E. unfold ebind at 1, enforce_runtime_ownership, ebind at 1, read_db. cbn [w_db]. rewrite Ho.
  cbn [eret]. unfold ebind at 1. rewrite (transition_ok _ _ r) by (rewrite ?Hs; simpl; done || set_solver).
  unfold ebind at 1, commit, try_except, ebind at 1, dispatch, dispatched_outcome. cbn [w_db w_durable w_tick w_dispatched].
  destruct (o_executor o _ _) as [x|cls m|]; [|done|done].
  unfold ebind at 1, get_run. cbn [w_db t_runs set_runs]. rewrite lookup_insert_eq. unfold ebind at 1, put_run, write_db.
  unfold ebind at 1. rewrite (transition_ok _ _ (set_result x (set_state EXECUTING r)));
    [|apply lookup_insert_eq|simpl; set_solver].
  cbn. by rewrite !set_runs_twice.
Qed.

Lemma run_execute_cases rid w :
  (exists e w', execute_run o rid w = Raise e w' /\ same_runs w w')
  \/ exists r, t_runs (w_db w) !! rid = Some r /\ gr_state r = ROUTED /\ law0_holds r w
       /\ ownership_problem o (w_db w) r = None /\ execute_run o rid w = dispatched_outcome rid r w.
Proof.
  destruct (t_runs (w_db w) !! rid) as [r|] eqn:Hr; cycle 1.
  { left. exists ObjectDeletedError, w. split; [|done]. unfold execute_run, ebind, get_run. by rewrite Hr. }
  destruct (law0_cases r w) as [[E Hl]|(e & w' & E & Hsame & _)]; cycle 1.
  { left. exists e, w'. split; [|done]. unfold execute_run, ebind, get_run. by rewrite Hr, E. }
  destruct (ownership_problem o (w_db w) r) as [e|] eqn:Ho.
  { left. exists e, (mk_world (w_db w) (w_durable w) (after_law0 w) (w_dispatched w)). split; [|done].
    unfold execute_run, ebind at 1, get_run. rewrite Hr. unfold ebind at 1. rewrite E.
    unfold ebind at 1, enforce_runtime_ownership, ebind, read_db. cbn. by rewrite Ho. }
  destruct (decide (gr_state r = ROUTED)) as [Hs|Hs]; [right; exists r; by rewrite (execute_enforced rid r)|left].
  eexists _, (mk_world (w_db w) (w_durable w) (after_law0 w) (w_dispatched w)). split; [|done].
  unfold execute_run, ebind at 1, get_run. rewrite Hr. unfold ebind at 1. rewrite E.
  unfold ebind at 1, enforce_runtime_ownership, ebind, read_db. cbn. rewrite Ho. cbn.
  unfold transition, ebind, get_run. cbn. rewrite Hr.
  rewrite bool_decide_eq_false_2 by (by intros ?%executing_from). done.
Qed.

(** ** The invariant across steps *)

Definition retains {A} (m : R A) : Prop := spec at_most_once m (fun _ => at_most_once) (fun _ => at_most_once) at_most_once.

Lemma retains_quiet {A} (m : R A) : (forall log, still log m) -> retains m.
Proof.
  intros Hq w (log & Hd & Hw). specialize (Hq log w Hw). destruct (m w); by exists log.
Qed.
Lemma retains_bind {A B} (m : R A) (k : A -> R B) : retains m -> (forall a, retains (k a)) -> retains (ebind m k).
Proof. intros Hm Hk. eapply spec_bind; [exact Hm|exact Hk]. Qed.
Lemma retains_try {A} (m : R A) h : retains m -> (forall e, retains (h e)) -> retains (try_except m h).
Proof. intros Hm Hh w Hw. specialize (Hm w Hw). unfold try_except. destruct (m w); try done. by apply Hh. Qed.

Lemma settled_dispatch log rid r r' t x :
  settled log t -> t_runs t !! rid = Some r -> past (gr_state r') ->
  settled (log ++ [(rid, x)]) (set_runs <[rid := r']> t).
Proof.
  intros Hs Hr Hp rid'. rewrite fmap_app, elem_of_app. simpl. rewrite list_elem_of_singleton.
  destruct (decide (rid = rid')) as [<-|Hne]; [intros _; exists r'; by rewrite lookup_insert_eq|].
  intros [Hl| ->]; [|done]. rewrite lookup_insert_ne by done. by apply Hs.
Qed.

Lemma retains_execute rid : retains (execute_run o rid).
Proof.
  intros w (log & Hd & Hw).
  destruct (run_execute_cases rid w) as [(e & w' & -> & Hk)|(r & Hr & Hs & _ & _ & ->)].
  { exists log. split; [done|]. by eapply same_runs_logged. }
  destruct Hw as (Hlog & Hdb & _).
  assert (Hfresh : rid ∉ log.*1).
  { intros Hin. destruct (Hdb rid Hin) as (r' & Hr' & Hp). assert (r' = r) as -> by congruence.
    rewrite Hs in Hp. unfold past in Hp. set_solver. }
  unfold dispatched_outcome. set (request := execution_request _ _).
  assert (Hnd : NoDup (log ++ [(rid, request)]).*1).
  { rewrite fmap_app. apply NoDup_app. split_and!; [done| |by apply NoDup_singleton].
    intros y Hy. simpl. rewrite list_elem_of_singleton. congruence. }
  assert (He : settled (log ++ [(rid, request)]) (executing_tables rid r (w_db w))).
  { eapply settled_dispatch; [done|exact Hr|]. unfold past. simpl. set_solver. }
  destruct (o_executor o _ _) as [x|cls m|]; rewrite Hlog; exists (log ++ [(rid, request)]); (split; [done|]);
    (split; [done|]); try (split; exact He).
  assert (Hx : settled (log ++ [(rid, request)]) (executed_tables rid r x (w_db w))).
  { eapply settled_dispatch; [done|exact Hr|]. unfold past. simpl. set_solver. }
  by split.
Qed.

Lemma retains_phases rid : retains (governed_phases o rid).
Proof.
  unfold governed_phases. apply retains_bind; [apply retains_quiet; intros; apply still_transition|intros _].
  apply retains_bind; [apply retains_quiet; intros; apply still_transition|intros _].
  apply retains_bind; [|intros _].
  { apply retains_quiet. intros log. apply still_try; [apply still_govern_run|]. intros e.
    destruct (is_denied e); [apply still_bind; [apply still_commit_run|]|]; intros; apply still_raise. }
  apply retains_bind; [apply retains_quiet; intros; apply still_commit_run|intros _].
  apply retains_bind; [apply retains_quiet; intros; apply still_mint_identity|intros _].
  apply retains_bind; [apply retains_quiet; intros; apply still_mint_eat|intros _].
  apply retains_bind; [apply retains_quiet; intros; apply still_transition|intros _].
  apply retains_bind; [apply retains_execute|intros x].
  apply retains_bind; [apply retains_quiet; intros; apply still_attest|intros _]. apply retains_quiet. intros. apply still_ret.
Qed.

Lemma retains_run_governed q : retains (run_governed o q).
Proof.
  unfold run_governed. apply retains_bind; [apply retains_quiet; intros; apply still_create_run|]. intros rid.
  apply retains_try; [apply retains_phases|]. intros e. apply retains_quiet. intros. apply still_on_failure.
Qed.
End orchestrator.

(** States from which a run may fail: all but the terminal ones. *)
Definition can_fail (s : RunState) : Prop := FAILED ∈ ALLOWED s.

Section flow.
Context `{EiWorld} (o : orchestrator).

(** The run [rid] of a request, with its result so far, in state [s], and
    what has been dispatched. *)
Definition run_at (rid : string) (q : ExecRequest) (x : option dict) (log : list (string * json)) (s : RunState) (w : world) : Prop :=
  w_dispatched w = log /\ exists r, t_runs (w_db w) !! rid = Some r /\ gr_state r = s /\ gr_request r = q
    /\ gr_run_id r = rid /\ gr_result_payload r = x.
Definition run_live (rid : string) (q : ExecRequest) (x : option dict) (log : list (string * json)) (w : world) : Prop :=
  exists s, can_fail s /\ run_at rid q x log s w.

Section phases.
Context (rid : string) (q : ExecRequest) (x : option dict) (log : list (string * json)).
Abbreviation at_ := (run_at rid q x log).
Abbreviation live := (run_live rid q x log).
(** Facts about a row of this run. *)
Definition row_is (s : RunState) (r : GovernedRun) : Prop :=
  gr_state r = s /\ gr_request r = q /\ gr_run_id r = rid /\ gr_result_payload r = x.

(** From state [s] the computation ends in [s'], or raises with the run alive;
    the process does not die in it. *)
Definition moves {A} (s s' : RunState) (m : R A) : Prop :=
  spec (at_ s) m (fun _ => at_ s') (fun _ => live) (fun _ => False).

Lemma moves_bind {A B} s s1 s2 (m : R A) (k : A -> R B) :
  moves s s1 m -> (forall a, moves s1 s2 (k a)) -> moves s s2 (ebind m k).
Proof. intros Hm Hk. eapply spec_bind; [exact Hm|exact Hk]. Qed.
Lemma moves_ret {A} s (a : A) : moves s s (eret a).
Proof. by intros w Hw. Qed.
Lemma moves_raise {A} s s' e : can_fail s -> moves s s' (eraise e : R A).
Proof. intros Hs w Hw. by exists s. Qed.
Lemma moves_get {B} s s' (k : GovernedRun -> R B) :
  (forall r, row_is s r -> moves s s' (k r)) -> moves s s' (ebind (get_run rid) k).
Proof.
  intros Hk w Hw. destruct Hw as (Hd & r & Hr & Hs). unfold ebind, get_run. rewrite Hr. apply Hk; [done|].
  split; [done|]. by exists r.
Qed.
Lemma moves_read {B} s s' (k : tables -> R B) : (forall t, moves s s' (k t)) -> moves s s' (ebind read_db k).
Proof. intros Hk w Hw. by apply Hk. Qed.
Lemma moves_draw s : moves s s draw.
Proof. by intros w Hw. Qed.
Lemma moves_write s f : (forall t, t_runs (f t) = t_runs t) -> moves s s (write_db f).
Proof.
  intros Hf w (Hd & r & Hr & Hs). split; [done|]. exists r. cbn [w_db]. by rewrite Hf.
Qed.
Lemma moves_put s s' r : row_is s' r -> moves s s' (put_run rid r).
Proof. intros Hr w (Hd & _). split; [done|]. exists r. simpl. by rewrite lookup_insert_eq. Qed.
Lemma moves_lift {A} s (r : res ei_err A) : can_fail s -> moves s s (lift r).
Proof. intros Hs. destruct r; [apply moves_ret|by apply moves_raise]. Qed.
Lemma moves_lift_run {A} s (r : res run_err A) : can_fail s -> moves s s (lift_run r).
Proof. intros Hs. destruct r; [apply moves_ret|by apply moves_raise]. Qed.
Lemma moves_transition s s' : s' ∈ ALLOWED s -> moves s s' (transition rid s').
Proof.
  intros Hs w (Hd & r & Hr & Hst & Hq). rewrite (transition_ok _ _ r) by (rewrite ?Hst; done).
  split; [done|]. exists (set_state s' r). simpl. by rewrite lookup_insert_eq.
Qed.

Create HintDb moves.
Hint Resolve moves_ret moves_raise moves_draw moves_lift moves_lift_run moves_transition : moves.
Hint Extern 1 (can_fail _) => unfold can_fail; simpl; set_solver : moves.
Hint Extern 1 (_ ∈ ALLOWED _) => simpl; set_solver : moves.
(** Walk through a phase: it stays in [s] until its last transition. *)
Ltac moves_step :=
  match goal with
  | |- forall _, _ => intros ?
  | |- moves _ _ (ebind (get_run rid) _) => apply moves_get; intros ? (? & ? & ? & ?)
  | |- moves _ _ (ebind read_db _) => apply moves_read
  | |- moves ?s _ (ebind _ _) => apply (moves_bind s s)
  | |- moves _ _ (write_db _) => apply moves_write; intros ?; reflexivity
  | |- moves _ _ (put_run rid _) => apply moves_put; by split_and!
  | |- moves _ _ (if ?b then _ else _) => destruct b eqn:?
  | |- moves _ _ (match ?r with _ => _ end) => destruct r eqn:?
  | |- moves _ _ _ => solve [auto with moves]
  end.
Ltac moves_walk := repeat moves_step.

Lemma moves_audit s op p ws run : moves s s (audit_record o op p ws run).
Proof. unfold audit_record. moves_walk. Qed.
Lemma moves_pgl_append s c ty cert ev : moves s s (pgl_append o c ty cert ev).
Proof. unfold pgl_append. moves_walk. Qed.
Lemma moves_insert_certificate s c : can_fail s -> moves s s (insert_certificate o c).
Proof. intros Hs. unfold insert_certificate. moves_walk. Qed.
Hint Resolve moves_audit moves_pgl_append moves_insert_certificate : moves.
Lemma moves_claim s r : can_fail s -> moves s s (claim_runtime_ownership o r).
Proof. intros Hs. unfold claim_runtime_ownership. moves_walk. Qed.
Lemma moves_insert_identity s r i : can_fail s -> moves s s (insert_identity r i).
Proof. intros Hs. unfold insert_identity. moves_walk. Qed.
Hint Resolve moves_claim moves_insert_identity : moves.

Lemma moves_commit_run : moves GOVERNED COMMITTED (commit_run o rid).
Proof. unfold commit_run, mint_pre_certificate. moves_walk. Qed.
Lemma moves_mint_identity : moves COMMITTED EI_MINTED (mint_execution_identity o rid).
Proof. unfold mint_execution_identity. moves_walk. Qed.
(** The state [mint_eat] leaves a run in: without a minter it does nothing. *)
Definition after_eat : RunState := if negb (o_gateway o) && bool_decide (o_eat_builder o = None) then EI_MINTED else EAT_MINTED.
Lemma moves_mint_eat : moves EI_MINTED after_eat (mint_eat o rid).
Proof. unfold mint_eat, after_eat. destruct (_ && _); moves_walk. Qed.
Lemma after_eat_routes : ROUTED ∈ ALLOWED after_eat.
Proof. unfold after_eat. destruct (_ && _); simpl; set_solver. Qed.
Lemma moves_attest : moves EXECUTED ATTESTED (attest_run o rid).
Proof. unfold attest_run, mint_post_certificate. moves_walk. Qed.

(** [govern_run] raises a denial only after it recorded the decision. *)
Lemma govern_spec :
  spec (at_ CONTEXTUALIZED) (govern_run rid) (fun _ => at_ GOVERNED)
    (fun e w => live w /\ (is_denied e = true -> at_ GOVERNED w)) (fun _ => False).
Proof.
  intros w Hw. pose proof Hw as (Hd & r & Hr & Hst & Hq & Hi & Hx).
  assert (Hl : live w) by (exists CONTEXTUALIZED; by split; [unfold can_fail; simpl; set_solver|]).
  unfold govern_run, ebind at 1, get_run. rewrite Hr. destruct (str_eqb _ _); [by split|].
  unfold normalize_directive. destruct (bool_decide (_ ∈ RISK_TIERS)); [|by split].
  cbn [lift_run eret]. unfold ebind at 1. cbn [eret]. unfold ebind at 1, put_run, write_db.
  set (r1 := set_decision _ _ r). unfold ebind at 1.
  rewrite (transition_ok _ _ r1);
    [|by simpl; rewrite lookup_insert_eq|replace (gr_state r1) with CONTEXTUALIZED by done; simpl; set_solver].
  assert (Hg : at_ GOVERNED (mk_world (set_runs <[rid := set_state GOVERNED r1]> (set_runs <[rid := r1]> (w_db w)))
                               (w_durable w) (w_tick w) (w_dispatched w))).
  { split; [done|]. exists (set_state GOVERNED r1). simpl. by rewrite lookup_insert_eq. }
  cbn [w_db w_durable w_tick w_dispatched]. destruct (bool_decide (_ ∈ DENY_DIRECTIVES)); [|done].
  split; [|done]. exists GOVERNED. split; [unfold can_fail; simpl; set_solver|done].
Qed.

Lemma moves_governed :
  moves CONTEXTUALIZED GOVERNED
    (try_except (govern_run rid) (fun e => if is_denied e then do! commit_run o rid in eraise e else eraise e)).
Proof.
  intros w Hw. pose proof (govern_spec w Hw) as Hg. unfold try_except. destruct (govern_run rid w) as [[] w'|e w'|w']; [done| |done].
  destruct Hg as [Hl Hd]. destruct (is_denied e); [|done]. specialize (Hd eq_refl).
  pose proof (moves_commit_run w' Hd) as Hc. unfold ebind. destruct (commit_run o rid w') as [[] w''|e' w''|w'']; [|done|done].
  exists COMMITTED. split; [unfold can_fail; simpl; set_solver|done].
Qed.

(** The failure handler: the run fails, and the last audit row says why. *)
Lemma on_failure_spec e w : live w ->
  exists w', on_failure o rid e w = Raise e w' /\ at_ FAILED w'
    /\ exists a, last (as_rows (t_audit (w_db w'))) = Some a /\ av_operation_type a = "run_failed"
         /\ av_run_id a = Some rid
         /\ av_payload a = JObj [("error", JStr (err_message e)); ("error_type", JStr (err_class e));
                                 ("state_at_failure", JStr "FAILED"); ("agent_id", jopt (q_agent_id q));
                                 ("pgl_id", jopt (q_pgl_id q))].
Proof.
  intros (s & Hc & Hd & r & Hr & Hst & Hq & Hi & Hx). unfold on_failure, ebind at 1.
  rewrite (transition_ok _ _ r) by (rewrite ?Hst; done). unfold ebind at 1, get_run. cbn [w_db t_runs set_runs].
  rewrite lookup_insert_eq. eexists. split; [reflexivity|]. split.
  - split; [done|]. exists (set_state FAILED r). simpl. by rewrite lookup_insert_eq.
  - eexists. cbn. rewrite last_snoc. split; [reflexivity|]. cbn. by rewrite Hq, Hi.
Qed.
End phases.
End flow.
