(* ===== verification/RunLive.v ===== *)
(** * What the phases compute when nothing stands in the way

    Exact results of the phases, from the creation of a run to its attestation.
    Used by RunProperties for the runs that are denied and those that are
    attested. *)

From Stdlib Require Import ZArith Lia Ascii String.
From stdpp Require Import base gmap strings list.
From S2P Require Import Prelude Canon PyJson Identity Ledger Runs RunProofs.

Section live.
Context `{EiWorld} (o : orchestrator).

(** The world with other tables and more draws. *)
Definition upd (w : world) (t : tables) (k : nat) : world := mk_world t (w_durable w) k (w_dispatched w).

Definition hashes_of (q : ExecRequest) : list (string * string) :=
  [("genome_hash", or_else (q_genome_hash q) (sha256_json (JObj (payload_of q))));
   ("constitution_hash", or_else (q_constitution_hash q) (sha256_json (JObj [("version", JStr "1")])));
   ("plan_hash", or_else (q_plan_hash q) (sha256_json (JStr (q_prompt q))))].
Definition scope_of (q : ExecRequest) : dict :=
  match q_scope q with Some (kv :: m) => kv :: m | _ => [("tools", JArr [JStr "llm.exec"])] end.
Definition new_run (q : ExecRequest) (rid : string) : GovernedRun :=
  mk_run rid (q_workspace_id q) (q_tenant_id q) (q_delegation_depth q) CREATED (q_execution_mode q)
    None None [] [] [] (hashes_of q) (q_budget_approved_cents q) 0 (scope_of q) None None q None.

(** One step of a computation whose first part returns. *)
Lemma ebind_Ret {A B} (m : R A) (k : A -> R B) w a w' : m w = Ret a w' -> ebind m k w = k a w'.
Proof. unfold ebind. by intros ->. Qed.
Lemma put_exact rid r w : put_run rid r w = Ret tt (upd w (set_runs <[rid := r]> (w_db w)) (w_tick w)).
Proof. reflexivity. Qed.
Lemma write_exact f w : write_db f w = Ret tt (upd w (f (w_db w)) (w_tick w)).
Proof. reflexivity. Qed.
Lemma audit_exact op p ws run w :
  exists a, audit_record o op p ws run w = Ret tt (upd w (set_audit a (w_db w)) (S (w_tick w))).
Proof. eexists. unfold audit_record, ebind, draw, write_db, upd. cbv beta iota zeta. reflexivity. Qed.
Lemma pgl_append_exact c ty cert ev w :
  exists evs id, pgl_append o c ty cert ev w = Ret id (upd w (set_pgl_events evs (w_db w)) (S (w_tick w))).
Proof. eexists _, _. unfold pgl_append, ebind, draw, read_db, write_db, eret, upd. cbv beta iota zeta. reflexivity. Qed.
Lemma insert_certificate_exact c w :
  t_certificates (w_db w) !! o_uuid o (w_tick w) = None ->
  insert_certificate o c w = Ret (o_uuid o (w_tick w))
    (upd w (set_certificates <[o_uuid o (w_tick w) := c]> (w_db w)) (S (w_tick w))).
Proof. intros Hf. unfold insert_certificate, ebind, draw, read_db. cbn [w_db]. by rewrite Hf. Qed.
Lemma mint_post_exact pre c w :
  t_certificates (w_db w) !! o_uuid o (w_tick w) = None ->
  exists evs, mint_post_certificate o pre c w = Ret (o_uuid o (w_tick w))
    (upd w (set_pgl_events evs (set_certificates (alter (link_post (o_uuid o (w_tick w))) pre)
       (set_certificates <[o_uuid o (w_tick w) := c]> (w_db w)))) (S (S (w_tick w)))).
Proof.
  intros Hf. unfold mint_post_certificate. rewrite (ebind_Ret _ _ _ _ _ (insert_certificate_exact c w Hf)).
  rewrite (ebind_Ret _ _ _ _ _ (write_exact _ _)).
  destruct (pgl_append_exact (o_uuid o (w_tick w)) "post_certificate_minted" c None
    (upd w (set_certificates (alter (link_post (o_uuid o (w_tick w))) pre)
       (set_certificates <[o_uuid o (w_tick w) := c]> (w_db w))) (S (w_tick w)))) as (evs & id & E).
  exists evs. rewrite (ebind_Ret _ _ _ _ _ E). done.
Qed.

Lemma create_exact q w :
  t_runs (w_db w) !! o_uuid o (w_tick w) = None ->
  create_run o q w = Ret (o_uuid o (w_tick w))
    (upd w (set_runs <[o_uuid o (w_tick w) := new_run q (o_uuid o (w_tick w))]> (w_db w)) (S (w_tick w))).
Proof. intros Hf. unfold create_run, ebind, draw, read_db. cbn [w_db]. by rewrite Hf. Qed.

Lemma govern_exact rid r d tier w :
  t_runs (w_db w) !! rid = Some r -> gr_state r = CONTEXTUALIZED ->
  normalize_directive true (q_directive (gr_request r)) (q_risk_tier (gr_request r)) = Ok (d, tier) ->
  d <> "NEEDS_APPROVAL" ->
  govern_run rid w =
    let w' := upd w (set_runs <[rid := set_state GOVERNED (set_decision d tier r)]> (w_db w)) (w_tick w) in
    if bool_decide (d ∈ DENY_DIRECTIVES)
    then Raise (GovernanceDeniedError ("governance directive " +:+ quote d +:+ " vetoed execution")) w' else Ret tt w'.
Proof.
  intros Hr Hs Hn Hd. unfold govern_run, ebind at 1, get_run. rewrite Hr.
  assert (Hne : str_eqb (strip (default "" (q_directive (gr_request r)))) "" = false).
  { apply str_eqb_neq. intros He. unfold normalize_directive in Hn. destruct (q_directive (gr_request r)) as [s|]; simpl in *.
    - rewrite He in Hn. simpl in Hn. destruct (bool_decide _); congruence.
    - destruct (bool_decide _); congruence. }
  rewrite Hne, Hn. cbn [lift_run]. unfold ebind at 1, eret. unfold ebind at 1, put_run, write_db. unfold ebind at 1.
  rewrite (transition_ok _ _ (set_decision d tier r));
    [|by simpl; rewrite lookup_insert_eq|simpl; rewrite Hs; in_table].
  cbn [w_db w_durable w_tick w_dispatched fst snd]. rewrite set_runs_twice. by destruct (bool_decide _).
Qed.

Definition pre_certificate (r : GovernedRun) (d : string) : PGLCertificate :=
  mk_cert (gr_run_id r) (gr_workspace_id r) (q_pgl_id (gr_request r))
    (opt_or (q_agent_id (gr_request r)) (opt_or (q_pgl_id (gr_request r)) None)) None None
    (hash_of r "genome_hash") (hash_of r "constitution_hash") (hash_of r "plan_hash") None None d
    (or_else (gr_risk_tier r) "standard") (gr_approved_budget_cents r) (gr_reserve_cents r) true.
Definition committed (cid : string) (r : GovernedRun) : GovernedRun :=
  set_state COMMITTED (set_pgl_identity [("pre_execution_certificate_id", JStr cid); ("persisted", JBool true)] r).

Lemma commit_exact rid r d w :
  t_runs (w_db w) !! rid = Some r -> gr_state r = GOVERNED -> recorded_directive (gr_governance_decision r) = Ok d ->
  t_certificates (w_db w) !! o_uuid o (w_tick w) = None ->
  exists evs, commit_run o rid w = Ret tt (upd w
    (set_runs <[rid := committed (o_uuid o (w_tick w)) r]>
       (set_pgl_events evs (set_certificates <[o_uuid o (w_tick w) := pre_certificate r d]> (w_db w)))) (S (S (w_tick w)))).
Proof.
  intros Hr Hs Hd Hc. eexists. unfold commit_run, ebind at 1, get_run. rewrite Hr, Hd. cbn [lift_run].
  unfold ebind at 1, eret at 1, ebind at 1, mint_pre_certificate, ebind at 1, insert_certificate, ebind at 1, draw at 1.
  unfold ebind at 1, read_db at 1. cbn [w_db]. rewrite Hc. unfold ebind at 1, write_db at 1, eret at 1.
  unfold ebind at 1, pgl_append, ebind at 1, draw, ebind at 1, read_db, ebind at 1, write_db at 1, eret at 1 2.
  unfold ebind at 1, put_run, write_db.
  rewrite (transition_ok _ _ (set_pgl_identity [("pre_execution_certificate_id", JStr (o_uuid o (w_tick w)));
                                                ("persisted", JBool true)] r));
    [|by simpl; rewrite lookup_insert_eq|simpl; rewrite Hs; in_table].
  cbn [w_db w_durable w_tick w_dispatched]. by rewrite set_runs_twice.
Qed.

(** From creation to the recorded decision. *)
Definition governed (q : ExecRequest) (rid d tier : string) : GovernedRun :=
  set_state GOVERNED (set_decision d tier (set_state CONTEXTUALIZED (set_state COMPILED (new_run q rid)))).

Lemma begin_exact {A} q rid w (k : unit -> R A) :
  t_runs (w_db w) !! rid = Some (new_run q rid) ->
  ebind (compile_run rid) (fun _ => ebind (contextualize_run rid) k) w
  = k tt (upd w (set_runs <[rid := set_state CONTEXTUALIZED (set_state COMPILED (new_run q rid))]> (w_db w)) (w_tick w)).
Proof.
  intros Hr. rewrite (ebind_Ret _ _ _ _ _ (transition_ok rid COMPILED _ w Hr ltac:(in_table))).
  set (w1 := mk_world _ _ _ _).
  assert (Hr1 : t_runs (w_db w1) !! rid = Some (set_state COMPILED (new_run q rid))) by apply lookup_insert_eq.
  rewrite (ebind_Ret _ _ _ _ _ (transition_ok rid CONTEXTUALIZED _ w1 Hr1 ltac:(in_table))).
  cbn [w1 w_db w_durable w_tick w_dispatched]. by rewrite set_runs_twice.
Qed.

Lemma on_failure_exact rid r e w :
  t_runs (w_db w) !! rid = Some r -> FAILED ∈ ALLOWED (gr_state r) ->
  exists a, on_failure o rid e w = Raise e (upd w (set_audit a (set_runs <[rid := set_state FAILED r]> (w_db w))) (S (w_tick w))).
Proof.
  intros Hr Hs. unfold on_failure. rewrite (ebind_Ret _ _ _ _ _ (transition_ok rid FAILED r w Hr Hs)).
  rewrite (ebind_Ret _ _ _ (set_state FAILED r) (mk_world (set_runs <[rid := set_state FAILED r]> (w_db w)) (w_durable w)
    (w_tick w) (w_dispatched w))) by (unfold get_run; cbn; by rewrite lookup_insert_eq).
  match goal with |- context [audit_record o ?a ?b ?c ?e] => destruct (audit_exact a b c e
    (mk_world (set_runs <[rid := set_state FAILED r]> (w_db w)) (w_durable w) (w_tick w) (w_dispatched w))) as [au E] end.
  exists au. by rewrite (ebind_Ret _ _ _ _ _ E).
Qed.

(** ** The identity *)

(** The identity minted for a committed run. *)
Definition minted (r : GovernedRun) (d id : string) (a : RuntimePathAssignment) (now : Z) : dict :=
  finalize_and_sign (o_signing_key o)
    (legacy_identity (ei_inputs o r d a) id 300 (gr_approved_budget_cents r) (gr_reserve_cents r) (gr_delegation_depth r)
       (iso now) (iso (now + 300 * 1000000)) ++ [("runtime_ownership", ownership_json a)]).

Lemma filter_none {A} (P : A -> Prop) `{forall x, Decision (P x)} (l : list A) :
  (forall x, x ∈ l -> ~ P x) -> filter P l = [].
Proof.
  induction l as [|x l IH]; intros Hn; [done|]. rewrite filter_cons_False by (apply Hn, list_elem_of_here).
  apply IH. intros y Hy. by apply Hn, list_elem_of_further.
Qed.

Lemma int_or_int z : int_or (JInt z) 0 = Ok z.
Proof. unfold int_or. simpl. destruct (z =? 0)%Z eqn:E; [|done]. apply Z.eqb_eq in E. by subst. Qed.

Lemma truthy_str s : s <> "" -> truthy (JStr s) = true.
Proof. intros Hs. simpl. by apply str_eqb_neq in Hs as ->. Qed.

Lemma build_exact r d cid a id now :
  gr_pgl_identity r = [("pre_execution_certificate_id", JStr cid); ("persisted", JBool true)] -> cid <> "" ->
  hash_of r "genome_hash" <> "" -> hash_of r "constitution_hash" <> "" -> hash_of r "plan_hash" <> "" -> d <> "" ->
  or_else (gr_risk_tier r) "standard" <> "" ->
  gr_scope r <> [] -> o_issuer o <> "" ->
  build (o_signing_key o) now id (ei_inputs o r d a) = Ok (minted r d id a now).
Proof.
  intros Hp Hc H1 H2 H3 Hd Ht Hs Hi. unfold build.
  assert (Hm : missing_inputs (ei_inputs o r d a) = []).
  { unfold missing_inputs. change (is_legacy (ei_inputs o r d a)) with true. cbv iota. unfold legacy_required.
    assert (Hin : Forall (fun k => truthy (dget (ei_inputs o r d a) k) = true) legacy_required).
    { unfold legacy_required. repeat (apply Forall_cons; split); [..|apply Forall_nil; exact I].
      - change (truthy (dget_or (gr_pgl_identity r) "pre_execution_certificate_id" (JStr "")) = true). rewrite Hp.
        by apply truthy_str.
      - by apply (truthy_str (hash_of r "genome_hash")).
      - by apply (truthy_str (hash_of r "constitution_hash")).
      - by apply (truthy_str (hash_of r "plan_hash")).
      - by apply (truthy_str d).
      - by apply (truthy_str (or_else (gr_risk_tier r) "standard")).
      - change (truthy (JObj (gr_scope r)) = true). by destruct (gr_scope r).
      - by apply (truthy_str (o_issuer o)). }
    apply filter_none. intros k Hk. rewrite Forall_forall in Hin. by rewrite (Hin k Hk). }
  rewrite Hm. change (dget (ei_inputs o r d a) "ttl_seconds") with JNull. cbn [int_or truthy rbind].
  change (is_legacy (ei_inputs o r d a)) with true. cbv iota.
  change (dget (ei_inputs o r d a) "budget_approved_cents") with (JInt (gr_approved_budget_cents r)).
  change (dget (ei_inputs o r d a) "budget_reserve_cents") with (JInt (gr_reserve_cents r)).
  change (dget (ei_inputs o r d a) "delegation_depth") with (JInt (gr_delegation_depth r)).
  rewrite !int_or_int. reflexivity.
Qed.
(** The gateway's checks on a minted identity, field by field. *)
Lemma minted_body r d id a now :
  canonical_body (minted r d id a now)
  = legacy_identity (ei_inputs o r d a) id 300 (gr_approved_budget_cents r) (gr_reserve_cents r) (gr_delegation_depth r)
      (iso now) (iso (now + 300 * 1000000)) ++ [("runtime_ownership", ownership_json a)].
Proof. reflexivity. Qed.
Lemma minted_hash r d id a now :
  dget (minted r d id a now) "hash" = JStr (sha256_json (JObj (canonical_body (minted r d id a now)))).
Proof. reflexivity. Qed.
Lemma minted_signature r d id a now :
  dget_or (minted r d id a now) "signature" (JStr "")
  = JStr (sign_payload_ed25519 (canonical_body (minted r d id a now)) (o_signing_key o)).
Proof. reflexivity. Qed.
Lemma minted_certificate r d id a now cid :
  gr_pgl_identity r = [("pre_execution_certificate_id", JStr cid); ("persisted", JBool true)] ->
  py_or (dget (minted r d id a now) "pre_execution_certificate_id") (dget (minted r d id a now) "pgl_pre_certificate_id")
  = JStr cid.
Proof.
  intros Hp. change (dget_or (gr_pgl_identity r) "pre_execution_certificate_id" (JStr "") = JStr cid). by rewrite Hp.
Qed.
Lemma minted_execution_id r d id a now :
  gr_run_id r <> "" -> dget_or (minted r d id a now) "execution_id" (JStr "") = JStr (gr_run_id r).
Proof.
  intros Hr. change (py_or (JStr (gr_run_id r)) (JStr id) = JStr (gr_run_id r)). unfold py_or. by rewrite truthy_str.
Qed.
End live.

Section laws.
Context `{EiLaws} (o : orchestrator).

Lemma minted_keys r d id a now :
  forallb (fun k => bool_decide (is_Some (assoc k (minted o r d id a now)))) eat_keys = true.
Proof. reflexivity. Qed.
Lemma minted_scope r d id a now : dget (minted o r d id a now) "scope" = JObj (gr_scope r).
Proof. reflexivity. Qed.
Lemma minted_truthy r d id a now : gr_run_id r <> "" -> truthy (dget (minted o r d id a now) "execution_id") = true.
Proof.
  intros Hr. change (truthy (py_or (JStr (gr_run_id r)) (JStr id)) = true). unfold py_or. by rewrite !truthy_str.
Qed.

Lemma minted_budget r d id a now cost :
  gr_approved_budget_cents r = 0%Z \/ (cost <= gr_approved_budget_cents r)%Z ->
  check_budget cost (minted o r d id a now) = Ok tt.
Proof.
  intros Hb. unfold check_budget.
  change (dget_or (minted o r d id a now) "budget" (JObj [])) with (JObj [("approved_cents", JInt (gr_approved_budget_cents r))]).
  change (dget (minted o r d id a now) "budget_approved_cents") with (JInt (gr_approved_budget_cents r)).
  cbn [as_dict rbind]. change (dget_or [("approved_cents", JInt (gr_approved_budget_cents r))] "remaining" (JInt 1)) with (JInt 1).
  cbn [as_int rbind]. change (dget [("approved_cents", JInt (gr_approved_budget_cents r))] "approved_cents")
    with (JInt (gr_approved_budget_cents r)).
  change (dget [("approved_cents", JInt (gr_approved_budget_cents r))] "limit_cents") with JNull.
  unfold py_or. cbn [truthy]. destruct (gr_approved_budget_cents r =? 0)%Z eqn:E; cbn; [done|].
  rewrite E. cbn. apply Z.eqb_neq in E. destruct Hb as [Hb|Hb]; [done|].
  unfold invalid_if, raise_if. replace (gr_approved_budget_cents r <? cost)%Z with false by (symmetry; lia). done.
Qed.

Lemma minted_directive r d id a now : d ∈ ALLOW_DIRECTIVES -> check_directive (minted o r d id a now) = Ok tt.
Proof.
  intros Hd. unfold check_directive. change (dget (minted o r d id a now) "directive") with (JStr d).
  assert (Hc : d = "ALLOW" \/ d = "ALLOW_WITH_AUDIT") by (unfold ALLOW_DIRECTIVES in Hd; set_solver). by destruct Hc as [->| ->].
Qed.

Lemma minted_ttl r d id a now now' : (now' <= now + 300 * 1000000)%Z -> check_ttl now' (minted o r d id a now) = Ok tt.
Proof.
  intros Hn. unfold check_ttl. change (dget (minted o r d id a now) "expires_at") with (JStr (iso (now + 300 * 1000000))).
  destruct (truthy _); [|done]. rewrite iso_plain, iso_parses. unfold invalid_if, raise_if.
  by replace (now + 300 * 1000000 <? now')%Z with false by (symmetry; lia).
Qed.

Lemma minted_integrity r d id a now :
  spki_public (o_signing_key o) = None -> check_integrity (o_signing_key o) (minted o r d id a now) = Ok tt.
Proof.
  intros Hk. unfold check_integrity. rewrite minted_signature, signature_verifies by done. rewrite minted_hash.
  rewrite truthy_str by apply sha256_hex_nonempty. unfold is_str. by rewrite str_eqb_refl.
Qed.

(** A minted identity passes the gateway: its certificate is there with the
    run's hashes, the action is in scope and paid for, and the check is within
    the 300 seconds. *)
Lemma minted_validates r d id a now now' cid c lookup revoked action cost :
  gr_pgl_identity r = [("pre_execution_certificate_id", JStr cid); ("persisted", JBool true)] -> cid <> "" ->
  gr_run_id r <> "" -> d ∈ ALLOW_DIRECTIVES -> lookup (JStr cid) = Some c ->
  c = mk_cert_view true (hash_of r "genome_hash") (hash_of r "constitution_hash") (hash_of r "plan_hash") ->
  revoked (JStr (gr_run_id r)) = false -> (now' <= now + 300 * 1000000)%Z ->
  check_scope action [("scope", JObj (gr_scope r))] = Ok tt ->
  gr_approved_budget_cents r = 0%Z \/ (cost <= gr_approved_budget_cents r)%Z -> (gr_delegation_depth r <= 5)%Z ->
  o_signing_key o <> "" -> spki_public (o_signing_key o) = None ->
  validate_execution_identity lookup revoked (o_signing_key o) now' (Some (minted o r d id a now)) action cost = Ok tt.
Proof.
  intros Hp Hcid Hrid Hd Hc -> Hrev Hnow Hsc Hb Hdep Hk Hspki. unfold validate_execution_identity.
  destruct (minted o r d id a now) as [|kv l] eqn:El; [discriminate|]. rewrite <- El. clear El kv l.
  unfold find_certificate. rewrite (minted_certificate o r d id a now cid Hp), truthy_str by done. cbn [negb invalid_if raise_if rbind].
  rewrite Hc. cbn [rbind]. unfold check_certificate.
  change (dget (minted o r d id a now) "genome_hash") with (JStr (hash_of r "genome_hash")).
  change (dget (minted o r d id a now) "constitution_hash") with (JStr (hash_of r "constitution_hash")).
  change (dget (minted o r d id a now) "plan_hash") with (JStr (hash_of r "plan_hash")).
  cbn [is_str cv_persisted cv_genome_hash cv_constitution_hash cv_plan_hash]. rewrite !str_eqb_refl. cbn [negb invalid_if raise_if rbind].
  rewrite minted_directive by done. cbn [rbind]. rewrite minted_ttl by done. cbn [rbind].
  change (check_scope action (minted o r d id a now)) with (check_scope action [("scope", JObj (gr_scope r))]).
  rewrite Hsc. cbn [rbind]. rewrite minted_budget by done. cbn [rbind].
  change (check_depth (minted o r d id a now)) with (invalid_if (5 <? gr_delegation_depth r)%Z "delegation depth exceeded").
  replace (5 <? gr_delegation_depth r)%Z with false by (symmetry; lia). cbn [invalid_if raise_if rbind].
  unfold check_revoked. change (dget (minted o r d id a now) "revoked") with JNull.
  rewrite minted_execution_id by done. rewrite Hrev. cbn [truthy invalid_if raise_if rbind].
  apply str_eqb_neq in Hk. rewrite Hk. by apply minted_integrity.
Qed.
(** ** From commitment to attestation *)

Definition assignment_of (rid id : string) : RuntimePathAssignment :=
  mk_assignment id rid 1 (o_runtime_kind o) (o_runtime_instance o).

Lemma claim_exact r w :
  o_runtime_kind o <> "" -> o_runtime_instance o <> "" ->
  Forall (fun b => pa_path_id b <> gr_run_id r /\ pa_assignment_id b <> o_uuid o (w_tick w)) (t_assignments (w_db w)) ->
  claim_runtime_ownership o r w
  = Ret (assignment_of (gr_run_id r) (o_uuid o (w_tick w)))
      (upd w (add_assignment (assignment_of (gr_run_id r) (o_uuid o (w_tick w))) (w_db w)) (S (w_tick w))).
Proof.
  intros Hk%str_eqb_neq Hi%str_eqb_neq Hf. unfold claim_runtime_ownership. rewrite Hk, Hi. cbn [orb].
  assert (Hex : forall (p : RuntimePathAssignment -> bool), (forall b, b ∈ t_assignments (w_db w) -> p b = false) ->
            existsb p (t_assignments (w_db w)) = false).
  { intros p Hp. induction (t_assignments (w_db w)) as [|b l IH]; [done|]. simpl. rewrite Hp by apply list_elem_of_here.
    simpl. apply IH; [by apply Forall_cons_1 in Hf as [_ ?]|]. intros b' Hb'. by apply Hp, list_elem_of_further. }
  rewrite Forall_forall in Hf. unfold ebind, read_db.
  rewrite Hex by (intros b Hb; apply str_eqb_neq; by apply Hf). unfold draw. cbn [pa_assignment_id].
  rewrite Hex by (intros b Hb; apply str_eqb_neq; by apply Hf). done.
Qed.

(** The row of the identity minted for a run. *)
Definition identity_row (r : GovernedRun) (i : dict) (cid : string) (expires : Z) : ExecutionIdentityRow :=
  mk_ei_row (gr_run_id r) (gr_workspace_id r) (JStr cid) None expires i false.

Lemma insert_identity_exact r d id a now cid w :
  gr_pgl_identity r = [("pre_execution_certificate_id", JStr cid); ("persisted", JBool true)] ->
  gr_run_id r <> "" -> t_identities (w_db w) !! gr_run_id r = None ->
  insert_identity r (minted o r d id a now) w
  = Ret tt (upd w (set_identities <[gr_run_id r := identity_row r (minted o r d id a now) cid (now + 300 * 1000000)]> (w_db w))
              (w_tick w)).
Proof.
  intros Hp Hr Hn. unfold insert_identity, ebind, read_db.
  assert (E1 : dget (minted o r d id a now) "ei_id" = JStr (gr_run_id r)).
  { change (py_or (JStr (gr_run_id r)) (JStr id) = JStr (gr_run_id r)). unfold py_or. by rewrite truthy_str. }
  assert (E2 : dget (minted o r d id a now) "pgl_certificate_id" = JStr cid).
  { change (dget_or (gr_pgl_identity r) "pre_execution_certificate_id" (JStr "") = JStr cid). by rewrite Hp. }
  rewrite E1, E2. change (dget (minted o r d id a now) "expires_at") with (JStr (iso (now + 300 * 1000000))).
  cbn beta iota. by rewrite iso_parses, Hn.
Qed.

Lemma mint_exact rid r d cid w :
  t_runs (w_db w) !! rid = Some r -> gr_state r = COMMITTED -> gr_run_id r = rid -> rid <> "" ->
  gr_governance_decision r = Some d -> permitted_directive (Some d) = Ok d -> d <> "" ->
  gr_pgl_identity r = [("pre_execution_certificate_id", JStr cid); ("persisted", JBool true)] -> cid <> "" ->
  hash_of r "genome_hash" <> "" -> hash_of r "constitution_hash" <> "" -> hash_of r "plan_hash" <> "" ->
  or_else (gr_risk_tier r) "standard" <> "" -> gr_scope r <> [] -> o_issuer o <> "" ->
  o_runtime_kind o <> "" -> o_runtime_instance o <> "" ->
  Forall (fun b => pa_path_id b <> rid /\ pa_assignment_id b <> o_uuid o (w_tick w)) (t_assignments (w_db w)) ->
  t_identities (w_db w) !! rid = None ->
  let a := assignment_of rid (o_uuid o (w_tick w)) in
  let now := o_now o (S (w_tick w)) in
  let i := minted o r d (o_uuid o (S (w_tick w))) a now in
  mint_execution_identity o rid w = Ret tt (upd w
    (set_runs <[rid := set_state EI_MINTED (set_identity i r)]>
       (set_identities <[rid := identity_row r i cid (now + 300 * 1000000)]> (add_assignment a (w_db w)))) (S (S (w_tick w)))).
Proof.
  intros Hr Hs Hid Hne Hd Hperm Hdne Hp Hcid Hg Hc Hpl Ht Hsc Hi Hk Hin Hf He a now i. subst rid.
  unfold mint_execution_identity, ebind at 1, get_run. rewrite Hr, Hd, Hperm. cbn [lift_run].
  unfold ebind at 1, eret, ebind at 1. rewrite claim_exact by done. unfold ebind at 1, draw. cbn [w_tick upd].
  rewrite (build_exact o r d cid) by done. cbn [lift]. unfold ebind at 1, eret, ebind at 1, put_run, write_db, ebind at 1.
  rewrite (insert_identity_exact r d _ _ _ cid) by done. cbn [w_db w_durable w_tick w_dispatched upd].
  fold a. fold now. fold i. clearbody i.
  rewrite (transition_ok _ _ (set_identity i r));
    [|by cbn; rewrite lookup_insert_eq|cbn [set_identity gr_state]; rewrite Hs; in_table].
  unfold upd, set_runs, set_identities, add_assignment. cbn. by rewrite insert_insert_eq.
Qed.

Lemma eat_exact rid r ei w :
  o_gateway o = true ->
  t_runs (w_db w) !! rid = Some r -> gr_state r = EI_MINTED -> gr_execution_identity r = Some ei ->
  truthy (dget ei "execution_id") = true -> forallb (fun k => bool_decide (is_Some (assoc k ei))) eat_keys = true ->
  or_else (gr_risk_tier r) "standard" <> "terminated" ->
  exists eat audit, mint_eat o rid w = Ret tt (upd w
    (set_audit audit (set_runs <[rid := set_state EAT_MINTED (set_eat eat r)]> (w_db w))) (S (S (w_tick w)))).
Proof.
  intros Hgw Hr Hs Hei Hx Hkeys Ht%str_eqb_neq. unfold mint_eat. rewrite Hgw. cbn [negb andb]. unfold ebind at 1, get_run. rewrite Hr, Hei.
  destruct ei as [|kv ei]; [done|]. unfold ebind at 1, draw.
  match goal with |- context [eat_build ?x1 ?x2 ?x3 ?x4 ?x5 ?x6 ?x7 ?x8 ?x9] =>
    assert (He : exists eat, eat_build x1 x2 x3 x4 x5 x6 x7 x8 x9 = Ok eat) end.
  { eexists. unfold eat_build. rewrite Hx, Hkeys, Ht. reflexivity. }
  destruct He as [eat ->]. exists eat. eexists. cbn [lift_run]. unfold ebind at 1, eret, ebind at 1, put_run, write_db at 1, ebind at 1.
  unfold audit_record, ebind at 1, draw, write_db. cbn [w_db w_durable w_tick w_dispatched].
  rewrite (transition_ok _ _ (set_eat eat r)); [|by cbn; rewrite lookup_insert_eq|cbn [set_eat gr_state]; rewrite Hs; in_table].
  cbn [w_db w_durable w_tick w_dispatched]. unfold upd, set_runs, set_audit. cbn. by rewrite insert_insert_eq.
Qed.
(** From the minted identity to the route. *)
Lemma route_exact {A} rid r i w (k : unit -> R A) :
  o_gateway o = true ->
  t_runs (w_db w) !! rid = Some r -> gr_state r = EI_MINTED -> gr_execution_identity r = Some i ->
  truthy (dget i "execution_id") = true -> forallb (fun k => bool_decide (is_Some (assoc k i))) eat_keys = true ->
  or_else (gr_risk_tier r) "standard" <> "terminated" ->
  exists eat audit, ebind (mint_eat o rid) (fun _ => ebind (route_run rid) k) w
    = k tt (upd w (set_audit audit (set_runs <[rid := set_state ROUTED (set_state EAT_MINTED (set_eat eat r))]> (w_db w)))
              (S (S (w_tick w)))).
Proof.
  intros Hgw Hr Hs Hi Hx Hkeys Ht. destruct (eat_exact rid r i w) as (eat & au & E); try done. exists eat, au.
  rewrite (ebind_Ret _ _ _ _ _ E). clear E. set (w1 := upd w _ _).
  assert (Hr1 : t_runs (w_db w1) !! rid = Some (set_state EAT_MINTED (set_eat eat r))) by apply lookup_insert_eq.
  rewrite (ebind_Ret _ _ _ _ _ (transition_ok rid ROUTED _ w1 Hr1 ltac:(in_table))).
  unfold w1, upd, set_audit, set_runs. cbn. by rewrite insert_insert_eq.
Qed.

Lemma ownership_exact t r r0 d id now old aid :
  gr_execution_identity r = Some (minted o r0 d id (assignment_of (gr_run_id r) aid) now) ->
  t_assignments t = old ++ [assignment_of (gr_run_id r) aid] -> Forall (fun b => pa_assignment_id b <> aid) old ->
  ownership_problem o t r = None.
Proof.
  intros Hi Ht Hf. unfold ownership_problem.
  assert (Hown : dget (default [] (gr_execution_identity r)) "runtime_ownership"
                 = ownership_json (assignment_of (gr_run_id r) aid)) by (rewrite Hi; reflexivity).
  rewrite Hown. clear Hown Hi.
  assert (Hfind : find_assignment t (JStr aid) = Some (assignment_of (gr_run_id r) aid)).
  { unfold find_assignment. rewrite Ht, filter_app, filter_none by (intros b Hb; rewrite Forall_forall in Hf; by apply Hf).
    rewrite filter_cons_True by done. done. }
  set (a := assignment_of (gr_run_id r) aid) in *. unfold ownership_json.
  match goal with |- context [dget ?own "path_id"] =>
    change (dget own "path_id") with (JStr (gr_run_id r)); change (dget own "runtime_kind") with (JStr (o_runtime_kind o));
    change (dget own "runtime_instance") with (JStr (o_runtime_instance o)); change (dget own "assignment_id") with (JStr aid);
    change (forallb (fun k => bool_decide (is_Some (assoc k own))) ownership_keys) with true end.
  rewrite Hfind. cbn [is_str negb orb]. rewrite !str_eqb_refl. reflexivity.
Qed.

Definition post_certificate (r : GovernedRun) (d cid : string) (x : dict) : PGLCertificate :=
  mk_cert (gr_run_id r) (gr_workspace_id r) (q_pgl_id (gr_request r)) None (Some cid) None (hash_of r "genome_hash")
    (hash_of r "constitution_hash") (hash_of r "plan_hash") (Some (sha256_json (JObj x)))
    (Some (sha256_json (JObj [("state", JStr "EXECUTED"); ("result", JObj x)]))) d (or_else (gr_risk_tier r) "standard") 0 0 true.

Lemma attest_exact rid r d cid x w :
  t_runs (w_db w) !! rid = Some r -> gr_state r = EXECUTED -> gr_result_payload r = Some x ->
  gr_governance_decision r = Some d -> permitted_directive (Some d) = Ok d ->
  gr_pgl_identity r = [("pre_execution_certificate_id", JStr cid); ("persisted", JBool true)] ->
  t_certificates (w_db w) !! o_uuid o (w_tick w) = None ->
  exists w' r', attest_run o rid w = Ret tt w' /\ w_dispatched w' = w_dispatched w /\ t_runs (w_db w') !! rid = Some r'
    /\ gr_state r' = ATTESTED /\ gr_result_payload r' = Some x
    /\ t_certificates (w_db w') = alter (link_post (o_uuid o (w_tick w))) cid
         (<[o_uuid o (w_tick w) := post_certificate r d cid x]> (t_certificates (w_db w)))
    /\ gr_execution_identity r' = gr_execution_identity r /\ gr_run_id r' = gr_run_id r
    /\ t_assignments (w_db w') = t_assignments (w_db w)
    /\ (forall id e, t_identities (w_db w) !! id = Some e -> exists e', t_identities (w_db w') !! id = Some e'
          /\ ei_identity e' = ei_identity e /\ ei_run_id e' = ei_run_id e /\ ei_revoked e' = ei_revoked e).
Proof.
  intros Hr Hs Hx Hd Hperm Hp Hf. unfold attest_run, ebind at 1, get_run. rewrite Hr, Hd, Hperm, Hx, Hp. cbn [lift_run].
  unfold ebind at 1, eret at 1.
  destruct (mint_post_exact o cid (post_certificate r d cid x) w Hf) as [evs E]. rewrite (ebind_Ret _ _ _ _ _ E). clear E.
  set (pid := o_uuid o (w_tick w)). set (w1 := upd w _ _).
  rewrite (ebind_Ret _ _ _ _ _ (put_exact _ _ _)). set (r1 := set_pgl_identity _ r). set (w2 := upd w1 _ _).
  rewrite (ebind_Ret _ _ _ _ _ (write_exact _ _)). set (w3 := upd w2 _ _).
  match goal with |- context [audit_record o ?a ?b ?c ?e] => destruct (audit_exact o a b c e w3) as [au E] end.
  rewrite (ebind_Ret _ _ _ _ _ E). clear E.
  rewrite (transition_ok _ _ r1); [|apply lookup_insert_eq|cbn [r1 set_pgl_identity gr_state]; rewrite Hs; in_table].
  eexists _, (set_state ATTESTED r1). split_and!;
    [reflexivity|reflexivity|apply lookup_insert_eq|reflexivity|exact Hx|reflexivity|reflexivity|reflexivity|reflexivity|].
  intros id e He. cbn. destruct (dget (default [] (gr_execution_identity r)) "execution_id"); try by exists e.
  destruct (decide (s = id)) as [->|Hne]; [rewrite lookup_alter_eq, He; by eexists|].
  rewrite lookup_alter_ne by done. by exists e.
Qed.
End laws.
