(* ===== verification/RunProperties.v ===== *)
(** * Theorems about the governed run pipeline *)

From Stdlib Require Import ZArith Lia Ascii String.
From stdpp Require Import base gmap strings list pretty.
From S2P Require Import Prelude Canon PyJson Identity Ledger Runs RunProofs RunLive RunDemo.

(** ** LAW 0 *)

Section law0.
Context `{EiWorld} (o : orchestrator).

Lemma is_str_true j s : is_str j s = true -> j = JStr s.
Proof. destruct j; try done. simpl. intros ->%str_eqb_spec. done. Qed.

Lemma invalid_if_Ok c d u : invalid_if c d = Ok u -> c = false.
Proof. unfold invalid_if. by rewrite raise_if_Ok. Qed.

(** The directive under which an identity permits execution. *)
Definition permits (ei : dict) (d : string) : Prop :=
  d ∈ ALLOW_DIRECTIVES /\
  (dget ei "directive" = JStr d
   \/ truthy (dget ei "directive") = false
      /\ exists m, dget_or ei "seked_directive" (JObj []) = JObj m /\ dget m "decision" = JStr d).

Lemma check_directive_permits ei : check_directive ei = Ok tt -> exists d, permits ei d.
Proof.
  unfold check_directive. intros Hc. apply rbind_Ok in Hc as (j & Hj & Hc). apply invalid_if_Ok in Hc.
  apply negb_false_iff, orb_true_iff in Hc.
  assert (Hd : exists d, d ∈ ALLOW_DIRECTIVES /\ j = JStr d).
  { destruct Hc as [Hc%is_str_true|Hc%is_str_true]; eexists; (split; [|exact Hc]); unfold ALLOW_DIRECTIVES; set_solver. }
  destruct Hd as (d & Hd & ->). exists d. split; [done|]. destruct (truthy (dget ei "directive")) eqn:E.
  - left. congruence.
  - right. split; [done|]. apply rbind_Ok in Hj as (m & Hm & [= Hj]). exists m. split; [|done].
    destruct (dget_or ei "seked_directive" (JObj [])); try discriminate. by injection Hm as ->.
Qed.

(** What the gateway has established when it accepts. *)
Lemma validate_accepts lookup revoked key now ei action cost :
  validate_execution_identity lookup revoked key now ei action cost = Ok tt ->
  exists e c d, ei = Some e
    /\ lookup (py_or (dget e "pre_execution_certificate_id") (dget e "pgl_pre_certificate_id")) = Some c
    /\ check_certificate e c = Ok tt /\ permits e d /\ check_ttl now e = Ok tt /\ check_scope action e = Ok tt
    /\ check_budget cost e = Ok tt /\ revoked (dget_or e "execution_id" (JStr "")) = false
    /\ check_integrity (if str_eqb key "" then "test-signing-key" else key) e = Ok tt.
Proof.
  unfold validate_execution_identity. destruct ei as [[|kv e]|]; try done. set (e0 := kv :: e). intros Hv.
  res_inv Hv. destruct (check_directive_permits e0) as [d Hd]; [by destruct v1|].
  unfold find_certificate in E. res_inv E. destruct (lookup _) as [c|] eqn:Hc; [|done]. injection E as <-.
  unfold check_revoked in E6. res_inv E6. apply invalid_if_Ok in E6.
  exists e0, c, d. destruct v0, v2, v3, v4. by split_and!.
Qed.

(** What the ownership check has established when it finds no problem. *)
Lemma ownership_holds t r :
  ownership_problem o t r = None ->
  exists ei own a, gr_execution_identity r = Some ei /\ dget ei "runtime_ownership" = JObj own
    /\ a ∈ t_assignments t /\ dget own "assignment_id" = JStr (pa_assignment_id a) /\ pa_path_id a = gr_run_id r
    /\ is_int (dget own "authority_epoch") (pa_authority_epoch a) = true
    /\ pa_runtime_kind a = o_runtime_kind o /\ pa_runtime_instance a = o_runtime_instance o.
Proof.
  unfold ownership_problem. destruct (gr_execution_identity r) as [ei|]; [|done]. change (default [] (Some ei)) with ei.
  destruct (dget ei "runtime_ownership") as [| | | | | |own] eqn:Eown; try done.
  destruct (negb (forallb _ _)); [done|]. destruct (is_str (dget own "path_id") (gr_run_id r)) eqn:Ep; [|done].
  destruct (is_str (dget own "runtime_kind") (o_runtime_kind o)) eqn:Ek,
    (is_str (dget own "runtime_instance") (o_runtime_instance o)) eqn:Ei; simpl;
    try (destruct (truthy _); [destruct (as_int _)|]; done).
  apply is_str_true in Ep, Ek, Ei. rewrite Ep, Ek, Ei.
  destruct (find_assignment t _) as [a|] eqn:Ea; [|done]. simpl.
  destruct (str_eqb (gr_run_id r) (pa_path_id a)) eqn:E1; [|done]. simpl.
  destruct (is_int _ _) eqn:Eep; [|done]. simpl.
  destruct (str_eqb (o_runtime_kind o) (pa_runtime_kind a)) eqn:E2,
    (str_eqb (o_runtime_instance o) (pa_runtime_instance a)) eqn:E3; try done. intros _.
  apply str_eqb_spec in E1, E2, E3. exists ei, own, a. unfold find_assignment in Ea. destruct (dget own "assignment_id") as [| | | |id| |]; try done.
  apply head_Some in Ea as [l Hl]. assert (Hin : a ∈ filter (fun b => pa_assignment_id b = id) (t_assignments t)).
  { rewrite Hl. apply list_elem_of_here. }
  apply list_elem_of_filter in Hin as [<- ?]. by split_and!.
Qed.

Lemma certificate_matches e c :
  check_certificate e c = Ok tt ->
  cv_persisted c = true /\ dget e "genome_hash" = JStr (cv_genome_hash c)
  /\ dget e "constitution_hash" = JStr (cv_constitution_hash c) /\ dget e "plan_hash" = JStr (cv_plan_hash c).
Proof.
  unfold check_certificate. intros Hc. res_inv Hc. apply invalid_if_Ok in E, E0, E1, Hc.
  rewrite negb_false_iff in E, E0, E1, Hc. by split_and!; try apply is_str_true.
Qed.

Lemma ttl_holds now e s :
  check_ttl now e = Ok tt -> dget e "expires_at" = JStr s -> s <> "" ->
  exists t, fromisoformat (replace_Z s) = Some t /\ (now <= t)%Z.
Proof.
  unfold check_ttl. intros Hc He Hs. rewrite He in Hc. simpl in Hc. apply str_eqb_neq in Hs. rewrite Hs in Hc. simpl in Hc.
  destruct (fromisoformat (replace_Z s)) as [t|]; [|done]. apply invalid_if_Ok, Z.ltb_ge in Hc. by exists t.
Qed.

Lemma integrity_holds key e :
  check_integrity key e = Ok tt ->
  dget e "hash" = JStr (sha256_json (JObj (canonical_body e)))
  /\ verify_signature_ed25519 (canonical_body e) (dget_or e "signature" (JStr "")) key = true.
Proof.
  unfold check_integrity. intros Hc. res_inv Hc. apply invalid_if_Ok in E, Hc. rewrite negb_false_iff in E, Hc.
  apply andb_true_iff in E as [_ E]. by apply is_str_true in E.
Qed.

(** C4: LAW 0.  [execute_run] hands a request to the executor only for a ROUTED
    run, once, that carries an execution identity whose path assignment is
    persisted with the same epoch and makes this runtime the run's owner.  The
    executor is given the request with the identity's own authority envelope,
    and the run is durably past ROUTED whatever happens then.  Where the
    orchestrator has a gateway, as the exec route builds it, the identity has
    moreover passed it: its certificate is persisted with the same genome,
    constitution and plan hashes, its directive allows execution, it has not
    expired at the gateway's clock, is not revoked, and its hash and signature
    verify.  An orchestrator without a gateway checks the ownership only. *)
Theorem execute_run_guarded rid w :
  w_dispatched (oworld (execute_run o rid w)) <> w_dispatched w ->
  exists r ei own a r',
    t_runs (w_db w) !! rid = Some r /\ gr_state r = ROUTED /\ gr_execution_identity r = Some ei
    /\ w_dispatched (oworld (execute_run o rid w)) = w_dispatched w ++ [(rid, execution_request (gr_request r) ei)]
    /\ t_runs (w_durable (oworld (execute_run o rid w))) !! rid = Some r' /\ past (gr_state r')
    /\ dget ei "runtime_ownership" = JObj own /\ a ∈ t_assignments (w_db w)
    /\ dget own "assignment_id" = JStr (pa_assignment_id a) /\ pa_path_id a = gr_run_id r
    /\ is_int (dget own "authority_epoch") (pa_authority_epoch a) = true
    /\ pa_runtime_kind a = o_runtime_kind o /\ pa_runtime_instance a = o_runtime_instance o
    /\ (o_gateway o = true -> exists c d,
          lookup_certificate (w_db w) (py_or (dget ei "pre_execution_certificate_id") (dget ei "pgl_pre_certificate_id")) = Some c
          /\ cv_persisted c = true /\ dget ei "genome_hash" = JStr (cv_genome_hash c)
          /\ dget ei "constitution_hash" = JStr (cv_constitution_hash c) /\ dget ei "plan_hash" = JStr (cv_plan_hash c)
          /\ permits ei d
          /\ (forall s, dget ei "expires_at" = JStr s -> s <> "" ->
                exists t, fromisoformat (replace_Z s) = Some t /\ (o_now o (w_tick w) <= t)%Z)
          /\ is_revoked (w_db w) (dget_or ei "execution_id" (JStr "")) = false
          /\ dget ei "hash" = JStr (sha256_json (JObj (canonical_body ei)))
          /\ verify_signature_ed25519 (canonical_body ei) (dget_or ei "signature" (JStr ""))
               (if str_eqb (o_signing_key o) "" then "test-signing-key" else o_signing_key o) = true).
Proof.
  destruct (run_execute_cases o rid w) as [(e & w' & -> & Hk & _)|(r & Hr & Hs & Hl & Ho & ->)]; [done|]. intros _.
  destruct (ownership_holds _ _ Ho) as (ei & own & a & Hei & Hown & ? & ? & ? & ? & ? & ?).
  assert (Hd : exists r', t_runs (w_durable (oworld (dispatched_outcome o rid r w))) !! rid = Some r' /\ past (gr_state r')).
  { unfold dispatched_outcome, past. destruct (o_executor o _ _); simpl; rewrite lookup_insert_eq; eexists; split; try done;
      simpl; set_solver. }
  destruct Hd as (r' & Hr' & Hp'). exists r, ei, own, a, r'. split_and!; try done.
  - unfold dispatched_outcome. rewrite Hei. by destruct (o_executor o _ _).
  - intros Hg. apply Hl, validate_accepts in Hg as (ei' & c & d & Hei' & Hc & Hm & Hp & Ht & _ & _ & Hrev & Hi).
    assert (ei' = ei) as -> by congruence. apply certificate_matches in Hm as (? & ? & ? & ?).
    apply integrity_holds in Hi as [? ?]. exists c, d. split_and!; try done. intros s Hse Hne. by eapply ttl_holds.
Qed.
End law0.

(** ** At most once *)

Section reach.
Context `{EiWorld}.

(** Everything that can happen to the tables: any phase of any run, by any
    orchestrator, in any order; whole pipelines; sealing, revocation; commits
    and rollbacks of the caller. *)
Inductive orun_step (w : world) : world -> Prop :=
  | step_create o q : orun_step w (oworld (create_run o q w))
  | step_transition rid s : s ∈ [COMPILED; CONTEXTUALIZED; ROUTED; FAILED] -> orun_step w (oworld (transition rid s w))
  | step_govern rid : orun_step w (oworld (govern_run rid w))
  | step_commit_run o rid : orun_step w (oworld (commit_run o rid w))
  | step_mint_identity o rid : orun_step w (oworld (mint_execution_identity o rid w))
  | step_mint_eat o rid : orun_step w (oworld (mint_eat o rid w))
  | step_execute o rid : orun_step w (oworld (execute_run o rid w))
  | step_attest o rid : orun_step w (oworld (attest_run o rid w))
  | step_failure o rid e : orun_step w (oworld (on_failure o rid e w))
  | step_seal o rid seal : orun_step w (oworld (record_evidence_seal o rid seal w))
  | step_revoke o id reason ws : orun_step w (oworld (revoke o id reason ws w))
  | step_governed o q : orun_step w (oworld (run_governed o q w))
  | step_commit : orun_step w (oworld (commit w))
  | step_rollback : orun_step w (oworld (rollback w)).

Lemma retains_oworld {A} (m : R A) w : retains m -> at_most_once w -> at_most_once (oworld (m w)).
Proof. intros Hm Hw. specialize (Hm w Hw). by destruct (m w). Qed.

Lemma orun_step_retains w w' : at_most_once w -> orun_step w w' -> at_most_once w'.
Proof.
  intros Hw Hs. destruct Hs.
  7: by apply retains_oworld; [apply retains_execute|].
  11: by apply retains_oworld; [apply retains_run_governed|].
  all: apply retains_oworld; [apply retains_quiet; intros log|done].
  - apply still_create_run.
  - apply still_transition.
  - apply still_govern_run.
  - apply still_commit_run.
  - apply still_mint_identity.
  - apply still_mint_eat.
  - apply still_attest.
  - apply still_on_failure.
  - apply still_seal.
  - apply still_revoke.
  - apply still_commit.
  - apply still_rollback.
Qed.

(** C5: a run is dispatched at most once.  In every world reached from empty
    tables by the phases of any runs in any order, by whole pipelines, and by
    commits, rollbacks and deaths inside the executor, no run appears twice
    among the requests handed to executors, and every run that does appear is
    durably EXECUTING, EXECUTED, ATTESTED or FAILED, so no recovery takes it
    for one that was never started. *)
Theorem run_dispatched_once w0 w rid :
  w_dispatched w0 = [] -> steps orun_step w0 w ->
  NoDup (w_dispatched w).*1
  /\ (rid ∈ (w_dispatched w).*1 -> exists r, t_runs (w_durable w) !! rid = Some r /\ past (gr_state r)).
Proof.
  intros Hnil Hs. assert (Hi : at_most_once w).
  { apply (steps_invariant orun_step at_most_once w0 w orun_step_retains); [|done].
    exists []. split; [apply NoDup_nil_2|]. split_and!; [done|..]; intros r Hr; set_solver. }
  destruct Hi as (log & Hd & <- & _ & Hs'). split; [done|]. apply Hs'.
Qed.
End reach.

(** ** Outcomes *)

Section outcome.
Context `{EiWorld} (o : orchestrator).

(** A failed pipeline: the run can still fail, after at most one dispatch. *)
Definition run_failing (rid : string) (q : ExecRequest) (log : list (string * json)) (w : world) : Prop :=
  exists x log', run_live rid q x log' w /\ (log' = log \/ exists y, log' = log ++ [(rid, y)]).
(** A dead process: the run is durably EXECUTING, its request dispatched. *)
Definition run_lost (rid : string) (q : ExecRequest) (log : list (string * json)) (w : world) : Prop :=
  w_db w = w_durable w /\ exists y, run_at rid q None (log ++ [(rid, y)]) EXECUTING w.

Lemma moves_then {A B} rid q log s s' (m : R A) (k : A -> R B) Q C :
  moves rid q None log s s' m -> (forall a, spec (run_at rid q None log s') (k a) Q (fun _ => run_failing rid q log) C) ->
  spec (run_at rid q None log s) (ebind m k) Q (fun _ => run_failing rid q log) C.
Proof.
  intros Hm Hk. eapply spec_bind; [|exact Hk]. eapply spec_conseq; [exact Hm|done|done| |done].
  intros e w Hl. exists None, log. by auto.
Qed.

Lemma run_execute_spec rid q log :
  spec (run_at rid q None log ROUTED) (execute_run o rid)
    (fun x w => exists y, run_at rid q (Some x) (log ++ [(rid, y)]) EXECUTED w)
    (fun _ => run_failing rid q log) (run_lost rid q log).
Proof.
  intros w Hw. pose proof Hw as (Hd & r & Hr & Hs & Hq & Hi & Hx).
  destruct (run_execute_cases o rid w) as [(e & w' & -> & Hd' & Hr' & _)|(r' & Hr' & _ & _ & _ & ->)].
  - exists None, log. split; [|by left]. exists ROUTED. split; [unfold can_fail; simpl; set_solver|].
    split; [congruence|]. exists r. by rewrite Hr'.
  - assert (r' = r) as -> by congruence. unfold dispatched_outcome. set (req := execution_request _ _). rewrite Hd.
    destruct (o_executor o _ req) as [x|cls m|].
    + exists req. split; [done|]. eexists. simpl. rewrite lookup_insert_eq. by split.
    + exists None, (log ++ [(rid, req)]). split; [|eauto]. exists EXECUTING. split; [unfold can_fail; simpl; set_solver|].
      split; [done|]. eexists. simpl. rewrite lookup_insert_eq. by split.
    + split; [done|]. exists req. split; [done|]. eexists. simpl. rewrite lookup_insert_eq. by split.
Qed.

Lemma phases_spec rid q log :
  spec (run_at rid q None log CREATED) (governed_phases o rid)
    (fun x w => exists y, run_at rid q (Some x) (log ++ [(rid, y)]) ATTESTED w)
    (fun _ => run_failing rid q log) (run_lost rid q log).
Proof.
  unfold governed_phases.
  apply (moves_then _ _ _ _ COMPILED); [apply moves_transition; simpl; set_solver|intros _].
  apply (moves_then _ _ _ _ CONTEXTUALIZED); [apply moves_transition; simpl; set_solver|intros _].
  apply (moves_then _ _ _ _ GOVERNED); [apply moves_governed|intros _].
  apply (moves_then _ _ _ _ COMMITTED); [apply moves_commit_run|intros _].
  apply (moves_then _ _ _ _ EI_MINTED); [apply moves_mint_identity|intros _].
  apply (moves_then _ _ _ _ (after_eat o)); [apply moves_mint_eat|intros _].
  apply (moves_then _ _ _ _ ROUTED); [apply moves_transition, after_eat_routes|intros _].
  eapply spec_bind; [apply run_execute_spec|intros x]. apply spec_ex. intros y.
  intros w Hw. pose proof (moves_attest o rid q (Some x) (log ++ [(rid, y)]) w Hw) as Ha. unfold ebind.
  destruct (attest_run o rid w) as [[] w'|e w'|w']; [by exists y| |done].
  exists (Some x), (log ++ [(rid, y)]). eauto.
Qed.

(** Every governed run ends.  [run_governed] on a fresh run id does one of
    three things.  It returns the executor's answer: the run is ATTESTED with
    that result and its request was dispatched once.  It raises: the run is
    FAILED, its request was dispatched at most once, and the last audit row
    names the run and the error (its [state_at_failure] always reads FAILED,
    the state written just before).  Or the process dies inside the executor:
    the run is durably EXECUTING and its request was dispatched. *)
Theorem run_governed_outcome q w :
  let rid := o_uuid o (w_tick w) in
  t_runs (w_db w) !! rid = None ->
  match run_governed o q w with
  | Ret x w' => exists r y, t_runs (w_db w') !! rid = Some r /\ gr_state r = ATTESTED /\ gr_result_payload r = Some x
      /\ w_dispatched w' = w_dispatched w ++ [(rid, y)]
  | Raise e w' => (exists r, t_runs (w_db w') !! rid = Some r /\ gr_state r = FAILED)
      /\ (w_dispatched w' = w_dispatched w \/ exists y, w_dispatched w' = w_dispatched w ++ [(rid, y)])
      /\ exists a, last (as_rows (t_audit (w_db w'))) = Some a /\ av_operation_type a = "run_failed" /\ av_run_id a = Some rid
           /\ av_payload a = JObj [("error", JStr (err_message e)); ("error_type", JStr (err_class e));
                                   ("state_at_failure", JStr "FAILED"); ("agent_id", jopt (q_agent_id q));
                                   ("pgl_id", jopt (q_pgl_id q))]
  | Crash w' => exists r y, t_runs (w_durable w') !! rid = Some r /\ gr_state r = EXECUTING
      /\ w_dispatched w' = w_dispatched w ++ [(rid, y)]
  end.
Proof.
  intros rid Hf. unfold run_governed, ebind at 1, create_run, ebind at 1, draw, ebind at 1, read_db. cbn [w_db].
  fold rid. rewrite Hf. unfold ebind, put_run, write_db, eret. cbv zeta.
  set (w1 := mk_world _ _ _ _). assert (Hw1 : run_at rid q None (w_dispatched w) CREATED w1).
  { split; [done|]. eexists. simpl. rewrite lookup_insert_eq. by split. }
  pose proof (phases_spec rid q (w_dispatched w) w1 Hw1) as Hp. unfold try_except.
  destruct (governed_phases o rid w1) as [x w'|e w'|w'].
  - destruct Hp as (y & Hd & r & ? & ? & ? & ? & ?). by exists r, y.
  - destruct Hp as (x & log' & Hl & Hlog). destruct (on_failure_spec o rid q x log' e w' Hl) as (w2 & -> & Ha & Hr).
    destruct Ha as (Hd & r & ? & ? & _). split_and!; [by exists r|by rewrite Hd|done].
  - destruct Hp as (He & y & Hd & r & Hr & ? & _). exists r, y. rewrite <- He. done.
Qed.
End outcome.

(** ** Denied and allowed runs *)

Section decided.
Context `{EiWorld} (o : orchestrator).

(** The ids to be drawn are new. *)
Definition fresh_ids (w : world) : Prop :=
  (forall i j, o_uuid o i = o_uuid o j -> i = j) /\ (forall i, o_uuid o i <> "") /\
  forall i, (w_tick w <= i)%nat ->
    t_runs (w_db w) !! o_uuid o i = None /\ t_certificates (w_db w) !! o_uuid o i = None
    /\ t_identities (w_db w) !! o_uuid o i = None
    /\ Forall (fun b => pa_path_id b <> o_uuid o i /\ pa_assignment_id b <> o_uuid o i) (t_assignments (w_db w)).

Lemma valid_not_pending d : d ∈ VALID_DIRECTIVES -> d <> "NEEDS_APPROVAL".
Proof. intros Hd ->. unfold VALID_DIRECTIVES, ALLOW_DIRECTIVES, DENY_DIRECTIVES in Hd. set_solver. Qed.

Lemma recorded_valid d : d ∈ VALID_DIRECTIVES -> recorded_directive (Some d) = Ok d.
Proof.
  intros Hd. assert (Hc : d = "ALLOW" \/ d = "ALLOW_WITH_AUDIT" \/ d = "DENY" \/ d = "DENIED").
  { unfold VALID_DIRECTIVES, ALLOW_DIRECTIVES, DENY_DIRECTIVES in Hd. set_solver. }
  by destruct Hc as [->|[->|[->| ->]]].
Qed.

(** A denial is final and recorded.  A request whose directive is a denial
    raises [GovernanceDeniedError]: nothing is dispatched, no identity is
    minted and no path assigned, the run is FAILED, and a persisted
    pre-execution certificate of the run carries the denial. *)
Theorem denied_run_recorded q d tier w :
  fresh_ids w -> normalize_directive true (q_directive q) (q_risk_tier q) = Ok (d, tier) -> d ∈ DENY_DIRECTIVES ->
  exists m w' r c, run_governed o q w = Raise (GovernanceDeniedError m) w'
    /\ w_dispatched w' = w_dispatched w /\ t_identities (w_db w') = t_identities (w_db w)
    /\ t_assignments (w_db w') = t_assignments (w_db w)
    /\ t_runs (w_db w') !! o_uuid o (w_tick w) = Some r /\ gr_state r = FAILED
    /\ t_certificates (w_db w') !! o_uuid o (S (w_tick w)) = Some c /\ ct_persisted c = true
    /\ ct_run_id c = o_uuid o (w_tick w) /\ ct_governance_decision c = d.
Proof.
  intros (_ & _ & Hf) Hn Hd.
  assert (Hv : d ∈ VALID_DIRECTIVES) by (unfold VALID_DIRECTIVES; apply elem_of_app; by right).
  set (rid := o_uuid o (w_tick w)). destruct (Hf (w_tick w) ltac:(lia)) as (Hr0 & _).
  destruct (Hf (S (w_tick w)) ltac:(lia)) as (_ & Hc0 & _). unfold run_governed.
  rewrite (ebind_Ret _ _ _ _ _ (create_exact o q w Hr0)). fold rid. unfold try_except at 1. unfold governed_phases at 1.
  rewrite (begin_exact q) by apply lookup_insert_eq. cbn [w_db w_tick upd]. rewrite set_runs_twice.
  set (w2 := upd (upd w _ _) _ _). unfold ebind at 1, try_except at 1.
  rewrite (govern_exact rid (set_state CONTEXTUALIZED (set_state COMPILED (new_run q rid))) d tier w2);
    [|apply lookup_insert_eq|done|done|by apply valid_not_pending].
  cbv zeta. rewrite bool_decide_eq_true_2 by done. cbn [is_denied]. fold (governed q rid d tier). set (w3 := upd w2 _ _).
  destruct (commit_exact o rid (governed q rid d tier) d w3) as [evs E];
    [apply lookup_insert_eq|done|by apply recorded_valid|exact Hc0|].
  rewrite (ebind_Ret _ _ _ _ _ E). cbn [eraise]. clear E. set (w4 := upd w3 _ _).
  destruct (on_failure_exact o rid (committed (o_uuid o (S (w_tick w))) (governed q rid d tier))
    (GovernanceDeniedError ("governance directive " +:+ quote d +:+ " vetoed execution")) w4) as [au E];
    [apply lookup_insert_eq|in_table|].
  unfold eraise. rewrite E.
  eexists _, _, (set_state FAILED (committed (o_uuid o (S (w_tick w))) (governed q rid d tier))), (pre_certificate (governed q rid d tier) d).
  split; [reflexivity|]. split_and!; try apply lookup_insert_eq; reflexivity.
Qed.
End decided.

Section allowed.
Context `{EiLaws} (o : orchestrator).

(** What a request needs to be executed: fresh ids, a gateway, a runtime with an identity
    and a signing seed, an allowing directive, a known tier, an action in
    scope and within budget, a shallow delegation, a gateway check within 300
    seconds of the mint, and an executor that answers. *)
Record admissible (q : ExecRequest) (d tier : string) (w : world) : Prop := {
  ad_fresh : fresh_ids o w;
  ad_gateway : o_gateway o = true;
  ad_runtime : o_issuer o <> "" /\ o_runtime_kind o <> "" /\ o_runtime_instance o <> "";
  ad_key : o_signing_key o <> "" /\ spki_public (o_signing_key o) = None;
  ad_directive : normalize_directive true (q_directive q) (q_risk_tier q) = Ok (d, tier) /\ d ∈ ALLOW_DIRECTIVES;
  ad_scope : check_scope (or_else (q_action q) (default_action (scope_of q))) [("scope", JObj (scope_of q))] = Ok tt;
  ad_budget : q_budget_approved_cents q = 0%Z \/ (q_action_cost_cents q <= q_budget_approved_cents q)%Z;
  ad_depth : (q_delegation_depth q <= 5)%Z;
  ad_clock : forall i j, (i <= j <= i + 3)%nat -> (o_now o j <= o_now o i + 300 * 1000000)%Z;
  ad_executor : forall n req, exists x, o_executor o n req = Answered x }.

Lemma or_else_nonempty v m : or_else v (sha256_hex m) <> "".
Proof.
  unfold or_else. destruct v as [s|]; [|apply sha256_hex_nonempty].
  destruct (str_eqb s "") eqn:E; [apply sha256_hex_nonempty|by apply str_eqb_neq in E].
Qed.

Lemma normalized_tier q d tier : normalize_directive true (q_directive q) (q_risk_tier q) = Ok (d, tier) -> tier ∈ RISK_TIERS.
Proof.
  unfold normalize_directive. destruct (bool_decide (_ ∈ RISK_TIERS)) eqn:E; [|done]. intros [= _ <-].
  by apply bool_decide_eq_true in E.
Qed.
Lemma tier_ok tier : tier ∈ RISK_TIERS -> or_else (Some tier) "standard" <> "" /\ or_else (Some tier) "standard" <> "terminated".
Proof.
  intros Ht. assert (Hc : tier = "standard" \/ tier = "elevated" \/ tier = "critical") by (unfold RISK_TIERS in Ht; set_solver).
  by destruct Hc as [->|[->| ->]].
Qed.
Lemma allow_ok d : d ∈ ALLOW_DIRECTIVES ->
  d ∈ VALID_DIRECTIVES /\ d <> "" /\ permitted_directive (Some d) = Ok d /\ bool_decide (d ∈ DENY_DIRECTIVES) = false.
Proof.
  intros Hd. assert (Hc : d = "ALLOW" \/ d = "ALLOW_WITH_AUDIT") by (unfold ALLOW_DIRECTIVES in Hd; set_solver).
  split; [unfold VALID_DIRECTIVES; apply elem_of_app; by left|]. by destruct Hc as [->| ->].
Qed.

(** The row of an admissible run when it is committed, and when it is routed. *)
Definition committed_run (q : ExecRequest) (rid cid d tier : string) : GovernedRun := committed cid (governed q rid d tier).
Definition routed_run (q : ExecRequest) (rid cid d tier : string) (i eat : dict) : GovernedRun :=
  set_state ROUTED (set_state EAT_MINTED (set_eat eat (set_state EI_MINTED (set_identity i (committed_run q rid cid d tier))))).
Definition after_route (rid : string) : R dict :=
  let! result := execute_run o rid in do! attest_run o rid in eret result.

Lemma committed_hashes q rid cid d tier :
  hash_of (committed_run q rid cid d tier) "genome_hash" <> "" /\ hash_of (committed_run q rid cid d tier) "constitution_hash" <> ""
  /\ hash_of (committed_run q rid cid d tier) "plan_hash" <> "".
Proof. split_and!; apply or_else_nonempty. Qed.
Lemma committed_scope q rid cid d tier : gr_scope (committed_run q rid cid d tier) <> [].
Proof. change (scope_of q <> []). unfold scope_of. by destruct (q_scope q) as [[|]|]. Qed.

(** The pipeline up to the commitment of an allowed run. *)
Lemma commit_prefix {A} q rid d tier w (k : unit -> R A) :
  t_runs (w_db w) !! rid = Some (new_run q rid) ->
  normalize_directive true (q_directive q) (q_risk_tier q) = Ok (d, tier) -> d ∈ ALLOW_DIRECTIVES ->
  t_certificates (w_db w) !! o_uuid o (w_tick w) = None ->
  exists evs,
    ebind (compile_run rid) (fun _ => ebind (contextualize_run rid) (fun _ =>
      ebind (try_except (govern_run rid) (fun e => if is_denied e then do! commit_run o rid in eraise e else eraise e)) (fun _ =>
        ebind (commit_run o rid) k))) w
    = k tt (upd w (set_runs <[rid := committed_run q rid (o_uuid o (w_tick w)) d tier]> (set_pgl_events evs
             (set_certificates <[o_uuid o (w_tick w) := pre_certificate (governed q rid d tier) d]> (w_db w)))) (S (S (w_tick w)))).
Proof.
  intros Hr Hn Hd Hc. destruct (allow_ok d Hd) as (Hv & _ & _ & Hnd). rewrite (begin_exact q) by done. set (w2 := upd w _ _).
  assert (Hr2 : t_runs (w_db w2) !! rid = Some (set_state CONTEXTUALIZED (set_state COMPILED (new_run q rid))))
    by apply lookup_insert_eq.
  assert (Eg : try_except (govern_run rid) (fun e => if is_denied e then do! commit_run o rid in eraise e else eraise e) w2
               = Ret tt (upd w2 (set_runs <[rid := governed q rid d tier]> (w_db w2)) (w_tick w2))).
  { unfold try_except. rewrite (govern_exact rid _ d tier w2 Hr2); [|done|done|by apply valid_not_pending].
    cbv zeta. by rewrite Hnd. }
  rewrite (ebind_Ret _ _ _ _ _ Eg). clear Eg. set (w3 := upd w2 _ _).
  assert (Hr3 : t_runs (w_db w3) !! rid = Some (governed q rid d tier)) by apply lookup_insert_eq.
  destruct (commit_exact o rid (governed q rid d tier) d w3 Hr3 eq_refl) as [evs E]; [by apply recorded_valid|exact Hc|].
  exists evs. rewrite (ebind_Ret _ _ _ _ _ E). f_equal. unfold w3, w2, upd, set_runs, set_pgl_events, set_certificates. cbn.
  by rewrite !insert_insert_eq.
Qed.

(** From the commitment to the route. *)
Lemma route_suffix {A} q rid cid d tier w (k : unit -> R A) :
  o_gateway o = true ->
  t_runs (w_db w) !! rid = Some (committed_run q rid cid d tier) -> rid <> "" -> cid <> "" -> d ∈ ALLOW_DIRECTIVES ->
  tier ∈ RISK_TIERS -> o_issuer o <> "" -> o_runtime_kind o <> "" -> o_runtime_instance o <> "" ->
  Forall (fun b => pa_path_id b <> rid /\ pa_assignment_id b <> o_uuid o (w_tick w)) (t_assignments (w_db w)) ->
  t_identities (w_db w) !! rid = None ->
  let n := w_tick w in
  let a := assignment_of o rid (o_uuid o n) in
  let i := minted o (committed_run q rid cid d tier) d (o_uuid o (S n)) a (o_now o (S n)) in
  exists eat audit,
    ebind (mint_execution_identity o rid) (fun _ => ebind (mint_eat o rid) (fun _ => ebind (route_run rid) k)) w
    = k tt (upd w (set_audit audit (set_runs <[rid := routed_run q rid cid d tier i eat]>
             (set_identities <[rid := identity_row (committed_run q rid cid d tier) i cid (o_now o (S n) + 300 * 1000000)]>
                (add_assignment a (w_db w))))) (4 + n)%nat).
Proof.
  intros Hgw Hr Hrid Hcid Hd Ht Hiss Hk Hin Ha Hi0 n a i. destruct (allow_ok d Hd) as (_ & Hd0 & Hperm & _).
  destruct (tier_ok tier Ht) as [Ht1 Ht2]. destruct (committed_hashes q rid cid d tier) as (Hh1 & Hh2 & Hh3).
  pose proof (committed_scope q rid cid d tier) as Hsc.
  pose proof (mint_exact o rid (committed_run q rid cid d tier) d cid w Hr eq_refl eq_refl Hrid eq_refl Hperm Hd0 eq_refl
    Hcid Hh1 Hh2 Hh3 Ht1 Hsc Hiss Hk Hin Ha Hi0) as Em. cbv zeta in Em. rewrite (ebind_Ret _ _ _ _ _ Em). clear Em.
  pose proof (minted_keys o (committed_run q rid cid d tier) d (o_uuid o (S n)) a (o_now o (S n))) as Hkeys.
  pose proof (minted_truthy o (committed_run q rid cid d tier) d (o_uuid o (S n)) a (o_now o (S n)) Hrid) as Htr.
  fold n a. fold i. fold i in Hkeys. fold i in Htr. clearbody i. set (w5 := upd w _ _).
  assert (Hr5 : t_runs (w_db w5) !! rid = Some (set_state EI_MINTED (set_identity i (committed_run q rid cid d tier))))
    by apply lookup_insert_eq.
  destruct (route_exact o rid _ i w5 k Hgw Hr5 eq_refl eq_refl Htr Hkeys Ht2) as (eat & au & E). exists eat, au. rewrite E.
  f_equal. unfold w5, upd, set_audit, set_runs, set_identities, add_assignment. cbn. by rewrite insert_insert_eq.
Qed.

(** A routed run with its minted identity is executed and attested. *)
Lemma execute_attest q rid cid d tier id aid now eat old c w :
  let i := minted o (committed_run q rid cid d tier) d id (assignment_of o rid aid) now in
  o_gateway o = true ->
  t_runs (w_db w) !! rid = Some (routed_run q rid cid d tier i eat) -> rid <> "" -> cid <> "" -> d ∈ ALLOW_DIRECTIVES ->
  t_certificates (w_db w) !! cid = Some c -> c = pre_certificate (governed q rid d tier) d ->
  (forall e, t_identities (w_db w) !! rid = Some e -> ei_revoked e = false) ->
  t_assignments (w_db w) = old ++ [assignment_of o rid aid] -> Forall (fun b => pa_assignment_id b <> aid) old ->
  (o_now o (w_tick w) <= now + 300 * 1000000)%Z ->
  check_scope (or_else (q_action q) (default_action (scope_of q))) [("scope", JObj (scope_of q))] = Ok tt ->
  q_budget_approved_cents q = 0%Z \/ (q_action_cost_cents q <= q_budget_approved_cents q)%Z -> (q_delegation_depth q <= 5)%Z ->
  o_signing_key o <> "" -> spki_public (o_signing_key o) = None ->
  (forall n req, exists x, o_executor o n req = Answered x) ->
  t_certificates (w_db w) !! o_uuid o (S (S (w_tick w))) = None ->
  let pid := o_uuid o (S (S (w_tick w))) in
  exists x w' r, after_route rid w = Ret x w' /\ w_dispatched w' = w_dispatched w ++ [(rid, execution_request q i)]
    /\ t_runs (w_db w') !! rid = Some r /\ gr_state r = ATTESTED /\ gr_result_payload r = Some x
    /\ (exists r2, t_certificates (w_db w') = alter (link_post pid) cid (<[pid := post_certificate r2 d cid x]> (t_certificates (w_db w))))
    /\ gr_execution_identity r = Some i /\ gr_run_id r = rid /\ t_assignments (w_db w') = t_assignments (w_db w)
    /\ (forall id e, t_identities (w_db w) !! id = Some e -> exists e', t_identities (w_db w') !! id = Some e'
          /\ ei_identity e' = ei_identity e /\ ei_run_id e' = ei_run_id e /\ ei_revoked e' = ei_revoked e).
Proof.
  intros i Hgw Hr Hrid Hcid Hd Hc Hcv Hrev Has Hold Hnow Hsc Hb Hdep Hk Hspki Hex Hpid pid.
  pose proof (minted_validates o (committed_run q rid cid d tier) d id (assignment_of o rid aid) now (o_now o (w_tick w)) cid
    (mk_cert_view true (hash_of (committed_run q rid cid d tier) "genome_hash")
       (hash_of (committed_run q rid cid d tier) "constitution_hash") (hash_of (committed_run q rid cid d tier) "plan_hash"))
    (lookup_certificate (w_db w)) (is_revoked (w_db w)) (or_else (q_action q) (default_action (scope_of q)))
    (q_action_cost_cents q) eq_refl Hcid Hrid Hd) as Hval. fold i in Hval.
  assert (Hl : law0_holds o (routed_run q rid cid d tier i eat) w).
  { intros _. apply Hval; clear Hval; try done.
    - unfold lookup_certificate. by rewrite Hc, Hcv.
    - unfold is_revoked. change (gr_run_id (committed_run q rid cid d tier)) with rid.
      destruct (t_identities (w_db w) !! rid) as [e|] eqn:E; [by apply Hrev|done]. }
  assert (Ho : ownership_problem o (w_db w) (routed_run q rid cid d tier i eat) = None).
  { by apply (ownership_exact o _ _ (committed_run q rid cid d tier) d id now old aid). }
  clear Hval. clearbody i. destruct (allow_ok d Hd) as (_ & _ & Hperm & _).
  pose proof (execute_enforced o rid _ w Hr eq_refl Hl Ho) as E. unfold dispatched_outcome, after_law0 in E. rewrite Hgw in E.
  set (req := execution_request _ _) in E. destruct (Hex (S (w_tick w)) req) as [x Hx]. rewrite Hx in E.
  unfold after_route. rewrite (ebind_Ret _ _ _ _ _ E). clear E. set (w1 := mk_world _ _ _ _).
  set (r1 := set_state EXECUTED (set_result x (set_state EXECUTING (routed_run q rid cid d tier i eat)))).
  assert (Hr1 : t_runs (w_db w1) !! rid = Some r1) by apply lookup_insert_eq.
  destruct (attest_exact o rid r1 d cid x w1 Hr1 eq_refl eq_refl eq_refl Hperm eq_refl Hpid) as (w' & r' & E & Hlog & Hr' & Hs' & Hx' & Hc' & Hi' & Hid' & Has' & Hids').
  rewrite (ebind_Ret _ _ _ _ _ E). exists x, w', r'. split_and!; try done. by exists r1.
Qed.

(** The envelope of a minted identity: the run, its first epoch and the
    providers of the request's scope. *)
Lemma minted_request q rid cid d tier id aid now :
  rid <> "" ->
  execution_request q (minted o (committed_run q rid cid d tier) d id (assignment_of o rid aid) now)
  = JObj (dict_set (payload_of q) "authority_envelope"
      (JObj [("execution_id", JStr rid); ("authority_epoch", JInt 1);
             ("allowed_provider_set", dget (scope_of q) "allowed_provider_set")])).
Proof.
  intros Hrid. unfold execution_request. rewrite minted_scope.
  change (dget (minted o (committed_run q rid cid d tier) d id (assignment_of o rid aid) now) "runtime_ownership")
    with (ownership_json (assignment_of o rid aid)).
  change (dget (minted o (committed_run q rid cid d tier) d id (assignment_of o rid aid) now) "execution_id")
    with (py_or (JStr rid) (JStr id)). unfold py_or. by rewrite truthy_str.
Qed.

(** C6: an admissible run is executed and attested, by an orchestrator with a
    gateway.  The executor is asked once, with the request and the authority
    envelope of the identity that was built for this run: the run's id, the
    first epoch of its path and the providers of its scope.  That identity is
    the run's and is persisted under its id; it passes the gateway until 300
    seconds after the mint and the ownership check.  The executor's answer is
    returned and stored, the run is ATTESTED, and the pre- and post-execution
    certificates point at each other, the latter with the hash of the
    answer. *)
Theorem allowed_run_attested q d tier w :
  admissible q d tier w ->
  let rid := o_uuid o (w_tick w) in
  exists x w' r i r0 a n e cid pid c p, run_governed o q w = Ret x w'
    /\ w_dispatched w' = w_dispatched w ++ [(rid, execution_request q i)]
    /\ execution_request q i = JObj (dict_set (payload_of q) "authority_envelope"
         (JObj [("execution_id", JStr rid); ("authority_epoch", JInt 1);
                ("allowed_provider_set", dget (scope_of q) "allowed_provider_set")]))
    /\ build (o_signing_key o) (o_now o n) (o_uuid o n) (ei_inputs o r0 d a) = Ok i
    /\ gr_run_id r0 = rid /\ gr_request r0 = q /\ pa_path_id a = rid
    /\ t_identities (w_db w') !! rid = Some e /\ ei_identity e = i /\ ei_run_id e = rid
    /\ (forall now, (now <= o_now o n + 300 * 1000000)%Z ->
          validate_execution_identity (lookup_certificate (w_db w')) (is_revoked (w_db w')) (o_signing_key o) now (Some i)
            (or_else (q_action q) (default_action (scope_of q))) (q_action_cost_cents q) = Ok tt)
    /\ ownership_problem o (w_db w') r = None
    /\ t_runs (w_db w') !! rid = Some r /\ gr_state r = ATTESTED /\ gr_result_payload r = Some x
    /\ gr_execution_identity r = Some i
    /\ t_certificates (w_db w') !! cid = Some c /\ ct_run_id c = rid /\ ct_governance_decision c = d /\ ct_post c = Some pid
    /\ t_certificates (w_db w') !! pid = Some p /\ ct_pre p = Some cid /\ ct_output_hash p = Some (sha256_json (JObj x)).
Proof.
  intros [(Hinj & Hne & Hf) Hgw (Hiss & Hk & Hin) [Hkey Hspki] [Hn Hd] Hsc Hb Hdep Hclock Hex] rid. set (n := w_tick w) in *.
  destruct (Hf n ltac:(lia)) as (Hr0 & _ & Hi0 & Ha0). destruct (Hf (S n) ltac:(lia)) as (_ & Hc0 & _).
  destruct (Hf (3 + n)%nat ltac:(lia)) as (_ & _ & _ & Ha3). destruct (Hf (9 + n)%nat ltac:(lia)) as (_ & Hp0 & _).
  set (cid := o_uuid o (S n)) in *. unfold run_governed. rewrite (ebind_Ret _ _ _ _ _ (create_exact o q w Hr0)). fold n rid.
  set (w1 := upd w _ _). assert (Hr1 : t_runs (w_db w1) !! rid = Some (new_run q rid)) by apply lookup_insert_eq.
  unfold try_except, governed_phases.
  destruct (commit_prefix q rid d tier w1 (fun _ => ebind (mint_execution_identity o rid) (fun _ => ebind (mint_eat o rid) (fun _ =>
    ebind (route_run rid) (fun _ => after_route rid)))) Hr1 Hn Hd Hc0) as [evs E]. unfold after_route in E at 1. rewrite E. clear E.
  change (o_uuid o (w_tick w1)) with cid. set (w4 := upd w1 _ _).
  assert (Hr4 : t_runs (w_db w4) !! rid = Some (committed_run q rid cid d tier)) by apply lookup_insert_eq.
  destruct (route_suffix q rid cid d tier w4 (fun _ => after_route rid) Hgw Hr4 (Hne n) (Hne (S n)) Hd (normalized_tier q d tier Hn)
    Hiss Hk Hin) as (eat & au & E); [|exact Hi0|].
  { apply Forall_and. split; [eapply Forall_impl; [exact Ha0|]|eapply Forall_impl; [exact Ha3|]]; by intros b [? ?]. }
  rewrite E. clear E. change (w_tick w4) with (3 + n)%nat.
  set (r0 := committed_run q rid cid d tier). set (a := assignment_of o rid (o_uuid o (3 + n))). set (i := minted _ _ _ _ _ _).
  set (row := identity_row _ i cid _). set (w7 := upd w4 _ _).
  assert (Hr7 : t_runs (w_db w7) !! rid = Some (routed_run q rid cid d tier i eat)) by apply lookup_insert_eq.
  assert (Hc7 : t_certificates (w_db w7) !! cid = Some (pre_certificate (governed q rid d tier) d)) by apply lookup_insert_eq.
  assert (Hi7 : t_identities (w_db w7) !! rid = Some row) by apply lookup_insert_eq.
  assert (Ha7 : Forall (fun b => pa_assignment_id b <> o_uuid o (3 + n)) (t_assignments (w_db w))).
  { eapply Forall_impl; [exact Ha3|]. by intros b [? ?]. }
  assert (Hp7 : t_certificates (w_db w7) !! o_uuid o (9 + n) = None).
  { change (t_certificates (w_db w7)) with (<[cid := pre_certificate (governed q rid d tier) d]> (t_certificates (w_db w))).
    rewrite lookup_insert_ne; [exact Hp0|]. intros Heq%Hinj. lia. }
  destruct (execute_attest q rid cid d tier (o_uuid o (4 + n)) (o_uuid o (3 + n)) (o_now o (4 + n)) eat (t_assignments (w_db w))
    _ w7 Hgw Hr7 (Hne n) (Hne (S n)) Hd Hc7 eq_refl ltac:(intros e; rewrite Hi7; by intros [= <-]) eq_refl Ha7
    (Hclock (4 + n) (7 + n) ltac:(lia))%nat Hsc Hb Hdep Hkey Hspki Hex Hp7)
    as (x & w' & r & -> & Hlog & Hr & Hs & Hx & (r2 & Hcerts) & Hir & Hidr & Has & Hids).
  destruct (Hids rid row Hi7) as (e & He & Hei & Her & Hrev).
  set (c := link_post (o_uuid o (9 + n)) (pre_certificate (governed q rid d tier) d)).
  assert (Hcp : o_uuid o (9 + n) <> cid) by (intros Heq%Hinj; lia).
  assert (Hc' : t_certificates (w_db w') !! cid = Some c).
  { by rewrite Hcerts, lookup_alter_eq, lookup_insert_ne, Hc7 by done. }
  destruct (allow_ok d Hd) as (_ & Hd0 & _ & _). destruct (tier_ok tier (normalized_tier q d tier Hn)) as [Ht1 _].
  destruct (committed_hashes q rid cid d tier) as (Hh1 & Hh2 & Hh3).
  exists x, w', r, i, r0, a, (4 + n)%nat, e, cid, (o_uuid o (9 + n)%nat), c, (post_certificate r2 d cid x).
  split; [reflexivity|]. split; [exact Hlog|]. split; [by apply minted_request, Hne|]. split.
  { apply (build_exact o r0 d cid); try done; [apply Hne|apply committed_scope]. }
  split_and!; try reflexivity; try done.
  - intros now Hnow. eapply (minted_validates o r0 d (o_uuid o (4 + n)) a (o_now o (4 + n))); try done; try apply Hne.
    + unfold lookup_certificate. rewrite Hc'. reflexivity.
    + unfold is_revoked. change (gr_run_id r0) with rid. by rewrite He, Hrev.
  - apply (ownership_exact o _ _ r0 d (o_uuid o (4 + n)) (o_now o (4 + n)) (t_assignments (w_db w)) (o_uuid o (3 + n)));
      rewrite ?Hidr, ?Has; done.
  - rewrite Hcerts, lookup_alter_ne by done. apply lookup_insert_eq.
Qed.
End allowed.

(** ** Witnesses *)

Module RunWitness.
Import RunDemo.
Definition o : orchestrator := orch ok.
Definition allow : ExecRequest := req (Some " allow ").
Definition deny : ExecRequest := req (Some "Deny").
(** The world in which the demo run has just been routed. *)
Definition routed : world :=
  oworld ((do! create_run o allow in do! compile_run "id0" in do! contextualize_run "id0" in do! govern_run "id0" in
           do! commit_run o "id0" in do! mint_execution_identity o "id0" in do! mint_eat o "id0" in route_run "id0") start).

Lemma fresh : fresh_ids o start.
Proof.
  split_and!.
  - intros i j He. apply (inj pretty). cbn in He. by injection He.
  - intros i. done.
  - intros i _. by split_and!.
Qed.
Lemma ready : admissible o allow "ALLOW" "standard" start.
Proof.
  split.
  - apply fresh.
  - done.
  - done.
  - done.
  - split; [reflexivity|]. apply (bool_decide_eq_true_1 _). reflexivity.
  - reflexivity.
  - right. cbn. lia.
  - cbn. lia.
  - intros i j Hij. cbn. lia.
  - intros n rq. by exists [("response", JStr "done")].
Qed.
End RunWitness.

Lemma execute_run_guarded_witness :
  exists r ei, t_runs (w_db RunWitness.routed) !! "id0" = Some r /\ gr_execution_identity r = Some ei
    /\ w_dispatched (oworld (execute_run RunWitness.o "id0" RunWitness.routed)) = [("id0", execution_request (gr_request r) ei)].
Proof.
  destruct (execute_run_guarded RunWitness.o "id0" RunWitness.routed) as (r & ei & own & a & r' & H1 & _ & H2 & H3 & _).
  - vm_compute. discriminate.
  - exists r, ei. split_and!; [exact H1|exact H2|]. rewrite H3. replace (w_dispatched RunWitness.routed) with (@nil (string * json)) by (vm_compute; reflexivity). reflexivity.
Defined.

Lemma run_dispatched_once_witness :
  NoDup (w_dispatched (oworld (run_governed RunWitness.o RunWitness.allow RunDemo.start))).*1
  /\ ("id0" ∈ (w_dispatched (oworld (run_governed RunWitness.o RunWitness.allow RunDemo.start))).*1 ->
      exists r, t_runs (w_durable (oworld (run_governed RunWitness.o RunWitness.allow RunDemo.start))) !! "id0" = Some r
        /\ past (gr_state r)).
Proof.
  apply (run_dispatched_once RunDemo.start _ "id0"); [reflexivity|].
  eapply steps_snoc; [apply steps_refl|apply step_governed].
Defined.

Lemma run_governed_outcome_witness :
  match run_governed RunWitness.o RunWitness.allow RunDemo.start with
  | Ret x w' => exists r y, t_runs (w_db w') !! "id0" = Some r /\ gr_state r = ATTESTED /\ gr_result_payload r = Some x
      /\ w_dispatched w' = [("id0", y)]
  | _ => False
  end.
Proof.
  pose proof (run_governed_outcome RunWitness.o RunWitness.allow RunDemo.start eq_refl) as H.
  destruct (run_governed RunWitness.o RunWitness.allow RunDemo.start) eqn:E; [exact H|..]; vm_compute in E; discriminate.
Defined.

Lemma denied_run_recorded_witness :
  exists m w' c, run_governed RunWitness.o RunWitness.deny RunDemo.start = Raise (GovernanceDeniedError m) w'
    /\ t_certificates (w_db w') !! "id1" = Some c /\ ct_governance_decision c = "DENY".
Proof.
  destruct (denied_run_recorded RunWitness.o RunWitness.deny "DENY" "standard" RunDemo.start RunWitness.fresh eq_refl)
    as (m & w' & r & c & H1 & _ & _ & _ & _ & _ & H2 & _ & _ & H3).
  - apply (bool_decide_eq_true_1 _). reflexivity.
  - exists m, w', c. split_and!; [exact H1|exact H2|exact H3].
Defined.

Lemma allowed_run_attested_witness :
  exists x w' r, run_governed RunWitness.o RunWitness.allow RunDemo.start = Ret x w'
    /\ t_runs (w_db w') !! "id0" = Some r /\ gr_state r = ATTESTED.
Proof.
  destruct (allowed_run_attested RunWitness.o RunWitness.allow "ALLOW" "standard" RunDemo.start RunWitness.ready)
    as (x & w' & r & i & r0 & a & n & e & cid & pid & c & p & H1 & _ & _ & _ & _ & _ & _ & _ & _ & _ & _ & _ & H2 & H3 & _).
  exists x, w', r. split_and!; [exact H1|exact H2|exact H3].
Defined.
