(* ===== verification/HttpSig.v ===== *)
(** * HTTP message signatures (security/http_signatures.py)

    [verify_rfc9421_request] and [verify_rfc9421_response]: the digest of the
    body, the two regular expressions of Signature-Input and Signature as
    scanners, the signature base and the Ed25519 check, in the order of the
    code.  Header values are text with one byte per character; [now] is the
    second the clock shows.  [sign_request] is the client's side, as
    scripts/e2e_governed_inference.py signs. *)

From Stdlib Require Import ZArith Lia Ascii String.
From stdpp Require Import base gmap strings list pretty sorting.
From S2P Require Import Prelude Canon PyJson Permits Identity.

Local Open Scope Z_scope.

(** ** Scanning text *)

(** The text before and after the first [c]. *)
Fixpoint cut (c : ascii) (l : list ascii) : option (list ascii * list ascii) :=
  match l with
  | [] => None
  | d :: r => if Ascii.eqb d c then Some ([], r)
              else match cut c r with Some (a, b) => Some (d :: a, b) | None => None end
  end.

(** [s.split(c)]. *)
Fixpoint split_on (c : ascii) (l : list ascii) : list (list ascii) :=
  match l with
  | [] => [[]]
  | d :: r => if Ascii.eqb d c then [] :: split_on c r
              else match split_on c r with p :: ps => (d :: p) :: ps | [] => [[d]] end
  end.

Fixpoint strip_prefix (p l : list ascii) : option (list ascii) :=
  match p, l with
  | [], _ => Some l
  | c :: p', d :: l' => if Ascii.eqb c d then strip_prefix p' l' else None
  | _ :: _, [] => None
  end.

Definition is_digit (c : ascii) : bool := let n := nat_of_ascii c in (48 <=? n)%nat && (n <=? 57)%nat.
Definition digits_value (l : list ascii) : Z :=
  fold_left (fun acc c => acc * 10 + (Z.of_nat (nat_of_ascii c) - 48)) l 0.
(** [\d+]. *)
Definition digits (l : list ascii) : option Z :=
  if negb (bool_decide (l = [])) && forallb is_digit l then Some (digits_value l) else None.

(** One parameter without its semicolon: a name, and a value if there is an
    equals sign, neither of them empty. *)
Definition param_ok (p : list ascii) : bool :=
  match cut "=" p with
  | None => negb (bool_decide (p = []))
  | Some (name, value) => negb (bool_decide (name = [])) && negb (bool_decide (value = []))
  end.

(** The full match of Signature-Input: [sig1=], the component list in
    parentheses, and one parameter or more. *)
Definition parse_signature_input (s : string) : option (list ascii * list ascii) :=
  match strip_prefix (chars "sig1=(") (chars s) with
  | None => None
  | Some l =>
    match cut ")" l with
    | Some (fields, ";"%char :: params) =>
      if forallb param_ok (split_on ";" params) then Some (fields, ";"%char :: params) else None
    | _ => None
    end
  end.

(** [re.findall] of a quoted run of one character or more; [inside] holds the
    run since the last quote. *)
Fixpoint quoted (inside : option (list ascii)) (l : list ascii) : list string :=
  match l with
  | [] => []
  | c :: r =>
    if Ascii.eqb c dquote then
      match inside with
      | Some (d :: run) => string_of_list_ascii (d :: run) :: quoted None r
      | _ => quoted (Some []) r
      end
    else quoted (match inside with Some run => Some (run ++ [c]) | None => None end) r
  end.

(** The search for [created=] and digits: a whole parameter, the last one also
    before a final newline. *)
Definition created_of (last : bool) (p : list ascii) : option Z :=
  match strip_prefix (chars "created=") p with
  | None => None
  | Some v =>
    match digits v with
    | Some z => Some z
    | None => if last then match rev v with c :: w => if Ascii.eqb c "010" then digits (rev w) else None | [] => None end
              else None
    end
  end.
Fixpoint find_created (ps : list (list ascii)) : option Z :=
  match ps with
  | [] => None
  | p :: r => match created_of (bool_decide (r = [])) p with Some z => Some z | None => find_created r end
  end.

(** The full match of Signature: [sig1=] and a text between colons. *)
Definition parse_signature (s : string) : option string :=
  match strip_prefix (chars "sig1=:") (chars s) with
  | None => None
  | Some l => match cut ":" l with
              | Some (sig, []) => if bool_decide (sig = []) then None else Some (string_of_list_ascii sig)
              | _ => None
              end
  end.

(** ** Standard base64 *)

Definition to_std (c : ascii) : ascii :=
  if Ascii.eqb c "-" then "+"%char else if Ascii.eqb c "_" then "/"%char else c.
Definition b64_std_val (c : ascii) : option Z :=
  if Ascii.eqb c "-" || Ascii.eqb c "_" then None else b64_val (std_char c).

(** [base64.b64encode]. *)
Definition b64encode (raw : string) : string :=
  let l := map to_std (b64u_list (chars raw)) in
  string_of_list_ascii (l ++ repeat "="%char ((4 - length l mod 4) mod 4)).

(** [base64.b64decode(text + padding, validate=True)]. *)
Definition b64decode_std (text : string) : option string :=
  match unpad (chars text) with
  | None => None
  | Some l => match mapM b64_std_val l with
              | None => None
              | Some vs => string_of_list_ascii <$> b64_decode_vals vs
              end
  end.

Section verify.
Context `{EiWorld, !Mac}.

(** [SignatureVerificationError]. *)
Definition sig_err := string.
Definition refuse_if (c : bool) (e : sig_err) : res sig_err unit := raise_if c e.
Definition some_or {A} (o : option A) (e : sig_err) : res sig_err A := match o with Some a => Ok a | None => Err e end.

Definition load_ed25519_public_key (encoded_key : string) : res sig_err string :=
  match fromhex encoded_key with
  | Some raw => if (String.length raw =? 32)%nat then Ok raw
                else some_or (spki_public encoded_key) "invalid federation public key format"
  | None => some_or (spki_public encoded_key) "invalid federation public key format"
  end.

Definition headers := list (string * string).

(** [{key.lower(): value for key, value in headers.items()}.get(name)]. *)
Definition header (hs : headers) (name : string) : option string :=
  assoc name (rev (map (fun kv => (lower kv.1, kv.2)) hs)).

Definition digest_header (body : string) : string := "sha-256=:" +:+ b64encode (sha256_raw body) +:+ ":".

Definition quote (s : string) : string := String dquote (s +:+ String dquote "").

Fixpoint base_lines (hs : headers) (derived : list (string * string)) (fields : list string) : res sig_err (list string) :=
  match fields with
  | [] => Ok []
  | field :: r =>
    let? line :=
      match assoc field derived with
      | Some v => Ok (quote field +:+ ": " +:+ v)
      | None => let? v := some_or (header hs (lower field)) ("signed field " +:+ field +:+ " missing from headers") in
                Ok (quote (lower field) +:+ ": " +:+ v)
      end in
    let? ls := base_lines hs derived r in Ok (line :: ls)
  end.

(** The last line of the base. *)
Definition params_line (fields params : list ascii) : string :=
  quote "@signature-params" +:+ ": " +:+ string_of_list_ascii ("("%char :: fields ++ ")"%char :: params).

Definition covered (required : list string) (fields : list string) : bool :=
  forallb (fun f => bool_decide (f ∈ fields)) required.

Definition must_cover (required : list string) : string :=
  "signature must cover " +:+ String.concat ", " (merge_sort String.le (remove_dups required)).

(** [_verify_message]. *)
Definition verify_message (hs : headers) (body public_key : string) (required : list string)
    (derived : list (string * string)) (max_age now : Z) : res sig_err unit :=
  do? refuse_if (str_eqb public_key "") "no federation public key configured" in
  let? pub := load_ed25519_public_key public_key in
  do? refuse_if (negb (bool_decide (header hs "content-digest" = Some (digest_header body)))) "content-digest mismatch" in
  let signature_input := default "" (header hs "signature-input") in
  let signature := default "" (header hs "signature") in
  do? refuse_if (str_eqb signature_input "" || str_eqb signature "") "missing Signature or Signature-Input" in
  let? input := some_or (parse_signature_input signature_input) "invalid Signature-Input format" in
  let fields := quoted None input.1 in
  do? refuse_if (negb (covered required fields)) (must_cover required) in
  let? created := some_or (find_created (split_on ";" input.2)) "Signature-Input missing created timestamp" in
  do? refuse_if (max_age <? Z.abs (now - created)) "signature expired" in
  let? lines := base_lines hs derived fields in
  let? encoded := some_or (parse_signature signature) "invalid Signature format" in
  let? sig := some_or (b64decode_std encoded) "invalid signature encoding" in
  refuse_if (negb (ed_verify pub sig (String.concat nl (lines ++ [params_line input.1 input.2])))) "invalid signature".

Definition verify_rfc9421_response (status_code : Z) (hs : headers) (body public_key : string) (now : Z) : res sig_err unit :=
  do? refuse_if (negb (status_code =? 503)) "only HTTP 503 may be a failover signal" in
  verify_message hs body public_key ["@status"; "content-digest"] [("@status", pretty status_code)] 5 now.

Definition verify_rfc9421_request (method target_uri : string) (hs : headers) (body public_key : string)
    (required_header_components : list string) (now : Z) : res sig_err unit :=
  do? refuse_if (negb (str_eqb (upper method) "POST")) "only POST may use the CAPPO execution request profile" in
  verify_message hs body public_key (["@method"; "@target-uri"; "content-digest"] ++ map lower required_header_components)
    [("@method", upper method); ("@target-uri", target_uri)] 5 now.

(** The signing client: the covered headers are those of its identity. *)
Definition sign_request (sk : privkey) (target_uri body : string) (identity : headers) (created : Z) : headers :=
  let cov := map (fun kv => (lower kv.1, kv.2)) identity in
  let fields := ["@method"; "@target-uri"; "content-digest"] ++ map fst cov in
  let quoted_fields := String.concat " " (map quote fields) in
  let params := ";created=" +:+ pretty created +:+ ";keyid=" +:+ quote "capi-gatekeeper" in
  let base := [quote "@method" +:+ ": POST"; quote "@target-uri" +:+ ": " +:+ target_uri;
               quote "content-digest" +:+ ": " +:+ digest_header body]
              ++ map (fun kv => quote kv.1 +:+ ": " +:+ kv.2) cov
              ++ [quote "@signature-params" +:+ ": (" +:+ quoted_fields +:+ ")" +:+ params] in
  let sig := b64encode (ed_sign sk (String.concat nl base)) in
  identity ++ [("Content-Digest", digest_header body);
               ("Signature-Input", "sig1=(" +:+ quoted_fields +:+ ")" +:+ params);
               ("Signature", "sig1=:" +:+ sig +:+ ":")].
End verify.
