(* ===== verification/HttpSigProperties.v ===== *)
(** * What an HTTP message signature guarantees

    The scanners of HttpSig read back what was written: cutting and splitting
    at a separator, quoted names, digits, base64.  An accepted request was
    signed under the configured key, at most five seconds from now, over a base
    that fixes its method, target, body digest and covered headers; and what
    the client signs is accepted. *)

From Stdlib Require Import ZArith Lia Ascii String.
From stdpp Require Import base gmap strings list pretty sorting.
From S2P Require Import Prelude Canon PyJson Verify Permits Identity HttpSig.

Local Open Scope Z_scope.

(** [c] does not occur in [s]. *)
Definition lacks (c : ascii) (s : string) : Prop := c ∉ chars s.
#[export] Instance lacks_dec c s : Decision (lacks c s).
Proof. unfold lacks. apply _. Defined.

Lemma cut_app c a b : c ∉ a -> cut c (a ++ c :: b) = Some (a, b).
Proof.
  induction a as [|d a IH]; intros Ha; simpl.
  { by rewrite Ascii.eqb_refl. }
  apply not_elem_of_cons in Ha as [Hd Ha]. apply not_eq_sym, Ascii.eqb_neq in Hd as ->. by rewrite IH.
Qed.

Lemma cut_none c l : c ∉ l -> cut c l = None.
Proof.
  induction l as [|d l IH]; intros Hl; simpl; [done|].
  apply not_elem_of_cons in Hl as [Hd Hl]. apply not_eq_sym, Ascii.eqb_neq in Hd as ->. by rewrite IH.
Qed.

Lemma cut_Some c l a b : cut c l = Some (a, b) -> l = a ++ c :: b /\ c ∉ a.
Proof.
  revert a b. induction l as [|d l IH]; intros a b; simpl; [done|].
  destruct (Ascii.eqb_spec d c) as [->|Hd]; [intros [= <- <-]; split; [done|apply not_elem_of_nil]|].
  destruct (cut c l) as [[a' b']|]; [|done]. intros [= <- <-]. destruct (IH a' b' eq_refl) as [-> Hn].
  split; [done|]. apply not_elem_of_cons. by split; [apply not_eq_sym|].
Qed.

Lemma strip_prefix_app p l : strip_prefix p (p ++ l) = Some l.
Proof. induction p as [|c p IH]; simpl; [done|]. by rewrite Ascii.eqb_refl. Qed.

Lemma strip_prefix_Some p l r : strip_prefix p l = Some r -> l = p ++ r.
Proof.
  revert l. induction p as [|c p IH]; intros l; simpl; [by intros [= ->]|].
  destruct l as [|d l]; [done|]. destruct (Ascii.eqb_spec c d) as [->|_]; [|done]. intros Hr. by rewrite (IH l Hr).
Qed.

Lemma split_on_lacks c l : c ∉ l -> split_on c l = [l].
Proof.
  induction l as [|d l IH]; intros Hl; simpl; [done|].
  apply not_elem_of_cons in Hl as [Hd Hl]. apply not_eq_sym, Ascii.eqb_neq in Hd as ->. by rewrite IH.
Qed.

Lemma split_on_app c a b : c ∉ a -> split_on c (a ++ c :: b) = a :: split_on c b.
Proof.
  induction a as [|d a IH]; intros Ha; simpl.
  { by rewrite Ascii.eqb_refl. }
  apply not_elem_of_cons in Ha as [Hd Ha]. apply not_eq_sym, Ascii.eqb_neq in Hd as ->. by rewrite IH.
Qed.

(** Joined lines without the separator are read back. *)
Lemma split_joined c l :
  l <> [] -> Forall (lacks c) l -> split_on c (chars (String.concat (String c "") l)) = map chars l.
Proof.
  intros Hl HF. induction HF as [|s l Hs HF IH]; [done|]. destruct l as [|t l].
  - by apply split_on_lacks.
  - change (String.concat (String c "") (s :: t :: l)) with (s +:+ String c "" +:+ String.concat (String c "") (t :: l)).
    rewrite !chars_app. change (chars (String c "") ++ ?x) with (c :: x). rewrite split_on_app by done.
    rewrite IH by done. done.
Qed.

Lemma joined_inj c l l' :
  l <> [] -> l' <> [] -> Forall (lacks c) l -> Forall (lacks c) l' ->
  String.concat (String c "") l = String.concat (String c "") l' -> l = l'.
Proof.
  intros Hl Hl' HF HF' He. apply (f_equal (fun s => split_on c (chars s))) in He. rewrite !split_joined in He by done.
  clear -He. revert l' He. induction l as [|s l IH]; intros [|t l'] He; try done. simpl in He. injection He as Hs He.
  apply chars_inj in Hs as ->. by rewrite (IH l').
Qed.

Lemma lacks_app c s t : lacks c (s +:+ t) <-> lacks c s /\ lacks c t.
Proof. unfold lacks. rewrite chars_app. set_solver. Qed.

(** ** Quoted names *)

Lemma quoted_run run s r :
  lacks dquote s -> quoted (Some run) (chars s ++ dquote :: r)
  = match run ++ chars s with [] => quoted (Some []) r | _ => string_of_list_ascii (run ++ chars s) :: quoted None r end.
Proof.
  unfold lacks. revert run. induction (chars s) as [|c l IH]; intros run Hs.
  - rewrite app_nil_r. simpl. by destruct run.
  - apply not_elem_of_cons in Hs as [Hc Hl]. apply not_eq_sym, Ascii.eqb_neq in Hc. cbn [app quoted]. rewrite Hc.
    rewrite IH by done. by rewrite <- app_assoc.
Qed.

Lemma chars_quote s : chars (quote s) = dquote :: chars s ++ [dquote].
Proof. unfold quote. simpl. by rewrite chars_app. Qed.

Lemma quoted_one s r : lacks dquote s -> s <> "" -> quoted None (chars (quote s) ++ r) = s :: quoted None r.
Proof.
  intros Hs Hn. rewrite chars_quote. cbn [app]. cbn [quoted]. rewrite Ascii.eqb_refl, <- app_assoc. cbn [app].
  rewrite quoted_run by done. cbn [app]. destruct (chars s) as [|c l] eqn:E; [by destruct s|].
  by rewrite <- E, string_of_list_ascii_of_string.
Qed.

Lemma quoted_names ss :
  Forall (fun s => lacks dquote s /\ s <> "") ss -> quoted None (chars (String.concat " " (map quote ss))) = ss.
Proof.
  induction 1 as [|s ss [Hs Hn] HF IH]; [done|]. destruct ss as [|t ss].
  - change (String.concat " " (map quote [s])) with (quote s).
    rewrite <- (app_nil_r (chars (quote s))). by rewrite quoted_one.
  - change (String.concat " " (map quote (s :: t :: ss)))
      with (quote s +:+ " " +:+ String.concat " " (map quote (t :: ss))).
    rewrite !chars_app, quoted_one by done. f_equal. exact IH.
Qed.

(** ** Digits *)

Lemma digits_value_acc l a :
  fold_left (fun acc c => acc * 10 + (Z.of_nat (nat_of_ascii c) - 48)) l a = a * 10 ^ Z.of_nat (length l) + digits_value l.
Proof.
  unfold digits_value. revert a. induction l as [|c l IH]; intros a; [simpl; lia|]. cbn [fold_left].
  rewrite IH, (IH (0 * 10 + _)). cbn [length]. rewrite Nat2Z.inj_succ, Z.pow_succ_r by lia. ring.
Qed.

Lemma digits_value_cons c l :
  digits_value (c :: l) = (Z.of_nat (nat_of_ascii c) - 48) * 10 ^ Z.of_nat (length l) + digits_value l.
Proof. unfold digits_value at 1. cbn [fold_left]. rewrite digits_value_acc. ring. Qed.

Lemma pretty_char_digit n :
  (n < 10)%N -> is_digit (pretty_N_char n) = true /\ Z.of_nat (nat_of_ascii (pretty_N_char n)) - 48 = Z.of_N n.
Proof.
  intros Hn. assert (Ht : forallb (fun k => is_digit (pretty_N_char (N.of_nat k)) &&
    (Z.of_nat (nat_of_ascii (pretty_N_char (N.of_nat k))) - 48 =? Z.of_nat k)) (seq 0 10) = true) by done.
  rewrite forallb_forall in Ht. specialize (Ht (N.to_nat n)). rewrite N2Nat.id in Ht.
  destruct (andb_prop _ _ (Ht ltac:(apply in_seq; lia))) as [-> Hv]. apply Z.eqb_eq in Hv. split; [done|lia].
Qed.

Lemma pretty_go_digits n s :
  forallb is_digit (chars s) = true ->
  forallb is_digit (chars (pretty_N_go n s)) = true
  /\ digits_value (chars (pretty_N_go n s)) = Z.of_N n * 10 ^ Z.of_nat (length (chars s)) + digits_value (chars s).
Proof.
  revert s. induction (N.lt_wf_0 n) as [n _ IH]. intros s Hs. destruct (decide (n = 0%N)) as [->|Hn].
  { rewrite pretty_N_go_0. split; [done|lia]. }
  rewrite pretty_N_go_step by lia. destruct (pretty_char_digit (n mod 10)) as [Hd Hv]; [apply N.mod_lt; lia|].
  destruct (IH (n / 10)%N ltac:(apply N.div_lt; lia) (String (pretty_N_char (n mod 10)) s)) as [Ha Hb].
  { simpl. by rewrite Hd, Hs. }
  split; [done|]. rewrite Hb. cbn [list_ascii_of_string length]. rewrite digits_value_cons, Hv, Nat2Z.inj_succ, Z.pow_succ_r by lia.
  pose proof (N.div_mod n 10 ltac:(lia)) as Hdm.
  assert (He : Z.of_N n = 10 * Z.of_N (n / 10) + Z.of_N (n mod 10)) by lia. rewrite He. ring.
Qed.

Lemma digits_pretty (z : Z) : 0 <= z -> digits (chars (pretty z)) = Some z.
Proof.
  intros Hz. assert (Hn : forall n : N, forallb is_digit (chars (pretty n)) = true /\ digits_value (chars (pretty n)) = Z.of_N n
    /\ chars (pretty n) <> []).
  { intros n. unfold pretty, pretty_N. case_decide as Hn0; [by subst|]. destruct (pretty_go_digits n "") as [Ha Hb]; [done|].
    change (digits_value (chars "")) with 0 in Hb. change (length (chars "")) with 0%nat in Hb.
    rewrite Z.pow_0_r in Hb. split; [done|]. split; [lia|]. intros He. rewrite He in Hb.
    change (digits_value []) with 0 in Hb. lia. }
  unfold digits. destruct z as [|p|p]; [done| |lia].
  destruct (Hn (Npos p)) as (Ha & Hb & Hc). change (pretty (Z.pos p)) with (pretty (N.pos p)).
  rewrite Ha, Hb, bool_decide_false by done. done.
Qed.

Lemma digits_only (z : Z) : 0 <= z -> forallb is_digit (chars (pretty z)) = true.
Proof. intros Hz. pose proof (digits_pretty z Hz) as H. unfold digits in H. by destruct (forallb _ _); [|rewrite andb_false_r in H]. Qed.

Lemma digits_lack c (z : Z) : 0 <= z -> is_digit c = false -> lacks c (pretty z).
Proof.
  intros Hz Hc Hin. pose proof (digits_only z Hz) as Hd. rewrite forallb_forall in Hd.
  rewrite Hd in Hc; [done|]. by apply list_elem_of_In.
Qed.

(** ** Standard base64 *)

Lemma to_std_val c : is_Some (b64_val c) -> b64_std_val (to_std c) = b64_val c /\ to_std c <> "="%char.
Proof.
  intros Hc. destruct (decide (b64_std_val (to_std c) = b64_val c /\ to_std c <> "="%char)) as [|Hn]; [done|exfalso].
  destruct c as [[] [] [] [] [] [] [] []]; try (by destruct Hc); apply Hn; by split.
Qed.

Lemma unpad_padded l :
  Forall (fun c => c <> "="%char) l -> (length l mod 4)%nat <> 1%nat ->
  unpad (l ++ repeat "="%char ((4 - length l mod 4) mod 4)) = Some l.
Proof.
  intros HF Hm. set (k := ((4 - length l mod 4) mod 4)%nat).
  assert (Hk : (k <= 2)%nat /\ ((length l + k) mod 4 = 0)%nat).
  { unfold k. pose proof (Nat.mod_upper_bound (length l) 4 ltac:(lia)).
    pose proof (Nat.Div0.add_mod (length l) ((4 - length l mod 4) mod 4) 4) as Ha.
    destruct (length l mod 4)%nat as [|[|[|[|n]]]]; simpl in Ha |- *; split; lia || exact Ha. }
  unfold unpad. cbv zeta. rewrite (length_app l (repeat _ k)), repeat_length. destruct Hk as [Hk ->]. simpl repeat. rewrite app_nil_r.
  assert (Hd : rev (drop_pads (rev (l ++ repeat "="%char k))) = l).
  { rewrite rev_app_distr. assert (Hp : forall n r, drop_pads (repeat "="%char n ++ r) = drop_pads r).
    { intros n r. induction n as [|n IH]; [done|]. exact IH. }
    replace (rev (repeat "="%char k)) with (repeat "="%char k).
    - rewrite Hp. apply Forall_rev in HF. rewrite <- (rev_involutive l) at 2. f_equal.
      destruct (rev l) as [|c r]; [done|]. apply Forall_cons_1 in HF as [Hc _]. simpl. by apply Ascii.eqb_neq in Hc as ->.
    - clear. induction k as [|k IH]; [done|]. simpl. rewrite <- IH, <- repeat_cons. done. }
  rewrite Hd, length_app, repeat_length. assert (Hle : (length l + k - length l <=? 2)%nat = true) by (apply Nat.leb_le; lia).
  by rewrite Hle.
Qed.

Lemma b64decode_b64encode raw : b64decode_std (b64encode raw) = Some raw.
Proof.
  destruct (b64u_list_alphabet (length (chars raw)) (chars raw)) as [HF Hm]; [done|].
  unfold b64decode_std, b64encode. rewrite list_ascii_of_string_of_list_ascii, unpad_padded.
  - assert (Hv : mapM b64_std_val (map to_std (b64u_list (chars raw))) = Some (b64_values (b64u_list (chars raw)))).
    { clear Hm. induction HF as [|c l Hc HF IH]; [done|]. simpl. destruct (to_std_val c Hc) as [-> _].
      destruct Hc as [v Hv]. unfold b64_values in *. simpl. rewrite Hv. simpl. by rewrite IH. }
    rewrite Hv, (b64_decode_encode (length (chars raw))) by done. simpl. by rewrite string_of_list_ascii_of_string.
  - apply Forall_map. eapply Forall_impl; [exact HF|]. intros c Hc. by apply to_std_val.
  - by rewrite length_map.
Qed.

Lemma b64encode_inj a b : b64encode a = b64encode b -> a = b.
Proof. intros He. apply (f_equal b64decode_std) in He. rewrite !b64decode_b64encode in He. by injection He. Qed.

(** A character of the alphabet is neither of the separators of the headers. *)
Lemma b64encode_chars raw c : c ∈ chars (b64encode raw) -> c = "="%char \/ is_Some (b64_std_val c).
Proof.
  unfold b64encode. rewrite list_ascii_of_string_of_list_ascii, elem_of_app. intros [Hin|Hin].
  - right. apply list_elem_of_In, in_map_iff in Hin as (d & <- & Hd). apply list_elem_of_In in Hd.
    destruct (b64u_list_alphabet (length (chars raw)) (chars raw)) as [HF _]; [done|].
    rewrite Forall_forall in HF. destruct (to_std_val d (HF d Hd)) as [-> _]. by apply HF.
  - left. by apply list_elem_of_In, repeat_spec in Hin.
Qed.

Lemma b64encode_lacks c raw : c <> "="%char -> b64_std_val c = None -> lacks c (b64encode raw).
Proof. intros Hc Hn Hin. apply b64encode_chars in Hin as [?|[v Hv]]; [done|]. by rewrite Hn in Hv. Qed.

Lemma b64encode_nonempty raw : raw <> "" -> b64encode raw <> "".
Proof.
  intros Hr He. pose proof (b64decode_b64encode raw) as Hd. rewrite He in Hd.
  change (b64decode_std "") with (Some "") in Hd. congruence.
Qed.

Local Abbreviation LF := "010"%char.

Section integrity.
Context `{EiWorld, !Mac}.

(** The text a message's signature is over, and the time it claims. *)
Definition signature_base (hs : headers) (derived : list (string * string)) : option string :=
  match parse_signature_input (default "" (header hs "signature-input")) with
  | Some input =>
    match base_lines hs derived (quoted None input.1) with
    | Ok lines => Some (String.concat nl (lines ++ [params_line input.1 input.2]))
    | Err _ => None
    end
  | None => None
  end.
Definition created_at (hs : headers) : option Z :=
  match parse_signature_input (default "" (header hs "signature-input")) with
  | Some input => find_created (split_on ";" input.2)
  | None => None
  end.

(** No value spans lines, as HTTP has it. *)
Definition one_line (hs : headers) : Prop := Forall (fun kv => lacks LF kv.2) hs.

Lemma assoc_In {A} k (m : list (string * A)) v : assoc k m = Some v -> (k, v) ∈ m.
Proof.
  induction m as [|[k' w] m IH]; simpl; [done|]. destruct (str_eqb k' k) eqn:E.
  - apply str_eqb_spec in E as ->. intros [= ->]. by left.
  - intros Hv. right. by apply IH.
Qed.

Lemma header_lacks hs k v : one_line hs -> header hs k = Some v -> lacks LF v.
Proof.
  intros Ho Hv. apply assoc_In, list_elem_of_In in Hv. rewrite <- in_rev in Hv. apply in_map_iff in Hv as ([k' v'] & [= _ <-] & Hin).
  unfold one_line in Ho. rewrite Forall_forall in Ho. by apply (Ho (k', v')), list_elem_of_In.
Qed.

Lemma quoted_chars l inside s c :
  s ∈ quoted inside l -> c ∈ chars s -> c ∈ l \/ c ∈ default [] inside.
Proof.
  revert inside. induction l as [|d l IH]; intros inside Hs Hc; cbn [quoted] in Hs; [by apply not_elem_of_nil in Hs|].
  destruct (Ascii.eqb d dquote).
  - destruct inside as [[|e run]|].
    + destruct (IH _ Hs Hc) as [Hin|Hin]; [set_solver|by apply not_elem_of_nil in Hin].
    + apply elem_of_cons in Hs as [->|Hs].
      * rewrite list_ascii_of_string_of_list_ascii in Hc. by right.
      * destruct (IH _ Hs Hc) as [Hin|Hin]; [set_solver|by apply not_elem_of_nil in Hin].
    + destruct (IH _ Hs Hc) as [Hin|Hin]; [set_solver|by apply not_elem_of_nil in Hin].
  - destruct (IH _ Hs Hc) as [Hin|Hin]; [set_solver|]. destruct inside as [run|]; simpl in Hin |- *; set_solver.
Qed.

Lemma map_lacks (f : ascii -> ascii) s :
  (forall c, f c = LF -> c = LF) -> lacks LF s -> lacks LF (string_of_list_ascii (map f (chars s))).
Proof.
  unfold lacks. rewrite list_ascii_of_string_of_list_ascii. intros Hf Hs Hin.
  apply list_elem_of_In, in_map_iff in Hin as (c & Hc & Hin). apply Hf in Hc as ->. by apply Hs, list_elem_of_In.
Qed.

Lemma lower_lacks s : lacks LF s -> lacks LF (lower s).
Proof. apply map_lacks. intros c. destruct c as [[] [] [] [] [] [] [] []]; by vm_compute. Qed.
Lemma upper_lacks s : lacks LF s -> lacks LF (upper s).
Proof. apply map_lacks. intros c. destruct c as [[] [] [] [] [] [] [] []]; by vm_compute. Qed.

Lemma lower_idem s : lower (lower s) = lower s.
Proof.
  unfold lower. rewrite list_ascii_of_string_of_list_ascii, map_map. f_equal. apply map_ext. intros c.
  destruct c as [[] [] [] [] [] [] [] []]; by vm_compute.
Qed.

Lemma line_lacks f v : lacks LF f -> lacks LF v -> lacks LF (quote f +:+ ": " +:+ v).
Proof.
  intros Hf Hv. rewrite !lacks_app. split; [|split; [apply (bool_decide_unpack _); by vm_compute|done]]. unfold lacks. rewrite chars_quote.
  unfold lacks in Hf. rewrite elem_of_cons, elem_of_app, list_elem_of_singleton. by intros [He|[Hin|He]].
Qed.

Lemma base_lines_lack hs derived fields lines :
  one_line hs -> one_line derived -> Forall (lacks LF) fields -> base_lines hs derived fields = Ok lines -> Forall (lacks LF) lines.
Proof.
  intros Ho Hd. revert lines. induction fields as [|f fields IH]; intros lines HF Hl; simpl in Hl; [by injection Hl as <-|].
  apply Forall_cons_1 in HF as [Hf HF]. apply rbind_Ok in Hl as (line & Hline & Hl).
  apply rbind_Ok in Hl as (ls & Hls & Hl). injection Hl as <-. apply Forall_cons. split; [|by apply IH].
  destruct (assoc f derived) as [v|] eqn:Ev.
  - injection Hline as <-. apply line_lacks; [done|]. apply assoc_In in Ev. unfold one_line in Hd. rewrite Forall_forall in Hd.
    exact (Hd _ Ev).
  - apply rbind_Ok in Hline as (v & Hv & Hline). injection Hline as <-. unfold some_or in Hv.
    destruct (header hs (lower f)) eqn:Eh; [|done]. injection Hv as ->. apply line_lacks; [by apply lower_lacks|].
    exact (header_lacks hs _ _ Ho Eh).
Qed.

Lemma parse_input_text s input :
  parse_signature_input s = Some input ->
  chars s = chars "sig1=(" ++ input.1 ++ ")"%char :: input.2 /\ ")"%char ∉ input.1.
Proof.
  unfold parse_signature_input. destruct (strip_prefix _ _) as [l|] eqn:Ep; [|done]. apply strip_prefix_Some in Ep as ->.
  destruct (cut ")" l) as [[fields [|c params]]|] eqn:Ec; [done| |done]. apply cut_Some in Ec as [-> Hn].
  intros Hi. assert (Hin : input = (fields, c :: params)).
  { destruct c as [[] [] [] [] [] [] [] []]; try done. destruct (forallb _ _); [|done]. by injection Hi as <-. }
  by subst.
Qed.

(** The base of a message and that of another one are the same text only if
    the two say the same: the same components, covered in the same way. *)
Lemma base_binds hs derived hs' derived' base :
  one_line hs -> one_line derived -> one_line hs' -> one_line derived' ->
  signature_base hs derived = Some base -> signature_base hs' derived' = Some base ->
  exists input lines, parse_signature_input (default "" (header hs "signature-input")) = Some input
    /\ parse_signature_input (default "" (header hs' "signature-input")) = Some input
    /\ base_lines hs derived (quoted None input.1) = Ok lines /\ base_lines hs' derived' (quoted None input.1) = Ok lines.
Proof.
  assert (Hnl : forall hs derived input lines, one_line hs -> one_line derived ->
    parse_signature_input (default "" (header hs "signature-input")) = Some input ->
    base_lines hs derived (quoted None input.1) = Ok lines -> Forall (lacks LF) (lines ++ [params_line input.1 input.2])).
  { clear. intros hs derived input lines Ho Hd Hi Hl. apply parse_input_text in Hi as [Ht Hp].
    assert (Hc : LF ∉ chars (default "" (header hs "signature-input"))).
    { destruct (header hs "signature-input") as [v|] eqn:E; [exact (header_lacks hs _ _ Ho E)|apply not_elem_of_nil]. }
    rewrite Ht, !not_elem_of_app, not_elem_of_cons in Hc. destruct Hc as (_ & Hf & _ & Hq). apply Forall_app. split.
    - eapply base_lines_lack; [exact Ho|exact Hd| |exact Hl]. apply Forall_forall. intros f Hin Hlf.
      destruct (quoted_chars _ _ _ _ Hin Hlf) as [Hx|Hx]; [done|by apply not_elem_of_nil in Hx].
    - apply Forall_singleton. apply line_lacks; [apply (bool_decide_unpack _); by vm_compute|].
      unfold lacks. rewrite list_ascii_of_string_of_list_ascii, not_elem_of_cons, not_elem_of_app, not_elem_of_cons. done. }
  intros Ho Hd Ho' Hd'. unfold signature_base. destruct (parse_signature_input _) as [input|] eqn:Ei; [|done].
  destruct (base_lines hs _ _) as [lines|] eqn:El; [|done]. intros [= <-].
  destruct (parse_signature_input (default "" (header hs' _))) as [input'|] eqn:Ei'; [|done].
  destruct (base_lines hs' _ _) as [lines'|] eqn:El'; [|done]. intros [= He].
  apply joined_inj in He; [|by destruct lines'|by destruct lines|exact (Hnl _ _ _ _ Ho' Hd' Ei' El')|exact (Hnl _ _ _ _ Ho Hd Ei El)].
  apply app_inj_tail in He as [-> Hp]. unfold params_line in Hp. apply string_app_inj in Hp. apply string_app_inj in Hp.
  apply (f_equal list_ascii_of_string) in Hp. rewrite !list_ascii_of_string_of_list_ascii in Hp. injection Hp as Hp.
  apply parse_input_text in Ei as Ht, Ei' as Ht'. destruct Ht as [_ Hn], Ht' as [_ Hn'].
  apply (f_equal (cut ")")) in Hp. rewrite !cut_app in Hp by done. injection Hp as Hfs Hps.
  assert (input' = input) as -> by (destruct input, input'; by simpl in *; subst). exists input, lines. by rewrite El.
Qed.

Lemma covered_in required fields f : covered required fields = true -> f ∈ required -> f ∈ fields.
Proof.
  unfold covered. rewrite forallb_forall. intros Hc Hf. apply list_elem_of_In, Hc in Hf. by apply bool_decide_eq_true in Hf.
Qed.

(** A line of the base is the component's derived value or header. *)
Lemma base_line hs derived fields lines i f :
  base_lines hs derived fields = Ok lines -> fields !! i = Some f ->
  lines !! i =
    match assoc f derived with
    | Some v => Some (quote f +:+ ": " +:+ v)
    | None => (fun v => quote (lower f) +:+ ": " +:+ v) <$> header hs (lower f)
    end.
Proof.
  revert lines i. induction fields as [|g fields IH]; intros lines i Hl Hf; [done|]. simpl in Hl.
  apply rbind_Ok in Hl as (line & Hline & Hl). apply rbind_Ok in Hl as (ls & Hls & Hl). injection Hl as <-.
  destruct i as [|i]; [|exact (IH ls i Hls Hf)]. injection Hf as ->. cbn [lookup list_lookup].
  destruct (assoc f derived); [by injection Hline as <-|].
  apply rbind_Ok in Hline as (v & Hv & Hline). injection Hline as <-. unfold some_or in Hv.
  destruct (header hs (lower f)); [|done]. by injection Hv as ->.
Qed.

(** So a component covered by two equal bases has the same value in both. *)
Lemma same_line hs derived hs' derived' fields lines f :
  base_lines hs derived fields = Ok lines -> base_lines hs' derived' fields = Ok lines -> f ∈ fields ->
  match assoc f derived, assoc f derived' with
  | Some v, Some v' => v = v'
  | None, None => header hs (lower f) = header hs' (lower f)
  | _, _ => True
  end.
Proof.
  intros Hl Hl' Hf. apply list_elem_of_lookup in Hf as [i Hi]. pose proof (base_line _ _ _ _ _ _ Hl Hi) as He.
  rewrite (base_line _ _ _ _ _ _ Hl' Hi) in He. destruct (assoc f derived) as [v|], (assoc f derived') as [v'|]; try done.
  - injection He as He. apply string_app_inj in He. by apply string_app_inj in He.
  - destruct (header hs (lower f)), (header hs' (lower f)); simpl in He; try done.
    injection He as He. apply string_app_inj in He. apply string_app_inj in He. by rewrite He.
Qed.

(** What the acceptance of a message says of it. *)
Lemma verify_message_Ok hs body key required derived max_age now :
  verify_message hs body key required derived max_age now = Ok tt ->
  header hs "content-digest" = Some (digest_header body)
  /\ exists pub sig base created input lines,
       load_ed25519_public_key key = Ok pub /\ ed_verify pub sig base = true
       /\ signature_base hs derived = Some base /\ created_at hs = Some created /\ Z.abs (now - created) <= max_age
       /\ parse_signature_input (default "" (header hs "signature-input")) = Some input
       /\ covered required (quoted None input.1) = true /\ base_lines hs derived (quoted None input.1) = Ok lines.
Proof.
  unfold verify_message, refuse_if. intros Hv. apply rbind_Ok in Hv as (_ & _ & Hv). apply rbind_Ok in Hv as (pub & Hp & Hv).
  apply rbind_Ok in Hv as (u1 & Hd & Hv). apply raise_if_Ok, negb_false_iff, bool_decide_eq_true in Hd. split; [done|].
  apply rbind_Ok in Hv as (_ & _ & Hv). apply rbind_Ok in Hv as (input & Hi & Hv). apply rbind_Ok in Hv as (u2 & Hc & Hv).
  apply raise_if_Ok, negb_false_iff in Hc. apply rbind_Ok in Hv as (created & Hcr & Hv). apply rbind_Ok in Hv as (u3 & Ha & Hv).
  apply raise_if_Ok, Z.ltb_ge in Ha. apply rbind_Ok in Hv as (lines & Hl & Hv). apply rbind_Ok in Hv as (enc & _ & Hv).
  apply rbind_Ok in Hv as (sig & _ & Hv). apply raise_if_Ok, negb_false_iff in Hv. unfold some_or in Hi, Hcr.
  destruct (parse_signature_input _) as [i|] eqn:Ei; [|done]. injection Hi as ->.
  destruct (find_created _) as [z|] eqn:Ez; [|done]. injection Hcr as ->.
  exists pub, sig, (String.concat nl (lines ++ [params_line input.1 input.2])), created, input, lines.
  unfold signature_base, created_at. by rewrite Ei, Hl.
Qed.

(** An accepted request was signed, under the configured key and at most
    five seconds from now, over a text that fixes what it asks: any message
    with its own digest header that has this text as its signature base has
    the same method, target URI, body digest, covered headers and time. *)
Theorem request_integrity method uri hs body key components now :
  one_line hs -> lacks LF uri ->
  verify_rfc9421_request method uri hs body key components now = Ok tt ->
  exists pub sig base created,
    load_ed25519_public_key key = Ok pub /\ ed_verify pub sig base = true
    /\ created_at hs = Some created /\ Z.abs (now - created) <= 5
    /\ forall method' uri' hs' body', one_line hs' -> lacks LF uri' -> lacks LF method' ->
         header hs' "content-digest" = Some (digest_header body') ->
         signature_base hs' [("@method", upper method'); ("@target-uri", uri')] = Some base ->
         upper method' = "POST" /\ uri' = uri /\ sha256_raw body' = sha256_raw body /\ created_at hs' = Some created
         /\ forall c, c ∈ components -> lower c <> "@method" -> lower c <> "@target-uri" ->
              header hs' (lower c) = header hs (lower c).
Proof.
  intros Ho Hu Hv. unfold verify_rfc9421_request, refuse_if in Hv. apply rbind_Ok in Hv as (u & Hm & Hv).
  apply raise_if_Ok, negb_false_iff, str_eqb_spec in Hm. rewrite Hm in Hv.
  apply verify_message_Ok in Hv as (Hd & pub & sig & base & created & input & lines & Hk & Hs & Hb & Hc & Ha & Hi & Hcov & Hl).
  exists pub, sig, base, created. do 4 (split; [done|]). intros method' uri' hs' body' Ho' Hu' Hm' Hd' Hb'.
  assert (Hder : one_line [("@method", "POST"); ("@target-uri", uri)]).
  { apply Forall_cons. split; [apply (bool_decide_unpack _); by vm_compute|]. by apply Forall_singleton. }
  assert (Hder' : one_line [("@method", upper method'); ("@target-uri", uri')]).
  { apply Forall_cons. split; [by apply upper_lacks|]. by apply Forall_singleton. }
  destruct (base_binds _ _ _ _ _ Ho Hder Ho' Hder' Hb Hb') as (input' & lines' & Hi0 & Hi' & Hl0 & Hl').
  rewrite Hi in Hi0. injection Hi0 as <-. rewrite Hl in Hl0. injection Hl0 as <-.
  assert (Hsame := fun f Hf => same_line _ _ _ _ _ _ f Hl Hl' (covered_in _ _ f Hcov Hf)).
  pose proof (Hsame "@method" ltac:(set_solver)) as H_m. pose proof (Hsame "@target-uri" ltac:(set_solver)) as H_u.
  pose proof (Hsame "content-digest" ltac:(set_solver)) as H_d. simpl in H_m, H_u.
  change (header hs "content-digest" = header hs' "content-digest") in H_d. rewrite Hd, Hd' in H_d.
  injection H_d as H_d. apply (f_equal list_ascii_of_string) in H_d. rewrite !chars_app in H_d.
  apply app_inj_tail in H_d as [H_d _]. apply chars_inj, b64encode_inj in H_d.
  split; [done|]. split; [done|]. split; [done|]. split; [unfold created_at in *; by rewrite Hi'; rewrite Hi in Hc|].
  intros c Hin H1' H2'. specialize (Hsame (lower c)). rewrite lower_idem in Hsame. simpl in Hsame.
  apply not_eq_sym, str_eqb_neq in H1', H2'. rewrite H1', H2' in Hsame. symmetry. apply Hsame.
  do 3 right. by apply list_elem_of_fmap_2.
Qed.
End integrity.

Section roundtrip.
Context `{EiLaws, !Mac}.

Definition reserved : list string := ["@method"; "@target-uri"; "content-digest"; "signature-input"; "signature"].

(** Header names that can be listed in a signature. *)
Definition name_ok (k : string) : Prop := k <> "" /\ lacks dquote k /\ lacks ")" k.
#[export] Instance name_ok_dec k : Decision (name_ok k).
Proof. unfold name_ok. apply _. Defined.

Lemma header_at hs k v : NoDup (map (fun kv => lower kv.1) hs) -> (k, v) ∈ hs -> header hs (lower k) = Some v.
Proof.
  intros Hn Hin. unfold header. apply assoc_elem.
  - rewrite map_rev, map_map. simpl. apply NoDup_ListNoDup, NoDup_rev, NoDup_ListNoDup. exact Hn.
  - apply list_elem_of_In. apply -> in_rev. apply in_map_iff. exists (k, v). split; [done|]. by apply list_elem_of_In.
Qed.

Lemma base_lines_headers hs derived kvs :
  (forall k v, (k, v) ∈ kvs -> assoc (lower k) derived = None /\ header hs (lower k) = Some v) ->
  base_lines hs derived (map (fun kv => lower kv.1) kvs) = Ok (map (fun kv => quote (lower kv.1) +:+ ": " +:+ kv.2) kvs).
Proof.
  induction kvs as [|[k v] kvs IH]; intros Hk; [done|]. simpl. destruct (Hk k v ltac:(by left)) as [-> Hv].
  rewrite lower_idem, Hv. simpl. rewrite IH; [done|]. intros k' v' Hin. apply Hk. by right.
Qed.

(** The two headers the client writes are read back. *)
Lemma input_read fields created :
  0 <= created -> Forall name_ok fields ->
  parse_signature_input ("sig1=(" +:+ String.concat " " (map quote fields) +:+ ")" +:+ ";created=" +:+ pretty created
                         +:+ ";keyid=" +:+ quote "capi-gatekeeper")
  = Some (chars (String.concat " " (map quote fields)),
          chars (";created=" +:+ pretty created +:+ ";keyid=" +:+ quote "capi-gatekeeper")).
Proof.
  intros Hc HF. unfold parse_signature_input. rewrite chars_app, strip_prefix_app.
  rewrite (chars_app (String.concat _ _)), (chars_app ")"). change (chars ")" ++ ?x) with (")"%char :: x). rewrite cut_app.
  - rewrite !chars_app. change (chars ";created=" ++ ?x) with (";"%char :: (chars "created=" ++ x)). cbv beta iota.
    assert (Hs : split_on ";" (chars "created=" ++ chars (pretty created) ++ chars ";keyid=" ++ chars (quote "capi-gatekeeper"))
      = [chars "created=" ++ chars (pretty created); chars ("keyid=" +:+ quote "capi-gatekeeper")]).
    { rewrite app_assoc. change (chars ";keyid=" ++ ?x) with (";"%char :: (chars "keyid=" ++ x)). rewrite split_on_app; [done|].
      rewrite not_elem_of_app. split; [apply (bool_decide_unpack _); by vm_compute|]. by apply digits_lack. }
    rewrite Hs. cbn [forallb]. assert (Hp : param_ok (chars "created=" ++ chars (pretty created)) = true).
    { unfold param_ok. change (chars "created=" ++ ?x) with (chars "created" ++ "="%char :: x).
      rewrite cut_app by (apply (bool_decide_unpack _); by vm_compute). pose proof (digits_pretty created Hc) as Hd.
      unfold digits in Hd. by destruct (bool_decide (chars (pretty created) = [])). }
    by rewrite Hp.
  - clear Hc. induction HF as [|f fs (_ & _ & Hf) HF IH]; [apply not_elem_of_nil|].
    assert (Hq : ")"%char ∉ chars (quote f)).
    { rewrite chars_quote, not_elem_of_cons, not_elem_of_app, list_elem_of_singleton. by repeat split. }
    destruct fs as [|g fs]; [done|]. change (String.concat " " (map quote (f :: g :: fs)))
      with (quote f +:+ " " +:+ String.concat " " (map quote (g :: fs))).
    rewrite !chars_app, !not_elem_of_app. split; [done|]. split; [apply (bool_decide_unpack _); by vm_compute|done].
Qed.

Lemma created_read created :
  0 <= created -> find_created (split_on ";" (chars (";created=" +:+ pretty created +:+ ";keyid=" +:+ quote "capi-gatekeeper")))
  = Some created.
Proof.
  intros Hc. rewrite !chars_app. change (chars ";created=" ++ ?x) with ([] ++ ";"%char :: (chars "created=" ++ x)).
  rewrite split_on_app by apply not_elem_of_nil. rewrite app_assoc.
  change (chars ";keyid=" ++ ?x) with (";"%char :: (chars "keyid=" ++ x)). rewrite split_on_app.
  - cbn [find_created]. change (created_of _ []) with (@None Z). unfold created_of at 1. rewrite strip_prefix_app.
    by rewrite digits_pretty.
  - rewrite not_elem_of_app. split; [apply (bool_decide_unpack _); by vm_compute|]. by apply digits_lack.
Qed.

Lemma signature_read raw : raw <> "" -> parse_signature ("sig1=:" +:+ b64encode raw +:+ ":") = Some (b64encode raw).
Proof.
  intros Hr. unfold parse_signature. rewrite chars_app, strip_prefix_app, chars_app.
  change (chars ":") with [":"%char]. rewrite cut_app by (by apply b64encode_lacks).
  rewrite bool_decide_false, string_of_list_ascii_of_string; [done|]. intros He. apply (b64encode_nonempty raw Hr).
  by apply chars_inj.
Qed.

Lemma params_line_text a b : params_line (chars a) (chars b) = quote "@signature-params" +:+ ": (" +:+ a +:+ ")" +:+ b.
Proof.
  unfold params_line. change (": (" +:+ ?x) with (": " +:+ String "(" x). do 2 f_equal. apply chars_inj.
  rewrite list_ascii_of_string_of_list_ascii. simpl. by rewrite !chars_app.
Qed.

(** What the client lists, and the text it signs. *)
Definition signed_fields (identity : headers) : list string :=
  ["@method"; "@target-uri"; "content-digest"] ++ map (fun kv => lower kv.1) identity.
Definition signed_params (created : Z) : string :=
  ";created=" +:+ pretty created +:+ ";keyid=" +:+ quote "capi-gatekeeper".
Definition signed_lines (uri body : string) (identity : headers) : list string :=
  [quote "@method" +:+ ": POST"; quote "@target-uri" +:+ ": " +:+ uri; quote "content-digest" +:+ ": " +:+ digest_header body]
  ++ map (fun kv => quote (lower kv.1) +:+ ": " +:+ kv.2) identity.
Definition signed_base (uri body : string) (identity : headers) (created : Z) : string :=
  String.concat nl (signed_lines uri body identity
    ++ [params_line (chars (String.concat " " (map quote (signed_fields identity)))) (chars (signed_params created))]).

Lemma signed_headers sk uri body identity created :
  sign_request sk uri body identity created = identity ++ [("Content-Digest", digest_header body);
    ("Signature-Input", "sig1=(" +:+ String.concat " " (map quote (signed_fields identity)) +:+ ")" +:+ signed_params created);
    ("Signature", "sig1=:" +:+ b64encode (ed_sign sk (signed_base uri body identity created)) +:+ ":")].
Proof.
  unfold sign_request, signed_base. rewrite params_line_text. unfold signed_fields, signed_lines. rewrite !map_map.
  by rewrite <- app_assoc.
Qed.

(** The identity headers the client may send: distinct, listable, none of the
    reserved names. *)
Definition identity_ok (identity : headers) : Prop :=
  NoDup (map (fun kv => lower kv.1) identity) /\ Forall (fun kv => name_ok (lower kv.1) /\ lower kv.1 ∉ reserved) identity.
#[export] Instance identity_ok_dec identity : Decision (identity_ok identity).
Proof. unfold identity_ok. apply _. Defined.

Lemma signed_header_at sk uri body identity created k v :
  identity_ok identity -> (k, v) ∈ sign_request sk uri body identity created ->
  header (sign_request sk uri body identity created) (lower k) = Some v.
Proof.
  intros [Hn Hid]. apply header_at. rewrite signed_headers, map_app. apply NoDup_app. split; [done|]. split.
  - intros k' Hin Hr. apply list_elem_of_In, in_map_iff in Hin as (kv & <- & Hin). apply list_elem_of_In in Hin.
    rewrite Forall_forall in Hid. destruct (Hid kv Hin) as [_ Hres]. apply Hres. do 2 right. exact Hr.
  - apply (bool_decide_unpack _). by vm_compute.
Qed.

Lemma signed_base_lines sk uri body identity created :
  identity_ok identity ->
  base_lines (sign_request sk uri body identity created) [("@method", "POST"); ("@target-uri", uri)] (signed_fields identity)
  = Ok (signed_lines uri body identity).
Proof.
  intros Hid. pose proof (fun k v => signed_header_at sk uri body identity created k v Hid) as Hat.
  pose proof (Hat "Content-Digest" (digest_header body) ltac:(rewrite signed_headers; set_solver)) as Hd.
  change (lower "Content-Digest") with "content-digest" in Hd.
  unfold signed_fields. cbn [app base_lines assoc]. change (str_eqb "@method" "@method") with true.
  change (lower "content-digest") with "content-digest". rewrite Hd. cbn.
  rewrite base_lines_headers; [done|]. intros k v Hin. split; [|by apply Hat; rewrite signed_headers; set_solver].
  destruct Hid as [_ Hid]. rewrite Forall_forall in Hid. destruct (Hid _ Hin) as [_ Hres]. simpl in Hres |- *.
  rewrite !(proj2 (str_eqb_neq _ _)); [done| |]; intros He; apply Hres; rewrite <- He; set_solver.
Qed.

Lemma signed_fields_ok identity : identity_ok identity -> Forall name_ok (signed_fields identity).
Proof.
  intros [_ Hid]. unfold signed_fields. repeat (apply Forall_cons; split; [apply (bool_decide_unpack _); by vm_compute|]).
  apply Forall_map. eapply Forall_impl; [exact Hid|]. by intros kv [Hx _].
Qed.

Lemma signed_header_of sk uri body identity created :
  identity_ok identity ->
  let hs := sign_request sk uri body identity created in
  header hs "content-digest" = Some (digest_header body)
  /\ header hs "signature-input"
     = Some ("sig1=(" +:+ String.concat " " (map quote (signed_fields identity)) +:+ ")" +:+ signed_params created)
  /\ header hs "signature" = Some ("sig1=:" +:+ b64encode (ed_sign sk (signed_base uri body identity created)) +:+ ":").
Proof.
  intros Hid hs. pose proof (fun k v => signed_header_at sk uri body identity created k v Hid) as Hat. fold hs in Hat.
  split; [|split]; [apply (Hat "Content-Digest")|apply (Hat "Signature-Input")|apply (Hat "Signature")];
    unfold hs; rewrite signed_headers; apply elem_of_app; right; set_solver.
Qed.

(** What the client signs the verifier accepts, as long as its clock is
    within five seconds: for a key text that denotes the client's public key
    and identity headers with distinct, listable names of their own, all of
    which the signature covers. *)
Theorem signed_request_accepted sk uri body identity created now key :
  load_ed25519_public_key key = Ok (ed_public_raw sk) -> key <> "" -> 0 <= created -> Z.abs (now - created) <= 5 ->
  identity_ok identity ->
  verify_rfc9421_request "POST" uri (sign_request sk uri body identity created) body key (map fst identity) now = Ok tt.
Proof.
  intros Hk Hk0 Hc Ha Hid. destruct (signed_header_of sk uri body identity created Hid) as (Hd & Hi & Hs).
  unfold verify_rfc9421_request. change (upper "POST") with "POST". rstep_to tt. unfold verify_message.
  apply str_eqb_neq in Hk0. rewrite Hk0. rstep_to tt. rewrite Hk. rstep_to (ed_public_raw sk).
  rewrite Hd, Hi, Hs, bool_decide_true by done. rstep_to tt. rstep_to tt.
  change (default "" (Some ?x)) with x. unfold signed_params at 1. rewrite input_read by (by try apply signed_fields_ok). fold (signed_params created). cbn [some_or].
  eapply rbind_Ok. eexists. split; [reflexivity|]. cbn [fst snd].
  rewrite quoted_names by (eapply Forall_impl; [by apply signed_fields_ok|]; intros f (Hf & Hq & _); by split).
  assert (Hcov : covered (["@method"; "@target-uri"; "content-digest"] ++ map lower (map fst identity)) (signed_fields identity) = true).
  { apply forallb_forall. intros f Hf. apply bool_decide_eq_true. apply list_elem_of_In. by rewrite map_map in Hf. }
  rewrite Hcov. rstep_to tt. unfold signed_params at 1. rewrite created_read by done. rstep_to created.
  assert (Hage : (5 <? Z.abs (now - created)) = false) by (apply Z.ltb_ge; lia). rewrite Hage. rstep_to tt.
  rewrite signed_base_lines by done. rstep_to (signed_lines uri body identity).
  assert (Hsig : ed_sign sk (signed_base uri body identity created) <> "").
  { intros He. pose proof (ed_sign_length sk (signed_base uri body identity created)) as Hl. by rewrite He in Hl. }
  rewrite signature_read by done. rstep_to (b64encode (ed_sign sk (signed_base uri body identity created))).
  rewrite b64decode_b64encode. rstep_to (ed_sign sk (signed_base uri body identity created)).
  fold (signed_base uri body identity created). by rewrite ed_sign_verifies.
Qed.
End roundtrip.
