(* ===== verification/Providers.v ===== *)
(** * The provider executors (services/executor.py, services/providers.py)

    [HTTPExecutor], [OpenAICompatExecutor], [OllamaExecutor] and
    [EchoExecutor].  The world of a call is the list of the payloads posted so
    far, over all executors; [net n] is what the [n]-th post gets from httpx,
    [nap n] whether the pause after it returned (a negative Retry-After makes
    [time.sleep] raise), [clock n] the second at which its response was
    verified.  Headers of requests and messages of errors are left out. *)

From Stdlib Require Import ZArith Lia Ascii String.
From stdpp Require Import base gmap strings list pretty.
From S2P Require Import Prelude Canon PyJson Permits Identity HttpSig.

Local Open Scope Z_scope.

(** What an execution raises. *)
Inductive exec_error :=
  | ExecutorUnavailableError
  | ProviderExecutionError
  | VerifiedProviderUnavailableError
  | ProviderError
  | AuthorityContextMissingError
  | ProviderNotAuthorizedError
  | AuthorizedProviderNotConfiguredError
  | ProviderCredentialRejectedError
  | ProviderPolicyRejectedError
  | LocalAuthorizerUnavailableError
  | ProviderRateLimitedError (retry_after : option string)
  | CircuitOpen
  | OtherException (name : string).

(** The subclasses of [TerminalExecutionError] and their [error_code]. *)
Definition error_code (e : exec_error) : option string :=
  match e with
  | AuthorityContextMissingError => Some "AUTHORITY_CONTEXT_MISSING"
  | ProviderNotAuthorizedError => Some "PROVIDER_NOT_AUTHORIZED"
  | AuthorizedProviderNotConfiguredError => Some "AUTHORIZED_PROVIDER_NOT_CONFIGURED"
  | ProviderCredentialRejectedError => Some "PROVIDER_CREDENTIAL_REJECTED"
  | ProviderPolicyRejectedError => Some "PROVIDER_POLICY_REJECTED"
  | LocalAuthorizerUnavailableError => Some "LOCAL_AUTHORIZER_UNAVAILABLE"
  | ProviderRateLimitedError _ => Some "PROVIDER_RATE_LIMITED"
  | _ => None
  end.
Definition is_terminal (e : exec_error) : bool := match error_code e with Some _ => true | None => false end.

(** A response with its status, headers, body and what [json()] gives of it,
    [None] for a ValueError; an [httpx.HTTPError]; any other exception. *)
Inductive http_answer :=
  | Answer (status : Z) (hs : headers) (body : string) (parsed : option json)
  | HTTPError
  | ClientException (name : string).

(** [raise_for_status] returns. *)
Definition is_success (status : Z) : bool := (200 <=? status) && (status <? 300).

(** ** Python on JSON values *)

(** [x in s] on text. *)
Fixpoint contains (x s : list ascii) : bool :=
  match s with
  | [] => bool_decide (x = [])
  | _ :: r => match strip_prefix x s with Some _ => true | None => contains x r end
  end.

(** [v[k]] for a string key, [v[0]], and [v.get(k, d)]; [None] raises. *)
Definition item (k : string) (v : json) : option json := match v with JObj m => assoc k m | _ => None end.
Definition item0 (v : json) : option json := match v with JArr (x :: _) => Some x | _ => None end.
Definition jget_or (k : string) (d v : json) : option json := match v with JObj m => Some (dget_or m k d) | _ => None end.

(** [int(s)] of a string: digits with single underscores between them. *)
Fixpoint under_digits (l : list ascii) : option (list ascii) :=
  match l with
  | [] => None
  | [c] => if is_digit c then Some [c] else None
  | c :: ("_"%char :: r) => if is_digit c then cons c <$> under_digits r else None
  | c :: r => if is_digit c then cons c <$> under_digits r else None
  end.
Definition int_of_text (s : string) : option Z :=
  match chars (strip s) with
  | "-"%char :: l => Z.opp <$> (digits_value <$> under_digits l)
  | "+"%char :: l => digits_value <$> under_digits l
  | l => digits_value <$> under_digits l
  end.

(** Replace the last items of a dict literal [{**d, k: v, ...}]. *)
Fixpoint dset (k : string) (v : json) (d : dict) : dict :=
  match d with
  | [] => [(k, v)]
  | (k', v') :: r => if str_eqb k' k then (k', v) :: r else (k', v') :: dset k v r
  end.

Section providers.
Context `{EiWorld, !Mac}.
Variables (net : nat -> http_answer) (nap : nat -> bool) (clock : nat -> Z).
(** [int] of a float, and the federation key of the settings. *)
Variables (float_int : string -> option Z) (federation_key : string).

Definition calls := list json.
Definition X := eff exec_error calls.

Definition py_int (v : json) : option Z :=
  match v with
  | JInt z => Some z
  | JBool b => Some (Z.b2z b)
  | JFloat l => float_int l
  | JStr s => int_of_text s
  | _ => None
  end.

Definition post (payload : json) : X http_answer := fun w => Ret (net (length w)) (w ++ [payload]).
Definition slept : X bool := fun w => Ret (nap (length w)) w.
Definition verified_at : X Z := fun w => Ret (clock (length w)) w.
Definition orelse {A} (o : option A) (e : exec_error) : X A := match o with Some a => eret a | None => eraise e end.

Definition messages (request : dict) : json :=
  JArr [JObj [("role", JStr "user"); ("content", dget_or request "prompt" (JStr ""))]].

(** The 403 and 429 answers, the same in every executor. *)
Definition credential_words : list string := ["key"; "token"; "auth"; "credential"].
Definition rejected (body : string) : exec_error :=
  if existsb (fun x => contains (chars x) (chars (lower body))) credential_words
  then ProviderCredentialRejectedError else ProviderPolicyRejectedError.

Definition max_retries : nat := 3.

(** ** HTTPExecutor *)

(** The dict returned from a parsed body. *)
Definition http_result (model provider : string) (data : json) : option json :=
  match item "choices" data with
  | Some choices =>
    match item0 choices with
    | Some choice =>
      match item "message" choice with
      | Some message =>
        match item "content" message, jget_or "usage" (JObj []) data with
        | Some content, Some usage =>
          match jget_or "total_tokens" (JInt 0) usage with
          | Some tokens => Some (JObj [("response", content); ("model", JStr model); ("provider", JStr provider); ("tokens", tokens)])
          | None => None
          end
        | _, _ => None
        end
      | None => None
      end
    | None => None
    end
  | None => None
  end.

(** The loop with [left] further attempts; what escapes the inner handlers and
    is neither terminal nor a provider error is wrapped as one. *)
Fixpoint http_attempts (left : nat) (model : string) (payload : json) : X json :=
  let! a := post payload in
  match a with
  | Answer status hs body parsed =>
    if is_success status then
      match parsed with
      | None => eraise ProviderExecutionError
      | Some data => orelse (http_result model "http-provider" data) ProviderExecutionError
      end
    else if status =? 429 then
      match left with
      | S left' => let! ok := slept in if ok then http_attempts left' model payload else eraise ProviderExecutionError
      | O => eraise (ProviderRateLimitedError (header hs "retry-after"))
      end
    else if status =? 403 then eraise (rejected body)
    else eraise ProviderExecutionError
  | HTTPError => eraise ProviderExecutionError
  | ClientException _ => eraise ProviderExecutionError
  end.

Definition HTTPExecutor_execute (model : string) (request : dict) : X json :=
  http_attempts max_retries model (JObj [("model", JStr model); ("messages", messages request)]).

(** ** The two provider clients of providers.py *)

Definition require_verified_503 (status : Z) (hs : headers) (body : string) : X unit :=
  let! now := verified_at in
  match verify_rfc9421_response status hs body federation_key now with
  | Ok _ => eret tt
  | Err _ => eraise ProviderExecutionError
  end.

(** The attempts of both, which differ in the path posted to. *)
Fixpoint client_attempts (left : nat) (payload : json) : X json :=
  let! a := post payload in
  match a with
  | Answer status hs body parsed =>
    if is_success status then orelse parsed ProviderError
    else if status =? 429 then
      match left with
      | S left' => let! ok := slept in if ok then client_attempts left' payload else eraise (OtherException "ValueError")
      | O => eraise (ProviderRateLimitedError (header hs "retry-after"))
      end
    else if status =? 403 then eraise (rejected body)
    else if status =? 503 then do! require_verified_503 status hs body in eraise VerifiedProviderUnavailableError
    else eraise ProviderError
  | HTTPError => eraise ProviderError
  | ClientException n => eraise (OtherException n)
  end.

(** [if k in request: d[name] = request[k]]. *)
Definition copy_if (request : dict) (k name : string) : dict :=
  match assoc k request with Some v => [(name, v)] | None => [] end.

Definition openai_payload (model : string) (request : dict) : dict :=
  [("model", py_or (dget request "model") (JStr model)); ("messages", messages request)]
  ++ copy_if request "temperature" "temperature" ++ copy_if request "max_tokens" "max_tokens".

(** [_parse]. *)
Definition openai_parse (provider : string) (model data : json) : X json :=
  let content := match item "choices" data with
                 | Some choices => match item0 choices with
                                   | Some choice => match item "message" choice with Some m => item "content" m | None => None end
                                   | None => None
                                   end
                 | None => None
                 end in
  let! c := orelse content ProviderError in
  let! usage := orelse (jget_or "usage" JNull data) (OtherException "AttributeError") in
  let! total := orelse (jget_or "total_tokens" (JInt 0) (py_or usage (JObj []))) (OtherException "AttributeError") in
  let! tokens := orelse (py_int total) (OtherException "TypeError") in
  let! m := orelse (jget_or "model" model data) (OtherException "AttributeError") in
  eret (JObj [("response", c); ("model", m); ("provider", JStr provider); ("tokens", JInt tokens)]).

Definition OpenAICompatExecutor_execute (name model : string) (request : dict) : X json :=
  let payload := openai_payload model request in
  let! data := client_attempts max_retries (JObj payload) in
  openai_parse name (dget payload "model") data.

(** The native Ollama client; a local one refuses, since nothing sets
    [_bypass_local_raise], so that [keep_alive] stays 0. *)
Definition ollama_payload (model : string) (request : dict) : dict :=
  let options := copy_if request "temperature" "temperature" ++ copy_if request "max_tokens" "num_predict" in
  [("model", py_or (dget request "model") (JStr model)); ("messages", messages request); ("stream", JBool false);
   ("keep_alive", JInt 0)] ++ (if truthy (JObj options) then [("options", JObj options)] else []).

Definition OllamaExecutor_execute (name model : string) (is_local : bool) (request : dict) : X json :=
  if is_local then eraise LocalAuthorizerUnavailableError
  else
    let payload := ollama_payload model request in
    let! data := client_attempts max_retries (JObj payload) in
    let! content := orelse (match item "message" data with Some m => item "content" m | None => None end) ProviderError in
    let count k := match item k data with Some v => py_int (py_or v (JInt 0)) | None => Some 0 end in
    let! p := orelse (count "prompt_eval_count") (OtherException "TypeError") in
    let! c := orelse (count "eval_count") (OtherException "TypeError") in
    let! m := orelse (jget_or "model" (dget payload "model") data) (OtherException "AttributeError") in
    eret (JObj [("response", content); ("model", m); ("provider", JStr name); ("tokens", JInt (p + c))]).
End providers.
