(* ===== verification/Failover.v ===== *)
(** * Failover between providers (services/executor.py, [ResilientExecutor])

    Providers are tried in order under their circuit breakers.  The world holds
    the breakers, the payloads posted so far, and the calls made, each with
    what it did; [race i] is what other threads did to provider [i]'s breaker
    between the check and the call, [t i] the clock readings, [uid] the drawn
    ids.  [pytest] says whether pytest is loaded.

    The interface [Executor] stands between the failover loop and the provider
    clients: a client reports a verified outage only for an authentic signed
    503, posts one payload at most four times, and never fails like a breaker.
    The clients of Providers implement it, and the theorems on the loop are
    proved against it. *)

From Stdlib Require Import ZArith Lia Ascii String.
From stdpp Require Import base gmap strings list pretty.
From S2P Require Import Prelude Canon PyJson Permits Breaker Identity HttpSig Providers.

(** What a provider did when it was called. *)
Inductive verdict :=
  | Served (result : dict)
  | VerifiedDown
  | Refused (e : exec_error)
  | Tripped
  | Failed
  | Died.

(** A call: the provider, what it did, and how many posts there were then. *)
Record provider_call := mk_call { pc_name : string; pc_verdict : verdict; pc_posts : nat }.

Record exec_world := mk_exec_world {
  ew_breakers : list CircuitBreaker; ew_posts : calls; ew_calls : list provider_call }.

Record provider := mk_provider { p_name : string; p_execute : dict -> X json }.

Definition verdict_of (e : exec_error) : verdict :=
  if is_terminal e then Refused e
  else match e with VerifiedProviderUnavailableError => VerifiedDown | CircuitOpen => Tripped | _ => Failed end.

(** The [ValueError] of the constructor. *)
Definition new_executor (providers : list provider) : res string (list provider) :=
  match providers with [] => Err "ResilientExecutor requires at least one provider" | _ => Ok providers end.

(** [_authorized_provider_set]. *)
Definition authorized_provider_set (request : dict) : option (list string) :=
  match dget request "authority_envelope" with
  | JObj envelope =>
    match dget envelope "allowed_provider_set" with
    | JArr providers =>
      Some (filter (fun s => s <> "") (omap (fun p => match p with JStr s => Some (strip s) | _ => None end) providers))
    | _ => None
    end
  | _ => None
  end.

Section failover.
Variables (providers : list provider).
Variables (race : nat -> CircuitBreaker -> CircuitBreaker) (t : nat -> nat -> Z) (uid : nat -> string) (pytest : bool).

Definition F := eff exec_error exec_world.

Definition attempt (n : nat) (provider_id outcome : string) : json :=
  JObj [("attempt_id", JStr (uid n)); ("provider_id", JStr provider_id); ("outcome", JStr outcome)].

(** The executor's call, which the log records. *)
Definition recorded (p : provider) (request : dict) : eff exec_error (calls * list provider_call) json := fun w =>
  let entry v posts := mk_call (p_name p) v (length posts) in
  match p_execute p request w.1 with
  | Ret (JObj d) posts => Ret (JObj d) (posts, w.2 ++ [entry (Served d) posts])
  | Ret r posts => Ret r (posts, w.2 ++ [entry Failed posts])
  | Raise e posts => Raise e (posts, w.2 ++ [entry (verdict_of e) posts])
  | Crash posts => Crash (posts, w.2 ++ [entry Died posts])
  end.

(** [provider.breaker.allows_request()], and what others then do. *)
Definition breaker_allows (i : nat) : F bool := fun w =>
  match ew_breakers w !! i with
  | Some b => let a := allows_request b (t i 0) in
              Ret a.1 (mk_exec_world (<[i := race i a.2]> (ew_breakers w)) (ew_posts w) (ew_calls w))
  | None => Raise (OtherException "AttributeError") w
  end.

(** [provider.breaker.call(...)]. *)
Definition guarded_call (i : nat) (p : provider) (request : dict) : F json := fun w =>
  match ew_breakers w !! i with
  | Some b =>
    let put b' w' := mk_exec_world (<[i := b']> (ew_breakers w)) w'.1 w'.2 in
    match call (recorded p request) (fun k => t i (S k)) (b, (ew_posts w, ew_calls w)) with
    | Ret r (b', w') => Ret r (put b' w')
    | Raise (Reraised e) (b', w') => Raise e (put b' w')
    | Raise CircuitOpenError (b', w') => Raise CircuitOpen (put b' w')
    | Crash (b', w') => Crash (put b' w')
    end
  | None => Raise (OtherException "AttributeError") w
  end.

(** The loop over the eligible providers, with the attempts so far;
    [bound] tells whether the authority envelope named the providers. *)
Fixpoint try_providers (bound : bool) (request : dict) (eligible : list (nat * provider)) (attempts : list json) : F json :=
  match eligible with
  | [] => eraise ExecutorUnavailableError
  | (i, p) :: rest =>
    let! ok := breaker_allows i in
    if negb ok then eraise ExecutorUnavailableError
    else fun w =>
      match guarded_call i p request w with
      | Ret (JObj result) w' =>
          Ret (JObj (dset "attempts" (JArr (attempts ++ [attempt (length attempts) (p_name p) "succeeded"])) result)) w'
      | Ret _ w' => Raise ExecutorUnavailableError w'
      | Raise e w' =>
        if is_terminal e then Raise e w'
        else match e with
        | VerifiedProviderUnavailableError =>
            if bound then try_providers bound request rest
                            (attempts ++ [attempt (length attempts) (p_name p) "verified_unavailable"]) w'
            else Raise ExecutorUnavailableError w'
        | CircuitOpen => try_providers bound request rest attempts w'
        | _ => Raise ExecutorUnavailableError w'
        end
      | Crash w' => Crash w'
      end
  end.

(** The providers with their positions, as the breakers are kept. *)
Definition numbered : list (nat * provider) := imap (fun i p => (i, p)) providers.
Definition eligible_for (allowed : list string) : list (nat * provider) :=
  filter (fun ip => p_name ip.2 ∈ allowed) numbered.

(** [execute]. *)
Definition resilient_execute (request : dict) : F json :=
  match authorized_provider_set request with
  | None =>
    if pytest && negb (bool_decide (is_Some (assoc "authority_envelope" request)))
    then try_providers false request numbered []
    else eraise AuthorityContextMissingError
  | Some [] => eraise ProviderNotAuthorizedError
  | Some allowed =>
    match eligible_for allowed with
    | [] => eraise AuthorizedProviderNotConfiguredError
    | eligible => try_providers true request eligible []
    end
  end.
End failover.

Section clients.
Context `{EiWorld, !Mac}.
Variables (net : nat -> http_answer) (nap : nat -> bool) (clock : nat -> Z).
Variables (float_int : string -> option Z) (federation_key : string).

(** The last of [k] posts was answered by a 503 that verifies. *)
Definition authentic_503 (k : nat) : Prop :=
  exists hs body parsed, net (pred k) = Answer 503 hs body parsed
    /\ verify_rfc9421_response 503 hs body federation_key (clock k) = Ok tt.

Class Executor (execute : dict -> X json) : Prop := {
  executor_posts : forall request w, exists payload n, (n <= 4)%nat /\ oworld (execute request w) = w ++ repeat payload n;
  executor_down : forall request w w',
    execute request w = Raise VerifiedProviderUnavailableError w' -> authentic_503 (length w');
  executor_open : forall request w w', execute request w <> Raise CircuitOpen w' }.

(** What a call's outcome may be, after the posts it made. *)
Definition outcome_ok (o : outcome exec_error calls json) : Prop :=
  match o with
  | Raise VerifiedProviderUnavailableError w => authentic_503 (length w)
  | Raise CircuitOpen _ => False
  | _ => True
  end.

(** A computation that posts nothing and does not blame the provider. *)
Definition passive {A} (m : X A) : Prop :=
  forall w, match m w with
            | Ret _ w' => w' = w
            | Raise VerifiedProviderUnavailableError _ | Raise CircuitOpen _ => False
            | Raise _ w' => w' = w
            | Crash _ => False
            end.

Lemma passive_ret {A} (a : A) : passive (eret a).
Proof. by intros w. Qed.
Lemma passive_orelse {A} (o : option A) e :
  e <> VerifiedProviderUnavailableError -> e <> CircuitOpen -> passive (orelse o e).
Proof. intros Hv Hc w. destruct o; [done|]. by destruct e. Qed.
Lemma passive_bind {A B} (m : X A) (k : A -> X B) : passive m -> (forall a, passive (k a)) -> passive (ebind m k).
Proof.
  intros Hm Hk w. specialize (Hm w). unfold ebind. destruct (m w) as [a w'|e w'|w']; [subst; apply Hk|exact Hm|done].
Qed.

Lemma outcome_passive (m : X json) (k : json -> X json) w :
  outcome_ok (m w) -> (forall a, passive (k a)) ->
  outcome_ok (ebind m k w) /\ oworld (ebind m k w) = oworld (m w).
Proof.
  intros Hm Hk. unfold ebind. destruct (m w) as [a w'|e w'|w']; [|done..]. specialize (Hk a w').
  destruct (k a w') as [b w''|e w''|w'']; [by subst|destruct e; try done; by subst|done].
Qed.

Lemma repeat_more (payload : json) n w : w ++ repeat payload (S n) = (w ++ [payload]) ++ repeat payload n.
Proof. by rewrite <- app_assoc. Qed.

Lemma post_bind {A} payload (k : http_answer -> X A) w :
  ebind (post net payload) k w = k (net (length w)) (w ++ [payload]).
Proof. done. Qed.
Lemma slept_bind {A} (k : bool -> X A) w : ebind (slept nap) k w = k (nap (length w)) w.
Proof. done. Qed.

Lemma verified_bind {A} status hs body (k : X A) w :
  ebind (require_verified_503 clock federation_key status hs body) (fun _ => k) w
  = match verify_rfc9421_response status hs body federation_key (clock (length w)) with
    | Ok _ => k w | Err _ => Raise ProviderExecutionError w end.
Proof. unfold ebind, require_verified_503, ebind, verified_at. by destruct (verify_rfc9421_response _ _ _ _ _). Qed.

(** What one attempt adds to the claim about all of them. *)
Definition attempted (payload : json) (bound : nat) (w : calls) (o : outcome exec_error calls json) : Prop :=
  outcome_ok o /\ exists n, (n <= bound)%nat /\ oworld o = w ++ repeat payload n.

Lemma attempted_raise payload bound w e :
  (1 <= bound)%nat -> e <> VerifiedProviderUnavailableError -> e <> CircuitOpen ->
  attempted payload bound w (eraise e (w ++ [payload])).
Proof. intros Hb Hv Hc. split; [by destruct e|]. by exists 1%nat. Qed.
Lemma attempted_orelse payload bound w (o : option json) e :
  (1 <= bound)%nat -> e <> VerifiedProviderUnavailableError -> e <> CircuitOpen ->
  attempted payload bound w (orelse o e (w ++ [payload])).
Proof. intros Hb Hv Hc. destruct o; [|by apply attempted_raise]. split; [done|]. by exists 1%nat. Qed.
Lemma attempted_next payload bound w o : attempted payload bound (w ++ [payload]) o -> attempted payload (S bound) w o.
Proof. intros (Ho & n & Hn & Hw). split; [done|]. exists (S n). split; [lia|]. by rewrite repeat_more. Qed.

Lemma rejected_plain body : rejected body <> VerifiedProviderUnavailableError /\ rejected body <> CircuitOpen.
Proof. unfold rejected. by destruct (existsb _ _). Qed.

Ltac attempted_done := first [apply attempted_raise|apply attempted_orelse]; try lia; try done; apply rejected_plain.

Lemma client_attempts_ok left payload w :
  attempted payload (S left) w (client_attempts net nap clock federation_key left payload w).
Proof.
  revert w. induction left as [|left IH]; intros w; cbn [client_attempts]; rewrite post_bind.
  all: destruct (net (length w)) as [status hs body parsed| |name] eqn:En; [|attempted_done..].
  all: destruct (is_success status); [attempted_done|].
  all: destruct (status =? 429)%Z; [|destruct (status =? 403)%Z; [attempted_done|];
         destruct (status =? 503)%Z eqn:E5; [|attempted_done]].
  2,4: apply Z.eqb_eq in E5 as ->; rewrite verified_bind;
       destruct (verify_rfc9421_response _ _ _ _ _) as [[]|] eqn:Ev; (split; [|exists 1%nat; split; [lia|done]]); try done;
       exists hs, body, parsed; rewrite length_app, Nat.add_1_r in *; by split.
  - attempted_done.
  - rewrite slept_bind. destruct (nap _); [|attempted_done]. by apply attempted_next.
Qed.

Lemma http_attempts_ok left model payload w :
  attempted payload (S left) w (http_attempts net nap left model payload w).
Proof.
  revert w. induction left as [|left IH]; intros w; cbn [http_attempts]; rewrite post_bind.
  all: destruct (net (length w)) as [status hs body parsed| |name] eqn:En; [|attempted_done..].
  all: destruct (is_success status); [destruct parsed; attempted_done|].
  all: destruct (status =? 429)%Z; [|destruct (status =? 403)%Z; attempted_done].
  - attempted_done.
  - rewrite slept_bind. destruct (nap _); [|attempted_done]. by apply attempted_next.
Qed.

(** An executor whose posts and outcome are as attempted. *)
Lemma executor_of (execute : dict -> X json) :
  (forall request w, exists payload, attempted payload 4 w (execute request w)) -> Executor execute.
Proof.
  intros Ha. split.
  - intros request w. destruct (Ha request w) as (payload & _ & n & Hn & Hw). by exists payload, n.
  - intros request w w' He. destruct (Ha request w) as (payload & Ho & _). by rewrite He in Ho.
  - intros request w w' He. destruct (Ha request w) as (payload & Ho & _). by rewrite He in Ho.
Qed.

Lemma attempted_passive payload bound w (m : X json) (k : json -> X json) :
  attempted payload bound w (m w) -> (forall a, passive (k a)) -> attempted payload bound w (ebind m k w).
Proof.
  intros (Ho & n & Hn & Hw) Hk. destruct (outcome_passive m k w Ho Hk) as [Ho' Hw']. split; [done|]. exists n. by rewrite Hw'.
Qed.

#[export] Instance HTTPExecutor_executor model : Executor (HTTPExecutor_execute net nap model).
Proof. apply executor_of. intros request w. eexists. apply http_attempts_ok. Qed.

#[export] Instance OpenAICompat_executor name model :
  Executor (OpenAICompatExecutor_execute net nap clock float_int federation_key name model).
Proof.
  apply executor_of. intros request w. eexists. apply attempted_passive; [apply client_attempts_ok|].
  intros data. unfold openai_parse. repeat (apply passive_bind; [by apply passive_orelse|intros ?]). apply passive_ret.
Qed.

#[export] Instance Ollama_executor name model is_local :
  Executor (OllamaExecutor_execute net nap clock float_int federation_key name model is_local).
Proof.
  apply executor_of. intros request w. unfold OllamaExecutor_execute. destruct is_local.
  { exists JNull. split; [done|]. exists 0%nat. split; [lia|]. simpl. by rewrite app_nil_r. }
  eexists. apply attempted_passive; [apply client_attempts_ok|]. intros data.
  repeat (apply passive_bind; [by apply passive_orelse|intros ?]). apply passive_ret.
Qed.
End clients.

Section loop.
Context `{EiWorld, !Mac}.
Variables (net : nat -> http_answer) (clock : nat -> Z) (federation_key : string).
Variables (race : nat -> CircuitBreaker -> CircuitBreaker) (t : nat -> nat -> Z) (uid : nat -> string).

Definition moved_on (c : provider_call) : Prop := pc_verdict c = VerifiedDown \/ pc_verdict c = Tripped.

(** The evidence of a list of calls: an attempt for each that ran to a verdict
    of its own, with the ids drawn from the [n]-th on. *)
Fixpoint evidence (n : nat) (cs : list provider_call) : list json :=
  match cs with
  | [] => []
  | c :: r => match pc_verdict c with
              | VerifiedDown => attempt uid n (pc_name c) "verified_unavailable" :: evidence (S n) r
              | Served _ => attempt uid n (pc_name c) "succeeded" :: evidence (S n) r
              | _ => evidence n r
              end
  end.

(** How calls and outcome fit together: an answer is the result of the last
    call with the attempts set in it. *)
Definition calls_fit (attempts : list json) (cs : list provider_call) (o : outcome exec_error exec_world json) : Prop :=
  match o with
  | Ret r _ => exists pre c d, cs = pre ++ [c] /\ Forall moved_on pre /\ pc_verdict c = Served d
      /\ r = JObj (dset "attempts" (JArr (attempts ++ evidence (length attempts) cs)) d)
  | Raise e _ => Forall (fun c => forall d, pc_verdict c <> Served d) cs
      /\ exists pre post, cs = pre ++ post /\ Forall moved_on pre /\ (length post <= 1)%nat
         /\ (is_terminal e = true -> exists c, post = [c] /\ pc_verdict c = Refused e)
  | Crash _ => exists pre c, cs = pre ++ [c] /\ Forall moved_on pre /\ pc_verdict c = Died
  end.

Definition authentic (cs : list provider_call) : Prop :=
  Forall (fun c => pc_verdict c = VerifiedDown -> authentic_503 net clock federation_key (pc_posts c)) cs.

(** What a call is logged to have served is what a provider of that name
    returned for the request. *)
Definition genuine (ps : list provider) (request : dict) (cs : list provider_call) : Prop :=
  Forall (fun c => forall d, pc_verdict c = Served d ->
    exists p posts posts', p ∈ ps /\ p_name p = pc_name c /\ p_execute p request posts = Ret (JObj d) posts') cs.

(** The call of one provider: at most one entry is added to the log. *)
Lemma guarded_call_cases i p request w :
  Executor net clock federation_key (p_execute p) ->
  (exists e, guarded_call t i p request w = Raise e (oworld (guarded_call t i p request w))
      /\ (e = CircuitOpen \/ e = OtherException "AttributeError")
      /\ ew_calls (oworld (guarded_call t i p request w)) = ew_calls w)
  \/ exists c, ew_calls (oworld (guarded_call t i p request w)) = ew_calls w ++ [c] /\ pc_name c = p_name p /\ authentic [c] /\ genuine [p] request [c]
       /\ match guarded_call t i p request w with
          | Ret (JObj d) _ => pc_verdict c = Served d
          | Ret _ _ => pc_verdict c = Failed
          | Raise e _ => pc_verdict c = verdict_of e /\ e <> CircuitOpen
          | Crash _ => pc_verdict c = Died
          end.
Proof.
  intros Hx. unfold guarded_call. destruct (ew_breakers w !! i) as [b|]; [|left; by eexists; split; [|split; [right|]]].
  unfold call. cbn [fst snd]. destruct (negb _); [left; by eexists; split; [|split; [left|]]|]. right.
  unfold recorded. cbn [fst snd]. destruct (p_execute p request (ew_posts w)) as [r posts|e posts|posts] eqn:Er.
  - destruct r; cbn; (eexists; split; [reflexivity|]); (split; [done|]); (split; [by apply Forall_singleton|]);
      (split; [|done]); apply Forall_singleton; try done. intros d [= <-]. exists p, (ew_posts w), posts.
    split; [by apply list_elem_of_singleton|done].
  - cbn. eexists; split; [reflexivity|]. split; [done|]. split_and!; [| |done|].
    + apply Forall_singleton. cbn. intros Hv. assert (e = VerifiedProviderUnavailableError) as ->.
      { unfold verdict_of in Hv. destruct (is_terminal e); [done|]. by destruct e. }
      by apply (executor_down net clock federation_key) in Er.
    + apply Forall_singleton. cbn. unfold verdict_of. intros d Hv. destruct (is_terminal e); [done|]. by destruct e.
    + intros ->. by apply (executor_open net clock federation_key) in Er.
  - cbn. eexists; split; [reflexivity|]. split; [done|]. by split_and!; [apply Forall_singleton..|].
Qed.

(** An entry in front of a list of calls that fit. *)
Lemma calls_fit_cons attempts c cs o :
  pc_verdict c = VerifiedDown ->
  calls_fit (attempts ++ [attempt uid (length attempts) (pc_name c) "verified_unavailable"]) cs o ->
  calls_fit attempts (c :: cs) o.
Proof.
  intros Hc Ho. assert (Hm : moved_on c) by by left. destruct o as [r w|e w|w]; simpl in Ho |- *.
  - destruct Ho as (pre & c' & d & -> & Hp & Hs & ->). exists (c :: pre), c', d. cbn [app evidence]. rewrite Hc.
    split; [done|]. split; [by apply Forall_cons|]. split; [done|]. do 2 f_equal.
    by rewrite length_app, Nat.add_1_r, <- app_assoc.
  - destruct Ho as (Hs & pre & post & -> & Hp & Hl & Ht). split; [apply Forall_cons; by rewrite Hc|].
    exists (c :: pre), post. by split; [|split; [apply Forall_cons|]].
  - destruct Ho as (pre & c' & -> & Hp & Hd). exists (c :: pre), c'. by split; [|split; [apply Forall_cons|]].
Qed.

(** The calls of the loop: those of a subsequence of the providers, authentic
    and genuine, and in keeping with the outcome. *)
Definition loop_ok (request : dict) (ps : list provider) (attempts : list json) (w : exec_world)
    (o : outcome exec_error exec_world json) : Prop :=
  exists cs, ew_calls (oworld o) = ew_calls w ++ cs /\ map pc_name cs `sublist_of` map p_name ps
    /\ authentic cs /\ genuine ps request cs /\ calls_fit attempts cs o.

Lemma genuine_mono ps ps' request cs : ps ⊆ ps' -> genuine ps request cs -> genuine ps' request cs.
Proof.
  intros Hs Hg. eapply Forall_impl; [exact Hg|]. intros c Hc d Hd. destruct (Hc d Hd) as (p & posts & posts' & Hp & ?).
  exists p, posts, posts'. split; [by apply Hs|done].
Qed.

Lemma loop_quiet request ps attempts w w' e :
  is_terminal e = false -> ew_calls w' = ew_calls w -> loop_ok request ps attempts w (Raise e w').
Proof.
  intros He Hw. exists []. rewrite app_nil_r. split; [done|]. split; [apply sublist_nil_l|]. split; [by apply Forall_nil|].
  split; [by apply Forall_nil|]. split; [by apply Forall_nil|]. exists [], []. rewrite He. by repeat split; auto.
Qed.

Lemma loop_last request p ps attempts w c o :
  ew_calls (oworld o) = ew_calls w ++ [c] -> pc_name c = p_name p -> authentic [c] -> genuine [p] request [c] ->
  calls_fit attempts [c] o -> loop_ok request (p :: ps) attempts w o.
Proof.
  intros Hw Hn Ha Hg Ho. exists [c]. split; [done|]. simpl. rewrite Hn. split; [apply sublist_skip, sublist_nil_l|].
  split; [done|]. split; [|done]. eapply genuine_mono; [|exact Hg]. set_solver.
Qed.

Lemma loop_skip request p ps attempts w w' o :
  ew_calls w' = ew_calls w -> loop_ok request ps attempts w' o -> loop_ok request (p :: ps) attempts w o.
Proof.
  intros Hw (cs & Hc & Hs & Ha & Hg & Ho). exists cs. rewrite <- Hw. split; [done|]. split; [by apply sublist_cons|].
  split; [done|]. split; [|done]. eapply genuine_mono; [|exact Hg]. set_solver.
Qed.

Lemma loop_next request p ps attempts w w' c o :
  ew_calls w' = ew_calls w ++ [c] -> pc_name c = p_name p -> authentic [c] -> pc_verdict c = VerifiedDown ->
  loop_ok request ps (attempts ++ [attempt uid (length attempts) (p_name p) "verified_unavailable"]) w' o ->
  loop_ok request (p :: ps) attempts w o.
Proof.
  intros Hw Hn Ha Hv (cs & Hc & Hs & Has & Hg & Ho). exists (c :: cs). rewrite Hw, <- app_assoc in Hc. split; [done|].
  simpl. rewrite Hn. split; [by apply sublist_skip|]. split; [exact (Forall_app_2 _ [c] cs Ha Has)|]. split.
  - apply Forall_cons. split; [by rewrite Hv|]. eapply genuine_mono; [|exact Hg]. set_solver.
  - apply calls_fit_cons; [done|]. by rewrite Hn.
Qed.

Lemma fit_raise attempts c e w : pc_verdict c = Failed \/ pc_verdict c = VerifiedDown -> is_terminal e = false ->
  calls_fit attempts [c] (Raise e w).
Proof.
  intros Hv He. split; [apply Forall_singleton; intros d; by destruct Hv as [-> | ->]|]. exists [], [c]. rewrite He. by repeat split; auto.
Qed.

Lemma try_providers_calls bound request eligible attempts w :
  Forall (fun ip => Executor net clock federation_key (p_execute ip.2)) eligible ->
  loop_ok request (map snd eligible) attempts w (try_providers race t uid bound request eligible attempts w).
Proof.
  intros HF. revert attempts w. induction HF as [|[i p] rest Hx HF IH]; intros attempts w; [by apply loop_quiet|].
  cbn [try_providers map snd]. unfold ebind at 1, breaker_allows at 1. destruct (ew_breakers w !! i) as [b|]; [|by apply loop_quiet].
  destruct (negb _); [apply loop_quiet; done|]. set (w1 := mk_exec_world _ _ _). change (ew_calls w) with (ew_calls w1).
  assert (Hw : forall ps o, loop_ok request ps attempts w1 o -> loop_ok request ps attempts w o) by done. apply Hw. clear Hw.
  destruct (guarded_call_cases i p request w1 Hx) as [(e & He & Hk & Hc)|(c & Hc & Hn & Ha & Hg & Hk)].
  - rewrite He. set (w2 := oworld _) in *. destruct Hk as [-> | ->]; cbn; [|by apply loop_quiet].
    eapply loop_skip; [exact Hc|apply IH].
  - destruct (guarded_call t i p request w1) as [r w2|e w2|w2]; cbn [oworld] in Hc.
    + destruct r as [| | | | | |d]; try (eapply loop_last; [exact Hc|done|done|done|apply fit_raise; [by left|done]]).
      eapply loop_last; [exact Hc|done|done|done|]. exists [], c, d.
      split; [done|]. split; [by apply Forall_nil|]. split; [done|]. cbn [evidence]. by rewrite Hk, Hn.
    + destruct Hk as [Hv Hne]. unfold verdict_of in Hv. destruct (is_terminal e) eqn:Et.
      { eapply loop_last; [exact Hc|done|done|done|]. split; [apply Forall_singleton; by rewrite Hv|]. exists [], [c].
        repeat split; [by apply Forall_nil|done|]. intros _. by exists c. }
      destruct e; try done; try (eapply loop_last; [exact Hc|done|done|done|apply fit_raise; [by left|done]]).
      destruct bound; [|eapply loop_last; [exact Hc|done|done|done|apply fit_raise; [by right|done]]].
      eapply loop_next; [exact Hc|done|done|done|apply IH].
    + eapply loop_last; [exact Hc|done|done|done|]. exists [], c. by repeat split; [apply Forall_nil|].
Qed.

(** What is refused before any provider is called. *)
Definition refusal (providers : list provider) (request : dict) : option exec_error :=
  match authorized_provider_set request with
  | None => Some AuthorityContextMissingError
  | Some [] => Some ProviderNotAuthorizedError
  | Some allowed => if decide (Exists (fun p => p_name p ∈ allowed) providers) then None
                    else Some AuthorizedProviderNotConfiguredError
  end.

Lemma numbered_snd providers : map snd (numbered providers) = providers.
Proof.
  unfold numbered. change (snd <$> imap (fun i p => (i, p)) providers = providers). rewrite fmap_imap.
  change (imap (const id) providers = providers). by rewrite imap_const, list_fmap_id.
Qed.

Lemma eligible_elem providers allowed i p :
  (i, p) ∈ eligible_for providers allowed <-> providers !! i = Some p /\ p_name p ∈ allowed.
Proof.
  unfold eligible_for, numbered. rewrite list_elem_of_filter, elem_of_lookup_imap. simpl. split.
  - intros (Hn & j & q & [= -> ->] & Hj). by split.
  - intros [Hp Hn]. split; [done|]. by exists i, p.
Qed.

Lemma eligible_providers providers allowed : map snd (eligible_for providers allowed) `sublist_of` providers.
Proof.
  rewrite <- (numbered_snd providers) at 2. unfold eligible_for. generalize (numbered providers). intros l. induction l as [|ip l IH]; [done|]. rewrite filter_cons.
  case_decide; simpl; [by apply sublist_skip|by apply sublist_cons].
Qed.


(** ** A request is served when some authorized provider serves *)

Lemma closed_allows b now : cb_state b = CLOSED -> allows_request b now = (true, b).
Proof.
  intros Hb. assert (Ho : bool_decide (cb_state b = OPEN) = false) by (apply bool_decide_eq_false; by rewrite Hb).
  unfold allows_request, state. rewrite Ho. simpl. by rewrite Ho.
Qed.

(** An allowed call runs its executor and leaves the other breakers alone. *)
Lemma guarded_closed i p request w b :
  ew_breakers w !! i = Some b -> cb_state b = CLOSED ->
  exists b', guarded_call t i p request w =
    match recorded p request (ew_posts w, ew_calls w) with
    | Ret r w' => Ret r (mk_exec_world (<[i := b']> (ew_breakers w)) w'.1 w'.2)
    | Raise e w' => Raise e (mk_exec_world (<[i := b']> (ew_breakers w)) w'.1 w'.2)
    | Crash w' => Crash (mk_exec_world (<[i := b']> (ew_breakers w)) w'.1 w'.2)
    end.
Proof.
  intros Hi Hb. unfold guarded_call, call. rewrite Hi. cbn [fst snd]. rewrite closed_allows by done. cbn [negb fst snd].
  destruct (recorded p request (ew_posts w, ew_calls w)); by eexists.
Qed.

Definition down_then_served (pre : list (nat * provider)) (p : provider) (d : dict) : list provider_call :=
  map (fun jq => mk_call (p_name jq.2) VerifiedDown 0) pre ++ [mk_call (p_name p) (Served d) 0].

Lemma try_reaches request pre i p rest d attempts w :
  NoDup (map fst (pre ++ [(i, p)])) ->
  (forall j q posts, (j, q) ∈ pre -> exists posts', p_execute q request posts = Raise VerifiedProviderUnavailableError posts') ->
  (forall posts, exists posts', p_execute p request posts = Ret (JObj d) posts') ->
  (forall j q, (j, q) ∈ pre ++ [(i, p)] -> exists b, ew_breakers w !! j = Some b /\ cb_state b = CLOSED) ->
  exists w', try_providers (fun _ b => b) t uid true request (pre ++ (i, p) :: rest) attempts w
    = Ret (JObj (dset "attempts" (JArr (attempts ++ evidence (length attempts) (down_then_served pre p d))) d)) w'.
Proof.
  revert attempts w. induction pre as [|[j q] pre IH]; intros attempts w Hn Hpre Hp Hb.
  - destruct (Hb i p ltac:(apply list_elem_of_singleton; done)) as (b & Hi & Hc). cbn [app try_providers]. unfold ebind, breaker_allows.
    rewrite Hi, closed_allows by done. cbn [negb fst snd]. rewrite list_insert_id by done.
    destruct (guarded_closed i p request (mk_exec_world (ew_breakers w) (ew_posts w) (ew_calls w)) b Hi Hc) as [b' ->].
    unfold recorded. cbn [fst snd ew_posts]. destruct (Hp (ew_posts w)) as [posts ->]. by eexists.
  - destruct (Hb j q ltac:(by left)) as (b & Hj & Hc). cbn [app try_providers]. unfold ebind, breaker_allows.
    rewrite Hj, closed_allows by done. cbn [negb fst snd]. rewrite list_insert_id by done.
    destruct (guarded_closed j q request (mk_exec_world (ew_breakers w) (ew_posts w) (ew_calls w)) b Hj Hc) as [b' ->].
    unfold recorded. cbn [fst snd ew_posts]. destruct (Hpre j q (ew_posts w) ltac:(by left)) as [posts ->]. cbn [is_terminal error_code].
    cbn [map app] in Hn. apply NoDup_cons in Hn as [Hjn Hn]. edestruct IH as [w' Hw']; [done|intros k r ps Hk; apply (Hpre k r ps); by right|done|..].
    2: { exists w'. rewrite Hw'. cbn [down_then_served map app evidence pc_verdict pc_name snd].
         by rewrite length_app, Nat.add_1_r, <- app_assoc. }
    intros k r Hk. cbn [ew_breakers]. destruct (Hb k r ltac:(by right)) as (bk & Hbk & Hck). exists bk. split; [|done].
    rewrite list_lookup_insert_ne; [done|]. intros ->. apply Hjn. by apply (list_elem_of_fmap_2 fst) in Hk.
Qed.

Lemma eligible_nodup providers allowed : NoDup (map fst (eligible_for providers allowed)).
Proof.
  assert (Hn : map fst (numbered providers) = seq 0 (length providers)).
  { unfold numbered. change (fst <$> imap (fun i p => (i, p)) providers = seq 0 (length providers)). rewrite fmap_imap.
    change (imap (fun n _ => id n) providers = seq 0 (length providers)). by rewrite imap_seq_0, list_fmap_id. }
  assert (Hs : map fst (eligible_for providers allowed) `sublist_of` map fst (numbered providers)).
  { unfold eligible_for. generalize (numbered providers). intros l. induction l as [|ip l IH]; [done|]. rewrite filter_cons.
    case_decide; simpl; [by apply sublist_skip|by apply sublist_cons]. }
  eapply sublist_NoDup; [|exact Hs]. rewrite Hn. apply NoDup_seq.
Qed.

(** Failover reaches a provider that serves: when the authorized providers
    before it answer with verified outages and their breakers are closed, the
    request is answered by it, with an attempt recorded for each of them and
    for itself. *)
Theorem failover_reaches providers request allowed pre i p rest d w :
  authorized_provider_set request = Some allowed -> eligible_for providers allowed = pre ++ (i, p) :: rest ->
  (forall j q posts, (j, q) ∈ pre -> exists posts', p_execute q request posts = Raise VerifiedProviderUnavailableError posts') ->
  (forall posts, exists posts', p_execute p request posts = Ret (JObj d) posts') ->
  (forall j q, (j, q) ∈ pre ++ [(i, p)] -> exists b, ew_breakers w !! j = Some b /\ cb_state b = CLOSED) ->
  exists w', resilient_execute providers (fun _ b => b) t uid false request w
    = Ret (JObj (dset "attempts" (JArr (evidence 0 (down_then_served pre p d))) d)) w'.
Proof.
  intros Ha He Hpre Hp Hb. pose proof (eligible_nodup providers allowed) as Hn. rewrite He in Hn.
  rewrite cons_middle, app_assoc, map_app in Hn. apply NoDup_app in Hn as [Hn _].
  destruct (try_reaches request pre i p rest d [] w Hn Hpre Hp Hb) as [w' Hw]. exists w'. unfold resilient_execute. rewrite Ha.
  destruct allowed as [|a al].
  - assert (Hin : (i, p) ∈ eligible_for providers []) by (rewrite He; apply elem_of_app; right; by left).
    apply eligible_elem in Hin as [_ Hin].
    by apply elem_of_nil in Hin.
  - rewrite He. destruct (pre ++ (i, p) :: rest) eqn:E; [by destruct pre|]. exact Hw.
Qed.
End loop.
