(* ===== verification/Cache.v ===== *)
(** * The completion cache (services/cache.py)

    The two tiers in front of an executor.  The hot tier is an ordered dict,
    least recently used first; the warm tier is the interface [WarmCache], with
    the in-process store as its instance (the network stores only add failures,
    which are misses).  The world holds both tiers and the inner executor state;
    [now] gives the clock readings of one call, in order.

    Then, over any sequence of calls: whatever the cache answers was returned by
    the inner executor, for this request or for an earlier one that agrees with
    it on every keyed field (workspace and tenant among them), unless SHA-256
    collides; and the hot tier stays within its size.  The authority envelope
    is not among the keyed fields. *)

From Stdlib Require Import ZArith Lia Ascii String.
From stdpp Require Import base gmap strings list pretty.
From S2P Require Import Prelude Canon PyJson JsonScan Identity HttpSig HttpSigProperties Providers.

Local Open Scope Z_scope.

(** ** The hot tier *)

(** Entries: key, expiry and value. *)
Abbreviation store := (list (string * (Z * json))).

Definition remove (k : string) (s : store) : store := filter (fun e => e.1 <> k) s.

Record HotCache := mk_hot { hc_store : store; hc_max_size : Z; hc_ttl : Z }.

Definition hot_with (h : HotCache) (s : store) : HotCache := mk_hot s (hc_max_size h) (hc_ttl h).

Definition hot_get (key : string) (now : Z) (h : HotCache) : option json * HotCache :=
  match assoc key (hc_store h) with
  | None => (None, h)
  | Some (expires_at, value) =>
    if expires_at <=? now then (None, hot_with h (remove key (hc_store h)))
    else (Some value, hot_with h (remove key (hc_store h) ++ [(key, (expires_at, value))]))
  end.

(** [while len > max_size: popitem(last=False)], which raises [KeyError] when
    a negative size leaves nothing to evict. *)
Definition evict (max_size : Z) (s : store) : res unit store :=
  if max_size <? 0 then Err tt else Ok (drop (length s - Z.to_nat max_size) s).

(** [set]: the new entry is the most recently used one. *)
Definition hot_set (key : string) (value : json) (now : Z) (h : HotCache) : res unit HotCache :=
  let? s := evict (hc_max_size h) (remove key (hc_store h) ++ [(key, (now + hc_ttl h, value))]) in
  Ok (hot_with h s).

(** ** The warm tier *)

(** The protocol, and what a client may rely on: a value got was set under
    that key, and only a set adds one. *)
Class WarmCache (S : Type) := {
  warm_get : string -> Z -> S -> option json * S;
  warm_set : string -> json -> Z -> Z -> S -> S;
  warm_has : S -> string -> json -> Prop;
  warm_get_has : forall k now s v, (warm_get k now s).1 = Some v -> warm_has s k v;
  warm_get_keeps : forall k now s k' v, warm_has (warm_get k now s).2 k' v -> warm_has s k' v;
  warm_set_has : forall k v ttl now s k' v', warm_has (warm_set k v ttl now s) k' v' -> (k' = k /\ v' = v) \/ warm_has s k' v' }.

(** [InMemoryWarmCache]. *)
Definition mem_get (key : string) (now : Z) (s : store) : option json * store :=
  match assoc key s with
  | None => (None, s)
  | Some (expires_at, value) => if expires_at <=? now then (None, remove key s) else (Some value, s)
  end.
Fixpoint mem_set (key : string) (value : json) (ttl now : Z) (s : store) : store :=
  match s with
  | [] => [(key, (now + ttl, value))]
  | (k, e) :: r => if str_eqb k key then (k, (now + ttl, value)) :: r else (k, e) :: mem_set key value ttl now r
  end.

Definition stored (s : store) (k : string) (v : json) : Prop := exists e, (k, (e, v)) ∈ s.

Lemma assoc_stored s k e v : assoc k s = Some (e, v) -> stored s k v.
Proof.
  induction s as [|[k' [e' v']] s IH]; simpl; [done|]. destruct (str_eqb k' k) eqn:E.
  - apply str_eqb_spec in E as ->. intros [= -> ->]. exists e. by left.
  - intros Hs. destruct (IH Hs) as [e'' He]. exists e''. by right.
Qed.

Lemma stored_remove s k k' v : stored (remove k s) k' v -> stored s k' v.
Proof. intros [e He]. apply list_elem_of_filter in He as [_ He]. by exists e. Qed.

#[export] Instance InMemoryWarmCache : WarmCache store.
Proof.
  refine {| warm_get := mem_get; warm_set := mem_set; warm_has := stored |}.
  - intros k now s v. unfold mem_get. destruct (assoc k s) as [[e v']|] eqn:E; [|done]. destruct (e <=? now); [done|].
    intros [= ->]. by eapply assoc_stored.
  - intros k now s k' v. unfold mem_get. destruct (assoc k s) as [[e v']|]; [|done]. destruct (e <=? now); [|done].
    apply stored_remove.
  - intros k v ttl now s k' v'. induction s as [|[k0 e0] s IH]; simpl.
    + intros [e He]. apply list_elem_of_singleton in He as [= -> -> ->]. by left.
    + destruct (str_eqb k0 k) eqn:E.
      * intros [e He]. apply elem_of_cons in He as [[= -> -> ->]|He]; [left; by apply str_eqb_spec in E as ->|].
        right. exists e. by right.
      * intros [e He]. apply elem_of_cons in He as [[= <- <-]|He]; [right; exists e; by left|].
        destruct (IH (ex_intro _ e He)) as [|[e' He']]; [by left|]. right. exists e'. by right.
Defined.

(** ** CachingExecutor *)
Section caching.
Context `{Ext}.

(** [str(v)] of a float, a list or a dict. *)
Variable repr : json -> string.

(** [str(v)]. *)
Definition py_format (v : json) : string :=
  match v with
  | JStr s => s
  | JNull => "None"
  | JBool b => if b then "True" else "False"
  | JInt z => pretty z
  | _ => repr v
  end.

(** The fields of a request that key its completion. *)
Definition keyed (request : dict) : dict :=
  [("model", dget request "model"); ("prompt", dget_or request "prompt" (JStr ""));
   ("temperature", dget request "temperature"); ("max_tokens", dget request "max_tokens");
   ("workspace_id", dget_or request "workspace_id" (JStr "default")); ("tenant_id", dget request "tenant_id");
   ("scope", dget request "scope"); ("constitution_hash", dget request "constitution_hash");
   ("genome_hash", dget request "genome_hash"); ("plan_hash", dget request "plan_hash");
   ("action", dget request "action"); ("execution_mode", dget request "execution_mode")].

Definition cache_key (request : dict) (namespace : string) : string :=
  namespace +:+ ":" +:+ py_format (dget_or request "workspace_id" (JStr "default")) +:+ ":completion:"
  +:+ sha256_json (JObj (keyed request)).

Context {S W : Type} `{!WarmCache S}.
Variables (inner : dict -> eff exec_error W json) (ttl : Z) (namespace : string).

(** The world, with the results the inner executor has returned. *)
Record cache_world := mk_cache_world {
  cw_hot : HotCache; cw_warm : S; cw_inner : W; cw_served : list (dict * json) }.

Definition C := eff exec_error cache_world.

Definition run_inner (request : dict) : C json := fun w =>
  match inner request (cw_inner w) with
  | Ret r i => Ret r (mk_cache_world (cw_hot w) (cw_warm w) i (cw_served w ++ [(request, r)]))
  | Raise e i => Raise e (mk_cache_world (cw_hot w) (cw_warm w) i (cw_served w))
  | Crash i => Crash (mk_cache_world (cw_hot w) (cw_warm w) i (cw_served w))
  end.

(** [{**result, "cached": c, "cache_tier": tier}]. *)
Definition tagged (result : json) (cached : bool) (tier : json) : C json :=
  match result with
  | JObj d => eret (JObj (dset "cache_tier" tier (dset "cached" (JBool cached) d)))
  | _ => eraise (OtherException "TypeError")
  end.

Definition get_hot (key : string) (now : Z) : C (option json) := fun w =>
  let r := hot_get key now (cw_hot w) in
  Ret r.1 (mk_cache_world r.2 (cw_warm w) (cw_inner w) (cw_served w)).
Definition get_warm (key : string) (now : Z) : C (option json) := fun w =>
  let r := warm_get key now (cw_warm w) in
  Ret r.1 (mk_cache_world (cw_hot w) r.2 (cw_inner w) (cw_served w)).
Definition set_hot (key : string) (value : json) (now : Z) : C unit := fun w =>
  match hot_set key value now (cw_hot w) with
  | Ok h => Ret tt (mk_cache_world h (cw_warm w) (cw_inner w) (cw_served w))
  | Err _ => Raise (OtherException "KeyError") (mk_cache_world (hot_with (cw_hot w) []) (cw_warm w) (cw_inner w) (cw_served w))
  end.
Definition set_warm (key : string) (value : json) (now : Z) : C unit := fun w =>
  Ret tt (mk_cache_world (cw_hot w) (warm_set key value ttl now (cw_warm w)) (cw_inner w) (cw_served w)).

(** [hit is not None]. *)
Definition hit_of (o : option json) : option json := match o with Some JNull => None | _ => o end.

(** [execute]. *)
Definition cached_execute (now : nat -> Z) (request : dict) : C json :=
  if negb (truthy (dget_or request "cache_allowed" (JBool true))) then
    let! result := run_inner request in tagged result false JNull
  else
    let key := cache_key request namespace in
    let! hit := get_hot key (now 0%nat) in
    match hit_of hit with
    | Some v => tagged v true (JStr "hot")
    | None =>
      let! hit := get_warm key (now 1%nat) in
      match hit_of hit with
      | Some v => do! set_hot key v (now 2%nat) in tagged v true (JStr "warm")
      | None =>
        let! result := run_inner request in
        do! set_hot key result (now 2%nat) in
        do! set_warm key result (now 3%nat) in
        tagged result false JNull
      end
    end.
End caching.

(** ** Keys *)
Section keys.
Context `{Ext} (repr : json -> string).

(** Hex digits, as [hexdigest] prints. *)
Class HexDigest : Prop := hex_lacks_colon : forall m, lacks ":" (sha256_hex m).

Definition collision : Prop := exists a b, a <> b /\ sha256_hex a = sha256_hex b.

(** Two requests that print the same in everything that tells completions and
    tenants apart; an absent prompt is empty, an absent workspace is the default
    one, anything else absent is null. *)
Definition isolation_fields : list (string * json) :=
  [("workspace_id", JStr "default"); ("tenant_id", JNull); ("scope", JNull); ("prompt", JStr ""); ("model", JNull);
   ("temperature", JNull); ("max_tokens", JNull); ("action", JNull); ("execution_mode", JNull); ("constitution_hash", JNull);
   ("genome_hash", JNull); ("plan_hash", JNull)].
Definition same_completion (r r' : dict) : Prop :=
  forall f absent, (f, absent) ∈ isolation_fields -> py_dumps (dget_or r f absent) = py_dumps (dget_or r' f absent).

Lemma last_colon p p' d d' : ":"%char ∉ d -> ":"%char ∉ d' -> p ++ ":"%char :: d = p' ++ ":"%char :: d' -> d = d'.
Proof.
  intros Hd Hd' He. apply (f_equal (@rev ascii)) in He. rewrite !rev_app_distr in He. simpl in He.
  rewrite <- !app_assoc in He. simpl in He. apply (f_equal (cut ":")) in He.
  rewrite !cut_app in He by (rewrite list_elem_of_In, <- in_rev, <- list_elem_of_In; done). injection He as He _.
  rewrite <- (rev_involutive d), <- (rev_involutive d'). by rewrite He.
Qed.

Lemma same_key_digest `{!HexDigest} ns r r' :
  cache_key repr r ns = cache_key repr r' ns -> sha256_json (JObj (keyed r)) = sha256_json (JObj (keyed r')).
Proof.
  assert (Hk : forall r, chars (cache_key repr r ns)
    = chars (ns +:+ ":" +:+ py_format repr (dget_or r "workspace_id" (JStr "default")) +:+ ":completion")
      ++ ":"%char :: chars (sha256_json (JObj (keyed r)))).
  { intros r0. unfold cache_key. rewrite !chars_app, <- !app_assoc. done. }
  intros He. apply (f_equal list_ascii_of_string) in He. rewrite !Hk in He. apply last_colon in He; [by apply chars_inj|..];
    apply hex_lacks_colon.
Qed.

Lemma keyed_names r : map fst (keyed r) = map fst (keyed []).
Proof. done. Qed.
Lemma keyed_nodup r : NoDup (map fst (keyed r)).
Proof. rewrite keyed_names. apply (bool_decide_unpack _). by vm_compute. Qed.

Lemma dget_elem (d : dict) k v : NoDup (map fst d) -> (k, v) ∈ d -> dget d k = v.
Proof.
  unfold dget. induction d as [|[k' v'] d IH]; intros Hn Hin; [by apply elem_of_nil in Hin|].
  simpl in Hn. apply NoDup_cons in Hn as [Hk Hn]. simpl. apply elem_of_cons in Hin as [[= -> ->]|Hin].
  - by rewrite str_eqb_refl.
  - destruct (str_eqb k' k) eqn:E; [|by apply IH]. apply str_eqb_spec in E as ->. destruct Hk.
    by apply (list_elem_of_fmap_2 fst) in Hin.
Qed.

(** Requests with one key agree on every keyed field, or SHA-256 collides. *)
Lemma key_isolates `{!HexDigest} ns r r' :
  json_wf (JObj (keyed r)) = true -> json_wf (JObj (keyed r')) = true ->
  cache_key repr r ns = cache_key repr r' ns -> same_completion r r' \/ collision.
Proof.
  intros Hw Hw' He. apply same_key_digest in He. unfold sha256_json in He.
  destruct (decide (py_dumps (JObj (keyed r)) = py_dumps (JObj (keyed r')))) as [Hd|Hd]; [left|right; by eexists _, _].
  apply dumps_obj_inj in Hd; [|done..]. intros f absent Hf.
  assert (Hin : (f, dget_or r f absent) ∈ keyed r /\ (f, dget_or r' f absent) ∈ keyed r').
  { unfold isolation_fields in Hf. unfold keyed. repeat (apply elem_of_cons in Hf as [[= -> ->]|Hf];
      [split; repeat first [apply list_elem_of_here|apply list_elem_of_further]|]).
    by apply elem_of_nil in Hf. }
  destruct Hin as [Hin Hin'].
  assert (Hi : (f, py_dumps (dget_or r f absent)) ∈ printed (keyed r'))
    by (rewrite <- Hd; apply printed_elem; by exists (dget_or r f absent)).
  apply printed_elem in Hi as (v' & Hv & Ht).
  by rewrite <- (dget_elem _ _ _ (keyed_nodup r') Hin'), (dget_elem _ _ _ (keyed_nodup r') Hv).
Qed.
End keys.

(** ** The hot tier *)

Lemma hot_get_stored k now h v : (hot_get k now h).1 = Some v -> stored (hc_store h) k v.
Proof.
  unfold hot_get. destruct (assoc k (hc_store h)) as [[e v']|] eqn:E; [|done]. destruct (e <=? now); [done|].
  intros [= ->]. by eapply assoc_stored.
Qed.

Lemma hot_get_keeps k now h k' v : stored (hc_store (hot_get k now h).2) k' v -> stored (hc_store h) k' v.
Proof.
  unfold hot_get. destruct (assoc k (hc_store h)) as [[e v']|] eqn:E; [|done]. destruct (e <=? now); [apply stored_remove|].
  intros [e' He]. apply elem_of_app in He as [He|He]; [apply (stored_remove _ k); by exists e'|].
  apply list_elem_of_singleton in He as [= -> -> ->]. by eapply assoc_stored.
Qed.

Lemma hot_set_stored k v now h h' k' v' :
  hot_set k v now h = Ok h' -> stored (hc_store h') k' v' -> (k' = k /\ v' = v) \/ stored (hc_store h) k' v'.
Proof.
  unfold hot_set, evict. destruct (_ <? 0); [done|]. cbn. intros [= <-] [e He]. cbn in He.
  eapply elem_of_sublist in He; [|apply sublist_drop].
  apply elem_of_app in He as [He|He]; [right; apply (stored_remove _ k); by exists e|].
  apply list_elem_of_singleton in He as [= -> _ ->]. by left.
Qed.

(** Within the size, and of one entry per key. *)
Definition hot_ok (h : HotCache) : Prop := NoDup (map fst (hc_store h)) /\ Z.of_nat (length (hc_store h)) <= Z.max 0 (hc_max_size h).

Lemma remove_lacks k s : k ∉ map fst (remove k s).
Proof. intros Hin. apply list_elem_of_fmap in Hin as (e & -> & He). by apply list_elem_of_filter in He as [He _]. Qed.

Lemma remove_nodup k s : NoDup (map fst s) -> NoDup (map fst (remove k s)).
Proof.
  intros Hn. induction s as [|e s IH]; [done|]. unfold remove in *. rewrite filter_cons. simpl in Hn.
  apply NoDup_cons in Hn as [He Hn]. case_decide; [|by apply IH]. simpl. apply NoDup_cons. split; [|by apply IH].
  intros Hin. apply He. apply list_elem_of_fmap in Hin as (e' & -> & He'). apply list_elem_of_filter in He' as [_ He'].
  by apply list_elem_of_fmap_2.
Qed.

Lemma moved_nodup k (x : Z * json) s : NoDup (map fst s) -> NoDup (map fst (remove k s ++ [(k, x)])).
Proof.
  intros Hn. rewrite map_app. apply NoDup_app. split; [by apply remove_nodup|]. split; [|apply NoDup_singleton].
  intros k' Hk' Hin. apply list_elem_of_singleton in Hin as ->. by apply remove_lacks in Hk'.
Qed.

Lemma remove_shrinks k x s : assoc k s = Some x -> (length (remove k s) < length s)%nat.
Proof.
  induction s as [|[k' x'] s IH]; [done|]. simpl. unfold remove in *. rewrite filter_cons. destruct (str_eqb k' k) eqn:E.
  - apply str_eqb_spec in E as ->. intros _. rewrite decide_False by tauto. pose proof (length_filter (fun e => e.1 <> k) s). lia.
  - intros Hx. apply IH in Hx. apply str_eqb_neq in E. rewrite decide_True by done. simpl. lia.
Qed.

Lemma hot_get_ok k now h : hot_ok h -> hot_ok (hot_get k now h).2.
Proof.
  intros [Hn Hl]. unfold hot_get. destruct (assoc k (hc_store h)) as [[e v]|] eqn:E; [|done]. apply remove_shrinks in E as Hs.
  destruct (e <=? now); split; cbn.
  - by apply remove_nodup.
  - lia.
  - by apply moved_nodup.
  - rewrite length_app. simpl. lia.
Qed.

Lemma hot_set_ok k v now h h' : hot_set k v now h = Ok h' -> hot_ok h -> hot_ok h'.
Proof.
  unfold hot_set, evict. destruct (hc_max_size h <? 0) eqn:Em; [done|]. cbn. apply Z.ltb_ge in Em. intros [= <-] [Hn Hl]. split; cbn.
  - eapply sublist_NoDup; [by apply (moved_nodup k (now + hc_ttl h, v))|].
    change (map fst (drop ?n ?l)) with (fst <$> drop n l). rewrite fmap_drop. apply sublist_drop.
  - rewrite length_drop. lia.
Qed.

(** ** Sequences of calls *)
Section caching.
Context `{!Ext} (repr : json -> string) {S W : Type} `{!WarmCache S}.
Variables (inner : dict -> eff exec_error W json) (ttl : Z) (namespace : string).
Local Abbreviation world := (@cache_world S W).
Local Abbreviation key r := (cache_key repr r namespace).

Definition from_inner (w : world) (k : string) (v : json) : Prop := exists r, (r, v) ∈ cw_served w /\ key r = k.

(** Every entry came from the inner executor, for a request with that key. *)
Definition cache_inv (w : world) : Prop :=
  hot_ok (cw_hot w)
  /\ (forall k v, stored (hc_store (cw_hot w)) k v -> from_inner w k v)
  /\ (forall k v, warm_has (cw_warm w) k v -> from_inner w k v)
  /\ (forall r v, (r, v) ∈ cw_served w -> json_wf (JObj (keyed r)) = true).

Definition cspec {A} (P : world -> Prop) (m : @C S W A) (Q : A -> world -> Prop) : Prop :=
  spec P m Q (fun _ => cache_inv) cache_inv.

(** The hot and the warm lookup. *)
Lemma get_hot_spec k now w0 : cache_inv w0 ->
  cspec (eq w0) (get_hot k now) (fun hit w => cache_inv w /\ cw_inner w = cw_inner w0 /\ cw_served w = cw_served w0
    /\ forall v, hit = Some v -> from_inner w0 k v).
Proof.
  intros (Ho & Hh & Hw & Hj) w <-. unfold get_hot. split; [|split; [done|split; [done|]]].
  - split; [by apply hot_get_ok|]. split; [|done]. cbn. intros k' v Hs. by apply hot_get_keeps in Hs; apply Hh.
  - intros v Hv. by apply Hh, (hot_get_stored _ now).
Qed.

Lemma get_warm_spec k now w0 : cache_inv w0 ->
  cspec (eq w0) (get_warm k now) (fun hit w => cache_inv w /\ cw_inner w = cw_inner w0 /\ cw_served w = cw_served w0
    /\ forall v, hit = Some v -> from_inner w0 k v).
Proof.
  intros (Ho & Hh & Hw & Hj) w <-. unfold get_warm. split; [|split; [done|split; [done|]]].
  - split; [done|]. split; [done|]. split; [|done]. cbn. intros k' v Hs. by apply warm_get_keeps in Hs; apply Hw.
  - intros v Hv. by apply Hw, (warm_get_has _ now).
Qed.

Lemma set_hot_spec k v now w0 : cache_inv w0 -> from_inner w0 k v ->
  cspec (eq w0) (set_hot k v now) (fun _ w => cache_inv w /\ cw_inner w = cw_inner w0 /\ cw_served w = cw_served w0).
Proof.
  intros (Ho & Hh & Hw & Hj) Hf w <-. unfold set_hot. destruct (hot_set k v now (cw_hot w0)) as [h|] eqn:E.
  - split; [|done]. split; [by eapply hot_set_ok|]. split; [|done]. cbn. intros k' v' Hs.
    destruct (hot_set_stored _ _ _ _ _ _ _ E Hs) as [[-> ->]|Hs']; [done|by apply Hh].
  - split; [split; [apply NoDup_nil_2|cbn; lia]|]. split; [|done]. cbn. intros k' v' [x Hx]. by apply elem_of_nil in Hx.
Qed.

Lemma set_warm_spec k v now w0 : cache_inv w0 -> from_inner w0 k v ->
  cspec (eq w0) (set_warm ttl k v now) (fun _ w => cache_inv w /\ cw_inner w = cw_inner w0 /\ cw_served w = cw_served w0).
Proof.
  intros (Ho & Hh & Hw & Hj) Hf w <-. unfold set_warm. split; [|done]. split; [done|]. split; [done|]. split; [|done].
  cbn. intros k' v' Hs. destruct (warm_set_has _ _ _ _ _ _ _ Hs) as [[-> ->]|Hs']; [done|by apply Hw].
Qed.

Lemma run_inner_spec request w0 : cache_inv w0 -> json_wf (JObj (keyed request)) = true ->
  cspec (eq w0) (run_inner inner request)
    (fun r w => cache_inv w /\ cw_served w = cw_served w0 ++ [(request, r)] /\ from_inner w (key request) r).
Proof.
  intros (Ho & Hh & Hw & Hj) Hwf w <-. unfold run_inner.
  destruct (inner request (cw_inner w0)) as [r i|e i|i]; cbn; [|exact (conj Ho (conj Hh (conj Hw Hj)))..].
  assert (Hf : forall k v, from_inner w0 k v -> from_inner
    (mk_cache_world (cw_hot w0) (cw_warm w0) i (cw_served w0 ++ [(request, r)])) k v).
  { intros k v (r0 & Hr & Hk). exists r0. split; [|done]. cbn. apply elem_of_app. by left. }
  split; [|split; [done|]].
  - split; [done|]. split; [intros k v Hs; by apply Hf, Hh|]. split; [intros k v Hs; by apply Hf, Hw|].
    cbn. intros r0 v Hin. apply elem_of_app in Hin as [Hin|Hin]; [by eapply Hj|].
    by apply list_elem_of_singleton in Hin as [= -> ->].
  - exists request. split; [|done]. cbn. apply elem_of_app. right. by apply list_elem_of_singleton.
Qed.

(** A result tagged with where it came from. *)
Definition tag (v : json) (cached : bool) (tier : json) : json :=
  match v with JObj d => JObj (dset "cache_tier" tier (dset "cached" (JBool cached) d)) | _ => JNull end.

(** What a call answers: a fresh result, or an earlier one under the same key,
    for which the inner executor did not run. *)
Definition answered (request : dict) (w0 : world) (r : json) (w : world) : Prop :=
  (exists v, r = tag v false JNull /\ cw_served w = cw_served w0 ++ [(request, v)])
  \/ (exists r0 v tier, r = tag v true tier /\ (r0, v) ∈ cw_served w0 /\ key r0 = key request
        /\ cw_served w = cw_served w0 /\ cw_inner w = cw_inner w0).

Lemma tagged_spec (P : world -> Prop) v cached tier (Q : json -> world -> Prop) :
  (forall w, P w -> cache_inv w) -> (forall w, P w -> Q (tag v cached tier) w) -> cspec P (tagged v cached tier) Q.
Proof. intros Hi HQ w Hw. destruct v; cbn; [by apply Hi..|by apply HQ]. Qed.

Lemma hit_of_Some o v : hit_of o = Some v -> o = Some v.
Proof. destruct o as [[]|]; done. Qed.

Lemma cached_execute_spec now request w0 :
  cache_inv w0 -> json_wf (JObj (keyed request)) = true ->
  cspec (eq w0) (cached_execute repr inner ttl namespace now request) (fun r w => cache_inv w /\ answered request w0 r w).
Proof.
  intros Hi Hwf. unfold cached_execute. destruct (negb _).
  { eapply spec_bind; [by apply run_inner_spec|]. intros v. apply tagged_spec; [by intros w (? & _)|].
    intros w (Hw & Hs & _). split; [done|]. left. by exists v. }
  eapply spec_bind; [by apply get_hot_spec|]. intros hit. destruct (hit_of hit) as [v|] eqn:Eh.
  { apply hit_of_Some in Eh as ->. apply tagged_spec; [by intros w (? & _)|]. intros w (Hw & Hin & Hs & Hf). split; [done|].
    right. destruct (Hf v eq_refl) as (r0 & Hr & Hk). by exists r0, v, (JStr "hot"). }
  apply spec_at. intros w1 (Hw1 & Hin1 & Hs1 & _). eapply spec_bind; [by apply get_warm_spec|]. intros hit2.
  destruct (hit_of hit2) as [v|] eqn:Eh2.
  - apply hit_of_Some in Eh2 as ->. apply spec_at. intros w2 (Hw2 & Hin2 & Hs2 & Hf). specialize (Hf v eq_refl).
    eapply spec_bind; [apply set_hot_spec; [done|]|].
    { destruct Hf as (r0 & Hr & Hk). exists r0. by rewrite Hs2. }
    intros u. apply tagged_spec; [by intros w (? & _)|]. intros w (Hw & Hin & Hs). split; [done|]. right.
    destruct Hf as (r0 & Hr & Hk). exists r0, v, (JStr "warm"). rewrite <- Hs1. split; [done|]. split; [done|]. split; [done|].
    split; congruence.
  - apply spec_at. intros w2 (Hw2 & Hin2 & Hs2 & _). eapply spec_bind; [by apply run_inner_spec|]. intros v.
    apply spec_at. intros w3 (Hw3 & Hs3 & Hf3). eapply spec_bind; [by apply set_hot_spec|]. intros ?.
    apply spec_at. intros w4 (Hw4 & Hin4 & Hs4). eapply spec_bind; [apply set_warm_spec; [done|]|].
    { destruct Hf3 as (r0 & Hr & Hk). exists r0. by rewrite Hs4. }
    intros u. apply tagged_spec; [by intros w (? & _)|]. intros w (Hw & _ & Hs). split; [done|]. left. exists v.
    split; [done|]. congruence.
Qed.

(** Calls of well-formed requests, one after the other. *)
Inductive cache_step : world -> world -> Prop :=
  | cs_execute now request w : json_wf (JObj (keyed request)) = true ->
      cache_step w (oworld (cached_execute repr inner ttl namespace now request w)).

Lemma cache_step_inv w w' : cache_inv w -> cache_step w w' -> cache_inv w'.
Proof.
  intros Hi Hs0. destruct Hs0 as [now request w0 Hwf]. pose proof (cached_execute_spec now request w0 Hi Hwf w0 eq_refl) as Hs.
  destruct (cached_execute _ _ _ _ _ _ _); cbn in *; [apply Hs|done|done].
Qed.

(** The cache never makes an answer up or carries one across an isolation
    boundary.  From empty tiers and after any calls: the hot tier is within its
    size, and a call that answers either ran the inner executor and answers its
    result, or answers a result the inner executor had returned earlier for a
    request that agrees with this one on every keyed field, without running
    it; or two texts with one SHA-256 digest are at hand. *)
Theorem cache_isolated `{!HexDigest} w0 w now request r w' :
  hc_store (cw_hot w0) = [] -> (forall k v, ~ warm_has (cw_warm w0) k v) -> cw_served w0 = [] ->
  steps cache_step w0 w -> json_wf (JObj (keyed request)) = true ->
  cached_execute repr inner ttl namespace now request w = Ret r w' ->
  Z.of_nat (length (hc_store (cw_hot w'))) <= Z.max 0 (hc_max_size (cw_hot w'))
  /\ ((exists v, r = tag v false JNull /\ cw_served w' = cw_served w ++ [(request, v)])
      \/ (exists r0 v tier, r = tag v true tier /\ (r0, v) ∈ cw_served w /\ same_completion r0 request
            /\ cw_inner w' = cw_inner w)
      \/ collision).
Proof.
  intros Hh Hw Hs Hst Hwf He. assert (Hi : cache_inv w).
  { eapply steps_invariant; [exact cache_step_inv| |exact Hst]. split; [split; rewrite Hh; [apply NoDup_nil_2|simpl; lia]|].
    split; [intros k v [e Hin]; rewrite Hh in Hin; by apply elem_of_nil in Hin|]. split; [by intros k v Hk; apply Hw in Hk|].
    intros r0 v Hin. rewrite Hs in Hin. by apply elem_of_nil in Hin. }
  pose proof (cached_execute_spec now request w Hi Hwf w eq_refl) as Hsp. rewrite He in Hsp. cbn in Hsp.
  destruct Hsp as [[[_ Hl] _] [Ha|(r0 & v & tier & -> & Hin & Hk & Hsv & Hinn)]]; (split; [done|]); [by left|].
  destruct Hi as (_ & _ & _ & Hj). destruct (key_isolates repr namespace r0 request (Hj _ _ Hin) Hwf Hk) as [Hc|Hc].
  - right. left. by exists r0, v, tier.
  - right. by right.
Qed.

(** The key does not look at the authority envelope: as long as an entry is
    fresh, a request with its key is answered from it, without the inner
    executor, whatever providers it is authorized for. *)
Theorem cache_ignores_authority now request envelope expires d w :
  assoc (key request) (hc_store (cw_hot w)) = Some (expires, JObj d) -> now 0%nat < expires ->
  truthy (dget_or request "cache_allowed" (JBool true)) = true ->
  exists w', cached_execute repr inner ttl namespace now (dset "authority_envelope" envelope request) w
    = Ret (tag (JObj d) true (JStr "hot")) w' /\ cw_inner w' = cw_inner w.
Proof.
  assert (Hk : forall k x, k <> "authority_envelope" -> dget_or (dset "authority_envelope" envelope request) k x = dget_or request k x).
  { intros k x Hk. unfold dget_or. induction request as [|[k' v] r IH]; simpl.
    - by rewrite (proj2 (str_eqb_neq _ _)) by (intros He; by apply Hk).
    - destruct (str_eqb k' "authority_envelope") eqn:E; simpl; [|by destruct (str_eqb k' k)].
      apply str_eqb_spec in E as ->. by rewrite (proj2 (str_eqb_neq _ _)) by (intros He; by apply Hk). }
  assert (Hkey : key (dset "authority_envelope" envelope request) = key request).
  { assert (Hg : forall k, k <> "authority_envelope" -> dget (dset "authority_envelope" envelope request) k = dget request k)
      by (intros k Hne; exact (Hk k JNull Hne)).
    unfold cache_key, keyed. by rewrite !Hk, !Hg by done. }
  intros Ha Hn Hc. unfold cached_execute. rewrite Hk, Hc by done. cbn [negb]. unfold ebind, get_hot. rewrite Hkey. unfold hot_get.
  rewrite Ha. assert (He : (expires <=? now 0%nat) = false) by (apply Z.leb_gt; lia). rewrite He. cbn. by eexists.
Qed.
End caching.
