(* ===== verification/ExecDemo.v ===== *)
(** * A concrete execution layer

    Signed requests and responses, two provider clients under failover and the
    cache in front of an executor, on the outside world of RunDemo: the
    witnesses of the execution-layer properties. *)

From Stdlib Require Import ZArith Lia Ascii String.
From stdpp Require Import base gmap strings list pretty.
From S2P Require Import Prelude Canon PyJson VdbExample JsonScan Permits Identity RunDemo HttpSig HttpSigProperties Breaker Providers Failover Cache.

Local Open Scope Z_scope.

#[export] Instance exec_mac : Mac := {|
  hmac_raw := fun k m => checksum (k +:+ m);
  hmac_hex := fun k m => checksum (k +:+ m);
  sha256_raw := checksum |}.

Lemma bits_lack_colon p : lacks ":" (bits p).
Proof. unfold lacks. induction p as [p IH|p IH|]; simpl; rewrite not_elem_of_cons; by split; [|try apply not_elem_of_nil]. Qed.
#[export] Instance run_hex : HexDigest (H := run_ext).
Proof. intros m. apply bits_lack_colon. Qed.

Module ExecDemo.
(** ** A signed request *)

(** A key of 32 bytes and its hex text. *)
Definition gate_key : string := "AAAAAAAAAAAAAAAAAAAAAAAAAAAAAAAA".
Definition gate_hex : string := String.concat "" (repeat "41" 32).
Definition gate_identity : headers := [("Workload-Identity", "wit"); ("Execution-Context", "ect"); ("Workload-Proof", "wpt")].
Definition gate_uri : string := "https://cappo/v1/exec".
Definition gate_headers : headers := sign_request (H := run_ext) gate_key gate_uri "body" gate_identity 1000.
Definition gate_components : list string := ["workload-identity"; "execution-context"; "workload-proof"].

(** ** Two clients, the first of them down *)

(** A signed 503. *)
Definition down_fields : string := "(" +:+ quote "@status" +:+ " " +:+ quote "content-digest" +:+ ");created=1000".
Definition down_base : string :=
  String.concat nl [quote "@status" +:+ ": 503"; quote "content-digest" +:+ ": " +:+ digest_header "busy";
                    quote "@signature-params" +:+ ": " +:+ down_fields].
Definition down_headers : headers :=
  [("Content-Digest", digest_header "busy"); ("Signature-Input", "sig1=" +:+ down_fields);
   ("Signature", "sig1=:" +:+ b64encode (demo_sig gate_key down_base) +:+ ":")].

Definition completion : json :=
  JObj [("choices", JArr [JObj [("message", JObj [("content", JStr "hi")])]]); ("usage", JObj [("total_tokens", JInt 3)])].
Definition demo_net (n : nat) : http_answer :=
  match n with O => Answer 503 down_headers "busy" None | _ => Answer 200 [] "" (Some completion) end.

Definition client (name : string) : provider :=
  mk_provider name (OpenAICompatExecutor_execute demo_net (fun _ => true) (fun _ => 1001) (fun _ => None) gate_hex name "m1").
Definition demo_providers : list provider := [client "alpha"; client "beta"; client "gamma"].
Definition demo_request (allowed : list json) : dict :=
  [("prompt", JStr "hello"); ("workspace_id", JStr "ws-1");
   ("authority_envelope", JObj [("allowed_provider_set", JArr allowed)])].
Definition both : dict := demo_request [JStr "beta"; JStr " alpha "].
Definition start : exec_world := mk_exec_world (repeat (new_breaker 3 30 1) 3) [] [].
Definition uid (n : nat) : string := "attempt-" +:+ pretty n.
Definition run (request : dict) : outcome exec_error exec_world json :=
  resilient_execute demo_providers (fun _ b => b) (fun _ _ => 5) uid false request start.

Lemma run_fails_over :
  exists w, run both = Ret (JObj [("response", JStr "hi"); ("model", JStr "m1"); ("provider", JStr "beta"); ("tokens", JInt 3);
      ("attempts", JArr [attempt uid 0 "alpha" "verified_unavailable"; attempt uid 1 "beta" "succeeded"])]) w
    /\ map pc_name (ew_calls w) = ["alpha"; "beta"].
Proof. eexists. split; vm_compute; reflexivity. Qed.

(** ** The cache in front of an executor that counts its calls *)

Definition counting (request : dict) : eff exec_error nat json := fun n => Ret (JObj [("response", JInt (Z.of_nat n))]) (S n).
Definition cold : @cache_world store nat := mk_cache_world (mk_hot [] 2 300) [] 0%nat [].
Definition cached (request : dict) : @C store nat json := cached_execute (fun _ => "") counting 300 "cappo" (fun _ => 10) request.
Definition warmed : cache_world := oworld (cached both cold).
End ExecDemo.
Import ExecDemo.

Lemma request_integrity_witness :
  verify_rfc9421_request "POST" gate_uri gate_headers "body" gate_hex gate_components 1003 = Ok tt
  /\ exists pub sig base created,
    load_ed25519_public_key gate_hex = Ok pub /\ ed_verify pub sig base = true
    /\ created_at gate_headers = Some created /\ Z.abs (1003 - created) <= 5
    /\ forall method' uri' hs' body', one_line hs' -> lacks "010" uri' -> lacks "010" method' ->
         header hs' "content-digest" = Some (digest_header body') ->
         signature_base hs' [("@method", upper method'); ("@target-uri", uri')] = Some base ->
         upper method' = "POST" /\ uri' = gate_uri /\ sha256_raw body' = sha256_raw "body" /\ created_at hs' = Some created
         /\ forall c, c ∈ gate_components -> lower c <> "@method" -> lower c <> "@target-uri" ->
              header hs' (lower c) = header gate_headers (lower c).
Proof.
  assert (Hv : verify_rfc9421_request "POST" gate_uri gate_headers "body" gate_hex gate_components 1003 = Ok tt)
    by (vm_compute; reflexivity).
  split; [exact Hv|]. apply (request_integrity "POST" gate_uri gate_headers "body" gate_hex gate_components 1003).
  - unfold one_line. apply (bool_decide_unpack _). vm_compute. exact I.
  - apply (bool_decide_unpack _). vm_compute. exact I.
  - exact Hv.
Defined.

Lemma signed_request_accepted_witness :
  verify_rfc9421_request "POST" gate_uri gate_headers "body" gate_hex (map fst gate_identity) 996 = Ok tt.
Proof.
  apply (signed_request_accepted (H := run_ext) gate_key gate_uri "body" gate_identity 1000 996 gate_hex).
  - vm_compute. reflexivity.
  - discriminate.
  - lia.
  - lia.
  - apply (bool_decide_unpack _). vm_compute. exact I.
Defined.


Lemma failover_reaches_witness :
  exists w', resilient_execute [mk_provider "a" (fun _ posts => Raise VerifiedProviderUnavailableError posts);
                                mk_provider "b" (fun _ posts => Ret (JObj [("response", JStr "hi")]) posts)]
      (fun _ b => b) (fun _ _ => 5) uid false (demo_request [JStr "a"; JStr "b"]) start
    = Ret (JObj [("response", JStr "hi");
        ("attempts", JArr [attempt uid 0 "a" "verified_unavailable"; attempt uid 1 "b" "succeeded"])]) w'.
Proof.
  apply (failover_reaches (fun _ _ => 5) uid
    [mk_provider "a" (fun _ posts => Raise VerifiedProviderUnavailableError posts);
     mk_provider "b" (fun _ posts => Ret (JObj [("response", JStr "hi")]) posts)] (demo_request [JStr "a"; JStr "b"]) ["a"; "b"]
    [(0%nat, mk_provider "a" (fun _ posts => Raise VerifiedProviderUnavailableError posts))] 1%nat
    (mk_provider "b" (fun _ posts => Ret (JObj [("response", JStr "hi")]) posts)) [] [("response", JStr "hi")] start).
  - vm_compute. reflexivity.
  - vm_compute. reflexivity.
  - intros j q posts Hin. apply list_elem_of_singleton in Hin. injection Hin as -> ->. by eexists.
  - intros posts. by eexists.
  - intros j q Hin. apply elem_of_cons in Hin as [[= -> ->]|Hin]; [by eexists|].
    apply list_elem_of_singleton in Hin as [= -> ->]. by eexists.
Defined.

Lemma cache_isolated_witness :
  exists r w', cached both warmed = Ret r w'
    /\ Z.of_nat (length (hc_store (cw_hot w'))) <= Z.max 0 (hc_max_size (cw_hot w'))
    /\ ((exists v, r = tag v false JNull /\ cw_served w' = cw_served warmed ++ [(both, v)])
        \/ (exists r0 v tier, r = tag v true tier /\ (r0, v) ∈ cw_served warmed /\ same_completion r0 both
              /\ cw_inner w' = cw_inner warmed)
        \/ collision (H := run_ext)).
Proof.
  exists (match cached both warmed with Ret r _ => r | _ => JNull end), (oworld (cached both warmed)).
  split; [vm_compute; reflexivity|].
  apply (cache_isolated (fun _ => "") counting 300 "cappo" cold warmed (fun _ => 10) both).
  - reflexivity.
  - intros k v [e He]. by apply elem_of_nil in He.
  - reflexivity.
  - eapply steps_snoc; [apply steps_refl|]. exact (cs_execute (fun _ => "") counting 300 "cappo" (fun _ => 10) both cold eq_refl).
  - vm_compute. reflexivity.
  - vm_compute. reflexivity.
Defined.
