(* ===== verification/Edge.v ===== *)
(** * The edge gateway (security/edge_gateway.py, security/nonce_cache.py)

    The ten rules an execution authorization token passes at the edge, and the
    nonce cache that makes it single-use.  Tokens are dicts of JSON values; as
    for identities, a value of a type no builder gives takes the path of the
    TypeError it would raise; details leave out the values the code prints into
    them.  The gateway reads two clocks: the wall clock for
    the expiry and the monotonic one for the cache, both in microseconds.

    A token the orchestrator mints is accepted at the edge the first time it
    is presented in time; while the cache remembers its nonce it is a replay,
    and once the wall clock has reached its expiry it is refused.  The two
    readings of a presentation are unrelated, and so are those of different
    presentations, so that threads that stall between the rules, or before the
    lock of the cache, are covered. *)

From Stdlib Require Import ZArith Lia Ascii String.
From stdpp Require Import base gmap strings list.
From S2P Require Import Prelude Canon PyJson Ledger Identity Runs.

Local Open Scope Z_scope.

(** ** The nonce cache *)

(** Nonces with the monotonic time at which each may be forgotten. *)
Abbreviation nonce_cache := (gmap string Z).

Definition evict_expired (now : Z) (seen : nonce_cache) : nonce_cache := filter (fun kv => now < kv.2) seen.

(** [check_and_store]: whether the nonce was already consumed. *)
Definition check_and_store (nonce : string) (ttl_seconds now : Z) (seen : nonce_cache) : bool * nonce_cache :=
  let live := evict_expired now seen in
  match live !! nonce with
  | Some _ => (true, live)
  | None => (false, <[nonce := now + ttl_seconds * 1000000]> live)
  end.

Definition clear (seen : nonce_cache) : nonce_cache := ∅.

(** ** The gateway *)

Inductive eat_err :=
  | EATVerificationError (rule detail : string)
  | EatTypeError.

(** What the gateway writes: the cache, and the audited violations with the
    rule, the detail and the token's id. *)
Record edge := mk_edge { eg_seen : nonce_cache; eg_violations : list (string * string * json) }.

Definition G := eff eat_err edge.

Section gateway.
Context `{EiWorld}.
Variables (eat_signing_key audience : string).

Definition reject_if (c : bool) (rule detail : string) : res eat_err unit := raise_if c (EATVerificationError rule detail).

(** [v or {}] of a dict. *)
Definition dict_or (v : json) : res eat_err dict :=
  if truthy v then match v with JObj m => Ok m | _ => Err EatTypeError end else Ok [].
Definition int_of (v : json) : res eat_err Z :=
  match v with JInt z => Ok z | JBool b => Ok (Z.b2z b) | _ => Err EatTypeError end.

Definition v1_signature (eat : dict) : res eat_err unit :=
  reject_if (negb (verify_signature_ed25519 (canonical_body eat) (dget_or eat "signature" (JStr "")) eat_signing_key))
    "V1" "signature verification failed".

Definition v2_hash (eat : dict) : res eat_err unit :=
  reject_if (negb (is_str (dget eat "hash") (sha256_json (JObj (canonical_body eat))))) "V2" "hash verification failed".

Definition v3_expiry (now : Z) (eat : dict) : res eat_err unit :=
  let? temporal := dict_or (dget eat "temporal") in
  let expires_raw := dget temporal "expires_at" in
  do? reject_if (negb (truthy expires_raw)) "V3" "temporal.expires_at is missing" in
  match expires_raw with
  | JStr s =>
    match fromisoformat s with
    | Some expires => reject_if (expires <=? now) "V3" "execution authorization token has expired"
    | None => Err (EATVerificationError "V3" "temporal.expires_at is not a valid datetime")
    end
  | _ => Err (EATVerificationError "V3" "temporal.expires_at has unexpected type")
  end.

(** The nonce and how long it is remembered. *)
Definition nonce_of (eat : dict) : res eat_err (string * Z) :=
  do? reject_if (negb (truthy (dget eat "nonce"))) "V4" "nonce is missing" in
  let? temporal := dict_or (dget eat "temporal") in
  let? ttl := int_of (py_or (dget temporal "ttl_seconds") (JInt 300)) in
  match dget eat "nonce" with JStr nonce => Ok (nonce, ttl) | _ => Err EatTypeError end.

Definition v4_nonce (mono : Z) (eat : dict) : G unit := fun w =>
  match nonce_of eat with
  | Err e => Raise e w
  | Ok (nonce, ttl) =>
    let r := check_and_store nonce ttl mono (eg_seen w) in
    let w' := mk_edge r.2 (eg_violations w) in
    if r.1 then Raise (EATVerificationError "V4" "nonce has already been consumed (replay detected)") w' else Ret tt w'
  end.

Definition v5_directive (eat : dict) : res eat_err unit :=
  let? auth := dict_or (dget eat "authorization") in
  reject_if (negb (is_str (dget auth "directive") "ALLOW" || is_str (dget auth "directive") "ALLOW_WITH_AUDIT"))
    "V5" "directive does not permit execution".

Definition v6_scope (action : string) (eat : dict) : res eat_err unit :=
  if str_eqb action "" then Ok tt
  else
    let? auth := dict_or (dget eat "authorization") in
    let? scope := dict_or (dget auth "scope") in
    let tools := dget scope "tools" in
    if negb (truthy tools) then Ok tt
    else match tools with
         | JArr l => reject_if (negb (existsb (fun t => is_str t action) l)) "V6" "scope does not cover action"
         | _ => Err EatTypeError
         end.

Definition v7_budget (cost_cents : Z) (eat : dict) : res eat_err unit :=
  if cost_cents <=? 0 then Ok tt
  else
    let? auth := dict_or (dget eat "authorization") in
    let? budget := int_of (py_or (dget auth "budget_approved_cents") (JInt 0)) in
    reject_if (budget <? cost_cents) "V7" "budget insufficient".

Definition v9_version (eat : dict) : res eat_err unit :=
  reject_if (negb (is_str (dget eat "eat_version") "1.0")) "V9" "unknown eat_version".

Definition v10_audience (eat : dict) : res eat_err unit :=
  reject_if (negb (is_str (dget eat "audience") audience)) "V10" "audience mismatch".

Definition lift_eat {A} (m : res eat_err A) : G A := fun w => match m with Ok a => Ret a w | Err e => Raise e w end.

(** The rules in order; V8 is V4. *)
Definition eat_rules (wall mono : Z) (eat : dict) (action : string) (cost_cents : Z) : G unit :=
  do! lift_eat (v1_signature eat) in
  do! lift_eat (v2_hash eat) in
  do! lift_eat (v3_expiry wall eat) in
  do! v4_nonce mono eat in
  do! lift_eat (v5_directive eat) in
  do! lift_eat (v6_scope action eat) in
  do! lift_eat (v7_budget cost_cents eat) in
  do! lift_eat (v9_version eat) in
  lift_eat (v10_audience eat).

(** [require_eat]: a violation is audited, except that of a missing token. *)
Definition require_eat (wall mono : Z) (eat : option dict) (action : string) (cost_cents : Z) : G unit :=
  match eat with
  | None => eraise (EATVerificationError "V0" "execution authorization token is missing")
  | Some eat => fun w =>
    match eat_rules wall mono eat action cost_cents w with
    | Raise (EATVerificationError rule detail) w' =>
        Raise (EATVerificationError rule detail)
          (mk_edge (eg_seen w') (eg_violations w' ++ [(rule, detail, dget eat "eat_id")]))
    | o => o
    end
  end.
End gateway.

(** ** The cache *)

(** A nonce is remembered at least until [until]. *)
Definition remembered (nonce : string) (until : Z) (seen : nonce_cache) : Prop :=
  exists t, seen !! nonce = Some t /\ until <= t.

Lemma live_lookup now seen nonce t : evict_expired now seen !! nonce = Some t <-> seen !! nonce = Some t /\ now < t.
Proof. unfold evict_expired. by rewrite map_lookup_filter_Some. Qed.

Lemma remembered_step nonce until mono n ttl seen :
  mono < until -> remembered nonce until seen -> remembered nonce until (check_and_store n ttl mono seen).2.
Proof.
  intros Hm (t & Ht & Hu). exists t. split; [|done].
  assert (Hl : evict_expired mono seen !! nonce = Some t) by (apply live_lookup; split; [done|lia]).
  unfold check_and_store. destruct (evict_expired mono seen !! n) eqn:En; [done|]. simpl.
  rewrite lookup_insert_ne; [done|]. intros ->. congruence.
Qed.

Lemma stored_remembered nonce ttl mono seen :
  (check_and_store nonce ttl mono seen).1 = false ->
  remembered nonce (mono + ttl * 1000000) (check_and_store nonce ttl mono seen).2.
Proof.
  unfold check_and_store. destruct (evict_expired mono seen !! nonce) eqn:E; [done|]. intros _. simpl.
  exists (mono + ttl * 1000000). by rewrite lookup_insert_eq.
Qed.

(** ** The gateway *)
Section edge.
Context `{EiWorld} (key audience : string).
Local Abbreviation require := (require_eat key audience).

Lemma lift_eat_bind {A} (m : res eat_err unit) (k : G A) w :
  ebind (lift_eat m) (fun _ => k) w = match m with Ok _ => k w | Err e => Raise e w end.
Proof. unfold ebind, lift_eat. by destruct m. Qed.

Lemma v4_bind {A} mono eat (k : G A) w :
  ebind (v4_nonce mono eat) (fun _ => k) w =
  match nonce_of eat with
  | Err e => Raise e w
  | Ok (nonce, ttl) =>
    if (check_and_store nonce ttl mono (eg_seen w)).1
    then Raise (EATVerificationError "V4" "nonce has already been consumed (replay detected)")
           (mk_edge (check_and_store nonce ttl mono (eg_seen w)).2 (eg_violations w))
    else k (mk_edge (check_and_store nonce ttl mono (eg_seen w)).2 (eg_violations w))
  end.
Proof.
  unfold ebind, v4_nonce. destruct (nonce_of eat) as [[n ttl]|]; [|done]. by destruct (check_and_store n ttl mono (eg_seen w)).1.
Qed.

(** The rules as two lists of checks around the test-and-set. *)
Definition checks_before (wall : Z) (eat : dict) : res eat_err unit :=
  do? v1_signature key eat in do? v2_hash eat in v3_expiry wall eat.
Definition checks_after (eat : dict) (action : string) (cost : Z) : res eat_err unit :=
  do? v5_directive eat in do? v6_scope action eat in do? v7_budget cost eat in do? v9_version eat in v10_audience audience eat.

Lemma eat_rules_checks wall mono eat action cost w :
  eat_rules key audience wall mono eat action cost w =
  match checks_before wall eat with
  | Err e => Raise e w
  | Ok _ => ebind (v4_nonce mono eat) (fun _ => lift_eat (checks_after eat action cost)) w
  end.
Proof.
  assert (Hl : forall A (m : res eat_err unit) (k : G A) w0,
    ebind (lift_eat m) (fun _ => k) w0 = match m with Ok _ => k w0 | Err e => Raise e w0 end) by apply @lift_eat_bind.
  unfold eat_rules, checks_before. rewrite Hl. destruct (v1_signature key eat); [cbn [rbind]|done]. rewrite Hl.
  destruct (v2_hash eat); [cbn [rbind]|done]. rewrite Hl. destruct (v3_expiry wall eat); [|done]. rewrite !v4_bind.
  destruct (nonce_of eat) as [[n ttl]|]; [|done]. destruct (check_and_store _ _ _ _).1; [done|]. unfold checks_after.
  rewrite Hl. destruct (v5_directive eat); [cbn [rbind]|done]. rewrite Hl. destruct (v6_scope action eat); [cbn [rbind]|done].
  rewrite Hl. destruct (v7_budget cost eat); [cbn [rbind]|done]. rewrite Hl. by destruct (v9_version eat).
Qed.

(** What a presentation does: it answers, after nothing or one test-and-set. *)
Lemma require_seen wall mono eat action cost w :
  (forall w', require wall mono eat action cost w <> Crash w')
  /\ (eg_seen (oworld (require wall mono eat action cost w)) = eg_seen w
      \/ exists n ttl, eg_seen (oworld (require wall mono eat action cost w)) = (check_and_store n ttl mono (eg_seen w)).2).
Proof.
  destruct eat as [eat|]; [|by split; [|left]]. unfold require_eat. rewrite eat_rules_checks, v4_bind.
  destruct (checks_before wall eat) as [u|[? ?|]]; [|by split; [|left]..].
  destruct (nonce_of eat) as [[n ttl]|[? ?|]]; [|by split; [|left]..].
  destruct (check_and_store n ttl mono (eg_seen w)) as [[] s] eqn:Es; cbn [fst snd].
  - split; [done|]. right. exists n, ttl. by rewrite Es.
  - unfold lift_eat. destruct (checks_after eat action cost) as [?|[? ?|]]; (split; [done|]); right; exists n, ttl; by rewrite Es.
Qed.

(** Acceptance: every rule held, and the nonce was new. *)
Lemma require_accepted wall mono eat action cost w w' :
  require wall mono (Some eat) action cost w = Ret tt w' <->
  checks_before wall eat = Ok tt /\ checks_after eat action cost = Ok tt
  /\ exists nonce ttl, nonce_of eat = Ok (nonce, ttl) /\ (check_and_store nonce ttl mono (eg_seen w)).1 = false
       /\ w' = mk_edge (check_and_store nonce ttl mono (eg_seen w)).2 (eg_violations w).
Proof.
  unfold require_eat. rewrite eat_rules_checks, v4_bind. split.
  - destruct (checks_before wall eat) as [[]|[? ?|]]; [|done..]. destruct (nonce_of eat) as [[n ttl]|[? ?|]]; [|done..].
    destruct (check_and_store n ttl mono (eg_seen w)) as [[] s] eqn:Es; cbn [fst snd]; [done|]. unfold lift_eat.
    destruct (checks_after eat action cost) as [[]|[? ?|]]; [|done..]. intros [= <-]. split; [done|]. split; [done|].
    exists n, ttl. by rewrite Es.
  - intros (-> & Ha & n & ttl & -> & Hc & ->). rewrite Hc. unfold lift_eat. by rewrite Ha.
Qed.

(** A presentation of any token whose nonce check reads a time before
    [until]; the expiry check may have read any time. *)
Inductive present (until : Z) (w : edge) : edge -> Prop :=
  | present_at wall mono eat action cost : mono < until -> present until w (oworld (require wall mono eat action cost w)).

Lemma present_kept nonce until w w' :
  remembered nonce until (eg_seen w) -> present until w w' -> remembered nonce until (eg_seen w').
Proof.
  intros Hr [wall mono eat action cost Hm].
  by destruct (require_seen wall mono eat action cost w) as [_ [->|(n & ttl & ->)]]; [|apply remembered_step].
Qed.

(** A remembered nonce is refused, and so is an expired token. *)
Lemma replay_refused nonce ttl until wall mono eat action cost w :
  nonce_of eat = Ok (nonce, ttl) -> (mono < until /\ remembered nonce until (eg_seen w)) \/ v3_expiry wall eat <> Ok tt ->
  exists e w', require wall mono (Some eat) action cost w = Raise e w'.
Proof.
  intros Hn Hr. destruct (require wall mono (Some eat) action cost w) as [[] w'|e w'|w'] eqn:E; [|by eexists _, _|].
  - exfalso. apply require_accepted in E as (Hb & _ & n & l & Hn' & Hc & _).
    assert (H3 : v3_expiry wall eat = Ok tt) by (unfold checks_before in Hb; by res_inv Hb).
    rewrite Hn in Hn'. injection Hn' as <- <-. destruct Hr as [(Hm & t & Ht & Hut)|He]; [|done]. unfold check_and_store in Hc.
    assert (Hl : evict_expired mono (eg_seen w) !! nonce = Some t) by (apply live_lookup; split; [done|lia]).
    by rewrite Hl in Hc.
  - by apply (proj1 (require_seen wall mono (Some eat) action cost w)) in E.
Qed.
End edge.

(** ** Minted tokens *)
Section minted.
Context `{EiLaws} (o : orchestrator).
Local Abbreviation require := (require_eat (o_signing_key o) "cappo-edge-mcp").

(** What the identity permits. *)
Definition directive_permits (ei : dict) : Prop := dget ei "directive" = JStr "ALLOW" \/ dget ei "directive" = JStr "ALLOW_WITH_AUDIT".
Definition scope_permits (ei : dict) (action : string) : Prop :=
  action = "" \/ exists m tools, dget ei "scope" = JObj m /\ dget m "tools" = JArr tools /\ JStr action ∈ tools.
Definition budget_permits (ei : dict) (cost : Z) : Prop :=
  cost <= 0 \/ exists b, dget ei "budget_approved_cents" = JInt b /\ cost <= b.

Lemma is_str_refl s : is_str (JStr s) s = true.
Proof. simpl. apply str_eqb_refl. Qed.

Lemma eat_build_inv ei agent cert trust tier id nonce now eat :
  eat_build ei agent cert trust tier id nonce (o_signing_key o) now = Ok eat ->
  eat = eat_body ei agent cert trust tier id nonce now
        ++ [("hash", JStr (sha256_json (JObj (eat_body ei agent cert trust tier id nonce now))));
            ("signature", JStr (sign_payload_ed25519 (eat_body ei agent cert trust tier id nonce now) (o_signing_key o)))].
Proof.
  unfold eat_build. intros He. repeat (case_match; [done|]). by injection He as <-.
Qed.

Lemma minted_checks_before ei agent cert trust tier id nonce now wall eat :
  eat_build ei agent cert trust tier id nonce (o_signing_key o) now = Ok eat -> spki_public (o_signing_key o) = None ->
  wall < now + 300 * 1000000 -> checks_before (o_signing_key o) wall eat = Ok tt.
Proof.
  intros He Hk Hw. apply eat_build_inv in He as ->. set (body := eat_body ei agent cert trust tier id nonce now).
  unfold checks_before, v1_signature, v2_hash.
  change (canonical_body (body ++ [("hash", ?h); ("signature", ?s)])) with body.
  change (dget_or (body ++ [("hash", ?h); ("signature", ?s)]) "signature" ?d) with s.
  change (dget (body ++ [("hash", ?h); ("signature", ?s)]) "hash") with h.
  rewrite signature_verifies by done. rstep_to tt. rewrite is_str_refl. rstep_to tt.
  unfold v3_expiry. change (dget (body ++ ?x) "temporal") with
    (JObj [("issued_at", JStr (iso now)); ("expires_at", JStr (iso (now + 300 * 1000000))); ("ttl_seconds", JInt 300)]).
  cbn [dict_or truthy rbind]. change (dget (_ :: ("expires_at", ?v) :: _) "expires_at") with v.
  assert (Hn : truthy (JStr (iso (now + 300 * 1000000))) = true).
  { simpl. rewrite negb_true_iff, str_eqb_neq. apply iso_nonempty. }
  rewrite Hn. rstep_to tt. rewrite iso_parses. apply raise_if_Ok, Z.leb_gt. lia.
Qed.

Lemma minted_checks_after ei agent cert trust tier id nonce now eat action cost :
  eat_build ei agent cert trust tier id nonce (o_signing_key o) now = Ok eat ->
  directive_permits ei -> scope_permits ei action -> budget_permits ei cost ->
  checks_after "cappo-edge-mcp" eat action cost = Ok tt.
Proof.
  intros He Hd Hs Hb. apply eat_build_inv in He as ->. set (body := eat_body ei agent cert trust tier id nonce now).
  set (eat := body ++ _). assert (Hauth : dict_or (dget eat "authorization") = Ok
    [("directive", dget ei "directive"); ("scope", dget ei "scope"); ("budget_approved_cents", dget ei "budget_approved_cents");
     ("budget_reserve_cents", dget_or ei "budget_reserve_cents" (JInt 0)); ("single_use", JBool true)]) by done.
  unfold checks_after. apply rbind_Ok. exists tt. split; [|apply rbind_Ok; exists tt; split;
    [|apply rbind_Ok; exists tt; split; [|apply rbind_Ok; exists tt; split; done]]].
  - unfold v5_directive. rewrite Hauth. cbn [rbind]. change (dget (("directive", ?v) :: _) "directive") with v.
    apply raise_if_Ok. by destruct Hd as [-> | ->].
  - unfold v6_scope. destruct (str_eqb action "") eqn:Ea; [done|]. apply str_eqb_neq in Ea.
    destruct Hs as [?|(m & tools & Hm & Ht & Hin)]; [done|]. rewrite Hauth. cbn [rbind].
    change (dget (_ :: ("scope", ?v) :: _) "scope") with v. rewrite Hm.
    assert (Hne : m <> []) by (intros ->; done). assert (Htn : tools <> []) by (intros ->; by apply elem_of_nil in Hin).
    assert (Hdm : dict_or (JObj m) = Ok m) by (by destruct m). rewrite Hdm. cbn [rbind]. rewrite Ht.
    assert (Htt : truthy (JArr tools) = true) by (by destruct tools). rewrite Htt. cbn [negb]. apply raise_if_Ok, negb_false_iff.
    apply existsb_exists. exists (JStr action). split; [by apply list_elem_of_In|apply is_str_refl].
  - unfold v7_budget. destruct (cost <=? 0) eqn:Ec; [done|]. apply Z.leb_gt in Ec. destruct Hb as [?|(b & Hb & Hcb)]; [lia|].
    rewrite Hauth. cbn [rbind]. change (dget (_ :: _ :: ("budget_approved_cents", ?v) :: _) "budget_approved_cents") with v.
    rewrite Hb. assert (Hpo : py_or (JInt b) (JInt 0) = JInt b).
    { unfold py_or. simpl. destruct (b =? 0) eqn:E0; [|done]. apply Z.eqb_eq in E0. by subst. }
    rewrite Hpo. cbn [int_of rbind]. apply raise_if_Ok, Z.ltb_ge. lia.
Qed.

Lemma minted_nonce ei agent cert trust tier id nonce now eat :
  eat_build ei agent cert trust tier id nonce (o_signing_key o) now = Ok eat -> nonce <> "" -> nonce_of eat = Ok (nonce, 300).
Proof.
  intros He Hn. apply eat_build_inv in He as ->. unfold nonce_of.
  change (dget (eat_body ei agent cert trust tier id nonce now ++ ?x) "nonce") with (JStr nonce).
  assert (Ht : truthy (JStr nonce) = true) by (simpl; by rewrite negb_true_iff, str_eqb_neq). rewrite Ht. by rstep_to tt.
Qed.

Lemma minted_expires ei agent cert trust tier id nonce now wall eat :
  eat_build ei agent cert trust tier id nonce (o_signing_key o) now = Ok eat -> now + 300 * 1000000 <= wall -> v3_expiry wall eat <> Ok tt.
Proof.
  intros He Hw. apply eat_build_inv in He as ->. unfold v3_expiry.
  change (dget (eat_body ei agent cert trust tier id nonce now ++ ?x) "temporal") with
    (JObj [("issued_at", JStr (iso now)); ("expires_at", JStr (iso (now + 300 * 1000000))); ("ttl_seconds", JInt 300)]).
  cbn [dict_or truthy rbind]. change (dget (_ :: ("expires_at", ?v) :: _) "expires_at") with v. intros Hv.
  apply rbind_Ok in Hv as (u & _ & Hv). rewrite iso_parses in Hv. apply raise_if_Ok, Z.leb_gt in Hv. lia.
Qed.

(** C8: a minted token is good once.  Presented before its expiry, for an action
    and a cost its identity permits, with a nonce the cache does not hold, it is
    accepted.  Afterwards it is refused, for whatever it asks: as long as no
    nonce check, its own included, has read a monotonic time 300 seconds or
    more after that of the acceptance, whatever tokens were presented meanwhile
    and whatever the wall clock shows; and in any state once its expiry check
    reads a wall clock at or after the expiry.  What is left is a presentation
    that passes the expiry check although the 300 seconds of the nonce are
    over: a wall clock that was set back, or a thread that stalled between the
    two checks. *)
Theorem minted_eat_accepted_once ei agent cert trust tier id nonce now wall mono eat action cost w :
  eat_build ei agent cert trust tier id nonce (o_signing_key o) now = Ok eat -> spki_public (o_signing_key o) = None -> nonce <> "" ->
  directive_permits ei -> scope_permits ei action -> budget_permits ei cost ->
  wall < now + 300 * 1000000 -> eg_seen w !! nonce = None ->
  exists w1, require wall mono (Some eat) action cost w = Ret tt w1
    /\ (forall w2 wall' mono' action' cost',
          steps (present (o_signing_key o) "cappo-edge-mcp" (mono + 300 * 1000000)) w1 w2 -> mono' < mono + 300 * 1000000 ->
          exists e w3, require wall' mono' (Some eat) action' cost' w2 = Raise e w3)
    /\ (forall w2 wall' mono' action' cost', now + 300 * 1000000 <= wall' ->
          exists e w3, require wall' mono' (Some eat) action' cost' w2 = Raise e w3).
Proof.
  intros He Hk Hn Hd Hs Hb Hw Hf. assert (Hno := minted_nonce _ _ _ _ _ _ _ _ _ He Hn).
  assert (Hc : (check_and_store nonce 300 mono (eg_seen w)).1 = false).
  { unfold check_and_store. destruct (evict_expired mono (eg_seen w) !! nonce) eqn:E; [|done]. apply live_lookup in E as [E _].
    by rewrite Hf in E. }
  eexists. split; [|split].
  - apply require_accepted. split; [by eapply minted_checks_before|].
    split; [by eapply minted_checks_after|]. exists nonce, 300. by repeat split.
  - intros w2 wall' mono' action' cost' Hst Hm. eapply (replay_refused _ _ nonce 300 (mono + 300 * 1000000)); [exact Hno|left].
    split; [done|]. eapply (steps_invariant _ (fun w => remembered nonce _ (eg_seen w))); [apply present_kept| |exact Hst].
    by apply stored_remembered.
  - intros w2 wall' mono' action' cost' Hx. eapply (replay_refused _ _ nonce 300 0); [exact Hno|right].
    by eapply minted_expires.
Qed.

(** What is left happens: with the expiry check made before the expiry and the
    nonce check after 300 seconds, the token is accepted again. *)
Example stalled_replay ei agent cert trust tier id nonce now wall mono mono' eat action cost w w1 :
  eat_build ei agent cert trust tier id nonce (o_signing_key o) now = Ok eat -> nonce <> "" ->
  require wall mono (Some eat) action cost w = Ret tt w1 -> mono + 300 * 1000000 <= mono' ->
  exists w2, require wall mono' (Some eat) action cost w1 = Ret tt w2.
Proof.
  intros He Hn Hr Hm. apply require_accepted in Hr as (Hb & Ha & n & ttl & Hno & Hc & ->). eexists. apply require_accepted.
  split; [done|]. split; [done|]. exists n, ttl. split; [done|]. split; [|done].
  assert (Hno' := minted_nonce _ _ _ _ _ _ _ _ _ He Hn). rewrite Hno in Hno'. injection Hno' as -> ->.
  cbn [eg_seen]. revert Hc. unfold check_and_store. destruct (evict_expired mono (eg_seen w) !! nonce) eqn:E; [done|]. intros _. simpl.
  destruct (evict_expired mono' _ !! nonce) eqn:E2; [|done]. apply live_lookup in E2 as [E2 Hl].
  rewrite lookup_insert_eq in E2. injection E2 as <-. lia.
Qed.
End minted.
