(* ===== verification/Budget.v ===== *)
(** * The budget ledger (execution/budget_ledger.py)

    Holds against a workspace's balance and their settlement, with its audit
    event.  An operation locks the rows it reads and runs in its caller's
    transaction, so it is one step, and an exception leaves the tables as they
    were.  Drawn audit ids and times are arguments.

    Money is conserved by the ledger's own operations, and a hold is settled at
    most once, with one payment and one audit event.  The balance has another
    writer, the payment gate's set_budget (services/payment_gate.py, from
    api/routers/admin_router.py), under which a hold may be uncovered. *)

From Stdlib Require Import ZArith Lia Ascii String.
From stdpp Require Import base gmap strings list pretty.
From S2P Require Import Prelude Canon PyJson Ledger.

Local Open Scope Z_scope.

(** ** The tables *)

Inductive HoldStatus := ACTIVE | SETTLED | RELEASED.
#[export] Instance HoldStatus_eq_dec : EqDecision HoldStatus.
Proof. solve_decision. Defined.

Record WorkspaceBudgetHold := mk_hold { h_workspace_id : string; h_amount_cents : Z; h_status : HoldStatus }.

Record X402ConsumedPayment := mk_payment {
  x_tx_hash : string; x_wallet_address : string; x_endpoint : string; x_amount_usdc : string; x_execution_id : string }.

Record bank := mk_bank {
  b_balances : gmap string Z; b_holds : gmap string WorkspaceBudgetHold; b_payments : list X402ConsumedPayment;
  b_audit : audit_state }.

Inductive budget_err :=
  | ValueError
  | BudgetLedgerError (m : string)
  | InsufficientBudget (m : string)
  | SettlementConflict (m : string)
  | NoResultFound
  | IntegrityError.

Record SettlementResult := mk_settlement {
  sr_execution_id : string; sr_amount_cents : Z; sr_ledger_id : string; sr_audit_hash : string; sr_already_settled : bool }.

(** What a hold takes out of a workspace's spendable balance. *)
Definition held (workspace_id : string) (h : WorkspaceBudgetHold) : Z :=
  if bool_decide (h_workspace_id h = workspace_id /\ h_status h = ACTIVE) then h_amount_cents h else 0.
Definition active_holds (workspace_id : string) (holds : gmap string WorkspaceBudgetHold) : Z :=
  map_fold (fun _ h acc => held workspace_id h + acc) 0 holds.

Definition set_status (h : WorkspaceBudgetHold) (s : HoldStatus) : WorkspaceBudgetHold :=
  mk_hold (h_workspace_id h) (h_amount_cents h) s.
Definition set_holds (b : bank) (holds : gmap string WorkspaceBudgetHold) : bank :=
  mk_bank (b_balances b) holds (b_payments b) (b_audit b).

Section ledger.
Context `{Ext}.

Definition reserve (execution_id workspace_id : string) (amount_cents : Z) (b : bank)
    : res budget_err (WorkspaceBudgetHold * bank) :=
  if amount_cents <=? 0 then Err ValueError
  else match b_balances b !! workspace_id with
  | None => Err (BudgetLedgerError "workspace budget is not configured")
  | Some balance =>
    match b_holds b !! execution_id with
    | Some existing =>
      if bool_decide (h_workspace_id existing <> workspace_id \/ h_amount_cents existing <> amount_cents)
      then Err (SettlementConflict "execution_id already has a different budget hold")
      else Ok (existing, b)
    | None =>
      if balance - active_holds workspace_id (b_holds b) <? amount_cents
      then Err (InsufficientBudget "insufficient spendable workspace balance")
      else let hold := mk_hold workspace_id amount_cents ACTIVE in
           Ok (hold, set_holds b (<[execution_id := hold]> (b_holds b)))
    end
  end.

(** [f"{cents / 100:.2f}"], for amounts a float holds exactly. *)
Definition usdc (cents : Z) : string :=
  let c := cents mod 100 in
  pretty (cents / 100) +:+ "." +:+ (if c <? 10 then "0" else "") +:+ pretty c.

Definition SETTLED_EVENT : string := "n8n_local_budget_settled".

(** [_settlement_audit]. *)
Definition settlement_audit (execution_id : string) (rows : list AuditEvent) : option AuditEvent :=
  find (fun e => bool_decide (av_operation_type e = SETTLED_EVENT /\ av_run_id e = Some execution_id)) rows.

Definition payment_of (execution_id : string) (payments : list X402ConsumedPayment) : option X402ConsumedPayment :=
  find (fun p => str_eqb (x_execution_id p) execution_id) payments.

Definition local_ledger_id (execution_id evidence_hash : string) (amount_cents : Z) : string :=
  "local-ledger:" +:+ sha256_hex (execution_id +:+ ":" +:+ evidence_hash +:+ ":" +:+ pretty amount_cents).

Definition settlement_payload (execution_id evidence_hash ledger_id : string) (amount_cents : Z) : json :=
  JObj [("execution_id", JStr execution_id); ("amount_cents", JInt amount_cents); ("evidence_hash", JStr evidence_hash);
        ("ledger_id", JStr ledger_id); ("settlement_network", JStr "local-ledger"); ("onchain_x402_verified", JBool false)].

Definition settle_local (execution_id evidence_hash endpoint log_id : string) (now : Z) (b : bank)
    : res budget_err (SettlementResult * bank) :=
  match b_holds b !! execution_id with
  | None => Err (BudgetLedgerError "budget hold does not exist")
  | Some hold =>
    let amount := h_amount_cents hold in
    if bool_decide (h_status hold = RELEASED) then Err (SettlementConflict "released hold cannot be settled")
    else match payment_of execution_id (b_payments b) with
    | Some existing =>
      if bool_decide (x_amount_usdc existing <> usdc amount \/ x_endpoint existing <> endpoint)
      then Err (SettlementConflict "existing settlement does not match requested settlement")
      else match settlement_audit execution_id (as_rows (b_audit b)) with
           | None => Err (SettlementConflict "settlement exists without its audit evidence")
           | Some audit => Ok (mk_settlement execution_id amount (x_tx_hash existing) (av_log_hash audit) true, b)
           end
    | None =>
      match b_balances b !! h_workspace_id hold with
      | None => Err NoResultFound
      | Some balance =>
        if balance <? amount then Err (InsufficientBudget "reserved balance is no longer available")
        else
          let ledger_id := local_ledger_id execution_id evidence_hash amount in
          if existsb (fun p => str_eqb (x_tx_hash p) ledger_id) (b_payments b) then Err IntegrityError
          else
            let payment := mk_payment ledger_id (h_workspace_id hold) endpoint (usdc amount) execution_id in
            let recorded := record SETTLED_EVENT (settlement_payload execution_id evidence_hash ledger_id amount)
                              (Some (h_workspace_id hold)) (Some execution_id) log_id now (b_audit b) in
            Ok (mk_settlement execution_id amount ledger_id (av_log_hash recorded.1) false,
                mk_bank (<[h_workspace_id hold := balance - amount]> (b_balances b))
                  (<[execution_id := set_status hold SETTLED]> (b_holds b)) (b_payments b ++ [payment]) recorded.2)
      end
    end
  end.

Definition release (execution_id : string) (b : bank) : res budget_err (WorkspaceBudgetHold * bank) :=
  match b_holds b !! execution_id with
  | None => Err (BudgetLedgerError "budget hold does not exist")
  | Some hold =>
    if bool_decide (h_status hold = SETTLED) then Err (SettlementConflict "settled hold cannot be released")
    else let hold' := set_status hold RELEASED in
         Ok (hold', set_holds b (<[execution_id := hold']> (b_holds b)))
  end.

(** [PaymentGate.set_budget], on the same table: an administrator's balance,
    whatever is held. *)
Definition set_budget (workspace_id : string) (balance_cents : Z) (b : bank) : bank :=
  mk_bank (<[workspace_id := balance_cents]> (b_balances b)) (b_holds b) (b_payments b) (b_audit b).
End ledger.

(** ** Sums over the holds *)

Definition hold_sum (f : WorkspaceBudgetHold -> Z) (holds : gmap string WorkspaceBudgetHold) : Z :=
  map_fold (fun _ h acc => f h + acc) 0 holds.

Lemma hold_sum_new f holds k h : holds !! k = None -> hold_sum f (<[k := h]> holds) = f h + hold_sum f holds.
Proof. intros Hk. unfold hold_sum. rewrite map_fold_insert_L; [done| |done]. intros. lia. Qed.

Lemma hold_sum_update f holds k h h' :
  holds !! k = Some h -> hold_sum f (<[k := h']> holds) = hold_sum f holds - f h + f h'.
Proof.
  intros Hk. rewrite <- (insert_delete_eq holds k h') . rewrite hold_sum_new by apply lookup_delete_eq.
  rewrite <- (insert_id holds k h Hk) at 2. rewrite <- (insert_delete_eq holds k h).
  rewrite (hold_sum_new _ (delete k holds)) by apply lookup_delete_eq. lia.
Qed.

Lemma hold_sum_nonneg f holds : (forall k h, holds !! k = Some h -> 0 <= f h) -> 0 <= hold_sum f holds.
Proof.
  unfold hold_sum. apply (map_fold_weak_ind (fun acc m => (forall k h, m !! k = Some h -> 0 <= f h) -> 0 <= acc)); [done|].
  intros k h m acc Hk IH Hf. pose proof (Hf k h ltac:(apply lookup_insert_eq)). 
  specialize (IH ltac:(intros k' h' Hk'; apply (Hf k'); rewrite lookup_insert_ne; [done|congruence])). lia.
Qed.

(** What a hold has taken out of a workspace for good. *)
Definition settled (workspace_id : string) (h : WorkspaceBudgetHold) : Z :=
  if bool_decide (h_workspace_id h = workspace_id /\ h_status h = SETTLED) then h_amount_cents h else 0.
Definition paid (workspace_id : string) (b : bank) : Z := hold_sum (settled workspace_id) (b_holds b).

(** The settlement events and the payments of an execution. *)
Definition settlement_event (execution_id : string) (e : AuditEvent) : Prop :=
  av_operation_type e = SETTLED_EVENT /\ av_run_id e = Some execution_id.
#[export] Instance settlement_event_dec execution_id e : Decision (settlement_event execution_id e).
Proof. unfold settlement_event. apply _. Defined.

Definition events_of (execution_id : string) (b : bank) : list AuditEvent :=
  filter (settlement_event execution_id) (as_rows (b_audit b)).
Definition payments_of (execution_id : string) (b : bank) : list X402ConsumedPayment :=
  filter (fun p => x_execution_id p = execution_id) (b_payments b).

Definition is_settled (execution_id : string) (b : bank) : bool :=
  match b_holds b !! execution_id with Some h => bool_decide (h_status h = SETTLED) | None => false end.

(** A ledger before its first hold. *)
Definition opened (b : bank) : Prop :=
  b_holds b = ∅ /\ b_payments b = [] /\ (forall e, events_of e b = []) /\ forall ws bal, b_balances b !! ws = Some bal -> 0 <= bal.

Section properties.
Context `{Ext}.

(** Committed operations, in the order of their commits, and the events other
    components record. *)
Inductive ledger_step : bank -> bank -> Prop :=
  | did_reserve b execution_id workspace_id amount h b' :
      reserve execution_id workspace_id amount b = Ok (h, b') -> ledger_step b b'
  | did_settle b execution_id evidence endpoint log_id now r b' :
      settle_local execution_id evidence endpoint log_id now b = Ok (r, b') -> ledger_step b b'
  | did_release b execution_id h b' : release execution_id b = Ok (h, b') -> ledger_step b b'
  | did_audit b operation_type payload workspace_id run_id log_id now :
      operation_type <> SETTLED_EVENT ->
      ledger_step b (mk_bank (b_balances b) (b_holds b) (b_payments b)
                       (record operation_type payload workspace_id run_id log_id now (b_audit b)).2).

(** All writers of the tables: the ledger's operations and the administrator. *)
Inductive bank_step : bank -> bank -> Prop :=
  | did_ledger b b' : ledger_step b b' -> bank_step b b'
  | did_set_budget b workspace_id balance_cents : bank_step b (set_budget workspace_id balance_cents b).

(** ** What each operation does *)

Lemma reserve_inv execution_id workspace_id amount b h b' :
  reserve execution_id workspace_id amount b = Ok (h, b') ->
  b' = b \/ (0 < amount /\ b_holds b !! execution_id = None /\ h = mk_hold workspace_id amount ACTIVE
     /\ b' = set_holds b (<[execution_id := h]> (b_holds b))
     /\ exists balance, b_balances b !! workspace_id = Some balance
        /\ amount + active_holds workspace_id (b_holds b) <= balance).
Proof.
  unfold reserve. destruct (amount <=? 0) eqn:Ea; [done|]. apply Z.leb_gt in Ea.
  destruct (b_balances b !! workspace_id) as [balance|]; [|done].
  destruct (b_holds b !! execution_id) as [ex|]; [case_bool_decide; [done|]; intros [= <- <-]; by left|].
  destruct (_ <? amount) eqn:El; [done|]. apply Z.ltb_ge in El. intros [= <- <-]. right. repeat (split; [done|]).
  exists balance. split; [done|lia].
Qed.

Lemma release_inv execution_id b h' b' :
  release execution_id b = Ok (h', b') ->
  exists h, b_holds b !! execution_id = Some h /\ h_status h <> SETTLED /\ h' = set_status h RELEASED
    /\ b' = set_holds b (<[execution_id := h']> (b_holds b)).
Proof.
  unfold release. destruct (b_holds b !! execution_id) as [h|]; [|done]. case_bool_decide; [done|]. intros [= <- <-]. by exists h.
Qed.

(** The new payment of a settlement. *)
Definition new_payment (execution_id evidence endpoint : string) (h : WorkspaceBudgetHold) : X402ConsumedPayment :=
  mk_payment (local_ledger_id execution_id evidence (h_amount_cents h)) (h_workspace_id h) endpoint (usdc (h_amount_cents h))
    execution_id.

(** A settlement is the first one or changes nothing. *)
Lemma settle_inv execution_id evidence endpoint log_id now b r b' :
  settle_local execution_id evidence endpoint log_id now b = Ok (r, b') ->
  (b' = b /\ sr_already_settled r = true) \/
  (exists h balance e, b_holds b !! execution_id = Some h /\ h_status h <> RELEASED
     /\ payment_of execution_id (b_payments b) = None /\ b_balances b !! h_workspace_id h = Some balance
     /\ h_amount_cents h <= balance
     /\ r = mk_settlement execution_id (h_amount_cents h) (local_ledger_id execution_id evidence (h_amount_cents h)) (av_log_hash e) false
     /\ settlement_event execution_id e
     /\ b_balances b' = <[h_workspace_id h := balance - h_amount_cents h]> (b_balances b)
     /\ b_holds b' = <[execution_id := set_status h SETTLED]> (b_holds b)
     /\ b_payments b' = b_payments b ++ [new_payment execution_id evidence endpoint h]
     /\ as_rows (b_audit b') = as_rows (b_audit b) ++ [e]).
Proof.
  unfold settle_local. destruct (b_holds b !! execution_id) as [h|]; [|done]. case_bool_decide as Hr; [done|].
  destruct (payment_of _ _) as [p|] eqn:Ep.
  { case_bool_decide; [done|]. destruct (settlement_audit _ _); [|done]. intros [= <- <-]. by left. }
  destruct (b_balances b !! h_workspace_id h) as [balance|] eqn:Eb; [|done].
  destruct (balance <? h_amount_cents h) eqn:El; [done|]. apply Z.ltb_ge in El.
  destruct (existsb _ _); [done|]. intros [= <- <-]. right.
  exists h, balance, (record SETTLED_EVENT (settlement_payload execution_id evidence
    (local_ledger_id execution_id evidence (h_amount_cents h)) (h_amount_cents h)) (Some (h_workspace_id h)) (Some execution_id)
    log_id now (b_audit b)).1.
  by repeat (split; [done|]).
Qed.

(** ** The invariants *)

(** What every writer keeps: holds have an amount and a balance row, and
    payments and audit events are those of the settled holds. *)
Record booked (b : bank) : Prop := mk_booked {
  bk_hold e h : b_holds b !! e = Some h -> 0 < h_amount_cents h /\ is_Some (b_balances b !! h_workspace_id h);
  bk_payments e : length (payments_of e b) = Nat.b2n (is_settled e b);
  bk_events e : length (events_of e b) = Nat.b2n (is_settled e b);
  bk_payment p : p ∈ b_payments b ->
    exists h, b_holds b !! x_execution_id p = Some h /\ h_status h = SETTLED /\ x_wallet_address p = h_workspace_id h
      /\ x_amount_usdc p = usdc (h_amount_cents h) }.

(** What the ledger's operations keep besides. *)
Record sound (b0 b : bank) : Prop := mk_sound {
  sd_conserved ws : b_balances b !! ws = (fun start => start - paid ws b) <$> b_balances b0 !! ws;
  sd_covered ws bal : b_balances b !! ws = Some bal -> active_holds ws (b_holds b) <= bal;
  sd_booked : booked b }.

Lemma find_filter_nil {A} (f : A -> bool) (P : A -> Prop) `{forall x, Decision (P x)} l :
  (forall x, f x = true <-> P x) -> find f l = None <-> filter P l = [].
Proof.
  intros Hf. induction l as [|x l IH]; [done|]. simpl. rewrite filter_cons. destruct (f x) eqn:Ef.
  - rewrite decide_True by (by apply Hf). done.
  - rewrite decide_False by (rewrite <- Hf, Ef; done). done.
Qed.

Lemma payment_of_None e b : payment_of e (b_payments b) = None <-> payments_of e b = [].
Proof. apply find_filter_nil. intros p. apply str_eqb_spec. Qed.

Lemma settlement_audit_None e b : settlement_audit e (as_rows (b_audit b)) = None <-> events_of e b = [].
Proof. apply find_filter_nil. intros x. apply bool_decide_eq_true. Qed.

Lemma opened_booked b : opened b -> booked b.
Proof.
  intros (Hh & Hp & He & Hb). assert (Hs : forall e, is_settled e b = false) by (intros e; unfold is_settled; by rewrite Hh, lookup_empty).
  split.
  - intros e h. by rewrite Hh, lookup_empty.
  - intros e. unfold payments_of. by rewrite Hp, Hs.
  - intros e. by rewrite He, Hs.
  - intros p. rewrite Hp. by intros ?%elem_of_nil.
Qed.

Lemma opened_sound b : opened b -> sound b b.
Proof.
  intros Ho. pose proof Ho as (Hh & Hp & He & Hb). split; [..|by apply opened_booked].
  - intros ws. unfold paid, hold_sum. rewrite Hh, map_fold_empty. destruct (b_balances b !! ws); [|done]. simpl. f_equal. lia.
  - intros ws bal Hl. rewrite Hh. unfold active_holds. rewrite map_fold_empty. by eapply Hb.
Qed.

(** A hold that is not settled may be added or changed. *)
Lemma booked_holds b e h :
  booked b -> h_status h <> SETTLED -> 0 < h_amount_cents h -> is_settled e b = false -> is_Some (b_balances b !! h_workspace_id h) ->
  booked (set_holds b (<[e := h]> (b_holds b))).
Proof.
  intros [Hh Hp He Hq] Hn Ha Hns Hbal.
  assert (Hse : forall e', is_settled e' (set_holds b (<[e := h]> (b_holds b))) = is_settled e' b).
  { intros e'. unfold is_settled at 1. simpl. destruct (decide (e' = e)) as [->|?].
    - rewrite lookup_insert_eq, Hns. by apply bool_decide_eq_false.
    - by rewrite lookup_insert_ne. }
  split.
  - intros e' h'. simpl. destruct (decide (e' = e)) as [->|?]; [rewrite lookup_insert_eq|rewrite lookup_insert_ne by done; apply Hh].
    by intros [= <-].
  - intros e'. rewrite Hse. apply Hp.
  - intros e'. rewrite Hse. apply He.
  - intros p Hin. destruct (Hq p Hin) as (h' & Hl & Hst & Hw). exists h'. simpl. split; [|done].
    rewrite lookup_insert_ne; [done|]. intros ->. unfold is_settled in Hns. rewrite Hl in Hns. by apply bool_decide_eq_false in Hns.
Qed.

(** The same for a ledger whose sums it respects. *)
Lemma sound_holds b0 b e h :
  sound b0 b -> booked (set_holds b (<[e := h]> (b_holds b))) ->
  (forall ws, hold_sum (settled ws) (<[e := h]> (b_holds b)) = paid ws b) ->
  (exists bal, b_balances b !! h_workspace_id h = Some bal /\ active_holds (h_workspace_id h) (<[e := h]> (b_holds b)) <= bal) ->
  (forall ws, ws <> h_workspace_id h -> active_holds ws (<[e := h]> (b_holds b)) <= active_holds ws (b_holds b)) ->
  sound b0 (set_holds b (<[e := h]> (b_holds b))).
Proof.
  intros [Hc Hv Hbk] Hb' Hpaid (bal & Hbal & Hle) Hother. split; [| |done].
  - intros ws. unfold paid. simpl. rewrite Hpaid. apply Hc.
  - intros ws bal'. simpl. intros Hl. destruct (decide (ws = h_workspace_id h)) as [->|Hne].
    + by simplify_eq.
    + pose proof (Hv _ _ Hl). pose proof (Hother _ Hne). lia.
Qed.

(** The sums of one hold, by its status. *)
Lemma held_at ws h : held ws h = if bool_decide (h_workspace_id h = ws) then (if bool_decide (h_status h = ACTIVE) then h_amount_cents h else 0) else 0.
Proof. unfold held. by repeat case_bool_decide; naive_solver. Qed.
Lemma settled_at ws h : settled ws h = if bool_decide (h_workspace_id h = ws) then (if bool_decide (h_status h = SETTLED) then h_amount_cents h else 0) else 0.
Proof. unfold settled. by repeat case_bool_decide; naive_solver. Qed.

Lemma active_sum ws holds : active_holds ws holds = hold_sum (held ws) holds.
Proof. done. Qed.

Lemma reserve_booked b execution_id workspace_id amount h b' :
  booked b -> reserve execution_id workspace_id amount b = Ok (h, b') -> booked b'.
Proof.
  intros Hs [->|(Ha & Hl & -> & -> & bal & Hb & Hle)]%reserve_inv; [done|]. apply booked_holds; try done.
  unfold is_settled. by rewrite Hl.
Qed.
Lemma release_booked b execution_id h' b' : booked b -> release execution_id b = Ok (h', b') -> booked b'.
Proof.
  intros Hs (h & Hl & Hn & -> & ->)%release_inv. destruct (bk_hold _ Hs _ _ Hl) as [Ha Hb]. apply booked_holds; try done.
  unfold is_settled. rewrite Hl. by apply bool_decide_eq_false.
Qed.

(** A hold that is settled for the first time was active. *)
Lemma unpaid_active b execution_id h :
  booked b -> b_holds b !! execution_id = Some h -> h_status h <> RELEASED -> payment_of execution_id (b_payments b) = None ->
  h_status h = ACTIVE.
Proof.
  intros [_ Sp _ _] Hl Hr Hp. apply payment_of_None in Hp. specialize (Sp execution_id). rewrite Hp in Sp.
  unfold is_settled in Sp. rewrite Hl in Sp. case_bool_decide; [done|]. by destruct (h_status h).
Qed.

Lemma settle_booked b execution_id evidence endpoint log_id now r b' :
  booked b -> settle_local execution_id evidence endpoint log_id now b = Ok (r, b') -> booked b'.
Proof.
  intros Hs [[-> _]|(h & bal & ev & Hl & Hr & Hp & Hb & Ha & -> & He & Eb & Eh & Ep & Er)]%settle_inv; [done|].
  assert (Hact := unpaid_active _ _ _ Hs Hl Hr Hp). destruct Hs as [Sh Sp Se Sq].
  assert (Hset : forall e, is_settled e b' = is_settled e b || bool_decide (e = execution_id)).
  { intros e. unfold is_settled. rewrite Eh. destruct (decide (e = execution_id)) as [->|?].
    - by rewrite lookup_insert_eq, !bool_decide_true, orb_true_r.
    - rewrite lookup_insert_ne, (bool_decide_false (e = _)), orb_false_r by done. done. }
  assert (Hns' : is_settled execution_id b = false) by (unfold is_settled; by rewrite Hl, Hact).
  split.
  - intros e h'. rewrite Eh, Eb. intros Hl'. assert (Hd : forall w, is_Some (b_balances b !! w) -> is_Some (<[h_workspace_id h:=bal - h_amount_cents h]> (b_balances b) !! w))
      by (intros w; rewrite lookup_insert_is_Some'; tauto).
    destruct (decide (e = execution_id)) as [->|?]; [rewrite lookup_insert_eq in Hl'|rewrite lookup_insert_ne in Hl' by done].
    + injection Hl' as <-. destruct (Sh _ _ Hl). simpl. eauto.
    + destruct (Sh _ _ Hl'). eauto.
  - intros e. rewrite Hset. unfold payments_of. rewrite Ep, filter_app, length_app. fold (payments_of e b). rewrite Sp, filter_cons, filter_nil.
    simpl. destruct (decide (e = execution_id)) as [->|?].
    + rewrite Hns', decide_True, bool_decide_true by done. done.
    + rewrite decide_False, bool_decide_false, orb_false_r by done. simpl. lia.
  - intros e. rewrite Hset. unfold events_of. rewrite Er, filter_app, length_app. fold (events_of e b). rewrite Se, filter_cons, filter_nil.
    destruct (decide (e = execution_id)) as [->|?].
    + rewrite Hns', decide_True, bool_decide_true by done. done.
    + rewrite decide_False, bool_decide_false, orb_false_r by (done || (intros [_ Hx]; destruct He as [_ He]; congruence)). simpl. lia.
  - intros p. rewrite Ep, elem_of_app, list_elem_of_singleton, Eh. intros [Hin| ->].
    + destruct (Sq p Hin) as (h' & Hl' & Hst & Hw). exists h'. split; [|done]. rewrite lookup_insert_ne; [done|]. intros Hx. rewrite <- Hx in Hl'. congruence.
    + exists (set_status h SETTLED). simpl. by rewrite lookup_insert_eq.
Qed.

Lemma step_booked b b' : booked b -> ledger_step b b' -> booked b'.
Proof.
  intros Hs Hst. destruct Hst as [| | |b op pl ws run id now Hne]; eauto using reserve_booked, settle_booked, release_booked.
  destruct Hs as [Sh Sp Se Sq]. split; try done. intros e. etransitivity; [|exact (Se e)]. unfold events_of. simpl.
  rewrite filter_app, filter_cons, filter_nil, decide_False; [by rewrite app_nil_r|]. by intros [? _].
Qed.

Lemma bank_booked b b' : booked b -> bank_step b b' -> booked b'.
Proof.
  intros Hs Hst. destruct Hst as [b b' Hst|b ws cents]; [by eapply step_booked|]. destruct Hs as [Sh Sp Se Sq]. split; try done.
  intros e h Hl. destruct (Sh e h Hl) as [? ?]. split; [done|]. simpl. rewrite lookup_insert_is_Some'. tauto.
Qed.

Lemma reserve_sound b0 b execution_id workspace_id amount h b' :
  sound b0 b -> reserve execution_id workspace_id amount b = Ok (h, b') -> sound b0 b'.
Proof.
  intros Hs Hr. assert (Hb' := reserve_booked _ _ _ _ _ _ (sd_booked _ _ Hs) Hr).
  apply reserve_inv in Hr as [->|(Ha & Hl & -> & -> & bal & Hb & Hle)]; [done|]. apply sound_holds; try done.
  - intros ws. rewrite hold_sum_new, settled_at by done. simpl. by case_bool_decide.
  - exists bal. split; [done|]. simpl. rewrite active_sum, hold_sum_new, held_at by done. simpl. rewrite bool_decide_true by done.
    rewrite active_sum in Hle. lia.
  - intros ws Hne. simpl in Hne. rewrite !active_sum, hold_sum_new, held_at by done. simpl. rewrite bool_decide_false by done. lia.
Qed.

Lemma release_sound b0 b execution_id h' b' : sound b0 b -> release execution_id b = Ok (h', b') -> sound b0 b'.
Proof.
  intros Hs Hr. assert (Hb' := release_booked _ _ _ _ (sd_booked _ _ Hs) Hr).
  apply release_inv in Hr as (h & Hl & Hn & -> & ->). destruct (bk_hold _ (sd_booked _ _ Hs) _ _ Hl) as [Ha [bal Hb]].
  assert (Hle : forall ws, active_holds ws (<[execution_id := set_status h RELEASED]> (b_holds b)) <= active_holds ws (b_holds b)).
  { intros ws. rewrite !active_sum, (hold_sum_update _ _ _ h) by done. rewrite !held_at. simpl. repeat case_bool_decide; lia. }
  apply sound_holds; try done.
  - intros ws. rewrite (hold_sum_update _ _ _ h), !settled_at by done. simpl. rewrite (bool_decide_false (h_status h = SETTLED)) by done.
    unfold paid. case_bool_decide; lia.
  - exists bal. split; [done|]. pose proof (sd_covered _ _ Hs _ _ Hb). specialize (Hle (h_workspace_id h)). simpl. lia.
Qed.

Lemma settle_sound b0 b execution_id evidence endpoint log_id now r b' :
  sound b0 b -> settle_local execution_id evidence endpoint log_id now b = Ok (r, b') -> sound b0 b'.
Proof.
  intros Hs Hr. assert (Hb' := settle_booked _ _ _ _ _ _ _ _ (sd_booked _ _ Hs) Hr).
  apply settle_inv in Hr as [[-> _]|(h & bal & ev & Hl & Hr & Hp & Hb & Ha & -> & He & Eb & Eh & Ep & Er)]; [done|].
  assert (Hact := unpaid_active _ _ _ (sd_booked _ _ Hs) Hl Hr Hp). destruct Hs as [Sc Sv _]. split; [| |done].
  - intros ws. unfold paid. rewrite Eb, Eh, (hold_sum_update _ _ _ h), !settled_at by done. simpl. rewrite Hact. simpl.
    specialize (Sc ws). unfold paid in Sc. case_bool_decide as Ew; [subst ws; rewrite lookup_insert_eq; rewrite Hb in Sc|rewrite lookup_insert_ne, Sc by done];
      (destruct (b_balances b0 !! _); [|done]); simpl in *; simplify_eq; f_equal; lia.
  - intros ws bal'. rewrite Eb, Eh, active_sum, (hold_sum_update _ _ _ h), !held_at by done. simpl. rewrite Hact. simpl.
    rewrite <- active_sum. case_bool_decide as Ew; [subst ws; rewrite lookup_insert_eq|rewrite lookup_insert_ne by done];
      [intros [= <-]; pose proof (Sv _ _ Hb); lia|intros Hw; pose proof (Sv _ _ Hw); lia].
Qed.

Lemma step_sound b0 b b' : sound b0 b -> ledger_step b b' -> sound b0 b'.
Proof.
  intros Hs Hst. assert (Hb' := step_booked _ _ (sd_booked _ _ Hs) Hst).
  destruct Hst as [| | |b op pl ws run id now Hne]; eauto using reserve_sound, settle_sound, release_sound.
  destruct Hs as [Sc Sv _]. split; [exact Sc|exact Sv|exact Hb'].
Qed.

Lemma reach_sound b0 b : opened b0 -> steps ledger_step b0 b -> sound b0 b.
Proof. intros Ho. apply steps_invariant; [apply step_sound|by apply opened_sound]. Qed.
Lemma reach_booked b0 b : opened b0 -> steps bank_step b0 b -> booked b.
Proof. intros Ho. apply steps_invariant; [apply bank_booked|by apply opened_booked]. Qed.

(** ** The guarantees *)

(** C9: the ledger conserves money.  After any sequence of reservations,
    settlements, releases and other components' audit events, a workspace's
    balance and what its settled holds have paid add up to what it started
    with, the active holds never exceed the balance (so it is never negative),
    and every execution has one payment and one audit event if its hold is
    settled and none otherwise, each payment for the amount and from the
    workspace of its hold. *)
Theorem ledger_conserves b0 b :
  opened b0 -> steps ledger_step b0 b ->
  (forall ws start, b_balances b0 !! ws = Some start ->
     exists bal, b_balances b !! ws = Some bal /\ bal + paid ws b = start /\ 0 <= active_holds ws (b_holds b) <= bal)
  /\ (forall e, length (payments_of e b) = Nat.b2n (is_settled e b) /\ length (events_of e b) = Nat.b2n (is_settled e b))
  /\ (forall p, p ∈ b_payments b ->
       exists h, b_holds b !! x_execution_id p = Some h /\ h_status h = SETTLED
         /\ x_wallet_address p = h_workspace_id h /\ x_amount_usdc p = usdc (h_amount_cents h)).
Proof.
  intros Ho Hst. destruct (reach_sound _ _ Ho Hst) as [Sc Sv [Sh Sp Se Sq]]. split; [|by split].
  intros ws start Hw. specialize (Sc ws). rewrite Hw in Sc. simpl in Sc. exists (start - paid ws b). split; [done|]. split; [lia|].
  split; [|by apply Sv]. rewrite active_sum. apply hold_sum_nonneg. intros e h Hl. rewrite held_at.
  destruct (Sh e h Hl). repeat case_bool_decide; lia.
Qed.

Lemma find_snoc {A} (f : A -> bool) l x : find f l = None -> f x = true -> find f (l ++ [x]) = Some x.
Proof. intros Hl Hx. induction l as [|y l IH]; simpl in *; [by rewrite Hx|]. destruct (f y); [done|by apply IH]. Qed.
Lemma find_app_l {A} (f : A -> bool) l k x : find f l = Some x -> find f (l ++ k) = Some x.
Proof. induction l as [|y l IH]; simpl; [done|]. by destruct (f y). Qed.

(** An active hold has neither payment nor event yet. *)
Lemma active_unpaid b execution_id h :
  booked b -> b_holds b !! execution_id = Some h -> h_status h = ACTIVE ->
  payment_of execution_id (b_payments b) = None /\ settlement_audit execution_id (as_rows (b_audit b)) = None.
Proof.
  intros Hs Hl Ha. assert (Hn : is_settled execution_id b = false) by (unfold is_settled; by rewrite Hl, Ha).
  pose proof (bk_payments _ Hs execution_id) as Sp. pose proof (bk_events _ Hs execution_id) as Se.
  rewrite Hn in Sp, Se. by rewrite payment_of_None, settlement_audit_None; split; apply nil_length_inv.
Qed.

(** A hold of a sound ledger is covered by the balance. *)
Lemma hold_covered b0 b execution_id h bal :
  sound b0 b -> b_holds b !! execution_id = Some h -> h_status h = ACTIVE -> b_balances b !! h_workspace_id h = Some bal ->
  h_amount_cents h <= bal.
Proof.
  intros Hs Hl Ha Hb. pose proof (sd_covered _ _ Hs _ _ Hb) as Hv. rewrite active_sum in Hv.
  rewrite <- (insert_id _ _ _ Hl), <- (insert_delete_eq (b_holds b)), hold_sum_new, held_at in Hv by apply lookup_delete_eq.
  rewrite !bool_decide_true in Hv by done. assert (0 <= hold_sum (held (h_workspace_id h)) (delete execution_id (b_holds b))); [|lia].
  apply hold_sum_nonneg. intros e h' [_ Hl']%lookup_delete_Some. rewrite held_at. destruct (bk_hold _ (sd_booked _ _ Hs) _ _ Hl').
  repeat case_bool_decide; lia.
Qed.

(** An execution whose settlement is on record: hold, payment and event. *)
Definition settled_as (execution_id : string) (h : WorkspaceBudgetHold) (p : X402ConsumedPayment) (a : AuditEvent) (b : bank) : Prop :=
  b_holds b !! execution_id = Some h /\ h_status h = SETTLED /\ payment_of execution_id (b_payments b) = Some p
  /\ settlement_audit execution_id (as_rows (b_audit b)) = Some a.

Lemma settled_stays execution_id h p a b b' : settled_as execution_id h p a b -> bank_step b b' -> settled_as execution_id h p a b'.
Proof.
  intros (Hl & Hst & Hp & Ha) Hbs. destruct Hbs as [b1 b2 Hs|b1 ws cents]; [|done]. destruct Hs as [b1 e ws amt h1 b2 Hx|b1 e ev ep id t r b2 Hx|b1 e h1 b2 Hx|b1 op pl ws run id t Hne].
  - apply reserve_inv in Hx as [->|(_ & Hn & -> & -> & _)]; [done|]. split_and!; try done. simpl.
    rewrite lookup_insert_ne; [done|]. congruence.
  - apply settle_inv in Hx as [[-> _]|(h2 & bal & e2 & Hl2 & _ & Hp2 & _ & _ & _ & _ & _ & Eh & Ep & Er)]; [done|].
    assert (e <> execution_id) by congruence. split_and!; [by rewrite Eh, lookup_insert_ne|done|by rewrite Ep; apply find_app_l|].
    rewrite Er. by apply find_app_l.
  - apply release_inv in Hx as (h2 & Hl2 & Hn & -> & ->). split_and!; try done. simpl. rewrite lookup_insert_ne; [done|]. congruence.
  - split_and!; try done. by apply find_app_l.
Qed.

(** C10: a hold is settled at most once, and fails to be settled only for two
    reasons.  Whatever the ledger, other components' audit events and an
    administrator's set_budget did before, settling an active hold either
    lowers the balance by its amount, or answers InsufficientBudget because
    the balance is below the amount, or IntegrityError because another payment
    has its ledger id.  The second case needs a set_budget: by the ledger's own
    operations every active hold stays covered.  Once settled, and whatever
    happens then, settling it again through the same endpoint, with whatever
    evidence, answers with the first settlement's amount, ledger id and audit
    hash and changes nothing; through another endpoint it is a conflict, and
    so is releasing it. *)
Theorem hold_settles_once b0 b execution_id h evidence endpoint log_id now :
  opened b0 -> steps bank_step b0 b -> b_holds b !! execution_id = Some h -> h_status h = ACTIVE ->
  exists bal, b_balances b !! h_workspace_id h = Some bal
  /\ (steps ledger_step b0 b -> h_amount_cents h <= bal)
  /\ match settle_local execution_id evidence endpoint log_id now b with
     | Err e =>
         (e = InsufficientBudget "reserved balance is no longer available" /\ bal < h_amount_cents h)
         \/ (e = IntegrityError /\ exists p, p ∈ b_payments b
              /\ x_tx_hash p = local_ledger_id execution_id evidence (h_amount_cents h))
     | Ok (r, b1) =>
         h_amount_cents h <= bal /\ sr_already_settled r = false /\ sr_amount_cents r = h_amount_cents h
         /\ b_balances b1 = <[h_workspace_id h := bal - h_amount_cents h]> (b_balances b)
         /\ forall b2, steps bank_step b1 b2 ->
              (forall evidence' log_id' now', settle_local execution_id evidence' endpoint log_id' now' b2 =
                 Ok (mk_settlement execution_id (sr_amount_cents r) (sr_ledger_id r) (sr_audit_hash r) true, b2))
              /\ (forall evidence' endpoint' log_id' now', endpoint' <> endpoint ->
                   settle_local execution_id evidence' endpoint' log_id' now' b2 =
                   Err (SettlementConflict "existing settlement does not match requested settlement"))
              /\ release execution_id b2 = Err (SettlementConflict "settled hold cannot be released")
     end.
Proof.
  intros Ho Hst Hl Ha. assert (Hs := reach_booked _ _ Ho Hst). destruct (active_unpaid _ _ _ Hs Hl Ha) as [Hp Hau].
  destruct (bk_hold _ Hs _ _ Hl) as [Hpos [bal Hb]]. exists bal. split; [done|]. split.
  { intros Hled. by eapply hold_covered; [eapply reach_sound|..]. }
  destruct (settle_local execution_id evidence endpoint log_id now b) as [[r b1]|e] eqn:Er.
  - destruct (settle_inv _ _ _ _ _ _ _ _ Er) as [[_ Ht]|(h1 & bal1 & ev & Hl1 & _ & _ & Hb1 & Hle & -> & He & Eb & Eh & Ep & Ee)].
    { exfalso. revert Er Ht. unfold settle_local. rewrite Hl, Ha, Hp, Hb. simpl. destruct (bal <? _); [done|].
      destruct (existsb _ _); [done|]. by intros [= <- <-]. }
    simplify_eq. split; [done|]. split; [done|]. split; [done|]. split; [done|]. intros b2 Hs2.
    assert (Hset : settled_as execution_id (set_status h SETTLED) (new_payment execution_id evidence endpoint h) ev b2).
    { eapply (steps_invariant _ _ _ _ (settled_stays _ _ _ _)); [|exact Hs2]. split_and!; [by rewrite Eh, lookup_insert_eq|done|..].
      - rewrite Ep. apply find_snoc; [done|]. apply str_eqb_refl.
      - rewrite Ee. apply find_snoc; [done|]. by apply bool_decide_eq_true. }
    destruct Hset as (Hl2 & _ & Hp2 & Ha2). split_and!.
    + intros ev' id' now'. unfold settle_local. rewrite Hl2, Hp2, Ha2. simpl. by rewrite bool_decide_false by (intros [?|?]; done).
    + intros ev' ep' id' now' Hne. unfold settle_local. rewrite Hl2, Hp2. simpl. rewrite bool_decide_true; [done|]. by right.
    + unfold release. by rewrite Hl2.
  - revert Er. unfold settle_local. rewrite Hl, Ha, Hp, Hb. simpl. destruct (bal <? _) eqn:El; [apply Z.ltb_lt in El; intros [= <-]; by left|].
    destruct (existsb _ _) eqn:Ex; [|done]. intros [= <-]. right. split; [done|]. apply existsb_exists in Ex as (p & Hin & Hx).
    exists p. split; [by apply list_elem_of_In|by apply str_eqb_spec].
Qed.
End properties.
