(* ===== verification/PaymentGate.v ===== *)
(** * The payment gate (services/payment_gate.py)

    Kill switches, the limits kept in Redis, the free quota and the balance,
    checked before a run; and the route that checks them (api/routers/
    exec_router.py).  Times are microseconds since the epoch, UTC.  A Redis
    call that raises was not carried out; which calls of a check raise, and
    with what text, is the argument [down], by the order of the call sites.

    Then exactly which requests are admitted and what an admission writes; that
    a refused request keeps the node's slot it took; and that the quota, read
    and written without a lock, admits two requests that read the same row. *)

From Stdlib Require Import ZArith Lia Ascii String.
From stdpp Require Import base gmap strings list pretty.
From S2P Require Import Prelude.

Local Open Scope Z_scope.

(** ** Redis *)

(** Counters with their expiry, and the keys that are only tested. *)
Record redis := mk_redis { rd_counters : gmap string (Z * option Z); rd_flags : gset string }.

Definition entry_live (now : Z) (e : Z * option Z) : bool := match e.2 with Some t => now <? t | None => true end.
Definition rget (now : Z) (key : string) (r : redis) : option Z :=
  match rd_counters r !! key with Some e => if entry_live now e then Some e.1 else None | None => None end.
Definition rexists (now : Z) (key : string) (r : redis) : bool :=
  bool_decide (key ∈ rd_flags r) || bool_decide (is_Some (rget now key r)).

(** [INCRBY]: a missing key counts from 0 and has no expiry. *)
Definition rincrby (now : Z) (key : string) (n : Z) (r : redis) : redis :=
  let e := match rd_counters r !! key with
           | Some e => if entry_live now e then (e.1 + n, e.2) else (n, None)
           | None => (n, None)
           end in
  mk_redis (<[key := e]> (rd_counters r)) (rd_flags r).
Definition rexpire (now : Z) (key : string) (seconds : Z) (r : redis) : redis :=
  match rd_counters r !! key with
  | Some e => if entry_live now e then mk_redis (<[key := (e.1, Some (now + seconds * 1000000))]> (rd_counters r)) (rd_flags r) else r
  | None => r
  end.

(** ** The tables *)

Record FreeRunQuota := mk_quota { q_runs_used : Z; q_quota_limit : Z; q_reset_at : Z }.
Record KillSwitch := mk_switch { k_active : bool; k_reason : option string }.

Definition FREE_RUN_LIMIT : Z := 1.
Definition day : Z := 86400 * 1000000.
Definition tomorrow (now : Z) : Z := (now / day + 1) * day.

Record gate := mk_gate {
  g_switches : gmap string KillSwitch; g_quotas : gmap string FreeRunQuota; g_budgets : gmap string Z; g_redis : option redis }.

Record gate_settings := mk_gate_settings {
  s_max_runs_per_hour : Z; s_max_tokens_per_hour : Z; s_max_node_concurrent_runs : Z; s_is_production : bool }.

Record PaymentRequiredError := mk_payment_required { pe_detail : string; pe_reason : string }.

Definition PG := eff PaymentRequiredError gate.
Definition refuse {A} (detail reason : string) : PG A := eraise (mk_payment_required detail reason).

Definition set_redis (w : gate) (r : redis) : gate := mk_gate (g_switches w) (g_quotas w) (g_budgets w) (Some r).
Definition set_quotas (w : gate) (q : gmap string FreeRunQuota) : gate := mk_gate (g_switches w) q (g_budgets w) (g_redis w).

Definition kill_switch_key (ws : string) : string := "vnp:kill_switch:workspace:" +:+ ws.
Definition hour_timestamp (now : Z) : Z := now / (3600 * 1000000).
Definition runs_key (ws : string) (now : Z) : string :=
  "cappo:limit:workspace:" +:+ ws +:+ ":runs:" +:+ pretty (hour_timestamp now).
Definition tokens_key (ws : string) (now : Z) : string :=
  "cappo:limit:workspace:" +:+ ws +:+ ":tokens:" +:+ pretty (hour_timestamp now).
Definition concurrent_key : string := "cappo:limit:node:concurrent_runs".

Section gate.
Variable (s : gate_settings).

(** 1. The kill switch. *)
Definition check_switch (ws : string) : PG unit := fun w =>
  match g_switches w !! ws with
  | Some sw =>
    if k_active sw then
      refuse ("kill switch active for workspace " +:+ ws
              +:+ match k_reason sw with Some r => if str_eqb r "" then "" else ": " +:+ r | None => "" end) "kill_switch" w
    else Ret tt w
  | None => Ret tt w
  end.

(** One call of the client; a RedisError refuses. *)
Definition call {A} (down : nat -> option string) (i : nat) (f : redis -> A * redis) (r : redis) : PG (A * redis) := fun w =>
  match down i with
  | Some exc => refuse ("Redis connectivity error: " +:+ exc +:+ ". Failing closed for safety.") "redis_unreachable" w
  | None => let x := f r in Ret x (set_redis w x.2)
  end.
Definition ask {A} (f : redis -> A) : redis -> A * redis := fun r => (f r, r).
Definition tell (f : redis -> redis) : redis -> unit * redis := fun r => (tt, f r).
Definition incr (now : Z) (key : string) (r : redis) : Z * redis :=
  let r' := rincrby now key 1 r in (default 0 (rget now key r'), r').

Definition reached (limit : Z) (count : option Z) : bool := match count with Some c => limit <=? c | None => false end.

Definition refuse_if (c : bool) (detail reason : string) : PG unit := if c then refuse detail reason else eret tt.

(** The limits kept in Redis. *)
Definition check_limits (down : nat -> option string) (ws : string) (now : Z) (r : redis) : PG unit :=
  let! x := call down 0 (ask (rexists now (kill_switch_key ws))) r in
  do! refuse_if x.1 ("Hard kill switch active via Redis for workspace " +:+ ws +:+ ".") "kill_switch" in
  let! x := call down 1 (ask (rget now (runs_key ws now))) x.2 in
  do! refuse_if (reached (s_max_runs_per_hour s) x.1)
        ("Workspace hourly execution limit exceeded (" +:+ pretty (s_max_runs_per_hour s) +:+ " runs/hour).") "rate_limited" in
  let! x := call down 2 (ask (rget now (tokens_key ws now))) x.2 in
  do! refuse_if (reached (s_max_tokens_per_hour s) x.1)
        ("Workspace hourly token limit exceeded (" +:+ pretty (s_max_tokens_per_hour s) +:+ " tokens/hour).") "rate_limited" in
  let! x := call down 3 (incr now concurrent_key) x.2 in
  if s_max_node_concurrent_runs s <? x.1 then
    do! call down 4 (tell (rincrby now concurrent_key (-1))) x.2 in
    refuse ("Node concurrent execution limit exceeded (" +:+ pretty (s_max_node_concurrent_runs s) +:+ " active runs).")
      "node_limit_exceeded"
  else
    let! x := call down 5 (incr now (runs_key ws now)) x.2 in
    do! call down 6 (tell (rexpire now (runs_key ws now) 5400)) x.2 in
    eret tt.

Definition check_redis (down : nat -> option string) (ws : string) (now : Z) : PG unit := fun w =>
  match g_redis w with
  | Some r => check_limits down ws now r w
  | None => refuse_if (s_is_production s) "Redis connection is required in production for rate limiting." "redis_unreachable" w
  end.

(** 2. The free run of the day. *)
Definition renewed (now : Z) (q : FreeRunQuota) : FreeRunQuota :=
  if q_reset_at q <=? now then mk_quota 0 (q_quota_limit q) (tomorrow now) else q.

Definition check_quota (ws : string) (now : Z) : PG unit := fun w =>
  match g_quotas w !! ws with
  | None => Ret tt (set_quotas w (<[ws := mk_quota 1 FREE_RUN_LIMIT (tomorrow now)]> (g_quotas w)))
  | Some quota =>
    let quota := renewed now quota in
    let w' := set_quotas w (<[ws := quota]> (g_quotas w)) in
    if q_quota_limit quota <=? q_runs_used quota then
      refuse ("free run quota exhausted for workspace " +:+ ws +:+ ". Pay via x402 (USDC on Base) to continue.") "quota_exhausted" w'
    else Ret tt (set_quotas w (<[ws := mk_quota (q_runs_used quota + 1) (q_quota_limit quota) (q_reset_at quota)]> (g_quotas w)))
  end.

(** 3. The balance. *)
Definition check_budget (ws : string) (cost_cents : Z) : PG unit := fun w =>
  if 0 <? cost_cents then
    match g_budgets w !! ws with
    | Some balance =>
      if balance <? cost_cents then
        refuse ("budget exhausted: balance=" +:+ pretty balance +:+ " cents, cost=" +:+ pretty cost_cents +:+ " cents")
          "budget_exhausted" w
      else Ret tt w
    | None => Ret tt w
    end
  else Ret tt w.

Definition check (down : nat -> option string) (ws : string) (cost_cents now : Z) : PG unit :=
  do! check_switch ws in do! check_redis down ws now in do! check_quota ws now in check_budget ws cost_cents.

(** [decrement_concurrent] and [record_tokens]; an exception is swallowed. *)
Definition decrement_concurrent (down : nat -> option string) (now : Z) (w : gate) : gate :=
  match g_redis w, down O with
  | Some r, None => set_redis w (rincrby now concurrent_key (-1) r)
  | _, _ => w
  end.
Definition record_tokens (down : nat -> option string) (ws : string) (tokens now : Z) (w : gate) : gate :=
  match g_redis w with
  | Some r =>
    if 0 <? tokens then
      match down 0%nat, down 1%nat with
      | Some _, _ => w
      | None, Some _ => set_redis w (rincrby now (tokens_key ws now) tokens r)
      | None, None => set_redis w (rexpire now (tokens_key ws now) 5400 (rincrby now (tokens_key ws now) tokens r))
      end
    else w
  | None => w
  end.

Definition set_kill_switch (ws : string) (active : bool) (reason : option string) (w : gate) : gate :=
  mk_gate (<[ws := mk_switch active reason]> (g_switches w)) (g_quotas w) (g_budgets w) (g_redis w).
Definition set_budget (ws : string) (balance_cents : Z) (w : gate) : gate :=
  mk_gate (g_switches w) (g_quotas w) (<[ws := balance_cents]> (g_budgets w)) (g_redis w).
Definition reset_quota (ws : string) (now : Z) (w : gate) : gate :=
  set_quotas w (<[ws := match g_quotas w !! ws with
                         | Some q => mk_quota 0 (q_quota_limit q) (q_reset_at q)
                         | None => mk_quota 0 FREE_RUN_LIMIT (tomorrow now)
                         end]> (g_quotas w)).

(** What the route does around a run: check, then run, and give the node's slot
    back whatever the run did.  The tables of a refused request are rolled
    back (its session closes without a commit); Redis is not. *)
Definition paid_run {A} (down down' : nat -> option string) (ws : string) (cost_cents now later : Z) (body : PG A) : PG A := fun w =>
  match check down ws cost_cents now w with
  | Ret _ w1 =>
    match body w1 with
    | Ret a w2 => Ret a (decrement_concurrent down' later w2)
    | Raise e w2 => Raise e (decrement_concurrent down' later w2)
    | Crash w2 => Crash w2
    end
  | Raise e w1 => Raise e (mk_gate (g_switches w) (g_quotas w) (g_budgets w) (g_redis w1))
  | Crash w1 => Crash w1
  end.
End gate.

(** ** Redis *)

Lemma rget_incrby now key n r key' t :
  rget t key' (rincrby now key n r) =
  if bool_decide (key' = key) then
    match rd_counters r !! key with
    | Some e => if entry_live now e then (if entry_live t e then Some (e.1 + n) else None) else Some n
    | None => Some n
    end
  else rget t key' r.
Proof.
  unfold rget, rincrby. simpl. case_bool_decide as E; [subst; rewrite lookup_insert_eq|by rewrite lookup_insert_ne].
  destruct (rd_counters r !! key) as [[c x]|]; [|done]. by destruct (entry_live now (c, x)).
Qed.

Lemma rget_incr now key r : rget now key (rincrby now key 1 r) = Some (default 0 (rget now key r) + 1).
Proof.
  rewrite rget_incrby, bool_decide_true by done. unfold rget. destruct (rd_counters r !! key) as [e|]; [|done].
  by destruct (entry_live now e).
Qed.

Lemma incr_run now key r : incr now key r = (default 0 (rget now key r) + 1, rincrby now key 1 r).
Proof. unfold incr. by rewrite rget_incr. Qed.

Lemma rget_expire now key secs r key' t :
  rget t key' (rexpire now key secs r) =
  if bool_decide (key' = key) then
    match rget now key r with Some c => if t <? now + secs * 1000000 then Some c else None | None => rget t key r end
  else rget t key' r.
Proof.
  unfold rexpire. case_bool_decide as E; [subst|].
  - unfold rget at 2. destruct (rd_counters r !! key) as [e|] eqn:El; [|done]. destruct (entry_live now e); [|done].
    unfold rget. simpl. rewrite lookup_insert_eq. done.
  - destruct (rd_counters r !! key) as [e|]; [|done]. destruct (entry_live now e); [|done]. unfold rget. simpl. by rewrite lookup_insert_ne.
Qed.

Lemma flags_incrby now key n r : rd_flags (rincrby now key n r) = rd_flags r.
Proof. done. Qed.
Lemma flags_expire now key secs r : rd_flags (rexpire now key secs r) = rd_flags r.
Proof. unfold rexpire. by repeat case_match. Qed.

(** ** Admission *)

(** Runs in progress on the node. *)
Definition concurrent (now : Z) (r : redis) : Z := default 0 (rget now concurrent_key r).

Definition within_limits (s : gate_settings) (ws : string) (now : Z) (r : redis) : Prop :=
  rexists now (kill_switch_key ws) r = false
  /\ (forall c, rget now (runs_key ws now) r = Some c -> c < s_max_runs_per_hour s)
  /\ (forall c, rget now (tokens_key ws now) r = Some c -> c < s_max_tokens_per_hour s)
  /\ concurrent now r < s_max_node_concurrent_runs s.

(** The free run of the day is left, the row being renewed at midnight. *)
Definition run_left (ws : string) (now : Z) (w : gate) : Prop :=
  forall q, g_quotas w !! ws = Some q -> q_runs_used (renewed now q) < q_quota_limit q.

Record admissible (s : gate_settings) (ws : string) (cost now : Z) (w : gate) : Prop := mk_admissible {
  ad_switch sw : g_switches w !! ws = Some sw -> k_active sw = false;
  ad_redis : match g_redis w with Some r => within_limits s ws now r | None => s_is_production s = false end;
  ad_quota : run_left ws now w;
  ad_budget : 0 < cost -> forall balance, g_budgets w !! ws = Some balance -> cost <= balance }.

(** What an admission writes: a slot of the node, a run of the hour and the
    free run of the day. *)
Definition counted (ws : string) (now : Z) (r : redis) : redis :=
  rexpire now (runs_key ws now) 5400 (rincrby now (runs_key ws now) 1 (rincrby now concurrent_key 1 r)).
Definition charged_quota (ws : string) (now : Z) (w : gate) : FreeRunQuota :=
  match g_quotas w !! ws with
  | None => mk_quota 1 FREE_RUN_LIMIT (tomorrow now)
  | Some q => let q := renewed now q in mk_quota (q_runs_used q + 1) (q_quota_limit q) (q_reset_at q)
  end.
Definition charged (ws : string) (now : Z) (w : gate) : gate :=
  mk_gate (g_switches w) (<[ws := charged_quota ws now w]> (g_quotas w)) (g_budgets w) (counted ws now <$> g_redis w).

Lemma renewed_limit now q : q_quota_limit (renewed now q) = q_quota_limit q.
Proof. unfold renewed. by case_match. Qed.

Lemma check_bind {A} (m : PG A) (k : A -> PG unit) w :
  ebind m k w = match m w with Ret a w' => k a w' | Raise e w' => Raise e w' | Crash w' => Crash w' end.
Proof. done. Qed.

Section admission.
Variables (s : gate_settings) (down : nat -> option string).
Hypothesis up : forall i, down i = None.

Lemma call_up {A} i (f : redis -> A * redis) r w : call down i f r w = Ret (f r) (set_redis w (f r).2).
Proof. unfold call. by rewrite up. Qed.

Lemma set_redis_set w r r' : set_redis (set_redis w r) r' = set_redis w r'.
Proof. done. Qed.

Lemma refuse_if_run c d x w : refuse_if c d x w = if c then Raise (mk_payment_required d x) w else Ret tt w.
Proof. by destruct c. Qed.

(** The limits, in the order of the calls. *)
Lemma check_limits_run ws now r w :
  check_limits s down ws now r w =
  if rexists now (kill_switch_key ws) r
  then Raise (mk_payment_required ("Hard kill switch active via Redis for workspace " +:+ ws +:+ ".") "kill_switch") (set_redis w r)
  else if reached (s_max_runs_per_hour s) (rget now (runs_key ws now) r)
  then Raise (mk_payment_required ("Workspace hourly execution limit exceeded (" +:+ pretty (s_max_runs_per_hour s) +:+ " runs/hour).")
                "rate_limited") (set_redis w r)
  else if reached (s_max_tokens_per_hour s) (rget now (tokens_key ws now) r)
  then Raise (mk_payment_required ("Workspace hourly token limit exceeded (" +:+ pretty (s_max_tokens_per_hour s) +:+ " tokens/hour).")
                "rate_limited") (set_redis w r)
  else if s_max_node_concurrent_runs s <? concurrent now r + 1
  then Raise (mk_payment_required ("Node concurrent execution limit exceeded (" +:+ pretty (s_max_node_concurrent_runs s) +:+ " active runs).")
                "node_limit_exceeded") (set_redis w (rincrby now concurrent_key (-1) (rincrby now concurrent_key 1 r)))
  else Ret tt (set_redis w (counted ws now r)).
Proof.
  unfold check_limits. rewrite check_bind, call_up. cbn [fst snd ask]. rewrite check_bind, refuse_if_run.
  destruct (rexists _ _ _); [done|]. rewrite check_bind, call_up. cbn [fst snd ask]. rewrite check_bind, refuse_if_run.
  destruct (reached (s_max_runs_per_hour s) _); [done|]. rewrite check_bind, call_up. cbn [fst snd ask]. rewrite check_bind, refuse_if_run.
  destruct (reached (s_max_tokens_per_hour s) _); [done|]. rewrite check_bind, call_up, incr_run. cbn [fst snd].
  fold (concurrent now r). destruct (_ <? _).
  - by rewrite check_bind, call_up.
  - by rewrite check_bind, call_up, incr_run, check_bind, call_up.
Qed.

Lemma reached_false limit c : reached limit c = false <-> forall x, c = Some x -> x < limit.
Proof. destruct c as [c|]; simpl; [rewrite Z.leb_gt|]; naive_solver. Qed.

Lemma limits_admit ws now r w w' :
  check_limits s down ws now r w = Ret tt w' <-> within_limits s ws now r /\ w' = set_redis w (counted ws now r).
Proof.
  rewrite check_limits_run. unfold within_limits.
  destruct (rexists _ _ _); [split; [done|by intros [[? _] _]]|].
  destruct (reached (s_max_runs_per_hour s) _) eqn:E1; [split; [done|intros [(_ & Hx & _) _]; rewrite <- reached_false in Hx; congruence]|].
  destruct (reached (s_max_tokens_per_hour s) _) eqn:E2; [split; [done|intros [(_ & _ & Hx & _) _]; rewrite <- reached_false in Hx; congruence]|].
  destruct (_ <? _) eqn:E3; [apply Z.ltb_lt in E3; split; [done|intros [(_ & _ & _ & Hx) _]; lia]|].
  apply Z.ltb_ge in E3. rewrite reached_false in E1, E2. split; [intros [= <-]; repeat split; auto; lia|by intros [_ ->]].
Qed.

Lemma redis_admits ws now w w' :
  check_redis s down ws now w = Ret tt w' <->
  match g_redis w with Some r => within_limits s ws now r | None => s_is_production s = false end
  /\ w' = mk_gate (g_switches w) (g_quotas w) (g_budgets w) (counted ws now <$> g_redis w).
Proof.
  unfold check_redis. destruct w as [sw q b [r|]]; [apply limits_admit|]. simpl. rewrite refuse_if_run.
  destruct (s_is_production s); split; [done|by intros [? _]|by intros [= <-]|by intros [_ ->]].
Qed.

Lemma quota_admits ws now w w' :
  check_quota ws now w = Ret tt w' <-> run_left ws now w /\ w' = set_quotas w (<[ws := charged_quota ws now w]> (g_quotas w)).
Proof.
  unfold check_quota, run_left, charged_quota. destruct (g_quotas w !! ws) as [q|]; [|split; [by intros [= <-]|by intros [_ ->]]].
  destruct (_ <=? _) eqn:E; [apply Z.leb_le in E|apply Z.leb_gt in E]; rewrite renewed_limit in E.
  - split; [done|]. intros [Hq _]. specialize (Hq q eq_refl). lia.
  - split; [intros [= <-]; split; [|done]; by intros ? [= <-]|by intros [_ ->]].
Qed.

Lemma budget_admits ws cost w w' :
  check_budget ws cost w = Ret tt w' <->
  (0 < cost -> forall balance, g_budgets w !! ws = Some balance -> cost <= balance) /\ w' = w.
Proof.
  unfold check_budget. destruct (0 <? cost) eqn:E0; [apply Z.ltb_lt in E0|apply Z.ltb_ge in E0; split; [intros [= <-]; split; [lia|done]|by intros [_ ->]]].
  destruct (g_budgets w !! ws) as [bal|]; [|split; [by intros [= <-]|by intros [_ ->]]].
  destruct (bal <? cost) eqn:E; [apply Z.ltb_lt in E|apply Z.ltb_ge in E].
  - split; [done|]. intros [Hb _]. specialize (Hb E0 bal eq_refl). lia.
  - split; [intros [= <-]; split; [by intros _ ? [= <-]|done]|by intros [_ ->]].
Qed.

Lemma switch_admits ws w w' :
  check_switch ws w = Ret tt w' <-> (forall sw, g_switches w !! ws = Some sw -> k_active sw = false) /\ w' = w.
Proof.
  unfold check_switch. destruct (g_switches w !! ws) as [sw|]; [|split; [by intros [= <-]|by intros [_ ->]]].
  destruct (k_active sw) eqn:E; [split; [done|intros [Hs _]; specialize (Hs sw eq_refl); congruence]|].
  split; [intros [= <-]; split; [by intros ? [= <-]|done]|by intros [_ ->]].
Qed.

Lemma bind_ret {B} (m : PG unit) (k : PG B) w b w' :
  ebind m (fun _ => k) w = Ret b w' <-> exists w1, m w = Ret tt w1 /\ k w1 = Ret b w'.
Proof. unfold ebind. destruct (m w) as [[]| |]; naive_solver. Qed.
End admission.

(** With Redis answering, a request passes exactly when it is admissible. *)
Lemma admits_up s down ws cost now w w' :
  (forall i, down i = None) ->
  check s down ws cost now w = Ret tt w' <-> admissible s ws cost now w /\ w' = charged ws now w.
Proof.
  intros up. unfold check. rewrite bind_ret. setoid_rewrite bind_ret. setoid_rewrite bind_ret.
  setoid_rewrite switch_admits. setoid_rewrite redis_admits; [|done]. setoid_rewrite quota_admits. setoid_rewrite budget_admits. split.
  - intros (w1 & [H1 ->] & w2 & [H2 ->] & w3 & [H3 ->] & H4 & ->). split; [by split|by destruct w].
  - intros [[H1 H2 H3 H4] ->]. destruct w. eexists. split; [by split|]. eexists. split; [by split|].
    eexists. split; [by split|]. by split.
Qed.

(** The calls of an admission, by their sites: the fifth is made on a refusal. *)
Definition admission_calls : list nat := [0; 1; 2; 3; 5; 6]%nat.

Lemma call_ret {A B} down i (f : redis -> A * redis) r (k : A * redis -> PG B) w b w' :
  ebind (call down i f r) k w = Ret b w' <-> down i = None /\ k (f r) (set_redis w (f r).2) = Ret b w'.
Proof. unfold ebind, call. by destruct (down i); naive_solver. Qed.
Lemma refuse_if_ret {B} c d x (k : PG B) w b w' :
  ebind (refuse_if c d x) (fun _ => k) w = Ret b w' <-> c = false /\ k w = Ret b w'.
Proof. unfold ebind. rewrite refuse_if_run. destruct c; naive_solver. Qed.

Lemma limits_up s down ws now r w w' :
  check_limits s down ws now r w = Ret tt w' <->
  (forall i, i ∈ admission_calls -> down i = None) /\ check_limits s (fun _ => None) ws now r w = Ret tt w'.
Proof.
  assert (Hn : (forall i, i ∈ admission_calls -> down i = None) <->
    down 0%nat = None /\ down 1%nat = None /\ down 2%nat = None /\ down 3%nat = None /\ down 5%nat = None /\ down 6%nat = None).
  { rewrite <- Forall_forall. unfold admission_calls. rewrite !Forall_cons, Forall_nil. tauto. }
  rewrite Hn. clear Hn. unfold check_limits. repeat (rewrite call_ret || rewrite refuse_if_ret).
  destruct (_ <? _); repeat (rewrite call_ret || rewrite refuse_if_ret); [|tauto]. unfold refuse, eraise. naive_solver.
Qed.

(** C11: who is admitted.  The gate lets a request through exactly when no kill
    switch is set, the workspace is under its hourly runs and tokens and the
    node under its concurrent runs with every Redis call answered (or there is
    no Redis, outside production), a free run is left today in the row it
    reads, and the balance, if there is one, covers the cost.  It then takes
    one slot of the node, one run of the hour and one free run, and writes
    nothing else; in particular it fails closed when Redis does not answer. *)
Theorem gate_admits s down ws cost now w w' :
  check s down ws cost now w = Ret tt w' <->
  admissible s ws cost now w /\ (is_Some (g_redis w) -> forall i, i ∈ admission_calls -> down i = None)
  /\ w' = charged ws now w.
Proof.
  transitivity (check s (fun _ => None) ws cost now w = Ret tt w' /\ (is_Some (g_redis w) -> forall i, i ∈ admission_calls -> down i = None));
    [|rewrite admits_up by done; tauto].
  unfold check. rewrite !bind_ret. setoid_rewrite bind_ret. setoid_rewrite switch_admits.
  assert (Hc : forall w2, check_redis s down ws now w = Ret tt w2 <->
    check_redis s (fun _ => None) ws now w = Ret tt w2 /\ (is_Some (g_redis w) -> forall i, i ∈ admission_calls -> down i = None)).
  { intros w2. unfold check_redis. destruct (g_redis w) as [r|]; [rewrite limits_up|]; split.
    - intros [? ?]. by split.
    - intros [? Hd]. split; [by apply Hd|done].
    - intros ?. split; [done|]. by intros [? ?].
    - by intros [? _]. }
  split.
  - intros (w1 & [H1 ->] & w2 & [H2 H3]%Hc & H4). split; [|done]. exists w. split; [done|]. by exists w2.
  - intros [(w1 & [H1 ->] & w2 & H2 & H4) H3]. exists w. split; [done|]. exists w2. split; [by apply Hc|done].
Qed.

(** ** Slots *)

Lemma runs_tokens_ne ws t t' : tokens_key ws t' <> runs_key ws t.
Proof. unfold tokens_key, runs_key. intros E%(inj (String.append _)). by apply (inj (String.append ws)) in E. Qed.

(** The counter of concurrent runs, which never expires. *)
Definition slots (c : Z) (r : redis) : Prop :=
  rd_counters r !! concurrent_key = Some (c, None) \/ (rd_counters r !! concurrent_key = None /\ c = 0).

Lemma slots_concurrent c r t : slots c r -> concurrent t r = c.
Proof. unfold concurrent, rget. by intros [-> | [-> ->]]. Qed.

Lemma slots_counted ws t c r : slots c r -> slots (c + 1) (counted ws t r).
Proof.
  intros Hs. left. unfold counted, rexpire. set (r1 := rincrby t concurrent_key 1 r).
  assert (H1 : rd_counters r1 !! concurrent_key = Some (c + 1, None)).
  { unfold r1, rincrby. simpl. rewrite lookup_insert_eq. destruct Hs as [-> | [-> ->]]; [done|]. f_equal. }
  assert (H2 : rd_counters (rincrby t (runs_key ws t) 1 r1) !! concurrent_key = Some (c + 1, None)) by (simpl; by rewrite lookup_insert_ne).
  repeat case_match; simpl; [by rewrite lookup_insert_ne|done..].
Qed.

Lemma rget_counted ws t r t' key :
  key <> runs_key ws t -> key <> concurrent_key -> rget t' key (counted ws t r) = rget t' key r.
Proof. intros H1 H2. unfold counted. by rewrite rget_expire, !rget_incrby, !bool_decide_false. Qed.

Lemma same_hour_close t t' : hour_timestamp t = hour_timestamp t' -> t' < t + 5400 * 1000000.
Proof. unfold hour_timestamp. intros H. pose proof (Z.div_mod t (3600 * 1000000)). pose proof (Z.div_mod t' (3600 * 1000000)).
  pose proof (Z.mod_pos_bound t (3600 * 1000000)). pose proof (Z.mod_pos_bound t' (3600 * 1000000)). lia. Qed.

Lemma runs_counted ws t r t' :
  hour_timestamp t = hour_timestamp t' -> rget t' (runs_key ws t') (counted ws t r) = Some (default 0 (rget t (runs_key ws t) r) + 1).
Proof.
  intros Hh. assert (Hk : runs_key ws t' = runs_key ws t) by (unfold runs_key; by rewrite Hh). rewrite Hk. unfold counted.
  rewrite rget_expire, bool_decide_true, rget_incr, rget_incrby, bool_decide_false by done.
  by rewrite (proj2 (Z.ltb_lt _ _)) by (by apply same_hour_close).
Qed.

(** Nothing but the free quota refuses the workspace in this hour, for [m]
    more requests. *)
Record open_hour (s : gate_settings) (ws : string) (hour m : Z) (r : redis) : Prop := mk_open_hour {
  oh_kill t : hour_timestamp t = hour -> rexists t (kill_switch_key ws) r = false;
  oh_runs t : hour_timestamp t = hour -> default 0 (rget t (runs_key ws t) r) + m <= s_max_runs_per_hour s;
  oh_tokens t c : hour_timestamp t = hour -> rget t (tokens_key ws t) r = Some c -> c < s_max_tokens_per_hour s;
  oh_slots : slots (s_max_node_concurrent_runs s - m) r }.

Lemma open_hour_counted s ws t m r :
  open_hour s ws (hour_timestamp t) m r -> open_hour s ws (hour_timestamp t) (m - 1) (counted ws t r).
Proof.
  intros [Hk Hr Ht Hs]. split.
  - intros t' Hh. rewrite <- (Hk t' Hh). unfold rexists. rewrite rget_counted by done. unfold counted. by rewrite flags_expire.
  - intros t' Hh. rewrite runs_counted by done. specialize (Hr t eq_refl). simpl. lia.
  - intros t' c Hh. rewrite rget_counted by (apply runs_tokens_ne || done). by apply Ht.
  - replace (s_max_node_concurrent_runs s - (m - 1)) with (s_max_node_concurrent_runs s - m + 1) by lia. by apply slots_counted.
Qed.

Lemma open_hour_limits s ws t m r : 0 < m -> open_hour s ws (hour_timestamp t) m r -> within_limits s ws t r.
Proof.
  intros Hm [Hk Hr Ht Hs]. split; [by apply Hk|]. split; [|split].
  - intros c Hc. specialize (Hr t eq_refl). rewrite Hc in Hr. simpl in Hr. lia.
  - intros c. by apply Ht.
  - rewrite (slots_concurrent _ _ _ Hs). lia.
Qed.

Section exhausted.
Variables (s : gate_settings) (down : nat -> option string) (ws : string) (q : FreeRunQuota).
Hypothesis up : forall i, down i = None.

(** The workspace has used its free runs, and its kill switch is off. *)
Definition used_up (w : gate) : Prop :=
  g_quotas w !! ws = Some q /\ q_quota_limit q <= q_runs_used q /\ forall sw, g_switches w !! ws = Some sw -> k_active sw = false.

(** Such a request is refused for its quota, and keeps the slot it took. *)
Lemma exhausted_refused {A} cost t later (body : PG A) w r :
  used_up w -> t < q_reset_at q -> g_redis w = Some r -> within_limits s ws t r ->
  exists e, paid_run s down down ws cost t later body w = Raise e (set_redis w (counted ws t r)) /\ pe_reason e = "quota_exhausted".
Proof.
  intros (Hq & Hl & Hsw) Ht Hr Hw. unfold paid_run, check.
  assert (H1 : check_switch ws w = Ret tt w) by (by apply switch_admits).
  assert (H2 : check_redis s down ws t w = Ret tt (set_redis w (counted ws t r))).
  { apply redis_admits; [done|]. rewrite Hr. by split. }
  rewrite check_bind, H1, check_bind, H2, check_bind. unfold check_quota. cbn [g_quotas set_redis]. rewrite Hq.
  assert (Hn : renewed t q = q) by (unfold renewed; by rewrite (proj2 (Z.leb_gt _ _) Ht)). rewrite Hn, (proj2 (Z.leb_le _ _) Hl).
  eexists. by split.
Qed.

Lemma exhausted_requests {A} cost (body : PG A) hour times : forall w r,
  used_up w -> g_redis w = Some r -> open_hour s ws hour (Z.of_nat (length times)) r ->
  Forall (fun t => hour_timestamp t = hour /\ t < q_reset_at q) times ->
  let w' := foldl (fun w t => oworld (paid_run s down down ws cost t t body w)) w times in
  used_up w' /\ exists r', g_redis w' = Some r' /\ slots (s_max_node_concurrent_runs s) r'.
Proof.
  induction times as [|t times IH]; intros w r Hu Hr Ho Hf.
  - split; [done|]. exists r. split; [done|]. apply oh_slots in Ho. by rewrite Z.sub_0_r in Ho.
  - apply Forall_cons in Hf as [[<- Ht] Hf].
    destruct (exhausted_refused cost t t body w r Hu Ht Hr) as (e & He & _); [eapply open_hour_limits; [|exact Ho]; simpl; lia|].
    cbn [foldl]. rewrite He. apply (IH _ (counted ws t r)); [done|done| |done]. apply open_hour_counted in Ho.
    by replace (Z.of_nat (length times)) with (Z.of_nat (length (t :: times)) - 1) by (simpl; lia).
Qed.
End exhausted.

Lemma check_answers s down ws cost now w : (forall i, down i = None) -> forall w', check s down ws cost now w <> Crash w'.
Proof.
  intros up w'. unfold check. rewrite check_bind. unfold check_switch at 1. destruct (g_switches w !! ws) as [sw|]; [destruct (k_active sw); [done|]|];
  rewrite check_bind; unfold check_redis; (destruct (g_redis w) as [r|]; [rewrite (check_limits_run _ _ up)|rewrite refuse_if_run]);
  repeat case_match; try done; simplify_eq;
  rewrite check_bind; unfold check_quota, check_budget; repeat case_match; try done; naive_solver.
Qed.

(** A refused request keeps the node's slot it took.  When a workspace
    without a free run left sends as many requests within an hour as the node
    has slots left, all are refused, no run is in progress, and from then on
    every request of every workspace is refused, at any later time, as long as
    no slot is given back, which only an admitted run does. *)
Theorem refused_runs_exhaust_node s down ws q {A} cost (body : PG A) hour times w r :
  (forall i, down i = None) -> used_up ws q w -> g_redis w = Some r ->
  open_hour s ws hour (Z.of_nat (length times)) r ->
  Forall (fun t => hour_timestamp t = hour /\ t < q_reset_at q) times ->
  let w' := foldl (fun w t => oworld (paid_run s down down ws cost t t body w)) w times in
  g_quotas w' !! ws = Some q
  /\ forall B ws2 cost2 t2 later2 (body2 : PG B), exists e w2, paid_run s down down ws2 cost2 t2 later2 body2 w' = Raise e w2.
Proof.
  intros up Hu Hr Ho Hf. destruct (exhausted_requests s down ws q up cost body hour times w r Hu Hr Ho Hf) as [[Hq _] (r' & Hr' & Hs)].
  split; [exact Hq|]. intros B ws2 cost2 t2 later2 body2. unfold paid_run.
  set (w' := foldl _ w times) in *. destruct (check s down ws2 cost2 t2 w') as [[] w1|e w1|w1] eqn:E.
  - apply admits_up in E as [[_ Hl _ _] _]; [|done]. rewrite Hr' in Hl. destruct Hl as (_ & _ & _ & Hl).
    rewrite (slots_concurrent _ _ _ Hs) in Hl. lia.
  - by eexists _, _.
  - by apply check_answers in E.
Qed.

(** ** The free run of the day *)

(** Two requests that read the same row after its reset time are both
    admitted, whatever ran before, and each writes that one run was used: the
    quota bounds the runs of a day only where requests do not overlap. *)
Example same_read_both_admitted s ws cost now1 now2 q w w1 w2 :
  g_quotas w !! ws = Some q -> q_reset_at q <= now1 -> q_reset_at q <= now2 ->
  check s (fun _ => None) ws cost now1 w = Ret tt w1 -> check s (fun _ => None) ws cost now2 w = Ret tt w2 ->
  exists q1 q2, g_quotas w1 !! ws = Some q1 /\ g_quotas w2 !! ws = Some q2 /\ q_runs_used q1 = 1 /\ q_runs_used q2 = 1.
Proof.
  intros Hq H1%Z.leb_le H2%Z.leb_le. rewrite !admits_up by done. intros [_ ->] [_ ->]. unfold charged, charged_quota. cbn [g_quotas].
  rewrite Hq, !lookup_insert_eq. unfold renewed. rewrite H1, H2. by eexists _, _.
Qed.
