(* ===== verification/PyLoads.v ===== *)
(** * json.loads

    The scanner of Python's json module on UTF-8 text: literals with their
    escapes, numbers, constants, arrays and objects with insignificant white
    space, a repeated key keeping its last value.  What [json.dumps] prints is
    read back.  Nesting is assumed to stay below the interpreter's recursion
    limit; a float keeps the text [repr] gives it, which [float_repr] supplies. *)

From Stdlib Require Import ZArith Lia Ascii String.
From stdpp Require Import base gmap strings list pretty sorting.
From S2P Require Import Prelude Canon PyJson JsonScan Permits Identity HttpSig HttpSigProperties.

Local Open Scope Z_scope.

(** ** UTF-8 *)

Definition cont (c : ascii) : bool := (128 <=? byte_of c) && (byte_of c <? 192).

(** [bytes.decode("utf-8")] accepts the text: no overlong form, no surrogate,
    nothing above U+10FFFF. *)
Fixpoint utf8_ok (l : list ascii) : bool :=
  match l with
  | [] => true
  | c :: r =>
    let n := byte_of c in
    if n <? 128 then utf8_ok r
    else match r with
    | c1 :: r1 =>
      if (194 <=? n) && (n <? 224) then cont c1 && utf8_ok r1
      else match r1 with
      | c2 :: r2 =>
        if (224 <=? n) && (n <? 240) then
          cont c1 && cont c2 && implb (n =? 224) (160 <=? byte_of c1) && implb (n =? 237) (byte_of c1 <? 160) && utf8_ok r2
        else match r2 with
        | c3 :: r3 =>
          (240 <=? n) && (n <? 245) && cont c1 && cont c2 && cont c3
          && implb (n =? 240) (144 <=? byte_of c1) && implb (n =? 244) (byte_of c1 <? 144) && utf8_ok r3
        | [] => false
        end
      | [] => false
      end
    | [] => false
    end
  end.

(** A code point's bytes; a lone surrogate, which a str may hold, gets the
    three bytes its number would have, and no encoder accepts it. *)
Definition utf8_of (n : Z) : list ascii :=
  if n <? 128 then [to_byte n]
  else if n <? 2048 then [to_byte (192 + n / 64); to_byte (128 + n mod 64)]
  else if n <? 65536 then [to_byte (224 + n / 4096); to_byte (128 + n / 64 mod 64); to_byte (128 + n mod 64)]
  else [to_byte (240 + n / 262144); to_byte (128 + n / 4096 mod 64); to_byte (128 + n / 64 mod 64); to_byte (128 + n mod 64)].

(** ** String literals *)

Definition hex_value (c : ascii) : option Z :=
  let n := byte_of c in
  if (48 <=? n) && (n <=? 57) then Some (n - 48)
  else if (97 <=? n) && (n <=? 102) then Some (n - 87)
  else if (65 <=? n) && (n <=? 70) then Some (n - 55)
  else None.
Definition hex4 (a b c d : ascii) : option Z :=
  match hex_value a, hex_value b, hex_value c, hex_value d with
  | Some a, Some b, Some c, Some d => Some (a * 4096 + b * 256 + c * 16 + d)
  | _, _, _, _ => None
  end.
Definition high (n : Z) : bool := (55296 <=? n) && (n <=? 56319).
Definition low (n : Z) : bool := (56320 <=? n) && (n <=? 57343).

Definition simple_escape (c : ascii) : option ascii :=
  if Ascii.eqb c dquote then Some dquote
  else if Ascii.eqb c bslash then Some bslash
  else if Ascii.eqb c "/" then Some "/"%char
  else if Ascii.eqb c "b" then Some "008"%char
  else if Ascii.eqb c "f" then Some "012"%char
  else if Ascii.eqb c "n" then Some "010"%char
  else if Ascii.eqb c "r" then Some "013"%char
  else if Ascii.eqb c "t" then Some "009"%char
  else None.

Definition before (p : list ascii) (r : option (list ascii * list ascii)) : option (list ascii * list ascii) :=
  match r with Some (s, rest) => Some (p ++ s, rest) | None => None end.

(** [scanstring], strict: what a literal says, and the text after its closing
    quote. *)
Fixpoint scan_str (l : list ascii) : option (list ascii * list ascii) :=
  match l with
  | [] => None
  | c :: r =>
    if Ascii.eqb c dquote then Some ([], r)
    else if Ascii.eqb c bslash then
      match r with
      | [] => None
      | d :: r1 =>
        match simple_escape d with
        | Some e => before [e] (scan_str r1)
        | None =>
          if Ascii.eqb d "u" then
            match r1 with
            | h1 :: h2 :: h3 :: h4 :: r2 =>
              match hex4 h1 h2 h3 h4 with
              | None => None
              | Some n =>
                let alone := before (utf8_of n) (scan_str r2) in
                if high n then
                  match r2 with
                  | b :: u :: k1 :: k2 :: k3 :: k4 :: r3 =>
                    if Ascii.eqb b bslash && Ascii.eqb u "u" then
                      match hex4 k1 k2 k3 k4 with
                      | Some m => if low m then before (utf8_of (65536 + (n - 55296) * 1024 + (m - 56320))) (scan_str r3) else alone
                      | None => None
                      end
                    else alone
                  | _ => alone
                  end
                else alone
              end
            | _ => None
            end
          else None
        end
      end
    else if byte_of c <? 32 then None
    else before [c] (scan_str r)
  end.

(** ** Numbers *)

Fixpoint span_digits (l : list ascii) : list ascii * list ascii :=
  match l with
  | c :: r => if is_digit c then let x := span_digits r in (c :: x.1, x.2) else ([], l)
  | [] => ([], [])
  end.

(** The fraction and the exponent, each only when complete. *)
Definition fraction (l : list ascii) : list ascii * list ascii :=
  match l with
  | c :: r =>
    if Ascii.eqb c "." then match span_digits r with ([], _) => ([], l) | (ds, rest) => (c :: ds, rest) end
    else ([], l)
  | [] => ([], [])
  end.
Definition exponent (l : list ascii) : list ascii * list ascii :=
  match l with
  | c :: r =>
    if Ascii.eqb c "e" || Ascii.eqb c "E" then
      let x := match r with
               | d :: r' => if Ascii.eqb d "+" || Ascii.eqb d "-" then ([d], r') else ([], r)
               | [] => ([], [])
               end in
      match span_digits x.2 with ([], _) => ([], l) | (ds, rest) => (c :: x.1 ++ ds, rest) end
    else ([], l)
  | [] => ([], [])
  end.

(** [int(text)] of more digits than this raises a ValueError. *)
Definition MAX_STR_DIGITS : nat := 4300.

Section loads.
Variable float_repr : string -> string.

(** The digits of a number whose sign is read, the first one being [c]. *)
Definition scan_digits (neg : bool) (c : ascii) (r : list ascii) : option (json * list ascii) :=
  if negb (is_digit c) then None
  else
    let i := if Ascii.eqb c "0" then ([], r) else span_digits r in
    let ds := c :: i.1 in
    let f := fraction i.2 in
    let e := exponent f.2 in
    if bool_decide (f.1 = []) && bool_decide (e.1 = []) then
      if (MAX_STR_DIGITS <? length ds)%nat then None
      else Some (JInt (if neg then - digits_value ds else digits_value ds), i.2)
    else Some (JFloat (float_repr (string_of_list_ascii ((if neg then ["-"%char] else []) ++ ds ++ f.1 ++ e.1))), e.2).

(** ** Values *)

Definition space (c : ascii) : bool := let n := byte_of c in (n =? 32) || (n =? 9) || (n =? 10) || (n =? 13).
Fixpoint skip (l : list ascii) : list ascii :=
  match l with c :: r => if space c then skip r else l | [] => [] end.

(** Assignment to a key of a dict. *)
Fixpoint jput (m : list (string * json)) (k : string) (v : json) : list (string * json) :=
  match m with
  | [] => [(k, v)]
  | (k', v') :: m' => if str_eqb k' k then (k, v) :: m' else (k', v') :: jput m' k v
  end.

(** The constants. *)
Definition constants : list (string * json) :=
  [("null", JNull); ("true", JBool true); ("false", JBool false);
   ("NaN", JFloat "NaN"); ("Infinity", JFloat "Infinity"); ("-Infinity", JFloat "-Infinity")].
Fixpoint scan_constant (cs : list (string * json)) (l : list ascii) : option (json * list ascii) :=
  match cs with
  | [] => None
  | (name, v) :: cs' => match strip_prefix (chars name) l with Some r => Some (v, r) | None => scan_constant cs' l end
  end.

Definition scan_atom (l : list ascii) : option (json * list ascii) :=
  match scan_constant constants l with
  | Some x => Some x
  | None =>
    match l with
    | c :: r =>
      if Ascii.eqb c "-" then match r with d :: r' => scan_digits true d r' | [] => None end else scan_digits false c r
    | [] => None
    end
  end.

(** [scan_once], the members of an object from the first key on, and the
    elements of an array from the first value on; [fuel] bounds the calls. *)
Fixpoint scan_once (fuel : nat) (l : list ascii) : option (json * list ascii) :=
  match fuel with
  | O => None
  | S fuel' =>
    match l with
    | [] => None
    | c :: r =>
      if Ascii.eqb c dquote then
        match scan_str r with Some (s, rest) => Some (JStr (string_of_list_ascii s), rest) | None => None end
      else if Ascii.eqb c "{" then
        match skip r with
        | d :: r' => if Ascii.eqb d "}" then Some (JObj [], r') else scan_members fuel' [] (d :: r')
        | [] => None
        end
      else if Ascii.eqb c "[" then
        match skip r with
        | d :: r' => if Ascii.eqb d "]" then Some (JArr [], r') else scan_elements fuel' [] (d :: r')
        | [] => None
        end
      else scan_atom l
    end
  end
with scan_members (fuel : nat) (acc : list (string * json)) (l : list ascii) : option (json * list ascii) :=
  match fuel with
  | O => None
  | S fuel' =>
    match l with
    | c :: r =>
      if Ascii.eqb c dquote then
        match scan_str r with
        | Some (k, r1) =>
          match skip r1 with
          | d :: r2 =>
            if Ascii.eqb d ":" then
              match scan_once fuel' (skip r2) with
              | Some (v, r3) =>
                let acc' := jput acc (string_of_list_ascii k) v in
                match skip r3 with
                | e :: r4 => if Ascii.eqb e "}" then Some (JObj acc', r4)
                             else if Ascii.eqb e "," then scan_members fuel' acc' (skip r4) else None
                | [] => None
                end
              | None => None
              end
            else None
          | [] => None
          end
        | None => None
        end
      else None
    | [] => None
    end
  end
with scan_elements (fuel : nat) (acc : list json) (l : list ascii) : option (json * list ascii) :=
  match fuel with
  | O => None
  | S fuel' =>
    match scan_once fuel' l with
    | Some (v, r1) =>
      match skip r1 with
      | e :: r2 => if Ascii.eqb e "]" then Some (JArr (acc ++ [v]), r2)
                   else if Ascii.eqb e "," then scan_elements fuel' (acc ++ [v]) (skip r2) else None
      | [] => None
      end
    | None => None
    end
  end.

(** [json.loads]: one value with white space around it. *)
Definition loads (text : string) : option json :=
  let l := chars text in
  match scan_once (S (2 * length l)) (skip l) with
  | Some (v, rest) => if bool_decide (skip rest = []) then Some v else None
  | None => None
  end.
End loads.

(** ** Enough fuel *)

Lemma skip_length l : (length (skip l) <= length l)%nat.
Proof. induction l as [|c l IH]; simpl; [done|]. destruct (space c); simpl; lia. Qed.

Lemma before_Some p r s rest : before p r = Some (s, rest) -> exists s', r = Some (s', rest).
Proof. destruct r as [[s' rest']|]; [|done]. intros [= <- <-]. by exists s'. Qed.

Lemma scan_str_length l : forall s rest, scan_str l = Some (s, rest) -> (length rest < length l)%nat.
Proof.
  induction l as [l IH] using (induction_ltof1 _ (@length ascii)). unfold ltof in IH. intros s rest.
  destruct l as [|c r]; [done|]. cbn [scan_str]. destruct (Ascii.eqb c dquote); [intros [= <- <-]; simpl; lia|].
  assert (Hb : forall p r', (length r' <= length r)%nat -> before p (scan_str r') = Some (s, rest) -> (length rest < length (c :: r))%nat).
  { intros p r' Hr (s' & Hs)%before_Some. apply IH in Hs; simpl; lia. }
  destruct (Ascii.eqb c bslash); [|destruct (byte_of c <? 32); [done|by apply Hb]].
  destruct r as [|d r1]; [done|]. destruct (simple_escape d); [apply Hb; simpl; lia|]. destruct (Ascii.eqb d "u"); [|done].
  destruct r1 as [|h1 [|h2 [|h3 [|h4 r2]]]]; [done..|]. destruct (hex4 h1 h2 h3 h4) as [n|]; [|done].
  assert (Ha : before (utf8_of n) (scan_str r2) = Some (s, rest) -> (length rest < length (c :: d :: h1 :: h2 :: h3 :: h4 :: r2))%nat)
    by (apply Hb; simpl; lia).
  destruct (high n); [|exact Ha]. destruct r2 as [|b [|u [|k1 [|k2 [|k3 [|k4 r3]]]]]]; try exact Ha.
  destruct (Ascii.eqb b bslash && Ascii.eqb u "u"); [|exact Ha]. destruct (hex4 k1 k2 k3 k4) as [m|]; [|done].
  destruct (low m); [|exact Ha]. apply Hb. simpl. lia.
Qed.

Lemma span_digits_length l : (length (span_digits l).2 <= length l)%nat.
Proof. induction l as [|c l IH]; simpl; [done|]. destruct (is_digit c); simpl; lia. Qed.

Lemma fraction_length l : (length (fraction l).2 <= length l)%nat.
Proof.
  destruct l as [|c r]; [done|]. simpl. destruct (Ascii.eqb c "."); [|done]. pose proof (span_digits_length r).
  destruct (span_digits r) as [[|d ds] rest]; simpl in *; lia.
Qed.

Lemma exponent_length l : (length (exponent l).2 <= length l)%nat.
Proof.
  destruct l as [|c r]; [done|]. unfold exponent. destruct (Ascii.eqb c "e" || Ascii.eqb c "E"); [|done].
  set (x := match r with [] => _ | _ => _ end). assert (Hx : (length x.2 <= length r)%nat).
  { unfold x. destruct r as [|d r']; [done|]. destruct (Ascii.eqb d "+" || Ascii.eqb d "-"); simpl; lia. }
  pose proof (span_digits_length x.2). destruct (span_digits x.2) as [[|d ds] rest]; simpl in *; lia.
Qed.

Lemma strip_prefix_length p l r : strip_prefix p l = Some r -> (length l = length p + length r)%nat.
Proof.
  revert l. induction p as [|c p IH]; intros l; [intros [= ->]; done|]. destruct l as [|d l]; [done|]. simpl.
  destruct (Ascii.eqb c d); [|done]. intros H. apply IH in H. lia.
Qed.

Section fuel.
Variable float_repr : string -> string.

Lemma scan_digits_length neg c r v rest : scan_digits float_repr neg c r = Some (v, rest) -> (length rest <= length r)%nat.
Proof.
  unfold scan_digits. destruct (is_digit c); [|done]. cbn [negb].
  set (i := if Ascii.eqb c "0" then _ else _). assert (Hi : (length i.2 <= length r)%nat).
  { unfold i. destruct (Ascii.eqb c "0"); [done|apply span_digits_length]. }
  pose proof (fraction_length i.2). pose proof (exponent_length (fraction i.2).2).
  destruct (_ && _); [destruct (_ <? _)%nat; [done|]|]; intros [= <- <-]; lia.
Qed.

Lemma scan_constant_length cs l v rest :
  Forall (fun c => c.1 <> "") cs -> scan_constant cs l = Some (v, rest) -> (length rest < length l)%nat.
Proof.
  intros Hc. induction Hc as [|[name w] cs Hn Hc IH]; [done|]. simpl in *. destruct (strip_prefix (chars name) l) as [r|] eqn:E; [|exact IH].
  apply strip_prefix_length in E. intros [= <- <-]. destruct name; [done|]. simpl in E. lia.
Qed.

Lemma scan_atom_length l v rest : scan_atom float_repr l = Some (v, rest) -> (length rest < length l)%nat.
Proof.
  unfold scan_atom. destruct (scan_constant constants l) as [x|] eqn:E.
  { intros [= ->]. eapply scan_constant_length; [|exact E]. by repeat constructor. }
  destruct l as [|c r]; [done|]. destruct (Ascii.eqb c "-").
  - destruct r as [|d r']; [done|]. intros H%scan_digits_length. simpl. lia.
  - intros H%scan_digits_length. simpl. lia.
Qed.

(** Every scanner consumes text, whatever the fuel. *)
Lemma scan_length fuel :
  (forall l v rest, scan_once float_repr fuel l = Some (v, rest) -> (length rest < length l)%nat)
  /\ (forall acc l v rest, scan_members float_repr fuel acc l = Some (v, rest) -> (length rest < length l)%nat)
  /\ (forall acc l v rest, scan_elements float_repr fuel acc l = Some (v, rest) -> (length rest < length l)%nat).
Proof.
  induction fuel as [|fuel (IHo & IHm & IHe)]; [done|]. split_and!.
  - intros [|c r] v rest; [done|]. cbn [scan_once]. pose proof (skip_length r).
    destruct (Ascii.eqb c dquote).
    { destruct (scan_str r) as [[s r']|] eqn:E; [|done]. apply scan_str_length in E. intros [= <- <-]. simpl. lia. }
    destruct (Ascii.eqb c "{"); [|destruct (Ascii.eqb c "["); [|by intros H0%scan_atom_length]];
      (destruct (skip r) as [|d r']; [done|]); simpl in *; (destruct (Ascii.eqb d _); [intros [= <- <-]; lia|]).
    + intros H1%IHm. simpl in H1. lia.
    + intros H1%IHe. simpl in H1. lia.
  - intros acc [|c r] v rest; [done|]. cbn [scan_members]. destruct (Ascii.eqb c dquote); [|done].
    destruct (scan_str r) as [[k r1]|] eqn:E; [|done]. apply scan_str_length in E. pose proof (skip_length r1).
    destruct (skip r1) as [|d r2]; [done|]. destruct (Ascii.eqb d ":"); [|done]. pose proof (skip_length r2).
    destruct (scan_once float_repr fuel (skip r2)) as [[w r3]|] eqn:Eo; [|done]. apply IHo in Eo. pose proof (skip_length r3).
    destruct (skip r3) as [|e r4]; [done|]. simpl in *. destruct (Ascii.eqb e "}"); [intros [= <- <-]; lia|].
    destruct (Ascii.eqb e ","); [|done]. pose proof (skip_length r4). intros H4%IHm. lia.
  - intros acc l v rest. cbn [scan_elements]. destruct (scan_once float_repr fuel l) as [[w r1]|] eqn:Eo; [|done]. apply IHo in Eo.
    pose proof (skip_length r1). destruct (skip r1) as [|e r2]; [done|]. simpl in *. destruct (Ascii.eqb e "]"); [intros [= <- <-]; lia|].
    destruct (Ascii.eqb e ","); [|done]. pose proof (skip_length r2). intros H4%IHe. lia.
Qed.

(** More fuel than twice the text changes nothing. *)
Lemma scan_fuel n : forall m, (n <= m)%nat ->
  (forall l, (2 * length l < n)%nat -> scan_once float_repr n l = scan_once float_repr m l)
  /\ (forall acc l, (2 * length l < n)%nat -> scan_members float_repr n acc l = scan_members float_repr m acc l)
  /\ (forall acc l, (2 * length l + 1 < n)%nat -> scan_elements float_repr n acc l = scan_elements float_repr m acc l).
Proof.
  induction n as [|n IH]; intros [|m] Hnm; [split_and!; intros; lia..|]. destruct (IH m ltac:(lia)) as (IHo & IHm & IHe). split_and!.
  - intros [|c r] Hl; [done|]. cbn [scan_once]. simpl in Hl. pose proof (skip_length r). destruct (Ascii.eqb c dquote); [done|].
    destruct (Ascii.eqb c "{"); [|destruct (Ascii.eqb c "["); [|done]];
      (destruct (skip r) as [|d r']; [done|]); simpl in *; (destruct (Ascii.eqb d _); [done|]).
    + apply IHm. simpl. lia.
    + apply IHe. simpl. lia.
  - intros acc [|c r] Hl; [done|]. cbn [scan_members]. simpl in Hl. destruct (Ascii.eqb c dquote); [|done].
    destruct (scan_str r) as [[k r1]|] eqn:E; [|done]. apply scan_str_length in E. pose proof (skip_length r1).
    destruct (skip r1) as [|d r2]; [done|]. destruct (Ascii.eqb d ":"); [|done]. pose proof (skip_length r2). simpl in *.
    rewrite <- IHo by lia. destruct (scan_once float_repr n (skip r2)) as [[w r3]|] eqn:Eo; [|done].
    apply (proj1 (scan_length n)) in Eo. pose proof (skip_length r3). destruct (skip r3) as [|e r4]; [done|]. simpl in *.
    destruct (Ascii.eqb e "}"); [done|]. destruct (Ascii.eqb e ","); [|done]. pose proof (skip_length r4). apply IHm. lia.
  - intros acc l Hl. cbn [scan_elements]. rewrite <- IHo by lia. destruct (scan_once float_repr n l) as [[w r1]|] eqn:Eo; [|done].
    apply (proj1 (scan_length n)) in Eo. pose proof (skip_length r1). destruct (skip r1) as [|e r2]; [done|]. simpl in *.
    destruct (Ascii.eqb e "]"); [done|]. destruct (Ascii.eqb e ","); [|done]. pose proof (skip_length r2). apply IHe. lia.
Qed.
End fuel.

(** ** What json.dumps prints is read back *)

(** A dict with its keys in order, recursively. *)
Definition by_key {A} (a b : string * A) : Prop := String.le a.1 b.1.
#[export] Instance by_key_dec {A} : RelDecision (@by_key A).
Proof. intros a b. unfold by_key. apply _. Defined.
#[export] Instance by_key_trans {A} : Transitive (@by_key A).
Proof. intros a b c. unfold by_key. apply transitivity. Qed.
#[export] Instance by_key_total {A} : Total (@by_key A).
Proof. intros a b. unfold by_key. apply total, _. Qed.

Fixpoint norm (j : json) : json :=
  match j with
  | JArr l => JArr (map norm l)
  | JObj m => JObj (merge_sort by_key (map (fun kv => (kv.1, norm kv.2)) m))
  | j => j
  end.

(** Values without floats, whose text [repr] chooses; integers that [int]
    reads; the keys of a dict are distinct. *)
Fixpoint json_ok (j : json) : bool :=
  match j with
  | JInt z => (length (chars (pretty (Z.abs z))) <=? MAX_STR_DIGITS)%nat
  | JFloat _ => false
  | JArr l => forallb json_ok l
  | JObj m => bool_decide (NoDup (map fst m)) && forallb (fun kv => json_ok kv.2) m
  | _ => true
  end.

Lemma NoDup_fst_inj {A} (m : list (string * A)) k a b : NoDup (map fst m) -> (k, a) ∈ m -> (k, b) ∈ m -> a = b.
Proof.
  induction m as [|[k' v] m IH]; [by intros _ ?%elem_of_nil|]. simpl. intros [Hn Hd]%NoDup_cons.
  assert (Hx : forall c, (k', c) ∈ m -> k' ∈ map fst m) by (intros c Hc; apply list_elem_of_fmap; by exists (k', c)).
  rewrite !elem_of_cons. intros [[= -> ->]|Ha] [[= ->]|Hb]; [done|by apply Hx in Hb|subst; by apply Hx in Ha|by apply IH].
Qed.

(** Sorting by key commutes with a map on the values. *)
Lemma sort_map {A B} (f : A -> B) (R : relation (string * B)) `{!RelDecision R, !Total R} m :
  NoDup (map fst m) -> (forall a b, R a b <-> by_key a b) ->
  merge_sort R (map (fun kv => (kv.1, f kv.2)) m) = map (fun kv => (kv.1, f kv.2)) (merge_sort by_key m).
Proof.
  intros Hd HR. assert (Hm : forall l : list (string * A), map fst (map (fun kv => (kv.1, f kv.2)) l) = map fst l)
    by (intros l; rewrite map_map; by apply map_ext).
  assert (HT : Transitive R) by (intros a b c; rewrite !HR; apply transitivity).
  apply (Sorted_unique_strong R).
  - intros [k1 v1] [k2 v2] H1 H2 H12 H21. apply HR in H12, H21. unfold by_key in *. simpl in *.
    assert (k1 = k2) as -> by (by apply (anti_symm String.le)). f_equal.
    rewrite merge_sort_Permutation in H1. apply list_elem_of_fmap in H2 as ([k v] & [= -> ->] & H2).
    rewrite merge_sort_Permutation in H2. apply (NoDup_fst_inj (map (fun kv => (kv.1, f kv.2)) m) k); [by rewrite Hm|done|].
    apply list_elem_of_fmap. by exists (k, v).
  - apply Sorted_merge_sort, _.
  - apply (Sorted_fmap _ by_key); [|apply Sorted_merge_sort, _]. intros a b Hab. by apply HR.
  - by rewrite !merge_sort_Permutation.
Qed.

(** *** Literals and numbers *)

Lemma scan_esc_char_str c x : scan_str (esc_char c ++ x) = before [c] (scan_str x).
Proof. destruct c as [[] [] [] [] [] [] [] []]; reflexivity. Qed.

Lemma scan_esc_str s x : scan_str (esc s ++ dquote :: x) = Some (chars s, x).
Proof. induction s as [|c s IH]; [reflexivity|]. by rewrite esc_cons, <- app_assoc, scan_esc_char_str, IH. Qed.

(** What may follow a number. *)
Definition ends (x : list ascii) : Prop :=
  match x with [] => True | c :: _ => c ∈ [","%char; "}"%char; "]"%char] end.

Lemma span_digits_app ds x : forallb is_digit ds = true -> ends x -> span_digits (ds ++ x) = (ds, x).
Proof.
  intros Hd Hx. induction ds as [|d ds IH]; simpl.
  - destruct x as [|c x]; [done|]. simpl in *. destruct (is_digit c) eqn:E; [|done]. exfalso. clear -Hx E.
    repeat (apply elem_of_cons in Hx as [->|Hx]; [done|]). by apply elem_of_nil in Hx.
  - simpl in Hd. apply andb_true_iff in Hd as [-> Hd]. by rewrite (IH Hd).
Qed.

Lemma ends_plain x : ends x -> fraction x = ([], x) /\ exponent x = ([], x).
Proof.
  destruct x as [|c x]; [done|]. simpl. intros Hx. repeat (apply elem_of_cons in Hx as [->|Hx]; [done|]). by apply elem_of_nil in Hx.
Qed.

(** A positive number has no leading zero. *)
Lemma pretty_go_head n s : (0 < n)%N -> exists c r, pretty_N_go n s = String c r /\ c <> "0"%char.
Proof.
  revert s. induction (N.lt_wf_0 n) as [n _ IH]. intros s Hn. rewrite pretty_N_go_step by lia.
  destruct (decide (n / 10 = 0)%N) as [E|E].
  - rewrite E, pretty_N_go_0. eexists _, _. split; [done|]. apply N.div_small_iff in E; [|done].
    rewrite N.mod_small by lia. clear -Hn E. assert (Ht : forallb (fun k => negb (Ascii.eqb (pretty_N_char (N.of_nat k)) "0")) (seq 1 9) = true) by done.
    rewrite forallb_forall in Ht. specialize (Ht (N.to_nat n)). rewrite N2Nat.id in Ht. intros Hc. rewrite Hc in Ht.
    discriminate Ht. apply in_seq. lia.
  - apply IH; [apply N.div_lt; lia|]. apply N.neq_0_lt_0. exact E.
Qed.

Lemma pretty_N_head (n : N) : exists c r, pretty n = String c r /\ is_digit c = true /\ (c = "0"%char -> r = "").
Proof.
  unfold pretty, pretty_N. case_decide as E; [by exists "0"%char, ""|]. destruct (pretty_go_head n "") as (c & r & Hc & H0); [lia|].
  destruct (pretty_go_digits n "") as [Hd _]; [done|]. rewrite Hc in Hd. simpl in Hd. apply andb_true_iff in Hd as [Hd _].
  by exists c, r.
Qed.

Section roundtrip.
Variable float_repr : string -> string.

Lemma scan_digits_pretty neg (n : N) x :
  (length (chars (pretty n)) <= MAX_STR_DIGITS)%nat -> ends x ->
  exists c r, chars (pretty n) = c :: r /\ is_digit c = true
    /\ scan_digits float_repr neg c (r ++ x) = Some (JInt (if neg then - Z.of_N n else Z.of_N n), x).
Proof.
  intros Hl Hx. destruct (pretty_N_head n) as (c & r & Hp & Hc & H0). exists c, (chars r). rewrite Hp. split; [done|]. split; [done|].
  assert (Hv : digits (chars (pretty (Z.of_N n))) = Some (Z.of_N n)) by (apply digits_pretty; lia).
  assert (Hz : chars (pretty (Z.of_N n)) = chars (pretty n)) by (by destruct n). rewrite Hz, Hp in Hv. unfold digits in Hv.
  destruct (negb _ && forallb is_digit (chars (String c r))) eqn:Ed; [|done]. apply andb_true_iff in Ed as [_ Ed]. injection Hv as Hv.
  assert (Hr : forallb is_digit (chars r) = true) by (simpl in Ed; by apply andb_true_iff in Ed as [_ Ed]).
  unfold scan_digits. rewrite Hc. cbn [negb].
  assert (Hi : (if Ascii.eqb c "0" then ([], chars r ++ x) else span_digits (chars r ++ x)) = (chars r, x)).
  { destruct (Ascii.eqb_spec c "0"); [by rewrite H0|by apply span_digits_app]. }
  rewrite Hi. cbn [fst snd]. destruct (ends_plain x Hx) as [-> He]. cbn [fst snd]. rewrite He. cbn [fst snd].
  rewrite !bool_decide_true by done. cbn [andb]. rewrite Hp in Hl.
  change (c :: chars r) with (chars (String c r)). rewrite (proj2 (Nat.ltb_ge _ _) Hl).
  change (digits_value (chars (String c r))) with (digits_value (c :: chars r)). simpl in Hv. by rewrite Hv.
Qed.

(** No constant starts with a digit or is a sign and a digit. *)
Lemma digit_no_constant c r : is_digit c = true -> scan_constant constants (c :: r) = None.
Proof. by destruct c as [[] [] [] [] [] [] [] []]. Qed.
Lemma minus_no_constant c r : is_digit c = true -> scan_constant constants ("-"%char :: c :: r) = None.
Proof. by destruct c as [[] [] [] [] [] [] [] []]. Qed.

Lemma scan_int z x : json_ok (JInt z) = true -> ends x -> scan_atom float_repr (chars (pretty z) ++ x) = Some (JInt z, x).
Proof.
  intros Hz Hx. simpl in Hz. apply Nat.leb_le in Hz. assert (Habs : chars (pretty (Z.abs z)) = chars (pretty (Z.to_N (Z.abs z)))) by (by destruct z).
  rewrite Habs in Hz. destruct (scan_digits_pretty (z <? 0) (Z.to_N (Z.abs z)) x Hz Hx) as (c & r & Hp & Hc & Hs).
  rewrite Z2N.id in Hs by lia. unfold scan_atom. destruct (z <? 0) eqn:E; [apply Z.ltb_lt in E|apply Z.ltb_ge in E].
  - assert (Hm : chars (pretty z) = "-"%char :: chars (pretty (Z.to_N (Z.abs z)))) by (by destruct z). rewrite Hm, Hp. cbn [app].
    rewrite minus_no_constant by done. cbn [Ascii.eqb]. rewrite Hs. do 2 f_equal. f_equal. lia.
  - assert (Hm : chars (pretty z) = chars (pretty (Z.to_N (Z.abs z)))) by (by destruct z). rewrite Hm, Hp. cbn [app].
    rewrite digit_no_constant by done. assert (Hd : Ascii.eqb c "-" = false) by (clear -Hc; by destruct c as [[] [] [] [] [] [] [] []]).
    rewrite Hd, Hs. do 2 f_equal. f_equal. lia.
Qed.

(** *** Arrays and objects *)

Definition read_back (j : json) : Prop := forall x fuel,
  ends x -> (2 * length (chars (py_dumps j) ++ x) < fuel)%nat ->
  scan_once float_repr fuel (chars (py_dumps j) ++ x) = Some (norm j, x).

(** A printed value starts with neither space nor closing bracket. *)
Definition starts (c : ascii) : bool := negb (space c || Ascii.eqb c "}" || Ascii.eqb c "]").

Lemma digit_starts c : is_digit c = true -> starts c = true.
Proof. by destruct c as [[] [] [] [] [] [] [] []]. Qed.

Lemma pretty_starts (z : Z) : exists c r, chars (pretty z) = c :: r /\ starts c = true /\ (is_digit c || Ascii.eqb c "-") = true.
Proof.
  destruct (pretty_N_head (Z.to_N (Z.abs z))) as (c & r & Hp & Hc & _). destruct z as [|p|p].
  - by exists "0"%char, [].
  - exists c, (chars r). change (pretty (Z.pos p)) with (pretty (Z.to_N (Z.abs (Z.pos p)))). rewrite Hp, Hc. by split_and!; [|apply digit_starts|].
  - exists "-"%char, (c :: chars r). change (pretty (Z.neg p)) with ("-" +:+ pretty (Z.to_N (Z.abs (Z.neg p)))). by rewrite Hp.
Qed.

Lemma dumps_starts j : json_ok j = true -> exists c r, chars (py_dumps j) = c :: r /\ starts c = true.
Proof.
  destruct j as [|[]|z|l|s|l|m]; try (intros _; by eexists _, _); [|done].
  intros _. destruct (pretty_starts z) as (c & r & ? & ? & _). by exists c, r.
Qed.

Lemma skip_dumps j x : json_ok j = true -> skip (chars (py_dumps j) ++ x) = chars (py_dumps j) ++ x.
Proof.
  intros (c & r & -> & Hc)%dumps_starts. simpl. unfold starts in Hc. by destruct (space c).
Qed.

Lemma skip_mark c x : space c = false -> skip (c :: x) = c :: x.
Proof. simpl. by intros ->. Qed.

Lemma ends_bracket c x : c ∈ [","%char; "}"%char; "]"%char] -> ends (c :: x).
Proof. done. Qed.

Lemma elements_read l : Forall (fun j => json_ok j = true /\ read_back j) l -> l <> [] -> forall acc x fuel,
  (2 * length (chars (String.concat "," (map py_dumps l)) ++ "]"%char :: x) + 1 < fuel)%nat ->
  scan_elements float_repr fuel acc (chars (String.concat "," (map py_dumps l)) ++ "]"%char :: x) = Some (JArr (acc ++ map norm l), x).
Proof.
  induction 1 as [|j l [Hok Hj] Hl IH]; [done|]. intros _ acc x [|fuel] Hf; [lia|]. destruct l as [|j' l].
  - cbn [scan_elements map String.concat] in *. rewrite Hj; [done|by apply ends_bracket; do 2 right; left|lia].
  - assert (Hc : chars (String.concat "," (map py_dumps (j :: j' :: l))) ++ "]"%char :: x
      = chars (py_dumps j) ++ ","%char :: chars (String.concat "," (map py_dumps (j' :: l))) ++ "]"%char :: x).
    { change (String.concat "," (map py_dumps (j :: j' :: l))) with (py_dumps j +:+ "," +:+ String.concat "," (map py_dumps (j' :: l))).
      by rewrite !chars_app, <- !app_assoc. }
    rewrite Hc in *. destruct (dumps_starts j Hok) as (c & r & Hcr & _). rewrite length_app in Hf.
    assert (Hpos : (1 <= length (chars (py_dumps j)))%nat) by (rewrite Hcr; simpl; lia). cbn [length] in Hf.
    cbn [scan_elements]. rewrite Hj; [|by apply ends_bracket; left|rewrite length_app; cbn [length]; lia].
    rewrite (skip_mark ",") by done. change (Ascii.eqb "," "]") with false. change (Ascii.eqb "," ",") with true. cbv beta iota.
    assert (Hsk : skip (chars (String.concat "," (map py_dumps (j' :: l))) ++ "]"%char :: x)
      = chars (String.concat "," (map py_dumps (j' :: l))) ++ "]"%char :: x).
    { apply Forall_cons in Hl as [[Hok' _] _]. destruct l; [by apply skip_dumps|].
      change (String.concat "," (map py_dumps (j' :: ?k :: ?y))) with (py_dumps j' +:+ "," +:+ String.concat "," (map py_dumps (k :: y))).
      rewrite !chars_app, <- !app_assoc. by apply skip_dumps. }
    rewrite Hsk, IH by (done || lia). by rewrite <- app_assoc.
Qed.

Lemma jput_new m k v : k ∉ map fst m -> jput m k v = m ++ [(k, v)].
Proof.
  induction m as [|[k' v'] m IH]; [done|]. simpl. intros [Hn Hm]%not_elem_of_cons. rewrite (proj2 (str_eqb_neq _ _)) by done.
  by rewrite IH.
Qed.

(** The printed members of a dict, from its members. *)
Definition printed_of (ms : list (string * json)) : list (string * string) := map (fun kv => (kv.1, py_dumps kv.2)) ms.
Definition normed (ms : list (string * json)) : list (string * json) := map (fun kv => (kv.1, norm kv.2)) ms.

Lemma members_read ms : Forall (fun kv => json_ok kv.2 = true /\ read_back kv.2) ms -> ms <> [] -> forall acc x fuel,
  NoDup (map fst acc ++ map fst ms) ->
  (2 * length (chars (String.concat "," (map member (printed_of ms))) ++ "}"%char :: x) < fuel)%nat ->
  scan_members float_repr fuel acc (chars (String.concat "," (map member (printed_of ms))) ++ "}"%char :: x)
  = Some (JObj (acc ++ normed ms), x).
Proof.
  induction 1 as [|[k v] ms [Hok Hv] Hms IH]; [done|]. intros _ acc x [|fuel] Hd Hf; [lia|]. simpl in Hok, Hv.
  assert (Hk : k ∉ map fst acc).
  { apply NoDup_app in Hd as (_ & Hd & _). intros Hin. apply (Hd k Hin). by left. }
  destruct (members_head k (py_dumps v) (printed_of ms) x) as (r & E & Hr & Hc).
  change (printed_of ((k, v) :: ms)) with ((k, py_dumps v) :: printed_of ms) in *. rewrite E in *.
  cbn [scan_members]. change (Ascii.eqb dquote dquote) with true. cbv beta iota. rewrite scan_esc_str.
  rewrite (skip_mark ":") by done. change (Ascii.eqb ":" ":") with true. cbv beta iota. rewrite (skip_dumps v) by done.
  cbn [length] in Hf. rewrite length_app in Hf. cbn [length] in Hf.
  assert (Hre : ends r) by (destruct Hc as [[_ ->]|[_ ->]]; apply ends_bracket; [by right; left|by left]).
  rewrite Hv by (done || lia). rewrite length_app in Hf. rewrite string_of_list_ascii_of_string, jput_new by done.
  destruct Hc as [[Hn ->]|[Hn ->]].
  - destruct ms; [|done]. by rewrite (skip_mark "}").
  - rewrite (skip_mark ",") by done. change (Ascii.eqb "," "}") with false. change (Ascii.eqb "," ",") with true. cbv beta iota.
    destruct ms as [|[k' v'] ms]; [done|].
    assert (Hsk : skip (chars (String.concat "," (map member (printed_of ((k', v') :: ms)))) ++ "}"%char :: x)
      = chars (String.concat "," (map member (printed_of ((k', v') :: ms)))) ++ "}"%char :: x).
    { destruct (members_head k' (py_dumps v') (printed_of ms) x) as (r' & E' & _).
      change (printed_of ((k', v') :: ms)) with ((k', py_dumps v') :: printed_of ms). by rewrite E'. }
    rewrite Hsk, IH; [|done| |cbn [length] in Hf; lia].
    + by rewrite <- app_assoc.
    + by rewrite map_app, <- app_assoc.
Qed.

(** Objects with members. *)
Lemma object_read ms x fuel :
  Forall (fun kv => json_ok kv.2 = true /\ read_back kv.2) ms -> NoDup (map fst ms) -> ends x ->
  (2 * length (chars ("{" +:+ String.concat "," (map member (printed_of ms)) +:+ "}") ++ x) < fuel)%nat ->
  scan_once float_repr fuel (chars ("{" +:+ String.concat "," (map member (printed_of ms)) +:+ "}") ++ x) = Some (JObj (normed ms), x).
Proof.
  intros Hms Hd Hx. rewrite !chars_app, <- !app_assoc. change (chars "{" ++ ?y) with ("{"%char :: y). change (chars "}" ++ x) with ("}"%char :: x).
  destruct fuel as [|fuel]; [lia|]. intros Hf. cbn [scan_once]. change (Ascii.eqb "{" dquote) with false. change (Ascii.eqb "{" "{") with true.
  cbv beta iota. destruct ms as [|[k v] ms]; [done|].
  destruct (members_head k (py_dumps v) (printed_of ms) x) as (r & E & _).
  assert (Hsk : skip (chars (String.concat "," (map member (printed_of ((k, v) :: ms)))) ++ "}"%char :: x)
    = chars (String.concat "," (map member (printed_of ((k, v) :: ms)))) ++ "}"%char :: x).
  { change (printed_of ((k, v) :: ms)) with ((k, py_dumps v) :: printed_of ms). by rewrite E. }
  rewrite Hsk. assert (Hm := members_read ((k, v) :: ms) Hms ltac:(done) [] x fuel Hd).
  change (printed_of ((k, v) :: ms)) with ((k, py_dumps v) :: printed_of ms) in *. rewrite E in *. cbn [length] in Hf.
  change (Ascii.eqb dquote "}") with false. cbv beta iota. apply Hm. cbn [length] in Hf |- *. lia.
Qed.

Lemma array_read l x fuel :
  Forall (fun j => json_ok j = true /\ read_back j) l -> ends x ->
  (2 * length (chars ("[" +:+ String.concat "," (map py_dumps l) +:+ "]") ++ x) < fuel)%nat ->
  scan_once float_repr fuel (chars ("[" +:+ String.concat "," (map py_dumps l) +:+ "]") ++ x) = Some (JArr (map norm l), x).
Proof.
  intros Hl Hx. rewrite !chars_app, <- !app_assoc. change (chars "[" ++ ?y) with ("["%char :: y). change (chars "]" ++ x) with ("]"%char :: x).
  destruct fuel as [|fuel]; [lia|]. intros Hf. cbn [scan_once]. change (Ascii.eqb "[" dquote) with false. change (Ascii.eqb "[" "{") with false.
  change (Ascii.eqb "[" "[") with true. cbv beta iota. destruct l as [|j l]; [done|].
  assert (Hh : exists c r, chars (String.concat "," (map py_dumps (j :: l))) ++ "]"%char :: x = c :: r /\ starts c = true).
  { apply Forall_cons in Hl as [[Hok _] _]. destruct (dumps_starts j Hok) as (c & r & Hc & Hs). destruct l as [|j' l].
    - cbn [map String.concat]. rewrite Hc. by eexists _, _.
    - change (String.concat "," (map py_dumps (j :: j' :: l))) with (py_dumps j +:+ "," +:+ String.concat "," (map py_dumps (j' :: l))).
      rewrite chars_app, Hc. by eexists _, _. }
  assert (Hm := elements_read (j :: l) Hl ltac:(done) [] x fuel). destruct Hh as (c & r & E & Hs). rewrite E in *.
  unfold starts in Hs. apply negb_true_iff in Hs. apply orb_false_iff in Hs as [[Hs _]%orb_false_iff Hb].
  rewrite skip_mark by done. rewrite Hb. apply Hm. cbn [length] in Hf |- *. lia.
Qed.

Lemma NoDup_sorted {A} (m : list (string * A)) : NoDup (map fst m) -> NoDup (map fst (merge_sort by_key m)).
Proof. apply NoDup_Permutation_proper. by apply Permutation_map, merge_sort_Permutation. Qed.

(** Numbers go to the last branch of the scanner. *)
Lemma atom_branch fuel c r : (is_digit c || Ascii.eqb c "-") = true -> scan_once float_repr (S fuel) (c :: r) = scan_atom float_repr (c :: r).
Proof.
  intros Hc. cbn [scan_once].
  assert (Hd : Ascii.eqb c dquote = false /\ Ascii.eqb c "{" = false /\ Ascii.eqb c "[" = false)
    by (destruct c as [[] [] [] [] [] [] [] []]; by try discriminate Hc).
  destruct Hd as (-> & -> & ->). done.
Qed.

Lemma dumps_read j : json_ok j = true -> read_back j.
Proof.
  induction j as [|b|z|l|s|l IH|m IH] using json_nested; intros Hok x fuel Hx Hf; (destruct fuel as [|fuel]; [lia|]); try done.
  - by destruct b.
  - change (norm (JInt z)) with (JInt z). rewrite <- (scan_int z x Hok Hx). destruct (pretty_starts z) as (c & r & Hc & _ & Hd).
    change (py_dumps (JInt z)) with (pretty z). rewrite Hc. by apply atom_branch.
  - change (py_dumps (JStr s)) with (py_str s). rewrite chars_py_str. cbn [app]. rewrite <- app_assoc. cbn [scan_once].
    change (Ascii.eqb dquote dquote) with true. cbv beta iota. change ([dquote] ++ x) with (dquote :: x).
    by rewrite scan_esc_str, string_of_list_ascii_of_string.
  - apply array_read; [|done|done]. simpl in Hok. rewrite forallb_forall in Hok. rewrite Forall_forall in IH |- *.
    intros j Hj. assert (json_ok j = true) by (by apply Hok, list_elem_of_In). auto.
  - simpl in Hok. apply andb_true_iff in Hok as [Hd%bool_decide_eq_true Hok]. rewrite forallb_forall in Hok.
    assert (Hn : norm (JObj m) = JObj (normed (merge_sort by_key m))) by (simpl; f_equal; apply sort_map; [apply _|done|intros; reflexivity]).
    assert (Hp : printed m = printed_of (merge_sort by_key m)) by (apply (sort_map py_dumps key_le); [done|intros; reflexivity]).
    rewrite Hn. revert Hf. rewrite dumps_obj, Hp. apply object_read; [|by apply NoDup_sorted|done].
    rewrite Forall_forall in IH |- *. intros [k v] Hi. rewrite merge_sort_Permutation in Hi.
    assert (json_ok v = true) by (by apply (Hok (k, v)), list_elem_of_In). split; [done|]. by apply (IH (k, v)).
Qed.

(** [json.loads] of a printed value is the value, its dicts in key order. *)
Lemma loads_dumps j : json_ok j = true -> loads float_repr (py_dumps j) = Some (norm j).
Proof.
  intros Hok. unfold loads. assert (Hr := dumps_read j Hok [] (S (2 * length (chars (py_dumps j)))) I).
  rewrite app_nil_r in Hr. assert (Hs := skip_dumps j [] Hok). rewrite app_nil_r in Hs. rewrite Hs, Hr by lia. done.
Qed.
End roundtrip.
