(* ===== verification/Evidence.v ===== *)
(** * Approval and suppression evidence (services/mount_evidence.py)

    [BoundMountEvidenceVerifier.verify] and [issue_bound_mount_evidence], with
    the HMAC helpers of services/canonical.py and base64 as binascii decodes it
    when it does not validate.  Text is UTF-8; times are microseconds.  A mount
    is the record its row keeps. *)

From Stdlib Require Import ZArith Lia Ascii String.
From stdpp Require Import base gmap strings list pretty sorting.
From S2P Require Import Prelude Canon PyJson JsonScan MountModels Lease Consequence Permits Identity HttpSig HttpSigProperties PyLoads.

Local Open Scope Z_scope.

Definition TOKEN_VERSION : Z := 1.
Definition MAX_EVIDENCE_TTL_SECONDS : Z := 600.
Definition MAX_FUTURE_SKEW_SECONDS : Z := 30.
Definition second : Z := 1000000.

Record VerifiedMountEvidence := mk_verified { ve_jti : string; ve_kind : string; ve_expires_at : Z }.

(** What verification and issuing raise: a str with a lone surrogate does not
    encode, [compare_digest] takes ASCII only. *)
Inductive evidence_exc :=
  | UnicodeEncodeError
  | CompareTypeError
  | IssueValueError (m : string).

(** ** base64 *)

(** The value of a character after ["-_"] were translated to ["+/"]. *)
Definition any_b64_val (c : ascii) : option Z := b64_val (std_char c).

(** [binascii.a2b_base64], not strict: [quad] characters of the current group
    are read, [left] holds their bits that are not yet written, [pads] counts
    equals signs; other characters are skipped. *)
Fixpoint a2b (l : list ascii) (quad : nat) (left : Z) (pads : nat) : option (list ascii) :=
  match l with
  | [] => match quad with O => Some [] | _ => None end
  | c :: r =>
    if Ascii.eqb c "=" then
      if (2 <=? quad)%nat then
        if (4 <=? quad + S pads)%nat then Some [] else a2b r quad left (S pads)
      else a2b r quad left pads
    else match any_b64_val c with
    | None => a2b r quad left pads
    | Some v =>
      match quad with
      | 0 => a2b r 1 v 0
      | 1 => cons (to_byte (left * 4 + v / 16)) <$> a2b r 2 (v mod 16) 0
      | 2 => cons (to_byte (left * 16 + v / 4)) <$> a2b r 3 (v mod 4) 0
      | _ => cons (to_byte (left * 64 + v)) <$> a2b r 0 0 0
      end
    end
  end%nat.

(** [_b64decode]; text that is not ASCII raises a ValueError. *)
Definition b64decode (value : list ascii) : option (list ascii) :=
  if forallb (fun c => byte_of c <? 128) value
  then a2b (value ++ repeat "="%char ((4 - length value mod 4) mod 4)%nat) 0 0 0
  else None.

(** [len] of a str: its code points. *)
Definition str_len (s : string) : nat := length (filter (fun c => cont c = false) (chars s)).

Section evidence.
Context `{EiWorld, !Mac} (float_repr : string -> string).

Definition sign_payload_hmac (payload : dict) (key : string) : string := b64u (hmac_raw key (canonical_json payload)).

Definition verify_signature_hmac (payload : dict) (signature key : string) : res evidence_exc bool :=
  if all_ascii signature then Ok (str_eqb (sign_payload_hmac payload key) signature) else Err CompareTypeError.

Definition nonce_hash (nonce : string) : string := sha256_hex nonce.
Definition scope_hash (rec : mrecord) : string :=
  sha256_hex (canonical_json [("workspace", JStr (tk_workspace (mc_token rec))); ("project", JStr (tk_project (mc_token rec)))]).

Definition parse_time (v : json) : option Z :=
  match v with JStr s => fromisoformat (replace_Z s) | _ => None end.

(** The fields that bind evidence to what it is presented for. *)
Definition expected (principal : string) (rec : mrecord) (action nonce : string) : list (string * string) :=
  [("principal", principal); ("mount_id", tk_mount_id (mc_token rec)); ("action", action);
   ("nonce_hash", nonce_hash nonce); ("scope_hash", scope_hash rec)].

(** [payload.get(field) == value] for text, and for the version: a bool or a
    float may equal an int. *)
Definition is_version (v : json) : bool :=
  match v with JInt z => z =? TOKEN_VERSION | JBool b => b | JFloat l => float_is l TOKEN_VERSION | _ => false end.

(** The payload of a token, with its signature: the bytes before the first dot
    are JSON text of a dict. *)
Definition open_token (token : string) : option (list ascii * dict * string) :=
  match cut "." (chars token) with
  | None => None
  | Some (encoded, signature) =>
    match b64decode encoded with
    | None => None
    | Some bytes =>
      if utf8_ok bytes then
        match loads float_repr (string_of_list_ascii bytes) with
        | Some (JObj payload) => Some (bytes, payload, string_of_list_ascii signature)
        | _ => None
        end
      else None
    end
  end.

(** The checks on a payload whose signature holds. *)
Definition judge (now : Z) (payload : dict) (kind principal : string) (rec : mrecord) (action nonce : string)
    : option VerifiedMountEvidence * string :=
  if negb (is_version (dget payload "v") && is_str (dget payload "kind") kind) then (None, "evidence_type_invalid")
  else if existsb (fun fv => negb (is_str (dget payload fv.1) fv.2)) (expected principal rec action nonce)
  then (None, "evidence_binding_mismatch")
  else match dget payload "jti" with
  | JStr jti =>
    if str_eqb jti "" || (255 <? str_len jti)%nat then (None, "evidence_jti_invalid")
    else match parse_time (dget payload "iat"), parse_time (dget payload "exp") with
    | Some issued_at, Some expires_at =>
      if now + MAX_FUTURE_SKEW_SECONDS * second <? issued_at then (None, "evidence_not_yet_valid")
      else if expires_at <=? now then (None, "evidence_expired")
      else if expires_at <=? issued_at then (None, "evidence_time_invalid")
      else if MAX_EVIDENCE_TTL_SECONDS * second <? expires_at - issued_at then (None, "evidence_ttl_excessive")
      else (Some (mk_verified jti kind expires_at), "verified")
    | _, _ => (None, "evidence_time_invalid")
    end
  | _ => (None, "evidence_jti_invalid")
  end.

Definition verify (approval_key suppression_key : string) (now : Z) (token : option string) (kind principal : string)
    (rec : mrecord) (action nonce : string) : res evidence_exc (option VerifiedMountEvidence * string) :=
  let key := if str_eqb kind "human_approval" then approval_key else suppression_key in
  if str_eqb key "" then Ok (None, "verification_key_unavailable")
  else match token with
  | None => Ok (None, "evidence_missing")
  | Some token =>
    if str_eqb token "" then Ok (None, "evidence_missing")
    else match open_token token with
    | None => Ok (None, "evidence_malformed")
    | Some (bytes, payload, signature) =>
      let text := canonical_json payload in
      if negb (utf8_ok (chars text)) then Err UnicodeEncodeError
      else if negb (bool_decide (chars text = bytes)) then Ok (None, "evidence_not_canonical")
      else
        let? valid := verify_signature_hmac payload signature key in
        if valid then Ok (judge now payload kind principal rec action nonce) else Ok (None, "evidence_signature_invalid")
    end
  end.

(** [issue_bound_mount_evidence]; [drawn] is the jti it makes up. *)
Definition evidence_payload (kind jti principal : string) (rec : mrecord) (action nonce : string) (issued_at ttl_seconds : Z) : dict :=
  [("v", JInt TOKEN_VERSION); ("kind", JStr kind); ("jti", JStr jti); ("principal", JStr principal);
   ("mount_id", JStr (tk_mount_id (mc_token rec))); ("action", JStr action); ("nonce_hash", JStr (nonce_hash nonce));
   ("scope_hash", JStr (scope_hash rec)); ("iat", JStr (iso issued_at)); ("exp", JStr (iso (issued_at + ttl_seconds * second)))].

Definition issue (kind signing_key principal : string) (rec : mrecord) (action nonce : string) (ttl_seconds : Z)
    (jti : option string) (drawn : string) (issued_at : Z) : res evidence_exc string :=
  if str_eqb signing_key "" then Err (IssueValueError "signing_key is required")
  else if (ttl_seconds <? 1) || (MAX_EVIDENCE_TTL_SECONDS <? ttl_seconds) then Err (IssueValueError "invalid evidence ttl")
  else
    let payload := evidence_payload kind (Consequence.py_or jti drawn) principal rec action nonce issued_at ttl_seconds in
    if negb (utf8_ok (chars (canonical_json payload))) then Err UnicodeEncodeError
    else Ok (b64u (canonical_json payload) +:+ "." +:+ sign_payload_hmac payload signing_key).

(** What the registry asks of its verifier: the jti the token proves. *)
Definition bound_verifier (approval_key suppression_key : string) (now : Z) (token : option string) (kind principal : string)
    (rec : mrecord) (action nonce : string) : option string :=
  match verify approval_key suppression_key now token kind principal rec action nonce with
  | Ok (Some ev, _) => Some (ve_jti ev)
  | _ => None
  end.
End evidence.
