(* ===== verification/EvidenceProperties.v ===== *)
(** * What approval evidence proves

    Issued evidence verifies until it expires; whatever verifies was signed
    under the verifier's key for exactly this principal, mount, action, nonce
    and scope; and a gated action is allowed only with such evidence. *)

From Stdlib Require Import ZArith Lia Ascii String.
From stdpp Require Import base gmap strings list pretty sorting.
From S2P Require Import Prelude Canon PyJson JsonScan MountModels Lease Biscuit Consequence Mounts Permits Engine Registry RegistryProofs RegistryProperties LedgerProofs Identity HttpSig HttpSigProperties PyLoads Evidence.

Local Open Scope Z_scope.

(** ** base64 *)

Lemma any_b64_char (n : Z) : 0 <= n < 64 -> any_b64_val (b64_char n) = Some n /\ Ascii.eqb (b64_char n) "=" = false.
Proof.
  intros Hn. assert (Hv := b64_char_val n Hn). destruct (alphabet_char (b64_char n)) as [Hs He]; [by rewrite Hv|].
  unfold any_b64_val. rewrite Hs, Hv. split; [done|]. by apply Ascii.eqb_neq.
Qed.

Lemma a2b_step (n : Z) r quad left pads : 0 <= n < 64 ->
  a2b (b64_char n :: r) quad left pads =
  match quad with
  | 0 => a2b r 1 n 0
  | 1 => cons (to_byte (left * 4 + n / 16)) <$> a2b r 2 (n mod 16) 0
  | 2 => cons (to_byte (left * 16 + n / 4)) <$> a2b r 3 (n mod 4) 0
  | _ => cons (to_byte (left * 64 + n)) <$> a2b r 0 0 0
  end%nat.
Proof. intros Hn. cbn [a2b]. by destruct (any_b64_char n Hn) as [-> ->]. Qed.

Lemma a2b_encode k l : (length l <= k)%nat ->
  a2b (b64u_list l ++ repeat "="%char ((4 - length (b64u_list l) mod 4) mod 4)%nat) 0 0 0 = Some l.
Proof.
  revert l. induction k as [|k IH]; intros l Hk.
  { destruct l; [done|simpl in Hk; lia]. }
  destruct l as [|a [|b [|c l]]]; [done| | |].
  - pose proof (byte_of_bound a). cbn [b64u_list app length]. rewrite !a2b_step by zdiv. cbn. do 2 f_equal. apply to_byte_of. zdiv.
  - pose proof (byte_of_bound a). pose proof (byte_of_bound b). cbn [b64u_list app length]. rewrite !a2b_step by zdiv. cbn.
    do 2 f_equal; [|f_equal]; apply to_byte_of; zdiv.
  - pose proof (byte_of_bound a). pose proof (byte_of_bound b). pose proof (byte_of_bound c). cbn [b64u_list app]. rewrite !a2b_step by zdiv.
    assert (Hm : (length (b64_char ((byte_of a * 65536 + byte_of b * 256 + byte_of c) / 262144)
      :: b64_char ((byte_of a * 65536 + byte_of b * 256 + byte_of c) / 4096 mod 64)
      :: b64_char ((byte_of a * 65536 + byte_of b * 256 + byte_of c) / 64 mod 64)
      :: b64_char ((byte_of a * 65536 + byte_of b * 256 + byte_of c) mod 64) :: b64u_list l) mod 4 = length (b64u_list l) mod 4)%nat).
    { cbn [length]. replace (S (S (S (S (length (b64u_list l)))))) with (length (b64u_list l) + 1 * 4)%nat by lia. apply Nat.Div0.mod_add. }
    rewrite Hm, IH by (simpl in Hk; lia). cbn. do 2 f_equal; [|f_equal; [|f_equal]]; apply to_byte_of; zdiv.
Qed.

Lemma alphabet_ascii c : is_Some (b64_val c) -> byte_of c < 128 /\ c <> "."%char.
Proof. intros Hc. destruct c as [[] [] [] [] [] [] [] []]; (vm_compute in Hc; by destruct Hc) || done. Qed.

Lemma b64decode_encode l : b64decode (b64u_list l) = Some l.
Proof.
  unfold b64decode. destruct (b64u_list_alphabet (length l) l) as [HF _]; [done|].
  assert (Ha : forallb (fun c => byte_of c <? 128) (b64u_list l) = true).
  { apply forallb_forall. intros c Hc%list_elem_of_In. rewrite Forall_forall in HF. apply Z.ltb_lt. by apply alphabet_ascii, HF. }
  rewrite Ha. by apply (a2b_encode (length l)).
Qed.

Lemma b64u_ascii raw : all_ascii (b64u raw) = true.
Proof.
  unfold all_ascii, b64u. rewrite list_ascii_of_string_of_list_ascii. destruct (b64u_list_alphabet (length (chars raw)) (chars raw)) as [HF _]; [done|].
  apply forallb_forall. intros c Hc%list_elem_of_In. rewrite Forall_forall in HF. apply Nat.ltb_lt.
  destruct (alphabet_ascii c (HF c Hc)) as [Hb _]. unfold byte_of in Hb. lia.
Qed.

(** ** UTF-8 *)

Lemma utf8_app a b : utf8_ok a = true -> utf8_ok (a ++ b) = utf8_ok b.
Proof.
  induction a as [a IH] using (induction_ltof1 _ (@length ascii)). unfold ltof in IH. destruct a as [|c r]; [done|]. cbn [app utf8_ok].
  destruct (byte_of c <? 128); [intros Hr; apply IH; [simpl; lia|done]|].
  destruct r as [|c1 r1]; [done|]. cbn [app]. destruct ((194 <=? byte_of c) && (byte_of c <? 224)).
  { intros [H1 Hr]%andb_true_iff. rewrite H1. apply IH; [simpl; lia|done]. }
  destruct r1 as [|c2 r2]; [done|]. cbn [app]. destruct ((224 <=? byte_of c) && (byte_of c <? 240)).
  { intros [H1 Hr]%andb_true_iff. rewrite H1. apply IH; [simpl; lia|done]. }
  destruct r2 as [|c3 r3]; [done|]. cbn [app]. intros [H1 Hr]%andb_true_iff. rewrite H1. apply IH; [simpl; lia|done].
Qed.

Lemma ascii_utf8 l : forallb (fun c => byte_of c <? 128) l = true -> utf8_ok l = true.
Proof. induction l as [|c l IH]; [done|]. cbn [forallb utf8_ok]. intros [Hc Hl]%andb_true_iff. rewrite Hc. by apply IH. Qed.

Lemma esc_high c : 128 <= byte_of c -> esc_char c = [c].
Proof.
  intros Hc. unfold byte_of in Hc. unfold esc_char.
  repeat match goal with |- context [(nat_of_ascii c =? ?k)%nat] => rewrite (proj2 (Nat.eqb_neq (nat_of_ascii c) k)) by lia end.
  by rewrite (proj2 (Nat.ltb_ge (nat_of_ascii c) 32)) by lia.
Qed.

Lemma esc_low c x : byte_of c < 128 -> utf8_ok (esc_char c ++ x) = utf8_ok x.
Proof.
  intros Hc. apply utf8_app. apply ascii_utf8. destruct c as [[] [] [] [] [] [] [] []]; done || (vm_compute in Hc; discriminate Hc).
Qed.

Lemma cont_high c : cont c = true -> 128 <= byte_of c.
Proof. unfold cont. intros [H _]%andb_true_iff. by apply Z.leb_le. Qed.

Lemma utf8_esc l : utf8_ok l = true -> utf8_ok (concat (map esc_char l)) = true.
Proof.
  induction l as [l IH] using (induction_ltof1 _ (@length ascii)). unfold ltof in IH. destruct l as [|c r]; [done|]. cbn [utf8_ok].
  destruct (byte_of c <? 128) eqn:E; [apply Z.ltb_lt in E; intros Hr; cbn [map concat]; rewrite esc_low by done; apply IH; [simpl; lia|done]|].
  apply Z.ltb_ge in E. destruct r as [|c1 r1]; [done|].
  destruct ((194 <=? byte_of c) && (byte_of c <? 224)) eqn:E2.
  { intros [H1 Hr]%andb_true_iff. cbn [map concat]. rewrite !esc_high by (done || by apply cont_high). cbn [app utf8_ok].
    rewrite (proj2 (Z.ltb_ge _ _) E), E2, H1. apply IH; [simpl; lia|done]. }
  destruct r1 as [|c2 r2]; [done|]. destruct ((224 <=? byte_of c) && (byte_of c <? 240)) eqn:E3.
  { intros [H1 Hr]%andb_true_iff. assert (Hc : cont c1 = true /\ cont c2 = true) by (clear -H1; rewrite !andb_true_iff in H1; tauto).
    destruct Hc as [Hc1 Hc2]. cbn [map concat]. rewrite !esc_high by (done || by apply cont_high). cbn [app utf8_ok].
    rewrite (proj2 (Z.ltb_ge _ _) E), E2, E3, H1. apply IH; [simpl; lia|done]. }
  destruct r2 as [|c3 r3]; [done|]. intros [H1 Hr]%andb_true_iff.
  assert (Hc : cont c1 = true /\ cont c2 = true /\ cont c3 = true).
  { clear -H1. rewrite !andb_true_iff in H1. tauto. }
  destruct Hc as (Hc1 & Hc2 & Hc3). cbn [map concat]. rewrite !esc_high by (done || by apply cont_high). cbn [app utf8_ok].
  rewrite (proj2 (Z.ltb_ge _ _) E), E2, E3, H1. apply IH; [simpl; lia|done].
Qed.

(** Text that decodes. *)
Definition utf8_text (s : string) : bool := utf8_ok (chars s).

Fixpoint json_utf8 (j : json) : bool :=
  match j with
  | JFloat l => forallb (fun c => byte_of c <? 128) (chars l)
  | JStr s => utf8_text s
  | JArr l => forallb json_utf8 l
  | JObj m => forallb (fun kv => utf8_text kv.1 && json_utf8 kv.2) m
  | _ => true
  end.

Lemma utf8_text_app a b : utf8_text a = true -> utf8_text b = true -> utf8_text (a +:+ b) = true.
Proof. unfold utf8_text. intros Ha Hb. by rewrite chars_app, utf8_app. Qed.

Lemma utf8_text_str s : utf8_text s = true -> utf8_text (py_str s) = true.
Proof.
  unfold utf8_text. intros Hs. rewrite chars_py_str. change (dquote :: esc s ++ [dquote]) with ([dquote] ++ esc s ++ [dquote]).
  rewrite utf8_app by done. rewrite utf8_app; [done|]. by apply utf8_esc.
Qed.

Lemma utf8_text_concat ts : Forall (fun t => utf8_text t = true) ts -> utf8_text (String.concat "," ts) = true.
Proof.
  induction 1 as [|t ts Ht Hts IH]; [done|]. destruct ts as [|t' ts]; [done|].
  change (String.concat "," (t :: t' :: ts)) with (t +:+ "," +:+ String.concat "," (t' :: ts)).
  by repeat apply utf8_text_app.
Qed.

Lemma digit_ascii c : is_digit c = true -> byte_of c < 128.
Proof. destruct c as [[] [] [] [] [] [] [] []]; done. Qed.

Lemma pretty_utf8 (z : Z) : utf8_text (pretty z) = true.
Proof.
  assert (Hn : forall n : N, utf8_text (pretty n) = true).
  { intros n. apply ascii_utf8, forallb_forall. intros c Hc. apply Z.ltb_lt, digit_ascii.
    assert (Hd : digits (chars (pretty (Z.of_N n))) = Some (Z.of_N n)) by (apply digits_pretty; lia).
    assert (Hz : chars (pretty (Z.of_N n)) = chars (pretty n)) by (by destruct n). rewrite Hz in Hd. unfold digits in Hd.
    destruct (negb _ && forallb is_digit (chars (pretty n))) eqn:E; [|done]. apply andb_true_iff in E as [_ E].
    rewrite forallb_forall in E. by apply E. }
  destruct z as [|p|p]; [done|apply (Hn (N.pos p))|]. change (pretty (Z.neg p)) with ("-" +:+ pretty (N.pos p)).
  by apply utf8_text_app.
Qed.

Lemma dumps_utf8 j : json_utf8 j = true -> utf8_text (py_dumps j) = true.
Proof.
  induction j as [|b|z|l|s|l IH|m IH] using json_nested; intros Hj.
  - done.
  - by destruct b.
  - apply pretty_utf8.
  - by apply ascii_utf8.
  - by apply utf8_text_str.
  - change (py_dumps (JArr l)) with ("[" +:+ String.concat "," (map py_dumps l) +:+ "]"). repeat apply utf8_text_app; [done| |done].
    apply utf8_text_concat, Forall_map. rewrite Forall_forall in *. intros j Hin. simpl in Hj. rewrite forallb_forall in Hj.
    apply IH; [done|]. by apply Hj, list_elem_of_In.
  - rewrite dumps_obj. repeat apply utf8_text_app; [done| |done]. apply utf8_text_concat, Forall_map, Forall_forall.
    intros [k t] (v & Hin & ->)%printed_elem. simpl in Hj. rewrite forallb_forall in Hj.
    assert (Hkv := Hj (k, v) ltac:(by apply list_elem_of_In)). apply andb_true_iff in Hkv as [Hk Hv]. simpl in Hk, Hv.
    unfold member. simpl. repeat apply utf8_text_app; [by apply utf8_text_str|done|].
    by apply (proj1 (Forall_forall _ _) IH (k, v) Hin).
Qed.

(** Digests and printed times are ASCII text. *)
Class EvidenceLaws `{EiWorld} := {
  digest_text : forall m, utf8_text (sha256_hex m) = true;
  iso_text : forall t, utf8_text (iso t) = true }.

Section evidence.
Context `{EiLaws, !EvidenceLaws, !Mac} (float_repr : string -> string).

(** ** What is issued verifies *)

(** The payload as it is read back: its keys in order. *)
Definition sorted_payload (kind jti principal : string) (rec : mrecord) (action nonce : string) (issued_at ttl : Z) : dict :=
  [("action", JStr action); ("exp", JStr (iso (issued_at + ttl * second))); ("iat", JStr (iso issued_at)); ("jti", JStr jti);
   ("kind", JStr kind); ("mount_id", JStr (tk_mount_id (mc_token rec))); ("nonce_hash", JStr (nonce_hash nonce));
   ("principal", JStr principal); ("scope_hash", JStr (scope_hash rec)); ("v", JInt TOKEN_VERSION)].

Lemma payload_norm kind jti principal rec action nonce t ttl :
  norm (JObj (evidence_payload kind jti principal rec action nonce t ttl)) = JObj (sorted_payload kind jti principal rec action nonce t ttl).
Proof. reflexivity. Qed.

Lemma payload_canonical kind jti principal rec action nonce t ttl :
  canonical_json (sorted_payload kind jti principal rec action nonce t ttl)
  = canonical_json (evidence_payload kind jti principal rec action nonce t ttl).
Proof. reflexivity. Qed.

Lemma payload_utf8 kind jti principal rec action nonce t ttl :
  utf8_text kind = true -> utf8_text jti = true -> utf8_text principal = true -> utf8_text (tk_mount_id (mc_token rec)) = true ->
  utf8_text action = true -> utf8_text (canonical_json (evidence_payload kind jti principal rec action nonce t ttl)) = true.
Proof.
  intros Hk Hj Hp Hm Ha. apply dumps_utf8. unfold evidence_payload, nonce_hash, scope_hash. cbn [json_utf8 forallb fst snd].
  by rewrite Hk, Hj, Hp, Hm, Ha, !digest_text, !iso_text.
Qed.

Lemma b64u_no_dot raw : lacks "." (b64u raw).
Proof.
  unfold lacks, b64u. rewrite list_ascii_of_string_of_list_ascii. destruct (b64u_list_alphabet (length (chars raw)) (chars raw)) as [HF _]; [done|].
  intros Hin. rewrite Forall_forall in HF. by destruct (alphabet_ascii _ (HF _ Hin)).
Qed.

Lemma open_issued payload signature :
  json_ok (JObj payload) = true -> utf8_text (canonical_json payload) = true ->
  exists m, norm (JObj payload) = JObj m
    /\ open_token float_repr (b64u (canonical_json payload) +:+ "." +:+ signature) = Some (chars (canonical_json payload), m, signature).
Proof.
  intros Hok Hu. eexists. split; [reflexivity|]. unfold open_token. rewrite !chars_app.
  change (chars "." ++ ?x) with ("."%char :: x). rewrite cut_app by apply b64u_no_dot.
  unfold b64u at 1. rewrite list_ascii_of_string_of_list_ascii, b64decode_encode. unfold utf8_text in Hu. rewrite Hu.
  rewrite !string_of_list_ascii_of_string. unfold canonical_json at 1. by rewrite loads_dumps.
Qed.

(** The answer to an issued token, by its jti and the time. *)
Definition issued_answer (now issued_at ttl : Z) (id kind : string) : option VerifiedMountEvidence * string :=
  if str_eqb id "" || (255 <? str_len id)%nat then (None, "evidence_jti_invalid")
  else if now + MAX_FUTURE_SKEW_SECONDS * second <? issued_at then (None, "evidence_not_yet_valid")
  else if issued_at + ttl * second <=? now then (None, "evidence_expired")
  else (Some (mk_verified id kind (issued_at + ttl * second)), "verified").

Lemma judge_issued now id kind principal rec action nonce issued_at ttl :
  1 <= ttl <= MAX_EVIDENCE_TTL_SECONDS ->
  judge now (sorted_payload kind id principal rec action nonce issued_at ttl) kind principal rec action nonce
  = issued_answer now issued_at ttl id kind.
Proof.
  intros Httl. set (p := sorted_payload kind id principal rec action nonce issued_at ttl).
  assert (Hb : existsb (fun fv => negb (is_str (dget p fv.1) fv.2)) (expected principal rec action nonce) = false).
  { unfold expected. cbn [existsb fst snd]. change (dget p "principal") with (JStr principal).
    change (dget p "mount_id") with (JStr (tk_mount_id (mc_token rec))). change (dget p "action") with (JStr action).
    change (dget p "nonce_hash") with (JStr (nonce_hash nonce)). change (dget p "scope_hash") with (JStr (scope_hash rec)).
    cbn [is_str]. by rewrite !str_eqb_refl. }
  unfold judge, issued_answer. rewrite Hb. change (dget p "v") with (JInt 1). change (dget p "kind") with (JStr kind).
  change (dget p "jti") with (JStr id). change (dget p "iat") with (JStr (iso issued_at)).
  change (dget p "exp") with (JStr (iso (issued_at + ttl * second))). cbn [is_version is_str parse_time].
  rewrite str_eqb_refl, !iso_plain, !iso_parses. cbn [andb negb]. change (TOKEN_VERSION =? TOKEN_VERSION) with true. cbn [andb negb].
  destruct (_ || _); [done|]. destruct (now + _ <? _); [done|]. destruct (_ <=? now); [done|].
  unfold second, MAX_EVIDENCE_TTL_SECONDS in *. rewrite (proj2 (Z.leb_gt _ _)) by lia. by rewrite (proj2 (Z.ltb_ge _ _)) by lia.
Qed.

(** Evidence is issued for any encodable text, within the bounds of its life. *)
Lemma issue_succeeds kind key principal rec action nonce ttl jti drawn issued_at :
  key <> "" -> 1 <= ttl <= MAX_EVIDENCE_TTL_SECONDS ->
  forallb utf8_text [kind; Consequence.py_or jti drawn; principal; tk_mount_id (mc_token rec); action] = true ->
  exists token, issue kind key principal rec action nonce ttl jti drawn issued_at = Ok token.
Proof.
  intros Hk%str_eqb_neq [Hlo Hhi] Hu. unfold issue. rewrite Hk, (proj2 (Z.ltb_ge _ _) Hlo), (proj2 (Z.ltb_ge _ _) Hhi). cbn [orb].
  assert (Ht : utf8_text (canonical_json (evidence_payload kind (Consequence.py_or jti drawn) principal rec action nonce issued_at ttl)) = true).
  { cbn [forallb] in Hu. rewrite !andb_true_iff in Hu. by apply payload_utf8; tauto. }
  unfold utf8_text in Ht. rewrite Ht. by eexists.
Qed.

(** C22: what becomes of issued evidence.  A token that was issued under the
    verifier's key for a kind, principal, mount, action and nonce is, for them,
    answered exactly so: with a jti of more than 255 characters, which the
    issuer does not refuse, it is evidence_jti_invalid at any time; otherwise
    it is not yet valid more than thirty seconds before its issue, expired from
    its expiry on, and in between accepted with its jti and expiry.  So base64,
    JSON printing and parsing, UTF-8 and the MAC round-trip for any text. *)
Theorem issued_evidence_verifies approval_key suppression_key key kind principal rec action nonce ttl jti drawn issued_at now token :
  issue kind key principal rec action nonce ttl jti drawn issued_at = Ok token ->
  key = (if str_eqb kind "human_approval" then approval_key else suppression_key) ->
  verify float_repr approval_key suppression_key now (Some token) kind principal rec action nonce
  = Ok (issued_answer now issued_at ttl (Consequence.py_or jti drawn) kind).
Proof.
  intros Hi Hkey. unfold issue in Hi. set (id := Consequence.py_or jti drawn) in *. destruct (str_eqb key "") eqn:Ek; [done|].
  destruct ((ttl <? 1) || (MAX_EVIDENCE_TTL_SECONDS <? ttl)) eqn:Et; [done|]. apply orb_false_iff in Et as [Et1%Z.ltb_ge Et2%Z.ltb_ge].
  set (payload := evidence_payload kind id principal rec action nonce issued_at ttl) in *.
  destruct (utf8_ok (chars (canonical_json payload))) eqn:Htext; [|done]. cbn [negb] in Hi. injection Hi as <-.
  assert (Hne : str_eqb (b64u (canonical_json payload) +:+ "." +:+ sign_payload_hmac payload key) "" = false).
  { apply str_eqb_neq. intros E. apply (f_equal chars) in E. rewrite !chars_app in E. by apply app_eq_nil in E as [_ E]. }
  unfold verify. rewrite <- Hkey, Ek, Hne.
  destruct (open_issued payload (sign_payload_hmac payload key)) as (m & Hm & ->); [reflexivity|done|].
  unfold payload in Hm. rewrite payload_norm in Hm. injection Hm as <-. rewrite payload_canonical. fold payload.
  rewrite Htext. cbn [negb]. rewrite bool_decide_true by done. cbn [negb].
  unfold verify_signature_hmac. unfold sign_payload_hmac at 1. rewrite b64u_ascii. unfold sign_payload_hmac. rewrite payload_canonical.
  fold payload. rewrite str_eqb_refl. cbn [rbind]. f_equal. by apply judge_issued.
Qed.

(** ** What verifies was signed, for this *)

(** What accepted evidence says: its payload is signed under the key, names
    what it is for, and is in time. *)
Record says (now : Z) (payload : dict) (kind principal : string) (rec : mrecord) (action nonce : string)
    (ev : VerifiedMountEvidence) : Prop := mk_says {
  sy_kind : dget payload "kind" = JStr kind;
  sy_fields : Forall (fun fv => dget payload fv.1 = JStr fv.2) (expected principal rec action nonce);
  sy_jti : dget payload "jti" = JStr (ve_jti ev) /\ ve_jti ev <> "" /\ ve_kind ev = kind;
  sy_times : exists iat, parse_time (dget payload "iat") = Some iat /\ parse_time (dget payload "exp") = Some (ve_expires_at ev)
    /\ iat <= now + MAX_FUTURE_SKEW_SECONDS * second /\ now < ve_expires_at ev
    /\ iat < ve_expires_at ev <= iat + MAX_EVIDENCE_TTL_SECONDS * second }.

(** The token is this payload's text and its MAC. *)
Definition signed_token (key token : string) (payload : dict) : Prop :=
  open_token float_repr token = Some (chars (canonical_json payload), payload, sign_payload_hmac payload key).

Lemma is_str_Some j s : is_str j s = true <-> j = JStr s.
Proof. destruct j; simpl; try (split; congruence). rewrite str_eqb_spec. split; congruence. Qed.

Lemma judge_says now payload kind principal rec action nonce ev reason :
  judge now payload kind principal rec action nonce = (Some ev, reason) -> says now payload kind principal rec action nonce ev.
Proof.
  unfold judge. destruct (negb _) eqn:Ev; [done|]. apply negb_false_iff, andb_true_iff in Ev as [_ Ek%is_str_Some].
  destruct (existsb _ _) eqn:Ex; [done|]. destruct (dget payload "jti") as [| | | |jti| |] eqn:Ej; try done.
  destruct (str_eqb jti "" || _) eqn:Eid; [done|]. apply orb_false_iff in Eid as [Eid%str_eqb_neq _].
  destruct (parse_time (dget payload "iat")) as [iat|] eqn:Ei; [|done]. destruct (parse_time (dget payload "exp")) as [exp|] eqn:Ee; [|done].
  destruct (_ <? iat) eqn:E1; [done|]. destruct (exp <=? now) eqn:E2; [done|]. destruct (exp <=? iat) eqn:E3; [done|].
  destruct (_ <? exp - iat) eqn:E4; [done|]. intros [= <- <-]. apply Z.ltb_ge in E1, E4. apply Z.leb_gt in E2, E3. split.
  - done.
  - apply Forall_forall. intros fv Hin. apply is_str_Some. destruct (is_str _ _) eqn:Ef; [done|]. exfalso.
    apply not_true_iff_false in Ex. apply Ex, existsb_exists. exists fv. split; [by apply list_elem_of_In|by rewrite Ef].
  - done.
  - exists iat. simpl. split_and!; [done|done|lia..].
Qed.

Lemma verify_says approval_key suppression_key now token kind principal rec action nonce ev reason :
  verify float_repr approval_key suppression_key now token kind principal rec action nonce = Ok (Some ev, reason) ->
  let key := if str_eqb kind "human_approval" then approval_key else suppression_key in
  key <> "" /\ exists tok payload, token = Some tok /\ signed_token key tok payload
    /\ says now payload kind principal rec action nonce ev.
Proof.
  unfold verify. intros Hv. cbv zeta. set (key := if str_eqb kind "human_approval" then _ else _) in *.
  destruct (str_eqb key "") eqn:Ek; [done|]. apply str_eqb_neq in Ek. split; [done|]. destruct token as [tok|]; [|done].
  destruct (str_eqb tok ""); [done|]. destruct (open_token float_repr tok) as [[[bytes payload] sig]|] eqn:Eo; [|done].
  destruct (negb (utf8_ok _)); [done|]. case_bool_decide as Eb; [|done]. cbn [negb] in Hv. unfold verify_signature_hmac in Hv.
  destruct (all_ascii sig); [|done]. cbn [rbind] in Hv. destruct (str_eqb _ sig) eqn:Es; [|done]. apply str_eqb_spec in Es.
  injection Hv as Hv. exists tok, payload. split; [done|]. split; [unfold signed_token; by rewrite Eo, Eb, Es|]. by eapply judge_says.
Qed.

(** The scope two hashes agree on. *)
Lemma scope_hash_inj rec rec' :
  scope_hash rec = scope_hash rec' ->
  (tk_workspace (mc_token rec) = tk_workspace (mc_token rec') /\ tk_project (mc_token rec) = tk_project (mc_token rec')) \/ hex_collision.
Proof.
  unfold scope_hash. intros Hh. match type of Hh with sha256_hex ?x = sha256_hex ?y => destruct (decide (x = y)) as [He|Hn] end;
    [left|right; by eexists _, _].
  set (w := tk_workspace (mc_token rec)) in *. set (w' := tk_workspace (mc_token rec')) in *.
  set (q := tk_project (mc_token rec)) in *. set (q' := tk_project (mc_token rec')) in *.
  assert (Hw : Some w = Some w').
  { refine (dumps_field [("workspace", JStr w); ("project", JStr q)] [("workspace", JStr w'); ("project", JStr q')] "workspace" (Some w) (Some w') _ _ He _ _);
      [reflexivity|reflexivity|by left|].
    intros v [[= ->]|[[= ]|[]%elem_of_nil]%elem_of_cons]%elem_of_cons; done. }
  assert (Hq : Some q = Some q').
  { refine (dumps_field [("workspace", JStr w); ("project", JStr q)] [("workspace", JStr w'); ("project", JStr q')] "project" (Some q) (Some q') _ _ He _ _);
      [reflexivity|reflexivity|by right; left|].
    intros v [[= ]|[[= ->]|[]%elem_of_nil]%elem_of_cons]%elem_of_cons; done. }
  split; congruence.
Qed.

(** C21: evidence is good for one thing.  Whatever token a verifier accepts is the
    canonical text of a payload with its MAC under the verifier's key for that
    kind, and the payload names the principal, the mount, the action, the nonce
    and the scope it is accepted for, a jti, and a life of at most ten minutes
    that is not over; and the same token is accepted, by any verifier at any
    time, for nothing else: the same kind, principal, mount, action, nonce and
    scope, and the same jti, or SHA-256 collides. *)
Theorem evidence_good_for_one_thing ak sk now token kind principal rec action nonce ev reason :
  verify float_repr ak sk now token kind principal rec action nonce = Ok (Some ev, reason) ->
  let key := if str_eqb kind "human_approval" then ak else sk in
  key <> ""
  /\ (exists tok payload, token = Some tok /\ signed_token key tok payload /\ says now payload kind principal rec action nonce ev)
  /\ forall ak' sk' now' kind' principal' rec' action' nonce' ev' reason',
       verify float_repr ak' sk' now' token kind' principal' rec' action' nonce' = Ok (Some ev', reason') ->
       kind' = kind /\ principal' = principal /\ action' = action /\ tk_mount_id (mc_token rec') = tk_mount_id (mc_token rec)
       /\ ve_jti ev' = ve_jti ev /\ ve_expires_at ev' = ve_expires_at ev
       /\ ((nonce' = nonce /\ tk_workspace (mc_token rec') = tk_workspace (mc_token rec)
             /\ tk_project (mc_token rec') = tk_project (mc_token rec)) \/ hex_collision).
Proof.
  intros Hv. cbv zeta. destruct (verify_says _ _ _ _ _ _ _ _ _ _ _ Hv) as (Hk & tok & payload & -> & Hs & Hy). split; [done|].
  split; [by exists tok, payload|]. intros ak' sk' now' kind' principal' rec' action' nonce' ev' reason' Hv'.
  destruct (verify_says _ _ _ _ _ _ _ _ _ _ _ Hv') as (_ & tok' & payload' & [= <-] & Hs' & Hy').
  unfold signed_token in Hs, Hs'. rewrite Hs in Hs'. injection Hs' as _ <- _.
  destruct Hy as [Y1 Y2 [Y3 _] (i & _ & Y4 & _)], Hy' as [Z1 Z2 [Z3 _] (i' & _ & Z4 & _)].
  unfold expected in Y2, Z2. repeat (apply Forall_cons in Y2 as [? Y2]). repeat (apply Forall_cons in Z2 as [? Z2]). simpl in *.
  assert (Hsc : scope_hash rec' = scope_hash rec) by congruence. assert (Hno : sha256_hex nonce' = sha256_hex nonce) by (unfold nonce_hash in *; congruence).
  split_and!; try congruence. destruct (scope_hash_inj _ _ Hsc) as [[? ?]|?]; [|by right].
  destruct (decide (nonce' = nonce)) as [->|Hn]; [by left|]. right. by exists nonce', nonce.
Qed.

(** ** The registry with this verifier *)

(** C20: a gated action was approved.  When a registry whose evidence verifier is
    the bound one allows an action that needs human approval, or a suppression
    check, the caller presented a token signed under the approval, or the
    suppression, key for exactly this principal, mount, action and nonce, still
    in time, whose jti no earlier action had spent and this one spends. *)
Theorem gated_action_was_approved `{Biscuit} reg ak sk now m action resource token_id nonce principal workspace ap su tg db row reason rid db' :
  rg_verify reg = bound_verifier float_repr ak sk now ->
  evaluate reg m action resource token_id nonce principal workspace ap su tg db = Ret (ALLOW, reason, rid) db' ->
  d_mounts db !! m = Some row ->
  let t := mc_token (mr_record row) in
  let approved key token kind := exists tok payload ev, token = Some tok /\ signed_token key tok payload
      /\ says now payload kind principal (mr_record row) action nonce ev
      /\ d_consumed db !! ve_jti ev = None /\ is_Some (d_consumed db' !! ve_jti ev) in
  (action ∈ gr_external_send (tk_grants t) -> mp_human_approval (tk_policy t) = true -> approved ak ap "human_approval")
  /\ (action ∈ gr_suppression_required (tk_grants t) -> mp_suppression_check (tk_policy t) = true -> approved sk su "suppression_check").
Proof.
  intros Hrv He Hrow t approved. assert (Hd := evaluate_decides reg m action resource token_id nonce principal workspace ap su tg db).
  rewrite He in Hd. destruct Hd as (row' & r & Hrow' & _ & _ & Hg & _). rewrite Hrow in Hrow'. injection Hrow' as <-.
  destruct Hg as (_ & _ & _ & Ha & Hs).
  assert (Hsp : forall token kind, spent reg db db' (mr_record row) token kind principal action nonce ->
    exists tok payload ev, token = Some tok /\ signed_token (if str_eqb kind "human_approval" then ak else sk) tok payload
      /\ says now payload kind principal (mr_record row) action nonce ev
      /\ d_consumed db !! ve_jti ev = None /\ is_Some (d_consumed db' !! ve_jti ev)).
  { intros token kind (jti & Hjv & Hc & Hc'). rewrite Hrv in Hjv. unfold bound_verifier in Hjv.
    destruct (verify _ _ _ _ _ _ _ _ _ _) as [[[ev|] rs]|] eqn:Ev; [|done..]. injection Hjv as <-.
    destruct (verify_says _ _ _ _ _ _ _ _ _ _ _ Ev) as (_ & tok & payload & Ht & Hsig & Hsay). by exists tok, payload, ev. }
  split; intros Hin Hpol; [apply (Hsp ap "human_approval"), Ha|apply (Hsp su "suppression_check"), Hs]; done.
Qed.
End evidence.
