(* ===== verification/Connector.v ===== *)
(** * The sandbox file connector (execution/sandbox_file_connector.py)

    A governed effect: authorized appends of JSON records to one file, at most
    one for an execution, with a receipt; compensation appends a tombstone.
    The file is its bytes; a record is found by reading every line.

    The resolved path's resource name, what the file system says of the target,
    whether the scratch directory exists and how far a write gets are
    arguments; so are time texts.  Text is UTF-8 bytes.  Lines are those of
    universal newlines; a file holds no JSON that nests beyond the recursion
    limit or has integers of more than 4300 digits.

    Then: every byte count is right, and an execution appends once. *)

From Stdlib Require Import ZArith Lia Ascii String.
From stdpp Require Import base gmap strings list pretty sorting.
From S2P Require Import Prelude Canon PyJson JsonScan Verify VerifyProofs Identity HttpSigProperties PyLoads EvidenceProperties.

Local Open Scope Z_scope.

Inductive connector_exc := ConnectorDenied (message : string) | ConnectorConflict (message : string) | OtherExc (name : string).

Definition CONNECTOR_ID : string := "sandbox_file_append".
Definition APPEND_ACTION : string := "fs:append".
Definition COMPENSATE_ACTION : string := "fs:append:compensate".

Record connector := mk_connector { ct_resource : string; ct_max_content_bytes : Z }.

(** What the file system says of the target. *)
Record fs_view := mk_fs { fs_parent_same : bool; fs_regular : bool; fs_links : Z }.

(** How far [os.write] gets: all bytes, some, or the process dies after some. *)
Inductive write := whole | short (n : nat) | killed (n : nat).

(** The file, when it exists. *)
Definition file : Type := option (list ascii).
Definition C := eff connector_exc file.

Definition newline : ascii := "010"%char.
Definition is_break (c : ascii) : bool := Ascii.eqb c newline || Ascii.eqb c "013"%char.

Fixpoint lines_from (acc : list ascii) (l : list ascii) : list (list ascii) :=
  match l with
  | [] => match acc with [] => [] | _ => [reverse acc] end
  | c :: l' => if is_break c then reverse acc :: lines_from [] l' else lines_from (c :: acc) l'
  end.
Definition lines : list ascii -> list (list ascii) := lines_from [].

(** ** Receipts *)

Definition receipt_fields : list string :=
  ["connector_id"; "execution_id"; "operation_id"; "resource"; "action_hash"; "record_hash"; "bytes_written"; "timestamp";
   "compensates_execution_id"].
Definition required_fields : list string := take 8 receipt_fields.

(** [AppendReceipt( **v )], as its [asdict]. *)
Definition receipt_of (v : json) : res connector_exc dict :=
  match v with
  | JObj d =>
    if forallb (fun kv => bool_decide (kv.1 ∈ receipt_fields)) d && forallb (fun f => bool_decide (is_Some (assoc f d))) required_fields
    then Ok (map (fun f => (f, dget d f)) receipt_fields) else Err (OtherExc "TypeError")
  | _ => Err (OtherExc "TypeError")
  end.

Section connector.
Context `{Ext} (float_repr : string -> string) (ct : connector).

Definition canonical (value : dict) : list ascii := chars (py_dumps (JObj value)).

Definition assert_safe_target (fs : fs_view) (exists_ : bool) : res connector_exc unit :=
  do? raise_if (negb (fs_parent_same fs)) (ConnectorDenied "DENY: sandbox parent changed") in
  do? raise_if (exists_ && negb (fs_regular fs)) (ConnectorDenied "DENY: sandbox target must be a regular non-symlink file") in
  raise_if (exists_ && negb (fs_links fs =? 1)) (ConnectorDenied "DENY: sandbox target cannot have hard links").

Fixpoint strings_of (l : list json) : option (list string) :=
  match l with
  | [] => Some []
  | JStr s :: l' => match strings_of l' with Some ss => Some (s :: ss) | None => None end
  | _ => None
  end.
Definition claim_set (claims : dict) (claim : string) : res connector_exc (list string) :=
  match dget claims claim with
  | JArr l => match strings_of l with Some ss => Ok ss | None => Err (ConnectorDenied ("DENY: malformed " +:+ claim +:+ " claim")) end
  | _ => Err (ConnectorDenied ("DENY: malformed " +:+ claim +:+ " claim"))
  end.

(** [scratch]: whether the debug file of a mismatch can be opened. *)
Definition authorize (scratch : bool) (claims : dict) (action : string) : res connector_exc string :=
  match dget claims "execution_id" with
  | JStr execution_id =>
    if str_eqb execution_id "" then Err (ConnectorDenied "DENY: missing execution_id")
    else
      let? actions := claim_set claims "allowed_actions" in
      do? raise_if (negb (bool_decide (action ∈ actions))) (ConnectorDenied "DENY: action is outside lease scope") in
      let? resources := claim_set claims "allowed_resources" in
      if bool_decide (ct_resource ct ∈ resources) then Ok execution_id
      else if scratch then Err (ConnectorDenied "DENY: resource is outside lease scope") else Err (OtherExc "FileNotFoundError")
  | _ => Err (ConnectorDenied "DENY: missing execution_id")
  end.

(** The dicts among the lines that parse; bytes that do not decode raise. *)
Definition read_record (line : list ascii) : option dict :=
  match loads float_repr (string_of_list_ascii line) with Some (JObj d) => Some d | _ => None end.
Definition records (f : file) : res connector_exc (list dict) :=
  match f with
  | None => Ok []
  | Some bytes => if utf8_ok bytes then Ok (omap read_record (lines bytes)) else Err (OtherExc "UnicodeDecodeError")
  end.

Fixpoint find_record (execution_id : string) (action_hash : option string) (rs : list dict) : res connector_exc (option dict) :=
  match rs with
  | [] => Ok None
  | r :: rs' =>
    if negb (py_eqb (dget r "execution_id") (JStr execution_id)) then find_record execution_id action_hash rs'
    else match action_hash with
         | Some h => if negb (str_eqb h "") && negb (py_eqb (dget r "action_hash") (JStr h))
                     then Err (ConnectorConflict "execution_id reused with different action data") else Ok (Some r)
         | None => Ok (Some r)
         end
  end.

Definition reconcile (fs : fs_view) (execution_id : string) (action_hash : option string) (f : file) : res connector_exc (option dict) :=
  do? assert_safe_target fs (bool_decide (is_Some f)) in
  let? rs := records f in
  find_record execution_id action_hash rs.

(** ** Appending *)

Definition make_receipt (body : dict) (record_hash : string) (bytes_written : nat) : dict :=
  [("connector_id", JStr CONNECTOR_ID); ("execution_id", dget body "execution_id"); ("operation_id", dget body "operation_id");
   ("resource", JStr (ct_resource ct)); ("action_hash", dget body "action_hash"); ("record_hash", JStr record_hash);
   ("bytes_written", JInt (Z.of_nat bytes_written)); ("timestamp", dget body "timestamp");
   ("compensates_execution_id", dget body "compensates_execution_id")].

Definition record_of (body : dict) (bytes_written : nat) : dict :=
  let record_hash := sha256_json (JObj body) in
  body ++ [("record_hash", JStr record_hash); ("receipt", JObj (make_receipt body record_hash bytes_written))].
Definition candidate (body : dict) (bytes_written : nat) : list ascii := canonical (record_of body bytes_written) ++ [newline].

(** The loop that makes the count agree with the payload it is part of. *)
Fixpoint settle (body : dict) (rounds : nat) (payload : list ascii) : list ascii :=
  match rounds with
  | O => payload
  | S rounds' =>
    let c := candidate body (length payload) in
    if (length c =? length payload)%nat then c else settle body rounds' c
  end.

Definition append_record (body : dict) (wr : write) : C dict := fun f =>
  let bytes_written := length (settle body 3 []) in
  let payload := candidate body bytes_written in
  let receipt := make_receipt body (sha256_json (JObj body)) bytes_written in
  let old := default [] f in
  match wr with
  | whole => Ret receipt (Some (old ++ payload))
  | short n => if (n <? length payload)%nat then Raise (OtherExc "OSError") (Some (old ++ take n payload)) else Ret receipt (Some (old ++ payload))
  | killed n => Crash (Some (old ++ take n payload))
  end.

Definition lift {A} (m : res connector_exc A) : C A := fun f => match m with Ok a => Ret a f | Err e => Raise e f end.

Definition append_action (execution_id content : string) : dict :=
  [("connector_id", JStr CONNECTOR_ID); ("action", JStr APPEND_ACTION); ("execution_id", JStr execution_id);
   ("resource", JStr (ct_resource ct)); ("content", JStr content)].
Definition body_of (action : dict) (operation_id timestamp : string) : dict :=
  action ++ [("operation_id", JStr operation_id); ("action_hash", JStr (sha256_json (JObj action))); ("timestamp", JStr timestamp)].

(** The receipt of the record an execution already has, or a new record. *)
Definition append_new (fs : fs_view) (execution_id : string) (action : dict) (operation_id timestamp : string) (wr : write) : C dict := fun f =>
  match reconcile fs execution_id (Some (sha256_json (JObj action))) f with
  | Err e => Raise e f
  | Ok (Some existing) =>
    match assoc "receipt" existing with
    | Some v => lift (receipt_of v) f
    | None => Raise (OtherExc "KeyError") f
    end
  | Ok None => append_record (body_of action operation_id timestamp) wr f
  end.

Definition append (scratch : bool) (fs : fs_view) (timestamp : string) (wr : write) (claims : dict) (content : json) : C dict :=
  let! execution_id := lift (authorize scratch claims APPEND_ACTION) in
  match content with
  | JStr text =>
    do! lift (raise_if (str_eqb text "") (ConnectorDenied "DENY: content must be a non-empty string")) in
    do! lift (raise_if (ct_max_content_bytes ct <? Z.of_nat (String.length text)) (ConnectorDenied "DENY: content exceeds connector byte limit")) in
    append_new fs execution_id (append_action execution_id text) ("append:" +:+ execution_id) timestamp wr
  | _ => eraise (ConnectorDenied "DENY: content must be a non-empty string")
  end.

Definition compensate_action (execution_id compensates : string) : dict :=
  [("connector_id", JStr CONNECTOR_ID); ("action", JStr COMPENSATE_ACTION); ("execution_id", JStr execution_id);
   ("resource", JStr (ct_resource ct)); ("compensates_execution_id", JStr compensates)].

Definition compensate (scratch : bool) (fs : fs_view) (timestamp : string) (wr : write) (claims : dict) (compensates : string) : C dict :=
  let! execution_id := lift (authorize scratch claims COMPENSATE_ACTION) in
  fun f =>
    match reconcile fs compensates None f with
    | Err e => Raise e f
    | Ok original =>
      if match original with Some r => py_eqb (dget r "action") (JStr APPEND_ACTION) | None => false end
      then append_new fs execution_id (compensate_action execution_id compensates) ("compensate:" +:+ execution_id) timestamp wr f
      else Raise (ConnectorDenied "DENY: original append is not proven") f
    end.
End connector.

(** ** Byte counts *)

Section counts.
Local Open Scope nat_scope.

Lemma go_length n s : (0 < n)%N -> let k := String.length (pretty_N_go n s) - String.length s in
  String.length s < String.length (pretty_N_go n s) /\ (10 ^ N.of_nat (k - 1) <= n < 10 ^ N.of_nat k)%N.
Proof.
  revert s. induction (N.lt_wf_0 n) as [n _ IH]. intros s Hn k. subst k. rewrite pretty_N_go_step by lia.
  destruct (decide (n / 10 = 0)%N) as [E|E].
  - rewrite E, pretty_N_go_0. apply N.div_small_iff in E; [|done]. cbn [String.length].
    replace (S (String.length s) - String.length s) with 1 by lia. split; [lia|]. simpl. lia.
  - set (c := pretty_N_char (n mod 10)). destruct (IH (n / 10)%N ltac:(apply N.div_lt; lia) (String c s) (proj1 (N.neq_0_lt_0 _) E)) as [Hl [Hlo Hhi]].
    set (L := String.length (pretty_N_go (n / 10) (String c s))) in *. cbn [String.length] in *.
    split; [lia|]. replace (L - String.length s) with (S (L - S (String.length s))) by lia.
    set (j := L - S (String.length s)) in *. replace (S j - 1) with (S (j - 1)) by lia.
    rewrite !Nat2N.inj_succ, !N.pow_succ_r'. clearbody j. clear -Hlo Hhi.
    pose proof (N.div_mod' n 10) as Hd. pose proof (N.mod_lt n 10 ltac:(done)) as Hm.
    revert Hlo Hhi. generalize (10 ^ N.of_nat (j - 1))%N (10 ^ N.of_nat j)%N. intros a b Hlo Hhi.
    set (q := (n / 10)%N) in *. set (r := (n mod 10)%N) in *. clearbody q r. lia.
Qed.

(** The number of digits of a natural number. *)
Definition digits_of (n : nat) : nat := String.length (pretty (Z.of_nat n)).

Lemma digits_range n : 0 < n -> 1 <= digits_of n /\ 10 ^ (digits_of n - 1) <= n < 10 ^ digits_of n.
Proof.
  intros Hn. unfold digits_of. assert (E : pretty (Z.of_nat n) = pretty_N_go (N.of_nat n) "").
  { destruct n as [|m]; [lia|]. change (pretty (Z.of_nat (S m))) with (pretty (N.of_nat (S m))). unfold pretty, pretty_N. by rewrite decide_False by lia. }
  rewrite E. destruct (go_length (N.of_nat n) "") as [Hl Hr]; [lia|]. cbn [String.length] in *. rewrite Nat.sub_0_r in Hr.
  set (k := String.length _) in *. clearbody k. split; [lia|].
  assert (Hp : forall j, (10 ^ N.of_nat j)%N = N.of_nat (10 ^ j)) by (intros j; rewrite Nat2N.inj_pow; done). rewrite !Hp in Hr. lia.
Qed.

Lemma digits_mono a b : 0 < a -> a <= b -> digits_of a <= digits_of b.
Proof.
  intros Ha Hab. destruct (digits_range a Ha) as (Ha1 & Hlo & _). destruct (digits_range b ltac:(lia)) as (_ & _ & Hhi).
  destruct (decide (digits_of a <= digits_of b)) as [|Hn]; [done|]. exfalso.
  assert (10 ^ digits_of b <= 10 ^ (digits_of a - 1)) by (apply Nat.pow_le_mono_r; lia). lia.
Qed.

Lemma pow10_gap d : 1 <= d -> 10 ^ d + d < 10 ^ S d.
Proof.
  intros Hd. assert (Hx : d < 10 ^ d) by (apply Nat.pow_gt_lin_r; lia). cbn [Nat.pow]. lia.
Qed.

(** Two rounds of adding one's own digits reach the fixed point. *)
Lemma count_settles K : let L x := K + digits_of x in L (L (L (L 0))) = L (L (L 0)).
Proof.
  intros L. unfold L. change (digits_of 0) with 1. set (p1 := K + 1). set (d1 := digits_of p1).
  destruct (digits_range p1 ltac:(unfold p1; lia)) as (Hd1 & Hlo & Hhi). fold d1 in Hd1, Hlo, Hhi.
  set (p2 := K + d1). set (d2 := digits_of p2). f_equal. set (p3 := K + d2).
  destruct (digits_range p2 ltac:(unfold p2; lia)) as (Hd2 & Hlo2 & Hhi2). fold d2 in Hd2, Hlo2, Hhi2.
  pose proof (pow10_gap d1 Hd1) as Hg.
  assert (Hle : d2 <= S d1).
  { destruct (decide (d2 <= S d1)) as [|Hn]; [done|]. assert (10 ^ S d1 <= 10 ^ (d2 - 1)) by (apply Nat.pow_le_mono_r; lia). unfold p2, p1 in *. lia. }
  assert (Hge : d1 <= d2) by (apply digits_mono; unfold p1, p2; lia).
  assert (Hm : d2 <= digits_of p3) by (apply digits_mono; unfold p2, p3; lia).
  destruct (digits_range p3 ltac:(unfold p3; lia)) as (Hd3 & Hlo3 & _).
  destruct (decide (digits_of p3 <= d2)) as [|Hn]; [lia|]. exfalso.
  destruct (decide (d2 = d1)) as [E|E].
  { assert (Ep : p3 = p2) by (unfold p3, p2; lia). apply Hn. rewrite Ep. reflexivity. }
  assert (Hx : 10 ^ S d1 <= 10 ^ (digits_of p3 - 1)) by (apply Nat.pow_le_mono_r; lia). unfold p3, p2, p1 in *. lia.
Qed.
End counts.

Section appended.
Context `{Ext} (float_repr : string -> string) (ct : connector).
Local Open Scope nat_scope.
Local Abbreviation cand := (candidate ct).

Lemma str_length_app a b : String.length (a +:+ b) = String.length a + String.length b.
Proof. induction a as [|c a IH]; [done|]. simpl. by rewrite IH. Qed.
Lemma chars_length s : length (chars s) = String.length s.
Proof. induction s as [|c s IH]; [done|]. simpl. by rewrite IH. Qed.

Lemma concat_length ts : String.length (String.concat "," ts) = sum_list_with String.length ts + (length ts - 1).
Proof.
  induction ts as [|t ts IH]; [done|]. destruct ts as [|t' ts]; [simpl; lia|].
  change (String.concat "," (t :: t' :: ts)) with (t +:+ "," +:+ String.concat "," (t' :: ts)).
  rewrite !str_length_app, IH. simpl. lia.
Qed.

Definition member_length (kv : string * json) : nat := String.length (py_str kv.1) + String.length (py_dumps kv.2) + 2.

Lemma dumps_obj_length m : m <> [] -> String.length (py_dumps (JObj m)) = 1 + sum_list_with member_length m.
Proof.
  intros Hm. rewrite dumps_obj, !str_length_app, concat_length, length_map.
  assert (Hp : printed m ≡ₚ map (fun kv => (kv.1, py_dumps kv.2)) m) by apply merge_sort_Permutation.
  assert (Hl : length (printed m) = length m) by (rewrite Hp; apply length_map). rewrite Hl.
  assert (Hs : sum_list_with String.length (map member (printed m)) = sum_list_with member_length m - length m
               /\ length m <= sum_list_with member_length m).
  { rewrite Hp, map_map. clear. induction m as [|[k v] m [IH1 IH2]]; [done|]. cbn [map sum_list_with length]. unfold member at 1, member_length at 1 3.
    cbn [fst snd]. rewrite !str_length_app, IH1. cbn [String.length]. lia. }
  destruct Hs as [-> Hle]. destruct m; [done|]. cbn [String.length length] in *. lia.
Qed.

Lemma receipt_length body h x :
  String.length (py_dumps (JObj (make_receipt ct body h x))) + digits_of 0
  = String.length (py_dumps (JObj (make_receipt ct body h 0))) + digits_of x.
Proof.
  rewrite !dumps_obj_length by done. unfold make_receipt. cbn [sum_list_with].
  assert (Hx : forall y, member_length ("bytes_written", JInt (Z.of_nat y)) = 17 + digits_of y) by 
    (intros y; unfold member_length, digits_of; cbn [fst snd]; change (String.length (py_str "bytes_written")) with 15;
     change (py_dumps (JInt (Z.of_nat y))) with (pretty (Z.of_nat y) : string); lia).
  rewrite (Hx x), (Hx 0). lia.
Qed.

Lemma candidate_length body : exists K, forall x, length (cand body x) = K + digits_of x.
Proof.
  assert (Hx : forall x, length (cand body x) + digits_of 0 = length (cand body 0) + digits_of x).
  { intros x. unfold candidate, canonical. rewrite !length_app, !chars_length, !dumps_obj_length by (by destruct body). unfold record_of.
    rewrite !sum_list_with_app. cbn [sum_list_with]. set (h := sha256_json (JObj body)).
    assert (Hr : forall y, member_length ("receipt", JObj (make_receipt ct body h y)) = 11 + String.length (py_dumps (JObj (make_receipt ct body h y)))).
    { intros y. unfold member_length. cbn [fst snd]. change (String.length (py_str "receipt")) with 9. lia. }
    rewrite (Hr x), (Hr 0). pose proof (receipt_length body h x). lia. }
  exists (length (cand body 0) - 1). intros x. specialize (Hx x). change (digits_of 0) with 1 in Hx.
  assert (1 <= length (cand body 0)) by (unfold candidate; rewrite length_app; simpl; lia). lia.
Qed.

(** The count in the receipt is the length of the payload that holds it. *)
Lemma bytes_counted body : length (cand body (length (settle ct body 3 []))) = length (settle ct body 3 []).
Proof.
  destruct (candidate_length body) as [K HK]. pose proof (count_settles K) as Hfix. cbv beta zeta in Hfix.
  assert (Hs : forall n p, length (settle ct body (S n) p) = if K + digits_of (length p) =? length p then length p else length (settle ct body n (cand body (length p)))).
  { intros n p. cbn [settle]. rewrite HK. destruct (Nat.eqb_spec (K + digits_of (length p)) (length p)) as [E|E]; [by rewrite HK|done]. }
  rewrite HK, !Hs, !HK. cbn [length settle]. rewrite ?HK. repeat case_match; rewrite ?Nat.eqb_eq, ?Nat.eqb_neq in *; lia.
Qed.
End appended.

(** ** Reading back *)

(** No line break in what [json.dumps] prints. *)
Definition unbroken (s : string) : Prop := forallb (fun c => negb (is_break c)) (chars s) = true.

Lemma unbroken_app a b : unbroken a -> unbroken b -> unbroken (a +:+ b).
Proof. unfold unbroken. rewrite chars_app, forallb_app. by intros -> ->. Qed.

Lemma unbroken_str s : unbroken (py_str s).
Proof.
  unfold unbroken. rewrite chars_py_str. cbn [forallb]. rewrite forallb_app. apply andb_true_iff. split; [done|]. apply andb_true_iff. split; [|done].
  unfold esc. induction (chars s) as [|c l IH]; [done|]. cbn [map concat]. rewrite forallb_app, IH, andb_true_r.
  destruct c as [[] [] [] [] [] [] [] []]; reflexivity.
Qed.

Lemma unbroken_concat ts : Forall unbroken ts -> unbroken (String.concat "," ts).
Proof.
  induction 1 as [|t ts Ht Hts IH]; [done|]. destruct ts as [|t' ts]; [done|].
  change (String.concat "," (t :: t' :: ts)) with (t +:+ "," +:+ String.concat "," (t' :: ts)). by repeat apply unbroken_app.
Qed.

Lemma unbroken_pretty (z : Z) : unbroken (pretty z).
Proof.
  assert (Hn : forall n : N, unbroken (pretty n)).
  { intros n. unfold unbroken, pretty, pretty_N. case_decide; [done|]. destruct (pretty_go_digits n "") as [Hd _]; [done|].
    rewrite forallb_forall in Hd |- *. intros c Hc. specialize (Hd c Hc). destruct c as [[] [] [] [] [] [] [] []]; done. }
  destruct z as [|p|p]; [done|apply (Hn (N.pos p))|]. change (pretty (Z.neg p)) with ("-" +:+ pretty (N.pos p)). by apply unbroken_app.
Qed.

Lemma dumps_unbroken j : json_ok j = true -> unbroken (py_dumps j).
Proof.
  induction j as [|b|z|l|s|l IH|m IH] using json_nested; intros Hj; [done|by destruct b|apply unbroken_pretty|done|apply unbroken_str|..].
  - change (py_dumps (JArr l)) with ("[" +:+ String.concat "," (map py_dumps l) +:+ "]"). repeat apply unbroken_app; [done| |done].
    apply unbroken_concat, Forall_map. rewrite Forall_forall in *. intros j Hin. apply IH; [done|]. simpl in Hj. rewrite forallb_forall in Hj.
    by apply Hj, list_elem_of_In.
  - rewrite dumps_obj. repeat apply unbroken_app; [done| |done]. apply unbroken_concat, Forall_map, Forall_forall.
    intros [k t] (v & Hin & ->)%printed_elem. cbn [json_ok] in Hj. apply andb_true_iff in Hj as [_ Hj]. rewrite forallb_forall in Hj.
    unfold member. simpl. repeat apply unbroken_app; [apply unbroken_str|done|].
    apply (proj1 (Forall_forall _ _) IH (k, v) Hin). by apply (Hj (k, v)), list_elem_of_In.
Qed.

Lemma lines_cons a rest acc : forallb (fun c => negb (is_break c)) a = true ->
  lines_from acc (a ++ newline :: rest) = (reverse acc ++ a) :: lines_from [] rest.
Proof.
  revert acc. induction a as [|c a IH]; intros acc Ha; cbn [app lines_from].
  - change (is_break newline) with true. cbv iota. by rewrite app_nil_r.
  - cbn [forallb] in Ha. apply andb_true_iff in Ha as [Hc%negb_true_iff Ha]. rewrite Hc, IH by done. by rewrite reverse_cons, <- app_assoc.
Qed.

Lemma assoc_iff_elem {A} (m : list (string * A)) k v : NoDup (map fst m) -> assoc k m = Some v <-> (k, v) ∈ m.
Proof.
  induction m as [|[k' v'] m IH]; cbn [map assoc]; intros Hd; [rewrite elem_of_nil; done|]. apply NoDup_cons in Hd as [Hn Hd].
  rewrite elem_of_cons. destruct (str_eqb k' k) eqn:E.
  - apply str_eqb_spec in E as ->. split; [intros [= ->]; by left|]. intros [[= ->]|Hin]; [done|]. exfalso. apply Hn. simpl.
    apply list_elem_of_fmap. by exists (k, v).
  - apply str_eqb_neq in E. rewrite IH by done. split; [by right|]. intros [[= -> ->]|?]; done.
Qed.

Definition sorted_fields (m : dict) : dict := merge_sort by_key (map (fun kv => (kv.1, norm kv.2)) m).

Lemma norm_obj m : norm (JObj m) = JObj (sorted_fields m).
Proof. reflexivity. Qed.

Lemma assoc_sorted m k : NoDup (map fst m) -> assoc k (sorted_fields m) = norm <$> assoc k m.
Proof.
  intros Hd. assert (Hp : sorted_fields m ≡ₚ map (fun kv => (kv.1, norm kv.2)) m) by apply merge_sort_Permutation.
  assert (Hm : map fst (map (fun kv => (kv.1, norm kv.2)) m) = map fst m) by (rewrite map_map; done).
  assert (Hd' : NoDup (map fst (sorted_fields m))) by (by rewrite Hp, Hm). apply option_eq. intros v. rewrite assoc_iff_elem by done. rewrite Hp.
  rewrite fmap_Some. setoid_rewrite (assoc_iff_elem m k) at 1; [|done]. rewrite list_elem_of_fmap. split.
  - intros ([k' v'] & [= -> ->] & Hin). by exists v'.
  - intros (v' & Hin & ->). by exists (k, v').
Qed.

Lemma dget_sorted m k : NoDup (map fst m) -> dget (sorted_fields m) k = norm (dget m k).
Proof. intros Hd. unfold dget. rewrite assoc_sorted by done. by destruct (assoc k m). Qed.

(** ** The log of executions *)

(** What the file stands for: executions in order, each with its action. *)
Record entry := mk_entry { en_id : string; en_action : dict; en_operation : string; en_time : string }.

Section refined.
Context `{EvidenceLaws} `{!EiLaws} (float_repr : string -> string) (ct : connector).

Definition body_at (e : entry) : dict := body_of (en_action e) (en_operation e) (en_time e).
Definition count_at (e : entry) : nat := length (settle ct (body_at e) 3 []).
Definition record_at (e : entry) : dict := record_of ct (body_at e) (count_at e).
Definition receipt_at (e : entry) : dict := make_receipt ct (body_at e) (sha256_json (JObj (body_at e))) (count_at e).
Definition line_at (e : entry) : list ascii := canonical (record_at e) ++ [newline].
Definition file_of (es : list entry) : list ascii := concat (map line_at es).

Inductive action_of (id : string) : dict -> Prop :=
  | an_append content : utf8_text content = true -> action_of id (append_action ct id content)
  | a_compensation comp : utf8_text comp = true -> action_of id (compensate_action ct id comp).

(** Text throughout, and a line whose length has at most 4300 digits. *)
Record entry_wf (e : entry) : Prop := mk_entry_wf {
  ew_action : action_of (en_id e) (en_action e);
  ew_text : utf8_text (en_id e) = true /\ utf8_text (en_operation e) = true /\ utf8_text (en_time e) = true;
  ew_fits : (digits_of (count_at e) <= MAX_STR_DIGITS)%nat }.

Lemma record_keys e : entry_wf e -> NoDup (map fst (record_at e)).
Proof.
  intros [Ha _ _]. unfold record_at, record_of, body_at, body_of. destruct Ha; cbn [append_action compensate_action app map fst];
    apply (bool_decide_unpack _); vm_compute; exact I.
Qed.
Lemma receipt_keys e : NoDup (map fst (receipt_at e)).
Proof. apply (bool_decide_unpack _). vm_compute. exact I. Qed.

(** What a receipt says. *)
Lemma receipt_shape e : entry_wf e -> exists c,
  receipt_at e = [("connector_id", JStr CONNECTOR_ID); ("execution_id", JStr (en_id e)); ("operation_id", JStr (en_operation e));
                  ("resource", JStr (ct_resource ct)); ("action_hash", JStr (sha256_json (JObj (en_action e))));
                  ("record_hash", JStr (sha256_json (JObj (body_at e)))); ("bytes_written", JInt (Z.of_nat (count_at e)));
                  ("timestamp", JStr (en_time e)); ("compensates_execution_id", c)]
  /\ (c = JNull \/ exists s, c = JStr s /\ utf8_text s = true).
Proof.
  intros [Ha _ _]. unfold receipt_at, make_receipt, body_at, body_of. destruct Ha as [content Hc|comp Hc].
  - exists JNull. split; [reflexivity|by left].
  - exists (JStr comp). split; [reflexivity|right; by exists comp].
Qed.

(** Its values are texts, a number and perhaps null. *)
Lemma receipt_values e : entry_wf e -> Forall (fun kv => norm kv.2 = kv.2 /\ json_ok kv.2 = true) (receipt_at e).
Proof.
  intros Hw. pose proof (ew_fits e Hw) as Hf. destruct (receipt_shape e Hw) as (c & -> & Hc). rewrite !Forall_cons, Forall_nil.
  cbn [norm json_ok snd]. split_and!; try reflexivity.
  - rewrite Z.abs_eq by lia. rewrite chars_length. apply Nat.leb_le. exact Hf.
  - by destruct Hc as [->|(s & -> & _)].
  - by destruct Hc as [->|(s & -> & _)].
Qed.

Lemma digest_utf8 j : utf8_text (sha256_json j) = true.
Proof. apply digest_text. Qed.

Lemma receipt_utf8 e : entry_wf e -> utf8_text (ct_resource ct) = true -> json_utf8 (JObj (receipt_at e)) = true.
Proof.
  intros Hw Hr. destruct (ew_text e Hw) as (Ht1 & Ht2 & Ht3). destruct (receipt_shape e Hw) as (c & -> & Hc).
  cbn [json_utf8 forallb fst snd]. rewrite Ht1, Ht2, Ht3, Hr, !digest_utf8. destruct Hc as [->|(s & -> & Hs)]; cbn [json_utf8]; rewrite ?Hs; reflexivity.
Qed.

Lemma record_ok e : entry_wf e -> json_ok (JObj (record_at e)) = true.
Proof.
  intros Hw. cbn [json_ok]. apply andb_true_iff. split; [by apply bool_decide_eq_true, record_keys|].
  assert (Hr : json_ok (JObj (receipt_at e)) = true).
  { cbn [json_ok]. apply andb_true_iff. split; [by apply bool_decide_eq_true, receipt_keys|]. apply forallb_forall. intros kv Hin.
    apply list_elem_of_In in Hin. pose proof (receipt_values e Hw) as Hv. rewrite Forall_forall in Hv. by destruct (Hv kv Hin). }
  unfold record_at, record_of. rewrite forallb_app. fold (receipt_at e). cbn [forallb snd]. rewrite Hr. rewrite andb_true_r.
  destruct Hw as [Ha _ _]. unfold body_at, body_of. by destruct Ha.
Qed.

Lemma record_utf8 e : entry_wf e -> utf8_text (ct_resource ct) = true -> json_utf8 (JObj (record_at e)) = true.
Proof.
  intros Hw Hr. pose proof (receipt_utf8 e Hw Hr) as Hu. unfold record_at, record_of. cbn [json_utf8]. rewrite forallb_app.
  fold (receipt_at e). cbn [forallb fst snd]. rewrite Hu. cbn [json_utf8]. rewrite digest_utf8.
  destruct Hw as [Ha (Ht1 & Ht2 & Ht3) _]. unfold body_at, body_of.
  destruct Ha as [content Hc|comp Hc]; cbn [append_action compensate_action app forallb fst snd json_utf8]; rewrite ?Ht1, ?Ht2, ?Ht3, ?Hr, ?Hc, ?digest_utf8; reflexivity.
Qed.

(** The records of a file that stands for [es]. *)
Lemma records_of es : Forall entry_wf es -> utf8_text (ct_resource ct) = true ->
  records float_repr (Some (file_of es)) = Ok (map (fun e => sorted_fields (record_at e)) es).
Proof.
  intros Hes Hr. unfold records.
  assert (Hu : utf8_ok (file_of es) = true).
  { unfold file_of. induction Hes as [|e es He Hes IH]; [done|]. cbn [map concat]. unfold line_at, canonical. rewrite <- app_assoc.
    rewrite utf8_app by (by apply dumps_utf8, record_utf8). exact IH. }
  rewrite Hu. clear Hu. f_equal. unfold lines, file_of. induction Hes as [|e es He Hes IH]; [done|]. cbn [map concat]. unfold line_at at 1, canonical.
  rewrite <- app_assoc. change ([newline] ++ ?x) with (newline :: x). rewrite lines_cons by (by apply dumps_unbroken, record_ok).
  cbn [app reverse rev_append]. change (reverse [] ++ ?x) with x. cbn [omap list_omap].
  assert (Hl : read_record float_repr (chars (py_dumps (JObj (record_at e)))) = Some (sorted_fields (record_at e))).
  { unfold read_record. rewrite string_of_list_ascii_of_string, loads_dumps by (by apply record_ok). by rewrite norm_obj. }
  rewrite Hl. f_equal. exact IH.
Qed.

(** ** The connector over the log *)

Definition stands (f : file) (es : list entry) : Prop :=
  (f = None /\ es = [] \/ f = Some (file_of es)) /\ Forall entry_wf es /\ NoDup (map en_id es).

Definition of_execution (id : string) (es : list entry) : option entry := List.find (fun e => str_eqb (en_id e) id) es.
Definition same_hash (a b : dict) : bool := str_eqb (sha256_json (JObj a)) (sha256_json (JObj b)).

Lemma assoc_app {A} k (m m' : list (string * A)) : assoc k m = None -> assoc k (m ++ m') = assoc k m'.
Proof. induction m as [|[k1 v1] m IH]; [done|]. cbn [app assoc]. destruct (str_eqb k1 k); [done|apply IH]. Qed.

Lemma record_gets e : entry_wf e ->
  dget (sorted_fields (record_at e)) "execution_id" = JStr (en_id e)
  /\ dget (sorted_fields (record_at e)) "action_hash" = JStr (sha256_json (JObj (en_action e)))
  /\ assoc "receipt" (sorted_fields (record_at e)) = Some (JObj (sorted_fields (receipt_at e))).
Proof.
  intros Hw. rewrite !dget_sorted, assoc_sorted by (by apply record_keys).
  assert (Hb : dget (record_at e) "execution_id" = JStr (en_id e) /\ dget (record_at e) "action_hash" = JStr (sha256_json (JObj (en_action e)))
               /\ assoc "receipt" (body_at e) = None).
  { destruct Hw as [Ha _ _]. unfold record_at, record_of, body_at, body_of. destruct Ha; split_and!; reflexivity. }
  destruct Hb as (-> & -> & Hb). split_and!; [reflexivity..|]. unfold record_at, record_of. rewrite assoc_app by done. reflexivity.
Qed.

Lemma receipt_sorted v1 v2 v3 v4 v5 v6 v7 v8 v9 :
  let r := [("connector_id", v1); ("execution_id", v2); ("operation_id", v3); ("resource", v4); ("action_hash", v5); ("record_hash", v6);
            ("bytes_written", v7); ("timestamp", v8); ("compensates_execution_id", v9)] in
  receipt_of (JObj (merge_sort by_key r)) = Ok r.
Proof. vm_compute. reflexivity. Qed.

Lemma receipt_reads e : entry_wf e -> receipt_of (JObj (sorted_fields (receipt_at e))) = Ok (receipt_at e).
Proof.
  intros Hw. pose proof (receipt_values e Hw) as Hv. unfold sorted_fields.
  assert (Hm : map (fun kv => (kv.1, norm kv.2)) (receipt_at e) = receipt_at e).
  { induction Hv as [|[k v] l [Hn _] _ IH]; [done|]. cbn [map fst snd] in *. by rewrite Hn, IH. }
  rewrite Hm. destruct (receipt_shape e Hw) as (c & -> & _). apply receipt_sorted.
Qed.

(** What is found for an execution. *)
Lemma find_logged id h es : Forall entry_wf es -> h <> Some "" ->
  find_record id h (map (fun e => sorted_fields (record_at e)) es)
  = match of_execution id es with
    | None => Ok None
    | Some e =>
      match h with
      | Some x => if str_eqb (sha256_json (JObj (en_action e))) x then Ok (Some (sorted_fields (record_at e)))
                  else Err (ConnectorConflict "execution_id reused with different action data")
      | None => Ok (Some (sorted_fields (record_at e)))
      end
    end.
Proof.
  intros Hes Hh. unfold of_execution. induction Hes as [|e es He Hes IH]; [done|]. cbn [map find_record List.find].
  destruct (record_gets e He) as (-> & -> & _). cbn [py_eqb]. destruct (str_eqb (en_id e) id); cbn [negb]; [|exact IH].
  destruct h as [x|]; [|done]. destruct (str_eqb x "") eqn:Ex; [apply str_eqb_spec in Ex as ->; done|]. cbn [negb andb].
  by destruct (str_eqb (sha256_json _) x).
Qed.

Definition safe (fs : fs_view) : bool := fs_parent_same fs && fs_regular fs && (fs_links fs =? 1).

Lemma safe_target fs b : assert_safe_target fs b = Ok tt \/ exists e, assert_safe_target fs b = Err e.
Proof. destruct (assert_safe_target fs b) as [[]|e]; [by left|right; by exists e]. Qed.

Lemma safe_ok fs b : safe fs = true -> assert_safe_target fs b = Ok tt.
Proof.
  unfold safe, assert_safe_target. rewrite !andb_true_iff. intros [[-> ->] ->]. cbn [negb]. by rewrite !andb_false_r.
Qed.

Lemma reconcile_logged fs id h f es : stands f es -> utf8_text (ct_resource ct) = true -> assert_safe_target fs (bool_decide (is_Some f)) = Ok tt ->
  reconcile float_repr fs id h f = find_record id h (map (fun e => sorted_fields (record_at e)) es).
Proof.
  intros ([[-> ->]| ->] & Hes & _) Hr Hs; unfold reconcile; rewrite Hs; cbn [rbind]; [done|]. by rewrite records_of.
Qed.

(** The log after an append: the receipt of the execution's entry if its action
    has this hash, a conflict if it has another, a new entry otherwise. *)
Definition log_append (e : entry) (es : list entry) : res connector_exc dict * list entry :=
  match of_execution (en_id e) es with
  | Some old =>
    (if same_hash (en_action old) (en_action e) then Ok (receipt_at old)
     else Err (ConnectorConflict "execution_id reused with different action data"), es)
  | None => (Ok (receipt_at e), es ++ [e])
  end.

Definition as_outcome (r : res connector_exc dict) (f : file) : outcome connector_exc file dict :=
  match r with Ok a => Ret a f | Err e => Raise e f end.

Lemma of_execution_None id es : of_execution id es = None -> id ∉ map en_id es.
Proof.
  intros Hn (e & -> & Hin)%list_elem_of_fmap. apply List.find_none with (x := e) in Hn; [|by apply list_elem_of_In]. by rewrite str_eqb_refl in Hn.
Qed.

Lemma of_execution_Some id es e : of_execution id es = Some e -> e ∈ es /\ en_id e = id.
Proof. intros [Hin He]%List.find_some. split; [by apply list_elem_of_In|]. by apply str_eqb_spec in He. Qed.

Lemma stands_snoc f es e : stands f es -> entry_wf e -> of_execution (en_id e) es = None ->
  stands (Some (default [] f ++ line_at e)) (es ++ [e]).
Proof.
  intros (Hf & Hes & Hnd) He Hn. split; [|split].
  - right. f_equal. unfold file_of. rewrite map_app, concat_app. cbn [map concat]. rewrite app_nil_r.
    by destruct Hf as [[-> ->]| ->].
  - apply Forall_app. split; [done|]. by constructor.
  - rewrite map_app. apply NoDup_app. split_and!; [done| |apply NoDup_singleton]. intros x Hx ->%list_elem_of_singleton.
    by apply (of_execution_None _ _ Hn).
Qed.

Lemma hash_nonempty (d : dict) : Some (sha256_json (JObj d)) <> Some "".
Proof. intros [= Hx]. by apply (sha256_hex_nonempty (py_dumps (JObj d))). Qed.

(** One append is one step of the log. *)
Lemma append_new_logged fs e f es : stands f es -> utf8_text (ct_resource ct) = true -> entry_wf e ->
  let o := append_new float_repr ct fs (en_id e) (en_action e) (en_operation e) (en_time e) whole f in
  (exists x, assert_safe_target fs (bool_decide (is_Some f)) = Err x /\ o = Raise x f)
  \/ assert_safe_target fs (bool_decide (is_Some f)) = Ok tt
     /\ exists f', o = as_outcome (log_append e es).1 f' /\ stands f' (log_append e es).2 /\ ((log_append e es).2 = es -> f' = f).
Proof.
  intros Hst Hr He. cbv zeta. unfold append_new. destruct (safe_target fs (bool_decide (is_Some f))) as [Hs|[x Hs]].
  2: { left. exists x. split; [done|]. unfold reconcile. by rewrite Hs. }
  right. split; [done|]. rewrite (reconcile_logged fs _ _ f es Hst Hr Hs). pose proof Hst as (_ & Hes & _).
  rewrite find_logged by (done || apply hash_nonempty). unfold log_append, same_hash.
  destruct (of_execution (en_id e) es) as [old|] eqn:Eo.
  - assert (Hw : entry_wf old) by (apply of_execution_Some in Eo as [Hin _]; rewrite Forall_forall in Hes; by apply Hes).
    exists f. split_and!; [|done..]. destruct (str_eqb _ _); [|done]. destruct (record_gets old Hw) as (_ & _ & ->). unfold lift. by rewrite receipt_reads.
  - exists (Some (default [] f ++ line_at e)). split_and!; [done|by apply stands_snoc|]. intros Hes'. exfalso.
    apply (f_equal length) in Hes'. cbn [snd] in Hes'. rewrite length_app in Hes'. simpl in Hes'. lia.
Qed.

Definition append_entry (id content timestamp : string) : entry := mk_entry id (append_action ct id content) ("append:" +:+ id) timestamp.
Definition tombstone (id compensates timestamp : string) : entry :=
  mk_entry id (compensate_action ct id compensates) ("compensate:" +:+ id) timestamp.

(** Any request, its texts well formed, whose write is not torn. *)
Inductive cstep : file -> file -> Prop :=
  | did_append scratch fs timestamp claims content f :
      (forall id text, authorize ct scratch claims APPEND_ACTION = Ok id -> content = JStr text -> entry_wf (append_entry id text timestamp)) ->
      cstep f (oworld (append float_repr ct scratch fs timestamp whole claims content f))
  | did_compensate scratch fs timestamp claims compensates f :
      (forall id, authorize ct scratch claims COMPENSATE_ACTION = Ok id -> entry_wf (tombstone id compensates timestamp)) ->
      cstep f (oworld (compensate float_repr ct scratch fs timestamp whole claims compensates f)).

(** The log: executions at most once each, a compensation only of an append. *)
Inductive log_step : list entry -> list entry -> Prop :=
  | log_same es : log_step es es
  | log_appended id text timestamp es : of_execution id es = None -> log_step es (es ++ [append_entry id text timestamp])
  | log_compensated id compensates timestamp a text es :
      of_execution id es = None -> of_execution compensates es = Some a -> en_action a = append_action ct compensates text ->
      log_step es (es ++ [tombstone id compensates timestamp]).

Lemma append_new_steps fs e f es : stands f es -> utf8_text (ct_resource ct) = true -> entry_wf e ->
  exists es', stands (oworld (append_new float_repr ct fs (en_id e) (en_action e) (en_operation e) (en_time e) whole f)) es'
    /\ (es' = es \/ of_execution (en_id e) es = None /\ es' = es ++ [e]).
Proof.
  intros Hst Hr He. destruct (append_new_logged fs e f es Hst Hr He) as [(x & _ & ->)|(_ & f' & -> & Hs & _)]; [exists es; auto|].
  exists (log_append e es).2. split; [by destruct (log_append e es).1|]. unfold log_append. destruct (of_execution _ _) eqn:Eo; [by left|by right].
Qed.

(** A record of an append is the record of an append entry. *)
Lemma append_recorded e : entry_wf e -> py_eqb (dget (sorted_fields (record_at e)) "action") (JStr APPEND_ACTION) = true ->
  exists text, en_action e = append_action ct (en_id e) text.
Proof.
  intros Hw. rewrite dget_sorted by (by apply record_keys). destruct Hw as [Ha _ _]. unfold record_at, record_of, body_at, body_of.
  destruct Ha as [text _|comp _]; [by exists text|]. cbn. done.
Qed.

Lemma cstep_logged f f' es : utf8_text (ct_resource ct) = true -> stands f es -> cstep f f' -> exists es', stands f' es' /\ log_step es es'.
Proof.
  intros Hr Hst Hc. destruct Hc as [scratch fs timestamp claims content f Hw|scratch fs timestamp claims compensates f Hw].
  - unfold append, ebind, lift. destruct (authorize _ _ _ _) as [id|x] eqn:Ea; [|by exists es; split; [|constructor]].
    destruct content as [| | | |text| |]; try by exists es; split; [|constructor].
    unfold raise_if. destruct (str_eqb text ""); [by exists es; split; [|constructor]|]. destruct (_ <? _); [by exists es; split; [|constructor]|].
    destruct (append_new_steps fs (append_entry id text timestamp) f es) as (es' & Hs & [->|[Ho ->]]); eauto using log_same, log_appended.
  - unfold compensate, ebind, lift. destruct (authorize _ _ _ _) as [id|x] eqn:Ea; [|by exists es; split; [|constructor]].
    destruct (safe_target fs (bool_decide (is_Some f))) as [Hsafe|[x Hs]].
    2: { unfold reconcile. rewrite Hs. by exists es; split; [|constructor]. }
    pose proof Hst as (_ & Hes & _). rewrite (reconcile_logged fs _ _ f es Hst Hr Hsafe), find_logged by done.
    destruct (of_execution compensates es) as [a|] eqn:Eo; [|by exists es; split; [|constructor]].
    destruct (py_eqb _ _) eqn:Ep; [|by exists es; split; [|constructor]]. pose proof (of_execution_Some _ _ _ Eo) as [Hin Hid].
    destruct (append_recorded a (proj1 (Forall_forall _ _) Hes a Hin) Ep) as [text Ht]. rewrite Hid in Ht.
    destruct (append_new_steps fs (tombstone id compensates timestamp) f es) as (es' & Hs & [->|[Ho ->]]); eauto using log_same, log_compensated.
Qed.

Lemma csteps_logged f f' es : utf8_text (ct_resource ct) = true -> stands f es -> steps cstep f f' -> exists es', stands f' es' /\ steps log_step es es'.
Proof.
  intros Hr Hst Hs. induction Hs as [f|f1 f2 f3 _ IH Hc]; [exists es; split; [done|constructor]|]. destruct (IH Hst) as (es2 & Hst2 & Hp).
  destruct (cstep_logged _ _ _ Hr Hst2 Hc) as (es3 & Hst3 & Hp3). exists es3. split; [done|]. by eapply steps_snoc.
Qed.

Lemma log_grows es es' : steps log_step es es' -> es `prefix_of` es'.
Proof.
  induction 1 as [es|es1 es2 es3 _ IH Hs]; [done|]. destruct Hs; [done|by apply prefix_app_r..].
Qed.

Lemma stands_nothing : stands None [].
Proof. split; [by left|]. split; [done|apply NoDup_nil_2]. Qed.

Lemma of_execution_prefix id es es' e : es `prefix_of` es' -> of_execution id es = Some e -> of_execution id es' = Some e.
Proof.
  intros [l ->] Hf. unfold of_execution in *. induction es as [|e' es IH]; [done|]. cbn [app List.find] in *. by destruct (str_eqb _ _); [|apply IH].
Qed.

Lemma of_execution_snoc es e : of_execution (en_id e) es = None -> of_execution (en_id e) (es ++ [e]) = Some e.
Proof.
  unfold of_execution. induction es as [|e' es IH]; cbn [app List.find]; [by rewrite str_eqb_refl|]. by destruct (str_eqb _ _).
Qed.

Lemma append_action_inj id text text' : py_dumps (JObj (append_action ct id text)) = py_dumps (JObj (append_action ct id text')) -> text = text'.
Proof.
  intros Hd. assert (Ho : forall t, json_ok (JObj (append_action ct id t)) = true) by reflexivity.
  pose proof (loads_dumps float_repr _ (Ho text)) as Hl. rewrite Hd, (loads_dumps float_repr _ (Ho text')) in Hl.
  rewrite !norm_obj in Hl. apply (f_equal (fun v => match v with Some (JObj d) => dget d "content" | _ => JNull end)) in Hl.
  rewrite !dget_sorted in Hl by (apply (bool_decide_unpack _); vm_compute; exact I). by injection Hl.
Qed.

(** An append whose content is admitted, over the log. *)
Lemma append_admitted scratch fs timestamp wr claims id text f : authorize ct scratch claims APPEND_ACTION = Ok id -> text <> "" ->
  Z.of_nat (String.length text) <= ct_max_content_bytes ct ->
  append float_repr ct scratch fs timestamp wr claims (JStr text) f
  = append_new float_repr ct fs id (append_action ct id text) ("append:" +:+ id) timestamp wr f.
Proof.
  intros Ha Ht Hm. unfold append, ebind, lift. rewrite Ha. unfold raise_if. rewrite (proj2 (str_eqb_neq text "")) by done.
  assert (Hf : (ct_max_content_bytes ct <? Z.of_nat (String.length text)) = false) by lia. by rewrite Hf.
Qed.

(** What an answered append leaves, of content or of a tombstone. *)
Lemma append_new_answers fs e receipt f f1 es : utf8_text (ct_resource ct) = true -> stands f es -> entry_wf e ->
  append_new float_repr ct fs (en_id e) (en_action e) (en_operation e) (en_time e) whole f = Ret receipt f1 ->
  exists old es1, stands f1 es1 /\ of_execution (en_id e) es1 = Some old /\ receipt = receipt_at old /\ same_hash (en_action old) (en_action e) = true
    /\ (es1 = es \/ of_execution (en_id e) es = None /\ es1 = es ++ [e]).
Proof.
  intros Hr Hst Hw Hap. pose proof (append_new_logged fs e f es Hst Hr Hw) as Hl. cbv zeta in Hl.
  rewrite Hap in Hl. destruct Hl as [(x & _ & [=])|(_ & f' & Hx & Hs & _)]. revert Hx Hs. unfold log_append.
  destruct (of_execution (en_id e) es) as [old|] eqn:Eo; cbn [fst snd].
  - destruct (same_hash _ _) eqn:Eh; intros [=] Hs; subst. exists old, es. split_and!; auto.
  - intros [=] Hs; subst. exists e, (es ++ [e]). split_and!; [done|by apply of_execution_snoc|done|unfold same_hash; apply str_eqb_refl|auto].
Qed.

Lemma append_answers scratch fs timestamp claims id text receipt f f1 es :
  utf8_text (ct_resource ct) = true -> stands f es -> authorize ct scratch claims APPEND_ACTION = Ok id -> entry_wf (append_entry id text timestamp) ->
  append float_repr ct scratch fs timestamp whole claims (JStr text) f = Ret receipt f1 ->
  text <> "" /\ Z.of_nat (String.length text) <= ct_max_content_bytes ct
  /\ exists e es1, stands f1 es1 /\ log_step es es1 /\ of_execution id es1 = Some e /\ receipt = receipt_at e /\ same_hash (en_action e) (append_action ct id text) = true.
Proof.
  intros Hr Hst Ha Hw Hap. unfold append, ebind, lift in Hap. rewrite Ha in Hap. unfold raise_if in Hap.
  destruct (str_eqb text "") eqn:Et; [done|]. apply str_eqb_neq in Et. destruct (_ <? _) eqn:Em; [done|]. split_and!; [done|lia|].
  destruct (append_new_answers fs (append_entry id text timestamp) receipt f f1 es) as (old & es1 & Hst1 & Ho & Hrec & Hh & Hes); try done.
  exists old, es1. split_and!; try done. by destruct Hes as [->|[Hn ->]]; constructor.
Qed.

Lemma compensate_answers scratch fs timestamp claims id compensates receipt f f1 es :
  utf8_text (ct_resource ct) = true -> stands f es -> authorize ct scratch claims COMPENSATE_ACTION = Ok id -> entry_wf (tombstone id compensates timestamp) ->
  compensate float_repr ct scratch fs timestamp whole claims compensates f = Ret receipt f1 ->
  exists e es1, stands f1 es1 /\ log_step es es1 /\ of_execution id es1 = Some e /\ receipt = receipt_at e.
Proof.
  intros Hr Hst Ha Hw Hap. unfold compensate, ebind, lift in Hap. rewrite Ha in Hap.
  destruct (safe_target fs (bool_decide (is_Some f))) as [Hsafe|[x Hs]]; [|unfold reconcile in Hap; by rewrite Hs in Hap].
  pose proof Hst as (_ & Hes & _). rewrite (reconcile_logged fs _ _ f es Hst Hr Hsafe), find_logged in Hap by done.
  destruct (of_execution compensates es) as [a|] eqn:Eo; [|done]. destruct (py_eqb _ _) eqn:Ep; [|done].
  pose proof (of_execution_Some _ _ _ Eo) as [Hin Hid]. destruct (append_recorded a (proj1 (Forall_forall _ _) Hes a Hin) Ep) as [text Ht]. rewrite Hid in Ht.
  destruct (append_new_answers fs (tombstone id compensates timestamp) receipt f f1 es) as (old & es1 & Hst1 & Ho & Hrec & _ & Hes'); try done.
  exists old, es1. split_and!; try done. destruct Hes' as [->|[Hn ->]]; [constructor|by eapply log_compensated].
Qed.

Lemma receipt_counts e : dget (receipt_at e) "bytes_written" = JInt (Z.of_nat (length (line_at e))).
Proof. change (line_at e) with (candidate ct (body_at e) (count_at e)). unfold count_at. by rewrite bytes_counted. Qed.

(** Asked again, with the entry in the log, whatever a write would do. *)
Lemma append_again fs timestamp wr id action op f es e : stands f es -> utf8_text (ct_resource ct) = true -> safe fs = true -> of_execution id es = Some e ->
  append_new float_repr ct fs id action op timestamp wr f
  = as_outcome (if same_hash (en_action e) action then Ok (receipt_at e) else Err (ConnectorConflict "execution_id reused with different action data")) f.
Proof.
  intros Hst Hr Hs Ho. unfold append_new. rewrite (reconcile_logged fs _ _ f es Hst Hr (safe_ok _ _ Hs)). pose proof Hst as (_ & Hes & _).
  rewrite find_logged, Ho by (done || apply hash_nonempty). unfold same_hash. destruct (str_eqb _ _); [|done].
  assert (Hw : entry_wf e) by (apply of_execution_Some in Ho as [Hin _]; rewrite Forall_forall in Hes; by apply Hes).
  destruct (record_gets e Hw) as (_ & _ & ->). unfold lift. by rewrite receipt_reads.
Qed.

(** Whatever requests it gets, with writes that are not torn, the file stands
    for a log: each line is one execution's record, no execution has two, records
    are only added, and a compensation is recorded only after the append it
    compensates. *)
Theorem connector_refines_log f f' : utf8_text (ct_resource ct) = true -> steps cstep None f -> steps cstep f f' ->
  exists es es', stands f es /\ steps log_step [] es /\ stands f' es' /\ steps log_step es es' /\ es `prefix_of` es'.
Proof.
  intros Hr Hs1 Hs2. destruct (csteps_logged None f [] Hr stands_nothing Hs1) as (es & Hst & Hs).
  destruct (csteps_logged f f' es Hr Hst Hs2) as (es' & Hst' & Hs'). exists es, es'. split_and!; try done. by apply log_grows.
Qed.

(** C19: an execution appends at most once.  When an append has answered with a
    receipt, then after any requests its record is the only one of the execution in
    a log that grew one record at a time, a compensation only after its append;
    the receipt is its receipt and counts its bytes; the same content asked again gets
    the same receipt and writes nothing; other content is refused as a conflict,
    unless two texts with the same SHA-256 are at hand. *)
Theorem execution_appends_once scratch fs timestamp claims id text receipt f f1 f2 :
  utf8_text (ct_resource ct) = true -> steps cstep None f ->
  authorize ct scratch claims APPEND_ACTION = Ok id -> entry_wf (append_entry id text timestamp) ->
  append float_repr ct scratch fs timestamp whole claims (JStr text) f = Ret receipt f1 -> steps cstep f1 f2 ->
  (exists es e, stands f2 es /\ steps log_step [] es /\ of_execution id es = Some e /\ receipt = receipt_at e
     /\ dget receipt "bytes_written" = JInt (Z.of_nat (length (line_at e))))
  /\ (forall scratch' fs' timestamp' wr claims', safe fs' = true -> authorize ct scratch' claims' APPEND_ACTION = Ok id ->
       append float_repr ct scratch' fs' timestamp' wr claims' (JStr text) f2 = Ret receipt f2)
  /\ (forall scratch' fs' timestamp' wr claims' text', safe fs' = true -> authorize ct scratch' claims' APPEND_ACTION = Ok id ->
       text' <> "" -> Z.of_nat (String.length text') <= ct_max_content_bytes ct -> text' <> text ->
       append float_repr ct scratch' fs' timestamp' wr claims' (JStr text') f2
         = Raise (ConnectorConflict "execution_id reused with different action data") f2
       \/ exists m m', m <> m' /\ sha256_hex m = sha256_hex m').
Proof.
  intros Hr Hf Ha Hw Hap Hf2. destruct (csteps_logged None f [] Hr stands_nothing Hf) as (es & Hst & Hl).
  destruct (append_answers scratch fs timestamp claims id text receipt f f1 es Hr Hst Ha Hw Hap) as (Ht & Hm & e & es1 & Hst1 & Hl1 & Ho & Hrec & Hh).
  destruct (csteps_logged f1 f2 es1 Hr Hst1 Hf2) as (es2 & Hst2 & Hl2).
  pose proof (of_execution_prefix _ _ _ _ (log_grows _ _ Hl2) Ho) as Ho2. split; [|split].
  - exists es2, e. split_and!; [done| |done..|].
    { by eapply steps_trans; [eapply steps_snoc|]. }
    subst receipt. unfold line_at. apply receipt_counts.
  - intros scratch' fs' timestamp' wr claims' Hs Ha'. erewrite append_admitted by eassumption. erewrite append_again by eassumption.
    by rewrite Hh, Hrec.
  - intros scratch' fs' timestamp' wr claims' text' Hs Ha' Ht' Hm' Hne. erewrite append_admitted by eassumption. erewrite append_again by eassumption.
    destruct (same_hash (en_action e) (append_action ct id text')) eqn:Es; [|by left]. right. apply str_eqb_spec in Hh, Es.
    exists (py_dumps (JObj (append_action ct id text))), (py_dumps (JObj (append_action ct id text'))). split.
    + intros Hx%append_action_inj. by apply Hne.
    + unfold sha256_json in *. by rewrite <- Hh, Es.
Qed.
End refined.
