(* ===== verification/Target.v ===== *)
(** * The governed target of the sandbox connector

    scripts/n8n_17_connector_target.py over execution/idempotency_registry.py,
    revocation_registry.py, kms.py and the connector; the credential broker
    (execution/credential_broker.py) on the same registries.

    A request is a thread that moves from one database transaction or connector
    call to the next ([advance]); requests interleave at these points, and the
    process can die at any of them.  What PyJWT says of a token, what the key
    service answers and which database call fails are arguments; the database
    takes only text for a text column, as PostgreSQL does.  JSON columns are
    kept as their values.

    Then: an execution reaches the connector at most once, a revocation stops
    every request that is not yet at the connector, and an answered execution
    is in the file. *)

From Stdlib Require Import ZArith Lia Ascii String.
From stdpp Require Import base gmap strings list pretty sorting.
From S2P Require Import Prelude Canon PyJson JsonScan Lease Verify VerifyProofs Identity HttpSigProperties PyLoads Evidence EvidenceProperties Connector.

Local Open Scope Z_scope.

(** ** Executions (idempotency_registry.py) *)

Inductive ExecutionState := RESERVED | RUNNING | SUCCEEDED | FAILED_RETRYABLE | FAILED_TERMINAL | CANCELLED | RECONCILIATION_REQUIRED.

Record ExecutionRegistry := mk_row { er_jti : string; er_execution_id : string; er_action_hash : string; er_state : ExecutionState; er_result : option dict }.

Definition with_state (s : ExecutionState) (result : option dict) (r : ExecutionRegistry) : ExecutionRegistry :=
  mk_row (er_jti r) (er_execution_id r) (er_action_hash r) s (match result with Some (_ :: _) => result | _ => er_result r end).
Definition in_row (execution_id : string) (r : ExecutionRegistry) : bool := str_eqb (er_execution_id r) execution_id.
Definition on_row (execution_id : string) (f : ExecutionRegistry -> ExecutionRegistry) : list ExecutionRegistry -> list ExecutionRegistry :=
  map (fun r => if in_row execution_id r then f r else r).

(** [json.dumps(action_data, sort_keys=True)] and its digest. *)
Definition hash_action `{Ext} (action_data : dict) : string := sha256_hex (py_dumps_default (JObj action_data)).

(** What [reserve] returns; [Fell_through] is the None of the states it has no
    branch for. *)
Inductive reservation := Granted | Refused (error : option string) (previous : option dict) | Fell_through.

(** The row of the execution or of the token.  If there is one of each, both
    differ from what is asked. *)
Definition existing (jti execution_id : string) : list ExecutionRegistry -> option ExecutionRegistry :=
  List.find (fun r => in_row execution_id r || str_eqb (er_jti r) jti).

(** The transaction up to its end when there is a row, up to the insert when
    there is none. *)
Definition reserve_read (jti execution_id action_hash : string) (rows : list ExecutionRegistry) : option (reservation * list ExecutionRegistry) :=
  match existing jti execution_id rows with
  | None => None
  | Some r =>
    if negb (str_eqb (er_jti r) jti) || negb (str_eqb (er_execution_id r) execution_id)
    then Some (Refused (Some "DENY: Two distinct jti values cannot reuse one execution_id inconsistently.") None, rows)
    else if negb (str_eqb (er_action_hash r) action_hash) then Some (Refused (Some "DENY: Same jti, altered payload is denied.") None, rows)
    else
      match er_state r with
      | SUCCEEDED => Some (Refused None (er_result r), rows)
      | RESERVED | RUNNING => Some (Refused (Some "DENY: Execution is already running (concurrent duplicate).") None, rows)
      | FAILED_TERMINAL => Some (Refused (Some "DENY: Execution previously failed terminally.") None, rows)
      | FAILED_RETRYABLE => Some (Granted, on_row execution_id (fun r => mk_row (er_jti r) (er_execution_id r) (er_action_hash r) RESERVED (er_result r)) rows)
      | CANCELLED | RECONCILIATION_REQUIRED => Some (Fell_through, rows)
      end
  end.

(** The insert: the primary key and the unique token id hold at commit. *)
Definition reserve_insert (jti execution_id action_hash : string) (rows : list ExecutionRegistry) : reservation * list ExecutionRegistry :=
  match existing jti execution_id rows with
  | Some _ => (Refused (Some "Database constraint error: duplicate key") None, rows)
  | None => (Granted, rows ++ [mk_row jti execution_id action_hash RESERVED None])
  end.

Definition update_state (db : option string) (execution_id : json) (state : ExecutionState) (result : option dict) (rows : list ExecutionRegistry) :
  bool * list ExecutionRegistry :=
  match db, execution_id with
  | None, JStr id => if existsb (in_row id) rows then (true, on_row id (with_state state result) rows) else (false, rows)
  | _, _ => (false, rows)
  end.

Definition get_state (execution_id : string) (rows : list ExecutionRegistry) : option (ExecutionState * option dict) :=
  r ← List.find (in_row execution_id) rows; Some (er_state r, er_result r).

(** ** Revocations (revocation_registry.py) *)

Inductive LeaseState := ACTIVE | CANCELLING | REVOKED | EXPIRED | COMPLETED.
#[export] Instance LeaseState_eq_dec : EqDecision LeaseState.
Proof. solve_decision. Defined.

Record RevocationPolicy := mk_rpolicy { rp_scope_type : string; rp_scope_value : string; rp_is_cancel : bool; rp_actor : string; rp_reason : string; rp_audit_id : string }.

Record revocations := mk_revocations { rv_policies : list RevocationPolicy; rv_leases : gmap string LeaseState }.

Definition set_lease_state (db : option string) (lease_id : string) (state : LeaseState) (r : revocations) : revocations :=
  match db with
  | Some _ => r
  | None => mk_revocations (rv_policies r) (<[lease_id := state]> (rv_leases r))
  end.

Definition scoped (scope_type scope_value : string) (p : RevocationPolicy) : bool := str_eqb (rp_scope_type p) scope_type && str_eqb (rp_scope_value p) scope_value.

Definition revoke (db : option string) (p : RevocationPolicy) (r : revocations) : res string revocations :=
  match db with
  | Some e => Err ("Failed to record revocation: " +:+ e)
  | None =>
    let policies := if existsb (scoped (rp_scope_type p) (rp_scope_value p)) (rv_policies r)
                    then map (fun q => if scoped (rp_scope_type p) (rp_scope_value p) q then p else q) (rv_policies r)
                    else rv_policies r ++ [p] in
    let leases := if str_eqb (rp_scope_type p) "LEASE"
                  then <[rp_scope_value p := if rp_is_cancel p then CANCELLING else REVOKED]> (rv_leases r) else rv_leases r in
    Ok (mk_revocations policies leases)
  end.

(** A missing key id is a null that no policy has. *)
Definition applies (kid : option string) (subject lease_id execution_id : string) (p : RevocationPolicy) : bool :=
  scoped "GLOBAL" "*" p || (match kid with Some k => scoped "KID" k p | None => false end) || scoped "SUBJECT" subject p || scoped "LEASE" lease_id p || scoped "EXECUTION" execution_id p.

Definition check_authority (fail_closed : bool) (db : option string) (kid : option string) (subject lease_id execution_id : json) (r : revocations) : res string LeaseState :=
  let failed e := if fail_closed then Err ("Fail closed due to authority check error: " +:+ e) else Ok ACTIVE in
  match db, subject, lease_id, execution_id with
  | None, JStr sub, JStr lease, JStr exec =>
    match List.find (applies kid sub lease exec) (rv_policies r) with
    | Some p => Ok (if rp_is_cancel p then CANCELLING else REVOKED)
    | None => Ok (default ACTIVE (rv_leases r !! lease))
    end
  | Some e, _, _, _ => failed e
  | None, _, _, _ => failed "parameter is not text"
  end.

Definition stopped (s : LeaseState) : bool := bool_decide (s = REVOKED \/ s = CANCELLING).

(** ** Keys (kms.py) *)

Inductive KMSKeyStatus := KEY_ACTIVE | KEY_RETIRED | KEY_REVOKED.
#[export] Instance KMSKeyStatus_eq_dec : EqDecision KMSKeyStatus.
Proof. solve_decision. Defined.

Record KMSKeyRecord := mk_key { k_kid : string; k_public_bytes : string; k_status : KMSKeyStatus; k_created_at : Z; k_expires_at : option Z }.

(** The key table and the mock enclave's private keys. *)
Record kms `{Ext} := mk_kms { km_records : list KMSKeyRecord; km_enclave : gmap string privkey }.

Section keys.
Context `{Ext}.

Definition is_key (kid : string) (k : KMSKeyRecord) : bool := str_eqb (k_kid k) kid.
Definition with_status (s : KMSKeyStatus) (expires_at : option Z) (k : KMSKeyRecord) : KMSKeyRecord :=
  mk_key (k_kid k) (k_public_bytes k) s (k_created_at k) expires_at.
Definition is_active (k : KMSKeyRecord) : bool := bool_decide (k_status k = KEY_ACTIVE).

(** Times in seconds.  [kid] and the key are drawn. *)
Definition generate_new_key (kid : string) (private_key : privkey) (now : Z) : eff string kms string := fun w =>
  let enclave := <[kid := private_key]> (km_enclave w) in
  if existsb (is_key kid) (km_records w) then Raise "IntegrityError" (mk_kms _ (km_records w) enclave)
  else
    let retired := map (fun k => if is_active k then with_status KEY_RETIRED (Some (now + 3600)) k else k) (km_records w) in
    Ret kid (mk_kms _ (retired ++ [mk_key kid (ed_public_raw private_key) KEY_ACTIVE now None]) enclave).

Definition revoke_key (kid : string) (w : kms) : kms :=
  mk_kms _ (map (fun k => if is_key kid k then with_status KEY_REVOKED (k_expires_at k) k else k) (km_records w)) (km_enclave w).

Definition get_public_key (kid : string) (now : Z) (w : kms) : option string :=
  k ← List.find (is_key kid) (km_records w);
  match k_status k with
  | KEY_REVOKED => None
  | KEY_RETIRED =>
    match k_expires_at k with
    | Some t => if negb (t =? 0) && (t <? now) then None else Some (k_public_bytes k)
    | None => Some (k_public_bytes k)
    end
  | KEY_ACTIVE => Some (k_public_bytes k)
  end.

(** The claims a key signs: the payload wins over the standard claims. *)
Definition sign_claims (payload : dict) (audience jti : string) (now : Z) : dict :=
  foldl (fun d kv => jput d kv.1 kv.2)
    [("iss", JStr "cappo.veklom.com"); ("aud", JStr audience); ("iat", JInt now); ("nbf", JInt now); ("exp", JInt (now + 300)); ("jti", JStr jti)] payload.

(** [jwt.encode(claims, key, headers={"kid": kid})] is an argument. *)
Definition kms_sign (encode : dict -> privkey -> string -> string) (payload : dict) (audience jti : string) (now : Z) (w : kms) : res string string :=
  match List.find is_active (km_records w) with
  | None => Err "No active key available for signing"
  | Some k =>
    match km_enclave w !! k_kid k with
    | None => Err ("Mock KMS/HSM Error: Key " +:+ k_kid k +:+ " not found in hardware boundary")
    | Some sk => Ok (encode (sign_claims payload audience jti now) sk (k_kid k))
    end
  end.
End keys.

(** ** The target (n8n_17_connector_target.py) *)

Record ConnectorRequest := mk_request { rq_action : string; rq_content : option string; rq_compensates : option string }.

Definition AUDIENCE : string := "sandbox_file_append".
Definition ISSUER : string := "cappo.veklom.com".

(** A request past verification: its token's key id and claims. *)
Record call := mk_call { cl_kid : string; cl_claims : dict; cl_request : ConnectorRequest }.
Definition cl_id (c : call) : json := dget (cl_claims c) "execution_id".
Definition cl_jti (c : call) : json := dget (cl_claims c) "jti".

(** Registries, the file, the fetcher's cache of keys, and, for the theorems,
    the connector calls made. *)
Record target := mk_target {
  tg_rows : list ExecutionRegistry; tg_revocations : revocations; tg_file : file; tg_keys : gmap string string; tg_calls : list call }.
Definition set_rows (w : target) rows : target := mk_target rows (tg_revocations w) (tg_file w) (tg_keys w) (tg_calls w).
Definition set_revocations (w : target) r : target := mk_target (tg_rows w) r (tg_file w) (tg_keys w) (tg_calls w).
Definition set_keys (w : target) keys : target := mk_target (tg_rows w) (tg_revocations w) (tg_file w) keys (tg_calls w).

Inductive answer := Success (body : dict) | Http (status : Z) (detail : string).

(** Where a request is: what it does next. *)
Inductive thread :=
  | Asked (authorization : option string) (request : ConnectorRequest)
  | Checking (c : call)
  | Reserving (c : call)
  | Inserting (c : call)
  | Reserved (c : call)
  | Rechecking (c : call)
  | Cancelled (c : call)
  | Acting (c : call)
  | Recording (c : call) (receipt : dict)
  | Denying (execution_id : json) (message : string)
  | Answered (a : answer).

(** What the outside does at one step: the failure of the database call if
    there is one, the key service's answer (no such key, the encoded key, an
    exception), the clock, the file system and the write. *)
Record env := mk_env {
  e_db : option string; e_remote : res string (option string); e_now : Z; e_scratch : bool; e_fs : fs_view; e_timestamp : string; e_write : write }.

Section target.
Context `{Ext} (float_repr : string -> string) (ct : connector).
(** PyJWT: the [kid] of a token's header, and [jwt.decode] under a public key,
    for an audience and an issuer, at a time. *)
Context (jwt_kid : string -> res string (option string)) (jwt_decode : Z -> string -> string -> string -> string -> res string dict).

(** [CappoPublicKeyFetcher.__call__]. *)
Definition fetch (remote : res string (option string)) (kid : string) (keys : gmap string string) : res string (option string) * gmap string string :=
  match keys !! kid with
  | Some pub => (Ok (Some pub), keys)
  | None =>
    match remote with
    | Err e => (Err e, keys)
    | Ok None => (Ok None, keys)
    | Ok (Some encoded) =>
      match b64decode (chars encoded) with
      | None => (Err "binascii.Error", keys)
      | Some b => let pub := string_of_list_ascii b in (Ok (Some pub), <[kid := pub]> keys)
      end
    end
  end.

(** [GovernedTargetVerifier.verify], with the key id it read. *)
Definition verify_token (remote : res string (option string)) (now : Z) (token : string) (keys : gmap string string) :
  res string (string * dict) * gmap string string :=
  match jwt_kid token with
  | Err _ => (Err "Invalid JWT format", keys)
  | Ok kid =>
    let kid := default "" kid in
    if str_eqb kid "" then (Err "Missing 'kid' in header", keys)
    else
      let '(pub, keys') := fetch remote kid keys in
      match pub with
      | Err e => (Err e, keys')
      | Ok pub =>
        let pub := default "" pub in
        if str_eqb pub "" then (Err ("Key " +:+ kid +:+ " not found, expired, or revoked"), keys')
        else match jwt_decode now token pub AUDIENCE ISSUER with
             | Err e => (Err e, keys')
             | Ok claims => (Ok (kid, claims), keys')
             end
      end
  end.

(** The except clauses: [execution_id] is null until it is read. *)
Definition failed (execution_id : json) (e : connector_exc) : thread :=
  match e with
  | ConnectorConflict m => Answered (Http 409 m)
  | ConnectorDenied m => if truthy execution_id then Denying execution_id m else Answered (Http 403 m)
  | OtherExc _ => Answered (Http 403 "DENY: authority verification failed")
  end.

Definition shape (r : ConnectorRequest) : res connector_exc unit :=
  if str_eqb (rq_action r) APPEND_ACTION then
    raise_if (bool_decide (rq_content r = None) || negb (bool_decide (rq_compensates r = None))) (ConnectorDenied "DENY: invalid append request shape")
  else if str_eqb (rq_action r) COMPENSATE_ACTION then
    raise_if (bool_decide (rq_compensates r = None) || negb (bool_decide (rq_content r = None))) (ConnectorDenied "DENY: invalid compensation request shape")
  else Err (ConnectorDenied "DENY: unsupported connector action").

(** [request.model_dump(exclude_none=True)]. *)
Definition action_data (r : ConnectorRequest) : dict :=
  [("action", JStr (rq_action r))] ++ match rq_content r with Some s => [("content", JStr s)] | None => [] end
  ++ match rq_compensates r with Some s => [("compensates_execution_id", JStr s)] | None => [] end.

(** A header value is Latin-1: in UTF-8 no lead byte above C3. *)
Definition latin1 (s : string) : bool := forallb (fun c => N.ltb (N_of_ascii c) 196) (chars s).
Definition respond (execution_id : json) (receipt_id : json) (body : dict) : thread :=
  match receipt_id with
  | JStr s => if latin1 s then Answered (Success body) else failed execution_id (OtherExc "UnicodeEncodeError")
  | _ => failed execution_id (OtherExc "AttributeError")
  end.

Definition check (db : option string) (c : call) (w : target) : res string LeaseState :=
  check_authority true db (Some (cl_kid c)) (dget (cl_claims c) "sub") (dget (cl_claims c) "lease_id") (cl_id c) (tg_revocations w).

Definition claims_present (c : call) : bool := forallb (fun name => truthy (dget (cl_claims c) name)) ["jti"; "execution_id"; "lease_id"; "sub"].

(** After [reserve] returned. *)
Definition after_reserve (c : call) (r : reservation) : thread :=
  match r with
  | Granted => Reserved c
  | Refused error previous =>
    match previous with
    | Some ((_ :: _) as body) =>
      match assoc "receipt_id" body with
      | Some rid => respond (cl_id c) rid body
      | None => failed (cl_id c) (OtherExc "KeyError")
      end
    | _ => failed (cl_id c) (ConnectorConflict (match error with None | Some "" => "execution already in progress" | Some e => e end))
    end
  | Fell_through => failed (cl_id c) (OtherExc "TypeError")
  end.

Definition result_of (c : call) (receipt : dict) : dict :=
  [("status", JStr "SUCCESS"); ("execution_id", cl_id c); ("receipt_id", dget receipt "operation_id"); ("evidence", JObj receipt)].

Definition act (e : env) (c : call) : C dict :=
  if str_eqb (rq_action (cl_request c)) APPEND_ACTION
  then append float_repr ct (e_scratch e) (e_fs e) (e_timestamp e) (e_write e) (cl_claims c) (JStr (default "" (rq_content (cl_request c))))
  else compensate float_repr ct (e_scratch e) (e_fs e) (e_timestamp e) (e_write e) (cl_claims c) (default "" (rq_compensates (cl_request c))).

(** One step of [execute]; None when the process dies. *)
Definition advance (e : env) (t : thread) (w : target) : option thread * target :=
  match t with
  | Asked authorization request =>
    match authorization with
    | Some a =>
      if starts_with a "Bearer " then
        let '(r, keys) := verify_token (e_remote e) (e_now e) (substring 7 (String.length a - 7) a) (tg_keys w) in
        let w' := set_keys w keys in
        match r with
        | Err _ => (Some (failed JNull (OtherExc "ValueError")), w')
        | Ok (kid, claims) =>
          let c := mk_call kid claims request in
          if claims_present c then (Some (Checking c), w')
          else (Some (failed JNull (ConnectorDenied "DENY: missing required authority claims")), w')
        end
      else (Some (Answered (Http 403 "DENY: missing bearer authority")), w)
    | None => (Some (Answered (Http 403 "DENY: missing bearer authority")), w)
    end
  | Checking c =>
    match check (e_db e) c w with
    | Err _ => (Some (failed (cl_id c) (OtherExc "RuntimeError")), w)
    | Ok s =>
      if stopped s then (Some (failed (cl_id c) (ConnectorDenied "DENY: authority revoked or cancelling")), w)
      else match shape (cl_request c) with Err x => (Some (failed (cl_id c) x), w) | Ok _ => (Some (Reserving c), w) end
    end
  | Reserving c =>
    match e_db e, cl_jti c, cl_id c with
    | None, JStr jti, JStr id =>
      match reserve_read jti id (hash_action (action_data (cl_request c))) (tg_rows w) with
      | Some (r, rows) => (Some (after_reserve c r), set_rows w rows)
      | None => (Some (Inserting c), w)
      end
    | _, _, _ => (Some (after_reserve c (Refused (Some ("Database error: " +:+ default "parameter is not text" (e_db e))) None)), w)
    end
  | Inserting c =>
    match e_db e, cl_jti c, cl_id c with
    | None, JStr jti, JStr id =>
      let '(r, rows) := reserve_insert jti id (hash_action (action_data (cl_request c))) (tg_rows w) in (Some (after_reserve c r), set_rows w rows)
    | _, _, _ => (Some (after_reserve c (Refused (Some ("Database error: " +:+ default "parameter is not text" (e_db e))) None)), w)
    end
  | Reserved c => (Some (Rechecking c), set_rows w (update_state (e_db e) (cl_id c) RUNNING None (tg_rows w)).2)
  | Rechecking c =>
    match check (e_db e) c w with
    | Err _ => (Some (failed (cl_id c) (OtherExc "RuntimeError")), w)
    | Ok s => (Some (if stopped s then Cancelled c else Acting c), w)
    end
  | Cancelled c =>
    (Some (failed (cl_id c) (ConnectorDenied "DENY: cancelled before consequence")),
     set_rows w (update_state (e_db e) (cl_id c) CANCELLED None (tg_rows w)).2)
  | Acting c =>
    let called f := mk_target (tg_rows w) (tg_revocations w) f (tg_keys w) (tg_calls w ++ [c]) in
    match act e c (tg_file w) with
    | Ret receipt f => (Some (Recording c receipt), called f)
    | Raise x f => (Some (failed (cl_id c) x), called f)
    | Crash f => (None, called f)
    end
  | Recording c receipt =>
    let result := result_of c receipt in
    (Some (respond (cl_id c) (dget receipt "operation_id") result), set_rows w (update_state (e_db e) (cl_id c) SUCCEEDED (Some result) (tg_rows w)).2)
  | Denying execution_id m => (Some (Answered (Http 403 m)), set_rows w (update_state (e_db e) execution_id FAILED_TERMINAL None (tg_rows w)).2)
  | Answered a => (Some (Answered a), w)
  end.

(** A request on its own. *)
Fixpoint run (n : nat) (es : nat -> env) (t : thread) (w : target) : option thread * target :=
  match n with
  | O => (Some t, w)
  | S n' => match advance (es O) t w with (Some t', w') => run n' (fun i => es (S i)) t' w' | (None, w') => (None, w') end
  end.
Definition execute (es : nat -> env) (authorization : option string) (request : ConnectorRequest) : target -> option thread * target :=
  run 9 es (Asked authorization request).

(** [GET status]. *)
Definition status (fs : fs_view) (execution_id : string) (w : target) : res connector_exc answer :=
  let? r := reconcile float_repr fs execution_id None (tg_file w) in
  Ok (match r with Some record => Success record | None => Http 404 "No positive connector evidence" end).

(** Requests arrive and interleave, the process dies between or within steps,
    and authority is revoked; [allowed] says what the outside may do. *)
Inductive served (allowed : env -> thread -> Prop) : target * list thread -> target * list thread -> Prop :=
  | arrives w ts authorization request : served allowed (w, ts) (w, ts ++ [Asked authorization request])
  | moves w ts i t e t' w' : ts !! i = Some t -> allowed e t -> advance e t w = (Some t', w') -> served allowed (w, ts) (w', <[i := t']> ts)
  | dies_acting w ts i t e w' : ts !! i = Some t -> allowed e t -> advance e t w = (None, w') -> served allowed (w, ts) (set_keys w' ∅, [])
  | dies w ts : served allowed (w, ts) (set_keys w ∅, [])
  | revoked w ts p r : revoke None p (tg_revocations w) = Ok r -> served allowed (w, ts) (set_revocations w r, ts)
  | leased w ts db lease_id s : served allowed (w, ts) (set_revocations w (set_lease_state db lease_id s (tg_revocations w)), ts).

(** ** Once *)

Definition text_of (j : json) : string := match j with JStr s => s | _ => "" end.
Definition row_key (r : ExecutionRegistry) : string * string * string := (er_jti r, er_execution_id r, er_action_hash r).
Definition call_key (c : call) : string * string * string := (text_of (cl_jti c), text_of (cl_id c), hash_action (action_data (cl_request c))).

(** The registry has a row of this request. *)
Definition registered (rows : list ExecutionRegistry) (c : call) : Prop :=
  cl_jti c = JStr (text_of (cl_jti c)) /\ cl_id c = JStr (text_of (cl_id c)) /\ call_key c ∈ map row_key rows.

(** The request may still reach the connector on its reservation. *)
Definition owner (t : thread) : option call := match t with Reserved c | Rechecking c | Acting c => Some c | _ => None end.

Definition owns (o : option thread) : option call := match o with Some t => owner t | None => None end.

(** Rows are distinct, and never retryable. *)
Definition rows_ok (rows : list ExecutionRegistry) : Prop :=
  NoDup (map er_execution_id rows) /\ NoDup (map er_jti rows) /\ Forall (fun r => er_state r <> FAILED_RETRYABLE) rows.

Lemma on_row_keys id f rows : (forall r, row_key (f r) = row_key r) -> map row_key (on_row id f rows) = map row_key rows.
Proof. intros Hf. unfold on_row. rewrite map_map. apply map_ext. intros r. by destruct (in_row id r). Qed.

Lemma keys_ids rows rows' : map row_key rows = map row_key rows' -> map er_execution_id rows = map er_execution_id rows' /\ map er_jti rows = map er_jti rows'.
Proof.
  intros Hk. split; [apply (f_equal (map (fun k => k.1.2))) in Hk|apply (f_equal (map (fun k => k.1.1))) in Hk]; by rewrite !map_map in Hk.
Qed.

Lemma update_state_kept db id s res rows : s <> FAILED_RETRYABLE -> rows_ok rows ->
  map row_key (update_state db id s res rows).2 = map row_key rows /\ rows_ok (update_state db id s res rows).2.
Proof.
  intros Hs (Hi & Hj & Hr). unfold update_state. destruct db; [done|]. destruct id as [| | | |id| |]; try done. destruct (existsb _ _); [|done]. cbn [snd].
  assert (Hk : map row_key (on_row id (with_state s res) rows) = map row_key rows) by (by apply on_row_keys). split; [done|].
  unfold rows_ok. apply keys_ids in Hk as [-> ->]. split_and!; [done..|]. unfold on_row. apply Forall_map. eapply Forall_impl; [exact Hr|]. intros r Hx. simpl.
  by destruct (in_row id r).
Qed.

Lemma existing_None jti id rows : existing jti id rows = None -> (id ∉ map er_execution_id rows) /\ (jti ∉ map er_jti rows).
Proof.
  intros Hn. unfold existing in Hn.
  assert (Hf : forall r, r ∈ rows -> er_execution_id r <> id /\ er_jti r <> jti).
  { intros r Hr. pose proof (List.find_none _ _ Hn r (proj1 (list_elem_of_In rows r) Hr)) as Hx. apply orb_false_iff in Hx as [Hx1%str_eqb_neq Hx2%str_eqb_neq]. done. }
  split; intros (r & -> & Hr)%list_elem_of_fmap; by destruct (Hf r Hr).
Qed.

Lemma NoDup_snoc {A} (l : list A) x : NoDup l -> x ∉ l -> NoDup (l ++ [x]).
Proof. intros Hl Hx. apply NoDup_app. split_and!; [done| |apply NoDup_singleton]. by intros y Hy ->%list_elem_of_singleton. Qed.

Lemma insert_registered jti id h rows : rows_ok rows -> existing jti id rows = None -> rows_ok (rows ++ [mk_row jti id h RESERVED None]).
Proof.
  intros (Hi & Hj & Hr) [Hn1 Hn2]%existing_None. split_and!.
  - rewrite map_app. by apply NoDup_snoc.
  - rewrite map_app. by apply NoDup_snoc.
  - apply Forall_app. split; [done|]. by constructor.
Qed.

Lemma failed_owner id x : owner (failed id x) = None.
Proof. destruct x; simpl; [by destruct (truthy id)|done..]. Qed.
Lemma respond_owner id rid b : owner (respond id rid b) = None.
Proof. unfold respond. destruct rid; try done. by destruct (latin1 s). Qed.
Lemma refused_owner c r : r <> Granted -> owner (after_reserve c r) = None.
Proof.
  destruct r as [|x p|]; intros Hr; [done| |done]. unfold after_reserve. destruct p as [[|kv b]|]; [apply failed_owner| |apply failed_owner].
  destruct (assoc _ _); [apply respond_owner|done].
Qed.

(** A reservation is granted only by an insert. *)
Lemma read_refuses jti id h rows r rows' : rows_ok rows -> reserve_read jti id h rows = Some (r, rows') -> r <> Granted /\ rows' = rows.
Proof.
  intros (_ & _ & Hr). unfold reserve_read. destruct (existing jti id rows) as [x|] eqn:Ex; [|done].
  apply List.find_some in Ex as [Hin _]. apply list_elem_of_In in Hin. rewrite Forall_forall in Hr. specialize (Hr x Hin).
  destruct (_ || _); [by intros [= <- <-]|]. destruct (negb _); [by intros [= <- <-]|]. destruct (er_state x); by intros [= <- <-].
Qed.

(** What a step does to the registry, to the calls and to who may act. *)
Inductive effect (t : thread) (w : target) (o : option thread) (w' : target) : Prop :=
  | ef_quiet : owns o = None \/ owns o = owner t -> tg_calls w' = tg_calls w -> map row_key (tg_rows w') = map row_key (tg_rows w) -> effect t w o w'
  | ef_acted c : t = Acting c -> owns o = None -> tg_calls w' = tg_calls w ++ [c] -> tg_rows w' = tg_rows w -> effect t w o w'
  | ef_reserved c : owner t = None -> o = Some (Reserved c) -> tg_calls w' = tg_calls w -> registered (tg_rows w') c ->
      text_of (cl_id c) ∉ map er_execution_id (tg_rows w) -> map row_key (tg_rows w') = map row_key (tg_rows w) ++ [call_key c] -> effect t w o w'.

(** Steps that keep the rows, and steps that only set a state. *)
Ltac quiet :=
  match goal with H : _ = (?o, _) |- _ =>
    apply pair_equal_spec in H as [<- <-]; split; [done|]; apply ef_quiet; [cbn [owns]|done..];
    first [left; first [apply failed_owner|apply respond_owner|by apply refused_owner|reflexivity] | right; reflexivity]
  end.
Ltac rows_only :=
  match goal with
  | Hok : rows_ok (tg_rows ?w), H : (_, set_rows _ (update_state ?db ?id ?s ?res _).2) = (?o, _) |- _ =>
    apply pair_equal_spec in H as [<- <-]; destruct (update_state_kept db id s res (tg_rows w)) as [Hk Hr]; [done..|]; split; [done|]; apply ef_quiet; [cbn [owns]|done..];
    first [left; first [apply failed_owner|apply respond_owner|reflexivity] | right; reflexivity]
  end.

Lemma advance_effect e t w o w' : rows_ok (tg_rows w) -> advance e t w = (o, w') -> rows_ok (tg_rows w') /\ effect t w o w'.
Proof.
  intros Hok Ha. destruct t as [authorization request|c|c|c|c|c|c|c|c receipt|id m|a]; cbn [advance] in Ha.
  - destruct authorization as [a|]; [|quiet]. destruct (starts_with _ _); [|quiet].
    destruct (verify_token _ _ _ _) as [[[kid claims]|x] keys]; [destruct (claims_present _)|]; quiet.
  - destruct (check _ _ _) as [s|x]; [destruct (stopped s); [|destruct (shape _)]|]; quiet.
  - destruct (e_db e); [quiet|]. destruct (cl_jti c) as [| | | |jti| |]; try quiet. destruct (cl_id c) as [| | | |id| |]; try quiet.
    destruct (reserve_read _ _ _ _) as [[r rows]|] eqn:Er; [|quiet]. apply read_refuses in Er as [Hr ->]; [|done]. quiet.
  - destruct (e_db e); [quiet|]. destruct (cl_jti c) as [| | | |jti| |] eqn:Ej; try quiet. destruct (cl_id c) as [| | | |id| |] eqn:Ei; try quiet.
    unfold reserve_insert in Ha. destruct (existing jti id (tg_rows w)) as [r|] eqn:Ex; [quiet|]. injection Ha as <- <-.
    split; [by apply insert_registered|]. apply ef_reserved with c; try done; cbn [set_rows tg_rows]; rewrite ?map_app.
    + unfold registered, call_key. rewrite Ej, Ei, map_app. cbn [map text_of]. split_and!; [done..|]. set_solver.
    + rewrite Ei. by apply existing_None in Ex as [Hx _].
    + unfold call_key. by rewrite Ej, Ei.
  - rows_only.
  - destruct (check _ _ _) as [s|x]; [destruct (stopped s)|]; quiet.
  - rows_only.
  - destruct (act e c (tg_file w)) as [r f|x f|f]; apply pair_equal_spec in Ha as [<- <-]; (split; [done|]); apply (ef_acted _ _ _ _ c); try done. apply failed_owner.
  - rows_only.
  - rows_only.
  - quiet.
Qed.
(** A token with a key id that decodes, under a key fetched, for this audience and
    issuer, to claims that name an execution. *)
Definition vouched (c : call) : Prop :=
  claims_present c = true /\ cl_kid c <> ""
  /\ exists now token pub, jwt_kid token = Ok (Some (cl_kid c)) /\ pub <> "" /\ jwt_decode now token pub AUDIENCE ISSUER = Ok (cl_claims c).
Definition admitted (c : call) : Prop := vouched c /\ shape (cl_request c) = Ok tt.

Definition standing (t : thread) : Prop :=
  match t with
  | Checking c => vouched c
  | Reserving c | Inserting c | Reserved c | Rechecking c | Cancelled c | Acting c | Recording c _ => admitted c
  | Asked _ _ | Denying _ _ | Answered _ => True
  end.

Lemma verify_token_Ok remote now token keys kid claims keys' : verify_token remote now token keys = (Ok (kid, claims), keys') ->
  jwt_kid token = Ok (Some kid) /\ kid <> "" /\ exists pub, pub <> "" /\ jwt_decode now token pub AUDIENCE ISSUER = Ok claims.
Proof.
  unfold verify_token. destruct (jwt_kid token) as [k|]; [|done]. destruct (str_eqb (default "" k) "") eqn:Ek; [done|].
  destruct (fetch _ _ _) as [[pub|] keys1]; [|done]. destruct (str_eqb (default "" pub) "") eqn:Ep; [done|].
  destruct (jwt_decode _ _ _ _ _) as [cl|] eqn:Ed; [|done]. intros [= <- <- <-]. apply str_eqb_neq in Ek, Ep.
  destruct k as [k|]; [|done]. split_and!; [done..|]. by eexists.
Qed.

Lemma failed_standing id x : standing (failed id x).
Proof. destruct x; simpl; [by destruct (truthy id)|done..]. Qed.
Lemma respond_standing id rid b : standing (respond id rid b).
Proof. unfold respond. destruct rid; try done. by destruct (latin1 s). Qed.
Lemma after_standing c r : admitted c -> standing (after_reserve c r).
Proof.
  intros Hc. destruct r as [|x p|]; [done| |done]. unfold after_reserve. destruct p as [[|kv b]|]; [apply failed_standing| |apply failed_standing].
  destruct (assoc _ _); [apply respond_standing|done].
Qed.

(** The thread a step leads to. *)
Ltac leads H := apply pair_equal_spec in H as [H _]; apply (inj Some) in H; rewrite <- H; clear H.

Lemma advance_standing e t w t' w' : standing t -> advance e t w = (Some t', w') -> standing t'.
Proof.
  intros Ht Ha. destruct t as [authorization request|c|c|c|c|c|c|c|c receipt|id m|a]; cbn [advance] in Ha.
  - destruct authorization as [a|]; [|by leads Ha]. destruct (starts_with _ _); [|by leads Ha].
    destruct (verify_token _ _ _ _) as [[[kid claims]|x] keys] eqn:Ev; [|by leads Ha]. destruct (claims_present _) eqn:Ec; [|by leads Ha].
    leads Ha. apply verify_token_Ok in Ev as (Hk & Hn & pub & Hp & Hd). split_and!; [done..|]. by eexists _, _, pub.
  - destruct (check _ _ _) as [s|x]; [|by leads Ha]. destruct (stopped s); [leads Ha; apply failed_standing|].
    destruct (shape _) as [[]|x] eqn:Es; leads Ha; [done|apply failed_standing].
  - destruct (e_db e); [leads Ha; by apply after_standing|]. destruct (cl_jti c), (cl_id c); try (leads Ha; by apply after_standing).
    destruct (reserve_read _ _ _ _) as [[r rows]|]; leads Ha; [by apply after_standing|done].
  - destruct (e_db e); [leads Ha; by apply after_standing|]. destruct (cl_jti c), (cl_id c); try (leads Ha; by apply after_standing).
    destruct (reserve_insert _ _ _ _) as [r rows]; leads Ha. by apply after_standing.
  - by leads Ha.
  - destruct (check _ _ _) as [s|x]; leads Ha; [by destruct (stopped s)|done].
  - leads Ha. apply failed_standing.
  - destruct (act _ _ _) as [r f|x f|f]; [leads Ha..|by apply pair_equal_spec in Ha as [? _]]; [done|apply failed_standing].
  - leads Ha. apply respond_standing.
  - by leads Ha.
  - by leads Ha.
Qed.

(** The calls of a state: made, or still possible. *)
Definition held (s : target * list thread) : list call := omap owner s.2 ++ tg_calls s.1.

Record tinv (s : target * list thread) : Prop := mk_tinv {
  ti_rows : rows_ok (tg_rows s.1);
  ti_once : NoDup (map (fun c => text_of (cl_id c)) (held s));
  ti_registered : Forall (registered (tg_rows s.1)) (held s);
  ti_standing : Forall standing s.2;
  ti_calls : Forall admitted (tg_calls s.1) }.

Lemma held_moves ts i t : ts !! i = Some t ->
  exists rest, omap owner ts ≡ₚ option_list (owner t) ++ rest /\ (forall t', omap owner (<[i := t']> ts) ≡ₚ option_list (owner t') ++ rest) /\ rest ⊆ omap owner ts.
Proof.
  intros Hi. exists (omap owner (take i ts ++ drop (S i) ts)).
  assert (Hx : forall x, omap owner (take i ts ++ x :: drop (S i) ts) ≡ₚ option_list (owner x) ++ omap owner (take i ts ++ drop (S i) ts)).
  { intros x. rewrite <- Permutation_middle. cbn [omap list_omap]. by destruct (owner x). }
  pose proof (Hx t) as Ht. rewrite take_drop_middle in Ht by done. split_and!; [done| |].
  - intros t'. rewrite insert_take_drop by (by eapply lookup_lt_Some). apply Hx.
  - rewrite Ht. set_solver.
Qed.

Definition id_of (c : call) : string := text_of (cl_id c).
Definition sole (rows : list ExecutionRegistry) (cs : list call) : Prop := NoDup (map id_of cs) /\ Forall (registered rows) cs.

#[local] Instance sole_proper rows : Proper ((≡ₚ) ==> iff) (sole rows).
Proof. intros a b Hab. unfold sole. by rewrite Hab. Qed.

Lemma sole_tail rows a b : sole rows (a ++ b) -> sole rows b.
Proof. unfold sole. rewrite map_app. intros [[_ [_ Hn]]%NoDup_app [_ Hf]%Forall_app]. done. Qed.

Lemma registered_id rows c : registered rows c -> id_of c ∈ map er_execution_id rows.
Proof.
  intros (_ & _ & (r & Hk & Hr)%list_elem_of_fmap). apply list_elem_of_fmap. exists r. split; [|done].
  unfold call_key, row_key in Hk. by injection Hk.
Qed.

Lemma sole_mono rows rows' cs : (forall k, k ∈ map row_key rows -> k ∈ map row_key rows') -> sole rows cs -> sole rows' cs.
Proof.
  intros Hk [Hn Hf]. split; [done|]. eapply Forall_impl; [exact Hf|]. intros c (Hj & Hi & Hr). split_and!; [done..|]. by apply Hk.
Qed.

(** Calls stay sole through a step of one thread. *)
Lemma effect_sole t w o w' rest : effect t w o w' -> sole (tg_rows w) (option_list (owner t) ++ rest ++ tg_calls w) ->
  sole (tg_rows w') (option_list (owns o) ++ rest ++ tg_calls w').
Proof.
  intros [Ho Hc Hk|c -> Ho Hc Hr|c Ho -> Hc Hreg Hn Hk] Hs.
  - apply (sole_mono (tg_rows w)); [by rewrite Hk|]. rewrite Hc. destruct Ho as [-> | ->]; [by eapply sole_tail|done].
  - rewrite Hr, Hc, Ho. cbn [option_list owner app] in *. assert (Hp : rest ++ tg_calls w ++ [c] ≡ₚ c :: rest ++ tg_calls w) by solve_Permutation.
    by rewrite Hp.
  - rewrite Ho in Hs. rewrite Hc. cbn [owns owner option_list app] in *. pose proof Hs as [_ Hf].
    apply (sole_mono _ (tg_rows w')) in Hs as [Hd Hf']; [|rewrite Hk; set_solver]. split; [|by constructor]. cbn [map]. apply NoDup_cons. split; [|done].
    intros (c' & Hid & Hin)%list_elem_of_fmap. apply Hn. rewrite Forall_forall in Hf. unfold id_of in Hid. rewrite Hid. by apply registered_id, Hf.
Qed.

Lemma tinv_moves e t w o w' ts i : tinv (w, ts) -> ts !! i = Some t -> advance e t w = (o, w') ->
  rows_ok (tg_rows w') /\ Forall admitted (tg_calls w') /\ exists rest, sole (tg_rows w') (option_list (owns o) ++ rest ++ tg_calls w')
    /\ (forall t', omap owner (<[i := t']> ts) ≡ₚ option_list (owner t') ++ rest).
Proof.
  intros [Hr Hd Hreg Hst Hcs] Hi Ha. cbn [fst snd] in *. destruct (advance_effect e t w o w' Hr Ha) as [Hr' He]. split; [done|]. split.
  - destruct He as [_ -> _|c -> _ -> _|c _ _ -> _ _ _]; [done| |done]. apply Forall_app. split; [done|]. constructor; [|done].
    rewrite Forall_lookup in Hst. exact (Hst i _ Hi).
  - destruct (held_moves ts i t Hi) as (rest & Hp & Hp' & _). exists rest. split; [|done]. apply (effect_sole t w); [done|].
    rewrite app_assoc, <- Hp. by split.
Qed.

Lemma tinv_later w w' ts : tg_rows w' = tg_rows w -> tg_calls w' = tg_calls w -> tinv (w, ts) -> tinv (w', ts).
Proof. intros Hr Hc [Hi1 Hi2 Hi3 Hi4 Hi5]. unfold held in *. cbn [fst snd] in *. rewrite <- Hr, <- Hc in *. by split. Qed.

Lemma tinv_dies w ts : tinv (w, ts) -> tinv (w, []).
Proof.
  intros [Hi1 Hi2 Hi3 Hi4 Hi5]. destruct (sole_tail (tg_rows w) (omap owner ts) (tg_calls w)) as [Hd Hf]; [by split|]. by split.
Qed.

Lemma served_tinv allowed s s' : tinv s -> served allowed s s' -> tinv s'.
Proof.
  intros Hi Hs. destruct Hs as [w ts a r|w ts i t e t' w' Hl _ Ha|w ts i t e w' Hl _ Ha|w ts|w ts p r _|w ts db l x].
  - destruct Hi as [Hi1 Hi2 Hi3 Hi4 Hi5]. unfold held in *. cbn [fst snd] in *.
    assert (Ho : omap owner (ts ++ [Asked a r]) = omap owner ts) by (rewrite omap_app; cbn; apply app_nil_r).
    split; unfold held; cbn [fst snd]; rewrite ?Ho; try done. apply Forall_app. by split; [|constructor].
  - destruct (tinv_moves e t w _ w' ts i Hi Hl Ha) as (Hr & Hc & rest & Hsole & Hp). rewrite app_assoc in Hsole. cbn [owns] in Hsole. rewrite <- Hp in Hsole.
    destruct Hsole as [Hd Hf]. split; try done. cbn [snd]. apply Forall_insert; [by apply (ti_standing _ Hi)|].
    eapply advance_standing; [|exact Ha]. pose proof (ti_standing _ Hi) as Hst. cbn [snd] in Hst. rewrite Forall_lookup in Hst. exact (Hst i t Hl).
  - destruct (tinv_moves e t w _ w' ts i Hi Hl Ha) as (Hr & Hc & rest & Hsole & Hp). cbn [owns option_list app] in Hsole.
    apply (sole_tail _ rest) in Hsole as [Hd Hf]. apply (tinv_later w'); [done..|]. by split.
  - apply (tinv_later w); [done..|]. by eapply tinv_dies.
  - by apply (tinv_later w).
  - by apply (tinv_later w).
Qed.

(** A request on its own is one of the interleavings. *)
Lemma run_snoc n es t w : run (S n) es t w = match run n es t w with (Some t', w') => advance (es n) t' w' | (None, w') => (None, w') end.
Proof.
  revert es t w. induction n as [|n IH]; intros es t w; [cbn [run]; by destruct (advance (es O) t w) as [[t'|] w']|].
  change (run (S (S n)) es t w) with (match advance (es O) t w with (Some t', w') => run (S n) (fun i => es (S i)) t' w' | (None, w') => (None, w') end).
  change (run (S n) es t w) with (match advance (es O) t w with (Some t', w') => run n (fun i => es (S i)) t' w' | (None, w') => (None, w') end).
  destruct (advance (es O) t w) as [[t'|] w']; [apply IH|done].
Qed.

Lemma run_served allowed n es t w t' w' : (forall k x v, (k < n)%nat -> run k es t w = (Some x, v) -> allowed (es k) x) ->
  run n es t w = (Some t', w') -> steps (served allowed) (w, [t]) (w', [t']).
Proof.
  revert t' w'. induction n as [|n IH]; intros t' w' Hal Hr; [injection Hr as <- <-; apply steps_refl|].
  rewrite run_snoc in Hr. destruct (run n es t w) as [[x|] v] eqn:Ex; [|done]. apply (steps_snoc _ (v, [x])).
  - apply IH; [|done]. intros k y u Hk. apply Hal. lia.
  - apply (moves allowed v [x] 0 x (es n) t' w'); [done|apply (Hal n x v); [lia|done]|done].
Qed.

(** How many steps are left at most. *)
Definition left (t : thread) : nat :=
  match t with
  | Asked _ _ => 8 | Checking _ => 7 | Reserving _ => 6 | Inserting _ => 5 | Reserved _ => 4 | Rechecking _ => 3
  | Cancelled _ | Acting _ => 2 | Recording _ _ | Denying _ _ => 1 | Answered _ => 0
  end%nat.

Lemma failed_left id x : (left (failed id x) <= 1)%nat.
Proof. destruct x; simpl; [destruct (truthy id)|..]; simpl; lia. Qed.
Lemma respond_left id rid b : (left (respond id rid b) <= 0)%nat.
Proof. unfold respond. destruct rid; try (simpl; lia). by destruct (latin1 s). Qed.
Lemma after_left c r : (left (after_reserve c r) <= 4)%nat.
Proof.
  destruct r as [|x p|]; [simpl; lia| |simpl; lia]. unfold after_reserve.
  destruct p as [[|kv b]|]; [etrans; [apply failed_left|lia]| |etrans; [apply failed_left|lia]].
  destruct (assoc _ _); [etrans; [apply respond_left|lia]|simpl; lia].
Qed.

Lemma advance_left e t w t' w' : advance e t w = (Some t', w') -> (left t' <= left t - 1)%nat.
Proof.
  intros Ha. destruct t as [authorization request|c|c|c|c|c|c|c|c receipt|id m|a]; cbn [advance] in Ha;
    repeat break_hyp Ha; apply pair_equal_spec in Ha as [Ha _]; try discriminate Ha; apply (inj Some) in Ha as <-; cbn [left Nat.sub];
    first [lia | etrans; [apply failed_left|lia] | etrans; [apply after_left|lia] | etrans; [apply respond_left|lia] | by destruct (stopped _); simpl; lia].
Qed.

(** Every request is answered in nine steps, unless the process dies. *)
Theorem execute_answers es authorization request w :
  match execute es authorization request w with (Some t, _) => exists a, t = Answered a | (None, _) => True end.
Proof.
  assert (Hr : forall n es t w, (left t <= n)%nat -> match run n es t w with (Some t', _) => left t' = 0%nat | (None, _) => True end).
  { induction n as [|n IH]; intros es' t v Hl; cbn [run]; [lia|]. destruct (advance (es' O) t v) as [[t'|] v'] eqn:Ea; [|done].
    apply IH. apply advance_left in Ea. lia. }
  specialize (Hr 9%nat es (Asked authorization request) w ltac:(simpl; lia)). unfold execute.
  destruct (run 9 es (Asked authorization request) w) as [[t|] w']; [|done]. destruct t; try done. by eexists.
Qed.

Definition anything (_ : env) (_ : thread) : Prop := True.
Definition opening (r : revocations) (f : file) : target := mk_target [] r f ∅ [].

Lemma opening_tinv r f : tinv (opening r f, []).
Proof. by split; cbn; try apply NoDup_nil_2; [split_and!; try apply NoDup_nil_2|..]. Qed.

Lemma steps_tinv allowed s s' : tinv s -> steps (served allowed) s s' -> tinv s'.
Proof. apply steps_invariant. intros a b. apply served_tinv. Qed.

(** C16: however requests interleave, whatever the database, the key service and
    the file system do, and whenever the process dies, no execution reaches the
    connector twice; what reaches it came with a token that decodes for this
    audience and issuer, in the shape of its action, and is the request, by its
    token id and action hash, of the registry's one row for the execution. *)
Theorem target_acts_once r f w ts : steps (served anything) (opening r f, []) (w, ts) ->
  NoDup (map cl_id (tg_calls w))
  /\ NoDup (map er_execution_id (tg_rows w))
  /\ forall c, c ∈ tg_calls w -> admitted c /\ exists row, row ∈ tg_rows w /\ cl_id c = JStr (er_execution_id row) /\ cl_jti c = JStr (er_jti row)
       /\ er_action_hash row = hash_action (action_data (cl_request c)).
Proof.
  intros Hs. apply steps_tinv in Hs as [(Hi & _) Hd Hr _ Hc]; [|apply opening_tinv]. unfold held in *. cbn [fst snd] in *. split_and!; [|done|].
  - rewrite map_app in Hd. apply NoDup_app in Hd as (_ & _ & Hd). apply (NoDup_fmap_1 text_of).
    change (NoDup (map text_of (map cl_id (tg_calls w)))). by rewrite map_map.
  - intros c Hin. rewrite !Forall_forall in *. split; [by apply Hc|]. destruct (Hr c) as (Hj & Hid & (row & Hk & Hrow)%list_elem_of_fmap); [set_solver|].
    exists row. unfold call_key, row_key in Hk. injection Hk as Hk1 Hk2 Hk3. rewrite <- Hk1, <- Hk2, <- Hk3. done.
Qed.

(** ** Revocation *)

(** A policy stands against a request. *)
Definition halted (r : revocations) (c : call) : Prop :=
  exists sub lease id p, dget (cl_claims c) "sub" = JStr sub /\ dget (cl_claims c) "lease_id" = JStr lease /\ cl_id c = JStr id
    /\ p ∈ rv_policies r /\ applies (Some (cl_kid c)) sub lease id p = true.

Lemma halted_stops db c w : halted (tg_revocations w) c -> match check db c w with Ok s => stopped s = true | Err _ => True end.
Proof.
  intros (sub & lease & id & p & Hsub & Hl & Hid & Hp & Ha). unfold check, check_authority. rewrite Hsub, Hl, Hid. destruct db; [done|].
  destruct (List.find _ _) as [q|] eqn:Ef; [by destruct (rp_is_cancel q)|]. exfalso. apply list_elem_of_In in Hp.
  by rewrite (List.find_none _ _ Ef p Hp) in Ha.
Qed.

Lemma scoped_same p q a b : scoped (rp_scope_type p) (rp_scope_value p) q = true -> scoped a b q = scoped a b p.
Proof. unfold scoped. intros [<-%str_eqb_spec <-%str_eqb_spec]%andb_true_iff. done. Qed.

Lemma revoke_keeps p r r' c : revoke None p r = Ok r' -> halted r c -> halted r' c.
Proof.
  intros [= <-] (sub & lease & id & q & Hsub & Hl & Hid & Hq & Ha). exists sub, lease, id. cbn [rv_policies].
  destruct (existsb _ _) eqn:Ex; [|exists q; split_and!; try done; set_solver].
  exists (if scoped (rp_scope_type p) (rp_scope_value p) q then p else q). split_and!; [done..| |].
  - apply list_elem_of_fmap. by exists q.
  - destruct (scoped _ _ q) eqn:Es; [|done]. unfold applies in *. by rewrite !(scoped_same p q) in Ha.
Qed.

Lemma advance_calls e t w o w' : advance e t w = (o, w') -> tg_revocations w' = tg_revocations w
  /\ (tg_calls w' = tg_calls w \/ exists c, t = Acting c /\ tg_calls w' = tg_calls w ++ [c])
  /\ (forall c, o = Some (Acting c) -> t = Rechecking c /\ exists s, check (e_db e) c w = Ok s /\ stopped s = false).
Proof.
  intros Ha.
  assert (Hf : forall id x c, Some (failed id x) <> Some (Acting c)) by (intros id [m|m|m] c; simpl; try destruct (truthy id); done).
  assert (Hre : forall id x b c, Some (respond id x b) <> Some (Acting c)) by (intros id x b c; unfold respond; destruct x; try done; by destruct (latin1 s)).
  assert (Haf : forall c r c', Some (after_reserve c r) <> Some (Acting c')).
  { intros c [|x p|] c'; [done| |done]. unfold after_reserve. destruct p as [[|kv b]|]; [apply Hf| |apply Hf]. destruct (assoc _ _); [apply Hre|done]. }
  destruct t as [authorization request|c|c|c|c|c|c|c|c receipt|id m|a]; cbn [advance] in Ha;
    repeat break_hyp Ha; apply pair_equal_spec in Ha as [<- <-]; split_and!; try done; eauto;
    intros c0 Hc0; try (by apply Hf in Hc0); try (by apply Hre in Hc0); try (by apply Haf in Hc0); try done.
  all: try (injection Hc0 as <-; eauto).
Qed.

Lemma revoke_halts p r r' c sub lease id : revoke None p r = Ok r' -> dget (cl_claims c) "sub" = JStr sub -> dget (cl_claims c) "lease_id" = JStr lease ->
  cl_id c = JStr id -> applies (Some (cl_kid c)) sub lease id p = true -> halted r' c.
Proof.
  intros [= <-] Hsub Hl Hid Ha. exists sub, lease, id, p. split_and!; try done. cbn [rv_policies].
  destruct (existsb _ _) eqn:Ex; [|set_solver]. apply existsb_exists in Ex as (q & Hq%list_elem_of_In & Hs). apply list_elem_of_fmap. exists q.
  by rewrite Hs.
Qed.

(** Where a halted request can act from. *)
Definition past (c : call) (s : target * list thread) : Prop := c ∈ tg_calls s.1 \/ Acting c ∈ s.2.

Lemma served_past allowed c s s' : halted (tg_revocations s.1) c -> served allowed s s' -> halted (tg_revocations s'.1) c /\ (past c s' -> past c s).
Proof.
  intros Hh Hs. unfold past. destruct Hs as [w ts a r|w ts i t e t' w' Hl _ Ha|w ts i t e w' Hl _ Ha|w ts|w ts p r Hr|w ts db l x]; cbn [fst snd] in *.
  - split; [done|]. set_solver.
  - destruct (advance_calls _ _ _ _ _ Ha) as (Hr & Hc & Hx). rewrite Hr. split; [done|].
    assert (Hin : t ∈ ts) by (by eapply list_elem_of_lookup_2). intros [Hc'|(j & Hj)%list_elem_of_lookup].
    + destruct Hc as [Hc|(c0 & -> & Hc)]; rewrite Hc in Hc'; [by left|]. apply elem_of_app in Hc' as [?| ->%list_elem_of_singleton]; auto.
    + apply list_lookup_insert_Some in Hj as [(-> & Ht & _)|(_ & Hj)]; [|right; by eapply list_elem_of_lookup_2]. exfalso.
      destruct (Hx c) as (-> & x & Hck & Hst); [by rewrite Ht|]. pose proof (halted_stops (e_db e) c w Hh) as Hn. by rewrite Hck, Hst in Hn.
  - destruct (advance_calls _ _ _ _ _ Ha) as (Hr & Hc & _). cbn [set_keys tg_revocations tg_calls]. rewrite Hr. split; [done|].
    assert (Hin : t ∈ ts) by (by eapply list_elem_of_lookup_2). intros [Hc'|Hx]; [|by apply elem_of_nil in Hx].
    destruct Hc as [Hc|(c0 & -> & Hc)]; rewrite Hc in Hc'; [by left|]. apply elem_of_app in Hc' as [?| ->%list_elem_of_singleton]; auto.
  - split; [done|]. set_solver.
  - split; [by eapply revoke_keeps|done].
  - split; [|done]. by destruct db.
Qed.

(** C17: a revocation or cancellation of a key, a subject, a lease, an execution or
    everything stops every request it applies to, also those in progress, that is
    not already at the connector call, for good: whatever happens afterwards, a
    connector call it applies to was made before or was the next step of its
    request when the revocation was recorded. *)
Theorem revocation_fences_target w ts p r w' ts' c sub lease id :
  revoke None p (tg_revocations w) = Ok r ->
  dget (cl_claims c) "sub" = JStr sub -> dget (cl_claims c) "lease_id" = JStr lease -> cl_id c = JStr id -> applies (Some (cl_kid c)) sub lease id p = true ->
  steps (served anything) (set_revocations w r, ts) (w', ts') -> c ∈ tg_calls w' -> c ∈ tg_calls w \/ Acting c ∈ ts.
Proof.
  intros Hr Hsub Hl Hid Ha Hs Hc. pose proof (revoke_halts p _ r c sub lease id Hr Hsub Hl Hid Ha) as Hh.
  assert (Hi : halted (tg_revocations w') c /\ (past c (w', ts') -> past c (set_revocations w r, ts))).
  { change w' with (w', ts').1 at 1. revert Hs. apply (steps_invariant _ (fun s => halted (tg_revocations s.1) c /\ (past c s -> past c (set_revocations w r, ts)))); [|done].
    intros a b [Hha Hp] Hst. destruct (served_past _ _ _ _ Hha Hst). auto. }
  destruct Hi as [_ Hi]. destruct Hi as [Hx|Hx]; [by left|by left|by right].
Qed.
End target.

(** ** Answers and the file *)

Section recorded.
Context `{EvidenceLaws} `{!EiLaws} (float_repr : string -> string) (ct : connector).
Context (jwt_kid : string -> res string (option string)) (jwt_decode : Z -> string -> string -> string -> string -> res string dict).
Local Abbreviation serving := (served float_repr ct jwt_kid jwt_decode).
Local Abbreviation advancing := (advance float_repr ct jwt_kid jwt_decode).

(** The write is whole and the record's texts are well formed. *)
Definition fine (e : env) (t : thread) : Prop :=
  match t with
  | Acting c =>
    e_write e = whole
    /\ (forall id, authorize ct (e_scratch e) (cl_claims c) APPEND_ACTION = Ok id -> entry_wf ct (append_entry ct id (default "" (rq_content (cl_request c))) (e_timestamp e)))
    /\ (forall id, authorize ct (e_scratch e) (cl_claims c) COMPENSATE_ACTION = Ok id -> entry_wf ct (tombstone ct id (default "" (rq_compensates (cl_request c))) (e_timestamp e)))
  | _ => True
  end.

(** What the service answers for an execution with this entry. *)
Definition answer_of (id : string) (en : entry) : dict :=
  [("status", JStr "SUCCESS"); ("execution_id", JStr id); ("receipt_id", dget (receipt_at ct en) "operation_id"); ("evidence", JObj (receipt_at ct en))].
Definition evidenced (es : list entry) (id : string) (b : dict) : Prop := exists en, of_execution id es = Some en /\ b = answer_of id en.

Definition row_told (es : list entry) (r : ExecutionRegistry) : Prop :=
  (forall b, er_result r = Some b -> evidenced es (er_execution_id r) b) /\ (er_state r = SUCCEEDED -> is_Some (er_result r)).
Definition thread_told (es : list entry) (t : thread) : Prop :=
  match t with
  | Recording c receipt => exists id en, cl_id c = JStr id /\ of_execution id es = Some en /\ receipt = receipt_at ct en
  | Answered (Success b) => exists id, evidenced es id b
  | _ => True
  end.

Lemma evidenced_later es es' id b : es `prefix_of` es' -> evidenced es id b -> evidenced es' id b.
Proof. intros Hp (en & Ho & Hb). exists en. split; [by eapply of_execution_prefix|done]. Qed.
Lemma row_told_later es es' r : es `prefix_of` es' -> row_told es r -> row_told es' r.
Proof. intros Hp [Hb Hs]. split; [|done]. intros b Hx. eapply evidenced_later; eauto. Qed.
Lemma thread_told_later es es' t : es `prefix_of` es' -> thread_told es t -> thread_told es' t.
Proof.
  intros Hp. destruct t as [| | | | | | | |c r| |[b|]]; try done; simpl.
  - intros (id & en & Hid & Ho & Hr). exists id, en. split_and!; try done. by eapply of_execution_prefix.
  - intros (id & Hb). exists id. by eapply evidenced_later.
Qed.

Lemma authorize_id scratch claims action id : authorize ct scratch claims action = Ok id -> dget claims "execution_id" = JStr id.
Proof.
  unfold authorize. destruct (dget claims "execution_id") as [| | | |s| |]; try done. destruct (str_eqb s ""); [done|].
  intros Ha. apply rbind_Ok in Ha as (acts & _ & Ha). apply rbind_Ok in Ha as (u & _ & Ha). apply rbind_Ok in Ha as (rs & _ & Ha).
  destruct (bool_decide _); [by injection Ha as ->|]. by destruct scratch.
Qed.

(** The connector call of a request, over the log. *)
Lemma act_logged e c f es : utf8_text (ct_resource ct) = true -> stands ct f es -> fine e (Acting c) ->
  match act float_repr ct e c f with
  | Ret receipt f' => exists es', stands ct f' es' /\ log_step ct es es' /\ exists id en, cl_id c = JStr id /\ of_execution id es' = Some en /\ receipt = receipt_at ct en
  | Raise _ f' | Crash f' => exists es', stands ct f' es' /\ log_step ct es es'
  end.
Proof.
  intros Hr Hst (Hwr & Happ & Hcomp).
  assert (Hstep : cstep float_repr ct f (oworld (act float_repr ct e c f))).
  { unfold act. rewrite Hwr. destruct (str_eqb _ _); [apply did_append; intros id text Hid [= <-]; by apply Happ|apply did_compensate; apply Hcomp]. }
  destruct (cstep_logged float_repr ct _ _ es Hr Hst Hstep) as (es' & Hst' & Hl). destruct (act _ _ _ _ _) as [receipt f'|x f'|f'] eqn:Ea; [|by exists es'..].
  clear es' Hst' Hl Hstep. unfold act in Ea. rewrite Hwr in Ea. destruct (str_eqb _ _).
  - destruct (authorize ct (e_scratch e) (cl_claims c) APPEND_ACTION) as [id|x] eqn:Eu; [|unfold append, ebind, lift in Ea; by rewrite Eu in Ea].
    destruct (append_answers float_repr ct _ _ _ _ id _ _ _ _ es Hr Hst Eu (Happ id eq_refl) Ea) as (_ & _ & en & es' & Hst' & Hl & Ho & Hrec & _).
    exists es'. split_and!; [done..|]. exists id, en. split_and!; [|done..]. by eapply authorize_id.
  - destruct (authorize ct (e_scratch e) (cl_claims c) COMPENSATE_ACTION) as [id|x] eqn:Eu; [|unfold compensate, ebind, lift in Ea; by rewrite Eu in Ea].
    destruct (compensate_answers float_repr ct _ _ _ _ id _ _ _ _ es Hr Hst Eu (Hcomp id eq_refl) Ea) as (en & es' & Hst' & Hl & Ho & Hrec).
    exists es'. split_and!; [done..|]. exists id, en. split_and!; [|done..]. by eapply authorize_id.
Qed.

(** Rows keep telling what is in the file. *)
Lemma update_told db id s res rows es : (s = SUCCEEDED -> exists i b, id = JStr i /\ res = Some b /\ b <> [] /\ evidenced es i b) -> (s <> SUCCEEDED -> res = None) ->
  Forall (row_told es) rows -> Forall (row_told es) (update_state db id s res rows).2.
Proof.
  intros Hs Hn Hr. unfold update_state. destruct db; [done|]. destruct id as [| | | |id| |]; try done. destruct (existsb _ _); [|done]. cbn [snd].
  unfold on_row. apply Forall_map. eapply Forall_impl; [exact Hr|]. intros r [Hb Hx]. simpl. destruct (in_row id r) eqn:Ei; [|done].
  assert (Hd : s = SUCCEEDED \/ s <> SUCCEEDED) by (destruct s; auto). unfold with_state. destruct Hd as [->|Hd].
  - destruct (Hs eq_refl) as (i & b & [= <-] & -> & Hne & Hev). destruct b as [|kv b]; [done|]. split; cbn; [|by eauto].
    intros b' [= <-]. apply str_eqb_spec in Ei. by rewrite Ei.
  - rewrite (Hn Hd). by split.
Qed.

Lemma failed_told es id x : thread_told es (failed id x).
Proof. destruct x; simpl; [by destruct (truthy id)|done..]. Qed.
Lemma respond_told es i id rid b : evidenced es i b -> thread_told es (respond id rid b).
Proof. intros Hb. unfold respond. destruct rid; try done. destruct (latin1 s); [by exists i|done]. Qed.
Lemma refused_told es c error : thread_told es (after_reserve c (Refused error None)).
Proof. apply failed_told. Qed.

(** A reservation answers with what its row tells. *)
Lemma read_told jti id h rows r rows' es c : Forall (row_told es) rows -> reserve_read jti id h rows = Some (r, rows') ->
  Forall (row_told es) rows' /\ thread_told es (after_reserve c r).
Proof.
  intros Hr. unfold reserve_read. destruct (existing jti id rows) as [x|] eqn:Ex; [|done].
  apply List.find_some in Ex as [Hin _]. apply list_elem_of_In in Hin. pose proof Hr as Hr'. rewrite Forall_forall in Hr. destruct (Hr x Hin) as [Hb _].
  destruct (_ || _); [intros [= <- <-]; split; [done|apply refused_told]|]. destruct (negb _); [intros [= <- <-]; split; [done|apply refused_told]|].
  destruct (er_state x); intros [= <- <-]; try (split; [done|done || apply refused_told]).
  - split; [done|]. destruct (er_result x) as [b|] eqn:Eb; [|apply failed_told]. specialize (Hb b eq_refl). destruct b as [|kv b]; [apply failed_told|].
    unfold after_reserve. destruct (assoc _ _); [by eapply respond_told|done].
  - split; [|done]. unfold on_row. apply Forall_map. eapply Forall_impl; [exact Hr'|]. intros y [Hy1 Hy2]. simpl. by destruct (in_row id y).
Qed.

(** Away from the connector. *)
Lemma quiet_told e t w o w' es : (forall c, t <> Acting c) -> Forall (row_told es) (tg_rows w) -> thread_told es t -> advancing e t w = (o, w') ->
  tg_file w' = tg_file w /\ Forall (row_told es) (tg_rows w') /\ (forall t', o = Some t' -> thread_told es t').
Proof.
  intros Hna Hrows Ht Ha.
  assert (Hone : forall t', thread_told es t' -> forall t'', Some t' = Some t'' -> thread_told es t'') by (intros t' Ht' t'' Hx; by apply (inj Some) in Hx as <-).
  destruct t as [authorization request|c|c|c|c|c|c|c|c receipt|id m|a]; cbn [advance] in Ha.
  - repeat break_hyp Ha; apply pair_equal_spec in Ha as [<- <-]; split_and!; try done; by apply Hone.
  - repeat break_hyp Ha; apply pair_equal_spec in Ha as [<- <-]; split_and!; try done; apply Hone; apply failed_told || done.
  - destruct (e_db e), (cl_jti c), (cl_id c); try (apply pair_equal_spec in Ha as [<- <-]; split_and!; try done; apply Hone, refused_told).
    destruct (reserve_read _ _ _ _) as [[r rows]|] eqn:Er; apply pair_equal_spec in Ha as [<- <-]; [|split_and!; try done; by apply Hone].
    destruct (read_told _ _ _ _ _ _ es c Hrows Er). split_and!; try done. by apply Hone.
  - destruct (e_db e), (cl_jti c), (cl_id c); try (apply pair_equal_spec in Ha as [<- <-]; split_and!; try done; apply Hone, refused_told).
    unfold reserve_insert in Ha. destruct (existing _ _ _); apply pair_equal_spec in Ha as [<- <-]; split_and!; try done.
    + apply Hone, refused_told.
    + apply Forall_app. split; [done|]. by constructor.
    + by apply Hone.
  - apply pair_equal_spec in Ha as [<- <-]. split_and!; [done|by apply update_told|by apply Hone].
  - destruct (check _ _ _) as [s|x]; apply pair_equal_spec in Ha as [<- <-]; split_and!; try done; apply Hone; [by destruct (stopped s)|done].
  - apply pair_equal_spec in Ha as [<- <-]. split_and!; [done|by apply update_told|apply Hone, failed_told].
  - by destruct (Hna c).
  - destruct Ht as (id & en & Hid & Ho & ->). apply pair_equal_spec in Ha as [<- <-].
    assert (Hev : evidenced es id (result_of c (receipt_at ct en))) by (exists en; split; [done|]; unfold result_of; by rewrite Hid).
    split_and!; [done| |by eapply Hone, respond_told]. apply update_told; [|done..]. intros _. by exists id, (result_of c (receipt_at ct en)).
  - apply pair_equal_spec in Ha as [<- <-]. split_and!; [done|by apply update_told|by apply Hone].
  - apply pair_equal_spec in Ha as [<- <-]. split_and!; [done..|by apply Hone].
Qed.

(** One step keeps rows and threads telling what is in the file. *)
Lemma advance_told e t w o w' es : utf8_text (ct_resource ct) = true -> fine e t -> stands ct (tg_file w) es -> Forall (row_told es) (tg_rows w) ->
  thread_told es t -> advancing e t w = (o, w') ->
  exists es', log_step ct es es' /\ stands ct (tg_file w') es' /\ Forall (row_told es') (tg_rows w') /\ (forall t', o = Some t' -> thread_told es' t').
Proof.
  intros Hr Hf Hst Hrows Ht Ha. assert (Hacting : (exists c, t = Acting c) \/ forall c, t <> Acting c) by (destruct t; eauto; right; done).
  destruct Hacting as [[c ->]|Hna].
  - pose proof (act_logged e c (tg_file w) es Hr Hst Hf) as Hact. cbn [advance] in Ha.
    assert (Hx : exists es', log_step ct es es' /\ stands ct (tg_file w') es' /\ tg_rows w' = tg_rows w /\ forall t', o = Some t' -> thread_told es' t').
    { destruct (act _ _ _ _ _) as [receipt f|x f|f]; apply pair_equal_spec in Ha as [<- <-].
      - destruct Hact as (es' & Hs & Hl & Hen). exists es'. split_and!; try done. intros t' [= <-]. exact Hen.
      - destruct Hact as (es' & Hs & Hl). exists es'. split_and!; try done. intros t' Ht'. apply (inj Some) in Ht' as <-. apply failed_told.
      - destruct Hact as (es' & Hs & Hl). by exists es'. }
    destruct Hx as (es' & Hl & Hs & Hrw & Ho). exists es'. split_and!; try done. rewrite Hrw. eapply Forall_impl; [exact Hrows|].
    intros r. apply row_told_later, (log_grows ct). eapply steps_snoc; [apply steps_refl|done].
  - exists es. split; [constructor|]. destruct (quiet_told e t w o w' es Hna Hrows Ht Ha) as (-> & Hw & Ho). done.
Qed.

Definition told (es : list entry) (s : target * list thread) : Prop :=
  stands ct (tg_file s.1) es /\ Forall (row_told es) (tg_rows s.1) /\ Forall (thread_told es) s.2.

Lemma served_told es s s' : utf8_text (ct_resource ct) = true -> told es s -> serving fine s s' -> exists es', log_step ct es es' /\ told es' s'.
Proof.
  intros Hr (Hst & Hrows & Hts) Hs. destruct Hs as [w ts a r|w ts i t e t' w' Hl Hf Ha|w ts i t e w' Hl Hf Ha|w ts|w ts p r _|w ts db l x]; cbn [fst snd] in *.
  - exists es. split; [constructor|]. split_and!; try done. apply Forall_app. by split; [|constructor].
  - pose proof (proj1 (Forall_lookup _ _) Hts i t Hl) as Ht.
    destruct (advance_told e t w _ w' es Hr Hf Hst Hrows Ht Ha) as (es' & Hlog & Hst' & Hrows' & Ho). exists es'. split; [done|]. split_and!; [done..|].
    cbn [snd]. apply Forall_insert; [|by apply Ho]. eapply Forall_impl; [exact Hts|]. intros y. apply thread_told_later, (log_grows ct).
    eapply steps_snoc; [apply steps_refl|done].
  - pose proof (proj1 (Forall_lookup _ _) Hts i t Hl) as Ht.
    destruct (advance_told e t w _ w' es Hr Hf Hst Hrows Ht Ha) as (es' & Hlog & Hst' & Hrows' & _). exists es'. by split_and!.
  - exists es. by split; [constructor|].
  - exists es. by split; [constructor|].
  - exists es. by split; [constructor|].
Qed.

(** C18: however requests interleave and whenever the process dies, while writes
    are not torn the file stands for a log, and a success, answered to a client or
    recorded in the registry, is the receipt of the execution's one record there;
    a row that says SUCCEEDED has its result. *)
Theorem success_is_recorded r w ts : utf8_text (ct_resource ct) = true -> steps (serving fine) (opening r None, []) (w, ts) ->
  exists es, steps (log_step ct) [] es /\ stands ct (tg_file w) es
    /\ (forall row, row ∈ tg_rows w -> er_state row = SUCCEEDED ->
          exists en, of_execution (er_execution_id row) es = Some en /\ er_result row = Some (answer_of (er_execution_id row) en))
    /\ (forall b, Answered (Success b) ∈ ts -> exists id en, of_execution id es = Some en /\ b = answer_of id en).
Proof.
  intros Hr Hs. assert (Hi : exists es, steps (log_step ct) [] es /\ told es (w, ts)).
  { revert Hs. apply (steps_invariant _ (fun s => exists es, steps (log_step ct) [] es /\ told es s)).
    - intros a b (es & Hl & Ht) Hst. destruct (served_told es a b Hr Ht Hst) as (es' & Hl' & Ht'). exists es'. split; [by eapply steps_snoc|done].
    - exists []. split; [apply steps_refl|]. split_and!; [apply stands_nothing|by constructor..]. }
  destruct Hi as (es & Hl & Hst & Hrows & Hts). cbn [fst snd] in *. exists es. split_and!; [done..| |].
  - intros row Hin Hsu. rewrite Forall_forall in Hrows. destruct (Hrows row Hin) as [Hb Hx]. destruct (Hx Hsu) as [b Eb].
    destruct (Hb b Eb) as (en & Ho & ->). by exists en.
  - intros b Hin. rewrite Forall_forall in Hts. destruct (Hts _ Hin) as (id & en & Ho & Hb). by exists id, en.
Qed.
End recorded.

(** ** Key custody *)

Section custody.
Context `{Ext}.

Inductive kstep : kms -> kms -> Prop :=
  | k_generates kid sk now w : kstep w (oworld (generate_new_key kid sk now w))
  | k_revokes kid w : kstep w (revoke_key kid w).

Definition key_rows_ok (w : kms) : Prop := NoDup (map k_kid (km_records w)) /\ (length (filter is_active (km_records w)) <= 1)%nat.

Lemma map_status f (ks : list KMSKeyRecord) : (forall k, k_kid (f k) = k_kid k) -> map k_kid (map f ks) = map k_kid ks.
Proof. intros Hf. rewrite map_map. by apply map_ext. Qed.

Lemma filter_active_map f (ks : list KMSKeyRecord) : (forall k, is_active (f k) = true -> is_active k = true) ->
  (length (filter is_active (map f ks)) <= length (filter is_active ks))%nat.
Proof.
  intros Hf. induction ks as [|k ks IH]; [done|]. cbn [map]. rewrite !filter_cons. repeat case_decide; cbn [length]; try lia. exfalso.
  pose proof (Hf k). destruct (is_active (f k)), (is_active k); naive_solver.
Qed.

Lemma key_known kid (ks : list KMSKeyRecord) : existsb (is_key kid) ks = false -> kid ∉ map k_kid ks.
Proof.
  intros Hx (k & -> & Hk)%list_elem_of_fmap. assert (Ht : existsb (is_key (k_kid k)) ks = true); [|congruence].
  apply existsb_exists. exists k. split; [by apply list_elem_of_In|apply str_eqb_refl].
Qed.

Lemma kstep_ok w w' : key_rows_ok w -> kstep w w' -> key_rows_ok w'.
Proof.
  intros [Hn Hl] Hs. destruct Hs as [kid sk now w|kid w].
  - unfold generate_new_key. destruct (existsb _ _) eqn:Ex; [by split|]. cbn [oworld]. split; cbn [km_records].
    + rewrite map_app, map_status by (intros k; by destruct (is_active k)). by apply NoDup_snoc; [|apply key_known].
    + rewrite filter_app, length_app. assert (Hz : filter is_active (map (fun k => if is_active k then with_status KEY_RETIRED (Some (now + 3600)) k else k) (km_records w)) = []).
      { clear. induction (km_records w) as [|k ks IH]; [done|]. cbn [map]. rewrite filter_cons, IH. destruct (is_active k) eqn:Ek; case_decide as Hd; try done.
        by rewrite Ek in Hd. }
      rewrite Hz. etrans; [apply length_filter|]. done.
  - split; cbn [revoke_key km_records]; [by rewrite map_status by (intros k; by destruct (is_key kid k))|].
    etrans; [apply filter_active_map|exact Hl]. intros k. by destruct (is_key kid k).
Qed.

Definition key_revoked (kid : string) (w : kms) : Prop := exists k, List.find (is_key kid) (km_records w) = Some k /\ k_status k = KEY_REVOKED.

Lemma find_map_status kid f (ks : list KMSKeyRecord) : (forall k, k_kid (f k) = k_kid k) -> List.find (is_key kid) (map f ks) = f <$> List.find (is_key kid) ks.
Proof. intros Hf. induction ks as [|k ks IH]; [done|]. cbn [map List.find]. unfold is_key at 1 3. rewrite Hf. by destruct (str_eqb _ _). Qed.

Lemma find_before (f : KMSKeyRecord -> bool) ks ks' k : List.find f ks = Some k -> List.find f (ks ++ ks') = Some k.
Proof. induction ks as [|x ks IH]; [done|]. cbn [app List.find]. by destruct (f x). Qed.

Lemma kstep_revoked kid w w' : key_revoked kid w -> kstep w w' -> key_revoked kid w'.
Proof.
  intros (k & Hk & Hst) Hs. destruct Hs as [kid' sk now w|kid' w]; unfold key_revoked.
  - unfold generate_new_key. destruct (existsb _ _); cbn [oworld km_records]; [by exists k|]. exists k. split; [|done].
    apply find_before. rewrite find_map_status by (intros x; by destruct (is_active x)). rewrite Hk. cbn. unfold is_active. by rewrite Hst.
  - cbn [revoke_key km_records]. rewrite find_map_status by (intros x; by destruct (is_key kid' x)). rewrite Hk. cbn.
    exists (if is_key kid' k then with_status KEY_REVOKED (k_expires_at k) k else k). split; [done|]. by destruct (is_key kid' k).
Qed.

(** From an empty store, at most one key is active, so that tokens are signed
    under one key at a time, and a revoked key is never served again. *)
Theorem one_active_key w : steps kstep (mk_kms _ [] ∅) w ->
  (length (filter is_active (km_records w)) <= 1)%nat
  /\ forall kid w' now, key_revoked kid w -> steps kstep w w' -> get_public_key kid now w' = None.
Proof.
  intros Hs. split.
  - apply (steps_invariant _ key_rows_ok) in Hs as [_ Hl]; [done|apply kstep_ok|]. split; [apply NoDup_nil_2|cbn; lia].
  - intros kid w' now Hr Hs'. apply (steps_invariant _ (key_revoked kid)) in Hs' as (k & Hk & Hst); [|apply kstep_revoked|done].
    unfold get_public_key. rewrite Hk. cbn. by rewrite Hst.
Qed.
End custody.

(** ** The credential broker (credential_broker.py) *)

Inductive broker_exc := BrokerException (message : string) | BrokerOther (name : string).

Section broker.
(** [CryptoEnvelope.verify] of a token for an audience, the [kid] of its header,
    [str] of a value that is not text, and the vault. *)
Context `{Ext} (verify : string -> string -> res string dict) (header_kid : string -> option string) (fmt : json -> string) (vault : gmap string string).

Definition text (j : json) : string := match j with JStr s => s | _ => fmt j end.

(** [scope in value]. *)
Definition is_in (scope : string) (value : json) : res broker_exc bool :=
  match value with
  | JArr l => Ok (existsb (py_eqb (JStr scope)) l)
  | JStr s => Ok (match String.index 0 scope s with Some _ => true | None => false end)
  | JObj d => Ok (bool_decide (is_Some (assoc scope d)))
  | _ => Err (BrokerOther "TypeError")
  end.

Definition allowed_resources (authority : dict) : json := default (JArr []) (assoc "allowed_resources" authority).
Definition tracker_key (authority : dict) (credential_ref : string) : string := text (dget authority "execution_id") +:+ ":" +:+ credential_ref.

Definition resolve (db : option string) (r : revocations) (authority_token credential_ref target_audience requested_scope : string) :
  eff broker_exc (gmap string string) string := fun tracker =>
  match verify authority_token target_audience with
  | Err e => Raise (BrokerException ("DENY: Invalid authority token. " +:+ e)) tracker
  | Ok authority =>
    match check_authority true db (header_kid authority_token) (dget authority "sub") (dget authority "lease_id") (dget authority "execution_id") r with
    | Err _ => Raise (BrokerOther "RuntimeError") tracker
    | Ok state =>
      if stopped state then Raise (BrokerException "DENY: Authority revoked") tracker
      else
        match (let? named := is_in requested_scope (allowed_resources authority) in if named then Ok true else is_in "*" (allowed_resources authority)) with
        | Err e => Raise e tracker
        | Ok false => Raise (BrokerException ("DENY: Scope '" +:+ requested_scope +:+ "' not authorized in lease.")) tracker
        | Ok true =>
          match tracker !! tracker_key authority credential_ref with
          | Some prev_scope =>
            Raise (BrokerException (if negb (str_eqb prev_scope requested_scope) then "DENY: Duplicate execution cannot obtain broader authority."
                                    else "DENY: Credential reference already resolved for this execution.")) tracker
          | None =>
            let tracker' := <[tracker_key authority credential_ref := requested_scope]> tracker in
            match vault !! credential_ref with
            | Some secret => if str_eqb secret "" then Raise (BrokerException "DENY: Invalid credential reference") tracker' else Ret secret tracker'
            | None => Raise (BrokerException "DENY: Invalid credential reference") tracker'
            end
          end
        end
    end
  end.

Inductive bstep : gmap string string -> gmap string string -> Prop :=
  | resolves db r token ref audience scope t : bstep t (oworld (resolve db r token ref audience scope t)).

Lemma bstep_grows t t' : bstep t t' -> t ⊆ t'.
Proof.
  intros [db r token ref audience scope t0]. unfold resolve. repeat break_goal; cbn [oworld]; try done; by apply insert_subseteq.
Qed.

Lemma resolve_again db r token ref audience scope t authority : verify token audience = Ok authority -> is_Some (t !! tracker_key authority ref) ->
  exists e, resolve db r token ref audience scope t = Raise e t.
Proof.
  intros Hv [x Hx]. unfold resolve. rewrite Hv. destruct (check_authority _ _ _ _ _ _ _) as [s|]; [|by eexists]. destruct (stopped s); [by eexists|].
  destruct (rbind _ _) as [[]|]; [|by eexists..]. rewrite Hx. by eexists.
Qed.

(** A secret is released at most once for an execution and a reference, only
    under a token that verifies for the audience and covers the scope, with no
    revocation against it. *)
Theorem credential_released_once db r token ref audience scope t secret t1 : resolve db r token ref audience scope t = Ret secret t1 ->
  exists authority, verify token audience = Ok authority
    /\ (exists s, check_authority true db (header_kid token) (dget authority "sub") (dget authority "lease_id") (dget authority "execution_id") r = Ok s /\ stopped s = false)
    /\ vault !! ref = Some secret
    /\ forall t2 db' r' token' audience' scope' authority', steps bstep t1 t2 -> verify token' audience' = Ok authority' ->
         text (dget authority' "execution_id") = text (dget authority "execution_id") ->
         exists e, resolve db' r' token' ref audience' scope' t2 = Raise e t2.
Proof.
  intros Hr. unfold resolve in Hr. destruct (verify token audience) as [authority|] eqn:Ev; [|done].
  destruct (check_authority _ _ _ _ _ _ _) as [s|] eqn:Ec; [|done]. destruct (stopped s) eqn:Es; [done|].
  destruct (rbind _ _) as [[]|]; [|done..]. destruct (t !! _) eqn:Et; [done|]. destruct (vault !! ref) as [v|] eqn:Evl; [|done].
  destruct (str_eqb v ""); [done|]. injection Hr as <- <-. exists authority. split_and!; [done|by exists s|done|].
  intros t2 db' r' token' audience' scope' authority' Hs Hv Hid.
  assert (Hkey : is_Some (t2 !! tracker_key authority' ref)).
  { assert (Hsub : <[tracker_key authority ref := scope]> t ⊆ t2).
    { apply (steps_invariant _ (fun x => <[tracker_key authority ref := scope]> t ⊆ x)) in Hs; [done| |done]. intros a b Ha Hb. etrans; [exact Ha|by apply bstep_grows]. }
    exists scope. eapply lookup_weaken; [|exact Hsub]. unfold tracker_key. rewrite Hid. apply lookup_insert_eq. }
  by apply (resolve_again _ _ _ _ _ _ _ authority').
Qed.
End broker.
