(* ===== verification/McpAdapter.v ===== *)
(** * The MCP v2 adapter (services/mcp_adapter.py)

    From a JSON-RPC [tools/call] to a governed execution: the perimeter with its
    single-use nonces, the normalisation of the request, the intersection of
    the eight authorities, the dispatch with its receipt, and the responses.

    CAPPO's assessment (services/mcp_v2.py), the execution handler and the
    ledger client are arguments.  Text is ASCII; [repr_of] prints lists and
    dicts as [str] does, [aware] tells whether a time text carries an offset,
    and [validation_text] is what pydantic says of a request it refuses.  Drawn
    ids and times are arguments. *)

From Stdlib Require Import ZArith Lia Ascii String.
From stdpp Require Import base gmap strings list pretty.
From S2P Require Import Prelude Canon PyJson Verify Identity.

Local Open Scope Z_scope.

Definition MAX_PAYLOAD_BYTES : Z := 64 * 1024.
Definition MAX_ARGUMENT_KEYS : nat := 64.
Definition DENIAL_STRINGS : list string := ["false"; "deny"; "0"; "block"; "reject"; "hold"; "revoke"; "quarantine"; "none"].
Definition ALLOWED_STRINGS : list string := ["true"; "allow"].

Definition cleaned (s : string) : string := lower (strip s).

Definition parse_canonical_boolean (val : json) (dflt : bool) : bool :=
  match val with
  | JNull => dflt
  | JBool b => b
  | JStr s => if bool_decide (cleaned s ∈ DENIAL_STRINGS) then false else bool_decide (cleaned s ∈ ALLOWED_STRINGS)
  | _ => false
  end.

(** ** Contexts *)

Record ConnectionContext := mk_conn {
  cc_connection_id : string; cc_actor_id : string; cc_intent : string; cc_idempotency_key : string; cc_session_id : option string;
  cc_workspace_id : string; cc_deadline_at : option string; cc_evidence_mode : string; cc_status : string }.

Record CapabilityContext := mk_cap {
  cp_tenant_id : string; cp_actor_id : string; cp_scopes : list string; cp_risk_tier : string; cp_capability_id : string;
  cp_payload : dict; cp_environment : string; cp_untrusted_content_state : string; cp_approval_state : string;
  cp_nonce : option string; cp_operation_id : string; cp_expires_at : option string }.

Record IntersectionResult := mk_intersection {
  ir_identity : bool; ir_connection : bool; ir_capability : bool; ir_operation : bool; ir_execution_identity : bool;
  ir_policy : bool; ir_lifecycle : bool; ir_cappo : bool; ir_failure_reasons : list string }.
Definition effective_authority (r : IntersectionResult) : bool :=
  ir_identity r && ir_connection r && ir_capability r && ir_operation r && ir_execution_identity r && ir_policy r
  && ir_lifecycle r && ir_cappo r.
Definition to_dict (r : IntersectionResult) : dict :=
  [("identity", JBool (ir_identity r)); ("connection", JBool (ir_connection r)); ("capability", JBool (ir_capability r));
   ("operation", JBool (ir_operation r)); ("execution_identity", JBool (ir_execution_identity r)); ("policy", JBool (ir_policy r));
   ("lifecycle", JBool (ir_lifecycle r)); ("cappo_authorization", JBool (ir_cappo r));
   ("effective_authority", JBool (effective_authority r)); ("failure_reasons", JArr (map JStr (ir_failure_reasons r)))].

Inductive mcp_exc :=
  | PerimeterDefenseError (code message : string) (rpc_code : Z)
  | GovernanceDeniedError (reason : string) (intersection : IntersectionResult) (evidence : dict)
  | OtherError (message : string).
Definition ReplayAttackError (m : string) : mcp_exc := PerimeterDefenseError "LAW0_REPLAY_DETECTED" m (-32003).
Definition InvalidSessionError (m : string) : mcp_exc := PerimeterDefenseError "INVALID_MCP_SESSION" m (-32001).
Definition PayloadBoundExceededError (m : string) : mcp_exc := PerimeterDefenseError "PAYLOAD_BOUND_EXCEEDED" m (-32602).

(** What the adapter keeps, the calls of the execution handler and the events
    the ledger client took. *)
Record mcp := mk_mcp {
  ma_spent : gset string; ma_counter : Z; ma_calls : list (ConnectionContext * CapabilityContext); ma_sealed : list dict }.
Definition M := eff mcp_exc mcp.

(** What a call draws: ids and times. *)
Record mcp_draws := mk_mcp_draws { md_conn : string; md_idem : string; md_receipt : string; md_response : string; md_now : Z }.

Section adapter.
Context `{EiWorld} (repr_of : json -> string) (aware : string -> bool) (validation_text : dict -> string).

(** [str(v)]. *)
Definition str_of (v : json) : string :=
  match v with
  | JNull => "None" | JBool b => if b then "True" else "False" | JInt z => pretty z | JFloat l => l | JStr s => s | _ => repr_of v
  end.

(** [type(v).__name__]. *)
Definition py_type (v : json) : string :=
  match v with
  | JNull => "NoneType" | JBool _ => "bool" | JInt _ => "int" | JFloat _ => "float" | JStr _ => "str" | JArr _ => "list" | JObj _ => "dict"
  end.

(** [json.dumps(v)]: the keys as they come. *)
Fixpoint dumps_plain (j : json) : string :=
  match j with
  | JNull => "null" | JBool b => if b then "true" else "false" | JInt z => pretty z | JFloat l => l | JStr s => py_str_ascii s
  | JArr l => "[" +:+ String.concat ", " (map dumps_plain l) +:+ "]"
  | JObj m => "{" +:+ String.concat ", " (map (fun kv => py_str_ascii kv.1 +:+ ": " +:+ dumps_plain kv.2) m) +:+ "}"
  end.

Abbreviation headers := (list (string * string)).
Definition hget (hs : headers) (k : string) : json := match assoc k hs with Some s => JStr s | None => JNull end.
Definition as_dict (v : json) : dict := match v with JObj m => m | _ => [] end.
Definition is_dict (v : json) : bool := match v with JObj _ => true | _ => false end.

(** [a or b or c]. *)
Fixpoint or_all (vs : list json) : json :=
  match vs with
  | [] => JNull
  | [v] => v
  | v :: vs' => py_or v (or_all vs')
  end.

Definition params_of (raw : dict) : dict := as_dict (dget raw "params").
Definition meta_of (raw : dict) : dict := as_dict (dget (params_of raw) "_meta").

(** [len(json.dumps(arguments).encode())], and the two bounds. *)
Definition check_bounds (arguments : dict) : res mcp_exc unit :=
  if MAX_PAYLOAD_BYTES <? Z.of_nat (String.length (dumps_plain (JObj arguments)))
  then Err (PayloadBoundExceededError ("Arguments payload exceeds maximum allowed size (" +:+ pretty MAX_PAYLOAD_BYTES +:+ " bytes)"))
  else if (MAX_ARGUMENT_KEYS <? length arguments)%nat
  then Err (PayloadBoundExceededError ("Arguments key count (" +:+ pretty (length arguments) +:+ ") exceeds maximum allowed ("
                                       +:+ pretty MAX_ARGUMENT_KEYS +:+ ")"))
  else Ok tt.

Definition nonce_of_request (hs : headers) (raw : dict) : json :=
  or_all [hget hs "X-Nonce"; hget hs "x-nonce"; dget (meta_of raw) "nonce"].
Definition session_of_request (hs : headers) (raw : dict) : json :=
  or_all [hget hs "Mcp-Session-Id"; hget hs "mcp-session-id"; dget (meta_of raw) "session_id"].

(** The third part of [validate_perimeter]. *)
Definition check_session (hs : headers) (raw : dict) (session_auth : json) : res mcp_exc unit :=
  match session_auth with
  | JNull => Err (InvalidSessionError "Authentication context required: session_auth is missing or unauthenticated")
  | JObj auth =>
    if negb (truthy (dget auth "valid_session")) then Err (InvalidSessionError "Fabricated or invalid MCP session rejected at perimeter")
    else if negb (truthy (dget auth "authenticated")) then Err (InvalidSessionError "MCP session caller is unauthenticated")
    else
      let status := dget_or auth "status" (JStr "active") in
      if negb (is_str status "active") then Err (InvalidSessionError ("MCP session is " +:+ str_of status))
      else match assoc "session_id" auth with
           | Some expected_sess =>
             let session_id := session_of_request hs raw in
             if truthy session_id && negb (py_eqb session_id expected_sess)
             then Err (InvalidSessionError "Session ID in request does not match authenticated session") else Ok tt
           | None => Ok tt
           end
  | _ => Err (InvalidSessionError "Fabricated or invalid MCP session rejected at perimeter")
  end.

Definition lift_mcp {A} (m : res mcp_exc A) : M A := fun w => match m with Ok a => Ret a w | Err e => Raise e w end.

(** The nonce a request spends, if it is acceptable. *)
Definition read_nonce (hs : headers) (raw : dict) : option string :=
  match nonce_of_request hs raw with
  | JStr s => if (String.length (strip s) <? 16)%nat then None else Some (cleaned s)
  | _ => None
  end.

Definition burn (nonce : string) : M unit := fun w =>
  if bool_decide (nonce ∈ ma_spent w)
  then Raise (ReplayAttackError ("Token reuse detected: nonce '" +:+ nonce +:+ "' has already been spent")) w
  else Ret tt (mk_mcp ({[nonce]} ∪ ma_spent w) (ma_counter w) (ma_calls w) (ma_sealed w)).

Definition validate_perimeter (hs : headers) (raw : dict) (session_auth : json) : M string :=
  do! lift_mcp (match dget (params_of raw) "arguments" with JObj arguments => check_bounds arguments | _ => Ok tt end) in
  match read_nonce hs raw with
  | None => eraise (PerimeterDefenseError "LAW0_NONCE_INVALID" "Nonce is missing, not a string, or shorter than 16 characters" (-32003))
  | Some nonce =>
    do! burn nonce in
    do! lift_mcp (check_session hs raw session_auth) in
    eret nonce
  end.

(** ** Normalisation *)

(** Fields pydantic declares as [str] and as [List[str]]. *)
Definition str_field (raw : dict) (v : json) : res mcp_exc string :=
  match v with JStr s => Ok s | _ => Err (OtherError (validation_text raw)) end.
Fixpoint str_fields (raw : dict) (l : list json) : res mcp_exc (list string) :=
  match l with
  | [] => Ok []
  | v :: l' => let? s := str_field raw v in let? ss := str_fields raw l' in Ok (s :: ss)
  end.
Definition scope_list (raw : dict) (v : json) : res mcp_exc (list string) :=
  match v with JArr l => str_fields raw l | _ => Ok [str_of v] end.
Definition opt_str (v : json) : option string := if truthy v then Some (str_of v) else None.

Definition normalize_request (hs : headers) (raw : dict) (d : mcp_draws) : res mcp_exc (ConnectionContext * CapabilityContext) :=
  match dget_or raw "params" (JObj []) with
  | JObj params =>
    match dget params "name" with
    | JStr tool_name =>
      if str_eqb tool_name "" then Err (OtherError "Invalid tools/call: 'name' is required and must be a string")
      else match dget_or params "arguments" (JObj []) with
      | JObj arguments =>
        do? check_bounds arguments in
        let meta := as_dict (dget params "_meta") in
        let connection_id := or_all [hget hs "X-Veklom-Connection-ID"; hget hs "x-veklom-connection-id"; dget meta "connection_id";
                                     JStr ("conn-" +:+ md_conn d)] in
        let actor_id := or_all [hget hs "X-Veklom-Agent-ID"; hget hs "x-veklom-agent-id"; hget hs "X-Agent-ID"; dget meta "agent_id";
                                dget meta "actor_id"; JStr "agent-mcp-anonymous"] in
        let session_id := or_all [hget hs "Mcp-Session-Id"; hget hs "mcp-session-id"; dget meta "session_id"] in
        let idempotency_key := or_all [hget hs "Idempotency-Key"; hget hs "idempotency-key"; dget meta "idempotency_key";
                                       JStr ("idem-" +:+ md_idem d)] in
        let intent := or_all [dget meta "intent"; JStr ("execute_tool:" +:+ tool_name)] in
        let workspace_id := or_all [dget meta "workspace_id"; hget hs "X-Workspace-ID"; JStr "default-workspace"] in
        let tenant_id := or_all [dget meta "tenant_id"; hget hs "X-Tenant-ID"; workspace_id] in
        let deadline_at := or_all [dget meta "deadline"; dget meta "deadline_at"] in
        let nonce := or_all [hget hs "X-Nonce"; hget hs "x-nonce"; dget meta "nonce"] in
        let? evidence_mode := str_field raw (dget_or meta "evidence_mode" (JStr "consequential")) in
        let? scopes := scope_list raw (or_all [dget meta "scopes"; JArr [JStr tool_name]]) in
        let? environment := str_field raw (dget_or meta "environment" (JStr "production")) in
        let? untrusted := str_field raw (dget_or meta "untrusted_content_state" (JStr "clean")) in
        let? approval := str_field raw (dget_or meta "approval_state" (JStr "none")) in
        let? public_key := str_field raw (dget_or meta "public_key" (JStr "")) in
        Ok (mk_conn (str_of connection_id) (str_of actor_id) (str_of intent) (str_of idempotency_key) (opt_str session_id)
              (str_of workspace_id) (opt_str deadline_at) evidence_mode "active",
            mk_cap (str_of tenant_id) (str_of actor_id) scopes (str_of (dget_or meta "risk_tier" (JStr "standard"))) tool_name
              arguments environment untrusted approval
              (match nonce with JStr s => Some (cleaned s) | v => opt_str v end)
              (str_of idempotency_key) (opt_str deadline_at))
      | _ => Err (OtherError "Invalid tools/call: 'arguments' must be a dictionary")
      end
    | _ => Err (OtherError "Invalid tools/call: 'name' is required and must be a string")
    end
  | _ => Err (OtherError "Invalid tools/call: 'params' must be an object")
  end.

(** ** The eight authorities *)

(** Whether the context's deadline has passed; a text that does not parse, or a
    time without an offset (whose comparison raises), is not looked at. *)
Definition deadline_passed (expires_at : option string) (now : Z) : bool :=
  match expires_at with
  | Some t =>
    if str_eqb t "" then false
    else match fromisoformat (replace_Z t) with
         | Some exp => aware (replace_Z t) && (exp <? now)
         | None => false
         end
  | None => false
  end.

Definition reason_if (c : bool) (reason : string) : list string := if c then [reason] else [].

(** The decision of CAPPO, lowered by a safety or top-level directive. *)
Definition safety_denies (assessment : dict) : bool :=
  match dget assessment "safety" with
  | JObj safety =>
    bool_decide (cleaned (str_of (dget_or safety "recommended_action" (JStr ""))) ∈ ["block"; "quarantine"])
    || truthy (dget safety "quarantine_id")
  | _ => false
  end.
Definition top_decision (assessment : dict) : string :=
  cleaned (str_of (or_all [dget assessment "decision"; dget assessment "directive"; JStr ""])).
Definition cappo_authorized (assessment : dict) : bool :=
  parse_canonical_boolean (dget assessment "allow") false && negb (safety_denies assessment)
  && negb (bool_decide (top_decision assessment ∈ DENIAL_STRINGS)).

Definition evaluate_8way_intersection (conn : ConnectionContext) (cap : CapabilityContext) (assessment : dict) (session_auth : json)
    (now : Z) : res mcp_exc IntersectionResult :=
  let auth := as_dict session_auth in
  let caller_authenticated := is_dict session_auth && match dget auth "authenticated" with JBool b => b | _ => false end in
  let identity_valid := negb (str_eqb (cc_actor_id conn) "") && negb (str_eqb (cc_actor_id conn) "anonymous") && caller_authenticated in
  let connection_valid := negb (str_eqb (cc_connection_id conn) "") && str_eqb (cc_status conn) "active" in
  let capability_valid := negb (str_eqb (cp_capability_id cap) "")
      && (bool_decide (cp_capability_id cap ∈ cp_scopes cap) || bool_decide ("*" ∈ cp_scopes cap)) in
  let operation_valid := (length (cp_payload cap) <=? MAX_ARGUMENT_KEYS)%nat in
  let ei_valid := negb (deadline_passed (cp_expires_at cap) now) in
  match dget_or assessment "governance" (JObj []) with
  | JObj gov_info =>
    let policy_valid := parse_canonical_boolean (dget gov_info "policy_allows") true in
    let session_active := is_dict session_auth && is_str (dget_or auth "status" (JStr "active")) "active" in
    let lifecycle_valid := str_eqb (cc_status conn) "active" && session_active in
    let authorized := cappo_authorized assessment in
    let safety_action := match dget assessment "safety" with
                         | JObj safety => str_of (dget_or safety "recommended_action" (JStr "block"))
                         | _ => "block"
                         end in
    Ok (mk_intersection identity_valid connection_valid capability_valid operation_valid ei_valid policy_valid lifecycle_valid authorized
          (reason_if (negb identity_valid) "identity: Actor identity missing or unauthenticated"
           ++ reason_if (negb connection_valid) ("connection: Connection '" +:+ cc_connection_id conn +:+ "' is not active")
           ++ reason_if (negb capability_valid) ("capability: Capability '" +:+ cp_capability_id cap +:+ "' not covered in scopes "
                                                 +:+ repr_of (JArr (map JStr (cp_scopes cap))))
           ++ reason_if (negb operation_valid) "operation: Arguments exceed parameter bounds or invalid structure"
           ++ reason_if (negb ei_valid) "execution_identity: Context deadline has expired"
           ++ reason_if (negb policy_valid) "policy: Composed governance policy denies action"
           ++ reason_if (negb lifecycle_valid) "lifecycle: Session or connection lifecycle is terminated/suspended"
           ++ reason_if (negb authorized) ("cappo_authorization: CAPPO pre-execution assessment returned allow=False (action: "
                                           +:+ safety_action +:+ ")")))
  | v => Err (OtherError ("'" +:+ py_type v +:+ "' object has no attribute 'get'"))
  end.

(** ** Dispatch *)

Definition receipt_of (conn : ConnectionContext) (cap : CapabilityContext) (assessment : dict) (index : Z) (d : mcp_draws) : dict :=
  let body := [("receipt_id", JStr ("rcpt-" +:+ md_receipt d)); ("connection_id", JStr (cc_connection_id conn));
               ("capability_id", JStr (cp_capability_id cap)); ("principal", JStr (cp_actor_id cap));
               ("action", JStr (cp_capability_id cap)); ("decision", JStr "allow"); ("merkle_leaf_index", JInt index);
               ("evidence_hash", dget_or assessment "evidence_hash" (JStr "")); ("actioned_at", JStr (iso (md_now d)))] in
  body ++ [("content_hash", JStr (sha256_json (JObj body)))].

(** [execution_handler]: it is called, and returns or raises. *)
Definition call_handler (handler : ConnectionContext -> CapabilityContext -> res string json) (conn : ConnectionContext)
    (cap : CapabilityContext) : M json := fun w =>
  let w' := mk_mcp (ma_spent w) (ma_counter w) (ma_calls w ++ [(conn, cap)]) (ma_sealed w) in
  match handler conn cap with Ok v => Ret v w' | Err text => Raise (OtherError text) w' end.

(** The handler of a caller that gives none. *)
Definition default_handler (conn : ConnectionContext) (cap : CapabilityContext) : res string json :=
  Ok (JObj [("executed", JBool true); ("action", JStr (cp_capability_id cap))]).

Definition next_merkle_index : M Z := fun w =>
  Ret (ma_counter w + 1) (mk_mcp (ma_spent w) (ma_counter w + 1) (ma_calls w) (ma_sealed w)).

(** [append_evidence_event], when a client is configured; what it raises is
    swallowed. *)
Definition seal (pgl : option (dict -> bool)) (receipt : dict) : M unit := fun w =>
  match pgl with
  | Some takes => Ret tt (if takes receipt then mk_mcp (ma_spent w) (ma_counter w) (ma_calls w) (ma_sealed w ++ [receipt]) else w)
  | None => Ret tt w
  end.

Definition dispatch_execution (handler : ConnectionContext -> CapabilityContext -> res string json) (pgl : option (dict -> bool))
    (conn : ConnectionContext) (cap : CapabilityContext) (assessment : dict) (session_auth : json) (d : mcp_draws) : M (json * dict) :=
  let! intersection := lift_mcp (evaluate_8way_intersection conn cap assessment session_auth (md_now d)) in
  if negb (effective_authority intersection) || negb (ir_cappo intersection) then
    let reason := String.concat "; " (ir_failure_reasons intersection) in
    eraise (GovernanceDeniedError (if str_eqb reason "" then "cappo_authorization: consequence execution denied" else reason)
              intersection assessment)
  else
    let! raw_result := call_handler handler conn cap in
    let! index := next_merkle_index in
    let receipt := receipt_of conn cap assessment index d in
    do! seal pgl receipt in
    eret (raw_result, receipt).

(** ** Responses *)

Definition format_response (execution_result : json) (connection_id : string) (request_id evidence_hash : json) (receipt : dict)
    (d : mcp_draws) : dict :=
  let text := match execution_result with JObj _ | JArr _ => dumps_plain execution_result | v => str_of v end in
  let content := JArr [JObj [("type", JStr "text"); ("text", JStr text)]] in
  [("jsonrpc", JStr "2.0"); ("id", match request_id with JNull => JStr (md_response d) | v => v end);
   ("result", JObj ([("content", content); ("connection_id", JStr connection_id); ("status", JStr "success")]
                    ++ (if truthy evidence_hash then [("evidence_hash", evidence_hash)] else [])
                    ++ match receipt with [] => [] | _ => [("receipt", JObj receipt)] end))].

Definition format_error (code : Z) (message : string) (connection_id : option string) (request_id : json) (data : dict) : dict :=
  let err_data := data ++ match connection_id with
                          | Some c => if str_eqb c "" then [] else [("connection_id", JStr c)]
                          | None => []
                          end in
  [("jsonrpc", JStr "2.0"); ("id", request_id);
   ("error", JObj ([("code", JInt code); ("message", JStr message)] ++ match err_data with [] => [] | _ => [("data", JObj err_data)] end))].

(** ** The entry point *)

(** From normalisation on, for a request that passed the perimeter. *)
Definition governed (assess : string -> string -> dict -> res string dict)
    (handler : ConnectionContext -> CapabilityContext -> res string json) (pgl : option (dict -> bool))
    (hs : headers) (raw : dict) (session_auth : json) (d : mcp_draws) : M dict := fun w =>
  let request_id := dget raw "id" in
  match normalize_request hs raw d with
  | Err (PerimeterDefenseError _ m _) | Err (GovernanceDeniedError m _ _) | Err (OtherError m) =>
      Ret (format_error (-32602) ("Request normalization failed: " +:+ m) None request_id []) w
  | Ok (conn, cap) =>
    let internal m w' := Ret (format_error (-32603) ("Internal execution error: " +:+ m) (Some (cc_connection_id conn)) request_id []) w' in
    match assess (cp_actor_id cap) (cp_capability_id cap) (cp_payload cap) with
    | Err m => internal m w
    | Ok assessment =>
      match dispatch_execution handler pgl conn cap assessment session_auth d w with
      | Ret (result, receipt) w' =>
          Ret (format_response result (cc_connection_id conn) request_id (dget_or assessment "evidence_hash" (JStr "")) receipt d) w'
      | Raise (GovernanceDeniedError reason intersection evidence) w' =>
          Ret (format_error (-32003) "CAPPO_GOVERNANCE_DENIED" (Some (cc_connection_id conn)) request_id
                 [("reason", JStr reason);
                  ("evidence_hash", match evidence with [] => JNull | _ => dget evidence "evidence_hash" end);
                  ("intersection", JObj (to_dict intersection))]) w'
      | Raise (PerimeterDefenseError _ m _) w' | Raise (OtherError m) w' => internal m w'
      | Crash w' => Crash w'
      end
    end
  end.

Definition handle_tool_call (assess : string -> string -> dict -> res string dict)
    (handler : ConnectionContext -> CapabilityContext -> res string json) (pgl : option (dict -> bool))
    (hs : headers) (raw_request : json) (session_auth : json) (d : mcp_draws) : M dict := fun w =>
  match raw_request with
  | JObj raw =>
    match validate_perimeter hs raw session_auth w with
    | Raise (PerimeterDefenseError code message rpc_code) w' =>
        Ret (format_error rpc_code message None (dget raw "id") [("error_type", JStr code)]) w'
    | Raise e w' => Raise e w'
    | Crash w' => Crash w'
    | Ret _ w' => governed assess handler pgl hs raw session_auth d w'
    end
  | _ => Ret (format_error (-32600) "Request payload must be a JSON-RPC 2.0 object" None JNull [("error_type", JStr "INVALID_JSONRPC_PAYLOAD")]) w
  end.
End adapter.
