(* ===== verification/McpProperties.v ===== *)
(** * What the MCP adapter promises

    An MCP session is not authority: the handler runs at most once for a nonce,
    and only when CAPPO and every other authority grant it; every request is
    answered, with a receipt exactly when the handler returned. *)

From Stdlib Require Import ZArith Lia Ascii String.
From stdpp Require Import base gmap strings list pretty.
From S2P Require Import Prelude Canon PyJson Verify Identity McpAdapter.

Local Open Scope Z_scope.

Definition is_error (resp : dict) : Prop := is_Some (assoc "error" resp) /\ assoc "result" resp = None.

Section properties.
Context `{EiWorld} (repr_of : json -> string) (aware : string -> bool) (validation_text : dict -> string).
Local Abbreviation perimeter := (validate_perimeter repr_of).
Local Abbreviation normalize := (normalize_request repr_of validation_text).
Local Abbreviation intersect := (evaluate_8way_intersection repr_of aware).
Local Abbreviation run := (governed repr_of aware validation_text).
Local Abbreviation handle := (handle_tool_call repr_of aware validation_text).

Lemma error_is_error code message c id data : is_error (format_error code message c id data).
Proof. split; [by eexists|done]. Qed.

(** What a dispatch stands on. *)
Record dominated (conn : ConnectionContext) (cap : CapabilityContext) (assessment : dict) (session_auth : json) (now : Z) : Prop := mk_dominated {
  do_session : exists auth, session_auth = JObj auth /\ dget auth "authenticated" = JBool true
    /\ dget_or auth "status" (JStr "active") = JStr "active";
  do_actor : cc_actor_id conn <> "" /\ cc_actor_id conn <> "anonymous";
  do_scope : cp_capability_id cap <> "" /\ (cp_capability_id cap ∈ cp_scopes cap \/ "*" ∈ cp_scopes cap);
  do_bounded : (length (cp_payload cap) <= MAX_ARGUMENT_KEYS)%nat;
  do_deadline : deadline_passed aware (cp_expires_at cap) now = false;
  do_policy : exists gov, dget_or assessment "governance" (JObj []) = JObj gov
    /\ parse_canonical_boolean (dget gov "policy_allows") true = true;
  do_cappo : parse_canonical_boolean (dget assessment "allow") false = true /\ safety_denies repr_of assessment = false
    /\ (top_decision repr_of assessment ∉ DENIAL_STRINGS) }.

Lemma is_str_inv j s : is_str j s = true -> j = JStr s.
Proof. destruct j; simpl; try done. intros E. apply str_eqb_spec in E. by subst. Qed.

(** ** The intersection *)

Lemma intersection_dominated conn cap assessment session_auth now r :
  intersect conn cap assessment session_auth now = Ok r -> effective_authority r = true ->
  dominated conn cap assessment session_auth now.
Proof.
  unfold evaluate_8way_intersection. destruct (dget_or assessment "governance" (JObj [])) as [| | | | | |gov] eqn:Eg; try done.
  intros [= <-]. unfold effective_authority. cbn [ir_identity ir_connection ir_capability ir_operation ir_execution_identity ir_policy ir_lifecycle ir_cappo].
  rewrite !andb_true_iff. intros (((((((Hi & Hc) & Hs) & Ho) & He) & Hp) & Hl) & Ha).
  destruct Hi as ((Hi1 & Hi2) & (Hi3 & Hi4)). destruct Hs as (Hs1 & Hs2). destruct Hl as (Hl1 & Hl2 & Hl3).
  destruct session_auth as [| | | | | |auth]; try done. cbn [as_dict] in *.
  destruct (dget auth "authenticated") as [|[]| | | | |] eqn:Eau; try done.
  unfold cappo_authorized in Ha. rewrite !andb_true_iff, !negb_true_iff in Ha. destruct Ha as ((Ha1 & Ha2) & Ha3).
  rewrite negb_true_iff in Hi1, Hi2, Hs1, He. split.
  - exists auth. split; [done|]. split; [done|]. by apply is_str_inv.
  - split; by apply str_eqb_neq.
  - split; [by apply str_eqb_neq|]. apply orb_true_iff in Hs2 as [E%bool_decide_eq_true|E%bool_decide_eq_true]; [by left|by right].
  - by apply Nat.leb_le.
  - done.
  - by exists gov.
  - split; [done|]. split; [done|]. by apply bool_decide_eq_false in Ha3.
Qed.

(** ** Dispatch *)

(** A dispatch raises without a call, or calls the handler once, under every
    authority. *)
Lemma dispatch_cases handler pgl conn cap assessment session_auth d w :
  let o := dispatch_execution repr_of aware handler pgl conn cap assessment session_auth d w in
  (exists e, o = Raise e w)
  \/ dominated conn cap assessment session_auth (md_now d)
     /\ match handler conn cap with
        | Err m => o = Raise (OtherError m) (mk_mcp (ma_spent w) (ma_counter w) (ma_calls w ++ [(conn, cap)]) (ma_sealed w))
        | Ok v =>
          let receipt := receipt_of conn cap assessment (ma_counter w + 1) d in
          exists extra, o = Ret (v, receipt) (mk_mcp (ma_spent w) (ma_counter w + 1) (ma_calls w ++ [(conn, cap)]) (ma_sealed w ++ extra))
            /\ extra = match pgl with Some takes => if takes receipt then [receipt] else [] | None => [] end
        end.
Proof.
  cbv zeta. unfold dispatch_execution, lift_mcp, ebind.
  destruct (intersect conn cap assessment session_auth (md_now d)) as [r|e] eqn:Er; [|left; by eexists]. cbv beta iota zeta.
  destruct (negb (effective_authority r) || negb (ir_cappo r)) eqn:Ea; [left; by eexists|]. right.
  apply orb_false_iff in Ea as [Ea%negb_false_iff _]. split; [by eapply intersection_dominated|].
  unfold call_handler. destruct (handler conn cap) as [v|m]; [|done]. unfold next_merkle_index, seal, eret. cbn [ma_counter ma_spent ma_calls ma_sealed].
  destruct pgl as [takes|]; [destruct (takes _)|]; eexists; (split; [|reflexivity]); by rewrite ?app_nil_r.
Qed.

(** The request's nonce is the one the perimeter spent. *)
Lemma normalized_nonce hs raw d conn cap nonce :
  normalize hs raw d = Ok (conn, cap) -> read_nonce hs raw = Some nonce -> cp_nonce cap = Some nonce.
Proof.
  unfold normalize_request, read_nonce, nonce_of_request, meta_of, params_of. intros Hn Hr.
  destruct (dget_or raw "params" (JObj [])) as [| | | | | |params] eqn:Ep; try done.
  assert (Hp : as_dict (dget raw "params") = params).
  { unfold dget_or in Ep. unfold dget. destruct (assoc "params" raw); simpl in *; [by subst|by injection Ep]. }
  rewrite Hp in Hr. destruct (dget params "name"); try done. destruct (str_eqb _ ""); [done|].
  destruct (dget_or params "arguments" (JObj [])); try done. cbv zeta in Hn. res_inv Hn. simpl.
  set (n := or_all [hget hs "X-Nonce"; hget hs "x-nonce"; dget (as_dict (dget params "_meta")) "nonce"]) in *. clearbody n.
  injection Hn as <- <-. cbn [cp_nonce]. destruct n; try done. revert Hr. by case_match.
Qed.

(** ** A request *)

(** The perimeter refuses, the nonce spent or not, or spends the nonce. *)
Lemma perimeter_cases hs raw session_auth w :
  let o := perimeter hs raw session_auth w in
  (exists code m rpc w', o = Raise (PerimeterDefenseError code m rpc) w'
     /\ ma_calls w' = ma_calls w /\ ma_counter w' = ma_counter w /\ ma_sealed w' = ma_sealed w /\ ma_spent w ⊆ ma_spent w')
  \/ exists nonce, o = Ret nonce (mk_mcp ({[nonce]} ∪ ma_spent w) (ma_counter w) (ma_calls w) (ma_sealed w))
     /\ read_nonce hs raw = Some nonce /\ (nonce ∉ ma_spent w).
Proof.
  cbv zeta. unfold validate_perimeter, ebind, lift_mcp.
  assert (Hb : forall a, check_bounds a = Ok tt \/ exists m, check_bounds a = Err (PayloadBoundExceededError m)).
  { intros a. unfold check_bounds. repeat case_match; eauto. }
  assert (Hs : check_session repr_of hs raw session_auth = Ok tt \/ exists m, check_session repr_of hs raw session_auth = Err (InvalidSessionError m)).
  { unfold check_session. repeat case_match; eauto. }
  set (b := match dget (params_of raw) "arguments" with JObj arguments => _ | _ => _ end).
  assert (Hb' : b = Ok tt \/ exists m, b = Err (PayloadBoundExceededError m)) by (unfold b; case_match; eauto).
  destruct Hb' as [-> |[m ->]]; [|left; by eexists _, _, _, _].
  destruct (read_nonce hs raw) as [nonce|]; [|left; by eexists _, _, _, _]. unfold burn. case_bool_decide as Hsp; [left; by eexists _, _, _, _|].
  destruct Hs as [-> |[m ->]]; [right; by exists nonce|]. left. eexists _, _, _, _. split; [done|]. split_and!; [done..|].
  cbn [ma_spent]. apply union_subseteq_r.
Qed.

(** A request that passed the perimeter is answered, and the handler called at
    most once. *)
Lemma run_cases assess handler pgl hs raw session_auth d w :
  exists resp w', run assess handler pgl hs raw session_auth d w = Ret resp w' /\ ma_spent w' = ma_spent w
  /\ ((w' = w /\ is_error resp)
      \/ exists conn cap assessment, normalize hs raw d = Ok (conn, cap)
         /\ assess (cp_actor_id cap) (cp_capability_id cap) (cp_payload cap) = Ok assessment
         /\ dominated conn cap assessment session_auth (md_now d) /\ ma_calls w' = ma_calls w ++ [(conn, cap)]
         /\ match handler conn cap with
            | Err m => ma_counter w' = ma_counter w /\ ma_sealed w' = ma_sealed w /\ is_error resp
            | Ok v =>
              let receipt := receipt_of conn cap assessment (ma_counter w + 1) d in
              ma_counter w' = ma_counter w + 1
              /\ resp = format_response repr_of v (cc_connection_id conn) (dget raw "id") (dget_or assessment "evidence_hash" (JStr "")) receipt d
              /\ ma_sealed w' = ma_sealed w ++ match pgl with Some takes => if takes receipt then [receipt] else [] | None => [] end
            end).
Proof.
  unfold governed. destruct (normalize hs raw d) as [[conn cap]|[? ? ?|? ? ?|?]] eqn:En;
    [|eexists _, _; split; [done|]; split; [done|]; left; split; [done|apply error_is_error]..].
  destruct (assess _ _ _) as [assessment|m] eqn:Ea; [|eexists _, _; split; [done|]; split; [done|]; left; split; [done|apply error_is_error]].
  destruct (dispatch_cases handler pgl conn cap assessment session_auth d w) as [[e ->]|[Hd Hh]].
  { destruct e; eexists _, _; (split; [done|]); split; [done| |done| |done|]; left; (split; [done|apply error_is_error]). }
  destruct (handler conn cap) as [v|m] eqn:Eh.
  - destruct Hh as (extra & -> & ->). eexists _, _. split; [done|]. split; [done|]. right. exists conn, cap, assessment. rewrite Eh. done.
  - rewrite Hh. eexists _, _. split; [done|]. split; [done|]. right. exists conn, cap, assessment. rewrite Eh. split_and!; try done; apply error_is_error.
Qed.

(** C12: an MCP session is not authority.  Every call is answered, whatever JSON,
    headers, session, assessment and handler; the handler is not called and the
    answer is an error, with no receipt; or the handler is called once, for a
    nonce that was not spent and now is, with an authenticated active session,
    a covered capability, bounded arguments, a deadline not known to have
    passed, and a policy and an assessment of CAPPO that both allow it, no
    safety or top-level directive denying; and a receipt with the next index is
    issued, and offered to the ledger, exactly when the handler returned. *)
Theorem consequence_dominance assess handler pgl hs raw_request session_auth d w :
  exists resp w', handle assess handler pgl hs raw_request session_auth d w = Ret resp w' /\ ma_spent w ⊆ ma_spent w'
  /\ ((ma_calls w' = ma_calls w /\ ma_counter w' = ma_counter w /\ ma_sealed w' = ma_sealed w /\ is_error resp)
      \/ exists raw nonce conn cap assessment, raw_request = JObj raw /\ (nonce ∉ ma_spent w) /\ nonce ∈ ma_spent w' /\ cp_nonce cap = Some nonce
         /\ assess (cp_actor_id cap) (cp_capability_id cap) (cp_payload cap) = Ok assessment
         /\ dominated conn cap assessment session_auth (md_now d) /\ ma_calls w' = ma_calls w ++ [(conn, cap)]
         /\ match handler conn cap with
            | Err m => ma_counter w' = ma_counter w /\ ma_sealed w' = ma_sealed w /\ is_error resp
            | Ok v =>
              let receipt := receipt_of conn cap assessment (ma_counter w + 1) d in
              ma_counter w' = ma_counter w + 1
              /\ resp = format_response repr_of v (cc_connection_id conn) (dget raw "id") (dget_or assessment "evidence_hash" (JStr "")) receipt d
              /\ ma_sealed w' = ma_sealed w ++ match pgl with Some takes => if takes receipt then [receipt] else [] | None => [] end
            end).
Proof.
  unfold handle_tool_call. destruct raw_request as [| | | | | |raw];
    try (eexists _, _; split; [reflexivity|]; split; [done|]; left; split_and!; [done..|apply error_is_error]).
  destruct (perimeter_cases hs raw session_auth w) as [(code & m & rpc & w' & -> & Hc & Hn & Hs & Hsp)|(nonce & -> & Hr & Hf)].
  { eexists _, _. split; [reflexivity|]. split; [done|]. left. split_and!; [done..|apply error_is_error]. }
  set (w1 := mk_mcp _ _ _ _). destruct (run_cases assess handler pgl hs raw session_auth d w1) as (resp & w' & -> & Hsp & Hcase).
  exists resp, w'. split; [done|]. rewrite Hsp. split; [apply union_subseteq_r|]. destruct Hcase as [[-> He]|(conn & cap & assessment & Hno & Ha & Hd & Hcl & Hh)].
  - left. by split_and!.
  - right. exists raw, nonce, conn, cap, assessment. split_and!; try done; [apply elem_of_union_l, elem_of_singleton_2; done|].
    by eapply normalized_nonce.
Qed.

(** ** Requests in flight at once *)

Definition request : Type := list (string * string) * dict * json.
Definition spends (r : request) : option string := read_nonce r.1.1 r.1.2.

(** A request passes the perimeter, which holds the nonce lock, and waits; or it
    is refused; a waiting request runs to its answer.  Other requests may come
    between. *)
Inductive mcp_step : mcp * list request -> mcp * list request -> Prop :=
  | step_enter w q hs raw session_auth nonce w' :
      perimeter hs raw session_auth w = Ret nonce w' -> mcp_step (w, q) (w', (hs, raw, session_auth) :: q)
  | step_refuse w q hs raw session_auth e w' :
      perimeter hs raw session_auth w = Raise e w' -> mcp_step (w, q) (w', q)
  | step_run w q1 q2 hs raw session_auth assess handler pgl d resp w' :
      run assess handler pgl hs raw session_auth d w = Ret resp w' ->
      mcp_step (w, q1 ++ (hs, raw, session_auth) :: q2) (w', q1 ++ q2).

(** The nonces of the handler's calls and of the waiting requests. *)
Definition in_use (x : mcp * list request) : list (option string) :=
  map (fun c => cp_nonce c.2) (ma_calls x.1) ++ map spends x.2.
Definition nonces_ok (x : mcp * list request) : Prop :=
  NoDup (in_use x) /\ forall o, o ∈ in_use x -> exists n, o = Some n /\ n ∈ ma_spent x.1.

Lemma step_nonces x x' : nonces_ok x -> mcp_step x x' -> nonces_ok x'.
Proof.
  intros [Hd Hs] Hst. destruct Hst as [w q hs raw sa nonce w' Hp|w q hs raw sa e w' Hp|w q1 q2 hs raw sa assess handler pgl d resp w' Hr].
  - destruct (perimeter_cases hs raw sa w) as [(? & ? & ? & ? & E & _)|(n & E & Hn & Hf)]; rewrite E in Hp; [done|].
    injection Hp as <- <-. unfold nonces_ok, in_use in *. cbn [fst snd ma_calls ma_spent map] in *.
    change (spends (hs, raw, sa)) with (read_nonce hs raw). rewrite Hn. split.
    + rewrite <- Permutation_middle. apply NoDup_cons. split; [|done]. intros Hin. destruct (Hs _ Hin) as (n' & [= <-] & ?). done.
    + intros o. rewrite <- Permutation_middle, elem_of_cons. intros [->|Hin]; [exists n; split; [done|set_solver]|].
      destruct (Hs o Hin) as (n' & -> & ?). exists n'. split; [done|set_solver].
  - destruct (perimeter_cases hs raw sa w) as [(? & ? & ? & w1 & E & Hc & _ & _ & Hsp)|(n & E & _)]; rewrite E in Hp; [|done].
    injection Hp as <- <-. unfold nonces_ok, in_use in *. cbn [fst snd] in *. rewrite Hc. split; [done|].
    intros o Hin. destruct (Hs o Hin) as (n' & -> & ?). exists n'. split; [done|set_solver].
  - destruct (run_cases assess handler pgl hs raw sa d w) as (resp1 & w1 & E & Hsp & Hcase). rewrite E in Hr. injection Hr as <- <-.
    unfold nonces_ok, in_use in *. cbn [fst snd] in *. rewrite Hsp. rewrite map_app in *. cbn [map] in *.
    assert (Hperm : forall l, l ++ map spends q1 ++ spends (hs, raw, sa) :: map spends q2
      ≡ₚ spends (hs, raw, sa) :: l ++ map spends q1 ++ map spends q2) by (intros l; solve_Permutation).
    rewrite (Hperm (map _ _)) in Hd. setoid_rewrite (Hperm (map _ _)) in Hs. apply NoDup_cons in Hd as [Hnew Hd].
    destruct Hcase as [[-> _]|(conn & cap & assessment & Hno & _ & _ & Hcl & _)].
    + split; [done|]. intros o Hin. apply Hs. by right.
    + destruct (Hs (spends (hs, raw, sa))) as (n & Hn & Hin); [by left|]. change (read_nonce hs raw = Some n) in Hn.
      assert (Hcp : cp_nonce cap = spends (hs, raw, sa)) by (rewrite (normalized_nonce _ _ _ _ _ _ Hno Hn); done).
      rewrite Hcl, map_app. cbn [map]. cbn [snd]. rewrite Hcp, <- app_assoc. cbn [app]. rewrite <- Permutation_middle. split; [by apply NoDup_cons|].
      intros o. rewrite <- Permutation_middle. apply Hs.
Qed.

(** A nonce drives one execution.  However requests overlap, with whatever
    handlers, assessments and sessions, no two calls of the handler have the
    same nonce. *)
Theorem mcp_nonce_executes_once w q :
  steps mcp_step (mk_mcp ∅ 0 [] [], []) (w, q) -> NoDup (map (fun c => cp_nonce c.2) (ma_calls w)).
Proof.
  intros Hst. assert (Hn : nonces_ok (w, q)).
  { eapply steps_invariant; [apply step_nonces| |exact Hst]. split; [apply NoDup_nil_2|]. intros o Ho. by apply elem_of_nil in Ho. }
  destruct Hn as [Hd _]. unfold in_use in Hd. by apply NoDup_app in Hd as [Hd _].
Qed.
End properties.
