(* ===== verification/PyFloat.v ===== *)
(** * Python floats

    IEEE binary64 through SpecFloat, executable and free of axioms: arithmetic,
    comparison, [min], [max], [round(x, 6)], and the functions of statistics
    (Python 3.11) the code calls.  [math.fsum] and [statistics.pstdev] work on
    exact values and round once; a finite double is an integer number of
    [2^-1074]. *)

From Stdlib Require Import ZArith Lia SpecFloat.
From stdpp Require Import base list strings.
From S2P Require Import Prelude.

Local Open Scope Z_scope.

Abbreviation float := spec_float.
#[export] Instance float_eq_dec : EqDecision float.
Proof. solve_decision. Defined.

Definition fadd : float -> float -> float := SFadd 53 1024.
Definition fsub : float -> float -> float := SFsub 53 1024.
Definition fmul : float -> float -> float := SFmul 53 1024.
Definition fdiv : float -> float -> float := SFdiv 53 1024.
Definition fltb : float -> float -> bool := SFltb.
Definition fleb : float -> float -> bool := SFleb.

(** [float(z)] and [n / d] on integers: the nearest double, infinite when
    Python raises [OverflowError]. *)
Definition of_Z (z : Z) : float := binary_normalize 53 1024 z 0 false.
Definition ratio (n : Z) (d : positive) : float :=
  match n with
  | Z0 => S754_zero false
  | Zpos p => fdiv (S754_finite false p 0) (S754_finite false d 0)
  | Zneg p => fdiv (S754_finite true p 0) (S754_finite false d 0)
  end.

Definition is_finite (x : float) : bool := match x with S754_zero _ | S754_finite _ _ _ => true | _ => false end.

(** [min(a, b)], and [max] of a sequence from its first element. *)
Definition fmin (a b : float) : float := if fltb b a then b else a.
Definition fmax (a b : float) : float := if fltb a b then b else a.
Definition fmax_of (dflt : float) (l : list float) : float := match l with [] => dflt | x :: l' => foldl fmax x l' end.

(** The exact value of a finite double, in units of [2^-1074]. *)
Definition unit_exp : Z := 1074.
Definition units (x : float) : Z :=
  match x with
  | S754_finite s m e => (if s then -1 else 1) * (Zpos m * 2 ^ (e + unit_exp))
  | _ => 0
  end.
Definition of_units (u : Z) : float := binary_normalize 53 1024 u (- unit_exp) false.

(** [round(x, 6)]: the nearest multiple of a millionth, ties to even, and the
    double nearest to it. *)
Definition half_even (n d : Z) : Z :=
  let q := n / d in
  match 2 * (n mod d) ?= d with Lt => q | Gt => q + 1 | Eq => if Z.even q then q else q + 1 end.
Definition round6 (x : float) : float :=
  match x with
  | S754_finite s _ _ =>
    let r := ratio (half_even (Z.abs (units x) * 10 ^ 6) (2 ^ unit_exp)) (10 ^ 6) in
    if s then SFopp r else r
  | _ => x
  end.

(** ** statistics *)

Inductive stat_exc := OverflowError | ValueError | AttributeError.

(** [math.fsum]: special values are summed apart; a partial sum out of range
    raises. *)
Fixpoint fsum_finite (acc : Z) (l : list float) : res stat_exc float :=
  match l with
  | [] => Ok (of_units acc)
  | x :: l' => let acc' := acc + units x in if is_finite (of_units acc') then fsum_finite acc' l' else Err OverflowError
  end.
Definition fsum (l : list float) : res stat_exc float :=
  match List.filter (fun x => negb (is_finite x)) l with
  | [] => fsum_finite 0 l
  | special =>
    if existsb (fun x => bool_decide (x = S754_infinity false)) special && existsb (fun x => bool_decide (x = S754_infinity true)) special
    then Err ValueError else Ok (foldl fadd (S754_zero false) special)
  end.
Definition fmean (l : list float) : res stat_exc float :=
  let? total := fsum l in Ok (fdiv total (of_Z (Z.of_nat (length l)))).

(** [_float_sqrt_of_frac]: an integer square root of 109 bits rounded to odd,
    then one division. *)
Definition bit_length (z : Z) : Z := if z =? 0 then 0 else Z.log2 z + 1.
Definition integer_sqrt_of_frac_rto (n m : Z) : Z :=
  let a := Z.sqrt (n / m) in Z.lor a (if a * a * m =? n then 0 else 1).
Definition float_sqrt_of_frac (n m : Z) : float :=
  let q := (bit_length n - bit_length m - 109) / 2 in
  if 0 <=? q then of_Z (Z.shiftl (integer_sqrt_of_frac_rto n (Z.shiftl m (2 * q))) q)
  else ratio (integer_sqrt_of_frac_rto (Z.shiftl n (-2 * q)) m) (Z.to_pos (Z.shiftl 1 (- q))).

(** The exact variance of [l] as a fraction in lowest terms. *)
Definition variance_frac (l : list float) : Z * Z :=
  let n := Z.of_nat (length l) in
  let us := map units l in
  let sx := foldr Z.add 0 us in
  let sxx := foldr Z.add 0 (map (fun u => u * u) us) in
  let num := n * sxx - sx * sx in
  let den := n * n * 2 ^ (2 * unit_exp) in
  let g := Z.gcd num den in (num / g, den / g).
Definition pstdev (l : list float) : res stat_exc float :=
  if forallb is_finite l then let nd := variance_frac l in Ok (float_sqrt_of_frac nd.1 nd.2) else Err AttributeError.

Example round6_ties : round6 (fmul (ratio 85 100) (ratio 85 100)) = ratio 7225 10000.
Proof. vm_compute. reflexivity. Qed.
Example pstdev_small : pstdev (map of_Z [2; 4; 4; 4; 5; 5; 7; 9]) = Ok (of_Z 2) /\ fmean (map of_Z [1; 2; 2]) = Ok (ratio 5 3).
Proof. vm_compute. split; reflexivity. Qed.
Example third_is_rounded : fdiv (of_Z 1) (of_Z 3) = S754_finite false 6004799503160661 (-54).
Proof. vm_compute. reflexivity. Qed.

Lemma fltb_irrefl x : fltb x x = false.
Proof.
  unfold fltb, SFltb, SFcompare. destruct x as [s|s| |s m e]; try done; destruct s; try done;
    rewrite Z.compare_refl; replace (Pos.compare_cont Eq m m) with Eq by (symmetry; apply Pos.compare_refl); done.
Qed.

(** ** The order of floats

    Apart from NaN the comparison is the lexicographic one of sign class,
    exponent and mantissa. *)
Definition sign_key (x : float) : Z :=
  match x with
  | S754_infinity true => -2 | S754_finite true _ _ => -1 | S754_zero _ | S754_nan => 0 | S754_finite false _ _ => 1
  | S754_infinity false => 2
  end.
Definition exp_key (x : float) : Z := match x with S754_finite s _ e => if s then - e else e | _ => 0 end.
Definition mant_key (x : float) : Z := match x with S754_finite s m _ => if s then Zneg m else Zpos m | _ => 0 end.
Definition le_key (x y : float) : Prop :=
  sign_key x < sign_key y
  \/ sign_key x = sign_key y /\ (exp_key x < exp_key y \/ exp_key x = exp_key y /\ mant_key x <= mant_key y).

Lemma compare_key x y :
  x <> S754_nan -> y <> S754_nan ->
  exists c, SFcompare x y = Some c /\ match c with Gt => ~ le_key x y | Eq => le_key x y /\ le_key y x | Lt => le_key x y /\ ~ le_key y x end.
Proof.
  intros Hx Hy. unfold SFcompare, le_key.
  destruct x as [s|s| |s m e], y as [s'|s'| |s' m' e']; try done; try destruct s; try destruct s'; (eexists; split; [reflexivity|]);
    cbn [sign_key exp_key mant_key]; try lia;
    destruct (Z.compare_spec e e'); try lia; change (Pos.compare_cont Eq m m') with (Pos.compare m m');
    destruct (Pos.compare_spec m m'); cbn [CompOpp]; lia.
Qed.

Lemma fleb_key x y : x <> S754_nan -> y <> S754_nan -> fleb x y = true <-> le_key x y.
Proof.
  intros Hx Hy. destruct (compare_key x y Hx Hy) as (c & Ec & Hc). unfold fleb, SFleb. rewrite Ec. destruct c; intuition done.
Qed.

Lemma fltb_key x y : x <> S754_nan -> y <> S754_nan -> fltb x y = true <-> ~ le_key y x.
Proof.
  intros Hx Hy. destruct (compare_key x y Hx Hy) as (c & Ec & Hc). unfold fltb, SFltb. rewrite Ec.
  unfold le_key in *. destruct c; (split; [intros; try done|intros; try done]); lia.
Qed.

Lemma fleb_nan_r x : fleb x S754_nan = false.
Proof. unfold fleb, SFleb, SFcompare. by destruct x. Qed.

(** A bound on the larger is a bound on both. *)
Lemma fmax_le a b t : a <> S754_nan -> b <> S754_nan -> fleb (fmax a b) t = fleb a t && fleb b t.
Proof.
  intros Ha Hb. destruct (decide (t = S754_nan)) as [->|Ht]; [by rewrite !fleb_nan_r|]. apply eq_true_iff_eq. rewrite andb_true_iff.
  unfold fmax. destruct (fltb a b) eqn:E; [apply fltb_key in E; [|done..]|apply not_true_iff_false in E; rewrite fltb_key in E by done];
    rewrite !fleb_key by done; unfold le_key in *; lia.
Qed.

Lemma fmax_not_nan a b : a <> S754_nan -> b <> S754_nan -> fmax a b <> S754_nan.
Proof. unfold fmax. by destruct (fltb a b). Qed.

Lemma fmax_of_le d l t :
  Forall (fun x => x <> S754_nan) l -> fleb (fmax_of d l) t = match l with [] => fleb d t | _ => forallb (fun x => fleb x t) l end.
Proof.
  destruct l as [|x l]; [done|]. intros [Hx Hl]%Forall_cons. unfold fmax_of. cbn [forallb]. revert x Hx.
  induction l as [|y l IH]; intros x Hx; cbn [foldl forallb]; [by rewrite andb_true_r|].
  apply Forall_cons in Hl as [Hy Hl]. rewrite IH by auto using fmax_not_nan. rewrite fmax_le by done. by rewrite andb_assoc.
Qed.
