(* ===== verification/Safety.v ===== *)
(** * The safety layer (services/safety.py)

    Behavioural baselines over rolling observations, anomaly detection by
    deviation from a baseline, and the quarantine of suspicious requests
    until a quorum approves, someone denies or the deadline passes; then what
    an approval of the queue means.

    Times are microseconds, floats are binary64, drawn ids and clock readings
    are arguments; [repr_float] prints a float as [str] does. *)

From Stdlib Require Import ZArith Lia Ascii String SpecFloat.
From stdpp Require Import base gmap strings list pretty sorting.
From S2P Require Import Prelude Canon PyJson Identity PyFloat.

Local Open Scope Z_scope.

Inductive Severity := low | medium | high | critical.
Inductive RecommendedAction := log | alert | quarantine_it | block.
Inductive QuarantineStatus := quarantined | approved | denied | auto_released.
#[export] Instance severity_eq_dec : EqDecision Severity.
Proof. solve_decision. Defined.
#[export] Instance action_eq_dec : EqDecision RecommendedAction.
Proof. solve_decision. Defined.
#[export] Instance qstatus_eq_dec : EqDecision QuarantineStatus.
Proof. solve_decision. Defined.

Definition action_name (a : RecommendedAction) : string :=
  match a with log => "log" | alert => "alert" | quarantine_it => "quarantine" | block => "block" end.

Definition ANOMALY_THRESHOLD_SIGMA : float := of_Z 2.
Definition BASELINE_MIN_OBSERVATIONS : nat := 10.
Definition BASELINE_LOCK_OBSERVATIONS : nat := 30.
Definition BASELINE_WINDOW_DAYS : Z := 30.
Definition DEFAULT_APPROVERS_REQUIRED : nat := 2.
Definition QUARANTINE_HOLD_SECONDS : Z := 60 * 60.
Definition APPROVER_MIN_TRUST : float := of_Z 80.

Definition us_day : Z := 86400 * 1000000.
(** [t.astimezone(timezone.utc).hour]. *)
Definition hour_of (t : Z) : Z := (t / (3600 * 1000000)) mod 24.

Record Observation := mk_observation {
  ob_timestamp : Z; ob_requests_in_window : Z; ob_failure_rate : float; ob_capabilities_used : list string;
  ob_error_type : option string }.

Record BehavioralBaseline := mk_baseline {
  bl_observation_window_days : Z; bl_avg_requests : float; bl_std_requests : float; bl_avg_failures : float;
  bl_std_failures : float; bl_typical_capabilities : gmap string Z; bl_typical_time_windows : list Z;
  bl_typical_error_types : gmap string Z; bl_confidence_score : float; bl_last_updated : Z; bl_is_locked : bool }.

Record CurrentMetric := mk_metric {
  cm_requests_per_hour : float; cm_failure_rate : float; cm_time_of_day : Z; cm_new_capabilities : list string }.

Record AnomalyDetection := mk_anomaly {
  an_detection_id : string; an_agent_id : string; an_detected_at : Z; an_type : string; an_deviation_score : float;
  an_anomaly_score : float; an_severity : Severity; an_action : RecommendedAction; an_evidence_hash : string }.

Record QuarantinedRequest := mk_quarantined {
  qr_original_request : json; qr_original_timestamp : Z; qr_reason : string; qr_anomalies : list AnomalyDetection;
  qr_approval_required : bool; qr_approvers_required : nat; qr_approval_deadline : Z; qr_approvals_received : list string;
  qr_trust_suppression : bool * float; qr_status : QuarantineStatus; qr_resolution : option (Z * string) }.

(** A dict that keeps the order of its first insertions. *)
Fixpoint put {A} (k : string) (v : A) (l : list (string * A)) : list (string * A) :=
  match l with
  | [] => [(k, v)]
  | kv :: l' => if str_eqb kv.1 k then (k, v) :: l' else kv :: put k v l'
  end.

(** ** Baselines *)

Record baselines := mk_baselines { bs_observations : gmap string (list Observation); bs_baselines : gmap string BehavioralBaseline }.

Definition record_observation (agent_id : string) (o : Observation) (now : Z) (s : baselines) : baselines :=
  let obs := default [] (bs_observations s !! agent_id) ++ [o] in
  let cutoff := now - BASELINE_WINDOW_DAYS * us_day in
  mk_baselines (<[agent_id := List.filter (fun o => cutoff <? ob_timestamp o) obs]> (bs_observations s)) (bs_baselines s).

Definition bump (m : gmap string Z) (k : string) : gmap string Z := <[k := default 0 (m !! k) + 1]> m.
Definition capability_counts (obs : list Observation) : gmap string Z := foldl bump ∅ (concat (map ob_capabilities_used obs)).
Definition error_counts (obs : list Observation) : gmap string Z :=
  foldl (fun m o => match ob_error_type o with Some e => if str_eqb e "" then m else bump m e | None => m end) ∅ obs.
Definition active_hours (obs : list Observation) : list Z :=
  merge_sort Z.le (elements (list_to_set (map (fun o => hour_of (ob_timestamp o)) obs) : gset Z)).

Definition empty_baseline (now : Z) : BehavioralBaseline :=
  let zero := S754_zero false in mk_baseline 0 zero zero zero zero ∅ [] ∅ zero now false.

(** [float(o.requests_in_window)]. *)
Definition float_of_int (z : Z) : res stat_exc float := if is_finite (of_Z z) then Ok (of_Z z) else Err OverflowError.
Fixpoint floats_of_ints (l : list Z) : res stat_exc (list float) :=
  match l with
  | [] => Ok []
  | z :: l' => let? x := float_of_int z in let? xs := floats_of_ints l' in Ok (x :: xs)
  end.

Definition build_baseline (agent_id : string) (now : Z) (s : baselines) : res stat_exc (BehavioralBaseline * baselines) :=
  let obs := default [] (bs_observations s !! agent_id) in
  let store b := Ok (b, mk_baselines (bs_observations s) (<[agent_id := b]> (bs_baselines s))) in
  if (length obs <? BASELINE_MIN_OBSERVATIONS)%nat then store (empty_baseline now)
  else
    let? requests := floats_of_ints (map ob_requests_in_window obs) in
    let failures := map ob_failure_rate obs in
    let? avg_requests := fmean requests in
    let? std_requests := pstdev requests in
    let? avg_failures := fmean failures in
    let? std_failures := pstdev failures in
    let n := Z.of_nat (length obs) in
    store (mk_baseline BASELINE_WINDOW_DAYS avg_requests std_requests avg_failures std_failures (capability_counts obs)
             (active_hours obs) (error_counts obs) (fmin (of_Z 100) (fmul (fdiv (of_Z n) (of_Z 100)) (of_Z 100))) now
             (BASELINE_LOCK_OBSERVATIONS <=? length obs)%nat).

Definition lock_baseline (agent_id : string) (s : baselines) : baselines :=
  match bs_baselines s !! agent_id with
  | Some b =>
    mk_baselines (bs_observations s)
      (<[agent_id := mk_baseline (bl_observation_window_days b) (bl_avg_requests b) (bl_std_requests b) (bl_avg_failures b)
                       (bl_std_failures b) (bl_typical_capabilities b) (bl_typical_time_windows b) (bl_typical_error_types b)
                       (bl_confidence_score b) (bl_last_updated b) true]> (bs_baselines s))
  | None => s
  end.

(** ** Anomalies *)

(** The id and the clock of the k-th anomaly of a detection. *)
Record detect_draws := mk_detect_draws { dd_id : nat -> string; dd_now : nat -> Z }.

Section safety.
Context `{EiWorld} (repr_float : float -> string).

Definition severity_of (score : float) : Severity * RecommendedAction :=
  if fltb (of_Z 80) score then (critical, block)
  else if fltb (of_Z 60) score then (high, quarantine_it)
  else if fltb (of_Z 40) score then (medium, quarantine_it)
  else (low, log).

Definition make (id : string) (now : Z) (agent_id anomaly_type : string) (deviation : float) : AnomalyDetection :=
  let score := fmin (of_Z 100) (fmul deviation (of_Z 25)) in
  mk_anomaly id agent_id now anomaly_type deviation score (severity_of score).1 (severity_of score).2
    (sha256_json (JObj [("agent_id", JStr agent_id); ("anomaly_type", JStr anomaly_type); ("ts", JStr (iso now))])).

(** The deviation of [x] in standard deviations, if it is beyond the threshold. *)
Definition spike (x avg std : float) : option float :=
  if fltb (S754_zero false) std then
    let dev := SFabs (fdiv (fsub x avg) std) in
    if fltb ANOMALY_THRESHOLD_SIGMA dev then Some dev else None
  else None.

(** What [detect] finds, as types and deviations in the order of the checks. *)
Definition findings (b : BehavioralBaseline) (m : CurrentMetric) : list (string * float) :=
  match spike (cm_requests_per_hour m) (bl_avg_requests b) (bl_std_requests b) with Some d => [("request_spike", d)] | None => [] end
  ++ match spike (cm_failure_rate m) (bl_avg_failures b) (bl_std_failures b) with Some d => [("failure_spike", d)] | None => [] end
  ++ (if existsb (fun c => bool_decide (bl_typical_capabilities b !! c = None)) (cm_new_capabilities m)
      then [("new_capability_access", of_Z 3)] else [])
  ++ (if negb (bool_decide (bl_typical_time_windows b = [])) && negb (bool_decide (cm_time_of_day m ∈ bl_typical_time_windows b))
      then [("off_hours_activity", ratio 5 2)] else []).

Definition detect (agent_id : string) (m : CurrentMetric) (s : baselines) (d : detect_draws) : list AnomalyDetection :=
  match bs_baselines s !! agent_id with
  | Some b =>
    if fltb (bl_confidence_score b) (of_Z 50) then []
    else imap (fun k f => make (dd_id d k) (dd_now d k) agent_id f.1 f.2) (findings b m)
  | None => []
  end.

Definition for_agent (agent_id : string) (anomalies : list AnomalyDetection) : list AnomalyDetection :=
  List.filter (fun a => str_eqb (an_agent_id a) agent_id) anomalies.

(** ** Quarantine *)

Record quarantine_service := mk_quarantine_service {
  qs_quarantined : list (string * QuarantinedRequest); qs_approvers_required : nat; qs_hold_seconds : Z }.
Definition fresh_quarantine : quarantine_service := mk_quarantine_service [] DEFAULT_APPROVERS_REQUIRED QUARANTINE_HOLD_SECONDS.
Definition with_table (q : quarantine_service) (t : list (string * QuarantinedRequest)) : quarantine_service :=
  mk_quarantine_service t (qs_approvers_required q) (qs_hold_seconds q).

Definition needs_approval (anomalies : list AnomalyDetection) : bool :=
  existsb (fun a => bool_decide (an_severity a = high) || bool_decide (an_severity a = critical)) anomalies.

(** [now1] and [now2] are the readings for the timestamp and for the deadline. *)
Definition quarantine (id : string) (request : json) (anomalies : list AnomalyDetection) (suppression : option (bool * float))
    (now1 now2 : Z) (q : quarantine_service) : QuarantinedRequest * quarantine_service :=
  let qr := mk_quarantined request now1 ("Anomalies detected: " +:+ String.concat ", " (map an_type anomalies)) anomalies
              (needs_approval anomalies) (qs_approvers_required q) (now2 + qs_hold_seconds q * 1000000) []
              (default (false, S754_zero false) suppression) quarantined None in
  (qr, with_table q (put id qr (qs_quarantined q))).

Definition resolve (qr : QuarantinedRequest) (approvals : list string) (status : QuarantineStatus) (r : option (Z * string)) :
    QuarantinedRequest :=
  mk_quarantined (qr_original_request qr) (qr_original_timestamp qr) (qr_reason qr) (qr_anomalies qr) (qr_approval_required qr)
    (qr_approvers_required qr) (qr_approval_deadline qr) approvals (qr_trust_suppression qr) status r.

Definition approve (id approver_id : string) (approver_trust : float) (now : Z) : eff string quarantine_service bool := fun q =>
  match assoc id (qs_quarantined q) with
  | Some qr =>
    if negb (bool_decide (qr_status qr = quarantined)) then Ret false q
    else if fltb approver_trust APPROVER_MIN_TRUST
    then Raise ("approver " +:+ approver_id +:+ " trust " +:+ repr_float approver_trust +:+ " < " +:+ repr_float APPROVER_MIN_TRUST) q
    else
      let received := if bool_decide (approver_id ∈ qr_approvals_received qr) then qr_approvals_received qr
                      else qr_approvals_received qr ++ [approver_id] in
      if qr_approval_required qr && (qr_approvers_required qr <=? length received)%nat
      then Ret true (with_table q (put id (resolve qr received approved (Some (now, "Quorum of approvers reached"))) (qs_quarantined q)))
      else Ret false (with_table q (put id (resolve qr received (qr_status qr) (qr_resolution qr)) (qs_quarantined q)))
  | None => Ret false q
  end.

Definition deny (id reason : string) (now : Z) (q : quarantine_service) : bool * quarantine_service :=
  match assoc id (qs_quarantined q) with
  | Some qr => (true, with_table q (put id (resolve qr (qr_approvals_received qr) denied (Some (now, reason))) (qs_quarantined q)))
  | None => (false, q)
  end.

Definition expired (now : Z) (qr : QuarantinedRequest) : bool :=
  bool_decide (qr_status qr = quarantined) && (qr_approval_deadline qr <? now).
Definition expire (now : Z) (qr : QuarantinedRequest) : QuarantinedRequest :=
  if expired now qr then resolve qr (qr_approvals_received qr) denied (Some (now, "Approval deadline expired")) else qr.
Definition process_expired (now : Z) (q : quarantine_service) : list QuarantinedRequest * quarantine_service :=
  (map (expire now) (List.filter (expired now) (map snd (qs_quarantined q))),
   with_table q (map (fun kv => (kv.1, expire now kv.2)) (qs_quarantined q))).

(** ** What an approval means *)

Lemma assoc_put {A} k k' (v : A) l : assoc k' (put k v l) = if str_eqb k k' then Some v else assoc k' l.
Proof.
  induction l as [|[k1 v1] l IH]; simpl; [done|]. destruct (str_eqb k1 k) eqn:E; simpl.
  - apply str_eqb_spec in E as ->. by destruct (str_eqb k k').
  - rewrite IH. destruct (str_eqb k1 k') eqn:E1; [|done]. apply str_eqb_spec in E1 as ->.
    destruct (str_eqb k k') eqn:E2; [|done]. apply str_eqb_spec in E2 as ->. by rewrite str_eqb_refl in E.
Qed.

Lemma assoc_map {A B} (f : A -> B) k l : assoc k (map (fun kv => (kv.1, f kv.2)) l) = f <$> assoc k l.
Proof. induction l as [|[k1 v1] l IH]; simpl; [done|]. by destruct (str_eqb k1 k). Qed.

(** The queue and the approvals that were sent to it. *)
Definition qlog : Type := list (string * string * float).

Inductive qstep : quarantine_service * qlog -> quarantine_service * qlog -> Prop :=
  | step_quarantine q l id request anomalies suppression now1 now2 :
      assoc id (qs_quarantined q) = None ->
      qstep (q, l) ((quarantine id request anomalies suppression now1 now2 q).2, l)
  | step_approve q l id approver trust now :
      qstep (q, l) (oworld (approve id approver trust now q), l ++ [(id, approver, trust)])
  | step_deny q l id reason now : qstep (q, l) ((deny id reason now q).2, l)
  | step_expire q l now : qstep (q, l) ((process_expired now q).2, l).

(** An entry of the queue, given the approvals sent so far. *)
Record entry_ok (l : qlog) (id : string) (qr : QuarantinedRequest) : Prop := mk_entry_ok {
  eo_required : qr_approval_required qr = needs_approval (qr_anomalies qr);
  eo_distinct : NoDup (qr_approvals_received qr);
  eo_sent : forall a, a ∈ qr_approvals_received qr -> exists t, (id, a, t) ∈ l /\ fltb t APPROVER_MIN_TRUST = false;
  eo_quorum : qr_status qr = approved ->
    qr_approval_required qr = true /\ (qr_approvers_required qr <= length (qr_approvals_received qr))%nat }.

(** How one step changes an entry: it appears, gains an approver that was not
    there, is denied, or stays. *)
Inductive entry_step (l l' : qlog) (id : string) : option QuarantinedRequest -> option QuarantinedRequest -> Prop :=
  | entry_same o : entry_step l l' id o o
  | entry_new q request anomalies suppression now1 now2 :
      entry_step l l' id None (Some (quarantine id request anomalies suppression now1 now2 q).1)
  | entry_approved qr received st r a t :
      qr_status qr = quarantined -> (id, a, t) ∈ l' -> fltb t APPROVER_MIN_TRUST = false ->
      received = (if bool_decide (a ∈ qr_approvals_received qr) then qr_approvals_received qr else qr_approvals_received qr ++ [a]) ->
      st = (if qr_approval_required qr && (qr_approvers_required qr <=? length received)%nat then approved else quarantined) ->
      entry_step l l' id (Some qr) (Some (resolve qr received st r))
  | entry_denied qr r : entry_step l l' id (Some qr) (Some (resolve qr (qr_approvals_received qr) denied r)).

Lemma qstep_entry x x' id :
  qstep x x' -> entry_step x.2 x'.2 id (assoc id (qs_quarantined x.1)) (assoc id (qs_quarantined x'.1)) /\ extends x.2 x'.2.
Proof.
  intros Hst. destruct Hst as [q l i request an sup n1 n2 Hf|q l i a t now|q l i r now|q l now]; cbn [fst snd]; (split; [|eauto with cappo]).
  - simpl. rewrite assoc_put. destruct (str_eqb i id) eqn:E; [|constructor]. apply str_eqb_spec in E as ->. rewrite Hf.
    apply (entry_new l l id q).
  - unfold approve. destruct (assoc i (qs_quarantined q)) as [qr|] eqn:Eq; [|constructor].
    case_bool_decide as Es; cbn [negb]; [|constructor]. destruct (fltb t APPROVER_MIN_TRUST) eqn:Et; [constructor|]. cbv zeta.
    set (received := if bool_decide _ then _ else _).
    destruct (qr_approval_required qr && _) eqn:Ea; simpl; rewrite assoc_put; (destruct (str_eqb i id) eqn:E; [|constructor]);
      apply str_eqb_spec in E as ->; rewrite Eq; apply (entry_approved _ _ _ _ _ _ _ a t); try done;
      try (apply elem_of_app; right; apply list_elem_of_singleton; reflexivity); by fold received; rewrite Ea.
  - unfold deny. destruct (assoc i (qs_quarantined q)) as [qr|] eqn:Eq; [|constructor]. simpl. rewrite assoc_put.
    destruct (str_eqb i id) eqn:E; [|constructor]. apply str_eqb_spec in E as ->. rewrite Eq. constructor.
  - simpl. rewrite assoc_map. destruct (assoc id (qs_quarantined q)) as [qr|]; simpl; [|constructor].
    unfold expire. destruct (expired now qr); constructor.
Qed.

Lemma entry_step_ok l l' id o o' qr' :
  entry_step l l' id o o' -> extends l l' -> (forall qr, o = Some qr -> entry_ok l id qr) -> o' = Some qr' -> entry_ok l' id qr'.
Proof.
  intros Hst [z ->] Ho Eo.
  assert (Hmono : forall qr, entry_ok l id qr -> entry_ok (l ++ z) id qr).
  { intros qr [H1 H2 H3 H4]. split; try done. intros a Ha. destruct (H3 a Ha) as (t & ? & ?). exists t. split; [|done].
    apply elem_of_app. by left. }
  destruct Hst as [o|q request an sup n1 n2|qr received st r a t Hq Hin Ht -> ->|qr r]; [by apply Hmono, Ho|..]; injection Eo as <-.
  - split; simpl; try done; [apply NoDup_nil_2|]. intros a Ha. by apply elem_of_nil in Ha.
  - destruct (Hmono qr (Ho qr eq_refl)) as [H1 H2 H3 H4]. unfold resolve. set (received := if bool_decide _ then _ else _).
    assert (Hr : NoDup received /\ forall b, b ∈ received -> b = a \/ b ∈ qr_approvals_received qr).
    { unfold received. case_bool_decide as Ha; [by auto|]. split.
      - apply NoDup_app. split_and!; [done| |apply NoDup_singleton]. intros x Hx ->%list_elem_of_singleton. done.
      - intros b [Hb|Hb%list_elem_of_singleton]%elem_of_app; auto. }
    destruct Hr as [Hnd Hall]. split; simpl; [done|done|..].
    + intros b Hb. destruct (Hall b Hb) as [->|Hb']; [by exists t|by apply H3].
    + destruct (qr_approval_required qr && _) eqn:Ea; [|done]. apply andb_true_iff in Ea as [-> Hle%Nat.leb_le]. done.
  - destruct (Hmono qr (Ho qr eq_refl)) as [H1 H2 H3 H4]. by split.
Qed.

Lemma queue_ok x q l : steps qstep x (q, l) -> (forall id qr, assoc id (qs_quarantined x.1) = Some qr -> entry_ok x.2 id qr) ->
  forall id qr, assoc id (qs_quarantined q) = Some qr -> entry_ok l id qr.
Proof.
  intros Hst Hstart. pose (I := fun y : quarantine_service * qlog => forall id qr, assoc id (qs_quarantined y.1) = Some qr -> entry_ok y.2 id qr).
  apply (steps_invariant qstep I x (q, l)); [|done|done].
  intros a b Ha Hab id qr Hq. destruct (qstep_entry _ _ id Hab) as [He Hx]. eapply entry_step_ok; [exact He|exact Hx|apply Ha|exact Hq].
Qed.

(** C15: an approved request had its quorum.  Whatever is quarantined, approved,
    denied and expired in whatever order, a request in the queue is approved
    only if one of its anomalies was of high or critical severity and at least
    the required number of distinct approvers, each sending an approval of
    this request with a trust not below eighty, were recorded; and a denial is
    final. *)
Theorem quarantine_quorum q l id qr :
  steps qstep (fresh_quarantine, []) (q, l) -> assoc id (qs_quarantined q) = Some qr ->
  (qr_status qr = approved ->
     (exists a, a ∈ qr_anomalies qr /\ (an_severity a = high \/ an_severity a = critical))
     /\ NoDup (qr_approvals_received qr) /\ (qr_approvers_required qr <= length (qr_approvals_received qr))%nat
     /\ forall a, a ∈ qr_approvals_received qr -> exists t, (id, a, t) ∈ l /\ fltb t APPROVER_MIN_TRUST = false)
  /\ (qr_status qr = denied -> forall q' l', steps qstep (q, l) (q', l') ->
        exists qr', assoc id (qs_quarantined q') = Some qr' /\ qr_status qr' = denied).
Proof.
  intros Hst Hq. split.
  - intros Hs. destruct (queue_ok _ _ _ Hst ltac:(done) id qr Hq) as [H1 H2 H3 H4]. destruct (H4 Hs) as [Hr Hn]. rewrite H1 in Hr.
    split_and!; [|done..]. unfold needs_approval in Hr. apply existsb_exists in Hr as (a & Ha & Hsev). exists a.
    split; [by apply list_elem_of_In|]. apply orb_true_iff in Hsev as [E%bool_decide_eq_true|E%bool_decide_eq_true]; auto.
  - intros Hd q' l' Hst'. pose (I := fun y : quarantine_service * qlog => exists qr', assoc id (qs_quarantined y.1) = Some qr' /\ qr_status qr' = denied).
    apply (steps_invariant qstep I (q, l) (q', l')); [|by exists qr|done].
    intros a b (qa & Ha & Hda) Hab. destruct (qstep_entry _ _ id Hab) as [He _]. rewrite Ha in He.
    inversion He as [o E1 E2|? ? ? ? ? ? E1|qr0 ? ? ? ? ? Hs ? ? ? ? E1 E2|qr0 ? E1 E2]; subst; unfold I.
    + by exists qa.
    + congruence.
    + by eexists.
Qed.
End safety.
