(* ===== verification/Governance.v ===== *)
(** * The intelligence and governance layers (services/intelligence.py,
    services/governance.py, the states of services/promotion_compiler.py)

    Cost buckets, risk profiles and the correlation of anomaly signals; the
    composition of system, owner and runtime policies, time windows, delegation
    chains and effective permissions. *)

From Stdlib Require Import ZArith Lia Ascii String SpecFloat.
From stdpp Require Import base gmap strings list pretty sorting.
From S2P Require Import Prelude Canon PyJson Identity PyFloat Safety.

Local Open Scope Z_scope.

(** ** Costs *)

Inductive OveragePolicy := overage_deny | overage_escalate | auto_approve_charge.
Inductive CostAction := cost_allowed | cost_escalated | cost_denied | auto_charged.
#[export] Instance cost_action_eq_dec : EqDecision CostAction.
Proof. solve_decision. Defined.
Definition cost_action_name (a : CostAction) : string :=
  match a with cost_allowed => "allowed" | cost_escalated => "escalated" | cost_denied => "denied" | auto_charged => "auto_charged" end.

Record cost_bucket := mk_bucket { bu_used : float; bu_budget : float }.
Record CostAllocationRecord := mk_cost_record {
  cr_record_id : string; cr_agent_id : string; cr_capability_id : string; cr_timestamp : Z; cr_cost : float; cr_budget_before : float;
  cr_budget_after : float; cr_budget_exceeded : bool; cr_action_taken : CostAction; cr_evidence_hash : string }.
Record cost_service := mk_costs { co_budgets : gmap (string * string) cost_bucket; co_records : list CostAllocationRecord }.

Definition zero : float := S754_zero false.
Definition bucket_of (s : cost_service) (k : string * string) : cost_bucket := default (mk_bucket zero zero) (co_budgets s !! k).

Definition set_cost_budget (agent_id capability_id : string) (budget : float) (s : cost_service) : cost_service :=
  let k := (agent_id, capability_id) in
  mk_costs (<[k := mk_bucket (bu_used (bucket_of s k)) budget]> (co_budgets s)) (co_records s).

Definition remaining (agent_id capability_id : string) (s : cost_service) : float :=
  match co_budgets s !! (agent_id, capability_id) with Some b => fsub (bu_budget b) (bu_used b) | None => zero end.

Definition cost_action (exceeded : bool) (overage : OveragePolicy) : CostAction :=
  if exceeded then match overage with overage_deny => cost_denied | overage_escalate => cost_escalated | auto_approve_charge => auto_charged end
  else cost_allowed.
Definition charges (a : CostAction) : bool := match a with cost_allowed | auto_charged => true | _ => false end.

Section layers.
Context `{EiWorld} (repr_float : float -> string).
Definition jfloat (x : float) : json := JFloat (repr_float x).

Definition record_cost (agent_id capability_id : string) (cost : float) (overage : OveragePolicy) (id : string) (now : Z)
    (s : cost_service) : CostAllocationRecord * cost_service :=
  let k := (agent_id, capability_id) in
  let b := bucket_of s k in
  let exceeded := fltb (bu_budget b) (fadd (bu_used b) cost) in
  let action := cost_action exceeded overage in
  let used := if charges action then fadd (bu_used b) cost else bu_used b in
  let r := mk_cost_record id agent_id capability_id now cost (fsub (bu_budget b) (bu_used b)) (fsub (bu_budget b) used) exceeded action
             (sha256_json (JObj [("agent", JStr agent_id); ("cap", JStr capability_id); ("cost", jfloat cost);
                                 ("action", JStr (cost_action_name action))])) in
  (r, mk_costs (<[k := mk_bucket used (bu_budget b)]> (co_budgets s)) (co_records s ++ [r])).

(** [sum] starts from the integer 0. *)
Definition total_cost (agent_id : string) (s : cost_service) : float :=
  foldl fadd zero (map cr_cost (List.filter (fun r => str_eqb (cr_agent_id r) agent_id && negb (bool_decide (cr_action_taken r = cost_denied)))
                                  (co_records s))).

(** ** Risk *)

Inductive ThreatLevel := green | yellow | orange | red.
Definition threat_name (t : ThreatLevel) : string :=
  match t with green => "green" | yellow => "yellow" | orange => "orange" | red => "red" end.

Record RiskFactorInputs := mk_risk_inputs {
  ri_trust_score : float; ri_anomaly_score : float; ri_cost_anomaly_score : float; ri_significant_behavioral_change : bool;
  ri_high_failure_rate : bool; ri_policy_violations : Z }.
Record RiskFactor := mk_risk_factor { rf_name : string; rf_contribution : float; rf_severity : Severity; rf_mitigations : list string }.
Record RiskProfile := mk_risk_profile {
  rp_overall_risk_score : float; rp_risk_factors : list RiskFactor; rp_threat_level : ThreatLevel; rp_last_assessed : Z;
  rp_recommended_actions : list string; rp_evidence_hash : string }.

Definition RECOMMENDATIONS (t : ThreatLevel) : list string :=
  match t with
  | green => ["Continue normal monitoring"]
  | yellow => ["Increase audit logging"; "Monitor for further anomalies"]
  | orange => ["Require approval for sensitive capabilities"; "Apply temporary trust suppression"; "Alert security team"]
  | red => ["Quarantine agent requests"; "Require M-of-N approval quorum"; "Escalate to incident response"]
  end.

Definition threat_level (score : float) : ThreatLevel :=
  if fltb score (of_Z 30) then green else if fltb score (of_Z 50) then yellow else if fltb score (of_Z 75) then orange else red.

Definition risk_factors (f : RiskFactorInputs) : list RiskFactor :=
  (if fltb (ri_trust_score f) (of_Z 50)
   then [mk_risk_factor "Low trust score" (of_Z 20) (if fltb (ri_trust_score f) (of_Z 30) then critical else high)
           ["Re-verify agent identity"; "Restrict capabilities"]] else [])
  ++ (if fltb (of_Z 50) (ri_anomaly_score f)
      then [mk_risk_factor "Behavioral anomalies" (of_Z 25) (if fltb (of_Z 80) (ri_anomaly_score f) then critical else high)
              ["Quarantine suspicious requests"]] else [])
  ++ (if fltb (of_Z 50) (ri_cost_anomaly_score f)
      then [mk_risk_factor "Unusual cost pattern" (of_Z 15) (if fltb (of_Z 75) (ri_cost_anomaly_score f) then high else medium)
              ["Review spend"; "Apply budget caps"]] else [])
  ++ (if ri_significant_behavioral_change f then [mk_risk_factor "Significant behavioral change" (of_Z 20) high []] else [])
  ++ (if ri_high_failure_rate f then [mk_risk_factor "High failure rate" (of_Z 10) medium []] else [])
  ++ (if 0 <? ri_policy_violations f then [mk_risk_factor "Multiple policy violations" (of_Z 20) critical []] else []).

Definition overall_risk (f : RiskFactorInputs) : float :=
  fmin (of_Z 100) (foldl fadd zero (map rf_contribution (risk_factors f))).

(** The score in JSON: without factors the sum, and so the minimum, is the
    integer 0. *)
Definition overall_json (f : RiskFactorInputs) : json := match risk_factors f with [] => JInt 0 | _ => jfloat (overall_risk f) end.

Definition risk_assess (agent_id : string) (f : RiskFactorInputs) (now : Z) (profiles : gmap string RiskProfile) :
    RiskProfile * gmap string RiskProfile :=
  let overall := overall_risk f in
  let threat := threat_level overall in
  let p := mk_risk_profile overall (risk_factors f) threat now (RECOMMENDATIONS threat)
             (sha256_json (JObj [("agent", JStr agent_id); ("score", overall_json f); ("threat", JStr (threat_name threat))])) in
  (p, <[agent_id := p]> profiles).

Definition needs_intervention (agent_id : string) (profiles : gmap string RiskProfile) : bool :=
  match profiles !! agent_id with
  | Some p => match rp_threat_level p with orange | red => true | _ => false end
  | None => false
  end.

(** ** Correlation *)

Record AnomalySignal := mk_signal { as_agent_id : string; as_type : string; as_severity : Severity; as_detected_at : Z }.
Record correlation_service := mk_correlation { cs_signals : list AnomalySignal; cs_window_seconds : Z; cs_threshold : nat }.
Record CorrelationAnalysis := mk_analysis {
  ca_signal_count : nat; ca_distinct_types : list string; ca_correlated : bool; ca_severity : Severity; ca_evidence_hash : string }.
Definition fresh_correlation : correlation_service := mk_correlation [] 300 3.

Definition record_signal (sg : AnomalySignal) (s : correlation_service) : correlation_service :=
  mk_correlation (cs_signals s ++ [sg]) (cs_window_seconds s) (cs_threshold s).

Definition relevant_signals (agent_id : string) (at_ : Z) (s : correlation_service) : list AnomalySignal :=
  List.filter (fun sg => str_eqb (as_agent_id sg) agent_id && (at_ - cs_window_seconds s * 1000000 <=? as_detected_at sg)
                         && (as_detected_at sg <=? at_)) (cs_signals s).

Definition correlate (agent_id : string) (at_ : Z) (s : correlation_service) : CorrelationAnalysis :=
  let relevant := relevant_signals agent_id at_ s in
  let distinct := merge_sort String.le (elements (list_to_set (map as_type relevant) : gset string)) in
  let correlated := (cs_threshold s <=? length relevant)%nat in
  let severity := if existsb (fun sg => bool_decide (as_severity sg = critical)) relevant then critical
                  else if correlated then high else if (2 <=? length relevant)%nat then medium else low in
  mk_analysis (length relevant) distinct correlated severity
    (sha256_json (JObj [("agent", JStr agent_id); ("count", JInt (Z.of_nat (length relevant))); ("types", JArr (map JStr distinct))])).

(** ** Policies *)

Inductive Effect := allow_effect | deny_effect.
#[export] Instance effect_eq_dec : EqDecision Effect.
Proof. solve_decision. Defined.

Inductive MaturityState :=
  | DESIGN_INTENT | IMPLEMENTED_UNVERIFIED | LOCALLY_VERIFIED | INTEGRATION_VERIFIED | PRODUCTION_CANDIDATE | AUTHORIZED_FOR_PRODUCTION.
Definition maturity_value (m : MaturityState) : Z :=
  match m with
  | DESIGN_INTENT => 0 | IMPLEMENTED_UNVERIFIED => 1 | LOCALLY_VERIFIED => 2 | INTEGRATION_VERIFIED => 3
  | PRODUCTION_CANDIDATE => 4 | AUTHORIZED_FOR_PRODUCTION => 5
  end.
Definition maturity_name (m : MaturityState) : string :=
  match m with
  | DESIGN_INTENT => "DESIGN_INTENT" | IMPLEMENTED_UNVERIFIED => "IMPLEMENTED_UNVERIFIED" | LOCALLY_VERIFIED => "LOCALLY_VERIFIED"
  | INTEGRATION_VERIFIED => "INTEGRATION_VERIFIED" | PRODUCTION_CANDIDATE => "PRODUCTION_CANDIDATE"
  | AUTHORIZED_FOR_PRODUCTION => "AUTHORIZED_FOR_PRODUCTION"
  end.

(** [PromotionCompiler.evaluate], on the types of the evidence. *)
Definition promote (c : bool) (from to : MaturityState) (state : MaturityState) : MaturityState :=
  if (maturity_value from <=? maturity_value state) && c then to else state.
Definition evaluate_promotion (evidence_types : list string) : MaturityState :=
  let has t := bool_decide (t ∈ evidence_types) in
  promote (has "human_promotion_signature") PRODUCTION_CANDIDATE AUTHORIZED_FOR_PRODUCTION
  (promote (has "shadow_success_log" && has "pgl_certificate") INTEGRATION_VERIFIED PRODUCTION_CANDIDATE
  (promote (has "integration_test_pass") LOCALLY_VERIFIED INTEGRATION_VERIFIED
  (promote (has "local_test_pass") IMPLEMENTED_UNVERIFIED LOCALLY_VERIFIED
  (promote (has "commit_hash") DESIGN_INTENT IMPLEMENTED_UNVERIFIED DESIGN_INTENT)))).

Record Policy := mk_policy {
  po_policy_id : string; po_rules : list Effect; po_rate_limit : option Z; po_trust_required : option float; po_requires_approval : bool;
  po_verification_tier : option string; po_maturity_required : option MaturityState }.

Definition has_effect (e : Effect) (p : Policy) : bool := existsb (fun r => bool_decide (r = e)) (po_rules p).
Definition allows (p : Policy) : bool := has_effect allow_effect p && negb (has_effect deny_effect p).

Record PolicyConflict := mk_conflict {
  pc_conflict_type : string; pc_source1 : string; pc_source2 : string; pc_conflicting_field : string; pc_value1 : json; pc_value2 : json;
  pc_severity : Severity; pc_resolution : string; pc_requires_admin_review : bool }.

Record EffectivePolicy := mk_effective {
  ep_allow : bool; ep_rate_limit : option Z; ep_trust_required : float; ep_requires_approval : bool; ep_immutable : bool;
  ep_verification_tier : option string; ep_maturity_required : option MaturityState }.

Record PolicyComposition := mk_composition {
  cn_agent_id : string; cn_capability_id : string; cn_timestamp : Z; cn_effective_policy : EffectivePolicy;
  cn_conflicts : list PolicyConflict; cn_is_valid : bool; cn_evidence_hash : string }.

Definition detect_conflicts (system_policy owner_policy : option Policy) : list PolicyConflict :=
  match system_policy, owner_policy with
  | Some s, Some o =>
    (if allows s && negb (allows o)
     then [mk_conflict "allow-deny" (po_policy_id s) (po_policy_id o) "effect" (JStr "allow") (JStr "deny") high
             "System policy takes precedence" true] else [])
    ++ match po_rate_limit s, po_rate_limit o with
       | Some rs, Some ro =>
         if rs <? ro then [mk_conflict "rate-limit-mismatch" (po_policy_id s) (po_policy_id o) "rate_limit" (JInt rs) (JInt ro) medium
                             "Use most restrictive (system)" false] else []
       | _, _ => []
       end
  | _, _ => []
  end.

Definition opt_list {A} (o : option A) : list A := match o with Some a => [a] | None => [] end.
Definition max_string (a b : string) : string := if String.ltb a b then b else a.
Definition reduce {A} (f : A -> A -> A) (l : list A) : option A := match l with [] => None | x :: l' => Some (foldl f x l') end.
Definition first_some {A} (a b : option A) : option A := match a with Some _ => a | None => b end.

Definition layers_of (system_policy owner_policy runtime_policy : option Policy) : list Policy :=
  opt_list runtime_policy ++ opt_list owner_policy ++ opt_list system_policy.

Definition merge (system_policy owner_policy runtime_policy : option Policy) : EffectivePolicy :=
  let layers := layers_of system_policy owner_policy runtime_policy in
  let collect {A} (f : Policy -> option A) : list A := concat (map (fun p => opt_list (f p)) layers) in
  let maturity o := match o with Some p => po_maturity_required p | None => None end in
  mk_effective
    (existsb (has_effect allow_effect) layers && negb (existsb (has_effect deny_effect) layers))
    (reduce Z.min (collect po_rate_limit))
    (fmax_of zero (collect po_trust_required))
    (existsb po_requires_approval layers)
    (bool_decide (is_Some system_policy))
    (reduce max_string (collect po_verification_tier))
    (first_some (maturity system_policy) (first_some (maturity owner_policy) (maturity runtime_policy))).

Definition opt_json {A} (f : A -> json) (o : option A) : json := match o with Some a => f a | None => JNull end.

Definition compose (agent_id capability_id : string) (system_policy owner_policy runtime_policy : option Policy) (now : Z) : PolicyComposition :=
  let conflicts := detect_conflicts system_policy owner_policy in
  let eff := merge system_policy owner_policy runtime_policy in
  mk_composition agent_id capability_id now eff conflicts
    (negb (existsb (fun c => bool_decide (pc_severity c = critical)) conflicts))
    (sha256_json (JObj [("allow", JBool (ep_allow eff)); ("rate_limit", opt_json JInt (ep_rate_limit eff));
                        ("trust_required", jfloat (ep_trust_required eff)); ("requires_approval", JBool (ep_requires_approval eff));
                        ("verification_tier", opt_json JStr (ep_verification_tier eff));
                        ("maturity_required", opt_json (fun m => JStr (maturity_name m)) (ep_maturity_required eff))])).

(** ** Time windows *)

Record TimeWindow := mk_window {
  tw_name : string; tw_start_hour : Z; tw_end_hour : Z; tw_rate_limit : option Z; tw_trust_required : option float; tw_requires_approval : bool }.

Definition contains (w : TimeWindow) (hour : Z) : bool :=
  if tw_start_hour w <=? tw_end_hour w then (tw_start_hour w <=? hour) && (hour <? tw_end_hour w)
  else (tw_start_hour w <=? hour) || (hour <? tw_end_hour w).

Definition apply_window (hour : Z) (e : EffectivePolicy) (w : TimeWindow) : EffectivePolicy :=
  if contains w hour then
    mk_effective (ep_allow e)
      (match tw_rate_limit w with
       | Some r => Some (match ep_rate_limit e with Some r0 => Z.min r0 r | None => r end)
       | None => ep_rate_limit e
       end)
      (match tw_trust_required w with Some t => fmax (ep_trust_required e) t | None => ep_trust_required e end)
      (ep_requires_approval e || tw_requires_approval w) (ep_immutable e) (ep_verification_tier e) (ep_maturity_required e)
  else e.
Definition resolve_at (windows : list TimeWindow) (base : EffectivePolicy) (at_ : Z) : EffectivePolicy :=
  foldl (apply_window (hour_of at_)) base windows.
Definition business_hours : list TimeWindow := [mk_window "off-hours" 17 9 None (Some (of_Z 90)) true].

(** ** Delegation *)

Record DelegationHop := mk_hop {
  dh_delegation_id : string; dh_source_agent : string; dh_target_agent : string; dh_depth : nat; dh_trust_multiplier : float;
  dh_evidence_chain : list string; dh_is_revoked : bool }.
Record tracker := mk_tracker { dt_max_depth : nat; dt_decay : float; dt_chains : gmap string (list DelegationHop) }.
Definition fresh_tracker : tracker := mk_tracker 3 (ratio 85 100) ∅.
Definition chain_of (t : tracker) (capability_id : string) : list DelegationHop := default [] (dt_chains t !! capability_id).
Definition with_chain (t : tracker) (capability_id : string) (c : list DelegationHop) : tracker :=
  mk_tracker (dt_max_depth t) (dt_decay t) (<[capability_id := c]> (dt_chains t)).

(** [setdefault] leaves an empty chain behind a refusal. *)
Definition delegate (capability_id source_agent target_agent evidence_hash id : string) : eff string tracker DelegationHop := fun t =>
  let chain := chain_of t capability_id in
  let t0 := with_chain t capability_id chain in
  let depth := S (length chain) in
  if match last chain with Some h => dh_is_revoked h | None => false end then Raise "cannot delegate from a revoked chain" t0
  else if (dt_max_depth t <? depth)%nat
  then Raise ("delegation depth " +:+ pretty depth +:+ " exceeds max " +:+ pretty (dt_max_depth t)) t0
  else
    let prev_multiplier := match last chain with Some h => dh_trust_multiplier h | None => of_Z 1 end in
    let prev_evidence := match last chain with Some h => dh_evidence_chain h | None => [] end in
    let hop := mk_hop id source_agent target_agent depth (round6 (fmul prev_multiplier (dt_decay t))) (prev_evidence ++ [evidence_hash]) false in
    Ret hop (with_chain t capability_id (chain ++ [hop])).

Definition revoke_hop (h : DelegationHop) : DelegationHop :=
  mk_hop (dh_delegation_id h) (dh_source_agent h) (dh_target_agent h) (dh_depth h) (dh_trust_multiplier h) (dh_evidence_chain h) true.
Definition revoke (capability_id : string) (t : tracker) : tracker :=
  match dt_chains t !! capability_id with Some c => with_chain t capability_id (map revoke_hop c) | None => t end.

Definition effective_trust (t : tracker) (capability_id : string) (base_trust : float) : float :=
  match last (chain_of t capability_id) with Some h => round6 (fmul base_trust (dh_trust_multiplier h)) | None => base_trust end.

(** ** Permissions *)

Record EffectivePermissions := mk_permissions {
  pm_can_execute : bool; pm_requires_approval : bool; pm_rate_limit : option Z; pm_trust_required : float; pm_trust_current : float;
  pm_delegation_depth : Z; pm_evidence_hash : string }.

Definition tier_met (required current : option string) : bool :=
  match required, current with
  | Some r, Some c => str_eqb r "" || str_eqb c "" || String.leb r c
  | _, _ => true
  end.
Definition maturity_met (required current : option MaturityState) : bool :=
  match required with
  | Some r => match current with Some c => maturity_value r <=? maturity_value c | None => false end
  | None => true
  end.

Definition effective_permissions (c : PolicyComposition) (trust_current : float) (delegation_depth : Z) (tier_current : option string)
    (maturity_current : option MaturityState) : EffectivePermissions :=
  let e := cn_effective_policy c in
  let can_execute := cn_is_valid c && ep_allow e && fleb (ep_trust_required e) trust_current
                     && tier_met (ep_verification_tier e) tier_current && maturity_met (ep_maturity_required e) maturity_current in
  mk_permissions can_execute (ep_requires_approval e) (ep_rate_limit e) (ep_trust_required e) trust_current delegation_depth
    (sha256_json (JObj [("agent", JStr (cn_agent_id c)); ("cap", JStr (cn_capability_id c)); ("can_execute", JBool can_execute);
                        ("trust", jfloat trust_current); ("tier", opt_json JStr tier_current);
                        ("maturity", opt_json (fun m => JStr (maturity_name m)) maturity_current)])).
End layers.

(** ** Delegation chains *)

Inductive dstep : tracker -> tracker -> Prop :=
  | step_delegate t cap src tgt ev id : dstep t (oworld (delegate cap src tgt ev id t))
  | step_revoke t cap : dstep t (revoke cap t).

(** The trust multipliers of the default decay, hop by hop. *)
Definition multipliers : list float := [ratio 85 100; ratio 7225 10000; ratio 614125 1000000].

(** Hop [k] of a chain stands at its depth, with the evidence of every hop before. *)
Record hop_ok (c : list DelegationHop) (k : nat) (h : DelegationHop) : Prop := mk_hop_ok {
  ho_depth : dh_depth h = S k;
  ho_multiplier : multipliers !! k = Some (dh_trust_multiplier h);
  ho_evidence : length (dh_evidence_chain h) = S k;
  ho_prefix : forall j g, (j <= k)%nat -> c !! j = Some g -> dh_evidence_chain g = take (S j) (dh_evidence_chain h) }.
Definition chain_ok (c : list DelegationHop) : Prop := (length c <= 3)%nat /\ forall k h, c !! k = Some h -> hop_ok c k h.
Definition tracker_ok (t : tracker) : Prop := dt_max_depth t = 3%nat /\ dt_decay t = ratio 85 100 /\ forall cap, chain_ok (chain_of t cap).

Lemma chain_of_with t cap c cap' : chain_of (with_chain t cap c) cap' = if str_eqb cap cap' then c else chain_of t cap'.
Proof.
  unfold chain_of, with_chain. cbn [dt_chains]. destruct (str_eqb cap cap') eqn:E.
  - apply str_eqb_spec in E as ->. by rewrite lookup_insert_eq.
  - apply str_eqb_neq in E. by rewrite lookup_insert_ne.
Qed.

Lemma with_chain_ok t cap c : tracker_ok t -> chain_ok c -> tracker_ok (with_chain t cap c).
Proof. intros (H1 & H2 & H3) Hc. split_and!; [done..|]. intros cap'. rewrite chain_of_with. by destruct (str_eqb cap cap'). Qed.

Lemma revoked_chain_ok c : chain_ok c -> chain_ok (map revoke_hop c).
Proof.
  intros [Hl Hk]. split; [by rewrite length_map|]. intros k h Hh. change (map revoke_hop c) with (revoke_hop <$> c) in *.
  apply list_lookup_fmap_Some in Hh as (h0 & -> & Hh0). destruct (Hk k h0 Hh0) as [H1 H2 H3 H4]. split; try done.
  intros j g Hj Hg. apply list_lookup_fmap_Some in Hg as (g0 & -> & Hg0). exact (H4 j g0 Hj Hg0).
Qed.

Lemma last_length {A} (l : list A) x : last l = Some x -> l !! (length l - 1)%nat = Some x.
Proof. rewrite last_lookup. intros <-. f_equal. lia. Qed.

Lemma snoc_chain_ok c h :
  chain_ok c -> (length c < 3)%nat -> hop_ok (c ++ [h]) (length c) h ->
  (forall k g, c !! k = Some g -> hop_ok c k g) -> chain_ok (c ++ [h]).
Proof.
  intros [Hl Hk] Hlt Hh Hc. split; [rewrite length_app; simpl; lia|]. intros k g Hg.
  destruct (decide (k < length c)%nat) as [Hlk|Hge].
  - rewrite lookup_app_l in Hg by done. destruct (Hc k g Hg) as [H1 H2 H3 H4]. split; try done.
    intros j g' Hj Hg'. rewrite lookup_app_l in Hg' by lia. by apply H4.
  - assert (k = length c) as ->. { apply lookup_lt_Some in Hg. rewrite length_app in Hg. simpl in Hg. lia. }
    rewrite list_lookup_middle in Hg by done. by injection Hg as <-.
Qed.

(** The hop a chain of [n] gains. *)
Lemma next_multiplier n x :
  (n < 3)%nat -> (match n with O => Some (of_Z 1) | S m => multipliers !! m end) = Some x ->
  multipliers !! n = Some (round6 (fmul x (ratio 85 100))).
Proof.
  intros Hn Hx. destruct n as [|[|[|n]]]; [..|lia]; simpl in Hx; injection Hx as <-; vm_compute; reflexivity.
Qed.

#[local] Opaque round6 fmul.

Lemma delegate_ok t cap src tgt ev id : tracker_ok t -> tracker_ok (oworld (delegate cap src tgt ev id t)).
Proof.
  intros Ht. pose proof Ht as (Hm & Hd & Hc). specialize (Hc cap). unfold delegate. set (chain := chain_of t cap) in *.
  destruct (match last chain with Some h => dh_is_revoked h | None => false end) eqn:Er; [by apply with_chain_ok|].
  destruct (dt_max_depth t <? S (length chain))%nat eqn:Ed; [by apply with_chain_ok|].
  apply Nat.ltb_ge in Ed. rewrite Hm in Ed. apply with_chain_ok; [done|]. pose proof Hc as [Hlen Hk].
  apply snoc_chain_ok; [done|lia| |done]. rewrite Hd. destruct (last chain) as [h|] eqn:El.
  - pose proof (last_length _ _ El) as Hh. assert (Hpos : (0 < length chain)%nat) by (apply lookup_lt_Some in Hh; lia).
    destruct (Hk _ _ Hh) as [H1 H2 H3 H4]. replace (S (length chain - 1)) with (length chain) in * by lia.
    split; cbn [dh_depth dh_trust_multiplier dh_evidence_chain]; [done| |rewrite length_app, H3; simpl; lia|].
    + apply next_multiplier; [lia|]. destruct (length chain) as [|m]; [lia|].
      replace (S m - 1)%nat with m in H2 by lia. exact H2.
    + intros j g Hj Hg. destruct (decide (j < length chain)%nat) as [Hlt|Hge].
      * rewrite lookup_app_l in Hg by done. rewrite take_app_le by lia. apply H4; [lia|done].
      * assert (j = length chain) as -> by lia. rewrite list_lookup_middle in Hg by done. injection Hg as <-. cbn [dh_evidence_chain].
        rewrite take_ge; [done|]. rewrite length_app, H3. simpl. lia.
  - apply last_None in El. rewrite El in *. cbn [length app] in *.
    split; cbn [dh_depth dh_trust_multiplier dh_evidence_chain]; [reflexivity|apply next_multiplier; [lia|reflexivity]|reflexivity|].
    intros j g Hj Hg. assert (j = O) as -> by lia. by injection Hg as <-.
Qed.

Lemma dstep_ok t t' : tracker_ok t -> dstep t t' -> tracker_ok t'.
Proof.
  intros Ht Hst. destruct Hst as [t0 cap src tgt ev id|t0 cap]; [by apply delegate_ok|]. unfold revoke. destruct (dt_chains t0 !! cap) as [c|] eqn:E; [|done].
  apply with_chain_ok; [done|]. apply revoked_chain_ok. destruct Ht as (_ & _ & Hc). specialize (Hc cap). unfold chain_of in Hc. by rewrite E in Hc.
Qed.

Lemma fresh_tracker_ok : tracker_ok fresh_tracker.
Proof.
  split_and!; [reflexivity..|]. intros cap. assert (E : chain_of fresh_tracker cap = []) by (unfold chain_of, fresh_tracker; cbn [dt_chains]; by rewrite lookup_empty).
  rewrite E. split; [simpl; lia|]. intros k h Hh. done.
Qed.

(** A chain whose last hop is revoked keeps its length. *)
Lemma revoked_step t t' cap : dstep t t' ->
  (forall h, last (chain_of t cap) = Some h -> dh_is_revoked h = true) -> chain_of t cap <> [] ->
  length (chain_of t' cap) = length (chain_of t cap) /\ (forall h, last (chain_of t' cap) = Some h -> dh_is_revoked h = true).
Proof.
  intros Hst Hr Hne. destruct Hst as [t0 c src tgt ev id|t0 c].
  - unfold delegate. set (chain := chain_of t0 c).
    destruct (decide (c = cap)) as [->|Hn].
    + assert (El : exists h, last chain = Some h) by (destruct (last chain) eqn:E; [by eexists|by apply last_None in E]).
      destruct El as [h El]. rewrite El, (Hr h El). cbn [oworld]. rewrite chain_of_with, str_eqb_refl. by split.
    + apply str_eqb_neq in Hn. repeat case_match; cbn [oworld]; rewrite chain_of_with, Hn; by split.
  - unfold revoke. destruct (dt_chains t0 !! c) as [l|] eqn:El; [|by split]. rewrite chain_of_with.
    destruct (str_eqb c cap) eqn:E; [|by split]. apply str_eqb_spec in E as ->.
    assert (Hl : chain_of t0 cap = l) by (unfold chain_of; by rewrite El). rewrite Hl. split; [by rewrite length_map|].
    intros h. change (map revoke_hop l) with (revoke_hop <$> l). rewrite fmap_last. destruct (last l); [|done]. by intros [= <-].
Qed.

(** Delegation chains are short, fade and record their history.  Whatever is
    delegated and revoked in whatever order, a chain has at most three hops;
    the hop at depth k carries the evidence of the k hops up to it and the
    trust multiplier 0.85, 0.7225 or 0.614125 of its depth, by which the
    effective trust of the capability is scaled; and a revoked chain never
    grows again. *)
Theorem delegation_bounded t cap :
  steps dstep fresh_tracker t ->
  chain_ok (chain_of t cap)
  /\ (forall base h, last (chain_of t cap) = Some h ->
        exists m, multipliers !! (length (chain_of t cap) - 1)%nat = Some m /\ effective_trust t cap base = round6 (fmul base m))
  /\ (forall h t', last (chain_of t cap) = Some h -> dh_is_revoked h = true -> steps dstep t t' ->
        length (chain_of t' cap) = length (chain_of t cap)).
Proof.
  intros Hst. assert (Ht : tracker_ok t) by (eapply steps_invariant; [apply dstep_ok|apply fresh_tracker_ok|exact Hst]).
  destruct Ht as (_ & _ & Hc). split_and!; [done|..].
  - intros base h Hl. destruct (Hc cap) as [_ Hk]. destruct (Hk _ _ (last_length _ _ Hl)) as [_ Hm _ _].
    exists (dh_trust_multiplier h). split; [done|]. unfold effective_trust. by rewrite Hl.
  - intros h t' Hl Hr Hst'. pose (I := fun u => length (chain_of u cap) = length (chain_of t cap) /\ forall g, last (chain_of u cap) = Some g -> dh_is_revoked g = true).
    assert (Hi : I t'); [|by destruct Hi]. apply (steps_invariant dstep I t t'); [| |done].
    + intros a b [Ha1 Ha2] Hab. assert (Hne : chain_of a cap <> []).
      { intros E. rewrite E in Ha1. destruct (chain_of t cap); [done|]. done. }
      destruct (revoked_step a b cap Hab Ha2 Hne) as [Hb1 Hb2]. split; [by rewrite Hb1|done].
    + split; [done|]. intros g Hg. rewrite Hl in Hg. by injection Hg as <-.
Qed.
