(* ===== verification/McpStack.v ===== *)
(** * The MCP v2 assessment (services/mcp_v2.py, services/authorization.py)

    The three layers over their shared state: the assessment of a request before
    execution, with its evidence, and the authorization endpoint's decision.
    Then what the assessment decides, what it does not look at, and the adapter
    of McpAdapter with this assessment in place.

    [py_float] and [py_int] convert JSON values as Python's [float] and [int];
    ids and clock readings are arguments. *)

From Stdlib Require Import ZArith Lia Ascii String SpecFloat.
From stdpp Require Import base gmap strings list pretty sorting.
From S2P Require Import Prelude Canon PyJson Verify Identity McpAdapter McpProperties PyFloat Safety Governance.

Local Open Scope Z_scope.

Record stack := mk_stack {
  sk_baselines : baselines; sk_anomalies : list AnomalyDetection; sk_costs : cost_service; sk_profiles : gmap string RiskProfile;
  sk_correlation : correlation_service; sk_quarantine : quarantine_service; sk_delegation : tracker; sk_windows : list TimeWindow }.
Definition fresh_stack : stack :=
  mk_stack (mk_baselines ∅ ∅) [] (mk_costs ∅ []) ∅ fresh_correlation fresh_quarantine fresh_tracker business_hours.

(** What one assessment draws: the anomalies' ids and times, the quarantine's,
    and the clock of the correlation, the profile and the composition. *)
Record assess_draws := mk_assess_draws {
  ad_detect : detect_draws; ad_quarantine_id : string; ad_quarantine_now : Z * Z; ad_correlate : Z; ad_risk : Z; ad_compose : Z }.

(** The first anomaly to block, else a quarantine if one asks for it. *)
Fixpoint worst_from (worst : RecommendedAction) (anomalies : list AnomalyDetection) : RecommendedAction :=
  match anomalies with
  | [] => worst
  | a :: l => match an_action a with block => block | quarantine_it => worst_from quarantine_it l | _ => worst_from worst l end
  end.
Definition worst_action (anomalies : list AnomalyDetection) : RecommendedAction := worst_from log anomalies.
Definition held (anomalies : list AnomalyDetection) : bool :=
  match worst_action anomalies with block | quarantine_it => true | _ => false end.

Section stack.
Context `{EiWorld} (repr_float : float -> string).

Definition signal_of (agent_id : string) (a : AnomalyDetection) : AnomalySignal :=
  mk_signal agent_id (an_type a) (an_severity a) (an_detected_at a).

Definition pre_execution_assessment (agent_id : string) (request : json) (metric : CurrentMetric) (trust_score : float)
    (capability_id : string) (system_policy owner_policy runtime_policy : option Policy) (at_ : Z) (d : assess_draws) (s : stack) :
    dict * stack :=
  let anomalies := detect agent_id metric (sk_baselines s) (ad_detect d) in
  let correlation_state := foldl (fun c a => record_signal (signal_of agent_id a) c) (sk_correlation s) anomalies in
  let correlation := correlate agent_id (ad_correlate d) correlation_state in
  let worst := worst_action anomalies in
  let quarantine_id := if held anomalies then Some (ad_quarantine_id d) else None in
  let queue := if held anomalies
    then (quarantine (ad_quarantine_id d) request anomalies None (ad_quarantine_now d).1 (ad_quarantine_now d).2 (sk_quarantine s)).2
    else sk_quarantine s in
  let factors := mk_risk_inputs trust_score (fmax_of zero (map an_anomaly_score anomalies)) zero (ca_correlated correlation) false 0 in
  let risk := risk_assess repr_float agent_id factors (ad_risk d) (sk_profiles s) in
  let composition := compose repr_float agent_id capability_id system_policy owner_policy runtime_policy (ad_compose d) in
  let effective := resolve_at (sk_windows s) (cn_effective_policy composition) at_ in
  let perms := effective_permissions repr_float composition (effective_trust (sk_delegation s) capability_id trust_score) 0 None None in
  let policy_allows := match system_policy, owner_policy, runtime_policy with None, None, None => true | _, _, _ => pm_can_execute perms end in
  let allow := negb (bool_decide (worst = block)) && negb (held anomalies) && policy_allows in
  let evidence :=
    [("agent_id", JStr agent_id); ("allow", JBool allow);
     ("safety", JObj [("anomalies", JArr (map (fun a => JStr (an_type a)) anomalies)); ("recommended_action", JStr (action_name worst));
                      ("quarantine_id", opt_json JStr quarantine_id); ("correlated", JBool (ca_correlated correlation))]);
     ("intelligence", JObj [("risk_score", overall_json repr_float factors); ("threat_level", JStr (threat_name (rp_threat_level risk.1)));
                            ("needs_intervention", JBool (needs_intervention agent_id risk.2))]);
     ("governance", JObj [("policy_allows", JBool policy_allows); ("requires_approval", JBool (ep_requires_approval effective));
                          ("trust_required", jfloat repr_float (ep_trust_required effective));
                          ("conflicts", JArr (map (fun c => JStr (pc_conflict_type c)) (cn_conflicts composition)));
                          ("is_valid", JBool (cn_is_valid composition))])] in
  (evidence ++ [("evidence_hash", JStr (sha256_json (JObj evidence)))],
   mk_stack (sk_baselines s) (sk_anomalies s ++ anomalies) (sk_costs s) risk.2 correlation_state queue (sk_delegation s) (sk_windows s)).

(** ** The adapter's assessment *)

Definition baseline_metric (now : Z) : CurrentMetric := mk_metric (of_Z 1) zero (hour_of now) [].

Definition assess_consequence_eligibility (metric : option CurrentMetric) (trust_score : float)
    (system_policy owner_policy runtime_policy : option Policy) (now : Z) (d : assess_draws) (agent_id capability_id : string)
    (request : dict) (s : stack) : dict * stack :=
  pre_execution_assessment agent_id (JObj request) (default (baseline_metric now) metric) trust_score capability_id
    system_policy owner_policy runtime_policy now d s.

Context (repr_of : json -> string) (aware : string -> bool) (validation_text : dict -> string).

(** The contexts of a call that reaches the assessment. *)
Definition reached (hs : list (string * string)) (raw_request session_auth : json) (d : mcp_draws) (w : mcp) :
    option (ConnectionContext * CapabilityContext) :=
  match raw_request with
  | JObj raw =>
    match validate_perimeter repr_of hs raw session_auth w, normalize_request repr_of validation_text hs raw d with
    | Ret _ _, Ok cc => Some cc
    | _, _ => None
    end
  | _ => None
  end.

(** [MCPv2Adapter.handle_tool_call] over its stack. *)
Definition handle_on_stack (metric : option CurrentMetric) (trust_score : float) (system_policy owner_policy runtime_policy : option Policy)
    (ad : assess_draws) (handler : ConnectionContext -> CapabilityContext -> res string json) (pgl : option (dict -> bool))
    (hs : list (string * string)) (raw_request session_auth : json) (d : mcp_draws) (w : mcp) (s : stack) :
    outcome mcp_exc mcp dict * stack :=
  let eligible := assess_consequence_eligibility metric trust_score system_policy owner_policy runtime_policy (md_now d) ad in
  (handle_tool_call repr_of aware validation_text (fun agent cap request => Ok (eligible agent cap request s).1) handler pgl hs raw_request
     session_auth d w,
   match reached hs raw_request session_auth d w with
   | Some (conn, cap) => (eligible (cp_actor_id cap) (cp_capability_id cap) (cp_payload cap) s).2
   | None => s
   end).

(** ** Authorization *)

Context (py_float : json -> res string float) (py_int : json -> res string Z).

Definition ALLOW_DIRECTIVES : list string := ["ALLOW"; "ALLOW_WITH_AUDIT"].
Definition DENY_DIRECTIVES : list string := ["DENY"; "REJECT"; "REJECTED"].
Definition APPROVAL_DIRECTIVES : list string := ["NEEDS_APPROVAL"; "REQUIRE_APPROVAL"; "PENDING_APPROVAL"].
Definition RISK_TIERS : list string := ["standard"; "elevated"; "critical"].

Definition stripped (v : json) : string := match v with JNull => "" | _ => strip (str_of repr_of v) end.
Definition or_text (a b : string) : string := if str_eqb a "" then b else a.

(** The directive and the risk tier. *)
Definition normalize_directive (payload : dict) (strict : bool) : res string (string * string) :=
  let directive := or_text (upper (stripped (dget payload "directive"))) (if strict then "NEEDS_APPROVAL" else "ALLOW") in
  let risk_tier := or_text (lower (stripped (dget payload "risk_tier"))) "standard" in
  if bool_decide (risk_tier ∈ RISK_TIERS) then Ok (directive, risk_tier) else Err "ValueError".

(** [at.replace(hour=h, minute=0, second=0, microsecond=0)]. *)
Definition at_hour (now h : Z) : res string Z :=
  if (0 <=? h) && (h <? 24) then Ok (now / us_day * us_day + h * (3600 * 1000000)) else Err "ValueError".

Definition directive_policy (directive risk_tier : string) : Policy :=
  mk_policy "request-directive" [allow_effect] None None
    (bool_decide (directive ∈ APPROVAL_DIRECTIVES) || str_eqb risk_tier "critical") None None.

(** The part of [evaluate_authorization] that may raise, and the evidence it adds. *)
Definition decide_authorization (payload : dict) (now : Z) (d : assess_draws) (s : stack) :
    res string (string * string * option dict) * stack :=
  let agent_id := dget payload "agent_id" in
  let request := py_or (dget payload "request") (JObj []) in
  if negb (truthy agent_id) then (Err "ValueError", s)
  else match normalize_directive payload true with
  | Err e => (Err e, s)
  | Ok (directive, risk_tier) =>
    if bool_decide (directive ∈ DENY_DIRECTIVES) then (Ok ("REJECTED", "directive denies execution", None), s)
    else if negb (bool_decide (directive ∈ ALLOW_DIRECTIVES ++ APPROVAL_DIRECTIVES))
    then (Ok ("REJECTED", "unsupported directive", None), s)
    else
      let args :=
        let? rph := py_float (dget_or payload "requests_per_hour" (JFloat "0.0")) in
        let? fr := py_float (dget_or payload "failure_rate" (JFloat "0.0")) in
        let? tod := py_int (dget_or payload "time_of_day" (JInt 12)) in
        let? trust := py_float (dget_or payload "trust_score" (JFloat "75.0")) in
        let? at_ := at_hour now tod in
        Ok (mk_metric rph fr tod [], trust, at_) in
      match args with
      | Err e => (Err e, s)
      | Ok (metric, trust, at_) =>
        let a := pre_execution_assessment (str_of repr_of agent_id) request metric trust
                   (str_of repr_of (dget_or payload "capability_id" (JStr "exec"))) None None
                   (Some (directive_policy directive risk_tier)) at_ d s in
        let governance := as_dict (dget a.1 "governance") in
        let out :=
          if negb (truthy (dget a.1 "allow")) then ("REJECTED", "safety assessment denied the request")
          else if negb (truthy (dget governance "is_valid")) || negb (truthy (dget governance "policy_allows"))
          then ("REJECTED", "governance policy denied the request")
          else if truthy (dget governance "requires_approval") then ("NEEDS_APPROVAL", "governance policy requires approval")
          else ("APPROVED", "governance policy approved the request") in
        (Ok (out.1, out.2, Some a.1), a.2)
      end
  end.

(** [evaluate_authorization].  Text is UTF-8 bytes, so the UnicodeEncodeError
    that [sha256_json] raises on a lone surrogate, outside the try block, does
    not arise here. *)
Definition evaluate_authorization (payload : dict) (now : Z) (d : assess_draws) (s : stack) : dict * stack :=
  let frame :=
    [("agent_id", dget payload "agent_id"); ("capability_id", dget_or payload "capability_id" (JStr "exec"));
     ("request", py_or (dget payload "request") (JObj [])); ("trust_score", dget_or payload "trust_score" (JFloat "75.0"));
     ("time_of_day", dget_or payload "time_of_day" (JInt 12)); ("directive", dget payload "directive");
     ("risk_tier", dget payload "risk_tier")] in
  let r := decide_authorization payload now d s in
  let out := match r.1 with
    | Ok (decision, reason, evidence) =>
      (decision, reason, frame ++ match evidence with Some e => [("evidence", JObj e)] | None => [] end)
    | Err name => ("REJECTED", "authorization policy evaluation failed", frame ++ [("failure", JStr name)])
    end in
  let decision := out.1.1 in let reason := out.1.2 in
  let lane0 := lower (str_of repr_of (py_or (dget payload "risk_tier") (JStr "standard"))) in
  let lane := if bool_decide (lane0 ∈ RISK_TIERS) then lane0 else "standard" in
  let evidence_hash := sha256_json (JObj out.2) in
  ([("decision", JStr decision); ("lane", JStr lane); ("reason", JStr reason);
    ("decision_hash", JStr (sha256_json (JObj [("decision", JStr decision); ("lane", JStr lane); ("reason", JStr reason);
                                               ("evidence_hash", JStr evidence_hash)])));
    ("evidence_hash", JStr evidence_hash)], r.2).
End stack.

(** ** What an assessment decides *)

Definition harmless (a : AnomalyDetection) : Prop := an_action a <> block /\ an_action a <> quarantine_it.

Lemma worst_held w l :
  match worst_from w l with block | quarantine_it => True | _ => False end
  <-> match w with block | quarantine_it => True | _ => False end \/ Exists (fun a => ~ harmless a) l.
Proof.
  unfold harmless. revert w. induction l as [|a l IH]; intros w; simpl; [rewrite Exists_nil; tauto|]. rewrite Exists_cons.
  destruct (an_action a) eqn:Ea; rewrite ?IH; intuition congruence.
Qed.

Lemma harmless_dec a : harmless a \/ ~ harmless a.
Proof. unfold harmless. destruct (an_action a); [left|left|right|right]; intuition congruence. Qed.

Lemma held_spec l : held l = false <-> Forall harmless l.
Proof.
  assert (Hx : held l = true <-> Exists (fun a => ~ harmless a) l).
  { pose proof (worst_held log l) as Hw. unfold held, worst_action in *. destruct (worst_from log l); naive_solver. }
  rewrite <- not_true_iff_false, Hx, <- Forall_Exists_neg. rewrite !Forall_forall.
  split; intros Hl a Ha; specialize (Hl a Ha); pose proof (harmless_dec a); tauto.
Qed.

Lemma held_worst l : bool_decide (worst_action l = block) = true -> held l = true.
Proof. unfold held. by intros ->%bool_decide_eq_true. Qed.

(** The trust the layers ask for; without any, zero. *)
Definition asked (layers : list Policy) : list float := concat (map (fun p => opt_list (po_trust_required p)) layers).

(** What the composed policy must say: nothing was composed, or some layer
    allows, none denies, none asks for a maturity, and the trust is enough for
    every layer that asks for some. *)
Definition permitted (layers : list Policy) (trust : float) : Prop :=
  layers = []
  \/ (exists p, p ∈ layers /\ has_effect allow_effect p = true) /\ (forall p, p ∈ layers -> has_effect deny_effect p = false)
     /\ (forall p, p ∈ layers -> po_maturity_required p = None)
     /\ match asked layers with [] => fleb zero trust = true | l => forall x, x ∈ l -> fleb x trust = true end.

Lemma conflicts_not_critical s o : existsb (fun c => bool_decide (pc_severity c = critical)) (detect_conflicts s o) = false.
Proof. unfold detect_conflicts. repeat case_match; reflexivity. Qed.

Lemma merged_maturity s o r :
  ep_maturity_required (merge s o r) = None <-> forall p, p ∈ layers_of s o r -> po_maturity_required p = None.
Proof.
  unfold merge, layers_of. cbn [ep_maturity_required]. split.
  - intros Hm p. rewrite !elem_of_app. unfold first_some in Hm.
    destruct s as [ps|], o as [po|], r as [pr|]; cbn [opt_list]; rewrite ?list_elem_of_singleton, ?elem_of_nil; repeat case_match;
      intuition congruence.
  - intros Hp. destruct s as [ps|], o as [po|], r as [pr|]; cbn [opt_list app] in *; unfold first_some;
      repeat (rewrite (Hp ps) by set_solver); repeat (rewrite (Hp po) by set_solver); repeat (rewrite (Hp pr) by set_solver); done.
Qed.

Lemma existsb_elem {A} (f : A -> bool) (l : list A) : existsb f l = true <-> exists x, x ∈ l /\ f x = true.
Proof. rewrite existsb_exists. by setoid_rewrite list_elem_of_In. Qed.

Section decisions.
Context `{EiWorld} (repr_float : float -> string).
Local Abbreviation assess := (pre_execution_assessment repr_float).

(** The permission of the composed policy, layer by layer. *)
Lemma can_execute_permitted agent cap s o r now trust :
  Forall (fun x => x <> S754_nan) (asked (layers_of s o r)) -> layers_of s o r <> [] ->
  pm_can_execute (effective_permissions repr_float (compose repr_float agent cap s o r now) trust 0 None None) = true
  <-> permitted (layers_of s o r) trust.
Proof.
  intros Hn Hne. cbn [effective_permissions pm_can_execute compose cn_is_valid cn_effective_policy]. rewrite conflicts_not_critical. cbn [negb andb].
  assert (Ht : tier_met (ep_verification_tier (merge s o r)) None = true) by (unfold tier_met; by case_match).
  rewrite Ht, andb_true_r, !andb_true_iff.
  assert (Hm : maturity_met (ep_maturity_required (merge s o r)) None = true <-> forall p, p ∈ layers_of s o r -> po_maturity_required p = None).
  { rewrite <- merged_maturity. unfold maturity_met. by destruct (ep_maturity_required _). }
  rewrite Hm. cbn [merge ep_allow ep_trust_required]. change (concat _) with (asked (layers_of s o r)).
  rewrite (fmax_of_le zero _ trust Hn), andb_true_iff, existsb_elem, negb_true_iff, <- not_true_iff_false, existsb_elem.
  unfold permitted. split.
  - intros (((Ha & Hd) & Htr) & Hma). right. split_and!; [done| |done|].
    + intros p Hp. apply not_true_iff_false. intros Hdp. apply Hd. by exists p.
    + destruct (asked (layers_of s o r)) as [|x l]; [done|]. intros y Hy. rewrite forallb_forall in Htr. by apply Htr, list_elem_of_In.
  - intros [E|(Ha & Hd & Hma & Htr)]; [by destruct Hne|]. split_and!; try done.
    + intros (p & Hp & Hdp). by rewrite (Hd p Hp) in Hdp.
    + destruct (asked (layers_of s o r)) as [|x l]; [done|]. apply forallb_forall. intros y Hy. by apply Htr, list_elem_of_In.
Qed.

Lemma no_layers s o r : layers_of s o r = [] <-> s = None /\ o = None /\ r = None.
Proof. split; [by destruct s, o, r|]. by intros (-> & -> & ->). Qed.

Definition anomalies_of (agent : string) (metric : CurrentMetric) (d : assess_draws) (s : stack) : list AnomalyDetection :=
  detect agent metric (sk_baselines s) (ad_detect d).

(** The fields of the evidence that callers act on. *)
Lemma assess_allow agent request metric trust cap sp op rp at_ d s :
  let policy := match sp, op, rp with
    | None, None, None => true
    | _, _, _ => pm_can_execute (effective_permissions repr_float (compose repr_float agent cap sp op rp (ad_compose d))
                                   (effective_trust (sk_delegation s) cap trust) 0 None None)
    end in
  let ev := (assess agent request metric trust cap sp op rp at_ d s).1 in
  dget ev "allow" = JBool (negb (held (anomalies_of agent metric d s)) && policy)
  /\ dget_or ev "governance" (JObj []) = dget ev "governance"
  /\ (exists g, dget ev "governance" = JObj g /\ dget g "policy_allows" = JBool policy /\ dget g "is_valid" = JBool true
       /\ dget g "requires_approval" = JBool (ep_requires_approval (resolve_at (sk_windows s) (merge sp op rp) at_))).
Proof.
  intros policy ev. unfold ev, pre_execution_assessment. fold policy.
  cbn [fst dget dget_or assoc app str_eqb bool_decide]. split_and!.
  - change (dget _ "allow") with (JBool (negb (bool_decide (worst_action (anomalies_of agent metric d s) = block))
      && negb (held (anomalies_of agent metric d s)) && policy)).
    destruct (bool_decide (worst_action _ = block)) eqn:E; [|done]. by rewrite (held_worst _ E).
  - done.
  - eexists. split; [reflexivity|]. split_and!; [done| |done].
    change (dget _ "is_valid") with (JBool (negb (existsb (fun c => bool_decide (pc_severity c = critical)) (detect_conflicts sp op)))).
    by rewrite conflicts_not_critical.
Qed.

Lemma assessment_facts agent request metric trust cap sp op rp at_ d s :
  Forall (fun x => x <> S754_nan) (asked (layers_of sp op rp)) ->
  let a := assess agent request metric trust cap sp op rp at_ d s in
  let anomalies := anomalies_of agent metric d s in
  (dget a.1 "allow" = JBool true
   <-> Forall harmless anomalies /\ permitted (layers_of sp op rp) (effective_trust (sk_delegation s) cap trust))
  /\ (Forall harmless anomalies -> sk_quarantine a.2 = sk_quarantine s)
  /\ (~ Forall harmless anomalies ->
      exists qr, assoc (ad_quarantine_id d) (qs_quarantined (sk_quarantine a.2)) = Some qr /\ qr_status qr = quarantined
        /\ qr_original_request qr = request /\ qr_anomalies qr = anomalies /\ qr_approvals_received qr = []
        /\ qr_approval_deadline qr = (ad_quarantine_now d).2 + qs_hold_seconds (sk_quarantine s) * 1000000).
Proof.
  intros Hn a anomalies. split_and!.
  - destruct (assess_allow agent request metric trust cap sp op rp at_ d s) as (Ha & _). unfold a. rewrite Ha. fold anomalies.
    rewrite <- held_spec. destruct (held anomalies); cbn [negb andb]; [by split; [|intros [? _]]|].
    destruct (decide (layers_of sp op rp = [])) as [E|E].
    + pose proof E as (-> & -> & ->)%no_layers. split; [|done]. intros _. split; [done|by left].
    + rewrite <- (can_execute_permitted agent cap sp op rp (ad_compose d)) by done.
      assert (Hne : ~ (sp = None /\ op = None /\ rp = None)) by (by rewrite <- no_layers).
      generalize (pm_can_execute (effective_permissions repr_float (compose repr_float agent cap sp op rp (ad_compose d))
                                    (effective_trust (sk_delegation s) cap trust) 0 None None)). intros c. clear - Hne.
      destruct sp, op, rp; try tauto; (split; [intros [= ->]; by split|by intros [_ ->]]).
  - intros Hh%held_spec. unfold a, pre_execution_assessment. cbn [snd sk_quarantine]. unfold anomalies, anomalies_of in Hh. by rewrite Hh.
  - rewrite <- held_spec, not_false_iff_true. intros Hh. unfold a, pre_execution_assessment. cbn [snd sk_quarantine].
    unfold anomalies, anomalies_of in *. rewrite Hh. cbn [quarantine snd with_table qs_quarantined].
    eexists. rewrite assoc_put, str_eqb_refl. split; [reflexivity|]. by split_and!.
Qed.

(** An assessment allows a request exactly when no anomaly of the agent's
    metric against its baseline asks to block or to quarantine it, and the
    policies, if any is given, permit it: some layer allows, none denies, none
    asks for a maturity, and the trust after delegation is enough for every
    layer that asks for some (NaN aside).  So neither the hour of the request
    nor anything approved or denied in the queue has a say.  A request that is
    held enters the queue, as quarantined, and otherwise the queue is as
    before. *)
Theorem assessment_decides agent request metric trust cap sp op rp at_ d s :
  Forall (fun x => x <> S754_nan) (asked (layers_of sp op rp)) ->
  let a := assess agent request metric trust cap sp op rp at_ d s in
  let anomalies := anomalies_of agent metric d s in
  (dget a.1 "allow" = JBool true
   <-> Forall harmless anomalies /\ permitted (layers_of sp op rp) (effective_trust (sk_delegation s) cap trust))
  /\ (Forall harmless anomalies -> sk_quarantine a.2 = sk_quarantine s)
  /\ (~ Forall harmless anomalies ->
      exists qr, assoc (ad_quarantine_id d) (qs_quarantined (sk_quarantine a.2)) = Some qr /\ qr_status qr = quarantined
        /\ qr_original_request qr = request /\ qr_anomalies qr = anomalies /\ qr_approvals_received qr = []
        /\ qr_approval_deadline qr = (ad_quarantine_now d).2 + qs_hold_seconds (sk_quarantine s) * 1000000).
Proof. apply assessment_facts. Qed.

Context (repr_of : json -> string) (aware : string -> bool) (validation_text : dict -> string).

(** C13: the assessment governs tool calls.  With the stack in place of the
    adapter's assessment, a call reaches the execution handler only when no
    anomaly of its actor asks to block or quarantine it and the policies
    permit its capability at the trust after delegation, and then the queue is
    as before; a call that is held for its anomalies is answered with an
    error, calls nothing, and its arguments are in the queue. *)
Theorem stack_governs_tool_calls metric trust sp op rp ad handler pgl hs raw_request session_auth d w s :
  Forall (fun x => x <> S754_nan) (asked (layers_of sp op rp)) ->
  let o := handle_on_stack repr_float repr_of aware validation_text metric trust sp op rp ad handler pgl hs raw_request session_auth d w s in
  let m := default (baseline_metric (md_now d)) metric in
  exists resp w', o.1 = Ret resp w'
  /\ (ma_calls w' = ma_calls w /\ is_error resp
      \/ exists conn cap, ma_calls w' = ma_calls w ++ [(conn, cap)] /\ Forall harmless (anomalies_of (cp_actor_id cap) m ad s)
         /\ permitted (layers_of sp op rp) (effective_trust (sk_delegation s) (cp_capability_id cap) trust)
         /\ sk_quarantine o.2 = sk_quarantine s)
  /\ (forall conn cap, reached repr_of validation_text hs raw_request session_auth d w = Some (conn, cap) ->
        ~ Forall harmless (anomalies_of (cp_actor_id cap) m ad s) ->
        ma_calls w' = ma_calls w /\ is_error resp
        /\ exists qr, assoc (ad_quarantine_id ad) (qs_quarantined (sk_quarantine o.2)) = Some qr /\ qr_status qr = quarantined
             /\ qr_original_request qr = JObj (cp_payload cap)).
Proof.
  intros Hn o m. unfold o, handle_on_stack. cbn [fst snd]. set (eligible := assess_consequence_eligibility _ _ _ _ _ _ _ _).
  unfold handle_tool_call, reached. destruct raw_request as [| | | | | |raw];
    try (eexists _, _; split; [reflexivity|]; split; [left; split; [reflexivity|apply error_is_error]|done]).
  destruct (perimeter_cases repr_of hs raw session_auth w) as [(code & msg & rpc & w' & -> & Hc & _)|(nonce & -> & _ & _)].
  { eexists _, _. split; [reflexivity|]. split; [left; split; [done|apply error_is_error]|done]. }
  set (w1 := mk_mcp _ _ _ _). set (assess := fun agent cap request => Ok _).
  destruct (run_cases repr_of aware validation_text assess handler pgl hs raw session_auth d w1) as (resp & w' & -> & _ & Hcase).
  exists resp, w'. split; [done|].
  assert (Hdec : forall conn cap, let e := eligible (cp_actor_id cap) (cp_capability_id cap) (cp_payload cap) s in
    dominated repr_of aware conn cap e.1 session_auth (md_now d) ->
    Forall harmless (anomalies_of (cp_actor_id cap) m ad s)
    /\ permitted (layers_of sp op rp) (effective_trust (sk_delegation s) (cp_capability_id cap) trust)
    /\ sk_quarantine e.2 = sk_quarantine s).
  { intros conn cap e Hd. pose proof (do_cappo _ _ _ _ _ _ _ Hd) as (Ha & _).
    pose proof (assessment_facts (cp_actor_id cap) (JObj (cp_payload cap)) m trust (cp_capability_id cap) sp op rp (md_now d) ad s Hn) as (Hiff & Hq & _).
    assert (Hal : dget e.1 "allow" = JBool true).
    { assert (Eb : exists b, dget e.1 "allow" = JBool b) by (eexists; apply assess_allow).
      destruct Eb as [b Eb]. rewrite Eb in *. change (b = true) in Ha. by rewrite Ha. }
    apply Hiff in Hal as [Hh Hp]. split_and!; [done..|]. by apply Hq. }
  split.
  - destruct Hcase as [[-> He]|(conn & cap & assessment & Hno & [= <-] & Hd & Hcl & _)]; [left; by split|]. right. exists conn, cap.
    rewrite Hno. destruct (Hdec conn cap Hd) as (? & ? & ?). by split_and!.
  - intros conn cap Hr Hnh. destruct (normalize_request repr_of validation_text hs raw d) as [[conn0 cap0]|] eqn:Hno; [|done].
    injection Hr as -> ->. destruct Hcase as [[-> He]|(conn' & cap' & assessment & [= <- <-] & [= <-] & Hd & _)].
    + split_and!; [done..|].
      destruct (assessment_facts (cp_actor_id cap) (JObj (cp_payload cap)) m trust (cp_capability_id cap) sp op rp (md_now d) ad s Hn)
        as (_ & _ & Hq). destruct (Hq Hnh) as (qr & H1 & H2 & H3 & _). by exists qr.
    + destruct (Hdec conn cap Hd) as (Hh & _). by destruct Hnh.
Qed.
End decisions.

(** ** What an authorization decides *)

Section authorizing.
Context `{EiWorld} (repr_float : float -> string) (repr_of : json -> string).
Context (py_float : json -> res string float) (py_int : json -> res string Z).
Local Abbreviation assess := (pre_execution_assessment repr_float).

Lemma at_hour_Ok now h at_ : at_hour now h = Ok at_ -> 0 <= h < 24 /\ hour_of at_ = h.
Proof.
  unfold at_hour, hour_of, us_day. destruct ((0 <=? h) && (h <? 24)) eqn:E; [|done]. apply andb_true_iff in E as [E1%Z.leb_le E2%Z.ltb_lt].
  intros [= <-]. split; [lia|].
  replace (now / (86400 * 1000000) * (86400 * 1000000) + h * (3600 * 1000000))
    with ((now / (86400 * 1000000) * 24 + h) * (3600 * 1000000)) by lia.
  rewrite Z.div_mul by lia. rewrite Z.add_comm, Z.mod_add by lia. by apply Z.mod_small.
Qed.

(** The converted arguments of the assessment. *)
Definition authorization_args (payload : dict) (now : Z) (metric : CurrentMetric) (trust : float) (at_ : Z) : Prop :=
  exists rph fr tod,
    py_float (dget_or payload "requests_per_hour" (JFloat "0.0")) = Ok rph /\ py_float (dget_or payload "failure_rate" (JFloat "0.0")) = Ok fr
    /\ py_int (dget_or payload "time_of_day" (JInt 12)) = Ok tod /\ py_float (dget_or payload "trust_score" (JFloat "75.0")) = Ok trust
    /\ at_hour now tod = Ok at_ /\ metric = mk_metric rph fr tod [].

(** What an approval stands on. *)
Record authorized (payload : dict) (now : Z) (d : assess_draws) (s : stack) (directive risk_tier : string) (metric : CurrentMetric)
    (trust : float) (at_ : Z) : Prop := mk_authorized {
  au_agent : truthy (dget payload "agent_id") = true;
  au_directive : normalize_directive repr_of payload true = Ok (directive, risk_tier) /\ directive ∈ ALLOW_DIRECTIVES;
  au_risk : risk_tier <> "critical";
  au_args : authorization_args payload now metric trust at_;
  au_hour : 9 <= cm_time_of_day metric < 17;
  au_safe : Forall harmless (anomalies_of (str_of repr_of (dget payload "agent_id")) metric d s);
  au_trust : fleb zero (effective_trust (sk_delegation s) (str_of repr_of (dget_or payload "capability_id" (JStr "exec"))) trust) = true }.

Lemma directive_permitted directive tier trust :
  permitted (layers_of None None (Some (directive_policy directive tier))) trust <-> fleb zero trust = true.
Proof.
  unfold permitted, layers_of. cbn [opt_list app]. split.
  - intros [?|(_ & _ & _ & Ht)]; [done|exact Ht].
  - intros Ht. right. split; [exists (directive_policy directive tier); split; [by apply list_elem_of_singleton|reflexivity]|].
    split; [intros p ->%list_elem_of_singleton; reflexivity|]. split; [intros p ->%list_elem_of_singleton; reflexivity|exact Ht].
Qed.

Lemma business_approval directive tier at_ :
  ep_requires_approval (resolve_at business_hours (merge None None (Some (directive_policy directive tier))) at_)
  = bool_decide (directive ∈ APPROVAL_DIRECTIVES) || str_eqb tier "critical" || negb ((9 <=? hour_of at_) && (hour_of at_ <? 17)).
Proof.
  unfold resolve_at, business_hours. cbn [foldl]. unfold apply_window, contains. cbn [tw_start_hour tw_end_hour].
  change (17 <=? 9) with false. cbv iota.
  assert (E : (17 <=? hour_of at_) || (hour_of at_ <? 9) = negb ((9 <=? hour_of at_) && (hour_of at_ <? 17))) by lia.
  rewrite E. destruct (negb _); cbn [merge layers_of opt_list app existsb ep_requires_approval directive_policy po_requires_approval tw_requires_approval];
    by rewrite ?orb_true_r, ?orb_false_r.
Qed.

Lemma args_spec payload now x :
  (let? rph := py_float (dget_or payload "requests_per_hour" (JFloat "0.0")) in
   let? fr := py_float (dget_or payload "failure_rate" (JFloat "0.0")) in
   let? tod := py_int (dget_or payload "time_of_day" (JInt 12)) in
   let? trust := py_float (dget_or payload "trust_score" (JFloat "75.0")) in
   let? at_ := at_hour now tod in
   Ok (mk_metric rph fr tod [], trust, at_)) = Ok x <-> authorization_args payload now x.1.1 x.1.2 x.2.
Proof.
  unfold authorization_args. split.
  - intros Hx. res_inv Hx. injection Hx as <-. eauto 12.
  - intros (rph & fr & tod & -> & -> & -> & -> & Ha & Hm). simpl. rewrite Ha. simpl. destruct x as [[? ?] ?]. simpl in *. by subst.
Qed.

(** The decision on an assessment. *)
Lemma decision_approved agent request metric trust cap directive tier now tod at_ d s :
  sk_windows s = business_hours -> at_hour now tod = Ok at_ -> cm_time_of_day metric = tod ->
  let a := assess agent request metric trust cap None None (Some (directive_policy directive tier)) at_ d s in
  let g := as_dict (dget a.1 "governance") in
  (if negb (truthy (dget a.1 "allow")) then ("REJECTED", "safety assessment denied the request")
   else if negb (truthy (dget g "is_valid")) || negb (truthy (dget g "policy_allows"))
   then ("REJECTED", "governance policy denied the request")
   else if truthy (dget g "requires_approval") then ("NEEDS_APPROVAL", "governance policy requires approval")
   else ("APPROVED", "governance policy approved the request")).1 = "APPROVED"
  <-> (directive ∉ APPROVAL_DIRECTIVES) /\ tier <> "critical" /\ 9 <= cm_time_of_day metric < 17
      /\ Forall harmless (anomalies_of agent metric d s) /\ fleb zero (effective_trust (sk_delegation s) cap trust) = true.
Proof.
  intros Hw Hat Htod a g.
  destruct (assess_allow repr_float agent request metric trust cap None None (Some (directive_policy directive tier)) at_ d s) as (Ha & _ & gd & Eg & Hp & Hv & Hr).
  pose proof (assessment_facts repr_float agent request metric trust cap None None (Some (directive_policy directive tier)) at_ d s (Forall_nil_2 _)) as (Hiff & _).
  unfold g, a. rewrite directive_permitted in Hiff. rewrite Eg. cbn [as_dict]. rewrite Hv, Hp, Hr, Hw, business_approval. cbn [truthy negb orb].
  destruct (at_hour_Ok _ _ _ Hat) as [_ ->]. rewrite Htod. rewrite Ha in Hiff |- *. cbv zeta in *. cbn [truthy].
  assert (Hno : forall x, x <> "APPROVED" -> forall P : Prop, ~ P -> x = "APPROVED" <-> P) by tauto.
  destruct (held (anomalies_of agent metric d s)); cbn [negb andb fst] in *; [apply Hno; [done|]; intuition congruence|].
  set (c := pm_can_execute _) in *. clearbody c. destruct c; cbn [negb fst] in *; [|apply Hno; [done|]; intuition congruence].
  case_bool_decide as Hd; cbn [orb fst]; [apply Hno; [done|]; tauto|].
  destruct (str_eqb tier "critical") eqn:Et; cbn [orb fst]; [apply str_eqb_spec in Et; apply Hno; [done|]; tauto|]. apply str_eqb_neq in Et.
  destruct ((9 <=? tod) && (tod <? 17)) eqn:Eh; cbn [negb fst]; [|apply Hno; [done|]; lia].
  split; [|done]. intros _. split; [done|]. split; [done|]. split; [lia|]. by apply Hiff.
Qed.

Lemma decide_approved payload now d s :
  sk_windows s = business_hours ->
  (exists reason ev, (decide_authorization repr_float repr_of py_float py_int payload now d s).1 = Ok ("APPROVED", reason, ev))
  <-> exists directive tier metric trust at_, authorized payload now d s directive tier metric trust at_.
Proof.
  intros Hw. unfold decide_authorization. split.
  - intros (reason & ev & Hd). destruct (truthy (dget payload "agent_id")) eqn:Eag; cbn [negb] in Hd; [|done].
    destruct (normalize_directive repr_of payload true) as [[directive tier]|] eqn:En; [|done].
    case_bool_decide as Hdeny; [done|]. case_bool_decide as Hin; cbn [negb] in Hd; [|done].
    destruct (rbind _ _) as [x|e] eqn:Ex in Hd; [|done]. apply args_spec in Ex. destruct x as [[metric trust] at_]. cbn [fst snd] in Ex, Hd.
    pose proof Ex as (rph & fr & tod & _ & _ & _ & _ & Hat & Hm). injection Hd as Hdec _ _.
    assert (Ht0 : cm_time_of_day metric = tod) by (by rewrite Hm).
    apply (decision_approved (str_of repr_of (dget payload "agent_id")) (py_or (dget payload "request") (JObj [])) metric trust
      (str_of repr_of (dget_or payload "capability_id" (JStr "exec"))) directive tier now tod at_ d s Hw Hat Ht0)
      in Hdec as (Hna & Hc & Hh & Hs & Ht).
    exists directive, tier, metric, trust, at_. apply elem_of_app in Hin as [Hin|Hin]; [|done]. by split.
  - intros (directive & tier & metric & trust & at_ & [Ha [Hn Hin] Hc Hx Hh Hs Ht]). rewrite Ha, Hn. cbn [negb].
    pose proof Hx as (rph & fr & tod & _ & _ & _ & _ & Hat & Hm). apply (args_spec payload now (metric, trust, at_)) in Hx. rewrite Hx.
    assert (Hdirs : (directive ∉ DENY_DIRECTIVES) /\ (directive ∉ APPROVAL_DIRECTIVES)).
    { unfold ALLOW_DIRECTIVES in Hin. rewrite !elem_of_cons, elem_of_nil in Hin. destruct Hin as [->|[->|[]]]; split; by apply (bool_decide_unpack _). }
    destruct Hdirs as [Hdeny Hna]. rewrite bool_decide_false by done.
    rewrite bool_decide_true by (apply elem_of_app; by left). cbn [negb fst]. eexists _, _. do 2 f_equal. f_equal.
    assert (Ht0 : cm_time_of_day metric = tod) by (by rewrite Hm).
    by apply (decision_approved (str_of repr_of (dget payload "agent_id")) (py_or (dget payload "request") (JObj [])) metric trust
      (str_of repr_of (dget_or payload "capability_id" (JStr "exec"))) directive tier now tod at_ d s Hw Hat Ht0).
Qed.

(** C14: the authorization endpoint approves exactly the requests of a named
    agent whose directive explicitly allows, at a risk tier other than
    critical, between nine and seventeen o'clock of the stated time of day,
    with arguments Python can convert, no anomaly that asks to block or to
    quarantine, and a trust after delegation that is not negative; everything
    else, errors of the evaluation included, is answered with another
    decision. *)
Theorem authorization_approves payload now d s :
  sk_windows s = business_hours ->
  (exists decision, dget (evaluate_authorization repr_float repr_of py_float py_int payload now d s).1 "decision" = JStr decision
     /\ (decision = "APPROVED" <-> exists directive tier metric trust at_, authorized payload now d s directive tier metric trust at_)).
Proof.
  intros Hw. pose proof (decide_approved payload now d s Hw) as Hda. unfold evaluate_authorization. cbn [fst].
  destruct (decide_authorization _ _ _ _ _ _ _ _).1 as [[[decision reason] ev]|e] eqn:E; eexists; (split; [reflexivity|]); rewrite <- Hda; clear Hda.
  - cbn [fst]. split; [intros ->; by eexists _, _|]. by intros (r & e & [= -> _ _]).
  - split; [done|]. by intros (r & ev & ?).
Qed.
End authorizing.
