(* ===== verification/AdmissionDemo.v ===== *)
(** * Admission at work

    A minted token on the outside world of RunDemo, a ledger with one hold, gates
    at their limits, and a mount whose package gates sending behind human
    approval, a tool call, an agent with a baseline, and a file that two executions
    append to: the witnesses of Edge, Budget, PaymentGate, EvidenceProperties,
    McpProperties, Safety, Governance, McpStack, Connector and Target. *)

From Stdlib Require Import ZArith Lia Ascii String SpecFloat.
From stdpp Require Import base gmap strings list pretty sorting.
From S2P Require Import Target Prelude Canon PyJson VdbExample MountModels Lease Consequence Mounts Permits MountDemo Engine Biscuit BiscuitDemo Registry Ledger Identity Runs RunDemo Edge Budget PaymentGate PyLoads Evidence EvidenceProperties Connector McpAdapter McpProperties PyFloat Safety Governance McpStack.

Local Open Scope Z_scope.

Module EdgeDemo.
Definition orch : orchestrator := RunDemo.orch (Answered []).
Definition ei : dict :=
  [("execution_id", JStr "ex-1"); ("directive", JStr "ALLOW"); ("scope", JObj [("tools", JArr [JStr "llm.exec"])]);
   ("budget_approved_cents", JInt 50); ("pgl_pre_certificate_id", JStr "cert-1"); ("genome_hash", JStr "g");
   ("constitution_hash", JStr "c"); ("plan_hash", JStr "p"); ("risk_tier", JStr "standard")].
Definition eat : dict :=
  match eat_build ei "agent-1" (JStr "cert-1") 75 "standard" "id-1" "nonce-1" (o_signing_key orch) 1000 with Ok e => e | Err _ => [] end.
Definition idle : edge := mk_edge ∅ [].
End EdgeDemo.
Import EdgeDemo.

Lemma minted_eat_accepted_once_witness :
  exists w1, require_eat (o_signing_key orch) "cappo-edge-mcp" 2000 7 (Some eat) "llm.exec" 20 idle = Ret tt w1
    /\ (forall w2 wall' mono' action' cost',
          steps (present (o_signing_key orch) "cappo-edge-mcp" 300000007) w1 w2 -> mono' < 300000007 ->
          exists e w3, require_eat (o_signing_key orch) "cappo-edge-mcp" wall' mono' (Some eat) action' cost' w2 = Raise e w3)
    /\ (forall w2 wall' mono' action' cost', 300001000 <= wall' ->
          exists e w3, require_eat (o_signing_key orch) "cappo-edge-mcp" wall' mono' (Some eat) action' cost' w2 = Raise e w3).
Proof.
  apply (minted_eat_accepted_once orch ei "agent-1" (JStr "cert-1") 75 "standard" "id-1" "nonce-1" 1000 2000 7 eat "llm.exec" 20 idle).
  - vm_compute. reflexivity.
  - reflexivity.
  - discriminate.
  - left. reflexivity.
  - right. exists [("tools", JArr [JStr "llm.exec"])], [JStr "llm.exec"]. repeat split; try reflexivity. left.
  - right. exists 50. split; [reflexivity|lia].
  - lia.
  - reflexivity.
Defined.

Module MoneyDemo.
Definition start : bank := mk_bank {["ws" := 500]} ∅ [] (mk_audit_state [] []).
Definition hold : WorkspaceBudgetHold := mk_hold "ws" 120 ACTIVE.
Definition held_bank : bank := set_holds start {["ex" := hold]}.

Definition up : nat -> option string := fun _ => None.
Definition limits : gate_settings := mk_gate_settings 1000 10000000 2 true.
Definition server : redis := mk_redis ∅ ∅.
Definition closed : gate := mk_gate ∅ ∅ {["ws" := 500]} (Some server).
Definition used : FreeRunQuota := mk_quota 1 1 day.
Definition spent : gate := mk_gate ∅ {["ws" := used]} ∅ (Some server).
Definition nothing : PG unit := eret tt.
End MoneyDemo.
Import MoneyDemo.

Lemma start_opened : opened start.
Proof.
  split; [done|]. split; [done|]. split; [done|]. intros ws bal Hw. simpl in Hw. apply lookup_singleton_Some in Hw as [_ <-]. lia.
Qed.
Lemma start_held : steps ledger_step start held_bank.
Proof. apply (steps_snoc start start); [apply steps_refl|]. apply (did_reserve start "ex" "ws" 120 hold). by vm_compute. Qed.

Lemma ledger_conserves_witness :
  exists bal, b_balances held_bank !! "ws" = Some bal /\ bal + paid "ws" held_bank = 500 /\ 0 <= active_holds "ws" (b_holds held_bank) <= bal.
Proof.
  destruct (ledger_conserves start held_bank) as [Hc _]; [apply start_opened|apply start_held|]. by apply Hc.
Defined.

Lemma hold_settles_once_witness :
  exists r b1 bal, settle_local "ex" "ev" "/n8n" "l1" 5 held_bank = Ok (r, b1) /\ sr_already_settled r = false
    /\ b_balances held_bank !! "ws" = Some bal /\ b_balances b1 = <["ws" := bal - 120]> (b_balances held_bank)
    /\ release "ex" (Budget.set_budget "ws" 0 b1) = Err (SettlementConflict "settled hold cannot be released").
Proof.
  destruct (hold_settles_once start held_bank "ex" hold "ev" "/n8n" "l1" 5) as (bal & Hb & Hc & Hm).
  - apply start_opened.
  - apply (steps_snoc start start); [apply steps_refl|]. apply did_ledger, (did_reserve start "ex" "ws" 120 hold). by vm_compute.
  - reflexivity.
  - reflexivity.
  - specialize (Hc start_held). destruct (settle_local "ex" "ev" "/n8n" "l1" 5 held_bank) as [[r b1]|e] eqn:E.
    + destruct Hm as (_ & Hn & _ & Hb1 & Hlater). exists r, b1, bal. split_and!; [done..|].
      apply (Hlater (Budget.set_budget "ws" 0 b1)). eapply steps_snoc; [apply steps_refl|apply did_set_budget].
    + exfalso. destruct Hm as [[_ Hx]|[_ (p & Hp & _)]]; [lia|]. by apply elem_of_nil in Hp.
Defined.

Lemma gate_admits_witness :
  check limits up "ws" 120 7 closed = Ret tt (charged "ws" 7 closed) /\ ~ admissible limits "ws" 501 7 closed.
Proof.
  split.
  - apply (gate_admits limits up). split; [|split; [reflexivity|reflexivity]]. split; [done| |done|].
    + split; [reflexivity|]. by repeat split.
    + intros _ bal Hb. vm_compute in Hb. injection Hb as <-. lia.
  - intros [_ _ _ Hb]. specialize (Hb ltac:(lia) 500 eq_refl). lia.
Defined.

Lemma refused_runs_exhaust_node_witness :
  let w' := foldl (fun w t => oworld (paid_run limits up up "ws" 0 t t nothing w)) spent [1; 2] in
  exists e w2, paid_run limits up up "other" 0 day day nothing w' = Raise e w2.
Proof.
  destruct (refused_runs_exhaust_node limits up "ws" used 0 nothing 0 [1; 2] spent server) as [_ Hx].
  - reflexivity.
  - split; [reflexivity|]. split; [simpl; lia|]. intros sw. done.
  - reflexivity.
  - split; try done. right. by split.
  - repeat constructor.
  - by apply Hx.
Defined.


Lemma bits_text p : utf8_text (bits p) = true.
Proof. apply ascii_utf8. by induction p. Qed.

#[export] Instance run_evidence : EvidenceLaws (H := run_ext).
Proof. split; [intros m; apply bits_text|]. intros [|p|p]; [done|..]; apply (bits_text p). Qed.

Module MailDemo.
Definition package : CapabilityPackage :=
  mk_package "mailer@v1" ["mail.read"] ["mail.send"] [] ["mail.send"] [] (Some "mail.gateway") None None None None false.
Definition scope : MountScope := mk_scope "ws-1" "outreach" None None (Some ["inbox"]) [] None.
Definition request : mount_request :=
  mk_mount_request "mailer@v1" scope default_policy 300 "alice" None (Some "exec-1") None None None None None None None.
Definition drawn : draws := mk_draws "m" "e" "t" "nonce-1" "s" 5000000 6000000.
Definition repr : string -> string := id.
Definition reg : registry :=
  mk_registry {["mailer@v1" := package]} (fun _ _ _ => mk_anchor "confirmed" (Some "a1") None)
    (bound_verifier repr "approval-key" "suppression-key" 7000000) false (fun _ => 7000000) "0".

Definition db0 : cdb := mk_cdb ∅ [] ∅ [] ∅ ∅ ∅.
Definition db1 : cdb := oworld (request_mount reg request drawn db0).
Definition row : mount_row := default demo_row (d_mounts db1 !! "mnt_m").
Definition token : string :=
  match issue "human_approval" "approval-key" "alice" (mr_record row) "mail.send" "nonce-1" 300 (Some "ev-1") "" 6500000 with
  | Ok t => t | Err _ => "" end.
Definition send := evaluate reg "mnt_m" "mail.send" (Some "inbox") "tok_t" "nonce-1" "alice" (Some "ws-1") (Some token) None None.
Definition db2 : cdb := oworld (send db1).
End MailDemo.
Import MailDemo.

Example mail_unapproved :
  evaluate reg "mnt_m" "mail.send" (Some "inbox") "tok_t" "nonce-1" "alice" (Some "ws-1") None None None db1
  = Ret (DENY, "human_approval_not_verified", None) db1.
Proof. vm_compute. reflexivity. Qed.
Example mail_sent : send db1 = Ret (ALLOW, "allowed", Some "rcpt_a1") db2.
Proof. vm_compute. reflexivity. Qed.

Lemma issued_evidence_verifies_witness :
  verify repr "approval-key" "suppression-key" 7000000 (Some token) "human_approval" "alice" (mr_record row) "mail.send" "nonce-1"
  = Ok (Some (mk_verified "ev-1" "human_approval" (6500000 + 300 * second)), "verified").
Proof.
  apply (issued_evidence_verifies repr "approval-key" "suppression-key" "approval-key" "human_approval" "alice" (mr_record row)
           "mail.send" "nonce-1" 300 (Some "ev-1") "" 6500000 7000000 token).
  - vm_compute. reflexivity.
  - reflexivity.
Defined.

Lemma evidence_good_for_one_thing_witness :
  (exists ev, verify repr "approval-key" "suppression-key" 7000000 (Some token) "human_approval" "alice" (mr_record row) "mail.send" "nonce-1"
     = Ok (Some ev, "verified"))
  /\ forall principal' action' ev' reason',
       verify repr "approval-key" "suppression-key" 8000000 (Some token) "human_approval" principal' (mr_record row) action' "nonce-1"
       = Ok (Some ev', reason') -> principal' = "alice" /\ action' = "mail.send".
Proof.
  split; [eexists; vm_compute; reflexivity|]. destruct (evidence_good_for_one_thing repr "approval-key" "suppression-key" 7000000 (Some token) "human_approval" "alice" (mr_record row)
              "mail.send" "nonce-1" (mk_verified "ev-1" "human_approval" (6500000 + 300 * second)) "verified") as (_ & _ & Hx).
  - vm_compute. reflexivity.
  - intros principal' action' ev' reason' Hv. destruct (Hx _ _ _ _ _ _ _ _ _ _ Hv) as (_ & -> & -> & _). split; reflexivity.
Defined.

Lemma gated_action_was_approved_witness :
  exists tok payload ev, Some token = Some tok /\ signed_token repr "approval-key" tok payload
    /\ says 7000000 payload "human_approval" "alice" (mr_record row) "mail.send" "nonce-1" ev
    /\ d_consumed db1 !! ve_jti ev = None /\ is_Some (d_consumed db2 !! ve_jti ev).
Proof.
  destruct (gated_action_was_approved repr reg "approval-key" "suppression-key" 7000000 "mnt_m" "mail.send" (Some "inbox") "tok_t"
              "nonce-1" "alice" (Some "ws-1") (Some token) None None db1 row "allowed" (Some "rcpt_a1") db2) as [Ha _].
  - reflexivity.
  - exact mail_sent.
  - vm_compute. reflexivity.
  - apply Ha; [|vm_compute; reflexivity]. apply (bool_decide_unpack _). vm_compute. reflexivity.
Defined.

Module McpDemo.
Definition text (_ : dict) : string := "validation error".
Definition repr_json (_ : json) : string := "...".
Definition aware (_ : string) : bool := true.
Definition call : dict :=
  [("id", JInt 1); ("method", JStr "tools/call");
   ("params", JObj [("name", JStr "search"); ("arguments", JObj [("q", JStr "x")]);
                    ("_meta", JObj [("nonce", JStr "Nonce-0123456789")])])].
Definition session : json := JObj [("valid_session", JBool true); ("authenticated", JBool true); ("status", JStr "active")].
Definition assess (_ _ : string) (_ : dict) : res string dict := Ok [("allow", JBool true); ("evidence_hash", JStr "e")].
Definition drawn : mcp_draws := mk_mcp_draws "c" "i" "r" "x" 5000000.
Definition fresh : mcp := mk_mcp ∅ 0 [] [].
Definition handled := handle_tool_call repr_json aware text assess default_handler None [] (JObj call) session drawn.
Definition entered : mcp := oworld (validate_perimeter repr_json [] call session fresh).
Definition done_call : mcp := oworld (governed repr_json aware text assess default_handler None [] call session drawn entered).
End McpDemo.

Example tool_call_runs : length (ma_calls (oworld (McpDemo.handled McpDemo.fresh))) = 1%nat.
Proof. vm_compute. reflexivity. Qed.
Example tool_call_replayed : length (ma_calls (oworld (McpDemo.handled (oworld (McpDemo.handled McpDemo.fresh))))) = 1%nat.
Proof. vm_compute. reflexivity. Qed.

Lemma mcp_nonce_executes_once_witness : NoDup (map (fun c => cp_nonce c.2) (ma_calls McpDemo.done_call)).
Proof.
  apply (mcp_nonce_executes_once McpDemo.repr_json McpDemo.aware McpDemo.text McpDemo.done_call []).
  eapply steps_snoc; [eapply steps_snoc; [apply steps_refl|]|].
  - apply (step_enter _ _ _ McpDemo.fresh [] [] McpDemo.call McpDemo.session "nonce-0123456789" McpDemo.entered). vm_compute. reflexivity.
  - eapply (step_run _ _ _ McpDemo.entered [] [] [] McpDemo.call McpDemo.session McpDemo.assess default_handler None McpDemo.drawn).
    vm_compute. reflexivity.
Defined.

Module StackDemo.
Definition text_float (_ : float) : string := "0.0".
(** Ten observations at noon, of eight to twelve requests an hour, and a
    baseline like one learned from many. *)
Definition observed : baselines :=
  foldl (fun s k => record_observation "spiker" (mk_observation (43200 * 1000000 + Z.of_nat k) (8 + Z.of_nat (k mod 5)) (ratio 1 20) ["search"] None)
                      (43200 * 1000000) s)
    (mk_baselines ∅ ∅) (seq 0 10).
Definition learned : BehavioralBaseline :=
  mk_baseline 30 (of_Z 10) (ratio 3 2) (ratio 1 20) (S754_zero false) {["search" := 60]} [12] ∅ (of_Z 60) 0 true.
Definition watched : stack :=
  mk_stack (mk_baselines ∅ {["spiker" := learned]}) [] (mk_costs ∅ []) ∅ fresh_correlation fresh_quarantine fresh_tracker business_hours.
Definition drawn : assess_draws := mk_assess_draws (mk_detect_draws (fun _ => "d") (fun _ => 5000000)) "q-1" (5000000, 5000000) 5000000 5000000 5000000.
Definition quiet : CurrentMetric := mk_metric (of_Z 10) (ratio 1 20) 12 [].
Definition loud : CurrentMetric := mk_metric (of_Z 14) (ratio 1 20) 12 [].
Definition policy : Policy := mk_policy "owner" [allow_effect] (Some 5) (Some (of_Z 60)) false None None.
Definition policies : list float := asked (layers_of None (Some policy) None).
Definition assessed (m : CurrentMetric) (trust : Z) : dict * stack :=
  pre_execution_assessment text_float "spiker" (JObj []) m (of_Z trust) "search" None (Some policy) None 0 drawn watched.
Definition queue : quarantine_service :=
  (quarantine "q-1" (JObj []) (anomalies_of "spiker" loud drawn watched) None 5000000 5000000 fresh_quarantine).2.
Definition approved_by (q : quarantine_service) (who : string) : quarantine_service := oworld (approve text_float "q-1" who (of_Z 85) 6000000 q).
Definition called (m : CurrentMetric) :=
  handle_on_stack text_float McpDemo.repr_json McpDemo.aware McpDemo.text (Some m) (of_Z 90) None (Some policy) None drawn default_handler None
    [("X-Agent-ID", "spiker")] (JObj McpDemo.call) McpDemo.session McpDemo.drawn McpDemo.fresh watched.
Definition pf (v : json) : res string float := match v with JInt z => Ok (of_Z z) | JFloat _ => Ok (of_Z 75) | _ => Err "TypeError" end.
Definition pi (v : json) : res string Z := match v with JInt z => Ok z | _ => Err "TypeError" end.
Definition ask (directive : string) (hour : Z) : dict :=
  [("agent_id", JStr "spiker"); ("directive", JStr directive); ("time_of_day", JInt hour); ("requests_per_hour", JInt 10); ("failure_rate", JFloat "0.05")].
Definition answer (directive : string) (hour : Z) : json :=
  dget (evaluate_authorization text_float McpDemo.repr_json pf pi (ask directive hour) 0 drawn fresh_stack).1 "decision".
End StackDemo.
Import StackDemo.

Example baseline_of_ten :
  match build_baseline "spiker" 0 observed with
  | Ok (b, _) => (bl_avg_requests b, bl_std_failures b, bl_typical_time_windows b, bl_is_locked b) = (of_Z 10, zero, [12], false)
      /\ fltb (bl_confidence_score b) (of_Z 50) = true
  | Err _ => False
  end.
Proof. vm_compute. split; reflexivity. Qed.
Example quiet_allowed : map (fun t => dget (assessed quiet t).1 "allow") [90; 40] = [JBool true; JBool false].
Proof. vm_compute. reflexivity. Qed.
Example loud_held : dget (assessed loud 90).1 "allow" = JBool false
  /\ sk_quarantine (assessed loud 90).2 = queue
  /\ map (fun kv => (kv.1, qr_status kv.2, qr_approval_required kv.2)) (qs_quarantined queue) = [("q-1", quarantined, true)].
Proof. vm_compute. split; [|split]; reflexivity. Qed.
Example calls_on_stack : map (fun m => length (ma_calls (oworld (called m).1))) [quiet; loud] = [1%nat; 0%nat].
Proof. vm_compute. reflexivity. Qed.
Example answers : [answer "allow" 12; answer "allow" 20; answer "" 12; answer "deny" 12; answer "allow" 30]
  = map JStr ["APPROVED"; "NEEDS_APPROVAL"; "NEEDS_APPROVAL"; "REJECTED"; "REJECTED"].
Proof. vm_compute. reflexivity. Qed.

#[local] Opaque learned.

Lemma asks_no_nan : Forall (fun x => x <> S754_nan) policies.
Proof. repeat constructor; vm_compute; discriminate. Qed.

Lemma assessment_decides_witness :
  Forall harmless (anomalies_of "spiker" quiet drawn watched)
  /\ permitted (layers_of None (Some policy) None) (effective_trust (sk_delegation watched) "search" (of_Z 90)).
Proof.
  destruct (assessment_decides text_float "spiker" (JObj []) quiet (of_Z 90) "search" None (Some policy) None 0 drawn watched asks_no_nan) as [Hd _].
  apply Hd. vm_compute. reflexivity.
Defined.

Lemma stack_governs_tool_calls_witness :
  exists qr, assoc "q-1" (qs_quarantined (sk_quarantine (called loud).2)) = Some qr /\ qr_status qr = quarantined.
Proof.
  destruct (stack_governs_tool_calls text_float McpDemo.repr_json McpDemo.aware McpDemo.text (Some loud) (of_Z 90) None (Some policy) None drawn
              default_handler None [("X-Agent-ID", "spiker")] (JObj McpDemo.call) McpDemo.session McpDemo.drawn McpDemo.fresh watched asks_no_nan)
    as (resp & w' & _ & _ & Hq).
  destruct (reached McpDemo.repr_json McpDemo.text [("X-Agent-ID", "spiker")] (JObj McpDemo.call) McpDemo.session McpDemo.drawn McpDemo.fresh)
    as [[conn cap]|] eqn:Er; [|vm_compute in Er; discriminate Er].
  destruct (Hq conn cap eq_refl) as (_ & _ & qr & H1 & H2 & _); [|exists qr; split; [exact H1|exact H2]].
  vm_compute in Er. injection Er as <- <-. intros Hh. apply held_spec in Hh. vm_compute in Hh. discriminate Hh.
Defined.

Lemma quarantine_quorum_witness :
  exists qr, assoc "q-1" (qs_quarantined (approved_by (approved_by queue "ann") "bob")) = Some qr
    /\ (qr_approvers_required qr <= length (qr_approvals_received qr))%nat.
Proof.
  eexists. split; [vm_compute; reflexivity|].
  destruct (quarantine_quorum text_float (approved_by (approved_by queue "ann") "bob") [("q-1", "ann", of_Z 85); ("q-1", "bob", of_Z 85)] "q-1"
              (default (quarantine "" JNull [] None 0 0 fresh_quarantine).1 (assoc "q-1" (qs_quarantined (approved_by (approved_by queue "ann") "bob"))))) as [Ha _].
  - eapply (steps_snoc _ (approved_by queue "ann", [("q-1", "ann", of_Z 85)])).
    + eapply (steps_snoc _ (queue, [])).
      * refine (steps_snoc _ (fresh_quarantine, []) _ (steps_refl _) _).
        exact (step_quarantine text_float fresh_quarantine [] "q-1" (JObj []) (anomalies_of "spiker" loud drawn watched) None 5000000 5000000 eq_refl).
      * exact (step_approve text_float queue [] "q-1" "ann" (of_Z 85) 6000000).
    + exact (step_approve text_float (approved_by queue "ann") [("q-1", "ann", of_Z 85)] "q-1" "bob" (of_Z 85) 6000000).
  - vm_compute. reflexivity.
  - destruct Ha as (_ & _ & Hn & _); [vm_compute; reflexivity|]. vm_compute in Hn. exact Hn.
Defined.

Lemma authorization_approves_witness :
  exists directive tier metric trust at_, authorized McpDemo.repr_json pf pi (ask "allow" 12) 0 drawn fresh_stack directive tier metric trust at_.
Proof.
  destruct (authorization_approves text_float McpDemo.repr_json pf pi (ask "allow" 12) 0 drawn fresh_stack eq_refl) as (decision & Hd & Hiff).
  apply Hiff. vm_compute in Hd. injection Hd as <-. reflexivity.
Defined.

Lemma delegation_bounded_witness :
  exists t, steps dstep fresh_tracker t /\ chain_ok (chain_of t "search").
Proof.
  exists (oworld (delegate "search" "root" "a" "h1" "d1" fresh_tracker)).
  assert (Hs : steps dstep fresh_tracker (oworld (delegate "search" "root" "a" "h1" "d1" fresh_tracker))).
  { eapply steps_snoc; [apply steps_refl|]. apply step_delegate. }
  split; [exact Hs|]. exact (proj1 (delegation_bounded _ "search" Hs)).
Defined.

Module FileDemo.
Definition fr (s : string) : string := s.
Definition ct : connector := mk_connector "sandbox-file:/srv/notes.jsonl" 4096.
Definition plain : fs_view := mk_fs true true 1.
Definition claims (id : string) : dict :=
  [("execution_id", JStr id); ("allowed_actions", JArr [JStr APPEND_ACTION; JStr COMPENSATE_ACTION]); ("allowed_resources", JArr [JStr (ct_resource ct)])].
Definition noted (id text : string) (wr : write) : C dict := append fr ct true plain "2026-01-01T00:00:00Z" wr (claims id) (JStr text).
Definition undone (id comp : string) : C dict := compensate fr ct true plain "2026-01-02T00:00:00Z" whole (claims id) comp.
Definition records_in (f : file) : nat := match f with Some l => length (filter (fun c => c = newline) l) | None => 0 end.
Definition first : file := oworld (noted "e1" "hello" whole None).
Definition second : file := oworld (undone "e2" "e1" first).
End FileDemo.
Import FileDemo.

Example retry_appends_nothing :
  records_in (oworld (noted "e1" "hello" whole first)) = 1%nat /\ records_in second = 2%nat
  /\ noted "e1" "other" whole first = Raise (ConnectorConflict "execution_id reused with different action data") first
  /\ undone "e3" "e2" second = Raise (ConnectorDenied "DENY: original append is not proven") second.
Proof. vm_compute. repeat split. Qed.
Example lease_scope : authorize ct true (("allowed_resources", JArr []) :: claims "e1") APPEND_ACTION = Err (ConnectorDenied "DENY: resource is outside lease scope")
  /\ authorize ct false (("allowed_resources", JArr []) :: claims "e1") APPEND_ACTION = Err (OtherExc "FileNotFoundError").
Proof. vm_compute. split; reflexivity. Qed.

(** After a torn write the next record continues the torn line, so it is never
    found: its retry, asked and answered with a receipt again, appends again. *)
Example torn_append_repeats :
  let f1 := oworld (noted "e1" "hello" (short 5) None) in
  let f2 := oworld (noted "e2" "world" whole f1) in
  let f3 := oworld (noted "e2" "world" whole f2) in
  records_in f2 = 1%nat /\ records_in f3 = 2%nat.
Proof. vm_compute. split; reflexivity. Qed.

Lemma wf_demo (e : entry) : action_of ct (en_id e) (en_action e) ->
  (utf8_text (en_id e) && utf8_text (en_operation e) && utf8_text (en_time e) && (digits_of (count_at ct e) <=? MAX_STR_DIGITS)%nat) = true -> entry_wf ct e.
Proof.
  intros Ha. rewrite !andb_true_iff, Nat.leb_le. intros [[[H1 H2] H3] H4]. by split.
Qed.

Lemma first_step : cstep fr ct None first.
Proof.
  unfold first, noted. apply (did_append fr ct true plain "2026-01-01T00:00:00Z" (claims "e1") (JStr "hello")). intros id text Hid Ht. vm_compute in Hid.
  injection Hid as <-. injection Ht as <-. apply wf_demo; [by constructor|vm_compute; reflexivity].
Qed.
Lemma second_step : cstep fr ct first second.
Proof.
  unfold second, undone. apply (did_compensate fr ct true plain "2026-01-02T00:00:00Z" (claims "e2") "e1"). intros id Hid. vm_compute in Hid.
  injection Hid as <-. apply wf_demo; [by constructor|vm_compute; reflexivity].
Qed.

Lemma connector_refines_log_witness : exists es es', stands ct first es /\ stands ct second es' /\ es `prefix_of` es'.
Proof.
  destruct (connector_refines_log fr ct first second) as (es & es' & Hs & _ & Hs' & _ & Hp).
  - reflexivity.
  - eapply steps_snoc; [apply steps_refl|apply first_step].
  - eapply steps_snoc; [apply steps_refl|apply second_step].
  - by exists es, es'.
Defined.

Lemma execution_appends_once_witness : exists receipt, noted "e1" "hello" whole None = Ret receipt first /\ noted "e1" "hello" whole second = Ret receipt second.
Proof.
  destruct (noted "e1" "hello" whole None) as [receipt f|x f|f] eqn:En; [|vm_compute in En; discriminate En..].
  assert (Ef : f = first) by (unfold first; rewrite En; reflexivity). subst f. exists receipt. split; [reflexivity|].
  destruct (execution_appends_once fr ct true plain "2026-01-01T00:00:00Z" (claims "e1") "e1" "hello" receipt None first second) as (_ & Hagain & _).
  - reflexivity.
  - apply steps_refl.
  - reflexivity.
  - apply wf_demo; [constructor; reflexivity|vm_compute; reflexivity].
  - exact En.
  - eapply steps_snoc; [apply steps_refl|apply second_step].
  - apply Hagain; reflexivity.
Defined.

Module TargetDemo.
(** A token is the execution it names. *)
Definition kid (_ : string) : res string (option string) := Ok (Some "key-1").
Definition token_claims (token : string) : dict := claims token ++ [("jti", JStr ("j-" +:+ token)); ("lease_id", JStr "lease-1"); ("sub", JStr "agent-1")].
Definition decode (_ : Z) (token _ _ _ : string) : res string dict := Ok (token_claims token).
Definition calm : Target.env := Target.mk_env None (Ok (Some "a2V5")) 0 true plain "2026-01-01T00:00:00Z" whole.
Definition torn : Target.env := Target.mk_env None (Ok (Some "a2V5")) 0 true plain "2026-01-01T00:00:00Z" (short 5).
Definition hello : Target.ConnectorRequest := Target.mk_request APPEND_ACTION (Some "hello") None.
Definition undo (id : string) : Target.ConnectorRequest := Target.mk_request COMPENSATE_ACTION None (Some id).
Definition start : Target.target := Target.opening (Target.mk_revocations [] ∅) None.
Definition asked (e : Target.env) (id : string) (r : Target.ConnectorRequest) (w : Target.target) : option Target.thread * Target.target :=
  Target.execute fr ct kid decode (fun _ => e) (Some ("Bearer " +:+ id)) r w.
Definition told (x : option Target.thread * Target.target) : Z := match x.1 with Some (Target.Answered (Target.Success _)) => 200 | Some (Target.Answered (Target.Http s _)) => s | _ => 0 end.
Definition stop : Target.RevocationPolicy := Target.mk_rpolicy "LEASE" "lease-1" false "op" "incident" "a-1".
Definition stopped_at (w : Target.target) : Target.target := match Target.revoke None stop (Target.tg_revocations w) with Ok r => Target.set_revocations w r | Err _ => w end.
Definition one : Target.target := (asked calm "e1" hello start).2.
Definition states (w : Target.target) : list Target.ExecutionState := map Target.er_state (Target.tg_rows w).
End TargetDemo.

(** A request succeeds, its retry gets the same answer and changes nothing, and
    its compensation is another execution. *)
Example target_runs :
  TargetDemo.told (TargetDemo.asked TargetDemo.calm "e1" TargetDemo.hello TargetDemo.start) = 200
  /\ (TargetDemo.asked TargetDemo.calm "e1" TargetDemo.hello TargetDemo.one).1 = (TargetDemo.asked TargetDemo.calm "e1" TargetDemo.hello TargetDemo.start).1
  /\ TargetDemo.told (TargetDemo.asked TargetDemo.calm "e2" (TargetDemo.undo "e1") TargetDemo.one) = 200
  /\ TargetDemo.told (TargetDemo.asked TargetDemo.calm "e3" TargetDemo.hello (TargetDemo.stopped_at TargetDemo.one)) = 403.
Proof. vm_compute. repeat split. Qed.

(** A retry that is denied, because the lease was revoked in the meantime, turns
    the recorded success into a terminal failure. *)
Example denied_retry_unrecords :
  TargetDemo.states TargetDemo.one = [Target.SUCCEEDED]
  /\ TargetDemo.states (TargetDemo.asked TargetDemo.calm "e1" TargetDemo.hello (TargetDemo.stopped_at TargetDemo.one)).2 = [Target.FAILED_TERMINAL].
Proof. vm_compute. split; reflexivity. Qed.

(** After a torn write the execution is running for good. *)
Example torn_write_runs_forever :
  let w := (TargetDemo.asked TargetDemo.torn "e1" TargetDemo.hello TargetDemo.start).2 in
  TargetDemo.states w = [Target.RUNNING] /\ TargetDemo.told (TargetDemo.asked TargetDemo.calm "e1" TargetDemo.hello w) = 409.
Proof. vm_compute. split; reflexivity. Qed.

(** An execution id outside Latin-1 is carried out, recorded as a success and
    answered as a denial. *)
Example unheaderable_success :
  let x := TargetDemo.asked TargetDemo.calm "e€" TargetDemo.hello TargetDemo.start in
  TargetDemo.told x = 403 /\ TargetDemo.states x.2 = [Target.SUCCEEDED].
Proof. vm_compute. split; reflexivity. Qed.

Definition demo_thread : Target.thread := default (Target.Asked None TargetDemo.hello) (TargetDemo.asked TargetDemo.calm "e1" TargetDemo.hello TargetDemo.start).1.

Lemma one_ran : TargetDemo.asked TargetDemo.calm "e1" TargetDemo.hello TargetDemo.start = (Some demo_thread, TargetDemo.one).
Proof. unfold demo_thread, TargetDemo.one. destruct (TargetDemo.asked _ _ _ _) as [[t|] w] eqn:E; [reflexivity|]. exfalso. vm_compute in E. discriminate E. Qed.

Lemma one_served allowed : (forall k x v, (k < 9)%nat -> Target.run fr ct TargetDemo.kid TargetDemo.decode k (fun _ => TargetDemo.calm)
    (Target.Asked (Some "Bearer e1") TargetDemo.hello) TargetDemo.start = (Some x, v) -> allowed TargetDemo.calm x) ->
  steps (Target.served fr ct TargetDemo.kid TargetDemo.decode allowed) (TargetDemo.start, []) (TargetDemo.one, [demo_thread]).
Proof.
  intros Ha. eapply steps_trans; [eapply steps_snoc; [apply steps_refl|]|].
  - exact (Target.arrives fr ct TargetDemo.kid TargetDemo.decode allowed TargetDemo.start [] (Some "Bearer e1") TargetDemo.hello).
  - eapply Target.run_served; [exact Ha|exact one_ran].
Qed.

Lemma target_acts_once_witness : NoDup (map Target.cl_id (Target.tg_calls TargetDemo.one)) /\ length (Target.tg_calls TargetDemo.one) = 1%nat.
Proof.
  destruct (Target.target_acts_once fr ct TargetDemo.kid TargetDemo.decode (Target.mk_revocations [] ∅) None TargetDemo.one [demo_thread]) as [Hd _].
  - apply one_served. intros k x v _ _. exact I.
  - split; [exact Hd|vm_compute; reflexivity].
Defined.

Module FenceDemo.
Definition call : Target.call := Target.mk_call "key-1" (TargetDemo.token_claims "e2") TargetDemo.hello.
Definition waiting : list Target.thread := [Target.Rechecking call].
Definition after : Target.target := TargetDemo.stopped_at TargetDemo.one.
Definition refused : option Target.thread * Target.target :=
  Target.advance fr ct TargetDemo.kid TargetDemo.decode TargetDemo.calm (Target.Rechecking call) after.
End FenceDemo.

Lemma revocation_fences_target_witness : ~ (FenceDemo.call ∈ Target.tg_calls FenceDemo.refused.2).
Proof.
  intros Hc.
  destruct (Target.revocation_fences_target fr ct TargetDemo.kid TargetDemo.decode TargetDemo.one FenceDemo.waiting TargetDemo.stop
              (Target.tg_revocations FenceDemo.after) FenceDemo.refused.2 [Target.Cancelled FenceDemo.call] FenceDemo.call "agent-1" "lease-1" "e2") as [Hx|Hx].
  - vm_compute. reflexivity.
  - reflexivity.
  - reflexivity.
  - reflexivity.
  - vm_compute. reflexivity.
  - eapply steps_snoc; [apply steps_refl|].
    refine (Target.moves _ _ _ _ _ _ FenceDemo.waiting 0 (Target.Rechecking FenceDemo.call) TargetDemo.calm (Target.Cancelled FenceDemo.call) _ _ _ _); [reflexivity|exact I|].
    vm_compute. reflexivity.
  - exact Hc.
  - apply list_elem_of_In in Hx. vm_compute in Hx. destruct Hx as [Hx|[]]. discriminate Hx.
  - apply list_elem_of_In in Hx. destruct Hx as [Hx|[]]. discriminate Hx.
Defined.

Lemma success_is_recorded_witness :
  exists es row en, stands ct (Target.tg_file TargetDemo.one) es /\ row ∈ Target.tg_rows TargetDemo.one
    /\ of_execution (Target.er_execution_id row) es = Some en /\ Target.er_result row = Some (Target.answer_of ct (Target.er_execution_id row) en).
Proof.
  destruct (Target.success_is_recorded fr ct TargetDemo.kid TargetDemo.decode (Target.mk_revocations [] ∅) TargetDemo.one [demo_thread]) as (es & _ & Hs & Hrow & _).
  - reflexivity.
  - apply one_served. intros k x v Hk Hr. destruct x as [| | | | | | |c| | |]; try exact I.
    assert (Hc : c = Target.mk_call "key-1" (TargetDemo.token_claims "e1") TargetDemo.hello).
    { do 9 (destruct k as [|k]; [vm_compute in Hr; first [discriminate Hr|by injection Hr as <-]|]). lia. }
    subst c. split; [reflexivity|]. split; intros id Hid; vm_compute in Hid; injection Hid as <-; apply wf_demo; try (constructor; reflexivity); vm_compute; reflexivity.
  - destruct (Target.tg_rows TargetDemo.one) as [|row rows] eqn:Er; [vm_compute in Er; discriminate Er|].
    assert (Hst : Target.er_state row = Target.SUCCEEDED) by (vm_compute in Er; injection Er as <- _; reflexivity).
    destruct (Hrow row) as (en & Ho & Hres); [left|exact Hst|]. exists es, row, en. split; [exact Hs|]. split; [left|]. split; [exact Ho|exact Hres].
Defined.
